(* ===== verification/_CoqProject ===== *)
-Q . S2P
Prelude.v
ILOpcodes.v
Instruction.v
CorHeaders.v
Store.v
Chain.v
BranchTargets.v
Retarget.v
Clauses.v
Demo.v
Offsets.v
Graph.v
GraphSpec.v
BackLinks.v
Codec.v
CodecSpec.v
DecodeSpec.v
LinkSpec.v
RoundTrip.v
Frame.v
Lookups.v
EditInvariant.v
Lifecycle.v
Exceptions.v
ExceptionSpec.v
ILMap.v
BaselineSpec.v
CorSig.v
SignatureBuilder.v
Types.v
SigParser.v
Enumerator.v
TypeCreator.v
TypeSpec.v
LocalVars.v
MaxStack.v
MaxStackSpec.v
MethodBody.v
Factory.v
SingleRet.v
MethodBodySpec.v
Delivery.v
DeliverySpec.v
Rejit.v
SigConvert.v
SigConvertSpec.v
InjectCode.v
InjectCodeSpec.v
Inject.v
InjectSpec.v
InjectAll.v
ModuleInfo.v
MethodMaps.v
Registry.v
RegistryCore.v
RegistrySpec.v
RegistryRuns.v
Logger.v
LoggerSpec.v
Proxy.v
Config.v
Startup.v
StartupFuel.v
ConfigSpec.v
StartupSpec.v
