(* ===== verification/Prelude.v ===== *)
(** * The CLR Instrumentation Engine

    The engine is a CLR profiler that lets several instrumentation methods (plug-ins)
    and one raw profiler rewrite the IL of the same method.  When the runtime is about
    to compile a method, the engine asks the instrumentation methods in order of their
    priority, decodes the IL into a graph of instruction objects that they edit, encodes
    the graph again, renders a method body with exception clauses and gives it to the
    runtime.  This library models that path, under [src/src/InstrumentationEngine/] unless
    another directory is named, and the libraries of signatures and method headers that
    it rests on.

    ** How the code is modelled

    A C++ function is a Gallina function with the same guards and early returns.
    Functions on one object or on bytes return an [outcome]: a value, a failing
    [HRESULT], undefined behaviour (a read or write outside a buffer, a null
    dereference, uninitialised memory), or exhausted fuel.  Functions on shared objects
    are in the state monad [M]; its instance [W] threads a [World] ([Store.v]), a store
    of instructions, graphs, exception clauses and methods by pointer, so that aliasing
    is that of the source and a failing call keeps the assignments it made.  [DWORD]
    arithmetic is written with [u32] wherever it can wrap.  Locks and reference counts
    are left out, but for the references of the registry, whose cycles are what
    keeps objects alive: every modelled operation runs under the lock of its object, or on
    objects of one method that one thread compiles.

    ** The parts

    - [Prelude.v]: integers, outcomes, the monad, bytes, the classes and tactics that
      the other files share ([Preserves], the tactic [pres], the hints [cie]).
    - [ILOpcodes.v], [Instruction.v]: the opcode table [inc/clr/extra/ILOpcodes.h] and
      one instruction ([Instruction.h], [Instruction.cpp]): decoding, sizes, operands,
      branch forms, compact constructors.
    - [Store.v], [BranchTargets.v], [Clauses.v], [Graph.v]: the world; branch targets and
      back links ([BranchTargetInfo.cpp]); the list of clauses and its upkeep
      ([ExceptionSection.cpp], [ExceptionClause.cpp]); the edits and lookups of
      [InstructionGraph.cpp].  [Chain.v], [Retarget.v], [Offsets.v], [Frame.v] are their
      theory: [graph_list w g l] says that the graph [g] represents the sequence [l].
      [GraphSpec.v] refines each edit to an operation on sequences; [Lookups.v] does
      the lookups; [BackLinks.v] has the invariant of back links, [code_ok], that every
      operation preserves; [EditInvariant.v] composes edits into sessions; [Demo.v] has
      the sample world.
    - [Codec.v]: [DecodeInstructions], [EncodeIL], [EmitIL].  [CodecSpec.v],
      [DecodeSpec.v], [LinkSpec.v], [RoundTrip.v]: the reference encoding, the disassembly
      that the decoded graph represents, and the round trip.  [Lifecycle.v]: decoding, a
      session of edits and encoding, one after the other.
    - [CorHeaders.v], [Exceptions.v], [ExceptionSpec.v]: the format of method bodies
      ([CorHeaders.h], [CorHeaders.cpp]) and the reading, rendering and ordering of
      exception clauses.
    - [ILMap.v], [BaselineSpec.v]: IL maps ([MethodInfo.cpp], [ModuleInfo.cpp]) and
      [CInstructionGraph::CreateBaseline].
    - [CorSig.v], [SignatureBuilder.v], [SigParser.v]: compressed signatures
      ([src/src/unix/inc/mincor/cor.h]), their builder and their parser.  [Types.v],
      [TypeCreator.v], [TypeSpec.v]: the type objects and the parser of types.
      [Enumerator.v]: [src/src/InstrumentationEngine.Lib/EnumeratorImpl.h].
      [LocalVars.v]: [LocalVariableCollection.cpp].
    - [MaxStack.v], [MaxStackSpec.v]: [CalculateMaxStack] and [GetStackImpact].
    - [Factory.v]: [InstructionFactory.cpp]; [SingleRet.v]: the default instrumentation of
      [SingleRetDefaultInstrumentation.cpp], a client of the graph and of the locals.
    - [MethodBody.v], [MethodBodySpec.v]: the lazy construction of the graph of a method
      and the rendering of its new body ([MethodInfo.cpp]).
    - [Delivery.v], [DeliverySpec.v]: one instrumentation pass ([ProfilerManager.cpp],
      [CorProfilerFunctionControlWrapper.cpp]) and what the runtime is given.
    - [Rejit.v]: inline sites ([InlineSiteMap.cpp]) and rejit requests ([ModuleInfo.cpp]).
    - [SigConvert.v], [InjectCode.v], [Inject.v]: the copying of a module into another
      ([AssemblyInjector.cpp]): signatures, method bodies, and the functions that import
      the rows of the metadata tables with their caches; the state of the class is
      [Injector].  [SigConvertSpec.v], [InjectCodeSpec.v], [InjectSpec.v], [InjectAll.v] are
      their theory: the reference conversions, the relation [imports_except] between the
      states before and after an import, and [ImportAll].
    - [ModuleInfo.v]: a module object ([ModuleInfo.cpp]): its initialisation, the headers of
      its PE image in the flat and in the mapped layout, flags and versions.
      [MethodMaps.v]: the collections of method objects of the modules and of the manager,
      inlining ([CProfilerManager::JITInlining]) and the life of a method object in a
      compilation.
    - [Registry.v]: app domains, assemblies and modules ([AppDomainInfo.cpp],
      [AssemblyInfo.cpp], [AppDomainCollection.cpp]) and the callbacks of
      [ProfilerManager.cpp] that construct and release them, as a state [Registry] of
      objects by pointer and a datatype [Callback].  [RegistryCore.v] has the part of the
      state that refers ([Core]) with its invariants [CoreInv] and [Tidy];
      [RegistrySpec.v] shows that every callback keeps them and what lookups find;
      [RegistryRuns.v] has the theorems on sequences of callbacks.
    - [Logger.v]: the log ([src/src/InstrumentationEngine.Lib/Logging.cpp],
      [LoggerService.cpp], the four sinks, [EventLoggingBase.cpp]) and the logging of
      instrumentation methods ([ProfilerManagerForInstrumentationMethod.cpp]): flags, the
      lists of sinks, formatting, and what is written, as a state [CLogging].
      [LoggerSpec.v] says which messages reach which sink.
    - [Proxy.v]: the profiler proxy, which is loaded in place of the engine and loads the
      latest version of it ([src/src/InstrumentationEngine.ProfilerProxy/dllmain.cpp] and
      [src/src/InstrumentationEngine.ProfilerProxy.Lib/]).
    - [Config.v]: where configurations are found and what is read from one
      ([ConfigurationLocator.cpp], [ConfigurationLoader.cpp] and
      [RawProfilerHookSettingsReader.cpp] of [src/src/InstrumentationEngine.Lib/],
      [src/src/Common.Lib/XmlNode.cpp], and the configuration of an attach in
      [ProfilerManager.cpp]).  [Startup.v]: the profiler manager from the call of the
      runtime to the last instrumentation method ([ProfilerManager.cpp],
      [InstrumentationMethod.cpp], [RawProfilerHookLoader.cpp]), as a state
      [CProfilerManager]; a plug-in is the list of the calls that it makes back into the
      engine ([PluginCall]).  [ConfigSpec.v], [StartupFuel.v] and [StartupSpec.v] are their
      theory.

    ** What the theorems show

    - Codec: well-formed IL is decoded into the graph of its disassembly with every
      branch and case linked; encoding emits the reference encoding of each instruction
      with an IL map of old to new offsets; the two compose to the identity.  On code
      with an opcode of length zero the decoder never returns.
    - Edits: each edit implements its operation on the represented sequence, moves the
      branches and clauses it should and nothing else, and rejects instructions of other
      graphs; sequences of legal edits keep the list, the back links and the clauses
      consistent and never get stuck, and what they leave can be encoded; offsets are
      prefix sums of sizes after any edit.  The default instrumentation leaves one [ret]
      to which all the others, except those behind tail calls, have been redirected.
    - Bodies: rendered clauses and rendered bodies are read back as they were; new
      clauses keep the nesting order; the maximal stack is an upper bound of every
      assignment of depths in the sense of ECMA-335.
    - Maps: merging maps composes relations; a baseline is set once.
    - Signatures: integers, tokens, types, method and local signatures round-trip, the
      parsers stay inside their input with the exceptions that the theorems name, and
      the growing builder refines concatenation.
    - Pass: the order of all callbacks on every outcome, that nothing reaches the runtime
      unless everybody agreed, the order of the instrumentation methods, and exactly
      which methods a rejit request names.
    - Injector: the conversion of signatures and of IL replaces the tokens and nothing
      else; a token that has been imported keeps its image and is not imported again; when
      [ImportAll] succeeds, every type with all its members has been imported.  The caches
      do not end the recursion on types that implement an interface at themselves.
    - Modules: the headers of a flat image and of the mapped one are read alike.  Between
      callbacks no method object is held, and inline sites are recorded exactly when
      inlining is allowed.
    - Registry: whatever callbacks the runtime makes, app domains, assemblies and modules
      refer to each other consistently and are registered where the runtime says they
      belong; lookups find what was constructed and not what was unloaded; after the
      shutdown of an app domain no cycle of counted references is left of it, unless an
      instrumentation method fails an unload.
    - Logging: after any sequence of calls a message reaches exactly the sinks whose
      flags admit it; the flags of instrumentation methods refine a map from methods to
      levels; what an instrumentation method logs arrives as it is, behind the prefix of the
      method, but a message without that prefix is taken for a format.
    - Proxy: the version that is loaded does not depend on the order in which folders are
      listed, and asking for a specific version never works.
    - Configuration and start-up: a configuration is read as what it says, in whatever
      order its elements are written; every start-up ends, with the instrumentation methods
      in the order of their priorities and the runtime watching at least the events of the
      engine; after it no plug-in changes an immutable event of the engine.

    Theorems without an id are lemmas of those with one, or state facts that the findings of
    the library name, such as [Next_skips_a_word] or [FromSignature_reads_past].

    ** Fuel

    Loops over lists of instructions, sections and clauses, and the recursion of the
    type parser, take fuel.  Theorems ask for as many steps as there are instructions
    ([length l <= fuel]), bytes ([length code < fuel], [length bs <= fuel]) or sections,
    and conclude that the result is reached; the fuel of [Inject.import] is the depth of
    the calls between the functions of the injector, and that of [AddInstrumentationMethod]
    the depth of plug-ins that add plug-ins, for which [Nesting] asks a rank.  A theorem with "diverges" in its name says
    that no fuel is enough.

    ** Parameters

    [ICorProfilerInfo], [IMetaDataImport] and [IMetaDataEmit] belong to the runtime, and
    instrumentation methods and the raw profiler are plug-ins: they are arguments of the
    definitions that call them ([MetaDataImport], [RuntimeCall], [InstrumentationMethod]),
    with named laws only where a client relies on documented behaviour ([MetadataLaws]).
    What the runtime knows of app domains, assemblies and modules is the record [Runtime],
    files and loaded libraries are [System]; [RuntimeReturns] says that their answers are
    values or errors.  The order in which an [unordered_map] lists its entries is the class
    [UnorderedMap].  The calls of the proxy into Windows are the record [Windows], with the documented
    behaviour of [GetEnvironmentVariable] as [EnvironmentLaws]; those of the log are the
    record [Environment], with [EnvironmentFits] where every sink can be set up; those of
    the configuration, parsed documents included, are [Host], and those of the start-up
    [Loader], which gives a [Library] for a path and that a [Plugin] for a class; the runtime
    at start-up is [Clr].  For the injector the
    source module is the record [SourceImport] of the answers of its metadata, which are
    only read; the calls to the target module and to the runtime are the type [TargetCall],
    which the parameter [target] interprets over a state of its own; the operand classes
    that [opcode.def] of the SDK gives are [g_opcodeInlineValues], with [OpcodeTable] as
    the law that it describes the same instructions as [ILOpcodes.h].

    ** Not modelled

    The thread and the queue of the event log, time stamps of the log file and the dump of
    XML, the validation of signatures of files and the parser of XML, the messages that the
    engine itself logs during the start-up, the interleaving with a thread of the start-up
    that exceeds its time limit (it is taken to run to its end at once), the shutdown of the
    profiler manager, the branches for Unix, the callbacks that only forward their
    arguments, names and attributes of methods (read from metadata), the truncation of
    names to the buffers of the injector, COM reference counting and [QueryInterface], the
    formatting of instructions for the log, vendored headers, installers and tests. *)
From stdpp Require Export base numbers list gmap strings.
From Stdlib Require Export ZArith Lia.

#[global] Open Scope Z_scope.

(** ** Machine integers

    A [w]-bit unsigned integer is a [Z] in [0, 2^w); the wrap-around of every
    arithmetic operation of the source is written out with [u8]/[u16]/[u32]. *)

Definition u8 (z : Z) : Z := z mod 2 ^ 8.

Definition u16 (z : Z) : Z := z mod 2 ^ 16.

Definition u32 (z : Z) : Z := z mod 2 ^ 32.

(** Reinterpretation of the low 8/32 bits as a two's complement integer
    (the casts to [char] and [int] of the source). *)
Definition s8 (z : Z) : Z := (z + 2 ^ 7) mod 2 ^ 8 - 2 ^ 7.

Definition s32 (z : Z) : Z := (z + 2 ^ 31) mod 2 ^ 32 - 2 ^ 31.

Definition is_byte (b : Z) : Prop := 0 <= b < 256.

Definition is_u32 (z : Z) : Prop := 0 <= z < 2 ^ 32.

#[export] Instance is_byte_dec b : Decision (is_byte b).
Proof. unfold is_byte. apply _. Defined.

#[export] Instance is_u32_dec z : Decision (is_u32 z).
Proof. unfold is_u32. apply _. Defined.

(** ** HRESULT, undefined behaviour and the monads

    [HRESULT] keeps the codes the modelled sources return.  [outcome] is the
    result of a C++ function: a value, a failing [HRESULT], undefined
    behaviour (a read or write outside a buffer, a null dereference, a read of
    uninitialised memory), or an exhausted iteration budget. *)

Inductive HRESULT :=
| S_OK | S_FALSE
| E_FAIL | E_POINTER | E_INVALIDARG | E_UNEXPECTED | E_OUTOFMEMORY
| E_BOUNDS | E_NOTIMPL | E_NOINTERFACE | CORPROF_E_PROFILER_CANCEL_ACTIVATION | META_E_BAD_SIGNATURE | CLDB_E_RECORD_NOTFOUND
| HRESULT_FROM_WIN32 (code : Z) | MAKE_HRESULT_FROM_ERRNO (errnoValue : Z).

#[export] Instance HRESULT_eq_dec : EqDecision HRESULT.
Proof. solve_decision. Defined.

(** The macro [FAILED]. *)
Definition FAILED (hr : HRESULT) : bool :=
  match hr with S_OK | S_FALSE => false | HRESULT_FROM_WIN32 code | MAKE_HRESULT_FROM_ERRNO code => negb (code =? 0) | _ => true end.

Inductive undef := OutOfBoundsRead | OutOfBoundsWrite | NullDeref | UninitRead | BadIterator | BadCast.

#[export] Instance undef_eq_dec : EqDecision undef.
Proof. solve_decision. Defined.

Inductive outcome (A : Type) :=
| Ok (a : A)
| Err (hr : HRESULT)
| Undef (u : undef)
| NoFuel.
Arguments Ok {A} a.
Arguments Err {A} hr.
Arguments Undef {A} u.
Arguments NoFuel {A}.

(** The code returned: it is not undefined and has not run out of fuel. *)
Definition returns {A} (o : outcome A) : Prop := match o with Ok _ | Err _ => True | _ => False end.

Definition obind {A B} (m : outcome A) (f : A -> outcome B) : outcome B :=
  match m with
  | Ok a => f a
  | Err hr => Err hr
  | Undef u => Undef u
  | NoFuel => NoFuel
  end.

Definition of_option {A} (u : undef) (o : option A) : outcome A :=
  match o with Some a => Ok a | None => Undef u end.

(** Stateful code: the state survives a failing [HRESULT], because the source
    returns early and keeps every assignment it has made. *)
Definition M (S A : Type) : Type := S -> outcome A * S.

Definition ret {S A} (a : A) : M S A := fun s => (Ok a, s).

Definition fail {S A} (hr : HRESULT) : M S A := fun s => (Err hr, s).

Definition undefined {S A} (u : undef) : M S A := fun s => (Undef u, s).

Definition out_of_fuel {S A} : M S A := fun s => (NoFuel, s).

Definition bind {S A B} (m : M S A) (f : A -> M S B) : M S B := fun s =>
  match m s with
  | (Ok a, s') => f a s'
  | (Err hr, s') => (Err hr, s')
  | (Undef u, s') => (Undef u, s')
  | (NoFuel, s') => (NoFuel, s')
  end.

Definition lift {S A} (o : outcome A) : M S A := fun s => (o, s).

Definition gets {S A} (f : S -> A) : M S A := fun s => (Ok (f s), s).

Definition modify {S} (f : S -> S) : M S unit := fun s => (Ok tt, f s).

(** [SUCCEEDED(e)] and calls whose [HRESULT] is dropped: a failing code is
    turned into [None] and execution goes on. *)
Definition attempt {S A} (m : M S A) : M S (option A) := fun s =>
  match m s with
  | (Ok a, s') => (Ok (Some a), s')
  | (Err _, s') => (Ok None, s')
  | (Undef u, s') => (Undef u, s')
  | (NoFuel, s') => (NoFuel, s')
  end.

(** [IfFailRet] on a call of which only the code matters. *)
Definition if_fail_ret {S} (hr : HRESULT) : M S unit := if FAILED hr then fail hr else ret tt.

(** A destructor that runs when [m] leaves the scope, with or without an error. *)
Definition finally {S A} (m : M S A) (cleanup : M S unit) : M S A := fun s =>
  match m s with
  | (Ok a, s') => match cleanup s' with (Ok _, s'') => (Ok a, s'') | (Err hr, s'') => (Err hr, s'')
                  | (Undef u, s'') => (Undef u, s'') | (NoFuel, s'') => (NoFuel, s'') end
  | (Err hr, s') => match cleanup s' with (Ok _, s'') | (Err _, s'') => (Err hr, s'')
                  | (Undef u, s'') => (Undef u, s'') | (NoFuel, s'') => (NoFuel, s'') end
  | r => r
  end.

(** A loop over a vector. *)
Definition for_each {S A} (f : A -> M S unit) : list A -> M S unit :=
  fix go l := match l with
  | [] => ret tt
  | x :: l => bind (f x) (fun _ => go l)
  end.

(** [IfFalseRet(cond, hr)]. *)
Definition if_false_ret {S} (b : bool) (hr : HRESULT) : M S unit :=
  if b then ret tt else fail hr.

(** [IfNullRet]/[IfNullRetPointer] on a pointer that may be null. *)
Definition if_null_ret {S A} (o : option A) (hr : HRESULT) : M S A :=
  match o with Some a => ret a | None => fail hr end.

(** Dereference of a pointer the source does not test. *)
Definition deref {S A} (o : option A) : M S A :=
  match o with Some a => ret a | None => undefined NullDeref end.

Declare Scope cie_scope.
Delimit Scope cie_scope with cie.

Notation "x <- m ;; k" := (bind m (fun x => k))
  (at level 100, m at next level, right associativity) : cie_scope.

Notation "m ;;; k" := (bind m (fun _ => k))
  (at level 100, right associativity) : cie_scope.

Notation "x <~ m ;; k" := (obind m (fun x => k))
  (at level 100, m at next level, right associativity) : cie_scope.

#[global] Open Scope cie_scope.

(** ** Little-endian bytes and buffers *)

Fixpoint le_bytes (n : nat) (z : Z) : list Z :=
  match n with
  | O => []
  | S n' => z mod 256 :: le_bytes n' (z / 256)
  end.

Fixpoint le_val (l : list Z) : Z :=
  match l with
  | [] => 0
  | b :: l' => b + 256 * le_val l'
  end.

(** [n] bytes of [buf] from position [pos]; [None] outside the buffer. *)
Definition read_at (buf : list Z) (pos : Z) (n : nat) : option (list Z) :=
  if decide (0 <= pos /\ pos + Z.of_nat n <= Z.of_nat (length buf))
  then Some (take n (drop (Z.to_nat pos) buf))
  else None.

(** Overwrite [length bs] bytes of [buf] from [pos]; [None] outside it. *)
Definition write_at {A} (buf : list A) (pos : Z) (bs : list A) : option (list A) :=
  if decide (0 <= pos /\ pos + Z.of_nat (length bs) <= Z.of_nat (length buf))
  then Some (take (Z.to_nat pos) buf ++ bs ++ drop (Z.to_nat pos + length bs) buf)
  else None.

Definition read_byte (buf : list Z) (pos : Z) : outcome Z :=
  bs <~ of_option OutOfBoundsRead (read_at buf pos 1) ;; Ok (le_val bs).

Definition read_le (buf : list Z) (pos : Z) (n : nat) : outcome Z :=
  bs <~ of_option OutOfBoundsRead (read_at buf pos n) ;; Ok (le_val bs).

(** ** Tactics *)

(** Destruct the scrutinee of the first [match] of a hypothesis. *)
Ltac case_in H :=
  match type of H with
  | context [match ?x with _ => _ end] => destruct x eqn:?
  end.

(** Step through the binds of a computation that is known to return. *)
Ltac minv H :=
  repeat (first
    [ discriminate H
    | progress (cbn [bind ret fail lift gets modify attempt if_false_ret
                     if_null_ret deref obind of_option undefined] in H)
    | progress simplify_eq/=
    | case_in H ]).

(** [lia] with the defining equations of [/] and [mod]. *)
Ltac zlia := unfold is_byte, is_u32, u8, u16, u32, s8, s32 in *;
  Z.to_euclidean_division_equations; lia.

Create HintDb cie.
#[export] Hint Unfold is_byte is_u32 : cie.

(** ** Lemmas shared by the components *)

Lemma u32_small z : is_u32 z -> u32 z = z.
Proof. apply Z.mod_small. Qed.

Lemma u32_range z : is_u32 (u32 z).
Proof. apply Z.mod_pos_bound. lia. Qed.

Lemma u8_small z : is_byte z -> u8 z = z.
Proof. apply Z.mod_small. Qed.

Lemma u8_range z : is_byte (u8 z).
Proof. apply Z.mod_pos_bound. lia. Qed.

Lemma s8_range z : -128 <= s8 z < 128.
Proof. unfold s8. pose proof (Z.mod_pos_bound (z + 2 ^ 7) (2 ^ 8)). lia. Qed.

Lemma s32_range z : - 2 ^ 31 <= s32 z < 2 ^ 31.
Proof. unfold s32. pose proof (Z.mod_pos_bound (z + 2 ^ 31) (2 ^ 32)). lia. Qed.

Lemma s32_u32 z : - 2 ^ 31 <= z < 2 ^ 31 -> s32 (u32 z) = z.
Proof.
  intros Hz. unfold s32, u32. rewrite Zplus_mod_idemp_l.
  rewrite Z.mod_small; lia.
Qed.

Lemma u32_idemp_l a b : u32 (u32 a + b) = u32 (a + b).
Proof. unfold u32. apply Zplus_mod_idemp_l. Qed.

Lemma u32_idemp_r a b : u32 (a + u32 b) = u32 (a + b).
Proof. unfold u32. apply Zplus_mod_idemp_r. Qed.

Lemma u32_u32 z : u32 (u32 z) = u32 z.
Proof. apply u32_small, u32_range. Qed.

#[export] Hint Rewrite u32_idemp_l u32_idemp_r u32_u32 : cie.
#[export] Hint Resolve u32_range u8_range u32_small u8_small : cie.

(** A boolean test checked on an initial range holds of every number in it. *)
Lemma range_forall n (P : Z -> bool) :
  forallb P (seqZ 0 n) = true -> forall z, 0 <= z < n -> P z = true.
Proof.
  intros H z Hz. rewrite forallb_forall in H. apply H.
  apply list_elem_of_In, elem_of_seqZ. exact Hz.
Qed.

Lemma bytes_forall (P : Z -> bool) :
  forallb P (seqZ 0 256) = true -> forall b, is_byte b -> Is_true (P b).
Proof. intros H b Hb. apply Is_true_true_2. by apply (range_forall 256). Qed.

(** Putting fields together. *)
Lemma land_shiftl_low x n y : 0 <= n -> 0 <= y < 2 ^ n -> Z.land (Z.shiftl x n) y = 0.
Proof.
  intros Hn Hy. apply Z.bits_inj_0. intros k. rewrite Z.land_spec. destruct (Z.lt_ge_cases k n).
  - by rewrite Z.shiftl_spec_low.
  - destruct (Z.lt_ge_cases k 0); [by rewrite Z.testbit_neg_r|].
    rewrite <- (Z.mod_small y (2 ^ n)), Z.mod_pow2_bits_high by lia. apply andb_false_r.
Qed.

Lemma lor_shiftl_add x n y : 0 <= n -> 0 <= y < 2 ^ n -> Z.lor (Z.shiftl x n) y = x * 2 ^ n + y.
Proof.
  intros Hn Hy. rewrite <- Z.shiftl_mul_pow2, <- Z.add_lor_land by done.
  rewrite land_shiftl_low by done. lia.
Qed.

Lemma length_le_bytes n z : length (le_bytes n z) = n.
Proof. revert z. induction n; intros; simpl; auto. Qed.

Lemma le_bytes_is_byte n z : Forall is_byte (le_bytes n z).
Proof.
  revert z. induction n; intros z; simpl; constructor; auto.
  apply Z.mod_pos_bound. lia.
Qed.

Lemma le_val_range l : Forall is_byte l -> 0 <= le_val l < 256 ^ Z.of_nat (length l).
Proof.
  induction 1 as [|b l Hb Hl IH]; [simpl; lia|].
  cbn [le_val length]. unfold is_byte in Hb.
  rewrite Nat2Z.inj_succ, Z.pow_succ_r by lia. lia.
Qed.

Lemma le_val_le_bytes n z : le_val (le_bytes n z) = z mod 256 ^ Z.of_nat n.
Proof.
  revert z. induction n as [|n IH]; intros z; cbn [le_bytes le_val].
  - by rewrite Z.mod_1_r.
  - rewrite IH, Nat2Z.inj_succ, Z.pow_succ_r by lia.
    rewrite Z.rem_mul_r; lia.
Qed.

Lemma le_bytes_le_val l : Forall is_byte l -> le_bytes (length l) (le_val l) = l.
Proof.
  induction 1 as [|b l Hb Hl IH]; [done|].
  cbn [le_val length le_bytes]. unfold is_byte in Hb.
  rewrite (Z.mul_comm 256), Z_mod_plus_full, Z.mod_small by lia.
  rewrite Z_div_plus_full, Z.div_small, Z.add_0_l by lia. by rewrite IH.
Qed.

Lemma le_bytes_mod n z k :
  (n <= k)%nat -> le_bytes n (z mod 256 ^ Z.of_nat k) = le_bytes n z.
Proof.
  revert z k. induction n as [|n IH]; intros z k Hk; [done|].
  destruct k as [|k]; [lia|]. cbn [le_bytes].
  rewrite Nat2Z.inj_succ, Z.pow_succ_r by lia.
  assert (Hp : 0 < 256 ^ Z.of_nat k) by lia.
  rewrite Z.rem_mul_r by lia. f_equal.
  - rewrite (Z.mul_comm 256), Z_mod_plus_full, Z.mod_mod; lia.
  - rewrite (Z.mul_comm 256), Z_div_plus_full, (Z.div_small (z mod 256)) by
      (try apply Z.mod_pos_bound; lia).
    rewrite Z.add_0_l. apply IH. lia.
Qed.

#[export] Hint Rewrite length_le_bytes : cie.
#[export] Hint Resolve le_bytes_is_byte : cie.

Lemma read_at_Some buf pos n bs :
  read_at buf pos n = Some bs <->
  0 <= pos /\ pos + Z.of_nat n <= Z.of_nat (length buf) /\
  bs = take n (drop (Z.to_nat pos) buf).
Proof.
  unfold read_at. case_decide as Hd; split.
  - intros [= <-]. tauto.
  - by intros (_ & _ & ->).
  - done.
  - intros (? & ? & _). lia.
Qed.

Lemma read_at_length buf pos n bs : read_at buf pos n = Some bs -> length bs = n.
Proof.
  rewrite read_at_Some. intros (? & ? & ->). rewrite length_take, length_drop. lia.
Qed.

Lemma read_at_Forall (P : Z -> Prop) buf pos n bs :
  Forall P buf -> read_at buf pos n = Some bs -> Forall P bs.
Proof.
  rewrite read_at_Some. intros H (_ & _ & ->). by apply Forall_take, Forall_drop.
Qed.

Lemma read_at_app_r pre buf pos n :
  Z.of_nat (length pre) <= pos ->
  read_at (pre ++ buf) pos n = read_at buf (pos - Z.of_nat (length pre)) n.
Proof.
  intros Hp. unfold read_at. rewrite length_app.
  do 2 case_decide; try lia; [|done]. do 2 f_equal.
  rewrite drop_app_ge by lia. f_equal. lia.
Qed.

Lemma read_at_app_l buf post pos n bs :
  read_at buf pos n = Some bs -> read_at (buf ++ post) pos n = Some bs.
Proof.
  rewrite !read_at_Some, length_app. intros (? & ? & ->). split_and!; [lia..|].
  rewrite drop_app_le by lia. rewrite take_app_le; [done|]. rewrite length_drop. lia.
Qed.

Lemma read_at_here bs post : read_at (bs ++ post) 0 (length bs) = Some bs.
Proof.
  rewrite read_at_Some, length_app. split_and!; [lia..|].
  rewrite drop_0. by rewrite take_app_length.
Qed.

Lemma write_at_app {A} (pre old post : list A) pos bs :
  pos = Z.of_nat (length pre) -> length old = length bs ->
  write_at (pre ++ old ++ post) pos bs = Some (pre ++ bs ++ post).
Proof.
  intros -> Hlen. unfold write_at. rewrite !length_app.
  rewrite decide_True by lia. rewrite Nat2Z.id. do 2 f_equal.
  - by rewrite take_app_length.
  - f_equal. rewrite drop_app_ge by lia.
    replace (length pre + length bs - length pre)%nat with (length old) by lia.
    by rewrite drop_app_length.
Qed.

Lemma write_at_length {A} (buf : list A) pos bs buf' :
  write_at buf pos bs = Some buf' -> length buf' = length buf.
Proof.
  unfold write_at. case_decide; [|done]. intros [= <-].
  rewrite !length_app, length_take, length_drop. lia.
Qed.

Lemma read_at_split code pos n m bs1 bs2 :
  read_at code pos n = Some bs1 -> read_at code (pos + Z.of_nat n) m = Some bs2 ->
  read_at code pos (n + m) = Some (bs1 ++ bs2).
Proof.
  rewrite !read_at_Some. intros (? & ? & ->) (? & ? & ->). split_and!; [lia..|].
  rewrite <- take_take_drop. do 2 f_equal. rewrite drop_drop. f_equal. lia.
Qed.

Lemma read_at_take code pos n m bs :
  read_at code pos (n + m) = Some bs -> read_at code pos n = Some (take n bs).
Proof.
  rewrite !read_at_Some. intros (? & ? & ->). split_and!; [lia..|].
  rewrite take_take. f_equal. lia.
Qed.

Lemma read_at_drop code pos n m bs :
  read_at code pos (n + m) = Some bs -> read_at code (pos + Z.of_nat n) m = Some (drop n bs).
Proof.
  rewrite !read_at_Some. intros (? & ? & ->). split_and!; [lia..|].
  rewrite skipn_firstn_comm, drop_drop. f_equal; [lia|]. f_equal. lia.
Qed.

(** Splitting a bind that returned. *)
Lemma bind_Ok {S A B} (m : M S A) (f : A -> M S B) s b s' :
  bind m f s = (Ok b, s') -> exists a s1, m s = (Ok a, s1) /\ f a s1 = (Ok b, s').
Proof. unfold bind. destruct (m s) as [[] ?]; naive_solver. Qed.

Lemma obind_Ok {A B} (m : outcome A) (f : A -> outcome B) b :
  obind m f = Ok b -> exists a, m = Ok a /\ f a = Ok b.
Proof. destruct m; simpl; naive_solver. Qed.

Lemma read_byte_Ok code pos b :
  read_byte code pos = Ok b -> exists bs, read_at code pos 1 = Some bs /\ bs = [b].
Proof.
  unfold read_byte. destruct (read_at code pos 1) as [bs|] eqn:Hr; [|done].
  simpl. intros [= <-]. exists bs. split; [done|].
  apply read_at_length in Hr. destruct bs as [|b [|]]; try done. simpl. f_equal. lia.
Qed.

Lemma read_byte_is_byte code pos b : Forall is_byte code -> read_byte code pos = Ok b -> is_byte b.
Proof.
  intros Hb (bs & Hr & ->)%read_byte_Ok. apply (read_at_Forall is_byte) in Hr; [|done]. by inversion Hr.
Qed.

Lemma read_le_Ok code pos n z :
  read_le code pos n = Ok z -> exists bs, read_at code pos n = Some bs /\ z = le_val bs.
Proof.
  unfold read_le. destruct (read_at code pos n); [|done]. simpl. intros [= <-]. eauto.
Qed.

Lemma read_byte_mid pre b l post :
  read_byte (pre ++ (b :: l) ++ post) (Z.of_nat (length pre)) = Ok b.
Proof.
  unfold read_byte. rewrite read_at_app_r, Z.sub_diag by lia.
  change 1%nat with (length [b]). change ((b :: l) ++ post) with ([b] ++ (l ++ post)).
  rewrite read_at_here. cbn. f_equal. lia.
Qed.

Lemma read_le_bytes code pos n z :
  Forall is_byte code -> read_le code pos n = Ok z ->
  read_at code pos n = Some (le_bytes n z) /\ 0 <= z < 256 ^ Z.of_nat n.
Proof.
  intros Hb (bs & Hr & ->)%read_le_Ok.
  pose proof (read_at_length _ _ _ _ Hr) as Hl.
  apply (read_at_Forall is_byte) in Hr as Hbs; [|done]. subst n.
  split; [by rewrite le_bytes_le_val|]. by apply le_val_range.
Qed.

(** ** Invariants of stateful code

    [Preserves R m]: whatever [m] returns, the state it leaves is related by the
    preorder [R] to the state it found.  The instances follow the structure of
    the code, so that the frame of an operation is found by type class search. *)
Class Preserves {S A : Type} (R : S -> S -> Prop) (m : M S A) : Prop :=
  preserves : forall s, R s (m s).2.

Section Preserves.
Context {S : Type} (R : S -> S -> Prop) `{!PreOrder R}.

#[export] Instance pres_ret {A} (a : A) : Preserves R (ret a).
Proof. intros s. reflexivity. Qed.

#[export] Instance pres_fail {A} hr : Preserves R (@fail S A hr).
Proof. intros s. reflexivity. Qed.

#[export] Instance pres_undefined {A} u : Preserves R (@undefined S A u).
Proof. intros s. reflexivity. Qed.

#[export] Instance pres_out_of_fuel {A} : Preserves R (@out_of_fuel S A).
Proof. intros s. reflexivity. Qed.

#[export] Instance pres_lift {A} (o : outcome A) : Preserves R (lift o).
Proof. intros s. reflexivity. Qed.

#[export] Instance pres_bind {A B} (m : M S A) (f : A -> M S B) :
  Preserves R m -> (forall a, Preserves R (f a)) -> Preserves R (bind m f).
Proof.
  intros Hm Hf s. specialize (Hm s). unfold bind.
  destruct (m s) as [[a|hr|u|] s']; cbn in *; [|done..].
  etransitivity; [done|]. apply Hf.
Qed.

#[export] Instance pres_attempt {A} (m : M S A) : Preserves R m -> Preserves R (attempt m).
Proof. intros Hm s. specialize (Hm s). unfold attempt. destruct (m s) as [[] ?]; done. Qed.

#[export] Instance pres_deref {A} (o : option A) : Preserves R (deref o).
Proof. destruct o; intros s; reflexivity. Qed.

#[export] Instance pres_if_null_ret {A} (o : option A) hr : Preserves R (if_null_ret o hr).
Proof. destruct o; intros s; reflexivity. Qed.

#[export] Instance pres_if_false_ret b hr : Preserves R (if_false_ret b hr).
Proof. destruct b; intros s; reflexivity. Qed.

Lemma pres_modify f : (forall s, R s (f s)) -> Preserves R (modify f).
Proof. intros Hf s. apply Hf. Qed.

End Preserves.

#[export] Existing Instances pres_ret pres_fail pres_undefined pres_out_of_fuel pres_lift
  pres_bind pres_attempt pres_deref pres_if_null_ret pres_if_false_ret.

(** Frame of a computation that branches on data. *)
Ltac pres := repeat first
  [ solve [typeclasses eauto]
  | apply pres_bind; [typeclasses eauto | |intros ?]
  | case_match ].

(** The state of a computation that returned. *)
Lemma preserves_run {S A} (R : S -> S -> Prop) (m : M S A) s r s' :
  Preserves R m -> m s = (r, s') -> R s s'.
Proof. intros Hp Hm. specialize (Hp s). by rewrite Hm in Hp. Qed.

(** ** Sequencing rules *)

Lemma run_bind {S A B} (m : M S A) (f : A -> M S B) s a s' :
  m s = (Ok a, s') -> bind m f s = f a s'.
Proof. unfold bind. by intros ->. Qed.

Lemma bind_bind {S A B C} (m : M S A) (f : A -> M S B) (k : B -> M S C) s :
  bind (bind m f) k s = bind m (fun x => bind (f x) k) s.
Proof. unfold bind. by destruct (m s) as [[] ?]. Qed.

Lemma attempt_run {S A} (x : M S A) s r s' :
  x s = (r, s') -> returns r -> attempt x s = (Ok (match r with Ok a => Some a | _ => None end), s').
Proof. intros H Hr. unfold attempt. rewrite H. by destruct r. Qed.

Lemma finally_run {S A} (x : M S A) cleanup s r s' s'' :
  x s = (r, s') -> returns r -> cleanup s' = (Ok tt, s'') -> finally x cleanup s = (r, s'').
Proof. intros H Hr Hc. unfold finally. rewrite H. destruct r; try done; by rewrite Hc. Qed.

Lemma Forall2_mono_in {A B} (P Q : A -> B -> Prop) l k :
  Forall2 P l k -> (forall x y, x ∈ l -> P x y -> Q x y) -> Forall2 Q l k.
Proof.
  induction 1 as [|x y l k H _ IH]; intros HPQ; constructor.
  - apply HPQ; [apply list_elem_of_here|done].
  - apply IH. intros x' y' Hx. apply HPQ. by apply list_elem_of_further.
Qed.

Lemma foldl_ext {A B} (f g : A -> B -> A) a l : (forall a b, f a b = g a b) -> foldl f a l = foldl g a l.
Proof. intros E. revert a. induction l as [|b l IH]; intros a; cbn [foldl]; [done|]. by rewrite E, IH. Qed.

(** ** Wide strings: the list of the code units *)

Definition wstr : Type := list Z.

(** A literal. *)
Definition wide (s : string) : wstr := map (fun c => Z.of_nat (Ascii.nat_of_ascii c)) (String.list_ascii_of_string s).

(** ** [std::unordered_map]

    The order of an iteration is not specified: any listing of the map. *)
Class UnorderedMap := {
  items {K A : Type} `{Countable K} : gmap K A -> list (K * A);
  items_perm {K A : Type} `{Countable K} (m : gmap K A) : items m ≡ₚ map_to_list m
}.
