(* ===== verification/ILOpcodes.v ===== *)
(** The opcode table of the engine ([inc/clr/extra/ILOpcodes.h], included by
    [Instruction.h] to build [CInstruction::s_ilOpcodeInfo]) and the enumerations
    its rows use.  The rows are in the order of the header, so that the index of
    a row is the ordinal of the opcode, except for the last row, whose ordinal is
    0xFFFF while its index is 0x124. *)
From S2P Require Import Prelude.

Inductive ILOperandType :=
| ILOperandType_None | ILOperandType_Byte | ILOperandType_Int | ILOperandType_UShort
| ILOperandType_Long | ILOperandType_Single | ILOperandType_Double
| ILOperandType_Token | ILOperandType_Switch.

#[export] Instance ILOperandType_eq_dec : EqDecision ILOperandType.
Proof. solve_decision. Defined.

(** [ILOpcodeFlags] *)
Definition ILOpcodeFlag_None : Z := 0x0000.
Definition ILOpcodeFlag_Meta : Z := 0x0001.
Definition ILOpcodeFlag_Unused : Z := 0x0002.
Definition ILOpcodeFlag_Branch : Z := 0x0004.

(** [ILOpcodeInfo] of [Instruction.h]: one row of the static table. *)
Record ILOpcodeInfo := OPDEF {
  m_name : string;
  m_opcodeLength : Z;
  m_operandLength : Z;
  m_type : ILOperandType;
  m_alternate : Z;
  m_flags : Z;
  m_popSlots : Z;
  m_pushSlots : Z
}.

(** The stack-slot macros of the header. *)
Definition Pop0 : Z := 0.
Definition Pop1 : Z := 1.
Definition PopI : Z := 1.
Definition PopI8 : Z := 1.
Definition PopR : Z := 1.
Definition PopR8 : Z := 1.
Definition PopR4 : Z := 1.
Definition PopRef : Z := 1.
Definition VarPop : Z := -1.
Definition Push0 : Z := 0.
Definition Push1 : Z := 1.
Definition PushI : Z := 1.
Definition PushI8 : Z := 1.
Definition PushR : Z := 1.
Definition PushR8 : Z := 1.
Definition PushR4 : Z := 1.
Definition PushRef : Z := 1.
Definition VarPush : Z := -1.

(** Ordinals ([ILOrdinalOpcode]) the sources refer to by name. *)
Definition Cee_Nop : Z := 0x0000.
Definition Cee_Break : Z := 0x0001.
Definition Cee_Ldarg_0 : Z := 0x0002.
Definition Cee_Ldloc_0 : Z := 0x0006.
Definition Cee_Stloc_0 : Z := 0x000A.
Definition Cee_Ldarg_S : Z := 0x000E.
Definition Cee_Ldarga_S : Z := 0x000F.
Definition Cee_Starg_S : Z := 0x0010.
Definition Cee_Ldloc_S : Z := 0x0011.
Definition Cee_Ldloca_S : Z := 0x0012.
Definition Cee_Stloc_S : Z := 0x0013.
Definition Cee_Ldc_I4_M1 : Z := 0x0015.
Definition Cee_Ldc_I4_0 : Z := 0x0016.
Definition Cee_Ldc_I4_S : Z := 0x001F.
Definition Cee_Ldc_I4 : Z := 0x0020.
Definition Cee_Dup : Z := 0x0025.
Definition Cee_Pop : Z := 0x0026.
Definition Cee_Jmp : Z := 0x0027.
Definition Cee_Call : Z := 0x0028.
Definition Cee_Calli : Z := 0x0029.
Definition Cee_Ret : Z := 0x002A.
Definition Cee_Br_S : Z := 0x002B.
Definition Cee_Brfalse_S : Z := 0x002C.
Definition Cee_Brtrue_S : Z := 0x002D.
Definition Cee_Beq_S : Z := 0x002E.
Definition Cee_Bge_S : Z := 0x002F.
Definition Cee_Bgt_S : Z := 0x0030.
Definition Cee_Ble_S : Z := 0x0031.
Definition Cee_Blt_S : Z := 0x0032.
Definition Cee_Bne_Un_S : Z := 0x0033.
Definition Cee_Bge_Un_S : Z := 0x0034.
Definition Cee_Bgt_Un_S : Z := 0x0035.
Definition Cee_Ble_Un_S : Z := 0x0036.
Definition Cee_Blt_Un_S : Z := 0x0037.
Definition Cee_Br : Z := 0x0038.
Definition Cee_Brfalse : Z := 0x0039.
Definition Cee_Brtrue : Z := 0x003A.
Definition Cee_Beq : Z := 0x003B.
Definition Cee_Bge : Z := 0x003C.
Definition Cee_Bgt : Z := 0x003D.
Definition Cee_Ble : Z := 0x003E.
Definition Cee_Blt : Z := 0x003F.
Definition Cee_Bne_Un : Z := 0x0040.
Definition Cee_Bge_Un : Z := 0x0041.
Definition Cee_Bgt_Un : Z := 0x0042.
Definition Cee_Ble_Un : Z := 0x0043.
Definition Cee_Blt_Un : Z := 0x0044.
Definition Cee_Switch : Z := 0x0045.
Definition Cee_Add : Z := 0x0058.
Definition Cee_Conv_I1 : Z := 0x0067.
Definition Cee_Callvirt : Z := 0x006F.
Definition Cee_Newobj : Z := 0x0073.
Definition Cee_Throw : Z := 0x007A.
Definition Cee_Endfinally : Z := 0x00DC.
Definition Cee_Leave : Z := 0x00DD.
Definition Cee_Leave_S : Z := 0x00DE.
Definition Cee_Ldarg : Z := 0x0109.
Definition Cee_Ldarga : Z := 0x010A.
Definition Cee_Starg : Z := 0x010B.
Definition Cee_Ldloc : Z := 0x010C.
Definition Cee_Ldloca : Z := 0x010D.
Definition Cee_Stloc : Z := 0x010E.
Definition Cee_Endfilter : Z := 0x0111.
Definition Cee_Tailcall : Z := 0x0114.
Definition Cee_Rethrow : Z := 0x011A.
Definition Cee_Count : Z := 0x0123.
Definition Cee_Invalid : Z := 0xFFFF.

(** Rows 0 to 127: lines 33-160 of the header. *)
Definition s_ilOpcodeInfo_00_7F : list ILOpcodeInfo :=
  [ OPDEF "nop" 1 0 ILOperandType_None Cee_Invalid ILOpcodeFlag_None Pop0 Push0;
    OPDEF "break" 1 0 ILOperandType_None Cee_Invalid ILOpcodeFlag_None Pop0 Push0;
    OPDEF "ldarg.0" 1 0 ILOperandType_None Cee_Invalid ILOpcodeFlag_None Pop0 Push1;
    OPDEF "ldarg.1" 1 0 ILOperandType_None Cee_Invalid ILOpcodeFlag_None Pop0 Push1;
    OPDEF "ldarg.2" 1 0 ILOperandType_None Cee_Invalid ILOpcodeFlag_None Pop0 Push1;
    OPDEF "ldarg.3" 1 0 ILOperandType_None Cee_Invalid ILOpcodeFlag_None Pop0 Push1;
    OPDEF "ldloc.0" 1 0 ILOperandType_None Cee_Invalid ILOpcodeFlag_None Pop0 Push1;
    OPDEF "ldloc.1" 1 0 ILOperandType_None Cee_Invalid ILOpcodeFlag_None Pop0 Push1;
    OPDEF "ldloc.2" 1 0 ILOperandType_None Cee_Invalid ILOpcodeFlag_None Pop0 Push1;
    OPDEF "ldloc.3" 1 0 ILOperandType_None Cee_Invalid ILOpcodeFlag_None Pop0 Push1;
    OPDEF "stloc.0" 1 0 ILOperandType_None Cee_Invalid ILOpcodeFlag_None Pop1 Push0;
    OPDEF "stloc.1" 1 0 ILOperandType_None Cee_Invalid ILOpcodeFlag_None Pop1 Push0;
    OPDEF "stloc.2" 1 0 ILOperandType_None Cee_Invalid ILOpcodeFlag_None Pop1 Push0;
    OPDEF "stloc.3" 1 0 ILOperandType_None Cee_Invalid ILOpcodeFlag_None Pop1 Push0;
    OPDEF "ldarg.s" 1 1 ILOperandType_Byte Cee_Ldarg ILOpcodeFlag_None Pop0 Push1;
    OPDEF "ldarga.s" 1 1 ILOperandType_Byte Cee_Ldarga ILOpcodeFlag_None Pop0 PushI;
    OPDEF "starg.s" 1 1 ILOperandType_Byte Cee_Starg ILOpcodeFlag_None Pop1 Push0;
    OPDEF "ldloc.s" 1 1 ILOperandType_Byte Cee_Ldloc ILOpcodeFlag_None Pop0 Push1;
    OPDEF "ldloca.s" 1 1 ILOperandType_Byte Cee_Ldloca ILOpcodeFlag_None Pop0 PushI;
    OPDEF "stloc.s" 1 1 ILOperandType_Byte Cee_Stloc ILOpcodeFlag_None Pop1 Push0;
    OPDEF "ldnull" 1 0 ILOperandType_None Cee_Invalid ILOpcodeFlag_None Pop0 PushRef;
    OPDEF "ldc.i4.m1" 1 0 ILOperandType_None Cee_Invalid ILOpcodeFlag_None Pop0 PushI;
    OPDEF "ldc.i4.0" 1 0 ILOperandType_None Cee_Invalid ILOpcodeFlag_None Pop0 PushI;
    OPDEF "ldc.i4.1" 1 0 ILOperandType_None Cee_Invalid ILOpcodeFlag_None Pop0 PushI;
    OPDEF "ldc.i4.2" 1 0 ILOperandType_None Cee_Invalid ILOpcodeFlag_None Pop0 PushI;
    OPDEF "ldc.i4.3" 1 0 ILOperandType_None Cee_Invalid ILOpcodeFlag_None Pop0 PushI;
    OPDEF "ldc.i4.4" 1 0 ILOperandType_None Cee_Invalid ILOpcodeFlag_None Pop0 PushI;
    OPDEF "ldc.i4.5" 1 0 ILOperandType_None Cee_Invalid ILOpcodeFlag_None Pop0 PushI;
    OPDEF "ldc.i4.6" 1 0 ILOperandType_None Cee_Invalid ILOpcodeFlag_None Pop0 PushI;
    OPDEF "ldc.i4.7" 1 0 ILOperandType_None Cee_Invalid ILOpcodeFlag_None Pop0 PushI;
    OPDEF "ldc.i4.8" 1 0 ILOperandType_None Cee_Invalid ILOpcodeFlag_None Pop0 PushI;
    OPDEF "ldc.i4.s" 1 1 ILOperandType_Byte Cee_Ldc_I4 ILOpcodeFlag_None Pop0 PushI;
    OPDEF "ldc.i4" 1 4 ILOperandType_Int Cee_Ldc_I4_S ILOpcodeFlag_None Pop0 PushI;
    OPDEF "ldc.i8" 1 8 ILOperandType_Long Cee_Invalid ILOpcodeFlag_None Pop0 PushI8;
    OPDEF "ldc.r4" 1 4 ILOperandType_Single Cee_Invalid ILOpcodeFlag_None Pop0 PushR4;
    OPDEF "ldc.r8" 1 8 ILOperandType_Double Cee_Invalid ILOpcodeFlag_None Pop0 PushR8;
    OPDEF "unused" 1 0 ILOperandType_None Cee_Invalid ILOpcodeFlag_Unused Pop0 Push0;
    OPDEF "dup" 1 0 ILOperandType_None Cee_Invalid ILOpcodeFlag_None Pop1 (Push1+Push1);
    OPDEF "pop" 1 0 ILOperandType_None Cee_Invalid ILOpcodeFlag_None Pop1 Push0;
    OPDEF "jmp" 1 4 ILOperandType_Token Cee_Invalid ILOpcodeFlag_None Pop0 Push0;
    OPDEF "call" 1 4 ILOperandType_Token Cee_Invalid ILOpcodeFlag_None (u32 (VarPop)) (u32 (VarPush));
    OPDEF "calli" 1 4 ILOperandType_Token Cee_Invalid ILOpcodeFlag_None (u32 (VarPop)) (u32 (VarPush));
    OPDEF "ret" 1 0 ILOperandType_None Cee_Invalid ILOpcodeFlag_None (u32 (VarPop)) Push0;
    OPDEF "br.s" 1 1 ILOperandType_Byte Cee_Br ILOpcodeFlag_Branch Pop0 Push0;
    OPDEF "brfalse.s" 1 1 ILOperandType_Byte Cee_Brfalse ILOpcodeFlag_Branch PopI Push0;
    OPDEF "brtrue.s" 1 1 ILOperandType_Byte Cee_Brtrue ILOpcodeFlag_Branch PopI Push0;
    OPDEF "beq.s" 1 1 ILOperandType_Byte Cee_Beq ILOpcodeFlag_Branch (Pop1+Pop1) Push0;
    OPDEF "bge.s" 1 1 ILOperandType_Byte Cee_Bge ILOpcodeFlag_Branch (Pop1+Pop1) Push0;
    OPDEF "bgt.s" 1 1 ILOperandType_Byte Cee_Bgt ILOpcodeFlag_Branch (Pop1+Pop1) Push0;
    OPDEF "ble.s" 1 1 ILOperandType_Byte Cee_Ble ILOpcodeFlag_Branch (Pop1+Pop1) Push0;
    OPDEF "blt.s" 1 1 ILOperandType_Byte Cee_Blt ILOpcodeFlag_Branch (Pop1+Pop1) Push0;
    OPDEF "bne.un.s" 1 1 ILOperandType_Byte Cee_Bne_Un ILOpcodeFlag_Branch (Pop1+Pop1) Push0;
    OPDEF "bge.un.s" 1 1 ILOperandType_Byte Cee_Bge_Un ILOpcodeFlag_Branch (Pop1+Pop1) Push0;
    OPDEF "bgt.un.s" 1 1 ILOperandType_Byte Cee_Bgt_Un ILOpcodeFlag_Branch (Pop1+Pop1) Push0;
    OPDEF "ble.un.s" 1 1 ILOperandType_Byte Cee_Ble_Un ILOpcodeFlag_Branch (Pop1+Pop1) Push0;
    OPDEF "blt.un.s" 1 1 ILOperandType_Byte Cee_Blt_Un ILOpcodeFlag_Branch (Pop1+Pop1) Push0;
    OPDEF "br" 1 4 ILOperandType_Int Cee_Br_S ILOpcodeFlag_Branch Pop0 Push0;
    OPDEF "brfalse" 1 4 ILOperandType_Int Cee_Brfalse_S ILOpcodeFlag_Branch PopI Push0;
    OPDEF "brtrue" 1 4 ILOperandType_Int Cee_Brtrue_S ILOpcodeFlag_Branch PopI Push0;
    OPDEF "beq" 1 4 ILOperandType_Int Cee_Beq_S ILOpcodeFlag_Branch (Pop1+Pop1) Push0;
    OPDEF "bge" 1 4 ILOperandType_Int Cee_Bge_S ILOpcodeFlag_Branch (Pop1+Pop1) Push0;
    OPDEF "bgt" 1 4 ILOperandType_Int Cee_Bgt_S ILOpcodeFlag_Branch (Pop1+Pop1) Push0;
    OPDEF "ble" 1 4 ILOperandType_Int Cee_Ble_S ILOpcodeFlag_Branch (Pop1+Pop1) Push0;
    OPDEF "blt" 1 4 ILOperandType_Int Cee_Blt_S ILOpcodeFlag_Branch (Pop1+Pop1) Push0;
    OPDEF "bne.un" 1 4 ILOperandType_Int Cee_Bne_Un_S ILOpcodeFlag_Branch (Pop1+Pop1) Push0;
    OPDEF "bge.un" 1 4 ILOperandType_Int Cee_Bge_Un_S ILOpcodeFlag_Branch (Pop1+Pop1) Push0;
    OPDEF "bgt.un" 1 4 ILOperandType_Int Cee_Bgt_Un_S ILOpcodeFlag_Branch (Pop1+Pop1) Push0;
    OPDEF "ble.un" 1 4 ILOperandType_Int Cee_Ble_Un_S ILOpcodeFlag_Branch (Pop1+Pop1) Push0;
    OPDEF "blt.un" 1 4 ILOperandType_Int Cee_Blt_Un_S ILOpcodeFlag_Branch (Pop1+Pop1) Push0;
    OPDEF "switch" 1 (u32 (-1)) ILOperandType_Switch Cee_Invalid ILOpcodeFlag_None PopI Push0;
    OPDEF "ldind.i1" 1 0 ILOperandType_None Cee_Invalid ILOpcodeFlag_None PopI PushI;
    OPDEF "ldind.u1" 1 0 ILOperandType_None Cee_Invalid ILOpcodeFlag_None PopI PushI;
    OPDEF "ldind.i2" 1 0 ILOperandType_None Cee_Invalid ILOpcodeFlag_None PopI PushI;
    OPDEF "ldind.u2" 1 0 ILOperandType_None Cee_Invalid ILOpcodeFlag_None PopI PushI;
    OPDEF "ldind.i4" 1 0 ILOperandType_None Cee_Invalid ILOpcodeFlag_None PopI PushI;
    OPDEF "ldind.u4" 1 0 ILOperandType_None Cee_Invalid ILOpcodeFlag_None PopI PushI;
    OPDEF "ldind.i8" 1 0 ILOperandType_None Cee_Invalid ILOpcodeFlag_None PopI PushI8;
    OPDEF "ldind.i" 1 0 ILOperandType_None Cee_Invalid ILOpcodeFlag_None PopI PushI;
    OPDEF "ldind.r4" 1 0 ILOperandType_None Cee_Invalid ILOpcodeFlag_None PopI PushR4;
    OPDEF "ldind.r8" 1 0 ILOperandType_None Cee_Invalid ILOpcodeFlag_None PopI PushR8;
    OPDEF "ldind.ref" 1 0 ILOperandType_None Cee_Invalid ILOpcodeFlag_None PopI PushRef;
    OPDEF "stind.ref" 1 0 ILOperandType_None Cee_Invalid ILOpcodeFlag_None (PopI+PopI) Push0;
    OPDEF "stind.i1" 1 0 ILOperandType_None Cee_Invalid ILOpcodeFlag_None (PopI+PopI) Push0;
    OPDEF "stind.i2" 1 0 ILOperandType_None Cee_Invalid ILOpcodeFlag_None (PopI+PopI) Push0;
    OPDEF "stind.i4" 1 0 ILOperandType_None Cee_Invalid ILOpcodeFlag_None (PopI+PopI) Push0;
    OPDEF "stind.i8" 1 0 ILOperandType_None Cee_Invalid ILOpcodeFlag_None (PopI+PopI8) Push0;
    OPDEF "stind.r4" 1 0 ILOperandType_None Cee_Invalid ILOpcodeFlag_None (PopI+PopR4) Push0;
    OPDEF "stind.r8" 1 0 ILOperandType_None Cee_Invalid ILOpcodeFlag_None (PopI+PopR8) Push0;
    OPDEF "add" 1 0 ILOperandType_None Cee_Invalid ILOpcodeFlag_None (Pop1+Pop1) Push1;
    OPDEF "sub" 1 0 ILOperandType_None Cee_Invalid ILOpcodeFlag_None (Pop1+Pop1) Push1;
    OPDEF "mul" 1 0 ILOperandType_None Cee_Invalid ILOpcodeFlag_None (Pop1+Pop1) Push1;
    OPDEF "div" 1 0 ILOperandType_None Cee_Invalid ILOpcodeFlag_None (Pop1+Pop1) Push1;
    OPDEF "div.un" 1 0 ILOperandType_None Cee_Invalid ILOpcodeFlag_None (Pop1+Pop1) Push1;
    OPDEF "rem" 1 0 ILOperandType_None Cee_Invalid ILOpcodeFlag_None (Pop1+Pop1) Push1;
    OPDEF "rem.un" 1 0 ILOperandType_None Cee_Invalid ILOpcodeFlag_None (Pop1+Pop1) Push1;
    OPDEF "and" 1 0 ILOperandType_None Cee_Invalid ILOpcodeFlag_None (Pop1+Pop1) Push1;
    OPDEF "or" 1 0 ILOperandType_None Cee_Invalid ILOpcodeFlag_None (Pop1+Pop1) Push1;
    OPDEF "xor" 1 0 ILOperandType_None Cee_Invalid ILOpcodeFlag_None (Pop1+Pop1) Push1;
    OPDEF "shl" 1 0 ILOperandType_None Cee_Invalid ILOpcodeFlag_None (Pop1+Pop1) Push1;
    OPDEF "shr" 1 0 ILOperandType_None Cee_Invalid ILOpcodeFlag_None (Pop1+Pop1) Push1;
    OPDEF "shr.un" 1 0 ILOperandType_None Cee_Invalid ILOpcodeFlag_None (Pop1+Pop1) Push1;
    OPDEF "neg" 1 0 ILOperandType_None Cee_Invalid ILOpcodeFlag_None Pop1 Push1;
    OPDEF "not" 1 0 ILOperandType_None Cee_Invalid ILOpcodeFlag_None Pop1 Push1;
    OPDEF "conv.i1" 1 0 ILOperandType_None Cee_Invalid ILOpcodeFlag_None Pop1 PushI;
    OPDEF "conv.i2" 1 0 ILOperandType_None Cee_Invalid ILOpcodeFlag_None Pop1 PushI;
    OPDEF "conv.i4" 1 0 ILOperandType_None Cee_Invalid ILOpcodeFlag_None Pop1 PushI;
    OPDEF "conv.i8" 1 0 ILOperandType_None Cee_Invalid ILOpcodeFlag_None Pop1 PushI8;
    OPDEF "conv.r4" 1 0 ILOperandType_None Cee_Invalid ILOpcodeFlag_None Pop1 PushR4;
    OPDEF "conv.r8" 1 0 ILOperandType_None Cee_Invalid ILOpcodeFlag_None Pop1 PushR8;
    OPDEF "conv.u4" 1 0 ILOperandType_None Cee_Invalid ILOpcodeFlag_None Pop1 PushI;
    OPDEF "conv.u8" 1 0 ILOperandType_None Cee_Invalid ILOpcodeFlag_None Pop1 PushI8;
    OPDEF "callvirt" 1 4 ILOperandType_Token Cee_Invalid ILOpcodeFlag_None (u32 (VarPop)) (u32 (VarPush));
    OPDEF "cpobj" 1 4 ILOperandType_Token Cee_Invalid ILOpcodeFlag_None (PopI+PopI) Push0;
    OPDEF "ldobj" 1 4 ILOperandType_Token Cee_Invalid ILOpcodeFlag_None PopI Push1;
    OPDEF "ldstr" 1 4 ILOperandType_Token Cee_Invalid ILOpcodeFlag_None Pop0 PushRef;
    OPDEF "newobj" 1 4 ILOperandType_Token Cee_Invalid ILOpcodeFlag_None (u32 (VarPop)) PushRef;
    OPDEF "castclass" 1 4 ILOperandType_Token Cee_Invalid ILOpcodeFlag_None PopRef PushRef;
    OPDEF "isinst" 1 4 ILOperandType_Token Cee_Invalid ILOpcodeFlag_None PopRef PushI;
    OPDEF "conv.r.un" 1 0 ILOperandType_None Cee_Invalid ILOpcodeFlag_None Pop1 PushR8;
    OPDEF "unused" 1 0 ILOperandType_None Cee_Invalid ILOpcodeFlag_Unused Pop0 Push0;
    OPDEF "unused" 1 0 ILOperandType_None Cee_Invalid ILOpcodeFlag_Unused Pop0 Push0;
    OPDEF "unbox" 1 4 ILOperandType_Token Cee_Invalid ILOpcodeFlag_None PopRef PushI;
    OPDEF "throw" 1 0 ILOperandType_None Cee_Invalid ILOpcodeFlag_None PopRef Push0;
    OPDEF "ldfld" 1 4 ILOperandType_Token Cee_Invalid ILOpcodeFlag_None PopRef Push1;
    OPDEF "ldflda" 1 4 ILOperandType_Token Cee_Invalid ILOpcodeFlag_None PopRef PushI;
    OPDEF "stfld" 1 4 ILOperandType_Token Cee_Invalid ILOpcodeFlag_None (PopRef+Pop1) Push0;
    OPDEF "ldsfld" 1 4 ILOperandType_Token Cee_Invalid ILOpcodeFlag_None Pop0 Push1;
    OPDEF "ldsflda" 1 4 ILOperandType_Token Cee_Invalid ILOpcodeFlag_None Pop0 PushI ].

(** Rows 128 to 255: lines 161-288 of the header. *)
Definition s_ilOpcodeInfo_80_FF : list ILOpcodeInfo :=
  [ OPDEF "stsfld" 1 4 ILOperandType_Token Cee_Invalid ILOpcodeFlag_None Pop1 Push0;
    OPDEF "stobj" 1 4 ILOperandType_Token Cee_Invalid ILOpcodeFlag_None (PopI+Pop1) Push0;
    OPDEF "conv.ovf.i1.un" 1 0 ILOperandType_None Cee_Invalid ILOpcodeFlag_None Pop1 PushI;
    OPDEF "conv.ovf.i2.un" 1 0 ILOperandType_None Cee_Invalid ILOpcodeFlag_None Pop1 PushI;
    OPDEF "conv.ovf.i4.un" 1 0 ILOperandType_None Cee_Invalid ILOpcodeFlag_None Pop1 PushI;
    OPDEF "conv.ovf.i8.un" 1 0 ILOperandType_None Cee_Invalid ILOpcodeFlag_None Pop1 PushI8;
    OPDEF "conv.ovf.u1.un" 1 0 ILOperandType_None Cee_Invalid ILOpcodeFlag_None Pop1 PushI;
    OPDEF "conv.ovf.u2.un" 1 0 ILOperandType_None Cee_Invalid ILOpcodeFlag_None Pop1 PushI;
    OPDEF "conv.ovf.u4.un" 1 0 ILOperandType_None Cee_Invalid ILOpcodeFlag_None Pop1 PushI;
    OPDEF "conv.ovf.u8.un" 1 0 ILOperandType_None Cee_Invalid ILOpcodeFlag_None Pop1 PushI8;
    OPDEF "conv.ovf.i.un" 1 0 ILOperandType_None Cee_Invalid ILOpcodeFlag_None Pop1 PushI;
    OPDEF "conv.ovf.u.un" 1 0 ILOperandType_None Cee_Invalid ILOpcodeFlag_None Pop1 PushI;
    OPDEF "box" 1 4 ILOperandType_Token Cee_Invalid ILOpcodeFlag_None Pop1 PushRef;
    OPDEF "newarr" 1 4 ILOperandType_Token Cee_Invalid ILOpcodeFlag_None PopI PushRef;
    OPDEF "ldlen" 1 0 ILOperandType_None Cee_Invalid ILOpcodeFlag_None PopRef PushI;
    OPDEF "ldelema" 1 4 ILOperandType_Token Cee_Invalid ILOpcodeFlag_None (PopRef+PopI) PushI;
    OPDEF "ldelem.i1" 1 0 ILOperandType_None Cee_Invalid ILOpcodeFlag_None (PopRef+PopI) PushI;
    OPDEF "ldelem.u1" 1 0 ILOperandType_None Cee_Invalid ILOpcodeFlag_None (PopRef+PopI) PushI;
    OPDEF "ldelem.i2" 1 0 ILOperandType_None Cee_Invalid ILOpcodeFlag_None (PopRef+PopI) PushI;
    OPDEF "ldelem.u2" 1 0 ILOperandType_None Cee_Invalid ILOpcodeFlag_None (PopRef+PopI) PushI;
    OPDEF "ldelem.i4" 1 0 ILOperandType_None Cee_Invalid ILOpcodeFlag_None (PopRef+PopI) PushI;
    OPDEF "ldelem.u4" 1 0 ILOperandType_None Cee_Invalid ILOpcodeFlag_None (PopRef+PopI) PushI;
    OPDEF "ldelem.i8" 1 0 ILOperandType_None Cee_Invalid ILOpcodeFlag_None (PopRef+PopI) PushI8;
    OPDEF "ldelem.i" 1 0 ILOperandType_None Cee_Invalid ILOpcodeFlag_None (PopRef+PopI) PushI;
    OPDEF "ldelem.r4" 1 0 ILOperandType_None Cee_Invalid ILOpcodeFlag_None (PopRef+PopI) PushR4;
    OPDEF "ldelem.r8" 1 0 ILOperandType_None Cee_Invalid ILOpcodeFlag_None (PopRef+PopI) PushR8;
    OPDEF "ldelem.ref" 1 0 ILOperandType_None Cee_Invalid ILOpcodeFlag_None (PopRef+PopI) PushRef;
    OPDEF "stelem.i" 1 0 ILOperandType_None Cee_Invalid ILOpcodeFlag_None (PopRef+PopI+PopI) Push0;
    OPDEF "stelem.i1" 1 0 ILOperandType_None Cee_Invalid ILOpcodeFlag_None (PopRef+PopI+PopI) Push0;
    OPDEF "stelem.i2" 1 0 ILOperandType_None Cee_Invalid ILOpcodeFlag_None (PopRef+PopI+PopI) Push0;
    OPDEF "stelem.i4" 1 0 ILOperandType_None Cee_Invalid ILOpcodeFlag_None (PopRef+PopI+PopI) Push0;
    OPDEF "stelem.i8" 1 0 ILOperandType_None Cee_Invalid ILOpcodeFlag_None (PopRef+PopI+PopI8) Push0;
    OPDEF "stelem.r4" 1 0 ILOperandType_None Cee_Invalid ILOpcodeFlag_None (PopRef+PopI+PopR4) Push0;
    OPDEF "stelem.r8" 1 0 ILOperandType_None Cee_Invalid ILOpcodeFlag_None (PopRef+PopI+PopR8) Push0;
    OPDEF "stelem.ref" 1 0 ILOperandType_None Cee_Invalid ILOpcodeFlag_None (PopRef+PopI+PopRef) Push0;
    OPDEF "ldelem.any" 1 4 ILOperandType_Token Cee_Invalid ILOpcodeFlag_None (PopRef+PopI) Push1;
    OPDEF "stelem.any" 1 4 ILOperandType_Token Cee_Invalid ILOpcodeFlag_None (PopRef+PopI+Pop1) Push0;
    OPDEF "unbox.any" 1 4 ILOperandType_Token Cee_Invalid ILOpcodeFlag_None PopRef Push1;
    OPDEF "unused" 1 0 ILOperandType_None Cee_Invalid ILOpcodeFlag_Unused Pop0 Push0;
    OPDEF "unused" 1 0 ILOperandType_None Cee_Invalid ILOpcodeFlag_Unused Pop0 Push0;
    OPDEF "unused" 1 0 ILOperandType_None Cee_Invalid ILOpcodeFlag_Unused Pop0 Push0;
    OPDEF "unused" 1 0 ILOperandType_None Cee_Invalid ILOpcodeFlag_Unused Pop0 Push0;
    OPDEF "unused" 1 0 ILOperandType_None Cee_Invalid ILOpcodeFlag_Unused Pop0 Push0;
    OPDEF "unused" 1 0 ILOperandType_None Cee_Invalid ILOpcodeFlag_Unused Pop0 Push0;
    OPDEF "unused" 1 0 ILOperandType_None Cee_Invalid ILOpcodeFlag_Unused Pop0 Push0;
    OPDEF "unused" 1 0 ILOperandType_None Cee_Invalid ILOpcodeFlag_Unused Pop0 Push0;
    OPDEF "unused" 1 0 ILOperandType_None Cee_Invalid ILOpcodeFlag_Unused Pop0 Push0;
    OPDEF "unused" 1 0 ILOperandType_None Cee_Invalid ILOpcodeFlag_Unused Pop0 Push0;
    OPDEF "unused" 1 0 ILOperandType_None Cee_Invalid ILOpcodeFlag_Unused Pop0 Push0;
    OPDEF "unused" 1 0 ILOperandType_None Cee_Invalid ILOpcodeFlag_Unused Pop0 Push0;
    OPDEF "unused" 1 0 ILOperandType_None Cee_Invalid ILOpcodeFlag_Unused Pop0 Push0;
    OPDEF "conv.ovf.i1" 1 0 ILOperandType_None Cee_Invalid ILOpcodeFlag_None Pop1 PushI;
    OPDEF "conv.ovf.u1" 1 0 ILOperandType_None Cee_Invalid ILOpcodeFlag_None Pop1 PushI;
    OPDEF "conv.ovf.i2" 1 0 ILOperandType_None Cee_Invalid ILOpcodeFlag_None Pop1 PushI;
    OPDEF "conv.ovf.u2" 1 0 ILOperandType_None Cee_Invalid ILOpcodeFlag_None Pop1 PushI;
    OPDEF "conv.ovf.i4" 1 0 ILOperandType_None Cee_Invalid ILOpcodeFlag_None Pop1 PushI;
    OPDEF "conv.ovf.u4" 1 0 ILOperandType_None Cee_Invalid ILOpcodeFlag_None Pop1 PushI;
    OPDEF "conv.ovf.i8" 1 0 ILOperandType_None Cee_Invalid ILOpcodeFlag_None Pop1 PushI8;
    OPDEF "conv.ovf.u8" 1 0 ILOperandType_None Cee_Invalid ILOpcodeFlag_None Pop1 PushI8;
    OPDEF "unused" 1 0 ILOperandType_None Cee_Invalid ILOpcodeFlag_Unused Pop0 Push0;
    OPDEF "unused" 1 0 ILOperandType_None Cee_Invalid ILOpcodeFlag_Unused Pop0 Push0;
    OPDEF "unused" 1 0 ILOperandType_None Cee_Invalid ILOpcodeFlag_Unused Pop0 Push0;
    OPDEF "unused" 1 0 ILOperandType_None Cee_Invalid ILOpcodeFlag_Unused Pop0 Push0;
    OPDEF "unused" 1 0 ILOperandType_None Cee_Invalid ILOpcodeFlag_Unused Pop0 Push0;
    OPDEF "unused" 1 0 ILOperandType_None Cee_Invalid ILOpcodeFlag_Unused Pop0 Push0;
    OPDEF "unused" 1 0 ILOperandType_None Cee_Invalid ILOpcodeFlag_Unused Pop0 Push0;
    OPDEF "refanyval" 1 4 ILOperandType_Token Cee_Invalid ILOpcodeFlag_None Pop1 PushI;
    OPDEF "ckfinite" 1 0 ILOperandType_None Cee_Invalid ILOpcodeFlag_None Pop1 PushR8;
    OPDEF "unused" 1 0 ILOperandType_None Cee_Invalid ILOpcodeFlag_Unused Pop0 Push0;
    OPDEF "unused" 1 0 ILOperandType_None Cee_Invalid ILOpcodeFlag_Unused Pop0 Push0;
    OPDEF "mkrefany" 1 4 ILOperandType_Token Cee_Invalid ILOpcodeFlag_None PopI Push1;
    OPDEF "unused" 1 0 ILOperandType_None Cee_Invalid ILOpcodeFlag_Unused Pop0 Push0;
    OPDEF "unused" 1 0 ILOperandType_None Cee_Invalid ILOpcodeFlag_Unused Pop0 Push0;
    OPDEF "unused" 1 0 ILOperandType_None Cee_Invalid ILOpcodeFlag_Unused Pop0 Push0;
    OPDEF "unused" 1 0 ILOperandType_None Cee_Invalid ILOpcodeFlag_Unused Pop0 Push0;
    OPDEF "unused" 1 0 ILOperandType_None Cee_Invalid ILOpcodeFlag_Unused Pop0 Push0;
    OPDEF "unused" 1 0 ILOperandType_None Cee_Invalid ILOpcodeFlag_Unused Pop0 Push0;
    OPDEF "unused" 1 0 ILOperandType_None Cee_Invalid ILOpcodeFlag_Unused Pop0 Push0;
    OPDEF "unused" 1 0 ILOperandType_None Cee_Invalid ILOpcodeFlag_Unused Pop0 Push0;
    OPDEF "unused" 1 0 ILOperandType_None Cee_Invalid ILOpcodeFlag_Unused Pop0 Push0;
    OPDEF "ldtoken" 1 4 ILOperandType_Token Cee_Invalid ILOpcodeFlag_None Pop0 PushI;
    OPDEF "conv.u2" 1 0 ILOperandType_None Cee_Invalid ILOpcodeFlag_None Pop1 PushI;
    OPDEF "conv.u1" 1 0 ILOperandType_None Cee_Invalid ILOpcodeFlag_None Pop1 PushI;
    OPDEF "conv.i" 1 0 ILOperandType_None Cee_Invalid ILOpcodeFlag_None Pop1 PushI;
    OPDEF "conv.ovf.i" 1 0 ILOperandType_None Cee_Invalid ILOpcodeFlag_None Pop1 PushI;
    OPDEF "conv.ovf.u" 1 0 ILOperandType_None Cee_Invalid ILOpcodeFlag_None Pop1 PushI;
    OPDEF "add.ovf" 1 0 ILOperandType_None Cee_Invalid ILOpcodeFlag_None (Pop1+Pop1) Push1;
    OPDEF "add.ovf.un" 1 0 ILOperandType_None Cee_Invalid ILOpcodeFlag_None (Pop1+Pop1) Push1;
    OPDEF "mul.ovf" 1 0 ILOperandType_None Cee_Invalid ILOpcodeFlag_None (Pop1+Pop1) Push1;
    OPDEF "mul.ovf.un" 1 0 ILOperandType_None Cee_Invalid ILOpcodeFlag_None (Pop1+Pop1) Push1;
    OPDEF "sub.ovf" 1 0 ILOperandType_None Cee_Invalid ILOpcodeFlag_None (Pop1+Pop1) Push1;
    OPDEF "sub.ovf.un" 1 0 ILOperandType_None Cee_Invalid ILOpcodeFlag_None (Pop1+Pop1) Push1;
    OPDEF "endfinally" 1 0 ILOperandType_None Cee_Invalid ILOpcodeFlag_None Pop0 Push0;
    OPDEF "leave" 1 4 ILOperandType_Int Cee_Leave_S ILOpcodeFlag_Branch Pop0 Push0;
    OPDEF "leave.s" 1 1 ILOperandType_Byte Cee_Leave ILOpcodeFlag_Branch Pop0 Push0;
    OPDEF "stind.i" 1 0 ILOperandType_None Cee_Invalid ILOpcodeFlag_None (PopI+PopI) Push0;
    OPDEF "conv.u" 1 0 ILOperandType_None Cee_Invalid ILOpcodeFlag_None Pop1 PushI;
    OPDEF "unused" 1 0 ILOperandType_None Cee_Invalid ILOpcodeFlag_Unused Pop0 Push0;
    OPDEF "unused" 1 0 ILOperandType_None Cee_Invalid ILOpcodeFlag_Unused Pop0 Push0;
    OPDEF "unused" 1 0 ILOperandType_None Cee_Invalid ILOpcodeFlag_Unused Pop0 Push0;
    OPDEF "unused" 1 0 ILOperandType_None Cee_Invalid ILOpcodeFlag_Unused Pop0 Push0;
    OPDEF "unused" 1 0 ILOperandType_None Cee_Invalid ILOpcodeFlag_Unused Pop0 Push0;
    OPDEF "unused" 1 0 ILOperandType_None Cee_Invalid ILOpcodeFlag_Unused Pop0 Push0;
    OPDEF "unused" 1 0 ILOperandType_None Cee_Invalid ILOpcodeFlag_Unused Pop0 Push0;
    OPDEF "unused" 1 0 ILOperandType_None Cee_Invalid ILOpcodeFlag_Unused Pop0 Push0;
    OPDEF "unused" 1 0 ILOperandType_None Cee_Invalid ILOpcodeFlag_Unused Pop0 Push0;
    OPDEF "unused" 1 0 ILOperandType_None Cee_Invalid ILOpcodeFlag_Unused Pop0 Push0;
    OPDEF "unused" 1 0 ILOperandType_None Cee_Invalid ILOpcodeFlag_Unused Pop0 Push0;
    OPDEF "unused" 1 0 ILOperandType_None Cee_Invalid ILOpcodeFlag_Unused Pop0 Push0;
    OPDEF "unused" 1 0 ILOperandType_None Cee_Invalid ILOpcodeFlag_Unused Pop0 Push0;
    OPDEF "unused" 1 0 ILOperandType_None Cee_Invalid ILOpcodeFlag_Unused Pop0 Push0;
    OPDEF "unused" 1 0 ILOperandType_None Cee_Invalid ILOpcodeFlag_Unused Pop0 Push0;
    OPDEF "unused" 1 0 ILOperandType_None Cee_Invalid ILOpcodeFlag_Unused Pop0 Push0;
    OPDEF "unused" 1 0 ILOperandType_None Cee_Invalid ILOpcodeFlag_Unused Pop0 Push0;
    OPDEF "unused" 1 0 ILOperandType_None Cee_Invalid ILOpcodeFlag_Unused Pop0 Push0;
    OPDEF "unused" 1 0 ILOperandType_None Cee_Invalid ILOpcodeFlag_Unused Pop0 Push0;
    OPDEF "unused" 1 0 ILOperandType_None Cee_Invalid ILOpcodeFlag_Unused Pop0 Push0;
    OPDEF "unused" 1 0 ILOperandType_None Cee_Invalid ILOpcodeFlag_Unused Pop0 Push0;
    OPDEF "unused" 1 0 ILOperandType_None Cee_Invalid ILOpcodeFlag_Unused Pop0 Push0;
    OPDEF "unused" 1 0 ILOperandType_None Cee_Invalid ILOpcodeFlag_Unused Pop0 Push0;
    OPDEF "prefix7" 1 0 ILOperandType_None Cee_Invalid ILOpcodeFlag_Unused Pop0 Push0;
    OPDEF "prefix6" 1 0 ILOperandType_None Cee_Invalid ILOpcodeFlag_Unused Pop0 Push0;
    OPDEF "prefix5" 1 0 ILOperandType_None Cee_Invalid ILOpcodeFlag_Unused Pop0 Push0;
    OPDEF "prefix4" 1 0 ILOperandType_None Cee_Invalid ILOpcodeFlag_Unused Pop0 Push0;
    OPDEF "prefix3" 1 0 ILOperandType_None Cee_Invalid ILOpcodeFlag_Unused Pop0 Push0;
    OPDEF "prefix2" 1 0 ILOperandType_None Cee_Invalid ILOpcodeFlag_Unused Pop0 Push0;
    OPDEF "prefix1" 1 0 ILOperandType_None Cee_Invalid ILOpcodeFlag_Unused Pop0 Push0;
    OPDEF "prefixref" 1 0 ILOperandType_None Cee_Invalid ILOpcodeFlag_Unused Pop0 Push0 ].

(** Rows 256 to 292: lines 289-325 of the header. *)
Definition s_ilOpcodeInfo_100_124 : list ILOpcodeInfo :=
  [ OPDEF "arglist" 2 0 ILOperandType_None Cee_Invalid ILOpcodeFlag_None Pop0 PushI;
    OPDEF "ceq" 2 0 ILOperandType_None Cee_Invalid ILOpcodeFlag_None (Pop1+Pop1) PushI;
    OPDEF "cgt" 2 0 ILOperandType_None Cee_Invalid ILOpcodeFlag_None (Pop1+Pop1) PushI;
    OPDEF "cgt.un" 2 0 ILOperandType_None Cee_Invalid ILOpcodeFlag_None (Pop1+Pop1) PushI;
    OPDEF "clt" 2 0 ILOperandType_None Cee_Invalid ILOpcodeFlag_None (Pop1+Pop1) PushI;
    OPDEF "clt.un" 2 0 ILOperandType_None Cee_Invalid ILOpcodeFlag_None (Pop1+Pop1) PushI;
    OPDEF "ldftn" 2 4 ILOperandType_Token Cee_Invalid ILOpcodeFlag_None Pop0 PushI;
    OPDEF "ldvirtftn" 2 4 ILOperandType_Token Cee_Invalid ILOpcodeFlag_None PopRef PushI;
    OPDEF "unused" 2 0 ILOperandType_None Cee_Invalid ILOpcodeFlag_Unused Pop0 Push0;
    OPDEF "ldarg" 2 2 ILOperandType_UShort Cee_Ldarg_S ILOpcodeFlag_None Pop0 Push1;
    OPDEF "ldarga" 2 2 ILOperandType_UShort Cee_Ldarga_S ILOpcodeFlag_None Pop0 PushI;
    OPDEF "starg" 2 2 ILOperandType_UShort Cee_Starg_S ILOpcodeFlag_None Pop1 Push0;
    OPDEF "ldloc" 2 2 ILOperandType_UShort Cee_Ldloc_S ILOpcodeFlag_None Pop0 Push1;
    OPDEF "ldloca" 2 2 ILOperandType_UShort Cee_Ldloca_S ILOpcodeFlag_None Pop0 PushI;
    OPDEF "stloc" 2 2 ILOperandType_UShort Cee_Stloc_S ILOpcodeFlag_None Pop1 Push0;
    OPDEF "localloc" 2 0 ILOperandType_None Cee_Invalid ILOpcodeFlag_None PopI PushI;
    OPDEF "unused" 2 0 ILOperandType_None Cee_Invalid ILOpcodeFlag_Unused Pop0 Push0;
    OPDEF "endfilter" 2 0 ILOperandType_None Cee_Invalid ILOpcodeFlag_None PopI Push0;
    OPDEF "unaligned." 2 1 ILOperandType_Byte Cee_Invalid ILOpcodeFlag_None Pop0 Push0;
    OPDEF "volatile." 2 0 ILOperandType_None Cee_Invalid ILOpcodeFlag_None Pop0 Push0;
    OPDEF "tail." 2 0 ILOperandType_None Cee_Invalid ILOpcodeFlag_None Pop0 Push0;
    OPDEF "initobj" 2 4 ILOperandType_Token Cee_Invalid ILOpcodeFlag_None PopI Push0;
    OPDEF "constrained." 2 4 ILOperandType_Token Cee_Invalid ILOpcodeFlag_None Pop0 Push0;
    OPDEF "cpblk" 2 0 ILOperandType_None Cee_Invalid ILOpcodeFlag_None (PopI+PopI+PopI) Push0;
    OPDEF "initblk" 2 0 ILOperandType_None Cee_Invalid ILOpcodeFlag_None (PopI+PopI+PopI) Push0;
    OPDEF "unused" 2 0 ILOperandType_None Cee_Invalid ILOpcodeFlag_Unused Pop0 Push0;
    OPDEF "rethrow" 2 0 ILOperandType_None Cee_Invalid ILOpcodeFlag_None Pop0 Push0;
    OPDEF "unused" 2 0 ILOperandType_None Cee_Invalid ILOpcodeFlag_Unused Pop0 Push0;
    OPDEF "sizeof" 2 4 ILOperandType_Token Cee_Invalid ILOpcodeFlag_None Pop0 PushI;
    OPDEF "refanytype" 2 0 ILOperandType_None Cee_Invalid ILOpcodeFlag_None Pop1 PushI;
    OPDEF "readonly." 2 0 ILOperandType_None Cee_Invalid ILOpcodeFlag_None Pop0 Push0;
    OPDEF "unused" 2 0 ILOperandType_None Cee_Invalid ILOpcodeFlag_Unused Pop0 Push0;
    OPDEF "unused" 2 0 ILOperandType_None Cee_Invalid ILOpcodeFlag_Unused Pop0 Push0;
    OPDEF "unused" 2 0 ILOperandType_None Cee_Invalid ILOpcodeFlag_Unused Pop0 Push0;
    OPDEF "unused" 2 0 ILOperandType_None Cee_Invalid ILOpcodeFlag_Unused Pop0 Push0;
    OPDEF "unused" 0 0 ILOperandType_None Cee_Invalid ILOpcodeFlag_Meta Pop0 Push0;
    OPDEF "unused" 0 0 ILOperandType_None Cee_Invalid ILOpcodeFlag_Meta Pop0 Push0 ].

(** [CInstruction::s_ilOpcodeInfo] *)
Definition s_ilOpcodeInfo : list ILOpcodeInfo :=
  s_ilOpcodeInfo_00_7F ++ s_ilOpcodeInfo_80_FF ++ s_ilOpcodeInfo_100_124.

(** [s_ilOpcodeInfo[op]]: an index outside the array is an out-of-bounds read. *)
Definition opinfo_opt (op : Z) : option ILOpcodeInfo :=
  if decide (0 <= op) then s_ilOpcodeInfo !! Z.to_nat op else None.

Definition opinfo (op : Z) : outcome ILOpcodeInfo :=
  of_option OutOfBoundsRead (opinfo_opt op).

(** [_countof(s_ilOpcodeInfo)] *)
Definition opcode_count : Z := Z.of_nat (length s_ilOpcodeInfo).

(** [IsFlagSet] of [Macros.h] *)
Definition IsFlagSet (dwAllFlags dwFlag : Z) : bool :=
  negb (Z.land dwAllFlags dwFlag =? 0).

(** Size in memory of the union member an operand type selects
    ([COperandInstruction::ILOperandValue]); [None] where the [switch] of the
    source falls to its [default]. *)
Definition operand_type_size (t : ILOperandType) : option nat :=
  match t with
  | ILOperandType_Byte => Some 1%nat
  | ILOperandType_UShort => Some 2%nat
  | ILOperandType_Int | ILOperandType_Single | ILOperandType_Token => Some 4%nat
  | ILOperandType_Long | ILOperandType_Double => Some 8%nat
  | ILOperandType_None | ILOperandType_Switch => None
  end.

(** ** Facts about the table, by evaluation over its rows *)

(** The rows of the table with their ordinals. *)
Definition opcode_rows : list (Z * ILOpcodeInfo) :=
  imap (fun i r => (Z.of_nat i, r)) s_ilOpcodeInfo.

Lemma opinfo_opt_Some op r :
  opinfo_opt op = Some r -> 0 <= op < opcode_count /\ (op, r) ∈ opcode_rows.
Proof.
  unfold opinfo_opt. case_decide; [|done]. intros Hl.
  pose proof (lookup_lt_Some _ _ _ Hl). split; [unfold opcode_count; lia|].
  apply list_elem_of_lookup. exists (Z.to_nat op).
  unfold opcode_rows. rewrite list_lookup_imap, Hl. simpl.
  by rewrite Z2Nat.id.
Qed.

(** A boolean property checked on every row holds at every valid opcode. *)
Lemma opcode_rows_forall (P : Z -> ILOpcodeInfo -> bool) op r :
  forallb (fun p => P p.1 p.2) opcode_rows = true ->
  opinfo_opt op = Some r -> P op r = true.
Proof.
  intros HP [_ Hin]%opinfo_opt_Some.
  rewrite forallb_forall in HP. apply (HP (op, r)). by apply list_elem_of_In.
Qed.

Lemma opinfo_opt_is_Some op :
  0 <= op < opcode_count -> is_Some (opinfo_opt op).
Proof.
  intros [H1 H2]. unfold opinfo_opt. rewrite decide_True by done.
  apply lookup_lt_is_Some. unfold opcode_count in H2. lia.
Qed.

Lemma opinfo_Ok op r : opinfo op = Ok r <-> opinfo_opt op = Some r.
Proof. unfold opinfo. destruct (opinfo_opt op); simpl; naive_solver. Qed.

(** What every row satisfies, as one boolean test. *)
Definition row_ok (op : Z) (r : ILOpcodeInfo) : bool :=
  let br := IsFlagSet (m_flags r) ILOpcodeFlag_Branch in
  bool_decide (
    (* the opcode length says whether the 0xFE prefix is needed *)
    (op < 0x123 -> m_opcodeLength r = if decide (op < 0x100) then 1 else 2) /\
    (0x123 <= op -> m_opcodeLength r = 0) /\
    (* the operand length is the size of the operand type *)
    (m_type r <> ILOperandType_Switch ->
       m_operandLength r = from_option Z.of_nat 0 (operand_type_size (m_type r))) /\
    (m_type r = ILOperandType_Switch <-> op = Cee_Switch) /\
    (op = Cee_Switch -> m_operandLength r = 2 ^ 32 - 1) /\
    (* branches are one-byte opcodes with a 1 or 4 byte displacement *)
    (br = true -> op < 0x100 /\ op <> Cee_Switch /\
       m_operandLength r = if decide (op < Cee_Br \/ op = Cee_Leave_S) then 1 else 4)).

Lemma table_row_ok op r : opinfo_opt op = Some r -> row_ok op r = true.
Proof. apply (opcode_rows_forall row_ok). vm_compute. reflexivity. Qed.
