(* ===== verification/Instruction.v ===== *)
(** One IL instruction: [CInstruction] and its subclasses of [Instruction.h],
    with the operations of [Instruction.cpp] that look at one instruction only:
    decoding from bytes, sizes, operands, short and long branch forms,
    classification, and the constructors that choose a compact encoding.  What
    follows the links to other instructions is in [Store.v] and [Graph.v]. *)
From S2P Require Import Prelude ILOpcodes.

(** A pointer to an instruction, a graph or an exception clause. *)
Notation ptr := positive.

Inductive InstructionGeneration :=
| Generation_Original | Generation_Baseline | Generation_New.

#[export] Instance InstructionGeneration_eq_dec : EqDecision InstructionGeneration.
Proof. solve_decision. Defined.

(** The dynamic class of the object, with the members the subclass adds.
    [m_value] is the eight bytes of the operand union, [None] for a byte that
    was never written. *)
Inductive InstrClass :=
| CNone
| COperand (m_value : list (option Z))
| CBranch (m_decodedTargetOffset : Z) (m_pBranchTarget m_pOrigBranchTarget : option ptr)
| CSwitch (m_origBranchTargetOffsets : list Z) (m_branchTargets : list (option ptr)).

(** [CInstruction].  [m_branchInfo] is the [CBranchTargetInfo] data item of the
    instruction (its [m_branches]); [None] when there is no such item. *)
Record CInstruction := mkInstruction {
  m_opcode : Z;
  m_offset : Z;
  m_origOffset : Z;
  m_instructionGeneration : InstructionGeneration;
  m_bIsRemoved : bool;
  m_pGraph : option ptr;
  m_pNextInstruction : option ptr;
  m_pPreviousInstruction : option ptr;
  m_pOriginalNextInstruction : option ptr;
  m_pOriginalPreviousInstruction : option ptr;
  m_class : InstrClass;
  m_branchInfo : option (gset ptr)
}.

(** Assignments to one member. *)
Definition set_opcode (v : Z) (i : CInstruction) : CInstruction :=
  let '(mkInstruction _ b c d e f g h j k l m) := i in mkInstruction v b c d e f g h j k l m.
Definition set_offset (v : Z) (i : CInstruction) : CInstruction :=
  let '(mkInstruction a _ c d e f g h j k l m) := i in mkInstruction a v c d e f g h j k l m.
Definition set_origOffset (v : Z) (i : CInstruction) : CInstruction :=
  let '(mkInstruction a b _ d e f g h j k l m) := i in mkInstruction a b v d e f g h j k l m.
Definition set_generation (v : InstructionGeneration) (i : CInstruction) : CInstruction :=
  let '(mkInstruction a b c _ e f g h j k l m) := i in mkInstruction a b c v e f g h j k l m.
Definition set_removed (v : bool) (i : CInstruction) : CInstruction :=
  let '(mkInstruction a b c d _ f g h j k l m) := i in mkInstruction a b c d v f g h j k l m.
Definition set_graph (v : option ptr) (i : CInstruction) : CInstruction :=
  let '(mkInstruction a b c d e _ g h j k l m) := i in mkInstruction a b c d e v g h j k l m.
Definition set_next (v : option ptr) (i : CInstruction) : CInstruction :=
  let '(mkInstruction a b c d e f _ h j k l m) := i in mkInstruction a b c d e f v h j k l m.
Definition set_prev (v : option ptr) (i : CInstruction) : CInstruction :=
  let '(mkInstruction a b c d e f g _ j k l m) := i in mkInstruction a b c d e f g v j k l m.
Definition set_origNext (v : option ptr) (i : CInstruction) : CInstruction :=
  let '(mkInstruction a b c d e f g h _ k l m) := i in mkInstruction a b c d e f g h v k l m.
Definition set_origPrev (v : option ptr) (i : CInstruction) : CInstruction :=
  let '(mkInstruction a b c d e f g h j _ l m) := i in mkInstruction a b c d e f g h j v l m.
Definition set_class (v : InstrClass) (i : CInstruction) : CInstruction :=
  let '(mkInstruction a b c d e f g h j k _ m) := i in mkInstruction a b c d e f g h j k v m.
Definition set_branchInfo (v : option (gset ptr)) (i : CInstruction) : CInstruction :=
  let '(mkInstruction a b c d e f g h j k l _) := i in mkInstruction a b c d e f g h j k l v.

(** [CInstruction::CInstruction(opcode, isNew)], for an object of class [c]. *)
Definition new_instruction (opcode : Z) (isNew : bool) (c : InstrClass) : CInstruction :=
  mkInstruction opcode 0 0 (if isNew then Generation_New else Generation_Original)
    false None None None None None c None.

(** ** The operand union *)

(** [memset(&m_value, 0, sizeof(m_value))] and the union of an object whose
    constructor does not initialise it. *)
Definition value_zero : list (option Z) := replicate 8 (Some 0).
Definition value_uninit : list (option Z) := replicate 8 None.

(** Assignment to a member of the union: its first bytes change. *)
Definition value_write (bs : list Z) (v : list (option Z)) : list (option Z) :=
  map Some bs ++ drop (length bs) v.

(** Reading a member of [n] bytes. *)
Definition value_read (n : nat) (v : list (option Z)) : outcome (list Z) :=
  of_option UninitRead (mapM id (take n v)).

(** [COperandInstruction::COperandInstruction(opcode, isNew)] *)
Definition new_COperandInstruction (opcode : Z) (isNew : bool) : CInstruction :=
  new_instruction opcode isNew (COperand value_zero).

(** [COperandInstruction::SetOperandValue] on the union [v] of an object with
    opcode [op]; [pBytes] holds [dwSize] bytes. *)
Definition SetOperandValue_union (op : Z) (dwSize : Z) (pBytes : list Z)
    (v : list (option Z)) : outcome (list (option Z)) :=
  r <~ opinfo op ;;
  if negb (dwSize =? m_operandLength r) then Err E_FAIL else
  match operand_type_size (m_type r) with
  | None => Err E_FAIL
  | Some n => bs <~ of_option OutOfBoundsRead (read_at pBytes 0 n) ;; Ok (value_write bs v)
  end.

Definition SetOperandValue (dwSize : Z) (pBytes : list Z) (i : CInstruction) : outcome CInstruction :=
  match m_class i with
  | COperand v =>
      v' <~ SetOperandValue_union (m_opcode i) dwSize pBytes v ;;
      Ok (set_class (COperand v') i)
  | _ => Undef BadCast
  end.

(** [COperandInstruction::COperandInstruction(opcode, isNew, cbBytes, pBytes)]:
    on a length mismatch the constructor logs and leaves the union uninitialised;
    the [HRESULT] of [SetOperandValue] is dropped. *)
Definition new_COperandInstruction_bytes (opcode : Z) (isNew : bool) (cbBytes : Z)
    (pBytes : list Z) : outcome CInstruction :=
  let i := new_instruction opcode isNew (COperand value_uninit) in
  r <~ opinfo opcode ;;
  if negb (m_operandLength r =? cbBytes) then Ok i
  else match SetOperandValue (m_operandLength r) pBytes i with
       | Err _ => Ok i
       | o => o
       end.

(** [COperandInstruction::GetOperandValue]: the bytes stored to [pBytes]. *)
Definition GetOperandValue (dwSize : Z) (i : CInstruction) : outcome (list Z) :=
  match m_class i with
  | COperand v =>
      r <~ opinfo (m_opcode i) ;;
      if dwSize <? m_operandLength r then Err E_FAIL else
      match operand_type_size (m_type r) with
      | None => Err E_FAIL
      | Some n => value_read n v
      end
  | _ => Undef BadCast
  end.

(** ** Sizes and classification *)

(** [CInstruction::GetIsBranchInternal] and [GetIsSwitchInternal] *)
Definition GetIsBranchInternal (i : CInstruction) : outcome bool :=
  r <~ opinfo (m_opcode i) ;; Ok (IsFlagSet (m_flags r) ILOpcodeFlag_Branch).

Definition GetIsSwitchInternal (i : CInstruction) : bool := m_opcode i =? Cee_Switch.

(** [GetInstructionSize], a virtual function that [CSwitchInstruction] overrides;
    the arithmetic is on [DWORD]. *)
Definition GetInstructionSize (i : CInstruction) : outcome Z :=
  r <~ opinfo (m_opcode i) ;;
  match m_class i with
  | CSwitch _ targets =>
      Ok (u32 (m_opcodeLength r + u32 ((Z.of_nat (length targets) + 1) * 4)))
  | _ => Ok (u32 (m_opcodeLength r + m_operandLength r))
  end.

(** [CInstruction::GetInstructionLength], which no subclass overrides. *)
Definition GetInstructionLength (i : CInstruction) : outcome Z :=
  r <~ opinfo (m_opcode i) ;; Ok (u32 (m_opcodeLength r + m_operandLength r)).

(** [GetOperandLength], overridden by [CSwitchInstruction]. *)
Definition GetOperandLength (i : CInstruction) : outcome Z :=
  match m_class i with
  | CSwitch _ targets => Ok (u32 ((u32 (Z.of_nat (length targets)) + 1) * 4))
  | _ => r <~ opinfo (m_opcode i) ;; Ok (m_operandLength r)
  end.

Definition GetAlternateOrdinalOpcode (i : CInstruction) : outcome Z :=
  r <~ opinfo (m_opcode i) ;; Ok (m_alternate r).

(** [CInstruction::GetIsNew] *)
Definition GetIsNew (i : CInstruction) : bool :=
  bool_decide (m_instructionGeneration i = Generation_New).

(** [CInstruction::GetIsCallInstruction] *)
Definition GetIsCallInstruction (i : CInstruction) : bool :=
  (m_opcode i =? Cee_Call) || (m_opcode i =? Cee_Calli) || (m_opcode i =? Cee_Callvirt).

Inductive InstructionTerminationType :=
| TerminationType_FallThrough | TerminationType_Branch | TerminationType_ConditionalBranch
| TerminationType_Throw | TerminationType_Switch | TerminationType_Call
| TerminationType_IndirectCall | TerminationType_Return | TerminationType_Trap.

#[export] Instance InstructionTerminationType_eq_dec : EqDecision InstructionTerminationType.
Proof. solve_decision. Defined.

(** [CInstruction::GetTerminationType] *)
Definition GetTerminationType (op : Z) : InstructionTerminationType :=
  if op =? Cee_Break then TerminationType_Trap
  else if op =? Cee_Switch then TerminationType_Switch
  else if (op =? Cee_Ret) || (op =? Cee_Endfinally) || (op =? Cee_Endfilter)
  then TerminationType_Return
  else if (op =? Cee_Call) || (op =? Cee_Jmp) || (op =? Cee_Newobj) then TerminationType_Call
  else if (op =? Cee_Calli) || (op =? Cee_Callvirt) then TerminationType_IndirectCall
  else if (op =? Cee_Br_S) || (op =? Cee_Br) || (op =? Cee_Leave) || (op =? Cee_Leave_S)
  then TerminationType_Branch
  else if (op =? Cee_Throw) || (op =? Cee_Rethrow) then TerminationType_Throw
  else if (Cee_Brfalse_S <=? op) && (op <? Cee_Switch) then TerminationType_ConditionalBranch
  else TerminationType_FallThrough.

(** [CInstruction::GetIsFallThrough] *)
Definition GetIsFallThrough (op : Z) : bool :=
  bool_decide (GetTerminationType op = TerminationType_FallThrough).

(** [CBranchInstruction::IsShortBranch] *)
Definition IsShortBranch (op : Z) : bool := (op <? Cee_Br) || (op =? Cee_Leave_S).

(** [CBranchInstruction::ExpandBranch]: the opcode of the long form. *)
Definition ExpandBranch_opcode (op : Z) : outcome Z :=
  r <~ opinfo op ;;
  if m_operandLength r =? 1
  then Ok (if op =? Cee_Leave_S then Cee_Leave else op + (Cee_Br - Cee_Br_S))
  else Ok op.

(** The [CBranchInstruction] cast of [CInstructionGraph::ExpandBranches] is not
    checked: on an object of another class it is undefined. *)
Definition ExpandBranch (i : CInstruction) : outcome CInstruction :=
  match m_class i with
  | CBranch _ _ _ => op <~ ExpandBranch_opcode (m_opcode i) ;; Ok (set_opcode op i)
  | _ => Undef BadCast
  end.

(** ** Decoding one instruction

    [pCode] and [pEndOfCode] of the source are a buffer [code] and a position
    [pos] in it; the end of the code is the end of the buffer, so a read past
    [pEndOfCode] is an out-of-bounds read. *)

(** [CInstruction::OrdinalOpcodeFromBytes]: the returned code and [*pOpcode],
    which is assigned 0 before the checks. *)
Definition OrdinalOpcodeFromBytes (code : list Z) (pos : Z) : outcome (HRESULT * Z) :=
  b <~ read_byte code pos ;;
  if b =? 0xFE then
    if Z.of_nat (length code) <=? pos + 1 then Ok (E_FAIL, 0)
    else b2 <~ read_byte code (pos + 1) ;; Ok (S_OK, Z.lor 0x100 b2)
  else Ok (S_OK, b).

(** [COperandInstruction::InitializeFromBytes] *)
Definition Operand_InitializeFromBytes (op : Z) (code : list Z) (pos : Z)
    (v : list (option Z)) : outcome (list (option Z)) :=
  r <~ opinfo op ;;
  let p := pos + m_opcodeLength r in
  let pEnd := Z.of_nat (length code) in
  if pEnd <=? p then Err E_FAIL
  else if pEnd <? p + m_operandLength r then Err E_FAIL
  else match operand_type_size (m_type r) with
       | None => Err E_FAIL
       | Some n => bs <~ of_option OutOfBoundsRead (read_at code p n) ;; Ok (value_write bs v)
       end.

(** [CBranchInstruction::InitializeFromBytes]: the value of
    [m_decodedTargetOffset], relative to the instruction.  Only the first byte of
    a four-byte displacement is checked to be inside the code. *)
Definition Branch_InitializeFromBytes (op : Z) (code : list Z) (pos : Z) : outcome Z :=
  r <~ opinfo op ;;
  let opcodeSize := m_opcodeLength r in
  let p := pos + opcodeSize in
  let pEnd := Z.of_nat (length code) in
  if pEnd <=? p then Err E_FAIL else
  targetOffset <~
    (if IsShortBranch op
     then c <~ read_byte code p ;; Ok (u32 (s8 c + opcodeSize + 1))
     else d <~ read_le code p 4 ;; Ok (u32 (d + opcodeSize + 4))) ;;
  if pEnd <=? pos + s32 targetOffset then Err E_FAIL else Ok targetOffset.

(** The loop of [CSwitchInstruction::InitializeFromBytes] over [count] deltas. *)
Fixpoint read_deltas (code : list Z) (p : Z) (count : nat) : outcome (list Z) :=
  match count with
  | O => Ok []
  | S count' =>
      d <~ read_le code p 4 ;; ds <~ read_deltas code (p + 4) count' ;; Ok (d :: ds)
  end.

(** [CSwitchInstruction::InitializeFromBytes]: [m_origBranchTargetOffsets]; the
    source does not compare the count with the end of the code. *)
Definition Switch_InitializeFromBytes (op : Z) (code : list Z) (pos : Z) : outcome (list Z) :=
  r <~ opinfo op ;;
  let p := pos + m_opcodeLength r in
  count <~ read_le code p 4 ;;
  read_deltas code (p + 4) (Z.to_nat count).

(** [CInstruction::InstructionFromBytes]: the code that
    [OrdinalOpcodeFromBytes] returns is dropped. *)
Definition InstructionFromBytes (code : list Z) (pos : Z) : outcome CInstruction :=
  ho <~ OrdinalOpcodeFromBytes code pos ;;
  let op := snd ho in
  if (op <? 0) || (opcode_count <=? op) then Err E_FAIL else
  r <~ opinfo op ;;
  if op =? Cee_Switch then
    ds <~ Switch_InitializeFromBytes op code pos ;;
    Ok (new_instruction op false (CSwitch ds (replicate (length ds) None)))
  else if IsFlagSet (m_flags r) ILOpcodeFlag_Branch then
    d <~ Branch_InitializeFromBytes op code pos ;;
    Ok (new_instruction op false (CBranch d None None))
  else match m_type r with
       | ILOperandType_None => Ok (new_instruction op false CNone)
       | ILOperandType_Switch => Err E_FAIL
       | _ =>
           v <~ Operand_InitializeFromBytes op code pos value_zero ;;
           Ok (new_instruction op false (COperand v))
       end.

(** ** Constructors that choose a compact form *)

(** The union after [m_value.b = x] and [m_value.i = x]. *)
Definition value_b (x : Z) : list (option Z) := value_write (le_bytes 1 x) value_zero.
Definition value_i (x : Z) : list (option Z) := value_write (le_bytes 4 x) value_zero.

Definition new_operand (op : Z) (v : list (option Z)) : CInstruction :=
  new_instruction op true (COperand v).

(** [CLoadConstInstruction::CLoadConstInstruction(int value)] *)
Definition new_CLoadConstInstruction (value : Z) : CInstruction :=
  if (-1 <=? value) && (value <=? 8) then new_operand (value + Cee_Ldc_I4_0) value_zero
  else if Z.land (u32 value) (Z.lnot 0x7f) =? 0 then new_operand Cee_Ldc_I4_S (value_b value)
  else new_operand Cee_Ldc_I4 (value_i value).

(** [CLoadLocalInstruction::CLoadLocalInstruction(USHORT index)] *)
Definition new_CLoadLocalInstruction (index : Z) : CInstruction :=
  if index <? 4 then new_operand (index + Cee_Ldloc_0) value_zero
  else if index <=? 0xff then new_operand Cee_Ldloc_S (value_b index)
  else new_operand Cee_Ldloc (value_i index).

(** [CLoadLocalAddrInstruction::CLoadLocalAddrInstruction(USHORT index)] *)
Definition new_CLoadLocalAddrInstruction (index : Z) : CInstruction :=
  if index <=? 0xff then new_operand Cee_Ldloca_S (value_b index)
  else new_operand Cee_Ldloca (value_i index).

(** [CStoreLocalInstruction::CStoreLocalInstruction(USHORT index)] *)
Definition new_CStoreLocalInstruction (index : Z) : CInstruction :=
  if index <? 4 then new_operand (index + Cee_Stloc_0) value_zero
  else if index <=? 0xff then new_operand Cee_Stloc_S (value_b index)
  else new_operand Cee_Stloc (value_i index).

(** [CLoadArgInstruction::CLoadArgInstruction(USHORT index)]: the long form
    stores [(BYTE) index]. *)
Definition new_CLoadArgInstruction (index : Z) : CInstruction :=
  if index <? 4 then new_operand (index + Cee_Ldarg_0) value_zero
  else if index <=? 0xff then new_operand Cee_Ldarg_S (value_b index)
  else new_operand Cee_Ldarg (value_i (u8 index)).

(** [CLoadArgAddrInstruction::CLoadArgAddrInstruction(USHORT index)] *)
Definition new_CLoadArgAddrInstruction (index : Z) : CInstruction :=
  if index <=? 0xff then new_operand Cee_Ldarga_S (value_b index)
  else new_operand Cee_Ldarga (value_i (u8 index)).

(** ** The bytes of one instruction

    [opcode_bytes] is what [EmitIL] writes for the opcode; [payload] what it
    writes after it, for an instruction at offset [off] whose targets have the
    offsets [tgts].  They are used by [CInstruction::EmitIL] in [Graph.v]. *)
Definition opcode_bytes (op : Z) : list Z :=
  if 0x100 <=? op then [0xFE; u8 op] else [u8 op].

Definition branch_payload (operandSize : Z) (off tgt : Z) : list Z :=
  let nextOffset := off + 1 + operandSize in
  le_bytes (Z.to_nat operandSize) (u32 (tgt - nextOffset)).

Definition switch_operand_size (n : nat) : Z := u32 ((1 + Z.of_nat n) * 4).

Definition switch_payload (off : Z) (tgts : list Z) : list Z :=
  let nextOffset := off + 1 + switch_operand_size (length tgts) in
  le_bytes 4 (u32 (Z.of_nat (length tgts))) ++
  concat (map (fun t => le_bytes 4 (u32 (t - nextOffset))) tgts).

(** ** Decoding: lemmas *)

Lemma lor_0x100 b : is_byte b -> Z.lor 0x100 b = 0x100 + b.
Proof.
  intros Hb. apply Z.eqb_eq, Is_true_true_1.
  exact (bytes_forall (fun b => Z.lor 0x100 b =? 0x100 + b) eq_refl b Hb).
Qed.

Lemma length_opcode_bytes op :
  length (opcode_bytes op) = if decide (op < 0x100) then 1%nat else 2%nat.
Proof.
  unfold opcode_bytes. case_decide; destruct (Z.leb_spec 0x100 op); simpl; lia.
Qed.

Lemma OrdinalOpcode_spec code pos hr op :
  Forall is_byte code -> OrdinalOpcodeFromBytes code pos = Ok (hr, op) ->
  (hr = S_OK /\ 0 <= op < 0x200 /\
   read_at code pos (length (opcode_bytes op)) = Some (opcode_bytes op)) \/
  (hr = E_FAIL /\ op = 0 /\ pos + 1 = Z.of_nat (length code) /\
   read_at code pos 1 = Some [0xFE]).
Proof.
  intros Hb. unfold OrdinalOpcodeFromBytes. intros H.
  apply obind_Ok in H as (b & Hr & H). apply read_byte_Ok in Hr as (? & Hr & ->).
  assert (is_byte b) as Hbb.
  { apply (read_at_Forall is_byte) in Hr; [|done]. by inversion Hr. }
  destruct (Z.eqb_spec b 0xFE) as [->|Hne].
  - destruct (Z.leb_spec (Z.of_nat (length code)) (pos + 1)).
    + injection H as <- <-. right. split_and!; try done.
      apply read_at_Some in Hr. lia.
    + apply obind_Ok in H as (b2 & Hr2 & [= <- <-]). left.
      apply read_byte_Ok in Hr2 as (? & Hr2 & ->).
      assert (is_byte b2) as Hb2.
      { apply (read_at_Forall is_byte) in Hr2; [|done]. by inversion Hr2. }
      rewrite lor_0x100 by done. unfold is_byte in *. split_and!; [done|lia..|].
      rewrite length_opcode_bytes, decide_False by lia.
      etransitivity; [exact (read_at_split code pos 1 1 _ _ Hr Hr2)|]. f_equal.
      unfold opcode_bytes. destruct (Z.leb_spec 0x100 (0x100 + b2)); [|lia].
      unfold u8. simpl. repeat f_equal.
      change (0x100 + b2) with (1 * 2 ^ 8 + b2).
      rewrite Z.add_comm, Z_mod_plus_full, Z.mod_small; lia.
  - injection H as <- <-. left. unfold is_byte in *. split_and!; [done|lia..|].
    rewrite length_opcode_bytes, decide_True by lia. rewrite Hr.
    unfold opcode_bytes. destruct (Z.leb_spec 0x100 b); [lia|].
    rewrite u8_small; [done|]. unfold is_byte. lia.
Qed.

Lemma value_read_write n bs v :
  length bs = n -> value_read n (value_write bs v) = Ok bs.
Proof.
  intros <-. unfold value_read, value_write.
  rewrite take_app_le by (rewrite length_map; lia).
  rewrite take_ge by (rewrite length_map; lia).
  assert (mapM id (map Some bs) = Some bs) as ->; [|done].
  induction bs as [|b bs IH]; [done|]. simpl. by rewrite IH.
Qed.

Lemma length_value_write bs v :
  (length bs <= length v)%nat -> length (value_write bs v) = length v.
Proof. intros. unfold value_write. rewrite length_app, length_map, length_drop. lia. Qed.

(** What [row_ok] says, unpacked, for an opcode that decodes. *)
Lemma row_facts op r :
  opinfo op = Ok r ->
  (op < 0x123 -> m_opcodeLength r = Z.of_nat (length (opcode_bytes op))) /\
  (0x123 <= op -> m_opcodeLength r = 0) /\
  (op <> Cee_Switch -> m_operandLength r = from_option Z.of_nat 0 (operand_type_size (m_type r))) /\
  (m_type r = ILOperandType_Switch <-> op = Cee_Switch) /\
  (op = Cee_Switch -> m_operandLength r = 2 ^ 32 - 1) /\
  (IsFlagSet (m_flags r) ILOpcodeFlag_Branch = true -> op < 0x100 /\ op <> Cee_Switch /\
       m_operandLength r = if IsShortBranch op then 1 else 4).
Proof.
  rewrite opinfo_Ok. intros H%table_row_ok. unfold row_ok in H.
  apply bool_decide_eq_true in H as (H1 & H2 & H3 & H4 & H5 & H6).
  split_and!; [| done | | done | done |].
  - intros Hop. rewrite H1, length_opcode_bytes by done. by destruct (decide (op < 0x100)).
  - intros Hop. apply H3. tauto.
  - intros Hb. destruct (H6 Hb) as (? & ? & Hl). split_and!; [done..|].
    rewrite Hl. unfold IsShortBranch.
    case_decide as Hd; destruct (Z.ltb_spec op Cee_Br), (Z.eqb_spec op Cee_Leave_S);
      simpl; try done; exfalso; lia.
Qed.

Lemma IsShortBranch_size op : (if IsShortBranch op then 1 else 4) = 1 \/
                              (if IsShortBranch op then 1 else 4) = 4.
Proof. destruct (IsShortBranch op); auto. Qed.

(** The bytes after the opcode of a freshly decoded instruction, as its class
    records them. *)
Definition class_payload (operandSize : Z) (c : InstrClass) : outcome (list Z) :=
  match c with
  | CNone => Ok []
  | COperand v => value_read (Z.to_nat operandSize) v
  | CBranch d _ _ => Ok (le_bytes (Z.to_nat operandSize) (u32 (d - (1 + operandSize))))
  | CSwitch ds _ => Ok (le_bytes 4 (Z.of_nat (length ds)) ++ concat (map (le_bytes 4) ds))
  end.

Lemma le_bytes_1_s8 c k :
  is_byte c -> le_bytes 1 (u32 (u32 (s8 c + k) - k)) = [c].
Proof.
  intros Hc. simpl. f_equal.
  unfold u32, s8, is_byte in *. rewrite Zminus_mod_idemp_l.
  replace ((c + 2 ^ 7) mod 2 ^ 8 - 2 ^ 7 + k - k) with ((c + 2 ^ 7) mod 2 ^ 8 - 2 ^ 7) by lia.
  change 256 with (2 ^ 8). rewrite Z.mod_mod_divide by (exists (2 ^ 24); lia).
  rewrite Zminus_mod_idemp_l. replace (c + 2 ^ 7 - 2 ^ 7) with c by lia.
  apply Z.mod_small. lia.
Qed.

Lemma read_deltas_bytes code p n ds :
  Forall is_byte code -> 0 <= p <= Z.of_nat (length code) ->
  read_deltas code p n = Ok ds ->
  length ds = n /\ Forall is_u32 ds /\
  read_at code p (4 * n) = Some (concat (map (le_bytes 4) ds)).
Proof.
  intros Hb. revert p ds. induction n as [|n IH]; intros p ds Hp H.
  - injection H as <-. split_and!; [done..|]. apply read_at_Some. split_and!; [lia..|done].
  - cbn [read_deltas] in H. apply obind_Ok in H as (d & Hd & H).
    apply obind_Ok in H as (ds' & Hds & [= <-]).
    apply read_le_bytes in Hd as [Hd Hr]; [|done].
    pose proof Hd as Hd'. apply read_at_Some in Hd' as (? & ? & _).
    apply IH in Hds as (<- & Hu & Hr'); [|lia].
    split_and!; [done|constructor; [apply Hr|done]|].
    replace (4 * S (length ds'))%nat with (4 + 4 * length ds')%nat by lia.
    cbn [map concat]. by apply (read_at_split code p 4).
Qed.

Lemma length_concat_le4 ds : length (concat (map (le_bytes 4) ds)) = (4 * length ds)%nat.
Proof.
  induction ds as [|d ds IH]; [done|]. cbn [map concat].
  rewrite length_app, IH, length_le_bytes. cbn. lia.
Qed.

(** The decoder, one class at a time: the displacement or operand bytes it read
    are the payload of the class. *)
Lemma Branch_init_bytes op code pos r d :
  Forall is_byte code -> opinfo op = Ok r -> m_opcodeLength r = 1 ->
  m_operandLength r = (if IsShortBranch op then 1 else 4) ->
  Branch_InitializeFromBytes op code pos = Ok d ->
  class_payload (m_operandLength r) (CBranch d None None) =
    Ok (le_bytes (Z.to_nat (m_operandLength r)) (u32 (d - (1 + m_operandLength r)))) /\
  read_at code (pos + 1) (Z.to_nat (m_operandLength r)) =
    Some (le_bytes (Z.to_nat (m_operandLength r)) (u32 (d - (1 + m_operandLength r)))) /\
  pos + s32 d < Z.of_nat (length code) /\ is_u32 d.
Proof.
  intros Hb Hr Hol Hpl H. unfold Branch_InitializeFromBytes in H.
  rewrite Hr in H. cbn [obind] in H. rewrite Hol in H.
  destruct (Z.of_nat (length code) <=? pos + 1); [done|].
  apply obind_Ok in H as (t & Ht & H).
  destruct (Z.leb_spec (Z.of_nat (length code)) (pos + s32 t)); [done|].
  injection H as ->. split; [done|]. rewrite Hpl.
  destruct (IsShortBranch op).
  - apply obind_Ok in Ht as (c & Hc & [= <-]).
    apply read_byte_Ok in Hc as (? & Hc & ->).
    assert (is_byte c) as Hcb.
    { apply (read_at_Forall is_byte) in Hc; [|done]. by inversion Hc. }
    split_and!; [|done|apply u32_range].
    rewrite <- (Z.add_assoc (s8 c)). change (Z.to_nat 1) with 1%nat.
    by rewrite le_bytes_1_s8.
  - apply obind_Ok in Ht as (c & Hc & [= <-]).
    apply read_le_bytes in Hc as [Hc Hcr]; [|done].
    split_and!; [|done|apply u32_range].
    change (Z.to_nat 4) with 4%nat. rewrite Hc. do 2 f_equal.
    unfold u32. rewrite Zminus_mod_idemp_l.
    replace (c + 1 + 4 - (1 + 4)) with c by lia. symmetry. apply Z.mod_small. apply Hcr.
Qed.

(** A decoded instruction occupies exactly the bytes of its opcode followed by
    the payload its class records, when the code is not cut inside the opcode
    and the opcode is a real one. *)
Definition decoded_at (code : list Z) (pos : Z) (i : CInstruction) : Prop :=
  exists r pl,
    opinfo (m_opcode i) = Ok r /\
    class_payload (m_operandLength r) (m_class i) = Ok pl /\
    GetInstructionSize i = Ok (Z.of_nat (length (opcode_bytes (m_opcode i) ++ pl))) /\
    read_at code pos (length (opcode_bytes (m_opcode i) ++ pl)) =
      Some (opcode_bytes (m_opcode i) ++ pl).

(** The class the decoder gives to an opcode. *)
Definition class_matches (op : Z) (r : ILOpcodeInfo) (c : InstrClass) : Prop :=
  match c with
  | CNone => IsFlagSet (m_flags r) ILOpcodeFlag_Branch = false /\ m_type r = ILOperandType_None
  | COperand v => IsFlagSet (m_flags r) ILOpcodeFlag_Branch = false /\
                  is_Some (operand_type_size (m_type r)) /\ length v = 8%nat
  | CBranch d t o => IsFlagSet (m_flags r) ILOpcodeFlag_Branch = true /\ is_u32 d /\
                     t = None /\ o = None
  | CSwitch ds ts => op = Cee_Switch /\ ts = replicate (length ds) None /\ Forall is_u32 ds
  end.

Section Decoding.
Context (code : list Z) (pos : Z) (op : Z).
Hypothesis Hbytes : Forall is_byte code.
Hypothesis Hlen : Z.of_nat (length code) < 2 ^ 31.
Hypothesis Hop : OrdinalOpcodeFromBytes code pos = Ok (S_OK, op).
Hypothesis Hreal : op < 0x123.

Let Hread : 0 <= op /\
  read_at code pos (length (opcode_bytes op)) = Some (opcode_bytes op).
Proof. destruct (OrdinalOpcode_spec _ _ _ _ Hbytes Hop) as [(_ & ? & ?)|(? & _)]; [|done]. split; [lia|done]. Qed.

(** Gluing the opcode and its payload. *)
Lemma decoded_glue r c pl i :
  opinfo op = Ok r -> i = new_instruction op false c ->
  class_payload (m_operandLength r) c = Ok pl ->
  GetInstructionSize i = Ok (m_opcodeLength r + Z.of_nat (length pl)) ->
  read_at code (pos + m_opcodeLength r) (length pl) = Some pl ->
  decoded_at code pos i.
Proof.
  intros Hr -> Hpl Hsz Hrd. destruct (row_facts op r Hr) as (Hol & _).
  specialize (Hol Hreal). rewrite Hol in Hsz, Hrd. destruct Hread as [_ Hro].
  exists r, pl. rewrite length_app. split_and!; [done..| |].
  - rewrite Hsz. f_equal. cbn [m_opcode new_instruction]. lia.
  - by apply read_at_split.
Qed.

Lemma pos_nonneg : 0 <= pos /\ pos + 1 <= Z.of_nat (length code).
Proof.
  destruct Hread as [_ Hro]. apply read_at_Some in Hro as (? & Hl & _).
  rewrite length_opcode_bytes in Hl. case_decide; lia.
Qed.

Lemma switch_decoded r ds :
  opinfo op = Ok r -> op = Cee_Switch -> Switch_InitializeFromBytes op code pos = Ok ds ->
  decoded_at code pos (new_instruction op false (CSwitch ds (replicate (length ds) None))) /\
  Forall is_u32 ds.
Proof.
  intros Hr Hsw H. unfold Switch_InitializeFromBytes in H. rewrite Hr in H. cbn [obind] in H.
  destruct (row_facts op r Hr) as (Hol & _). specialize (Hol Hreal).
  assert (m_opcodeLength r = 1) as Hol1 by (rewrite Hol; subst op; reflexivity). rewrite Hol1 in H.
  apply obind_Ok in H as (n & Hn & H). apply read_le_bytes in Hn as [Hn Hnr]; [|done].
  pose proof Hn as Hn'. apply read_at_Some in Hn' as (? & ? & _).
  apply read_deltas_bytes in H as (Hlds & Hu & Hrd); [|done|lia].
  split; [|done].
  assert (Z.of_nat (length ds) = n) as Hln by (rewrite Hlds; lia).
  apply (decoded_glue r (CSwitch ds (replicate (length ds) None))
           (le_bytes 4 n ++ concat (map (le_bytes 4) ds))); [done..| | |].
  - unfold class_payload. by rewrite Hln.
  - unfold GetInstructionSize. cbn [m_opcode m_class new_instruction]. rewrite Hr. cbn [obind].
    apply read_at_Some in Hrd as (? & ? & _).
    rewrite length_replicate, length_app, length_le_bytes, length_concat_le4.
    rewrite Hol1. f_equal. rewrite u32_idemp_r. rewrite u32_small; unfold is_u32; lia.
  - rewrite length_app, length_le_bytes, length_concat_le4, Hol1.
    apply (read_at_split code (pos + 1) 4); [done|].
    rewrite <- Hlds in Hrd. exact Hrd.
Qed.

Lemma branch_decoded r d :
  opinfo op = Ok r -> IsFlagSet (m_flags r) ILOpcodeFlag_Branch = true ->
  Branch_InitializeFromBytes op code pos = Ok d ->
  decoded_at code pos (new_instruction op false (CBranch d None None)) /\ is_u32 d.
Proof.
  intros Hr Hf H. destruct (row_facts op r Hr) as (Hol & _ & _ & _ & _ & Hbr).
  destruct (Hbr Hf) as (Hlt & Hns & Hpl). specialize (Hol Hreal).
  assert (m_opcodeLength r = 1) as Hol1.
  { rewrite Hol, length_opcode_bytes, decide_True by done. done. }
  destruct (Branch_init_bytes op code pos r d Hbytes Hr Hol1 Hpl H) as (Hc & Hrd & _ & Hu).
  split; [|done]. eapply decoded_glue; [done..| |].
  - unfold GetInstructionSize. cbn [m_opcode m_class new_instruction]. rewrite Hr. cbn [obind].
    rewrite length_le_bytes, Hol1, Hpl. destruct (IsShortBranch op); reflexivity.
  - rewrite length_le_bytes, Hol1. exact Hrd.
Qed.

Lemma operand_decoded r v :
  opinfo op = Ok r -> op <> Cee_Switch ->
  Operand_InitializeFromBytes op code pos value_zero = Ok v ->
  decoded_at code pos (new_instruction op false (COperand v)) /\
  is_Some (operand_type_size (m_type r)) /\ length v = 8%nat.
Proof.
  intros Hr Hns H. unfold Operand_InitializeFromBytes in H. rewrite Hr in H. cbn [obind] in H.
  destruct (row_facts op r Hr) as (_ & _ & Hpl & _). specialize (Hpl Hns).
  destruct (Z.of_nat (length code) <=? pos + m_opcodeLength r); [done|].
  destruct (Z.of_nat (length code) <? _); [done|].
  destruct (operand_type_size (m_type r)) as [n|] eqn:Hn; [|done]. cbn in Hpl.
  apply obind_Ok in H as (bs & Hbs & [= <-]).
  destruct (read_at code (pos + m_opcodeLength r) n) as [bs'|] eqn:Hrd; [|done].
  injection Hbs as ->. pose proof (read_at_length _ _ _ _ Hrd) as Hl.
  assert (n <= 8)%nat as Hn8 by (destruct (m_type r); cbn in Hn; simplify_eq; lia).
  split_and!; [|done|by rewrite length_value_write; [|rewrite Hl]].
  eapply (decoded_glue r); [done..| | |].
  - cbn [class_payload]. rewrite Hpl, Nat2Z.id. by apply value_read_write.
  - unfold GetInstructionSize. cbn [m_opcode m_class new_instruction]. rewrite Hr. cbn [obind].
    rewrite Hl, Hpl. f_equal. apply u32_small. apply read_at_Some in Hrd.
    destruct (row_facts op r Hr) as (Hol & _). rewrite (Hol Hreal), length_opcode_bytes.
    unfold is_u32. case_decide; lia.
  - by rewrite Hl.
Qed.

Lemma none_decoded r :
  opinfo op = Ok r -> m_type r = ILOperandType_None -> op <> Cee_Switch ->
  decoded_at code pos (new_instruction op false CNone).
Proof.
  intros Hr Ht Hns. destruct (row_facts op r Hr) as (Hol & _ & Hpl & _).
  specialize (Hpl Hns). rewrite Ht in Hpl. cbn in Hpl. specialize (Hol Hreal).
  eapply (decoded_glue r CNone []); [done..| |].
  - unfold GetInstructionSize. cbn [m_opcode m_class new_instruction]. rewrite Hr. cbn [obind].
    rewrite Hpl. f_equal. apply u32_small. rewrite Hol, length_opcode_bytes.
    unfold is_u32. cbn. case_decide; lia.
  - destruct Hread as [_ Hro]. apply read_at_Some in Hro as (? & ? & _).
    apply read_at_Some. rewrite Hol. cbn [length]. split_and!; [lia..|done].
Qed.

Lemma InstructionFromBytes_spec i :
  InstructionFromBytes code pos = Ok i ->
  exists r c, opinfo op = Ok r /\ i = new_instruction op false c /\
    class_matches op r c /\ decoded_at code pos i.
Proof.
  intros H. unfold InstructionFromBytes in H. rewrite Hop in H. cbn [obind snd] in H.
  destruct ((op <? 0) || (opcode_count <=? op)); [done|].
  apply obind_Ok in H as (r & Hr & H). exists r.
  destruct (row_facts op r Hr) as (_ & _ & _ & Hty & _ & _).
  destruct (Z.eqb_spec op Cee_Switch) as [Hsw|Hns].
  { apply obind_Ok in H as (ds & Hds & [= <-]). apply (switch_decoded r) in Hds as [? ?]; [|done..].
    eexists. split_and!; [done..| |done]. by cbn. }
  destruct (IsFlagSet (m_flags r) ILOpcodeFlag_Branch) eqn:Hf.
  { apply obind_Ok in H as (d & Hd & [= <-]). apply (branch_decoded r) in Hd as [? ?]; [|done..].
    eexists. split_and!; [done..| |done]. done. }
  destruct (m_type r) eqn:Ht.
  1: { injection H as <-. exists CNone. split_and!; [done..|]. by eapply none_decoded. }
  8: done.
  all: apply obind_Ok in H as (v & Hv & [= <-]);
    apply (operand_decoded r) in Hv as (? & ? & ?); [|done..];
    eexists; split_and!; [done..| |done]; cbn; split_and!; done.
Qed.

End Decoding.

(** ** Reference meaning of the compact forms (ECMA-335, III.3) *)

(** The operand of an instruction as an unsigned integer. *)
Definition operand_value (i : CInstruction) : option Z :=
  match opinfo_opt (m_opcode i) with
  | Some r => match GetOperandValue (m_operandLength r) i with
              | Ok bs => Some (le_val bs)
              | _ => None
              end
  | None => None
  end.

(** The constant an [ldc.i4] form pushes. *)
Definition ldc_i4_denotes (i : CInstruction) : option Z :=
  let op := m_opcode i in
  if (Cee_Ldc_I4_M1 <=? op) && (op <=? Cee_Ldc_I4_0 + 8) then Some (op - Cee_Ldc_I4_0)
  else if op =? Cee_Ldc_I4_S then s8 <$> operand_value i
  else if op =? Cee_Ldc_I4 then s32 <$> operand_value i
  else None.

(** The slot a local or argument instruction accesses: [op0] is the first of the
    four one-byte forms (if there are any), [opS] and [opL] the forms with a
    one-byte and a two-byte operand. *)
Definition slot_denotes (op0 : option Z) (opS opL : Z) (i : CInstruction) : option Z :=
  let op := m_opcode i in
  match op0 with
  | Some o => if (o <=? op) && (op <? o + 4) then Some (op - o)
              else if (op =? opS) || (op =? opL) then operand_value i else None
  | None => if (op =? opS) || (op =? opL) then operand_value i else None
  end.

Lemma value_b_read x : value_read 1 (value_b x) = Ok (le_bytes 1 x).
Proof. by apply value_read_write. Qed.

Lemma value_i_read x : value_read 4 (value_i x) = Ok (le_bytes 4 x).
Proof. by apply value_read_write. Qed.

Lemma value_i_read2 x : value_read 2 (value_i x) = Ok (le_bytes 2 x).
Proof. reflexivity. Qed.

(** The operand of a constructed instruction, by the operand type of its row. *)
Lemma operand_value_new op r n v bs :
  opinfo_opt op = Some r -> operand_type_size (m_type r) = Some n ->
  value_read n v = Ok bs -> operand_value (new_operand op v) = Some (le_val bs).
Proof.
  intros Hr Hn Hv. unfold operand_value, GetOperandValue. cbn [m_opcode m_class new_operand new_instruction].
  rewrite Hr. unfold opinfo. rewrite Hr. cbn [of_option obind].
  rewrite Z.ltb_irrefl, Hn, Hv. done.
Qed.

Lemma land_lnot_0x7f x : 0 <= x -> Z.land x (Z.lnot 0x7f) = 0 <-> x < 128.
Proof.
  intros Hx. change 0x7f with (Z.ones 7). rewrite <- Z.ldiff_land, Z.ldiff_ones_r by lia.
  rewrite Z.shiftl_mul_pow2, Z.shiftr_div_pow2 by lia.
  pose proof (Z.div_pos x (2 ^ 7)). pose proof (Z.div_mod x (2 ^ 7)).
  pose proof (Z.mod_pos_bound x (2 ^ 7)). lia.
Qed.

Lemma le_val_le_bytes_small n z :
  0 <= z < 256 ^ Z.of_nat n -> le_val (le_bytes n z) = z.
Proof. intros. rewrite le_val_le_bytes. by apply Z.mod_small. Qed.

(** [CLoadConstInstruction] pushes the constant it was built for, for every
    32-bit integer, whichever of the three encodings it chooses. *)
Theorem CLoadConst_pushes_value value :
  - 2 ^ 31 <= value < 2 ^ 31 ->
  ldc_i4_denotes (new_CLoadConstInstruction value) = Some value.
Proof.
  intros Hv. unfold new_CLoadConstInstruction.
  destruct ((-1 <=? value) && (value <=? 8)) eqn:H1; [|destruct (_ =? 0) eqn:H2].
  - unfold ldc_i4_denotes. cbn [m_opcode new_operand new_instruction].
    unfold Cee_Ldc_I4_M1, Cee_Ldc_I4_0 in *.
    destruct (Z.leb_spec 0x15 (value + 0x16)), (Z.leb_spec (value + 0x16) (0x16 + 8));
      cbn [andb]; try lia. f_equal. lia.
  - apply Z.eqb_eq, land_lnot_0x7f in H2; [|apply u32_range].
    assert (0 <= value < 128) as Hr by zlia.
    transitivity (s8 <$> operand_value (new_operand Cee_Ldc_I4_S (value_b value))); [done|].
    erewrite operand_value_new; [|reflexivity|reflexivity|apply value_b_read].
    cbn [fmap option_fmap option_map]. rewrite le_val_le_bytes_small by lia.
    unfold s8. rewrite Z.mod_small by lia. f_equal. lia.
  - transitivity (s32 <$> operand_value (new_operand Cee_Ldc_I4 (value_i value))); [done|].
    erewrite operand_value_new; [|reflexivity|reflexivity|apply value_i_read].
    cbn [fmap option_fmap option_map]. rewrite le_val_le_bytes.
    change (256 ^ Z.of_nat 4) with (2 ^ 32). f_equal. by apply (s32_u32 value).
Qed.

Lemma CLoadConst_pushes_value_witness :
  ldc_i4_denotes (new_CLoadConstInstruction (-1000)) = Some (-1000).
Proof. apply CLoadConst_pushes_value. lia. Defined.

(** The shared argument of the slot constructors: [short] is the operand form
    for indices up to 0xff, [long] for the others, which stores [stored]. *)
Lemma slot_two_forms opS opL index stored op0 rS rL :
  opinfo_opt opS = Some rS -> operand_type_size (m_type rS) = Some 1%nat ->
  opinfo_opt opL = Some rL -> operand_type_size (m_type rL) = Some 2%nat ->
  (match op0 with Some o => o + 4 <= opS /\ o + 4 <= opL | None => True end) ->
  0 <= index < 2 ^ 16 -> 0 <= stored < 2 ^ 16 ->
  slot_denotes op0 opS opL
    (if index <=? 0xff then new_operand opS (value_b index) else new_operand opL (value_i stored))
  = Some (if index <=? 0xff then index else stored).
Proof.
  intros HrS HtS HrL HtL Ho Hi Hs. unfold slot_denotes.
  destruct (Z.leb_spec index 0xff); cbn [m_opcode new_operand new_instruction].
  - replace (match op0 with Some o => _ | None => _ end)
      with (operand_value (new_operand opS (value_b index))).
    + erewrite operand_value_new; [|done..|apply value_b_read].
      by rewrite le_val_le_bytes_small by lia.
    + destruct op0 as [o|]; [|by rewrite Z.eqb_refl].
      destruct (Z.leb_spec o opS), (Z.ltb_spec opS (o + 4)); try lia. cbn [andb].
      by rewrite Z.eqb_refl.
  - replace (match op0 with Some o => _ | None => _ end)
      with (operand_value (new_operand opL (value_i stored))).
    + erewrite operand_value_new; [|done..|apply value_i_read2].
      by rewrite le_val_le_bytes_small by (change (256 ^ Z.of_nat 2) with (2 ^ 16); lia).
    + destruct op0 as [o|]; [|by rewrite Z.eqb_refl, orb_true_r].
      destruct (Z.leb_spec o opL), (Z.ltb_spec opL (o + 4)); try lia. cbn [andb].
      by rewrite Z.eqb_refl, orb_true_r.
Qed.

Lemma slot_zero_form o opS opL index v :
  0 <= index < 4 ->
  slot_denotes (Some o) opS opL (new_operand (index + o) v) = Some index.
Proof.
  intros Hi. unfold slot_denotes. cbn [m_opcode new_operand new_instruction].
  destruct (Z.leb_spec o (index + o)), (Z.ltb_spec (index + o) (o + 4)); cbn [andb]; try lia.
  f_equal. lia.
Qed.

(** The local-variable constructors ([ldloc], [ldloca], [stloc]) address the
    slot they were built for, for every 16-bit index and in every encoding. *)
Theorem local_constructors_address_index index :
  0 <= index < 2 ^ 16 ->
  slot_denotes (Some Cee_Ldloc_0) Cee_Ldloc_S Cee_Ldloc (new_CLoadLocalInstruction index) = Some index /\
  slot_denotes None Cee_Ldloca_S Cee_Ldloca (new_CLoadLocalAddrInstruction index) = Some index /\
  slot_denotes (Some Cee_Stloc_0) Cee_Stloc_S Cee_Stloc (new_CStoreLocalInstruction index) = Some index.
Proof.
  intros Hi. unfold new_CLoadLocalInstruction, new_CLoadLocalAddrInstruction, new_CStoreLocalInstruction.
  split_and!.
  1, 3: destruct (Z.ltb_spec index 4); [apply slot_zero_form; lia|].
  all: erewrite slot_two_forms;
    [destruct (_ <=? _); done|reflexivity..|done|lia|lia].
Qed.

Lemma local_constructors_address_index_witness :
  slot_denotes (Some Cee_Ldloc_0) Cee_Ldloc_S Cee_Ldloc (new_CLoadLocalInstruction 300) = Some 300 /\
  slot_denotes None Cee_Ldloca_S Cee_Ldloca (new_CLoadLocalAddrInstruction 300) = Some 300 /\
  slot_denotes (Some Cee_Stloc_0) Cee_Stloc_S Cee_Stloc (new_CStoreLocalInstruction 300) = Some 300.
Proof. apply local_constructors_address_index. lia. Defined.

(** the argument constructors ([ldarg], [ldarga]) address argument [index]
    when it is at most 255; above that the cast to [BYTE] in their long form makes
    them address argument [index mod 256]. *)
Theorem arg_constructors_address_index_mod_256 index :
  0 <= index < 2 ^ 16 ->
  slot_denotes (Some Cee_Ldarg_0) Cee_Ldarg_S Cee_Ldarg (new_CLoadArgInstruction index)
    = Some (index mod 256) /\
  slot_denotes None Cee_Ldarga_S Cee_Ldarga (new_CLoadArgAddrInstruction index)
    = Some (index mod 256).
Proof.
  intros Hi. unfold new_CLoadArgInstruction, new_CLoadArgAddrInstruction. split.
  1: destruct (Z.ltb_spec index 4);
    [rewrite slot_zero_form by lia; by rewrite Z.mod_small by lia|].
  all: erewrite slot_two_forms;
    [destruct (Z.leb_spec index 0xff); [by rewrite Z.mod_small by lia|done]
    |reflexivity..|done|lia|zlia].
Qed.

Lemma arg_constructors_address_index_mod_256_witness :
  slot_denotes (Some Cee_Ldarg_0) Cee_Ldarg_S Cee_Ldarg (new_CLoadArgInstruction 300) = Some (300 mod 256) /\
  slot_denotes None Cee_Ldarga_S Cee_Ldarga (new_CLoadArgAddrInstruction 300) = Some (300 mod 256).
Proof. apply arg_constructors_address_index_mod_256. lia. Defined.

(** [SetOperandValue] followed by [GetOperandValue] with the same size
    returns the bytes that were stored. *)
Theorem SetOperandValue_GetOperandValue dwSize bs i i' :
  m_opcode i <> Cee_Switch -> Z.of_nat (length bs) = dwSize ->
  SetOperandValue dwSize bs i = Ok i' ->
  GetOperandValue dwSize i' = Ok bs /\ m_opcode i' = m_opcode i.
Proof.
  intros Hns Hl H. unfold SetOperandValue in H.
  destruct i as [op off oo gen rm g nx pv on opv c bi]. cbn in Hns, H.
  destruct c as [|v| |]; try done.
  apply obind_Ok in H as (v' & Hv & [= <-]). cbn. split; [|done].
  unfold SetOperandValue_union in Hv. apply obind_Ok in Hv as (r & Hr & Hv).
  unfold GetOperandValue. cbn. rewrite Hr. cbn [obind].
  destruct (Z.eqb_spec dwSize (m_operandLength r)) as [->|]; [|done]. cbn in Hv.
  rewrite Z.ltb_irrefl. destruct (row_facts op r Hr) as (_ & _ & Hpl & _).
  specialize (Hpl Hns).
  destruct (operand_type_size (m_type r)) as [n|] eqn:Hn; [|done]. cbn in Hpl.
  assert (length bs = n) as <- by lia.
  replace (read_at bs 0 (length bs)) with (Some bs) in Hv.
  - injection Hv as <-. by apply value_read_write.
  - symmetry. pose proof (read_at_here bs []) as E. by rewrite app_nil_r in E.
Qed.

Lemma SetOperandValue_GetOperandValue_witness :
  exists i', SetOperandValue 2 [0x34; 0x12] (new_COperandInstruction Cee_Ldloc true) = Ok i' /\
  GetOperandValue 2 i' = Ok [0x34; 0x12].
Proof.
  eexists. split; [vm_compute; reflexivity|].
  refine (proj1 (SetOperandValue_GetOperandValue 2 [0x34; 0x12]
            (new_COperandInstruction Cee_Ldloc true) _ _ _ _)); [done|done|].
  vm_compute; reflexivity.
Defined.

(** What [ExpandBranch] gives on a row of the table, as a boolean test. *)
Definition expand_ok (op : Z) (r : ILOpcodeInfo) : bool :=
  negb (IsFlagSet (m_flags r) ILOpcodeFlag_Branch) ||
  match ExpandBranch_opcode op with
  | Ok op' =>
      match opinfo op' with
      | Ok r' =>
          bool_decide (m_operandLength r' = 4) && bool_decide (m_opcodeLength r' = 1) &&
          IsFlagSet (m_flags r') ILOpcodeFlag_Branch &&
          bool_decide (m_popSlots r' = m_popSlots r) && bool_decide (m_pushSlots r' = m_pushSlots r) &&
          negb (IsShortBranch op') &&
          bool_decide (GetTerminationType op' = GetTerminationType op) &&
          (if IsShortBranch op
           then bool_decide (op' = m_alternate r) && bool_decide (m_name r = m_name r' +:+ ".s")
           else bool_decide (op' = op))
      | _ => false
      end
  | _ => false
  end.

(** expanding a branch gives the long form of the same instruction: a branch
    with a four-byte displacement, the same stack effect and the same
    termination type; for a short branch it is the alternate opcode of the table
    (the one without the suffix [.s]), and a long branch is left alone. *)
Theorem ExpandBranch_gives_long_form op r :
  opinfo op = Ok r -> IsFlagSet (m_flags r) ILOpcodeFlag_Branch = true ->
  exists op' r', ExpandBranch_opcode op = Ok op' /\ opinfo op' = Ok r' /\
    m_operandLength r' = 4 /\ m_opcodeLength r' = 1 /\
    IsFlagSet (m_flags r') ILOpcodeFlag_Branch = true /\
    m_popSlots r' = m_popSlots r /\ m_pushSlots r' = m_pushSlots r /\
    IsShortBranch op' = false /\ GetTerminationType op' = GetTerminationType op /\
    (if IsShortBranch op then op' = m_alternate r /\ m_name r = m_name r' +:+ ".s"
     else op' = op).
Proof.
  rewrite opinfo_Ok. intros Hr Hf.
  assert (expand_ok op r = true) as H.
  { apply (opcode_rows_forall expand_ok); [vm_compute; reflexivity|done]. }
  unfold expand_ok in H. rewrite Hf in H. cbn [negb orb] in H.
  destruct (ExpandBranch_opcode op) as [op'| | |]; try done.
  destruct (opinfo op') as [r'| | |] eqn:Hr'; try done.
  rewrite !andb_true_iff, !bool_decide_eq_true, negb_true_iff in H.
  destruct H as [[[[[[[H1 H2] H3] H4] H5] H6] H7] H8].
  exists op', r'. split_and!; try done.
  destruct (IsShortBranch op); [rewrite andb_true_iff, !bool_decide_eq_true in H8|rewrite bool_decide_eq_true in H8]; done.
Qed.

Lemma ExpandBranch_gives_long_form_witness :
  exists op', ExpandBranch_opcode Cee_Beq_S = Ok op' /\ IsShortBranch op' = false.
Proof.
  edestruct (ExpandBranch_gives_long_form Cee_Beq_S) as (op' & r' & H);
    [reflexivity|reflexivity|].
  exists op'. split; apply H.
Defined.

Definition termination_ok (op : Z) (r : ILOpcodeInfo) : bool :=
  Bool.eqb (IsFlagSet (m_flags r) ILOpcodeFlag_Branch)
    (bool_decide (GetTerminationType op = TerminationType_Branch) ||
     bool_decide (GetTerminationType op = TerminationType_ConditionalBranch)) &&
  Bool.eqb (bool_decide (m_pushSlots r = u32 VarPush))
    (GetIsCallInstruction (new_instruction op false CNone)).

(** [GetTerminationType] agrees with the opcode table: exactly the opcodes
    that carry the branch flag terminate as a branch or a conditional branch, and
    exactly the call instructions have a variable number of pushes. *)
Theorem termination_agrees_with_flags op r :
  opinfo op = Ok r ->
  (IsFlagSet (m_flags r) ILOpcodeFlag_Branch = true <->
     GetTerminationType op = TerminationType_Branch \/
     GetTerminationType op = TerminationType_ConditionalBranch) /\
  (m_pushSlots r = u32 VarPush <-> op = Cee_Call \/ op = Cee_Calli \/ op = Cee_Callvirt).
Proof.
  rewrite opinfo_Ok. intros Hr.
  assert (termination_ok op r = true) as H.
  { apply (opcode_rows_forall termination_ok); [vm_compute; reflexivity|done]. }
  unfold termination_ok in H. rewrite andb_true_iff, !Bool.eqb_true_iff in H.
  destruct H as [H1 H2]. rewrite H1. split.
  - by rewrite orb_true_iff, !bool_decide_eq_true.
  - rewrite <- (bool_decide_eq_true (m_pushSlots r = _)), H2.
    unfold GetIsCallInstruction. cbn. rewrite !orb_true_iff, !Z.eqb_eq. tauto.
Qed.

Lemma termination_agrees_with_flags_witness :
  IsFlagSet ILOpcodeFlag_Branch ILOpcodeFlag_Branch = true <->
     GetTerminationType Cee_Br = TerminationType_Branch \/
     GetTerminationType Cee_Br = TerminationType_ConditionalBranch.
Proof.
  edestruct (termination_agrees_with_flags Cee_Br) as [H _]; [reflexivity|]. exact H.
Defined.
