(* ===== verification/CorHeaders.v ===== *)
(** The binary format of method bodies: [CorHeaders.h] and [CorHeaders.cpp].
    A method body is a list of bytes; pointers into it are positions, counted from
    a DWORD-aligned start (the source asserts the alignment of its buffers). *)
From S2P Require Import Prelude.

Definition CorILMethod_FormatMask : Z := 7.
Definition CorILMethod_TinyFormat : Z := 2.
Definition CorILMethod_FatFormat : Z := 3.
Definition CorILMethod_MoreSects : Z := 8.
Definition CorILMethod_InitLocals : Z := 0x10.

Definition CorILMethod_Sect_EHTable : Z := 1.
Definition CorILMethod_Sect_KindMask : Z := 0x3F.
Definition CorILMethod_Sect_FatFormat : Z := 0x40.
Definition CorILMethod_Sect_MoreSects : Z := 0x80.
Definition COR_ILMETHOD_SECT_SMALL_MAX_DATASIZE : Z := 0xFF.

(** [sizeof] of the packed structures. *)
Definition sizeof_TINY : Z := 1.
Definition sizeof_FAT : Z := 12.
Definition sizeof_CLAUSE_SMALL : Z := 12.
Definition sizeof_CLAUSE_FAT : Z := 24.

(** Stores through a pointer into a buffer. *)
Definition store (buf : list Z) (pos : Z) (bs : list Z) : outcome (list Z) :=
  of_option OutOfBoundsWrite (write_at buf pos bs).

(** [COR_ILMETHOD_SECT::Align] *)
Definition Align (pos : Z) : Z := 4 * ((pos + 3) / 4).

(** ** Method headers *)

(** [IMAGE_COR_ILMETHOD_FAT]: [Flags] has 12 bits, [Size] 4, [MaxStack] 16. *)
Record COR_ILMETHOD_FAT := mkFat {
  Flags : Z; Size : Z; MaxStack : Z; CodeSize : Z; LocalVarSigTok : Z
}.

Definition fat_header_bytes (h : COR_ILMETHOD_FAT) : list Z :=
  le_bytes 2 (Flags h mod 2 ^ 12 + 2 ^ 12 * (Size h mod 2 ^ 4)) ++ le_bytes 2 (MaxStack h) ++
  le_bytes 4 (CodeSize h) ++ le_bytes 4 (LocalVarSigTok h).

Definition read_fat_header (body : list Z) (pos : Z) : outcome COR_ILMETHOD_FAT :=
  fs <~ read_le body pos 2 ;; ms <~ read_le body (pos + 2) 2 ;;
  cs <~ read_le body (pos + 4) 4 ;; tok <~ read_le body (pos + 8) 4 ;;
  Ok (mkFat (fs mod 2 ^ 12) (fs / 2 ^ 12) ms cs tok).

(** [COR_ILMETHOD_TINY::IsTiny] and [GetCodeSize]; its code follows the byte. *)
Definition Tiny_IsTiny (b : Z) : bool := Z.land b (Z.shiftr CorILMethod_FormatMask 1) =? CorILMethod_TinyFormat.
Definition Tiny_GetCodeSize (b : Z) : Z := Z.shiftr b 2.

(** [COR_ILMETHOD_FAT::IsFat], [HasSEH], [GetCode] and [GetSect] for a header at
    [pos] ([None] is a null pointer). *)
Definition Fat_IsFat (h : COR_ILMETHOD_FAT) : bool := Z.land (Flags h) CorILMethod_FormatMask =? CorILMethod_FatFormat.
Definition Fat_HasSEH (h : COR_ILMETHOD_FAT) : bool := negb (Z.land (Flags h) CorILMethod_MoreSects =? 0).
Definition Fat_GetCode (pos : Z) (h : COR_ILMETHOD_FAT) : Z := pos + 4 * Size h.
Definition Fat_GetSect (pos : Z) (h : COR_ILMETHOD_FAT) : option Z :=
  if negb (Fat_HasSEH h) then None else Some (Align (Fat_GetCode pos h + CodeSize h)).

(** [IlmethodSize] *)
Definition IlmethodSize (header : COR_ILMETHOD_FAT) (moreSections : bool) : Z :=
  if (MaxStack header <=? 8) && (Z.land (Flags header) (Z.lnot CorILMethod_FormatMask) =? 0) &&
     (LocalVarSigTok header =? 0) && (CodeSize header <? 64) && negb moreSections
  then sizeof_TINY else sizeof_FAT.

(** [IlmethodEmit] at position 0 of [outBuff]; it returns the size it was given. *)
Definition IlmethodEmit (size : Z) (header : COR_ILMETHOD_FAT) (moreSections : bool)
    (outBuff : list Z) : outcome (Z * list Z) :=
  if size =? 1 then
    buf <~ store outBuff 0 [u8 (Z.lor CorILMethod_TinyFormat (u32 (Z.shiftl (CodeSize header) 2)))] ;;
    Ok (size, buf)
  else
    let flags := Z.lor (Flags header) CorILMethod_FatFormat in
    let flags := if moreSections then Z.lor flags CorILMethod_MoreSects else flags in
    buf <~ store outBuff 0 (fat_header_bytes
      (mkFat flags (sizeof_FAT / 4) (MaxStack header) (CodeSize header) (LocalVarSigTok header))) ;;
    Ok (size, buf).

(** ** Sections *)

(** [IMAGE_COR_ILMETHOD_SECT_EH_CLAUSE_FAT]; [ClassToken] is also [FilterOffset]. *)
Record EH_CLAUSE_FAT := mkEH {
  eh_Flags : Z; TryOffset : Z; TryLength : Z; HandlerOffset : Z; HandlerLength : Z; ClassToken : Z
}.

Definition fat_clause_bytes (c : EH_CLAUSE_FAT) : list Z :=
  le_bytes 4 (eh_Flags c) ++ le_bytes 4 (TryOffset c) ++ le_bytes 4 (TryLength c) ++
  le_bytes 4 (HandlerOffset c) ++ le_bytes 4 (HandlerLength c) ++ le_bytes 4 (ClassToken c).

(** [IMAGE_COR_ILMETHOD_SECT_EH_CLAUSE_SMALL]: 16, 16, 8, 16 and 8 bits, then the
    token; the values are truncated to their fields. *)
Definition small_clause_bytes (c : EH_CLAUSE_FAT) : list Z :=
  le_bytes 2 (eh_Flags c) ++ le_bytes 2 (TryOffset c) ++ le_bytes 1 (TryLength c) ++
  le_bytes 2 (HandlerOffset c) ++ le_bytes 1 (HandlerLength c) ++ le_bytes 4 (ClassToken c).

Definition read_fat_clause (body : list Z) (pos : Z) : outcome EH_CLAUSE_FAT :=
  f <~ read_le body pos 4 ;; tryo <~ read_le body (pos + 4) 4 ;; tryl <~ read_le body (pos + 8) 4 ;;
  ho <~ read_le body (pos + 12) 4 ;; hl <~ read_le body (pos + 16) 4 ;;
  tok <~ read_le body (pos + 20) 4 ;; Ok (mkEH f tryo tryl ho hl tok).

Definition read_small_clause (body : list Z) (pos : Z) : outcome EH_CLAUSE_FAT :=
  f <~ read_le body pos 2 ;; tryo <~ read_le body (pos + 2) 2 ;; tryl <~ read_le body (pos + 4) 1 ;;
  ho <~ read_le body (pos + 5) 2 ;; hl <~ read_le body (pos + 7) 1 ;;
  tok <~ read_le body (pos + 8) 4 ;; Ok (mkEH f tryo tryl ho hl tok).

(** [COR_ILMETHOD_SECT]: [IsFat], [More], [Kind], [DataSize], [Data] and [Next] of
    the section at [pos]. *)
Definition Sect_kindByte (body : list Z) (pos : Z) : outcome Z := read_byte body pos.
Definition Sect_IsFat (body : list Z) (pos : Z) : outcome bool :=
  k <~ Sect_kindByte body pos ;; Ok (negb (Z.land k CorILMethod_Sect_FatFormat =? 0)).
Definition Sect_More (body : list Z) (pos : Z) : outcome bool :=
  k <~ Sect_kindByte body pos ;; Ok (negb (Z.land k CorILMethod_Sect_MoreSects =? 0)).
Definition Sect_Kind (body : list Z) (pos : Z) : outcome Z :=
  k <~ Sect_kindByte body pos ;; Ok (Z.land k CorILMethod_Sect_KindMask).
Definition Sect_DataSize (body : list Z) (pos : Z) : outcome Z :=
  fat <~ Sect_IsFat body pos ;;
  if (fat : bool) then read_le body (pos + 1) 3 else read_byte body (pos + 1).
Definition Sect_Data (body : list Z) (pos : Z) : outcome Z :=
  fat <~ Sect_IsFat body pos ;; Ok (pos + if (fat : bool) then 4 else 2).
Definition Sect_Next (body : list Z) (pos : Z) : outcome (option Z) :=
  more <~ Sect_More body pos ;;
  if negb more then Ok None
  else d <~ Sect_Data body pos ;; s <~ Sect_DataSize body pos ;; Ok (Some (Align (d + s))).

(** [COR_ILMETHOD_SECT_EH::EHCount] and [SectEH_EHClause]: clause [idx] in its fat
    form. *)
Definition EHCount (body : list Z) (pos : Z) : outcome Z :=
  fat <~ Sect_IsFat body pos ;; s <~ Sect_DataSize body pos ;;
  Ok (s / if (fat : bool) then sizeof_CLAUSE_FAT else sizeof_CLAUSE_SMALL).

Definition SectEH_EHClause (body : list Z) (pos idx : Z) : outcome EH_CLAUSE_FAT :=
  fat <~ Sect_IsFat body pos ;;
  if (fat : bool) then read_fat_clause body (pos + 4 + sizeof_CLAUSE_FAT * idx)
  else read_small_clause body (pos + 4 + sizeof_CLAUSE_SMALL * idx).

(** [COR_ILMETHOD_SECT_EH_SMALL::Size] and [COR_ILMETHOD_SECT_EH_FAT::Size] *)
Definition EH_SMALL_Size (ehCount : Z) : Z := u32 (4 + sizeof_CLAUSE_SMALL + sizeof_CLAUSE_SMALL * u32 (ehCount - 1)).
Definition EH_FAT_Size (ehCount : Z) : Z := u32 (4 + sizeof_CLAUSE_FAT + sizeof_CLAUSE_FAT * u32 (ehCount - 1)).

(** [SectEH_SizeWorst] and [SectEH_SizeExact] *)
Definition SectEH_SizeWorst (ehCount : Z) : Z := if ehCount =? 0 then 0 else EH_FAT_Size ehCount.

Definition needs_fat (c : EH_CLAUSE_FAT) : bool :=
  (0xFFFF <? TryOffset c) || (0xFF <? TryLength c) || (0xFFFF <? HandlerOffset c) || (0xFF <? HandlerLength c).

Definition SectEH_SizeExact (clauses : list EH_CLAUSE_FAT) : Z :=
  let ehCount := Z.of_nat (length clauses) in
  if ehCount =? 0 then 0
  else if COR_ILMETHOD_SECT_SMALL_MAX_DATASIZE <? EH_SMALL_Size ehCount then EH_FAT_Size ehCount
  else if existsb needs_fat clauses then EH_FAT_Size ehCount
  else EH_SMALL_Size ehCount.

(** The first loop of [SectEH_Emit]: the flag says that no clause needed the fat
    form; the clauses before one that does have been stored by then. *)
Fixpoint emit_small_loop (clauses : list EH_CLAUSE_FAT) (i : Z) (buf : list Z) : outcome (bool * list Z) :=
  match clauses with
  | [] => Ok (true, buf)
  | c :: cs =>
      if needs_fat c then Ok (false, buf)
      else buf <~ store buf (4 + sizeof_CLAUSE_SMALL * i) (small_clause_bytes c) ;;
           emit_small_loop cs (i + 1) buf
  end.

(** The fat form at the end of [SectEH_Emit]. *)
Definition emit_fat (clauses : list EH_CLAUSE_FAT) (moreSections : bool) (buf : list Z) : outcome (list Z) :=
  let ehCount := Z.of_nat (length clauses) in
  let kind := Z.lor CorILMethod_Sect_EHTable CorILMethod_Sect_FatFormat in
  let kind := if moreSections then Z.lor kind CorILMethod_Sect_MoreSects else kind in
  buf <~ store buf 0 (le_bytes 1 kind ++ le_bytes 3 (EH_FAT_Size ehCount)) ;;
  store buf 4 (concat (map fat_clause_bytes clauses)).

(** What [SectEH_Emit] stores to the array [ehTypeOffsets]: the position of the
    type token of each clause whose stored flags are [COR_ILEXCEPTION_CLAUSE_NONE],
    [(ULONG) -1] for the others. *)
Definition type_offsets (flagBits clauseSize tokenAt : Z) (clauses : list EH_CLAUSE_FAT) : list Z :=
  imap (fun j c => if eh_Flags c mod 2 ^ flagBits =? 0
                   then u32 (4 + clauseSize * Z.of_nat j + tokenAt) else u32 (-1)) clauses.

(** [SectEH_Emit]: the returned size, the buffer, and the entries of
    [ehTypeOffsets] when that pointer is not null. *)
Definition SectEH_Emit (size : Z) (clauses : list EH_CLAUSE_FAT) (moreSections : bool)
    (outBuff : list Z) : outcome (Z * list Z * list Z) :=
  let ehCount := Z.of_nat (length clauses) in
  let fat buf :=
    buf <~ emit_fat clauses moreSections buf ;;
    Ok (size, buf, type_offsets 32 sizeof_CLAUSE_FAT 20 clauses) in
  if (size =? 0) || (ehCount =? 0) then Ok (0, outBuff, [])
  else if EH_SMALL_Size ehCount <? COR_ILMETHOD_SECT_SMALL_MAX_DATASIZE then
    r <~ emit_small_loop clauses 0 outBuff ;;
    if fst r then
      let kind := if moreSections then Z.lor CorILMethod_Sect_EHTable CorILMethod_Sect_MoreSects
                  else CorILMethod_Sect_EHTable in
      buf <~ store (snd r) 0 (le_bytes 1 kind ++ le_bytes 1 (EH_SMALL_Size ehCount) ++ le_bytes 2 0) ;;
      Ok (size, buf, type_offsets 16 sizeof_CLAUSE_SMALL 8 clauses)
    else fat (snd r)
  else fat outBuff.

(** [DecoderInit] (the constructor of [COR_ILMETHOD_DECODER]) on the fat header at
    [pos]: the positions [Code], [EH] and [Sect]. *)
Definition DecoderInit (body : list Z) (pos : Z) : outcome (Z * option Z * option Z) :=
  h <~ read_fat_header body pos ;;
  let code := Fat_GetCode pos h in
  match Fat_GetSect pos h with
  | None => Ok (code, None, None)
  | Some sect =>
      k <~ Sect_Kind body sect ;;
      if k =? CorILMethod_Sect_EHTable then
        n <~ Sect_Next body sect ;; Ok (code, Some sect, n)
      else Ok (code, None, Some sect)
  end.

(** ** Reading back what was written *)

Lemma read_le_within body pos q a n bs x :
  q = pos + Z.of_nat a -> read_at body pos (length bs) = Some bs -> (a + n <= length bs)%nat ->
  take n (drop a bs) = le_bytes n x -> read_le body q n = Ok (x mod 256 ^ Z.of_nat n).
Proof.
  intros -> Hr Hl Hx. unfold read_le.
  replace (length bs) with (a + (length bs - a))%nat in Hr by lia. apply read_at_drop in Hr.
  replace (length bs - a)%nat with (n + (length bs - a - n))%nat in Hr by lia. apply read_at_take in Hr.
  rewrite Hr. cbn. by rewrite Hx, le_val_le_bytes.
Qed.

(** One field of a structure found at [pos]: [a] is its position in it. *)
Ltac field Hr a n x :=
  match type of Hr with read_at ?body ?pos (length ?bs) = _ =>
    match goal with |- context [read_le body ?q n] =>
      rewrite (read_le_within body pos q a n bs x) by (exact Hr || lia || reflexivity || (cbn; lia))
    end
  end; cbn [obind].

Definition eh_ok (c : EH_CLAUSE_FAT) : Prop :=
  is_u32 (eh_Flags c) /\ is_u32 (TryOffset c) /\ is_u32 (TryLength c) /\
  is_u32 (HandlerOffset c) /\ is_u32 (HandlerLength c) /\ is_u32 (ClassToken c).

#[export] Instance eh_ok_dec c : Decision (eh_ok c).
Proof. unfold eh_ok. apply _. Defined.

Lemma read_fat_clause_bytes body pos c :
  read_at body pos 24 = Some (fat_clause_bytes c) -> eh_ok c -> read_fat_clause body pos = Ok c.
Proof.
  intros Hr (H1 & H2 & H3 & H4 & H5 & H6). unfold read_fat_clause.
  change 24%nat with (length (fat_clause_bytes c)) in Hr.
  field Hr 0%nat 4%nat (eh_Flags c). field Hr 4%nat 4%nat (TryOffset c).
  field Hr 8%nat 4%nat (TryLength c). field Hr 12%nat 4%nat (HandlerOffset c).
  field Hr 16%nat 4%nat (HandlerLength c). field Hr 20%nat 4%nat (ClassToken c).
  change (256 ^ Z.of_nat 4) with (2 ^ 32). rewrite !Z.mod_small by assumption. by destruct c.
Qed.

(** A clause that fits the small form. *)
Definition eh_small (c : EH_CLAUSE_FAT) : Prop :=
  eh_Flags c < 2 ^ 16 /\ needs_fat c = false.

Lemma needs_fat_false c :
  needs_fat c = false -> TryOffset c <= 0xFFFF /\ TryLength c <= 0xFF /\
  HandlerOffset c <= 0xFFFF /\ HandlerLength c <= 0xFF.
Proof. unfold needs_fat. rewrite !orb_false_iff, !Z.ltb_ge. tauto. Qed.

Lemma read_small_clause_bytes body pos c :
  read_at body pos 12 = Some (small_clause_bytes c) -> eh_ok c -> eh_small c ->
  read_small_clause body pos = Ok c.
Proof.
  intros Hr (H1 & H2 & H3 & H4 & H5 & H6) [Hf (L2 & L3 & L4 & L5)%needs_fat_false]. unfold read_small_clause.
  change 12%nat with (length (small_clause_bytes c)) in Hr.
  field Hr 0%nat 2%nat (eh_Flags c). field Hr 2%nat 2%nat (TryOffset c).
  field Hr 4%nat 1%nat (TryLength c). field Hr 5%nat 2%nat (HandlerOffset c).
  field Hr 7%nat 1%nat (HandlerLength c). field Hr 8%nat 4%nat (ClassToken c).
  change (256 ^ Z.of_nat 4) with (2 ^ 32). change (256 ^ Z.of_nat 2) with (2 ^ 16).
  change (256 ^ Z.of_nat 1) with (2 ^ 8). unfold is_u32 in *.
  rewrite !Z.mod_small by lia. by destruct c.
Qed.

(** The clauses of a section, at a fixed distance. *)
Lemma read_at_concat {A} (enc : A -> list Z) (k : nat) xs : forall pre post idx x,
  (forall x, length (enc x) = k) -> xs !! idx = Some x ->
  read_at (pre ++ concat (map enc xs) ++ post) (Z.of_nat (length pre) + Z.of_nat (k * idx)) k = Some (enc x).
Proof.
  induction xs as [|y xs IH]; intros pre post idx x Hk Hx; [done|]. cbn [map concat].
  destruct idx as [|idx].
  - injection Hx as ->. rewrite Nat.mul_0_r, Z.add_0_r, read_at_app_r, Z.sub_diag by lia.
    rewrite <- (Hk x), <- app_assoc. apply read_at_here.
  - rewrite <- app_assoc, (app_assoc pre).
    replace (Z.of_nat (length pre) + Z.of_nat (k * S idx))
      with (Z.of_nat (length (pre ++ enc y)) + Z.of_nat (k * idx)) by (rewrite length_app, (Hk y); lia).
    by apply IH.
Qed.

Lemma length_small_clause c : length (small_clause_bytes c) = 12%nat.
Proof. reflexivity. Qed.
Lemma length_fat_clause c : length (fat_clause_bytes c) = 24%nat.
Proof. reflexivity. Qed.

Lemma length_concat_const {A} (enc : A -> list Z) k xs :
  (forall x, length (enc x) = k) -> length (concat (map enc xs)) = (k * length xs)%nat.
Proof. intros Hk. induction xs as [|x xs IH]; cbn; [lia|]. rewrite length_app, Hk, IH. lia. Qed.

(** *** Sizes *)

Lemma EH_SMALL_Size_eq n : 0 < n -> n < 2 ^ 24 -> EH_SMALL_Size n = 4 + 12 * n.
Proof. intros. unfold EH_SMALL_Size, sizeof_CLAUSE_SMALL. rewrite !u32_small by (rewrite ?u32_small; unfold is_u32; lia). lia. Qed.
Lemma EH_FAT_Size_eq n : 0 < n -> n < 2 ^ 24 -> EH_FAT_Size n = 4 + 24 * n.
Proof. intros. unfold EH_FAT_Size, sizeof_CLAUSE_FAT. rewrite !u32_small by (rewrite ?u32_small; unfold is_u32; lia). lia. Qed.

(** The form [SectEH_Emit] chooses. *)
Definition small_form (clauses : list EH_CLAUSE_FAT) : bool :=
  (4 + 12 * Z.of_nat (length clauses) <? 0xFF) && negb (existsb needs_fat clauses).

Lemma SizeExact_form clauses :
  clauses <> [] -> Z.of_nat (length clauses) < 2 ^ 24 ->
  SectEH_SizeExact clauses =
    if small_form clauses then 4 + 12 * Z.of_nat (length clauses) else 4 + 24 * Z.of_nat (length clauses).
Proof.
  intros Hne Hn. assert (0 < Z.of_nat (length clauses)) by (destruct clauses; cbn; [done|lia]).
  unfold SectEH_SizeExact, small_form, COR_ILMETHOD_SECT_SMALL_MAX_DATASIZE.
  rewrite EH_SMALL_Size_eq, EH_FAT_Size_eq by lia.
  destruct (Z.eqb_spec (Z.of_nat (length clauses)) 0); [lia|].
  destruct (Z.ltb_spec 0xFF (4 + 12 * Z.of_nat (length clauses))),
    (Z.ltb_spec (4 + 12 * Z.of_nat (length clauses)) 0xFF); cbn [andb]; try lia.
  by destruct (existsb needs_fat clauses).
Qed.

(** *** The bytes of an emitted section *)

Definition sect_kind (fat more : bool) : Z :=
  Z.lor (if fat then Z.lor CorILMethod_Sect_EHTable CorILMethod_Sect_FatFormat else CorILMethod_Sect_EHTable)
    (if more then CorILMethod_Sect_MoreSects else 0).

Definition section_bytes (more : bool) (clauses : list EH_CLAUSE_FAT) : list Z :=
  let n := Z.of_nat (length clauses) in
  if small_form clauses
  then (le_bytes 1 (sect_kind false more) ++ le_bytes 1 (4 + 12 * n) ++ le_bytes 2 0) ++
       concat (map small_clause_bytes clauses)
  else (le_bytes 1 (sect_kind true more) ++ le_bytes 3 (4 + 24 * n)) ++ concat (map fat_clause_bytes clauses).

Lemma store_app pre old post pos bs :
  pos = Z.of_nat (length pre) -> length old = length bs ->
  store (pre ++ old ++ post) pos bs = Ok (pre ++ bs ++ post).
Proof. intros. unfold store. by rewrite write_at_app. Qed.

Lemma store_head old post bs :
  length old = length bs -> store (old ++ post) 0 bs = Ok (bs ++ post).
Proof. intros. by apply (store_app [] old post 0 bs). Qed.

Lemma store_tail pre old pos bs :
  pos = Z.of_nat (length pre) -> length old = length bs -> store (pre ++ old) pos bs = Ok (pre ++ bs).
Proof.
  intros Hp Hl. pose proof (store_app pre old [] pos bs Hp Hl) as E. by rewrite !app_nil_r in E.
Qed.

Lemma store_length buf pos bs buf' : store buf pos bs = Ok buf' -> length buf' = length buf.
Proof.
  unfold store. destruct (write_at buf pos bs) eqn:E; [|done]. intros [= <-]. by eapply write_at_length.
Qed.

Lemma small_loop_run clauses : forall (done : list EH_CLAUSE_FAT) h rest,
  length h = 4%nat -> existsb needs_fat clauses = false -> (12 * length clauses <= length rest)%nat ->
  emit_small_loop clauses (Z.of_nat (length done)) (h ++ concat (map small_clause_bytes done) ++ rest) =
  Ok (true, h ++ concat (map small_clause_bytes (done ++ clauses)) ++ drop (12 * length clauses) rest).
Proof.
  induction clauses as [|c cs IH]; intros done h rest Hh Hf Hr; [by rewrite app_nil_r|].
  cbn [emit_small_loop existsb] in *. apply orb_false_iff in Hf as [Hc Hf]. rewrite Hc. cbn [length] in Hr.
  assert (rest = take 12 rest ++ drop 12 rest) as E by (by rewrite take_drop). rewrite E at 1.
  rewrite (app_assoc h), store_app; cbn [obind].
  - rewrite <- app_assoc. specialize (IH (done ++ [c]) h (drop 12 rest) Hh Hf).
    rewrite length_drop, map_app, concat_app, length_app in IH. cbn [map concat length] in IH.
    rewrite app_nil_r, <- !app_assoc in IH. cbn [app] in IH.
    replace (Z.of_nat (length done) + 1) with (Z.of_nat (length done + 1)) by lia.
    rewrite IH by lia. rewrite drop_drop. cbn [length]. by replace (12 * S (length cs))%nat with (12 + 12 * length cs)%nat by lia.
  - rewrite length_app, Hh, (length_concat_const _ 12) by done. unfold sizeof_CLAUSE_SMALL. lia.
  - rewrite length_take, length_small_clause. lia.
Qed.

(** The loop that meets a clause for the fat form leaves a buffer of the same size. *)
Lemma small_loop_stops clauses : forall i buf,
  existsb needs_fat clauses = true -> 0 <= i ->
  4 + 12 * (i + Z.of_nat (length clauses)) <= Z.of_nat (length buf) ->
  exists buf', emit_small_loop clauses i buf = Ok (false, buf') /\ length buf' = length buf.
Proof.
  induction clauses as [|c cs IH]; intros i buf Hf Hi Hb; [done|].
  cbn [emit_small_loop existsb] in *. destruct (needs_fat c); [by exists buf|].
  unfold store. destruct (write_at buf (4 + sizeof_CLAUSE_SMALL * i) (small_clause_bytes c)) as [buf1|] eqn:E.
  - cbn [of_option obind]. apply write_at_length in E as El. cbn [length] in Hb.
    destruct (IH (i + 1) buf1 Hf) as (buf' & H & Hl); [lia|rewrite El; lia|]. exists buf'. by rewrite H, <- El.
  - exfalso. unfold write_at in E. case_decide as Hd; [done|]. apply Hd.
    rewrite length_small_clause. unfold sizeof_CLAUSE_SMALL. cbn [length] in Hb. lia.
Qed.

Lemma emit_fat_run clauses more buf :
  clauses <> [] -> 4 + 24 * Z.of_nat (length clauses) < 2 ^ 24 ->
  length buf = (4 + 24 * length clauses)%nat ->
  emit_fat clauses more buf =
    Ok ((le_bytes 1 (sect_kind true more) ++ le_bytes 3 (4 + 24 * Z.of_nat (length clauses))) ++
        concat (map fat_clause_bytes clauses)).
Proof.
  intros Hne Hn Hl. assert (0 < Z.of_nat (length clauses)) by (destruct clauses; cbn; [done|lia]).
  unfold emit_fat. rewrite EH_FAT_Size_eq by lia.
  replace (if more then _ else _) with (sect_kind true more) by (by destruct more).
  rewrite <- (take_drop 4 buf).
  rewrite store_head by (rewrite length_take, !length_app, !length_le_bytes; lia). cbn [obind].
  rewrite store_tail; [done|done|].
  rewrite length_drop, (length_concat_const _ 24) by done. lia.
Qed.

(** [SectEH_Emit] on a buffer of the exact size. *)
Lemma SectEH_Emit_run clauses more outBuff :
  clauses <> [] -> 4 + 24 * Z.of_nat (length clauses) < 2 ^ 24 ->
  Z.of_nat (length outBuff) = SectEH_SizeExact clauses ->
  exists offs, SectEH_Emit (SectEH_SizeExact clauses) clauses more outBuff =
    Ok (SectEH_SizeExact clauses, section_bytes more clauses, offs).
Proof.
  intros Hne Hn Hl. pose proof (SizeExact_form clauses Hne ltac:(lia)) as Hsz. rewrite Hsz in *.
  assert (0 < Z.of_nat (length clauses)) by (destruct clauses; cbn; [done|lia]).
  unfold SectEH_Emit, section_bytes, COR_ILMETHOD_SECT_SMALL_MAX_DATASIZE. rewrite EH_SMALL_Size_eq by lia.
  destruct (Z.eqb_spec (Z.of_nat (length clauses)) 0); [lia|]. rewrite orb_false_r.
  unfold small_form in *. destruct (Z.ltb_spec (4 + 12 * Z.of_nat (length clauses)) 0xFF).
  - destruct (existsb needs_fat clauses) eqn:Hf; cbn [andb negb] in *.
    + destruct (Z.eqb_spec (4 + 24 * Z.of_nat (length clauses)) 0); [lia|].
      destruct (small_loop_stops clauses 0 outBuff Hf) as (buf' & -> & Hb); [lia|lia|]. cbn [obind fst snd].
      rewrite emit_fat_run by (done || lia). cbn [obind]. by eexists.
    + destruct (Z.eqb_spec (4 + 12 * Z.of_nat (length clauses)) 0); [lia|].
      rewrite <- (take_drop 4 outBuff).
      pose proof (small_loop_run clauses [] (take 4 outBuff) (drop 4 outBuff)) as Hrun.
      rewrite length_take, length_drop in Hrun. cbn [length map concat app] in Hrun.
      change (Z.of_nat 0) with 0 in Hrun. rewrite Hrun by (done || lia). cbn [obind fst snd].
      rewrite (drop_ge (drop 4 outBuff)) by (rewrite length_drop; lia). rewrite app_nil_r.
      rewrite store_head by (rewrite length_take, !length_app, !length_le_bytes; lia). cbn [obind].
      destruct more; by eexists.
  - cbn [andb] in *. destruct (Z.eqb_spec (4 + 24 * Z.of_nat (length clauses)) 0); [lia|].
    rewrite emit_fat_run by (done || lia). cbn [obind]. by eexists.
Qed.

(** *** Decoding an emitted section *)

Section Decode.
Context (pre post : list Z) (more : bool) (clauses : list EH_CLAUSE_FAT).
Hypothesis Hne : clauses <> [].
Hypothesis Hn : 4 + 24 * Z.of_nat (length clauses) < 2 ^ 24.

#[local] Notation body := (pre ++ section_bytes more clauses ++ post).
#[local] Notation at_ := (Z.of_nat (length pre)).

Lemma section_kind : Sect_kindByte body at_ = Ok (sect_kind (negb (small_form clauses)) more).
Proof using.
  unfold Sect_kindByte, section_bytes. destruct (small_form clauses), more; cbn [negb];
    rewrite <- !app_assoc; apply (read_byte_mid pre _ []).
Qed.

Lemma section_flags :
  Sect_IsFat body at_ = Ok (negb (small_form clauses)) /\ Sect_More body at_ = Ok more /\
  Sect_Kind body at_ = Ok CorILMethod_Sect_EHTable.
Proof using.
  unfold Sect_IsFat, Sect_More, Sect_Kind. rewrite section_kind. by destruct (small_form clauses), more.
Qed.

Lemma section_data_size :
  Sect_DataSize body at_ = Ok (SectEH_SizeExact clauses).
Proof using Hne Hn.
  unfold Sect_DataSize. rewrite (proj1 section_flags), SizeExact_form by (done || lia). cbn [obind].
  unfold section_bytes, small_form. destruct (Z.ltb_spec (4 + 12 * Z.of_nat (length clauses)) 0xFF);
    [destruct (existsb needs_fat clauses)|]; cbn [andb negb].
  2: { unfold read_byte. replace (at_ + 1) with (Z.of_nat (length (pre ++ le_bytes 1 (sect_kind false more))))
      by (rewrite length_app; cbn; lia).
    rewrite <- !app_assoc, (app_assoc pre), read_at_app_r, Z.sub_diag by lia.
    change 1%nat with (length (le_bytes 1 (4 + 12 * Z.of_nat (length clauses)))).
    rewrite read_at_here. unfold obind, of_option. rewrite le_val_le_bytes.
    by rewrite Z.mod_small by (change (256 ^ Z.of_nat 1) with 256; lia). }
  all: unfold read_le; replace (at_ + 1) with (Z.of_nat (length (pre ++ le_bytes 1 (sect_kind true more))))
      by (rewrite length_app; cbn; lia);
    rewrite <- !app_assoc, (app_assoc pre), read_at_app_r, Z.sub_diag by lia;
    change 3%nat with (length (le_bytes 3 (4 + 24 * Z.of_nat (length clauses)))) at 2;
    rewrite read_at_here; unfold obind, of_option; rewrite le_val_le_bytes;
    by rewrite Z.mod_small by (change (256 ^ Z.of_nat 3) with (2 ^ 24); lia).
Qed.

Lemma section_clause idx c :
  Forall eh_ok clauses -> Forall (fun c => eh_Flags c < 2 ^ 16) clauses -> clauses !! idx = Some c ->
  SectEH_EHClause body at_ (Z.of_nat idx) = Ok c.
Proof using.
  intros Hok Hfl Hc. unfold SectEH_EHClause. rewrite (proj1 section_flags). cbn [obind].
  pose proof (Forall_lookup_1 _ _ _ _ Hok Hc) as Hcok. pose proof (Forall_lookup_1 _ _ _ _ Hfl Hc) as Hcfl.
  unfold section_bytes. destruct (small_form clauses) eqn:Hs; cbn [negb].
  - unfold small_form in Hs. apply andb_true_iff in Hs as [_ Hs%negb_true_iff].
    apply read_small_clause_bytes; [|done|].
    + rewrite <- app_assoc, (app_assoc pre).
      replace (at_ + 4 + sizeof_CLAUSE_SMALL * Z.of_nat idx)
        with (Z.of_nat (length (pre ++ le_bytes 1 (sect_kind false more) ++
          le_bytes 1 (4 + 12 * Z.of_nat (length clauses)) ++ le_bytes 2 0)) + Z.of_nat (12 * idx))
        by (rewrite !length_app, !length_le_bytes; unfold sizeof_CLAUSE_SMALL; lia).
      by apply read_at_concat.
    + split; [done|]. destruct (needs_fat c) eqn:E; [|done]. rewrite <- Hs. symmetry.
      apply existsb_exists. exists c. split; [|done]. apply list_elem_of_In. by eapply list_elem_of_lookup_2.
  - apply read_fat_clause_bytes; [|done]. rewrite <- app_assoc, (app_assoc pre).
    replace (at_ + 4 + sizeof_CLAUSE_FAT * Z.of_nat idx)
      with (Z.of_nat (length (pre ++ le_bytes 1 (sect_kind true more) ++
        le_bytes 3 (4 + 24 * Z.of_nat (length clauses)))) + Z.of_nat (24 * idx))
      by (rewrite !length_app, !length_le_bytes; unfold sizeof_CLAUSE_FAT; lia).
    by apply read_at_concat.
Qed.

End Decode.

(** An exception section written by [SectEH_Emit] into a buffer of the size
    that [SectEH_SizeExact] computes fills the buffer exactly, and reading it back
    with [EHCount] and [SectEH_EHClause], wherever it is in a method body, gives the
    clauses that were written, in the small form as in the fat one. *)
Theorem SectEH_Emit_roundtrip clauses more outBuff pre post :
  clauses <> [] -> 4 + 24 * Z.of_nat (length clauses) < 2 ^ 24 ->
  Forall eh_ok clauses -> Forall (fun c => eh_Flags c < 2 ^ 16) clauses ->
  Z.of_nat (length outBuff) = SectEH_SizeExact clauses ->
  exists buf offs, SectEH_Emit (SectEH_SizeExact clauses) clauses more outBuff =
      Ok (SectEH_SizeExact clauses, buf, offs) /\ length buf = length outBuff /\
    EHCount (pre ++ buf ++ post) (Z.of_nat (length pre)) = Ok (Z.of_nat (length clauses)) /\
    forall idx c, clauses !! idx = Some c ->
      SectEH_EHClause (pre ++ buf ++ post) (Z.of_nat (length pre)) (Z.of_nat idx) = Ok c.
Proof.
  intros Hne Hn Hok Hfl Hl. destruct (SectEH_Emit_run clauses more outBuff Hne Hn Hl) as [offs He].
  exists (section_bytes more clauses), offs. pose proof (SizeExact_form clauses Hne ltac:(lia)) as Hsz.
  split_and!; [done| | |intros; by apply section_clause].
  - rewrite Hsz in Hl. unfold section_bytes. destruct (small_form clauses).
    + rewrite length_app, (length_concat_const _ 12) by done. cbn [length le_bytes app]. lia.
    + rewrite length_app, (length_concat_const _ 24) by done. cbn [length le_bytes app]. lia.
  - unfold EHCount. rewrite (proj1 (section_flags _ _ _ _)), section_data_size, Hsz by done. cbn [obind].
    unfold sizeof_CLAUSE_FAT, sizeof_CLAUSE_SMALL. f_equal.
    destruct (small_form clauses); cbn [negb]; symmetry; apply Z.div_unique with 4; lia.
Qed.

Definition demo_clauses : list EH_CLAUSE_FAT := [mkEH 0 0 10 10 5 0x01000005; mkEH 2 0 0x123 0x130 7 0].

Lemma SectEH_Emit_roundtrip_witness : exists buf offs,
  SectEH_Emit 52 demo_clauses false (replicate 52 0) = Ok (52, buf, offs) /\
  EHCount ([0; 0; 0; 0] ++ buf ++ []) 4 = Ok 2 /\
  SectEH_EHClause ([0; 0; 0; 0] ++ buf ++ []) 4 1 = Ok (mkEH 2 0 0x123 0x130 7 0).
Proof.
  destruct (SectEH_Emit_roundtrip demo_clauses false (replicate 52 0) [0; 0; 0; 0] [])
    as (buf & offs & H & _ & Hc & Hi).
  - discriminate.
  - reflexivity.
  - repeat constructor; done.
  - repeat constructor.
  - reflexivity.
  - exists buf, offs. split; [exact H|]. split; [exact Hc|]. exact (Hi 1%nat _ eq_refl).
Defined.

(** [COR_ILMETHOD_SECT::Next] adds the data size to the end of the section
    header, while [SectEH_Emit] stores a data size that includes the header: for an
    emitted section that announces another one, [Next] is the position four bytes
    after the end of the section. *)
Theorem Next_skips_a_word clauses pre post :
  clauses <> [] -> 4 + 24 * Z.of_nat (length clauses) < 2 ^ 24 -> Z.of_nat (length pre) mod 4 = 0 ->
  Sect_Next (pre ++ section_bytes true clauses ++ post) (Z.of_nat (length pre)) =
    Ok (Some (Z.of_nat (length pre + length (section_bytes true clauses)) + 4)).
Proof.
  intros Hne Hn Hp. unfold Sect_Next, Sect_Data.
  destruct (section_flags pre post true clauses) as (-> & -> & _).
  rewrite section_data_size, SizeExact_form by (done || lia). cbn [obind negb].
  do 2 f_equal. unfold Align, section_bytes.
  destruct (small_form clauses); cbn [negb];
    [rewrite length_app, (length_concat_const _ 12) by done|rewrite length_app, (length_concat_const _ 24) by done];
    cbn [length le_bytes app]; Z.to_euclidean_division_equations; lia.
Qed.

Lemma Next_skips_a_word_witness :
  Sect_Next ([] ++ section_bytes true demo_clauses ++ [0; 0; 0; 0]) 0 = Ok (Some 56).
Proof. apply (Next_skips_a_word demo_clauses [] [0; 0; 0; 0]); [discriminate|reflexivity|reflexivity]. Defined.

(** *** Method headers *)

Definition header_ok (h : COR_ILMETHOD_FAT) : Prop :=
  0 <= Flags h < 2 ^ 12 /\ 0 <= MaxStack h < 2 ^ 16 /\ is_u32 (CodeSize h) /\ is_u32 (LocalVarSigTok h).

#[export] Instance header_ok_dec h : Decision (header_ok h).
Proof. unfold header_ok. apply _. Defined.

(** What the format bits of an emitted fat header say. *)
Definition fat_flags (more : bool) (f : Z) : Z :=
  let f := Z.lor f CorILMethod_FatFormat in if more then Z.lor f CorILMethod_MoreSects else f.

Definition fat_flags_ok (more : bool) (f : Z) : bool :=
  negb (Z.land f 4 =? 0) ||
  ((fat_flags more f <? 2 ^ 12) && (0 <=? fat_flags more f) &&
   (Z.land (fat_flags more f) CorILMethod_FormatMask =? CorILMethod_FatFormat) &&
   Bool.eqb (negb (Z.land (fat_flags more f) CorILMethod_MoreSects =? 0))
     (more || negb (Z.land f CorILMethod_MoreSects =? 0)) &&
   negb (Tiny_IsTiny (fat_flags more f mod 2 ^ 8))).

Lemma fat_flags_facts more f :
  0 <= f < 2 ^ 12 -> Z.land f 4 = 0 ->
  0 <= fat_flags more f < 2 ^ 12 /\
  Z.land (fat_flags more f) CorILMethod_FormatMask = CorILMethod_FatFormat /\
  negb (Z.land (fat_flags more f) CorILMethod_MoreSects =? 0) =
    more || negb (Z.land f CorILMethod_MoreSects =? 0) /\
  Tiny_IsTiny (fat_flags more f mod 2 ^ 8) = false.
Proof.
  intros Hf H4. assert (fat_flags_ok more f = true) as H.
  { apply (range_forall (2 ^ 12) (fat_flags_ok more)); [|done]. destruct more; vm_compute; reflexivity. }
  unfold fat_flags_ok in H. rewrite H4 in H. cbn [Z.eqb negb orb] in H.
  rewrite !andb_true_iff, Z.ltb_lt, Z.leb_le, Z.eqb_eq, Bool.eqb_true_iff, negb_true_iff in H. tauto.
Qed.

Definition tiny_ok (n : Z) : bool :=
  let b := u8 (Z.lor CorILMethod_TinyFormat (u32 (Z.shiftl n 2))) in
  Tiny_IsTiny b && (Tiny_GetCodeSize b =? n).

Lemma read_fat_header_bytes body pos h :
  read_at body pos 12 = Some (fat_header_bytes h) -> header_ok h -> 0 <= Size h < 16 ->
  read_fat_header body pos = Ok h.
Proof.
  intros Hr (H1 & H2 & H3 & H4) Hs. unfold read_fat_header.
  change 12%nat with (length (fat_header_bytes h)) in Hr.
  field Hr 0%nat 2%nat (Flags h mod 2 ^ 12 + 2 ^ 12 * (Size h mod 2 ^ 4)).
  field Hr 2%nat 2%nat (MaxStack h). field Hr 4%nat 4%nat (CodeSize h).
  field Hr 8%nat 4%nat (LocalVarSigTok h).
  change (256 ^ Z.of_nat 4) with (2 ^ 32). change (256 ^ Z.of_nat 2) with (2 ^ 16). unfold is_u32 in *.
  rewrite (Z.mod_small (Flags h)), (Z.mod_small (Size h)) by lia.
  rewrite !(Z.mod_small _ (2 ^ 16)), !(Z.mod_small _ (2 ^ 32)) by lia.
  destruct h as [f s ms cs tok]. cbn in *. f_equal. f_equal; Z.to_euclidean_division_equations; lia.
Qed.

(** A method header written by [IlmethodEmit] in the size of [IlmethodSize] is
    decoded again: the first byte tells the two formats apart, the code size is the
    one that was written, and the fat format keeps the maximal stack and the
    signature token and records whether sections follow; the tiny format is chosen
    only for headers that need nothing else. *)
Theorem IlmethodEmit_roundtrip h more outBuff post :
  header_ok h -> Z.land (Flags h) 4 = 0 -> Z.of_nat (length outBuff) = IlmethodSize h more ->
  exists buf, IlmethodEmit (IlmethodSize h more) h more outBuff = Ok (IlmethodSize h more, buf) /\
    length buf = length outBuff /\
    if IlmethodSize h more =? 1
    then exists b, read_byte (buf ++ post) 0 = Ok b /\ Tiny_IsTiny b = true /\
         Tiny_GetCodeSize b = CodeSize h /\ MaxStack h <= 8 /\ LocalVarSigTok h = 0 /\ more = false
    else exists b h', read_byte (buf ++ post) 0 = Ok b /\ Tiny_IsTiny b = false /\
         read_fat_header (buf ++ post) 0 = Ok h' /\ Fat_IsFat h' = true /\
         Fat_HasSEH h' = more || Fat_HasSEH h /\ Fat_GetCode 0 h' = sizeof_FAT /\
         MaxStack h' = MaxStack h /\ CodeSize h' = CodeSize h /\ LocalVarSigTok h' = LocalVarSigTok h.
Proof.
  intros Hok H4 Hl. unfold IlmethodEmit. unfold IlmethodSize in *.
  destruct (_ && negb more) eqn:Hc.
  - change (sizeof_TINY =? 1) with true. rewrite !andb_true_iff, Z.leb_le, !Z.eqb_eq, Z.ltb_lt, negb_true_iff in Hc.
    destruct Hc as ((((Hms & _) & Htok) & Hcs) & ->). destruct Hok as (_ & _ & Hcsr & _).
    unfold sizeof_TINY in *. destruct outBuff as [|x [|]]; cbn in Hl; try lia. eexists. split; [reflexivity|]. split; [done|].
    assert (tiny_ok (CodeSize h) = true) as Ht
      by (apply (range_forall 64); [vm_compute; reflexivity|unfold is_u32 in *; lia]).
    unfold tiny_ok in Ht. apply andb_true_iff in Ht as [H1 H2%Z.eqb_eq].
    eexists. split; [apply (read_byte_mid [])|]. done.
  - change (sizeof_FAT =? 1) with false. unfold sizeof_FAT in *. fold (fat_flags more (Flags h)).
    destruct Hok as (Hf & Hms & Hcs & Htok).
    destruct (fat_flags_facts more (Flags h) Hf H4) as (Hr & Hfat & Hseh & Ht).
    set (h' := mkFat (fat_flags more (Flags h)) (12 / 4) (MaxStack h) (CodeSize h) (LocalVarSigTok h)).
    assert (store outBuff 0 (fat_header_bytes h') = Ok (fat_header_bytes h')) as ->.
    { rewrite <- (app_nil_r outBuff), store_head by (change (length (fat_header_bytes h')) with 12%nat; lia). by rewrite app_nil_r. }
    eexists. split; [reflexivity|]. split; [change (length (fat_header_bytes h')) with 12%nat; lia|].
    eexists _, h'. split; [apply (read_byte_mid [])|]. split_and!; try done.
    + rewrite <- Ht. f_equal. cbn [Flags Size h']. Z.to_euclidean_division_equations. lia.
    + apply read_fat_header_bytes; [apply read_at_here|done|]. change (0 <= 3 < 16). lia.
    + unfold Fat_IsFat. cbn [Flags h']. by rewrite Hfat.
Qed.

Lemma IlmethodEmit_roundtrip_witness :
  IlmethodSize (mkFat 0x10 3 9 100 0x11000001) true = 12 /\
  exists buf b, IlmethodEmit 12 (mkFat 0x10 3 9 100 0x11000001) true (replicate 12 0) = Ok (12, buf) /\
    read_byte (buf ++ []) 0 = Ok b /\ Tiny_IsTiny b = false.
Proof.
  split; [reflexivity|].
  destruct (IlmethodEmit_roundtrip (mkFat 0x10 3 9 100 0x11000001) true (replicate 12 0) [])
    as (buf & H & _ & b & h' & Hb & Ht & _).
  - unfold header_ok, is_u32. cbn. lia.
  - reflexivity.
  - reflexivity.
  - exists buf, b. split; [exact H|]. split; [exact Hb|exact Ht].
Defined.
