(* ===== verification/Store.v ===== *)
(** The shared store: every object the engine's graphs reference through
    pointers lives in one [World], so that aliasing (a branch target, an
    exception clause boundary, a neighbour in the list) is the aliasing of the
    source.  The monad [W] threads the world; a failing call keeps the
    assignments it made. *)
From S2P Require Import Prelude ILOpcodes Instruction CorHeaders.

Record COR_IL_MAP := mkILMap { oldOffset : Z; newOffset : Z; fAccurate : bool }.

#[export] Instance COR_IL_MAP_eq_dec : EqDecision COR_IL_MAP.
Proof. solve_decision. Defined.

(** [CExceptionClause] *)
Record CExceptionClause := mkClause {
  m_clauseFlags : Z;
  m_pTryFirstInstruction : option ptr;
  m_pTryLastInstruction : option ptr;
  m_pHandlerFirstInstruction : option ptr;
  m_pHandlerLastInstruction : option ptr;
  m_pFilterFirstInstruction : option ptr;
  m_ExceptionHandlerType : Z
}.

(** The members of [CMethodInfo] that identify the method and hold what is rendered
    from it (the rendered methods may hold bytes that were copied from memory that was
    never written; a buffer of the user is known by its address; of [m_pFunctionControl]
    only whether it is null). *)
Record MethodRender := mkRender {
  m_functionId : Z;
  m_tkFunction : Z;
  m_bIsRejit : bool;
  m_pInstructionGraph : option ptr;
  m_newCorHeader : COR_ILMETHOD_FAT;
  m_bIsHeaderInitialized : bool;
  m_pILStream : list Z;
  m_pIntermediateRenderedMethod : list (option Z);
  m_pFinalRenderedMethod : list (option Z);
  m_userDefinedBuffer : option Z;
  m_bIsInstrumented : bool;
  m_pFunctionControl : bool;
  m_dwRejitCodeGenFlags : Z
}.

Definition new_render (functionId tkFunction : Z) (isRejit : bool) : MethodRender :=
  mkRender functionId tkFunction isRejit None (mkFat 0 0 0 0 0) false [] [] [] None false isRejit 0.

(** The members of [CMethodInfo] the graph and the exception section use:
    [m_pExceptionSection] (its [m_exceptionClauses], [None] while the section
    object does not exist), [m_bIsCreateBaselineEnabled] and [m_pCorILMap]. *)
Record CMethodInfo := mkMethod {
  m_exceptionClauses : option (list ptr);
  m_bIsCreateBaselineEnabled : bool;
  m_pCorILMap : list COR_IL_MAP;
  m_render : MethodRender
}.

Definition set_render (r : MethodRender) (mi : CMethodInfo) : CMethodInfo :=
  let '(mkMethod a b c _) := mi in mkMethod a b c r.
Definition set_corILMap (l : list COR_IL_MAP) (mi : CMethodInfo) : CMethodInfo :=
  let '(mkMethod a b _ d) := mi in mkMethod a b l d.

(** [CInstructionGraph] *)
Record CInstructionGraph := mkGraph {
  m_pMethodInfo : option ptr;
  m_pFirstInstruction : option ptr;
  m_pLastInstruction : option ptr;
  m_pUninstrumentedFirstInstruction : option ptr;
  m_pUninstrumentedLastInstruction : option ptr;
  m_pOrigFirstInstruction : option ptr;
  m_pOrigLastInstruction : option ptr;
  m_originalToBaselineIlMap : list COR_IL_MAP;
  m_baselineIlMap : list COR_IL_MAP;
  m_bHasBaselineBeenSet : bool;
  m_bAreInstructionsStale : bool
}.

Definition set_first (v : option ptr) (g : CInstructionGraph) : CInstructionGraph :=
  let '(mkGraph a _ c d e f h j k l m) := g in mkGraph a v c d e f h j k l m.
Definition set_last (v : option ptr) (g : CInstructionGraph) : CInstructionGraph :=
  let '(mkGraph a b _ d e f h j k l m) := g in mkGraph a b v d e f h j k l m.
Definition set_uninstrumented (x y : option ptr) (g : CInstructionGraph) : CInstructionGraph :=
  let '(mkGraph a b c _ _ f h j k l m) := g in mkGraph a b c x y f h j k l m.
Definition set_orig (x y : option ptr) (g : CInstructionGraph) : CInstructionGraph :=
  let '(mkGraph a b c d e _ _ j k l m) := g in mkGraph a b c d e x y j k l m.
Definition set_origFirst (x : option ptr) (g : CInstructionGraph) : CInstructionGraph :=
  let '(mkGraph a b c d e _ h j k l m) := g in mkGraph a b c d e x h j k l m.
Definition set_baselineMaps (x y : list COR_IL_MAP) (g : CInstructionGraph) : CInstructionGraph :=
  let '(mkGraph a b c d e f h _ _ l m) := g in mkGraph a b c d e f h x y l m.
Definition set_baselineSet (v : bool) (g : CInstructionGraph) : CInstructionGraph :=
  let '(mkGraph a b c d e f h j k _ m) := g in mkGraph a b c d e f h j k v m.
Definition set_stale (v : bool) (g : CInstructionGraph) : CInstructionGraph :=
  let '(mkGraph a b c d e f h j k l _) := g in mkGraph a b c d e f h j k l v.

(** [CInstructionGraph::CInstructionGraph()] followed by [Initialize]. *)
Definition new_graph (method : option ptr) : CInstructionGraph :=
  mkGraph method None None None None None None [] [] false true.

(** [w_ilMaps] is the [m_ilMaps] of the module, by method token and function id
    ([CMethodKey]). *)
Record World := mkWorld {
  w_instr : gmap ptr CInstruction;
  w_graph : gmap ptr CInstructionGraph;
  w_clause : gmap ptr CExceptionClause;
  w_method : gmap ptr CMethodInfo;
  w_ilMaps : gmap (Z * Z) (list COR_IL_MAP)
}.

Definition on_instr (f : gmap ptr CInstruction -> gmap ptr CInstruction) (w : World) : World :=
  mkWorld (f (w_instr w)) (w_graph w) (w_clause w) (w_method w) (w_ilMaps w).
Definition on_graph (f : gmap ptr CInstructionGraph -> gmap ptr CInstructionGraph) (w : World) : World :=
  mkWorld (w_instr w) (f (w_graph w)) (w_clause w) (w_method w) (w_ilMaps w).
Definition on_clause (f : gmap ptr CExceptionClause -> gmap ptr CExceptionClause) (w : World) : World :=
  mkWorld (w_instr w) (w_graph w) (f (w_clause w)) (w_method w) (w_ilMaps w).
Definition on_method (f : gmap ptr CMethodInfo -> gmap ptr CMethodInfo) (w : World) : World :=
  mkWorld (w_instr w) (w_graph w) (w_clause w) (f (w_method w)) (w_ilMaps w).
Definition on_ilMaps (f : gmap (Z * Z) (list COR_IL_MAP) -> gmap (Z * Z) (list COR_IL_MAP)) (w : World) : World :=
  mkWorld (w_instr w) (w_graph w) (w_clause w) (w_method w) (f (w_ilMaps w)).

Notation W := (M World).

(** Access to an object through a pointer that is not null.  A pointer outside
    the store would be a dangling one. *)
Definition load (p : ptr) : W CInstruction := fun w => (of_option NullDeref (w_instr w !! p), w).
Definition load_graph (g : ptr) : W CInstructionGraph := fun w => (of_option NullDeref (w_graph w !! g), w).
Definition load_clause (c : ptr) : W CExceptionClause := fun w => (of_option NullDeref (w_clause w !! c), w).
Definition load_method (m : ptr) : W CMethodInfo := fun w => (of_option NullDeref (w_method w !! m), w).

Definition update (p : ptr) (f : CInstruction -> CInstruction) : W unit :=
  modify (on_instr (alter f p)).
Definition update_graph (g : ptr) (f : CInstructionGraph -> CInstructionGraph) : W unit :=
  modify (on_graph (alter f g)).
Definition update_clause (c : ptr) (f : CExceptionClause -> CExceptionClause) : W unit :=
  modify (on_clause (alter f c)).
Definition update_method (m : ptr) (f : CMethodInfo -> CMethodInfo) : W unit :=
  modify (on_method (alter f m)).

(** [new] of an instruction, a clause or a graph. *)
Definition alloc (i : CInstruction) : W ptr := fun w =>
  let p := fresh (dom (w_instr w)) in (Ok p, on_instr (insert p i) w).
Definition alloc_clause (c : CExceptionClause) : W ptr := fun w =>
  let p := fresh (dom (w_clause w)) in (Ok p, on_clause (insert p c) w).
Definition alloc_graph (g : CInstructionGraph) : W ptr := fun w =>
  let p := fresh (dom (w_graph w)) in (Ok p, on_graph (insert p g) w).

(** ** Members of [CInstruction] that follow or set links *)

(** [CInstruction::SetNextInstruction(pInstruction, setOrig)] *)
Definition SetNextInstruction (p : ptr) (q : option ptr) (setOrig : bool) : W unit :=
  update p (fun i =>
    let i := set_next q i in
    if bool_decide (m_pOriginalNextInstruction i = None) && setOrig
    then set_origNext (m_pNextInstruction i) i else i).

(** [CInstruction::SetPreviousInstruction(pInstruction, setOrig)] *)
Definition SetPreviousInstruction (p : ptr) (q : option ptr) (setOrig : bool) : W unit :=
  update p (fun i =>
    let i := set_prev q i in
    if bool_decide (m_pOriginalPreviousInstruction i = None) && setOrig
    then set_origPrev (m_pPreviousInstruction i) i else i).

(** [CInstruction::GetNextInstruction] and its three siblings: [E_FAIL] on a null link. *)
Definition GetNextInstruction (p : ptr) : W ptr :=
  i <- load p ;; if_null_ret (m_pNextInstruction i) E_FAIL.
Definition GetPreviousInstruction (p : ptr) : W ptr :=
  i <- load p ;; if_null_ret (m_pPreviousInstruction i) E_FAIL.
Definition GetOriginalNextInstruction (p : ptr) : W ptr :=
  i <- load p ;; if_null_ret (m_pOriginalNextInstruction i) E_FAIL.
Definition GetOriginalPreviousInstruction (p : ptr) : W ptr :=
  i <- load p ;; if_null_ret (m_pOriginalPreviousInstruction i) E_FAIL.

(** [CInstruction::SetGraph]: an instruction is claimed once. *)
Definition SetGraph (p g : ptr) : W unit :=
  i <- load p ;;
  if_false_ret (bool_decide (m_pGraph i = None)) E_UNEXPECTED ;;;
  update p (set_graph (Some g)).

(** [CInstruction::SetIsRemoved] *)
Definition SetIsRemoved (p : ptr) : W unit :=
  update p (fun i => set_graph None (set_removed true i)).

(** [CInstruction::SetOriginalOffset], [SetOffset], [SetInstructionGeneration] *)
Definition SetOriginalOffset (p : ptr) (offset : Z) : W unit := update p (set_origOffset offset).
Definition SetOffset (p : ptr) (offset : Z) : W unit := update p (set_offset offset).
Definition SetInstructionGeneration (p : ptr) (gen : InstructionGeneration) : W unit :=
  update p (set_generation gen).

(** ** Offsets

    [CInstruction::GetOffset] refreshes the offsets of its graph first, the
    refresh recalculates them when the graph is stale, and the recalculation
    itself calls [GetOffset].  The three definitions take the next one as an
    argument; [CalculateInstructionOffsets] ties the knot with a depth, and the
    loop over the list has fuel.  [Graph.v] proves how much is enough. *)

(** [CInstruction::GetOffset] (with [EnsureGraphUpdated]) *)
Definition GetOffset_with (refresh : ptr -> W unit) (p : ptr) : W Z :=
  i <- load p ;;
  (match m_pGraph i with Some g => refresh g | None => ret tt end) ;;;
  i <- load p ;; ret (m_offset i).

(** [CInstructionGraph::RefreshInstructions] *)
Definition RefreshInstructions_with (calc : ptr -> W unit) (g : ptr) : W unit :=
  gr <- load_graph g ;;
  if m_bAreInstructionsStale gr
  then update_graph g (set_stale false) ;;; calc g
  else ret tt.

(** The loop of [CInstructionGraph::CalculateInstructionOffsets]. *)
Fixpoint calc_loop (get_offset : ptr -> W Z) (fuel : nat) (pCurrent pPrev : option ptr) : W unit :=
  match pCurrent with
  | None => ret tt
  | Some c =>
      match fuel with
      | O => out_of_fuel
      | S fuel' =>
          off <- (match pPrev with
                  | None => ret 0
                  | Some p =>
                      dwPrevOffset <- get_offset p ;;
                      pi <- load p ;;
                      dwPrevLength <- lift (GetInstructionSize pi) ;;
                      ret (u32 (dwPrevOffset + dwPrevLength))
                  end) ;;
          SetOffset c off ;;;
          ci <- load c ;;
          calc_loop get_offset fuel' (m_pNextInstruction ci) (Some c)
      end
  end.

Fixpoint calc_offsets (depth fuel : nat) (g : ptr) : W unit :=
  match depth with
  | O => out_of_fuel
  | S depth' =>
      gr <- load_graph g ;;
      calc_loop (GetOffset_with (RefreshInstructions_with (calc_offsets depth' fuel)))
        fuel (m_pFirstInstruction gr) None
  end.

(** [CInstructionGraph::CalculateInstructionOffsets], [RefreshInstructions] and
    [CInstruction::GetOffset]. *)
Definition CalculateInstructionOffsets (fuel : nat) (g : ptr) : W unit :=
  calc_offsets (S fuel) fuel g.
Definition RefreshInstructions (fuel : nat) (g : ptr) : W unit :=
  RefreshInstructions_with (CalculateInstructionOffsets fuel) g.
Definition GetOffset (fuel : nat) (p : ptr) : W Z := GetOffset_with (RefreshInstructions fuel) p.

(** [CInstruction::GetOriginalOffset], which also refreshes. *)
Definition GetOriginalOffset (fuel : nat) (p : ptr) : W Z :=
  i <- load p ;;
  (match m_pGraph i with Some g => RefreshInstructions fuel g | None => ret tt end) ;;;
  i <- load p ;; ret (m_origOffset i).
