(* ===== verification/Chain.v ===== *)
(** Theory of the instruction list: what it means for the objects of the store
    to form the doubly linked list of a graph, and how the predicate is taken
    apart and put together.  [graph_list w g l] is the abstraction relation of
    the refinement theorems of [GraphSpec.v]: the graph [g] of the world [w]
    represents the sequence [l] of instructions. *)
From S2P Require Import Prelude ILOpcodes Instruction Store.

(** The instruction a list starts with, or [d] for the empty list, and the
    instruction it ends with. *)
Definition first_or (l : list ptr) (d : option ptr) : option ptr :=
  match l with [] => d | p :: _ => Some p end.

Fixpoint last_or (l : list ptr) (d : option ptr) : option ptr :=
  match l with [] => d | p :: l' => last_or l' (Some p) end.

(** The links of one node: [a] before it, [b] after it. *)
Definition node (m : gmap ptr CInstruction) (p : ptr) (a b : option ptr) : Prop :=
  exists i, m !! p = Some i /\ m_pPreviousInstruction i = a /\ m_pNextInstruction i = b.

(** The nodes [l] are linked in both directions, entered from [a], left to [b]. *)
Fixpoint segment (m : gmap ptr CInstruction) (a : option ptr) (l : list ptr) (b : option ptr) : Prop :=
  match l with
  | [] => True
  | p :: l' => node m p a (first_or l' b) /\ segment m (Some p) l' b
  end.

(** The graph that has claimed an instruction. *)
Definition owner (m : gmap ptr CInstruction) (p : ptr) : option (option ptr) :=
  m_pGraph <$> m !! p.

(** The graph [g] represents the sequence [l]: its ends are the ends of [l], the
    nodes are linked, and [l] holds exactly the instructions [g] owns. *)
Record graph_list (w : World) (g : ptr) (l : list ptr) : Prop := {
  gl_graph : exists gr, w_graph w !! g = Some gr /\
    m_pFirstInstruction gr = first_or l None /\ m_pLastInstruction gr = last_or l None;
  gl_segment : segment (w_instr w) None l None;
  gl_nodup : NoDup l;
  gl_owned : forall p, p ∈ l <-> owner (w_instr w) p = Some (Some g)
}.

(** The same without the last pointer, which [DecodeInstructions] sets only at
    the end; it is all that the offsets depend on. *)
Record graph_chain (w : World) (g : ptr) (l : list ptr) : Prop := {
  gc_graph : exists gr, w_graph w !! g = Some gr /\ m_pFirstInstruction gr = first_or l None;
  gc_segment : segment (w_instr w) None l None;
  gc_nodup : NoDup l;
  gc_owned : forall p, p ∈ l <-> owner (w_instr w) p = Some (Some g)
}.

(** A node that no graph has claimed and that is linked to nothing: a new
    instruction. *)
Definition detached (w : World) (p : ptr) : Prop :=
  owner (w_instr w) p = Some None /\ node (w_instr w) p None None.

(** What an edit of the list leaves alone: everything but the three members of
    the list, the ends of the graph and its stale flag. *)
Definition content (i : CInstruction) : CInstruction :=
  set_removed false (set_graph None (set_prev None (set_next None i))).

Definition graph_content (gr : CInstructionGraph) : CInstructionGraph :=
  set_stale false (set_last None (set_first None gr)).

Record relinked (g : ptr) (w w' : World) : Prop := {
  rl_instr : forall p, content <$> w_instr w' !! p = content <$> w_instr w !! p;
  rl_graph : forall h, h <> g -> w_graph w' !! h = w_graph w !! h;
  rl_this : graph_content <$> w_graph w' !! g = graph_content <$> w_graph w !! g;
  rl_clause : w_clause w' = w_clause w;
  rl_method : w_method w' = w_method w
}.

(** ** Lemmas on [first_or], [last_or] and [segment] *)

Lemma first_or_app l1 l2 d : first_or (l1 ++ l2) d = first_or l1 (first_or l2 d).
Proof. by destruct l1. Qed.

Lemma last_or_app l1 l2 d : last_or (l1 ++ l2) d = last_or l2 (last_or l1 d).
Proof. revert d. induction l1; intros; simpl; auto. Qed.

Lemma segment_cons m a p l b :
  node m p a (first_or l b) -> segment m (Some p) l b -> segment m a (p :: l) b.
Proof. by split. Qed.

Lemma segment_app m a l1 l2 b :
  segment m a (l1 ++ l2) b <-> segment m a l1 (first_or l2 b) /\ segment m (last_or l1 a) l2 b.
Proof.
  revert a. induction l1 as [|p l1 IH]; intros a; cbn [app segment last_or]; [tauto|].
  rewrite IH, first_or_app. tauto.
Qed.

(** *** Nodes *)

Lemma node_frame m m' p a b : m' !! p = m !! p -> node m p a b -> node m' p a b.
Proof. intros Hf (i & Hi & H). exists i. by rewrite Hf. Qed.

Lemma node_ne m f q p a b : p <> q -> node m p a b -> node (alter f q m) p a b.
Proof. intros Hq. apply node_frame, lookup_alter_ne. congruence. Qed.

Lemma node_alter m f p a b a' b' :
  (forall i, m_pPreviousInstruction i = a -> m_pNextInstruction i = b ->
     m_pPreviousInstruction (f i) = a' /\ m_pNextInstruction (f i) = b') ->
  node m p a b -> node (alter f p m) p a' b'.
Proof.
  intros Hf (i & Hi & Ha & Hb). exists (f i). rewrite lookup_alter_eq, Hi.
  split; [done|]. by apply Hf.
Qed.

Lemma node_set_next m p a b b' : node m p a b -> node (alter (set_next b') p m) p a b'.
Proof. apply node_alter. by intros []. Qed.

Lemma node_set_prev m p a a' b : node m p a b -> node (alter (set_prev a') p m) p a' b.
Proof. apply node_alter. by intros []. Qed.

(** Assignments that keep the links. *)
Definition keeps_links (f : CInstruction -> CInstruction) : Prop :=
  forall i, m_pPreviousInstruction (f i) = m_pPreviousInstruction i /\
            m_pNextInstruction (f i) = m_pNextInstruction i.

Lemma node_keep m f q p a b : keeps_links f -> node m p a b -> node (alter f q m) p a b.
Proof.
  intros Hf H. destruct (decide (p = q)) as [->|]; [|by apply node_ne].
  eapply node_alter; [|done]. intros i <- <-. apply Hf.
Qed.

Lemma node_lookup m p a b i :
  node m p a b -> m !! p = Some i -> m_pPreviousInstruction i = a /\ m_pNextInstruction i = b.
Proof. intros (j & Hj & H) Hi. naive_solver. Qed.

(** *** Segments *)

Lemma segment_mono m m' a l b :
  (forall p a b, p ∈ l -> node m p a b -> node m' p a b) -> segment m a l b -> segment m' a l b.
Proof.
  revert a. induction l as [|p l IH]; intros a Hf; cbn [segment]; [done|].
  intros [Hn Hs]. split; [apply Hf; [set_solver|done]|].
  apply IH; [|done]. intros q x y Hq. apply Hf. set_solver.
Qed.

Lemma segment_frame m m' a l b :
  (forall p, p ∈ l -> m' !! p = m !! p) -> segment m a l b -> segment m' a l b.
Proof. intros Hf. apply segment_mono. intros p x y Hp. by apply node_frame, Hf. Qed.

Lemma segment_alter_notin m f q a l b :
  q ∉ l -> segment m a l b -> segment (alter f q m) a l b.
Proof. intros Hq. apply segment_mono. intros p x y Hp. apply node_ne. set_solver. Qed.

Lemma segment_keep m f q a l b :
  keeps_links f -> segment m a l b -> segment (alter f q m) a l b.
Proof. intros Hf. apply segment_mono. intros p x y _. by apply node_keep. Qed.

(** The node in the middle of a segment. *)
Lemma segment_mid m a l1 p l2 b :
  segment m a (l1 ++ p :: l2) b -> node m p (last_or l1 a) (first_or l2 b).
Proof. rewrite segment_app. by intros [_ [H _]]. Qed.

(** The exit of a segment is the next link of its last node. *)
Lemma segment_snoc m a l p b :
  segment m a (l ++ [p]) b <-> segment m a l (Some p) /\ node m p (last_or l a) b.
Proof. rewrite segment_app. cbn. tauto. Qed.

(** Redirecting the exit of a segment: its last node is given the next link [b']. *)
Lemma segment_set_exit m a l p b b' :
  p ∉ l -> segment m a (l ++ [p]) b -> segment (alter (set_next b') p m) a (l ++ [p]) b'.
Proof.
  rewrite !segment_snoc. intros Hp [Hs Hn].
  split; [by apply segment_alter_notin|by eapply node_set_next].
Qed.

(** Redirecting the entry: its first node is given the previous link [a']. *)
Lemma segment_set_entry m a a' p l b :
  p ∉ l -> segment m a (p :: l) b -> segment (alter (set_prev a') p m) a' (p :: l) b.
Proof.
  intros Hp [Hn Hs]. split; [by eapply node_set_prev|by apply segment_alter_notin].
Qed.

Lemma last_or_rcons l p d : last_or (l ++ [p]) d = Some p.
Proof. by rewrite last_or_app. Qed.

Lemma last_or_None l : last_or l None = None -> l = [].
Proof. destruct l as [|q l _] using rev_ind; [done|]. by rewrite last_or_rcons. Qed.

Lemma first_or_elem l p : first_or l None = Some p -> p ∈ l.
Proof. destruct l; [done|]. intros [= ->]. set_solver. Qed.

Lemma last_or_elem l p : last_or l None = Some p -> p ∈ l.
Proof. destruct l as [|q l _] using rev_ind; [done|]. rewrite last_or_rcons. set_solver. Qed.

(** ** Running a computation step by step *)

Lemma run_update_graph g f w : update_graph g f w = (Ok tt, on_graph (alter f g) w).
Proof. done. Qed.

Lemma run_update p f w : update p f w = (Ok tt, on_instr (alter f p) w).
Proof. done. Qed.

Lemma run_load p w i : w_instr w !! p = Some i -> load p w = (Ok i, w).
Proof. unfold load. by intros ->. Qed.

Lemma run_load_graph g w gr : w_graph w !! g = Some gr -> load_graph g w = (Ok gr, w).
Proof. unfold load_graph. by intros ->. Qed.

Lemma run_SetNext p q w :
  SetNextInstruction p q false w = (Ok tt, on_instr (alter (set_next q) p) w).
Proof.
  unfold SetNextInstruction, update, modify, on_instr. do 2 f_equal. apply alter_ext.
  intros i _. by rewrite andb_false_r.
Qed.

Lemma run_SetPrev p q w :
  SetPreviousInstruction p q false w = (Ok tt, on_instr (alter (set_prev q) p) w).
Proof.
  unfold SetPreviousInstruction, update, modify, on_instr. do 2 f_equal. apply alter_ext.
  intros i _. by rewrite andb_false_r.
Qed.

Lemma run_GetPrevious p w a b :
  node (w_instr w) p a b -> attempt (GetPreviousInstruction p) w = (Ok a, w).
Proof.
  intros (i & Hi & <- & _). unfold attempt, GetPreviousInstruction, bind, load. rewrite Hi. cbn.
  by destruct (m_pPreviousInstruction i).
Qed.

Lemma run_GetNext p w a b :
  node (w_instr w) p a b -> attempt (GetNextInstruction p) w = (Ok b, w).
Proof.
  intros (i & Hi & _ & <-). unfold attempt, GetNextInstruction, bind, load. rewrite Hi. cbn.
  by destruct (m_pNextInstruction i).
Qed.

(** ** Ownership *)

Lemma owner_Some m p i : m !! p = Some i -> owner m p = Some (m_pGraph i).
Proof. unfold owner. by intros ->. Qed.

Lemma owner_alter m f p q :
  (forall i, m_pGraph (f i) = m_pGraph i) -> owner (alter f p m) q = owner m q.
Proof.
  intros Hf. unfold owner. rewrite lookup_alter. case_decide as Hq; [subst q|done].
  destruct (m !! p); cbn; [by rewrite Hf|done].
Qed.

Lemma owner_set_next m v p q : owner (alter (set_next v) p m) q = owner m q.
Proof. apply owner_alter. by intros []. Qed.
Lemma owner_set_prev m v p q : owner (alter (set_prev v) p m) q = owner m q.
Proof. apply owner_alter. by intros []. Qed.

Lemma owner_set_graph m v p q :
  is_Some (m !! p) ->
  owner (alter (set_graph v) p m) q = if decide (q = p) then Some v else owner m q.
Proof.
  intros [i Hi]. unfold owner. case_decide as Hq.
  - subst q. rewrite lookup_alter_eq, Hi. by destruct i.
  - by rewrite lookup_alter_ne.
Qed.

Lemma run_SetGraph p g w :
  owner (w_instr w) p = Some None ->
  SetGraph p g w = (Ok tt, on_instr (alter (set_graph (Some g)) p) w).
Proof.
  unfold owner, SetGraph. destruct (w_instr w !! p) as [i|] eqn:Hi; [|done]. intros [= Hg].
  erewrite run_bind by (by apply run_load). by rewrite Hg.
Qed.

Lemma owner_SetIsRemoved m p q :
  is_Some (m !! p) ->
  owner (alter (fun i => set_graph None (set_removed true i)) p m) q =
    if decide (q = p) then Some None else owner m q.
Proof.
  intros [i Hi]. unfold owner. case_decide as Hq.
  - subst q. rewrite lookup_alter_eq, Hi. by destruct i.
  - by rewrite lookup_alter_ne.
Qed.

Lemma graph_list_chain w g l : graph_list w g l -> graph_chain w g l.
Proof. intros [(gr & Hg & Hf & _) Hs Hn Ho]. split; try done. by exists gr. Qed.

(** Membership in the list is ownership. *)
Lemma graph_chain_owned w g l p i :
  graph_chain w g l -> p ∈ l -> w_instr w !! p = Some i -> m_pGraph i = Some g.
Proof. intros H Hp Hi. apply (gc_owned _ _ _ H) in Hp. rewrite (owner_Some _ _ _ Hi) in Hp. congruence. Qed.

Lemma graph_chain_elem w g l p :
  graph_chain w g l -> p ∈ l -> exists i, w_instr w !! p = Some i /\ m_pGraph i = Some g.
Proof.
  intros H Hp. apply (gc_owned _ _ _ H) in Hp. unfold owner in Hp.
  destruct (w_instr w !! p) eqn:E; [|done]. injection Hp. eauto.
Qed.

Lemma graph_list_owned w g l p i :
  graph_list w g l -> p ∈ l -> w_instr w !! p = Some i -> m_pGraph i = Some g.
Proof. intros H. by apply graph_chain_owned, graph_list_chain. Qed.

Lemma graph_list_elem w g l p :
  graph_list w g l -> p ∈ l -> exists i, w_instr w !! p = Some i /\ m_pGraph i = Some g.
Proof. intros H. by apply graph_chain_elem, graph_list_chain. Qed.

Lemma detached_notin w g l p : graph_list w g l -> detached w p -> p ∉ l.
Proof. intros H [Ho _] Hp%(gl_owned _ _ _ H). congruence. Qed.

(** A frame for the nodes that an edit rewrites. *)
Lemma content_alter (m : gmap ptr CInstruction) f p q :
  (forall i, content (f i) = content i) ->
  content <$> alter f p m !! q = content <$> m !! q.
Proof.
  intros Hf. rewrite lookup_alter. case_decide as Hq; [|done]. subst q.
  destruct (m !! p); [|done]. cbn. by rewrite Hf.
Qed.

Lemma content_set_next q i : content (set_next q i) = content i.
Proof. by destruct i. Qed.
Lemma content_set_prev q i : content (set_prev q i) = content i.
Proof. by destruct i. Qed.
Lemma content_set_graph q i : content (set_graph q i) = content i.
Proof. by destruct i. Qed.
Lemma content_set_removed q i : content (set_removed q i) = content i.
Proof. by destruct i. Qed.

#[export] Instance relinked_refl g : Reflexive (relinked g).
Proof. intros w. by split. Qed.

#[export] Instance relinked_trans g : Transitive (relinked g).
Proof.
  intros w1 w2 w3 [? H1] [? H2]. split; intros; try congruence.
  rewrite H2, H1; done.
Qed.

Lemma relinked_instr g f p w :
  (forall i, content (f i) = content i) -> relinked g w (on_instr (alter f p) w).
Proof. intros Hf. split; try done. intros q. by apply content_alter. Qed.

Lemma relinked_graph g f w :
  (forall gr, graph_content (f gr) = graph_content gr) -> relinked g w (on_graph (alter f g) w).
Proof.
  intros Hf. split; try done; cbn.
  - intros h Hh. by rewrite lookup_alter_ne.
  - rewrite lookup_alter_eq. destruct (w_graph w !! g); cbn; [|done]. by rewrite Hf.
Qed.

#[export] Hint Resolve content_set_next content_set_prev content_set_graph : cie.
Lemma keeps_set_graph v : keeps_links (set_graph v).
Proof. by intros []. Qed.
Lemma keeps_set_removed v : keeps_links (set_removed v).
Proof. by intros []. Qed.

Lemma keeps_SetIsRemoved : keeps_links (fun i => set_graph None (set_removed true i)).
Proof. by intros []. Qed.
Lemma content_SetIsRemoved i : content (set_graph None (set_removed true i)) = content i.
Proof. by destruct i. Qed.

#[export] Hint Resolve keeps_set_graph keeps_set_removed keeps_SetIsRemoved content_SetIsRemoved : cie.
#[export] Hint Rewrite owner_set_next owner_set_prev : cie.
