(* ===== verification/BranchTargets.v ===== *)
(** Branch and switch targets, and the back links from an instruction to the
    branches that target it: [CBranchInstruction] and [CSwitchInstruction] of
    [Instruction.cpp] and [CBranchTargetInfo] of [BranchTargetInfo.cpp].

    The [CBranchTargetInfo] of an instruction is a data item of the instruction,
    found again by [GetInstance]; here it is the member [m_branchInfo].  Its
    [unordered_set] is a [gset], visited in the order of [elements]. *)
From S2P Require Import Prelude ILOpcodes Instruction Store.

(** ** CBranchTargetInfo *)

(** [CBranchTargetInfo::GetInstance]: the set of branches, [E_FAIL] when the
    instruction has no such data item. *)
Definition GetInstance (p : ptr) : W (gset ptr) :=
  i <- load p ;; if_null_ret (m_branchInfo i) E_FAIL.

(** [CBranchTargetInfo::GetOrCreateInstance] *)
Definition GetOrCreateInstance (p : ptr) : W (gset ptr) :=
  o <- attempt (GetInstance p) ;;
  match o with
  | Some b => ret b
  | None => update p (set_branchInfo (Some ∅)) ;;; ret ∅
  end.

(** [CBranchTargetInfo::Disconnect]: the data item is removed. *)
Definition Disconnect_info (p : ptr) : W unit := update p (set_branchInfo None).

(** [CBranchTargetInfo::Remove] on the item [b] of instruction [p]. *)
Definition Remove_branch (p : ptr) (b : gset ptr) (pOldBranch : ptr) : W unit :=
  let b' := b ∖ {[pOldBranch]} in
  update p (set_branchInfo (Some b')) ;;;
  if decide (b' = ∅) then Disconnect_info p else ret tt.

(** [CBranchTargetInfo::SetBranchTarget(pBranch, pTarget, pOldTarget)] *)
Definition info_SetBranchTarget (pBranch : ptr) (pTarget pOldTarget : option ptr) : W unit :=
  (match pOldTarget with
   | None => ret tt
   | Some old =>
       o <- attempt (GetInstance old) ;;
       match o with
       | Some b => Remove_branch old b pBranch
       | None => ret tt
       end
   end) ;;;
  match pTarget with
  | None => ret tt
  | Some t =>
      b <- GetOrCreateInstance t ;;
      update t (set_branchInfo (Some ({[pBranch]} ∪ b)))
  end.

(** ** CBranchInstruction *)

(** [CBranchInstruction::SetBranchTarget] *)
Definition Branch_SetBranchTarget (p : ptr) (pInstruction : ptr) : W unit :=
  i <- load p ;;
  match m_class i with
  | CBranch d tgt orig =>
      update p (set_class (CBranch d (Some pInstruction) orig)) ;;;
      info_SetBranchTarget p (Some pInstruction) tgt ;;;
      i <- load p ;;
      if bool_decide (orig = None) && negb (bool_decide (m_instructionGeneration i = Generation_New))
      then update p (set_class (CBranch d (Some pInstruction) (Some pInstruction)))
      else ret tt
  | _ => undefined BadCast
  end.

(** [CBranchInstruction::GetBranchTarget]: a null target is dereferenced. *)
Definition Branch_GetBranchTarget (p : ptr) : W ptr :=
  i <- load p ;;
  match m_class i with
  | CBranch _ tgt _ => deref tgt
  | _ => undefined BadCast
  end.

(** [CBranchInstruction::GetTargetOffset] *)
Definition GetTargetOffset (fuel : nat) (p : ptr) : W Z :=
  i <- load p ;;
  match m_class i with
  | CBranch d tgt _ =>
      match tgt with Some t => GetOffset fuel t | None => ret d end
  | _ => undefined BadCast
  end.

(** ** CSwitchInstruction *)

(** [m_branchTargets[index]]: no range check on the vector. *)
Definition switch_target (ts : list (option ptr)) (index : Z) : outcome (option ptr) :=
  if decide (0 <= index) then of_option OutOfBoundsRead (ts !! Z.to_nat index)
  else Undef OutOfBoundsRead.

(** [CSwitchInstruction::GetBranchTarget]: [None] (a null [*ppTarget], with
    [S_OK]) when the index is out of range or the target is not set. *)
Definition Switch_GetBranchTarget (p : ptr) (index : Z) : W (option ptr) :=
  i <- load p ;;
  match m_class i with
  | CSwitch _ ts =>
      if Z.of_nat (length ts) <=? index then ret None
      else lift (switch_target ts index)
  | _ => undefined BadCast
  end.

(** [CSwitchInstruction::SetBranchTarget] *)
Definition Switch_SetBranchTarget (p : ptr) (index : Z) (pTarget : ptr) : W unit :=
  i <- load p ;;
  match m_class i with
  | CSwitch ds ts =>
      oldTarget <- lift (switch_target ts index) ;;
      update p (set_class (CSwitch ds (<[Z.to_nat index := Some pTarget]> ts))) ;;;
      info_SetBranchTarget p (Some pTarget) oldTarget
  | _ => undefined BadCast
  end.

(** [CSwitchInstruction::RemoveBranchTargetAt] *)
Definition Switch_RemoveBranchTargetAt (p : ptr) (index : Z) : W unit :=
  i <- load p ;;
  match m_class i with
  | CSwitch ds ts =>
      if decide (0 <= index < Z.of_nat (length ts))
      then update p (set_class (CSwitch ds (delete (Z.to_nat index) ts)))
      else undefined BadIterator
  | _ => undefined BadCast
  end.

(** The loop of [CSwitchInstruction::RemoveBranchTarget]: [erase] returns the
    position of the next element, which the [++iter] of the loop then skips; after
    the last element it increments [end()]. *)
Fixpoint erase_loop (t : ptr) (ts : list (option ptr)) : outcome (list (option ptr)) :=
  match ts with
  | [] => Ok []
  | x :: ts' =>
      if bool_decide (x = Some t) then
        match ts' with
        | [] => Undef BadIterator
        | y :: ts'' => l <~ erase_loop t ts'' ;; Ok (y :: l)
        end
      else l <~ erase_loop t ts' ;; Ok (x :: l)
  end.

Definition Switch_RemoveBranchTarget (p : ptr) (pTarget : ptr) : W unit :=
  i <- load p ;;
  match m_class i with
  | CSwitch ds ts =>
      ts' <- lift (erase_loop pTarget ts) ;; update p (set_class (CSwitch ds ts'))
  | _ => undefined BadCast
  end.

(** The loop of [CSwitchInstruction::ReplaceBranchTarget], from index [i]. *)
Fixpoint replace_loop (p pOriginal pNew : ptr) (i : Z) (count : nat) : W unit :=
  match count with
  | O => ret tt
  | S count' =>
      ins <- load p ;;
      match m_class ins with
      | CSwitch _ ts =>
          t <- lift (switch_target ts i) ;;
          (if bool_decide (t = Some pOriginal) then Switch_SetBranchTarget p i pNew else ret tt) ;;;
          replace_loop p pOriginal pNew (i + 1) count'
      | _ => undefined BadCast
      end
  end.

(** [CSwitchInstruction::ReplaceBranchTarget] *)
Definition Switch_ReplaceBranchTarget (p pOriginal pNew : ptr) : W unit :=
  i <- load p ;;
  match m_class i with
  | CSwitch _ ts =>
      if_false_ret (0 <? Z.of_nat (length ts)) E_BOUNDS ;;;
      replace_loop p pOriginal pNew 0 (length ts)
  | _ => undefined BadCast
  end.

(** [CSwitchInstruction::GetBranchCount] and [GetBranchOffset]: the offset of the
    target, or the decoded delta while the target is not set. *)
Definition Switch_GetBranchCount (p : ptr) : W Z :=
  i <- load p ;;
  match m_class i with
  | CSwitch _ ts => ret (u32 (Z.of_nat (length ts)))
  | _ => undefined BadCast
  end.

Definition Switch_GetBranchOffset (fuel : nat) (p : ptr) (index : Z) : W Z :=
  i <- load p ;;
  match m_class i with
  | CSwitch ds ts =>
      t <- lift (switch_target ts index) ;;
      match t with
      | Some t => GetOffset fuel t
      | None => if decide (0 <= index) then lift (of_option OutOfBoundsRead (ds !! Z.to_nat index))
                else undefined OutOfBoundsRead
      end
  | _ => undefined BadCast
  end.

(** ** Retargeting *)

(** [CBranchTargetInfo::Retarget], one branch of the loop: [m_pInstruction] is
    the instruction the item belonged to. *)
Definition retarget_one (m_pInstruction pNewInstruction pInstr : ptr) : W unit :=
  i <- load pInstr ;;
  isBranch <- lift (GetIsBranchInternal i) ;;
  if (isBranch : bool) then
    match m_class i with
    | CBranch _ _ _ =>
        if decide (pInstr = pNewInstruction)
        then Branch_SetBranchTarget pInstr m_pInstruction
        else Branch_SetBranchTarget pInstr pNewInstruction
    | _ => fail E_NOINTERFACE
    end
  else if GetIsSwitchInternal i then
    match m_class i with
    | CSwitch _ _ => Switch_ReplaceBranchTarget pInstr m_pInstruction pNewInstruction
    | _ => fail E_NOINTERFACE
    end
  else ret tt.

Fixpoint retarget_loop (m_pInstruction pNewInstruction : ptr) (bs : list ptr) : W unit :=
  match bs with
  | [] => ret tt
  | b :: bs' =>
      retarget_one m_pInstruction pNewInstruction b ;;;
      retarget_loop m_pInstruction pNewInstruction bs'
  end.

(** [CBranchTargetInfo::Retarget] on the item [b] of [m_pInstruction]. *)
Definition Retarget (m_pInstruction : ptr) (b : gset ptr) (pNewInstruction : ptr) : W unit :=
  Disconnect_info m_pInstruction ;;;
  retarget_loop m_pInstruction pNewInstruction (elements b).

(** [CBranchTargetInfo::RetargetBranches] *)
Definition RetargetBranches (pOriginalInstruction pNewInstruction : ptr) : W unit :=
  o <- attempt (GetInstance pOriginalInstruction) ;;
  match o with
  | Some b => Retarget pOriginalInstruction b pNewInstruction
  | None => ret tt
  end.
