(* ===== verification/Retarget.v ===== *)
(** Theory of branch targets: what setting a target and retargeting the branches
    of an instruction change, and what they leave alone. *)
From S2P Require Import Prelude ILOpcodes Instruction Store Chain BranchTargets.

(** ** The frame of the operations on targets

    They write the class members and the back links of instructions only. *)
Definition shell (i : CInstruction) : CInstruction := set_branchInfo None (set_class CNone i).

Record kept (w w' : World) : Prop := {
  kp_instr : forall p, shell <$> w_instr w' !! p = shell <$> w_instr w !! p;
  kp_graph : w_graph w' = w_graph w;
  kp_clause : w_clause w' = w_clause w;
  kp_method : w_method w' = w_method w
}.

#[export] Instance kept_preorder : PreOrder kept.
Proof. split; [by split|]. intros w1 w2 w3 [] []. split; intros; congruence. Qed.

Lemma kept_update p f :
  (forall i, shell (f i) = shell i) -> Preserves kept (update p f).
Proof.
  intros Hf w. split; try done. intros q. cbn. rewrite lookup_alter.
  case_decide as Hq; [subst q|done]. destruct (w_instr w !! p); cbn; [by rewrite Hf|done].
Qed.

#[export] Instance kept_set_class p c : Preserves kept (update p (set_class c)).
Proof. apply kept_update. by intros []. Qed.
#[export] Instance kept_set_branchInfo p b : Preserves kept (update p (set_branchInfo b)).
Proof. apply kept_update. by intros []. Qed.
#[export] Instance kept_load p : Preserves kept (load p).
Proof. intros w. split; done. Qed.

#[export] Instance kept_GetInstance p : Preserves kept (GetInstance p).
Proof. unfold GetInstance. apply _. Qed.
#[export] Instance kept_GetOrCreate p : Preserves kept (GetOrCreateInstance p).
Proof. unfold GetOrCreateInstance. pres. Qed.
#[export] Instance kept_Remove_branch p b q : Preserves kept (Remove_branch p b q).
Proof. unfold Remove_branch, Disconnect_info. pres. Qed.
#[export] Instance kept_info_SetBranchTarget p t o : Preserves kept (info_SetBranchTarget p t o).
Proof. unfold info_SetBranchTarget. pres. Qed.
#[export] Instance kept_Branch_SetBranchTarget p t : Preserves kept (Branch_SetBranchTarget p t).
Proof. unfold Branch_SetBranchTarget. pres. Qed.
#[export] Instance kept_Switch_SetBranchTarget p n t : Preserves kept (Switch_SetBranchTarget p n t).
Proof. unfold Switch_SetBranchTarget. pres. Qed.
#[export] Instance kept_replace_loop p o n i c : Preserves kept (replace_loop p o n i c).
Proof. revert i. induction c; intros i; cbn [replace_loop]; pres. Qed.
#[export] Instance kept_Switch_Replace p o n : Preserves kept (Switch_ReplaceBranchTarget p o n).
Proof. unfold Switch_ReplaceBranchTarget. pres. Qed.
#[export] Instance kept_retarget_one o n p : Preserves kept (retarget_one o n p).
Proof. unfold retarget_one. pres. Qed.
#[export] Instance kept_retarget_loop o n l : Preserves kept (retarget_loop o n l).
Proof. induction l; cbn [retarget_loop]; pres. Qed.
#[export] Instance kept_RetargetBranches o n : Preserves kept (RetargetBranches o n).
Proof. unfold RetargetBranches, Retarget, Disconnect_info. pres. Qed.

Lemma shell_fields i i' :
  shell i' = shell i ->
  m_opcode i' = m_opcode i /\ m_pGraph i' = m_pGraph i /\
  m_pNextInstruction i' = m_pNextInstruction i /\
  m_pPreviousInstruction i' = m_pPreviousInstruction i /\
  m_instructionGeneration i' = m_instructionGeneration i /\
  m_bIsRemoved i' = m_bIsRemoved i.
Proof. destruct i, i'. intros E. injection E. intros. subst. by split_and!. Qed.

(** The links, the owner and the emptiness of the store follow from the frame. *)
Lemma kept_lookup w w' p i :
  kept w w' -> w_instr w !! p = Some i ->
  exists i', w_instr w' !! p = Some i' /\ shell i' = shell i.
Proof.
  intros H Hi. pose proof (kp_instr _ _ H p) as E. rewrite Hi in E.
  destruct (w_instr w' !! p); [|done]. injection E. eauto.
Qed.

Lemma kept_owner w w' p : kept w w' -> owner (w_instr w') p = owner (w_instr w) p.
Proof.
  intros H. pose proof (kp_instr _ _ H p) as E. unfold owner.
  destruct (w_instr w' !! p), (w_instr w !! p); try done. injection E as E%shell_fields.
  cbn. f_equal. tauto.
Qed.

Lemma kept_node w w' p a b : kept w w' -> node (w_instr w) p a b -> node (w_instr w') p a b.
Proof.
  intros H (i & Hi & Ha & Hb). destruct (kept_lookup _ _ _ _ H Hi) as (i' & Hi' & E).
  apply shell_fields in E as (_ & _ & En & Ep & _). exists i'. by rewrite En, Ep.
Qed.

Lemma kept_graph_list w w' g l : kept w w' -> graph_list w g l -> graph_list w' g l.
Proof.
  intros H [Hg Hs Hn Ho]. split; [by rewrite (kp_graph _ _ H)| |done|].
  - eapply segment_mono; [|done]. intros p a b _. by apply kept_node.
  - intros p. by rewrite (kept_owner _ _ _ H).
Qed.

(** ** The targets of an instruction *)

Definition refs (c : InstrClass) : list (option ptr) :=
  match c with
  | CBranch _ t _ => [t]
  | CSwitch _ ts => ts
  | CNone | COperand _ => []
  end.

Definition class_of (w : World) (p : ptr) : option InstrClass := m_class <$> w_instr w !! p.

(** Every target is an instruction of the store. *)
Definition closed (w : World) : Prop :=
  forall p c t, class_of w p = Some c -> Some t ∈ refs c -> is_Some (w_instr w !! t).

(** The opcode and the class of an instruction agree. *)
Definition kind_ok (i : CInstruction) : Prop :=
  exists r, opinfo (m_opcode i) = Ok r /\
  match m_class i with
  | CBranch _ _ _ => IsFlagSet (m_flags r) ILOpcodeFlag_Branch = true
  | CSwitch _ _ => m_opcode i = Cee_Switch
  | CNone | COperand _ =>
      IsFlagSet (m_flags r) ILOpcodeFlag_Branch = false /\ m_opcode i <> Cee_Switch
  end.

(** The back links of [o] are exactly the instructions that target it. *)
Definition backlinks_at (w : World) (o : ptr) : Prop :=
  exists io, w_instr w !! o = Some io /\
  forall q, (exists c, class_of w q = Some c /\ Some o ∈ refs c) <->
            (exists b, m_branchInfo io = Some b /\ q ∈ b).

(** What retargeting from [o] to [n] does to the class of the instruction [q]:
    every target [o] becomes [n], except that a branch that is [n] itself goes on
    targeting [o]. *)
Definition subst_target (o n : ptr) (t : option ptr) : option ptr :=
  if decide (t = Some o) then Some n else t.

Definition retarget_class (o n q : ptr) (gen : InstructionGeneration) (c : InstrClass) : InstrClass :=
  match c with
  | CBranch d t orig =>
      if decide (t = Some o) then
        let t' := if decide (q = n) then o else n in
        CBranch d (Some t')
          (if bool_decide (orig = None) && negb (bool_decide (gen = Generation_New))
           then Some t' else orig)
      else c
  | CSwitch ds ts => CSwitch ds (map (subst_target o n) ts)
  | CNone | COperand _ => c
  end.

Lemma subst_target_id o n ts : Some o ∉ ts -> map (subst_target o n) ts = ts.
Proof.
  induction ts as [|t ts IH]; [done|]. intros [? ?]%not_elem_of_cons. cbn.
  unfold subst_target at 1. rewrite decide_False by congruence. by rewrite IH.
Qed.

Lemma retarget_class_id o n q gen c : Some o ∉ refs c -> retarget_class o n q gen c = c.
Proof.
  destruct c; cbn; try done.
  - intros ?%not_elem_of_cons. rewrite decide_False; naive_solver.
  - intros ?. by rewrite subst_target_id.
Qed.

(** Classes are untouched by the maintenance of back links. *)
Definition same_class (w w' : World) : Prop := forall q, class_of w' q = class_of w q.

#[export] Instance same_class_preorder : PreOrder same_class.
Proof. split; [done|]. intros w1 w2 w3 H1 H2 q. by rewrite H2, H1. Qed.

#[export] Instance sc_set_branchInfo p b : Preserves same_class (update p (set_branchInfo b)).
Proof.
  intros w q. unfold class_of. cbn. rewrite lookup_alter. case_decide as Hq; [subst q|done].
  destruct (w_instr w !! p) as [[]|]; done.
Qed.
#[export] Instance sc_load p : Preserves same_class (load p).
Proof. done. Qed.
#[export] Instance sc_info_SetBranchTarget p t o : Preserves same_class (info_SetBranchTarget p t o).
Proof.
  unfold info_SetBranchTarget, GetOrCreateInstance, Remove_branch, Disconnect_info, GetInstance. pres.
Qed.

(** *** The operations return *)

Lemma kept_is_Some w w' p : kept w w' -> is_Some (w_instr w !! p) -> is_Some (w_instr w' !! p).
Proof. intros H [i Hi]. destruct (kept_lookup _ _ _ _ H Hi) as (? & ? & _). eauto. Qed.

Lemma run_GetInstance p w i :
  w_instr w !! p = Some i -> attempt (GetInstance p) w = (Ok (m_branchInfo i), w).
Proof.
  intros Hi. unfold attempt, GetInstance, bind, load. rewrite Hi. cbn. by destruct (m_branchInfo i).
Qed.

Lemma run_Remove_branch p b q w : exists w', Remove_branch p b q w = (Ok tt, w').
Proof.
  unfold Remove_branch. erewrite run_bind by apply run_update. case_decide; eexists; reflexivity.
Qed.

Lemma run_info_SetBranchTarget w p t old :
  is_Some (w_instr w !! t) -> (forall o, old = Some o -> is_Some (w_instr w !! o)) ->
  exists w', info_SetBranchTarget p (Some t) old w = (Ok tt, w').
Proof.
  intros Ht Ho. unfold info_SetBranchTarget.
  assert (exists w1, kept w w1 /\ forall k : unit -> W unit,
    bind (match old with None => ret tt | Some o => o' <- attempt (GetInstance o) ;;
      match o' with Some b => Remove_branch o b p | None => ret tt end end) k w = k tt w1)
    as (w1 & Hk & E).
  { destruct old as [o|]; [|exists w; split; [reflexivity|done]].
    destruct (Ho o eq_refl) as [io Hio].
    destruct (m_branchInfo io) as [b|] eqn:Hb.
    - destruct (run_Remove_branch o b p w) as [w1 Hw1]. exists w1.
      split; [by eapply preserves_run; [apply kept_Remove_branch|]|].
      intros k. rewrite bind_bind. erewrite run_bind by (by apply run_GetInstance). rewrite Hb.
      by erewrite run_bind.
    - exists w. split; [reflexivity|]. intros k. rewrite bind_bind.
      erewrite run_bind by (by apply run_GetInstance). by rewrite Hb. }
  rewrite E. destruct (kept_is_Some _ _ _ Hk Ht) as [it Hit].
  unfold GetOrCreateInstance. rewrite bind_bind. erewrite run_bind by (by apply run_GetInstance).
  destruct (m_branchInfo it); eexists; reflexivity.
Qed.

(** The specification of an operation that sets targets of [p] only. *)
Definition sets_class (p : ptr) (c : InstrClass) (m : W unit) (w : World) : Prop :=
  exists w', m w = (Ok tt, w') /\ kept w w' /\ class_of w' p = Some c /\
    forall q, q <> p -> class_of w' q = class_of w q.

Lemma sets_class_intro p c (m : W unit) w :
  Preserves kept m ->
  (exists w', m w = (Ok tt, w') /\ class_of w' p = Some c /\
     forall q, q <> p -> class_of w' q = class_of w q) -> sets_class p c m w.
Proof.
  intros Hk (w' & Hw & H). exists w'. split; [done|]. split; [|done].
  by eapply preserves_run.
Qed.

Lemma class_of_update w p c q :
  is_Some (w_instr w !! p) ->
  class_of (on_instr (alter (set_class c) p) w) q = if decide (q = p) then Some c else class_of w q.
Proof.
  intros [i Hi]. unfold class_of. cbn. case_decide as Hq.
  - subst q. rewrite lookup_alter_eq, Hi. by destruct i.
  - by rewrite lookup_alter_ne.
Qed.

Lemma Branch_SetBranchTarget_run w p i d tgt orig t :
  w_instr w !! p = Some i -> m_class i = CBranch d tgt orig ->
  closed w -> is_Some (w_instr w !! t) ->
  sets_class p (CBranch d (Some t)
    (if bool_decide (orig = None) && negb (bool_decide (m_instructionGeneration i = Generation_New))
     then Some t else orig)) (Branch_SetBranchTarget p t) w.
Proof.
  intros Hi Hc Hcl Ht. apply sets_class_intro; [apply _|]. unfold Branch_SetBranchTarget.
  destruct (run_info_SetBranchTarget
    (on_instr (alter (set_class (CBranch d (Some t) orig)) p) w) p t tgt) as [w2 Hw2].
  { apply lookup_alter_is_Some, Ht. }
  { intros o ->. apply lookup_alter_is_Some. eapply (Hcl p); [unfold class_of; by rewrite Hi|].
    rewrite Hc. set_solver. }
  pose proof (preserves_run _ _ _ _ _ (sc_info_SetBranchTarget _ _ _) Hw2) as Hsc.
  pose proof (preserves_run _ _ _ _ _ (kept_info_SetBranchTarget _ _ _) Hw2) as Hk2.
  destruct (kept_lookup _ _ p _ Hk2 ltac:(cbn; rewrite lookup_alter_eq, Hi; reflexivity))
    as (i2 & Hi2 & E).
  assert (m_instructionGeneration i2 = m_instructionGeneration i) as Hgen.
  { apply shell_fields in E as (_ & _ & _ & _ & -> & _). by destruct i. }
  erewrite run_bind by (by apply run_load). rewrite Hc.
  erewrite run_bind by apply run_update.
  erewrite run_bind by exact Hw2. erewrite run_bind by (by apply run_load). rewrite Hgen.
  assert (forall q, class_of w2 q = if decide (q = p) then Some (CBranch d (Some t) orig) else class_of w q) as Hcq.
  { intros q. rewrite Hsc. apply class_of_update. by rewrite Hi. }
  destruct (bool_decide (orig = None) && _).
  - eexists. split_and!; [reflexivity| |]; intros; rewrite class_of_update by eauto.
    + by rewrite decide_True.
    + by rewrite decide_False, Hcq, decide_False.
  - eexists. split_and!; [reflexivity| |]; intros; rewrite Hcq.
    + by rewrite decide_True.
    + by rewrite decide_False.
Qed.

Lemma switch_target_lookup ts k x : ts !! k = Some x -> switch_target ts (Z.of_nat k) = Ok x.
Proof. intros H. unfold switch_target. rewrite decide_True by lia. by rewrite Nat2Z.id, H. Qed.

Lemma Switch_SetBranchTarget_run w p ds ts k x t :
  class_of w p = Some (CSwitch ds ts) -> ts !! k = Some x ->
  closed w -> is_Some (w_instr w !! t) ->
  sets_class p (CSwitch ds (<[k := Some t]> ts)) (Switch_SetBranchTarget p (Z.of_nat k) t) w.
Proof.
  intros Hp Hx Hcl Ht. apply sets_class_intro; [apply _|].
  pose proof Hp as Hp'. unfold class_of in Hp'.
  destruct (w_instr w !! p) as [i|] eqn:Hi; [|done]. injection Hp' as Hc.
  unfold Switch_SetBranchTarget. erewrite run_bind by (by apply run_load). rewrite Hc.
  rewrite (switch_target_lookup _ _ _ Hx). unfold lift at 1, bind at 1.
  erewrite run_bind by apply run_update. rewrite Nat2Z.id.
  destruct (run_info_SetBranchTarget
    (on_instr (alter (set_class (CSwitch ds (<[k:=Some t]> ts))) p) w) p t x) as [w2 Hw2].
  { apply lookup_alter_is_Some, Ht. }
  { intros o ->. apply lookup_alter_is_Some, (Hcl p _ _ Hp). by eapply list_elem_of_lookup_2. }
  pose proof (preserves_run _ _ _ _ _ (sc_info_SetBranchTarget _ _ _) Hw2) as Hsc.
  exists w2. split_and!; [done| |]; intros; rewrite Hsc, class_of_update by eauto.
  - by rewrite decide_True.
  - by rewrite decide_False.
Qed.

Lemma sets_class_closed w p c (m : W unit) w' :
  closed w -> m w = (Ok tt, w') -> kept w w' -> class_of w' p = Some c ->
  (forall q, q <> p -> class_of w' q = class_of w q) ->
  (forall t, Some t ∈ refs c -> is_Some (w_instr w !! t)) -> closed w'.
Proof.
  intros Hcl _ Hk Hp Hq Hr q cq t Hcq Ht. eapply kept_is_Some; [done|].
  destruct (decide (q = p)) as [->|]; [|rewrite Hq in Hcq by done; by eapply Hcl].
  apply Hr. congruence.
Qed.

Lemma replace_loop_run o n p ds todo done w :
  class_of w p = Some (CSwitch ds (map (subst_target o n) done ++ todo)) ->
  closed w -> is_Some (w_instr w !! n) ->
  sets_class p (CSwitch ds (map (subst_target o n) (done ++ todo)))
    (replace_loop p o n (Z.of_nat (length done)) (length todo)) w.
Proof.
  revert done w. induction todo as [|x todo IH]; intros done w Hp Hcl Hn;
    (apply sets_class_intro; [apply _|]); cbn [length replace_loop].
  { exists w. rewrite app_nil_r in *. done. }
  pose proof Hp as Hp'. unfold class_of in Hp'.
  destruct (w_instr w !! p) as [i|] eqn:Hi; [|done]. injection Hp' as Hc.
  erewrite run_bind by (by apply run_load). rewrite Hc.
  assert ((map (subst_target o n) done ++ x :: todo) !! length done = Some x) as Hx.
  { rewrite lookup_app_r by (by rewrite length_map). by rewrite length_map, Nat.sub_diag. }
  rewrite (switch_target_lookup _ _ _ Hx). unfold lift, bind at 1.
  assert (sets_class p (CSwitch ds (map (subst_target o n) (done ++ [x]) ++ todo))
     (if bool_decide (x = Some o) then Switch_SetBranchTarget p (Z.of_nat (length done)) n else ret tt) w)
    as (w1 & Hw1 & Hk1 & Hc1 & Hq1).
  { rewrite map_app, <- app_assoc. cbn. unfold subst_target at 2.
    case_bool_decide as Hxo; [|exists w; rewrite decide_False by done; split_and!; try done].
    rewrite decide_True by done.
    replace (map (subst_target o n) done ++ Some n :: todo)
      with (<[length done := Some n]> (map (subst_target o n) done ++ x :: todo)).
    - by eapply Switch_SetBranchTarget_run.
    - rewrite insert_app_r_alt by (by rewrite length_map).
      by rewrite length_map, Nat.sub_diag. }
  erewrite run_bind by exact Hw1.
  replace (Z.of_nat (length done) + 1) with (Z.of_nat (length (done ++ [x])))
    by (rewrite length_app; cbn; lia).
  destruct (IH (done ++ [x]) w1) as (w2 & Hw2 & Hk2 & Hc2 & Hq2); [done| | |].
  - eapply (sets_class_closed w); try done. intros t Ht.
    rewrite map_app, <- app_assoc in Ht. cbn in Ht.
    destruct (decide (t = n)) as [->|Htn]; [done|]. apply (Hcl p _ _ Hp). cbn.
    apply elem_of_app in Ht as [|[Ht|]%elem_of_cons]; apply elem_of_app; [by left|right|right].
    + unfold subst_target in Ht. case_decide; [congruence|]. subst. by left.
    + by right.
  - by eapply kept_is_Some.
  - rewrite <- app_assoc in Hc2. exists w2. split_and!; [done..|].
    intros q Hqp. by rewrite Hq2, Hq1.
Qed.

Lemma retarget_one_run w o n p i :
  w_instr w !! p = Some i -> kind_ok i -> Some o ∈ refs (m_class i) -> closed w ->
  is_Some (w_instr w !! n) ->
  sets_class p (retarget_class o n p (m_instructionGeneration i) (m_class i)) (retarget_one o n p) w.
Proof.
  intros Hi (r & Hr & Hkind) Ho Hcl Hn. apply sets_class_intro; [apply _|].
  assert (class_of w p = Some (m_class i)) as Hcp by (unfold class_of; by rewrite Hi).
  unfold retarget_one. erewrite run_bind by (by apply run_load).
  unfold GetIsBranchInternal. rewrite Hr. cbn [obind]. unfold lift, bind at 1.
  destruct (m_class i) as [| |d tgt orig|ds ts] eqn:Hc; cbn [refs] in Ho; try set_solver.
  - rewrite Hkind. apply list_elem_of_singleton in Ho as <-. cbn [retarget_class].
    destruct (decide (Some o = Some o)) as [_|]; [|done].
    assert (is_Some (w_instr w !! o)) by (eapply Hcl; [done|]; set_solver).
    destruct (decide (p = n)).
    + destruct (Branch_SetBranchTarget_run w p i d (Some o) orig o) as (w' & ? & _ & ? & ?); eauto.
    + destruct (Branch_SetBranchTarget_run w p i d (Some o) orig n) as (w' & ? & _ & ? & ?); eauto.
  - destruct (row_facts _ _ Hr) as (_ & _ & _ & _ & _ & Hbr).
    destruct (IsFlagSet (m_flags r) ILOpcodeFlag_Branch); [destruct (Hbr eq_refl); tauto|].
    unfold GetIsSwitchInternal. rewrite Hkind, Z.eqb_refl.
    unfold Switch_ReplaceBranchTarget. erewrite run_bind by (by apply run_load). rewrite Hc.
    assert (0 <? Z.of_nat (length ts) = true) as ->
      by (apply Z.ltb_lt; destruct ts; cbn; [set_solver|lia]).
    cbn [if_false_ret]. unfold ret at 1, bind at 1. cbn [retarget_class].
    destruct (replace_loop_run o n p ds ts [] w) as (w' & Hw & _ & H1 & H2); eauto.
Qed.

(** *** All the branches of an instruction *)

Lemma retarget_refs_closed o n q gen c t :
  Some t ∈ refs (retarget_class o n q gen c) -> t = n \/ t = o \/ Some t ∈ refs c.
Proof.
  destruct c as [| |d tgt orig|ds ts]; cbn; try set_solver.
  - case_decide; cbn; [|auto]. intros [= ->]%list_elem_of_singleton. case_decide; auto.
  - intros (x & Hx & Hin)%list_elem_of_fmap. unfold subst_target in Hx.
    case_decide; [|subst]; naive_solver.
Qed.

Lemma retarget_loop_run o n bs w :
  NoDup bs -> closed w -> is_Some (w_instr w !! n) -> is_Some (w_instr w !! o) ->
  (forall q, q ∈ bs -> exists i, w_instr w !! q = Some i /\ kind_ok i /\ Some o ∈ refs (m_class i)) ->
  exists w', retarget_loop o n bs w = (Ok tt, w') /\ kept w w' /\
    forall q i, w_instr w !! q = Some i ->
      class_of w' q = Some (if decide (q ∈ bs)
        then retarget_class o n q (m_instructionGeneration i) (m_class i) else m_class i).
Proof.
  revert w. induction bs as [|b bs IH]; intros w Hnd Hcl Hn Ho Hbs; cbn [retarget_loop].
  { exists w. split_and!; [done|reflexivity|]. intros q i Hi. unfold class_of. by rewrite Hi. }
  apply NoDup_cons in Hnd as [Hb Hnd].
  destruct (Hbs b) as (ib & Hib & Hkb & Hrb); [set_solver|].
  destruct (retarget_one_run w o n b ib) as (w1 & Hw1 & Hk1 & Hc1 & Hq1); [done..|].
  erewrite run_bind by exact Hw1.
  assert (forall q i, q <> b -> w_instr w !! q = Some i ->
            exists i1, w_instr w1 !! q = Some i1 /\ m_class i1 = m_class i /\
              m_instructionGeneration i1 = m_instructionGeneration i /\ m_opcode i1 = m_opcode i) as Hsame.
  { intros q i Hqb Hi. destruct (kept_lookup _ _ _ _ Hk1 Hi) as (i1 & Hi1 & E%shell_fields).
    specialize (Hq1 q Hqb). unfold class_of in Hq1. rewrite Hi, Hi1 in Hq1. injection Hq1.
    exists i1. tauto. }
  destruct (IH w1) as (w2 & Hw2 & Hk2 & Hc2); [done| | | | |].
  - eapply (sets_class_closed w); try done. intros t [->|[->|Ht]]%retarget_refs_closed; [done..|].
    eapply (Hcl b); [|done]. unfold class_of. by rewrite Hib.
  - by eapply kept_is_Some.
  - by eapply kept_is_Some.
  - intros q Hq. destruct (Hbs q) as (i & Hi & (r & Hr & Hki) & Hri); [set_solver|].
    destruct (Hsame q i) as (i1 & Hi1 & Hc & Hg & Hop); [set_solver|done|].
    exists i1. split_and!; [done| |by rewrite Hc]. exists r. by rewrite Hop, Hc.
  - exists w2. split_and!; [done|by transitivity w1|]. intros q i Hi.
    destruct (decide (q = b)) as [->|Hqb].
    + destruct (kept_lookup _ _ _ _ Hk1 Hi) as (i1 & Hi1 & E). simplify_eq.
      rewrite (Hc2 b i1 Hi1), decide_False by done. rewrite decide_True by set_solver.
      unfold class_of in Hc1. rewrite Hi1 in Hc1. injection Hc1 as ->. done.
    + destruct (Hsame q i) as (i1 & Hi1 & Hc & Hg & Hop); [done..|].
      rewrite (Hc2 q i1 Hi1), Hc, Hg. f_equal. repeat case_decide; set_solver.
Qed.

(** The instructions of the store that are not what their opcode says cannot be
    retargeted, and the back links have to be the targets: then retargeting the
    branches of [o] to [n] rewrites every target [o] of the world. *)
Definition retargets (o n : ptr) (w w' : World) : Prop :=
  forall q i, w_instr w !! q = Some i ->
    class_of w' q = Some (retarget_class o n q (m_instructionGeneration i) (m_class i)).

Lemma RetargetBranches_run w o n :
  closed w -> backlinks_at w o -> is_Some (w_instr w !! n) ->
  (forall q i, w_instr w !! q = Some i -> kind_ok i) ->
  exists w', RetargetBranches o n w = (Ok tt, w') /\ kept w w' /\ retargets o n w w'.
Proof.
  intros Hcl (io & Hio & Hback) Hn Hkind. unfold RetargetBranches.
  erewrite run_bind by (by apply run_GetInstance).
  assert (forall q i, w_instr w !! q = Some i -> class_of w q = Some (m_class i)) as Hcw
    by (intros q i Hi; unfold class_of; by rewrite Hi).
  destruct (m_branchInfo io) as [b|] eqn:Hb.
  2: { exists w. split_and!; [done|reflexivity|]. intros q i Hi. rewrite (Hcw _ _ Hi).
       rewrite retarget_class_id; [done|]. intros Ho.
       destruct (proj1 (Hback q)) as (? & ? & _); [|done]. eauto. }
  unfold Retarget, Disconnect_info. erewrite run_bind by apply run_update.
  set (w1 := on_instr (alter (set_branchInfo None) o) w).
  pose proof (sc_set_branchInfo o None w) as Hsc. cbn in Hsc. fold w1 in Hsc.
  pose proof (kept_set_branchInfo o None w) as Hk1. cbn in Hk1. fold w1 in Hk1.
  destruct (retarget_loop_run o n (elements b) w1) as (w2 & Hw2 & Hk2 & Hc2).
  - apply NoDup_elements.
  - intros p c t Hp Ht. eapply kept_is_Some; [done|]. eapply Hcl; [|done]. by rewrite <- Hsc.
  - by eapply kept_is_Some.
  - eapply kept_is_Some; [done|eauto].
  - intros q Hq. apply elem_of_elements in Hq.
    destruct (proj2 (Hback q)) as (c & Hc & Ho); [eauto|]. rewrite <- Hsc in Hc.
    unfold class_of in Hc. destruct (w_instr w1 !! q) as [i1|] eqn:Hi1; [|done].
    injection Hc as <-. exists i1. split_and!; [done| |done].
    destruct (w_instr w !! q) as [i|] eqn:Hi.
    2: { pose proof (kp_instr _ _ Hk1 q) as E. by rewrite Hi, Hi1 in E. }
    specialize (Hkind q i Hi) as (r & Hr & Hm). exists r.
    pose proof (kp_instr _ _ Hk1 q) as E. rewrite Hi, Hi1 in E. injection E as (Hop & _)%shell_fields.
    specialize (Hsc q). unfold class_of in Hsc. rewrite Hi, Hi1 in Hsc. injection Hsc as Hsc.
    by rewrite Hop, Hsc.
  - exists w2. split_and!; [done|by transitivity w1|]. intros q i Hi.
    destruct (kept_lookup _ _ _ _ Hk1 Hi) as (i1 & Hi1 & (_ & _ & _ & _ & Hg & _)%shell_fields).
    specialize (Hsc q). unfold class_of in Hsc. rewrite Hi, Hi1 in Hsc. injection Hsc as Hsc.
    rewrite (Hc2 q i1 Hi1), Hg, Hsc. f_equal. case_decide as Hq; [done|].
    rewrite retarget_class_id; [done|]. intros Ho. apply Hq, elem_of_elements.
    destruct (proj1 (Hback q)) as (? & [= <-] & ?); [by eauto|done].
Qed.
