(* ===== verification/Clauses.v ===== *)
(** The list of exception clauses of a method ([CExceptionSection]) and the
    maintenance of their boundary pointers while the graph is edited
    ([CExceptionClause::UpdateInstruction]).  Reading clauses from a method body
    and writing them back is in [Exceptions.v]. *)
From S2P Require Import Prelude ILOpcodes Instruction Store.

(** [CorExceptionFlag] ([corhdr.h]) *)
Definition COR_ILEXCEPTION_CLAUSE_NONE : Z := 0x0000.
Definition COR_ILEXCEPTION_CLAUSE_FILTER : Z := 0x0001.
Definition COR_ILEXCEPTION_CLAUSE_FINALLY : Z := 0x0002.
Definition COR_ILEXCEPTION_CLAUSE_FAULT : Z := 0x0004.

(** [mdTokenNil] *)
Definition mdTokenNil : Z := 0.

(** [CExceptionClause::CExceptionClause] (the flags are set by the callers). *)
Definition new_clause : CExceptionClause :=
  mkClause COR_ILEXCEPTION_CLAUSE_NONE None None None None None mdTokenNil.

(** One boundary in [CExceptionClause::UpdateInstruction]. *)
Definition update_boundary (follows : bool) (pOld : ptr) (pNew x : option ptr) : option ptr :=
  if bool_decide (x = Some pOld) && follows then pNew else x.

(** [CExceptionClause::UpdateInstruction], on the members of one clause: first
    instructions always follow, last instructions only when the old instruction
    has been removed. *)
Definition clause_update (isRemoved : bool) (pOld : ptr) (pNew : option ptr)
    (c : CExceptionClause) : CExceptionClause :=
  let first := update_boundary true pOld pNew in
  let last := update_boundary isRemoved pOld pNew in
  mkClause (m_clauseFlags c)
    (first (m_pTryFirstInstruction c)) (last (m_pTryLastInstruction c))
    (first (m_pHandlerFirstInstruction c)) (last (m_pHandlerLastInstruction c))
    (first (m_pFilterFirstInstruction c)) (m_ExceptionHandlerType c).

Definition clause_UpdateInstruction (c pOld : ptr) (pNew : option ptr) : W unit :=
  i <- load pOld ;;
  load_clause c ;;;
  update_clause c (clause_update (m_bIsRemoved i) pOld pNew).

(** The loop of [CExceptionSection::UpdateInstruction]. *)
Fixpoint section_UpdateInstruction (cs : list ptr) (pOld : ptr) (pNew : option ptr) : W unit :=
  match cs with
  | [] => ret tt
  | c :: cs' =>
      clause_UpdateInstruction c pOld pNew ;;; section_UpdateInstruction cs' pOld pNew
  end.

(** [CMethodInfo::GetExceptionSection]: the clauses of the section.  The branch
    that initialises a method without an instruction graph cannot be taken from
    a graph of the method, so a missing section is [E_FAIL]. *)
Definition GetExceptionSection (m : ptr) : W (list ptr) :=
  mi <- load_method m ;; if_null_ret (m_exceptionClauses mi) E_FAIL.

Definition set_clauses (cs : list ptr) (mi : CMethodInfo) : CMethodInfo :=
  mkMethod (Some cs) (m_bIsCreateBaselineEnabled mi) (m_pCorILMap mi) (m_render mi).

(** [CExceptionSection::AddExceptionClause], [RemoveExceptionClause] (the first
    occurrence is erased) and [RemoveAllExceptionClauses]. *)
Definition AddExceptionClause (m c : ptr) : W unit :=
  cs <- GetExceptionSection m ;; update_method m (set_clauses (cs ++ [c])).

Fixpoint erase_first (c : ptr) (cs : list ptr) : list ptr :=
  match cs with
  | [] => []
  | x :: cs' => if decide (x = c) then cs' else x :: erase_first c cs'
  end.

Definition RemoveExceptionClause (m c : ptr) : W unit :=
  cs <- GetExceptionSection m ;; update_method m (set_clauses (erase_first c cs)).

Definition RemoveAllExceptionClauses (m : ptr) : W unit :=
  GetExceptionSection m ;;; update_method m (set_clauses []).

(** What the edits of the graph do when the graph has a method:
    [GetExceptionSection] and [UpdateInstruction]. *)
Definition update_exceptions (method : option ptr) (pOld : ptr) (pNew : option ptr) : W unit :=
  match method with
  | None => ret tt
  | Some m => cs <- GetExceptionSection m ;; section_UpdateInstruction cs pOld pNew
  end.

(** ** What an update does *)

(** The boundaries of a clause. *)
Definition clause_refs (c : CExceptionClause) : list (option ptr) :=
  [m_pTryFirstInstruction c; m_pTryLastInstruction c; m_pHandlerFirstInstruction c;
   m_pHandlerLastInstruction c; m_pFilterFirstInstruction c].

Lemma update_boundary_idemp b o n x :
  n <> Some o -> update_boundary b o n (update_boundary b o n x) = update_boundary b o n x.
Proof.
  intros Hn. unfold update_boundary.
  destruct (bool_decide (x = Some o) && b) eqn:E; [|by rewrite E].
  by rewrite bool_decide_eq_false_2.
Qed.

Lemma update_boundary_ne o n x : n <> Some o -> Some o <> update_boundary true o n x.
Proof. intros Hn. unfold update_boundary. case_bool_decide; cbn; congruence. Qed.

Lemma clause_update_idemp r o n c :
  n <> Some o -> clause_update r o n (clause_update r o n c) = clause_update r o n c.
Proof. intros Hn. unfold clause_update. cbn. by rewrite !update_boundary_idemp. Qed.

(** A clause does not refer to an instruction that was removed and replaced. *)
Lemma clause_update_removed o n c :
  n <> Some o -> Some o ∉ clause_refs (clause_update true o n c).
Proof.
  intros Hn. unfold clause_refs, clause_update. cbn.
  rewrite !not_elem_of_cons. split_and!; try by apply update_boundary_ne. apply not_elem_of_nil.
Qed.

(** The effect of the update on the clauses [cs] of the world. *)
Record updates_clauses (cs : list ptr) (r : bool) (o : ptr) (n : option ptr) (w w' : World) : Prop := {
  uc_instr : w_instr w' = w_instr w;
  uc_graph : w_graph w' = w_graph w;
  uc_method : w_method w' = w_method w;
  uc_clause : forall c, w_clause w' !! c =
    if decide (c ∈ cs) then clause_update r o n <$> w_clause w !! c else w_clause w !! c
}.

Lemma section_update_run cs o n w i :
  (forall c, c ∈ cs -> is_Some (w_clause w !! c)) -> w_instr w !! o = Some i -> n <> Some o ->
  exists w', section_UpdateInstruction cs o n w = (Ok tt, w') /\
    updates_clauses cs (m_bIsRemoved i) o n w w'.
Proof.
  intros Hcs Hi Hn. revert w Hcs Hi. induction cs as [|c cs IH]; intros w Hcs Hi;
    cbn [section_UpdateInstruction].
  { exists w. split; [done|]. by split. }
  destruct (Hcs c) as [cl Hcl]; [set_solver|].
  unfold clause_UpdateInstruction. rewrite bind_bind.
  erewrite run_bind by (unfold load; by rewrite Hi). rewrite bind_bind.
  erewrite run_bind by (unfold load_clause; by rewrite Hcl).
  erewrite run_bind by reflexivity.
  set (w1 := on_clause (alter (clause_update (m_bIsRemoved i) o n) c) w).
  assert (forall d, w_clause w1 !! d =
    if decide (d = c) then clause_update (m_bIsRemoved i) o n <$> w_clause w !! d else w_clause w !! d) as H1.
  { intros d. cbn. rewrite lookup_alter. repeat case_decide; congruence. }
  destruct (IH w1) as (w2 & Hw2 & [Ui Ug Um Uc]); [|done|].
  - intros d Hd. rewrite H1. case_decide; [subst; rewrite Hcl; eauto|]. apply Hcs. set_solver.
  - exists w2. split; [done|]. split; [done..|]. intros d. rewrite Uc, H1.
    destruct (decide (d = c)) as [->|Hdc].
    + rewrite (decide_True (P := c ∈ c :: cs)) by apply list_elem_of_here. rewrite Hcl. cbn.
      case_decide; [by rewrite clause_update_idemp|done].
    + apply decide_ext. rewrite elem_of_cons. tauto.
Qed.

(** The exception section of a graph's method exists, and its clauses are in the
    store. *)
Definition section_ok (w : World) (method : option ptr) (cs : list ptr) : Prop :=
  match method with
  | None => cs = []
  | Some m => exists mi, w_method w !! m = Some mi /\ m_exceptionClauses mi = Some cs /\
              forall c, c ∈ cs -> is_Some (w_clause w !! c)
  end.

Lemma run_GetExceptionSection w m cs :
  section_ok w (Some m) cs -> GetExceptionSection m w = (Ok cs, w).
Proof.
  intros (mi & Hm & Hc & _). unfold GetExceptionSection, bind, load_method. rewrite Hm. cbn.
  by rewrite Hc.
Qed.

Lemma update_exceptions_run method cs o n w i :
  section_ok w method cs -> w_instr w !! o = Some i -> n <> Some o ->
  exists w', update_exceptions method o n w = (Ok tt, w') /\
    updates_clauses cs (m_bIsRemoved i) o n w w'.
Proof.
  intros Hs Hi Hn. destruct method as [m|]; cbn [update_exceptions].
  - erewrite run_bind by (by apply run_GetExceptionSection). destruct Hs as (mi & _ & _ & Hcs).
    by apply section_update_run.
  - cbn in Hs. subst cs. exists w. split; [done|]. by split.
Qed.
