(* ===== verification/Demo.v ===== *)
(** A small concrete world on which the theorems about graphs are instantiated:
    the method  [nop; brtrue.s L; nop; L: ret]  as the instructions 1 to 4 of
    graph 1 of method 1, whose only exception clause has the instructions 1 to 3
    as its try block, and a new instruction 5 that no graph owns. *)
From S2P Require Import Prelude ILOpcodes Instruction Store Chain BranchTargets Retarget Clauses.

Definition demo_node (op : Z) (c : InstrClass) (g prev next : option ptr)
    (info : option (gset ptr)) : CInstruction :=
  set_branchInfo info (set_prev prev (set_next next (set_graph g (new_instruction op false c)))).

Definition demo : World := mkWorld
  (list_to_map
    [(1%positive, demo_node Cee_Nop CNone (Some 1) None (Some 2) None);
     (2, demo_node 0x2D (CBranch 4 (Some 4) (Some 4)) (Some 1) (Some 1) (Some 3) None);
     (3, demo_node Cee_Nop CNone (Some 1) (Some 2) (Some 4) None);
     (4, demo_node Cee_Ret CNone (Some 1) (Some 3) None (Some {[2]}));
     (5, demo_node Cee_Dup CNone None None None None)])%positive
  {[ 1%positive := set_last (Some 4%positive) (set_first (Some 1%positive) (new_graph (Some 1%positive))) ]}
  {[ 1%positive := mkClause COR_ILEXCEPTION_CLAUSE_FINALLY (Some 1%positive) (Some 3%positive)
                     (Some 4%positive) (Some 4%positive) None mdTokenNil ]}
  {[ 1%positive := mkMethod (Some [1%positive]) false [] (new_render 7 0x06000001 false) ]} ∅.

(** ** Checking the invariants of a concrete world *)

Lemma owned_check m g l :
  bool_decide (map_Forall (fun p i => m_pGraph i = Some g -> p ∈ l) m) = true ->
  bool_decide (Forall (fun p => owner m p = Some (Some g)) l) = true ->
  forall p, p ∈ l <-> owner m p = Some (Some g).
Proof.
  intros H1%bool_decide_eq_true H2%bool_decide_eq_true p. split.
  - rewrite Forall_forall in H2. apply H2.
  - unfold owner. destruct (m !! p) as [i|] eqn:Hi; [|done]. intros [= Hg]. by apply (H1 p i).
Qed.

Lemma node_check m p a b :
  bool_decide (m_pPreviousInstruction <$> m !! p = Some a) = true ->
  bool_decide (m_pNextInstruction <$> m !! p = Some b) = true -> node m p a b.
Proof.
  intros H1%bool_decide_eq_true H2%bool_decide_eq_true.
  destruct (m !! p) as [i|] eqn:Hi; [|done]. exists i. cbn in *. naive_solver.
Qed.

Lemma demo_graph_list : graph_list demo 1 [1; 2; 3; 4]%positive.
Proof.
  split.
  - eexists. split; [vm_compute; reflexivity|]. done.
  - repeat (apply segment_cons; [apply node_check; vm_compute; reflexivity|]). exact I.
  - apply (bool_decide_unpack _). vm_compute. exact I.
  - apply owned_check; vm_compute; reflexivity.
Qed.

Lemma demo_detached : detached demo 5%positive.
Proof. split; [vm_compute; reflexivity|]. apply node_check; vm_compute; reflexivity. Qed.

Lemma demo_section : section_ok demo (Some 1%positive) [1%positive].
Proof.
  eexists. split_and!; [vm_compute; reflexivity|done|].
  intros c ->%list_elem_of_singleton. eexists. vm_compute. reflexivity.
Qed.

(** Targets, by evaluation over the instructions of the store. *)
Lemma targets_check w o b :
  map_Forall (fun q i => Forall (fun t => match t with Some t => is_Some (w_instr w !! t) | None => True end)
    (refs (m_class i))) (w_instr w) ->
  (m_branchInfo <$> w_instr w !! o = Some b) ->
  map_Forall (fun q i => Some o ∈ refs (m_class i) <-> match b with Some b => q ∈ b | None => False end) (w_instr w) ->
  (forall q, match b with Some b => q ∈ b | None => False end -> is_Some (w_instr w !! q)) ->
  map_Forall (fun q i => kind_ok i) (w_instr w) ->
  closed w /\ backlinks_at w o /\ forall q i, w_instr w !! q = Some i -> kind_ok i.
Proof.
  intros H1 H2 H3 H4 H5. split_and!; [| |exact H5].
  - intros p c t Hp Ht. unfold class_of in Hp. destruct (w_instr w !! p) as [i|] eqn:Hi; [|done].
    injection Hp as <-. specialize (H1 p i Hi). rewrite Forall_forall in H1. exact (H1 _ Ht).
  - destruct (w_instr w !! o) as [io|] eqn:Ho; [|done]. injection H2 as H2.
    exists io. split; [done|]. intros q. rewrite H2. split.
    + intros (c & Hc & Hin). unfold class_of in Hc. destruct (w_instr w !! q) as [i|] eqn:Hi; [|done].
      injection Hc as <-. apply (H3 q i Hi) in Hin. destruct b; naive_solver.
    + intros (b' & -> & Hq). destruct (H4 q Hq) as [i Hi]. exists (m_class i).
      unfold class_of. rewrite Hi. split; [done|]. by apply (H3 q i Hi).
Qed.

Ltac each_instr := cbn [w_instr demo list_to_map foldr fst snd uncurry];
  repeat (apply map_Forall_insert_2; [|]); try apply map_Forall_empty.

Lemma demo_targets : closed demo /\ backlinks_at demo 4%positive /\
  forall q i, w_instr demo !! q = Some i -> kind_ok i.
Proof.
  apply (targets_check demo 4%positive (Some {[2%positive]})).
  - each_instr; cbn; repeat constructor. eexists. vm_compute. reflexivity.
  - vm_compute. reflexivity.
  - each_instr; cbn; set_solver.
  - intros q ->%elem_of_singleton. eexists. vm_compute. reflexivity.
  - each_instr; (eexists; split; [vm_compute; reflexivity|]; cbn; try done).
Qed.
