(* ===== verification/Offsets.v ===== *)
(** Theory of the offsets: [RefreshInstructions] gives every instruction of the
    graph the sum of the sizes before it, computed on [DWORD]s, whatever the
    offsets were, and terminates although it and [GetOffset] call each other. *)
From S2P Require Import Prelude ILOpcodes Instruction Store Chain Demo.

(** The sizes of the instructions of a list. *)
Definition sized (m : gmap ptr CInstruction) : list ptr -> list Z -> Prop :=
  Forall2 (fun p s => exists i, m !! p = Some i /\ GetInstructionSize i = Ok s).

(** The specification: each instruction begins where the one before it ends. *)
Fixpoint placed (m : gmap ptr CInstruction) (off : Z) (l : list ptr) (ss : list Z) : Prop :=
  match l, ss with
  | [], [] => True
  | p :: l', s :: ss' => m_offset <$> m !! p = Some off /\ placed m (u32 (off + s)) l' ss'
  | _, _ => False
  end.

(** What a refresh leaves alone. *)
Definition unplaced (i : CInstruction) : CInstruction := set_offset 0 i.

Record reoffset (w w' : World) : Prop := {
  ro_instr : forall p, unplaced <$> w_instr w' !! p = unplaced <$> w_instr w !! p;
  ro_graph : forall g, set_stale false <$> w_graph w' !! g = set_stale false <$> w_graph w !! g;
  ro_clause : w_clause w' = w_clause w;
  ro_method : w_method w' = w_method w
}.

#[export] Instance reoffset_preorder : PreOrder reoffset.
Proof. split; [by split|]. intros w1 w2 w3 [] []. split; intros; congruence. Qed.

#[export] Instance reoffset_sym : Symmetric reoffset.
Proof. intros w1 w2 []. split; intros; congruence. Qed.

Lemma unplaced_fields i i' :
  unplaced i' = unplaced i ->
  m_opcode i' = m_opcode i /\ m_class i' = m_class i /\ m_pGraph i' = m_pGraph i /\
  m_pNextInstruction i' = m_pNextInstruction i /\ m_pPreviousInstruction i' = m_pPreviousInstruction i.
Proof. destruct i, i'. intros E. injection E. intros. subst. by split_and!. Qed.

Lemma unplaced_size i i' : unplaced i' = unplaced i -> GetInstructionSize i' = GetInstructionSize i.
Proof. intros (Ho & Hc & _)%unplaced_fields. unfold GetInstructionSize. by rewrite Ho, Hc. Qed.

Section Reoffset.
Context (w w' : World) (H : reoffset w w').

Lemma reoffset_lookup p i :
  w_instr w !! p = Some i -> exists i', w_instr w' !! p = Some i' /\ unplaced i' = unplaced i.
Proof using H.
  intros Hi. pose proof (ro_instr _ _ H p) as E. rewrite Hi in E.
  destruct (w_instr w' !! p); [|done]. injection E. eauto.
Qed.

Lemma reoffset_owner p : owner (w_instr w') p = owner (w_instr w) p.
Proof using H.
  pose proof (ro_instr _ _ H p) as E. unfold owner.
  destruct (w_instr w' !! p), (w_instr w !! p); try done.
  injection E as (_ & _ & E & _)%unplaced_fields. cbn. by rewrite E.
Qed.

Lemma reoffset_node p a b : node (w_instr w) p a b -> node (w_instr w') p a b.
Proof using H.
  intros (i & Hi & Ha & Hb). destruct (reoffset_lookup _ _ Hi) as (i' & Hi' & E%unplaced_fields).
  destruct E as (_ & _ & _ & En & Ep). exists i'. by rewrite En, Ep.
Qed.

Lemma reoffset_segment a l b : segment (w_instr w) a l b -> segment (w_instr w') a l b.
Proof using H. apply segment_mono. intros p x y _. apply reoffset_node. Qed.

Lemma reoffset_sized l ss : sized (w_instr w) l ss -> sized (w_instr w') l ss.
Proof using H.
  intros Hs. eapply Forall2_impl; [exact Hs|]. intros p s (i & Hi & Hsz).
  destruct (reoffset_lookup _ _ Hi) as (i' & Hi' & E). exists i'. split; [done|].
  by rewrite (unplaced_size _ _ E).
Qed.

Lemma reoffset_graph_list g l : graph_list w g l -> graph_list w' g l.
Proof using H.
  intros [(gr & Hgr & Hf & Hl) Hs Hn Ho]. split; [| |done|].
  - pose proof (ro_graph _ _ H g) as E. rewrite Hgr in E.
    destruct (w_graph w' !! g) as [gr'|]; [|done]. injection E as E. exists gr'.
    destruct gr, gr'. injection E. intros. subst. done.
  - by apply reoffset_segment.
  - intros p. by rewrite reoffset_owner.
Qed.

Lemma reoffset_graph_chain g l : graph_chain w g l -> graph_chain w' g l.
Proof using H.
  intros [(gr & Hgr & Hf) Hs Hn Ho]. split; [| |done|].
  - pose proof (ro_graph _ _ H g) as E. rewrite Hgr in E.
    destruct (w_graph w' !! g) as [gr'|]; [|done]. injection E as E. exists gr'.
    destruct gr, gr'. injection E. intros. subst. done.
  - by apply reoffset_segment.
  - intros p. by rewrite reoffset_owner.
Qed.

End Reoffset.

(** ** The loop, when the flag is clear *)

Definition clear (w : World) (g : ptr) : Prop := m_bAreInstructionsStale <$> w_graph w !! g = Some false.

#[export] Instance clear_dec w g : Decision (clear w g).
Proof. unfold clear. apply _. Defined.

Section Loop.
Context (g : ptr) (go : ptr -> W Z).
Hypothesis Hgo : forall w p i, w_instr w !! p = Some i -> m_pGraph i = Some g -> clear w g ->
  go p w = (Ok (m_offset i), w).

(** The offset the loop computes for the next instruction. *)
Definition next_offset (w : World) (prev : option ptr) (off : Z) : Prop :=
  match prev with
  | None => off = 0
  | Some q => exists i s, w_instr w !! q = Some i /\ m_pGraph i = Some g /\
                GetInstructionSize i = Ok s /\ off = u32 (m_offset i + s)
  end.

Lemma calc_loop_run l : forall a fuel w prev off ss,
  segment (w_instr w) a l None -> NoDup l ->
  (forall p, p ∈ l -> owner (w_instr w) p = Some (Some g)) ->
  sized (w_instr w) l ss -> (length l <= fuel)%nat -> clear w g ->
  next_offset w prev off -> (forall q, prev = Some q -> q ∉ l) ->
  exists w', calc_loop go fuel (first_or l None) prev w = (Ok tt, w') /\
    reoffset w w' /\ w_graph w' = w_graph w /\ placed (w_instr w') off l ss /\
    (forall q, q ∉ l -> w_instr w' !! q = w_instr w !! q).
Proof using Hgo.
  induction l as [|p l IH]; intros a fuel w prev off ss Hs Hnd Ho Hsz Hf Hcl Hnx Hq.
  { inversion Hsz; subst. exists w. destruct fuel; by split_and!. }
  destruct fuel as [|fuel]; [cbn in Hf; lia|]. inversion Hsz as [|? s ? ss' (i & Hi & Hsi) Hsz']; subst.
  apply NoDup_cons in Hnd as [Hpl Hnd]. destruct Hs as [Hnode Hs].
  destruct (node_lookup _ _ _ _ _ Hnode Hi) as [_ Hni].
  assert (m_pGraph i = Some g) as Hgi.
  { specialize (Ho p ltac:(set_solver)). rewrite (owner_Some _ _ _ Hi) in Ho. congruence. }
  cbn [first_or calc_loop].
  assert ((match prev with None => ret 0 | Some p0 => dwPrevOffset <- go p0 ;; pi <- load p0 ;;
      dwPrevLength <- lift (GetInstructionSize pi) ;; ret (u32 (dwPrevOffset + dwPrevLength)) end) w = (Ok off, w)) as E.
  { destruct prev as [q|]; [|by rewrite Hnx]. destruct Hnx as (iq & sq & Hiq & Hgq & Hsq & ->).
    erewrite run_bind by (by eapply Hgo). erewrite run_bind by (by apply run_load). by rewrite Hsq. }
  erewrite run_bind by exact E. unfold SetOffset. erewrite run_bind by apply run_update.
  set (w1 := on_instr (alter (set_offset off) p) w).
  assert (w_instr w1 !! p = Some (set_offset off i)) as Hi1 by (cbn; by rewrite lookup_alter_eq, Hi).
  erewrite run_bind by (by apply run_load).
  replace (m_pNextInstruction (set_offset off i)) with (first_or l None) by (by destruct i).
  assert (reoffset w w1) as Hr.
  { split; try done. intros q. cbn. rewrite lookup_alter. case_decide as Hqp; [subst q|done].
    rewrite Hi. by destruct i. }
  destruct (IH (Some p) fuel w1 (Some p) (u32 (off + s)) ss') as (w2 & Hw2 & Hr2 & Hg2 & Hp2 & Hout2);
    [by apply (reoffset_segment w)|done| |by apply (reoffset_sized w)|cbn in Hf; lia|done| | |].
  - intros q Hql. rewrite (reoffset_owner _ _ Hr). apply Ho. set_solver.
  - exists (set_offset off i), s. split_and!; [done|by destruct i|by destruct i|by destruct i].
  - intros q [= <-]. done.
  - exists w2. split_and!; [done|by transitivity w1|by rewrite Hg2| |].
    + split; [|done]. rewrite (Hout2 p Hpl), Hi1. by destruct i.
    + intros q [Hqp Hql]%not_elem_of_cons. rewrite Hout2 by done. cbn. by rewrite lookup_alter_ne.
Qed.

End Loop.

Lemma clear_refresh calc w g :
  clear w g -> RefreshInstructions_with calc g w = (Ok tt, w).
Proof.
  unfold clear, RefreshInstructions_with. destruct (w_graph w !! g) as [gr|] eqn:Hg; [|done].
  intros [= Hs]. erewrite run_bind by (by apply run_load_graph). by rewrite Hs.
Qed.

Lemma GetOffset_clear calc w g p i :
  w_instr w !! p = Some i -> m_pGraph i = Some g -> clear w g ->
  GetOffset_with (RefreshInstructions_with calc) p w = (Ok (m_offset i), w).
Proof.
  intros Hi Hg Hc. unfold GetOffset_with. erewrite run_bind by (by apply run_load).
  rewrite Hg. erewrite run_bind by (by apply clear_refresh).
  by erewrite run_bind by (by apply run_load).
Qed.

Lemma sized_cons m p l ss :
  sized m (p :: l) ss -> exists i s ss', ss = s :: ss' /\ m !! p = Some i /\
    GetInstructionSize i = Ok s /\ sized m l ss'.
Proof. intros H. inversion H as [|? s ? ss' (i & Hi & Hs) H']; subst. eauto 10. Qed.

(** The result of a recalculation. *)
Definition recalculated (w w' : World) (l : list ptr) (ss : list Z) : Prop :=
  reoffset w w' /\ placed (w_instr w') 0 l ss /\
  forall q, q ∉ l -> w_instr w' !! q = w_instr w !! q.

Lemma calc_offsets_clear d fuel w g l ss :
  graph_chain w g l -> sized (w_instr w) l ss -> (length l <= fuel)%nat -> clear w g ->
  exists w', calc_offsets (S d) fuel g w = (Ok tt, w') /\ recalculated w w' l ss /\ clear w' g.
Proof.
  intros H Hsz Hf Hcl. destruct (gc_graph _ _ _ H) as (gr & Hgr & Hfirst).
  cbn [calc_offsets]. erewrite run_bind by (by apply run_load_graph). rewrite Hfirst.
  destruct (calc_loop_run g _ (fun w p i => GetOffset_clear (calc_offsets d fuel) w g p i) l None fuel w None 0 ss)
    as (w' & Hw & Hr & Hg & Hp & Hout); try done; [apply H|apply H|intros p; apply H|].
  exists w'. split_and!; try done. unfold clear. by rewrite Hg.
Qed.

Lemma placed_head m off p l s ss :
  placed m off (p :: l) (s :: ss) -> exists i, m !! p = Some i /\ m_offset i = off.
Proof. intros [H _]. destruct (m !! p); [|done]. injection H. eauto. Qed.

(** ** The whole recalculation, with the flag set

    The flag is still set when [EncodeIL] and [DecodeInstructions] call
    [CalculateInstructionOffsets]: at the second instruction, [GetOffset] of the
    first one refreshes the graph, which clears the flag and runs the loop once
    more; the outer loop then goes on with the flag clear. *)

Lemma stale_update w g gr :
  w_graph w !! g = Some gr ->
  let w' := on_graph (alter (set_stale false) g) w in clear w' g /\ reoffset w w'.
Proof.
  intros Hg w'. split.
  - unfold clear. cbn. rewrite lookup_alter_eq, Hg. by destruct gr.
  - split; try done. intros h. cbn. rewrite lookup_alter. case_decide as Hh; [subst h|done].
    rewrite Hg. by destruct gr.
Qed.

Lemma refresh_stale d fuel w g l ss :
  graph_chain w g l -> sized (w_instr w) l ss -> (length l <= fuel)%nat -> ~ clear w g ->
  exists w', RefreshInstructions_with (calc_offsets (S d) fuel) g w = (Ok tt, w') /\
    recalculated w w' l ss /\ clear w' g.
Proof.
  intros H Hsz Hf Hst. destruct (gc_graph _ _ _ H) as (gr & Hgr & _).
  destruct (stale_update w g gr Hgr) as [Hcl Hr].
  unfold RefreshInstructions_with. erewrite run_bind by (by apply run_load_graph).
  assert (m_bAreInstructionsStale gr = true) as ->.
  { apply not_false_is_true. intros E. apply Hst. unfold clear. by rewrite Hgr, <- E. }
  erewrite run_bind by apply run_update_graph.
  destruct (calc_offsets_clear d fuel _ g l ss (reoffset_graph_chain _ _ Hr _ _ H)
    (reoffset_sized _ _ Hr _ _ Hsz) Hf Hcl) as (w' & Hw & (Hr' & Hp & Hout) & Hc').
  exists w'. split_and!; [done| |done]. split_and!; [by transitivity (on_graph (alter (set_stale false) g) w)|done|].
  intros q Hq. by rewrite Hout.
Qed.

Lemma calc_loop_skip go fuel c p w w' x :
  go p w = (Ok x, w') -> go p w' = (Ok x, w') ->
  calc_loop go (S fuel) (Some c) (Some p) w = calc_loop go (S fuel) (Some c) (Some p) w'.
Proof.
  intros H H'. cbn [calc_loop]. rewrite !bind_bind.
  by rewrite (run_bind _ _ _ _ _ H), (run_bind _ _ _ _ _ H').
Qed.

(** [GetOffset] of the first instruction while the flag is set. *)
Lemma GetOffset_stale d fuel w g p l s ss :
  graph_chain w g (p :: l) -> sized (w_instr w) (p :: l) (s :: ss) ->
  (length (p :: l) <= fuel)%nat -> ~ clear w g ->
  let go := GetOffset_with (RefreshInstructions_with (calc_offsets (S d) fuel)) in
  exists w', go p w = (Ok 0, w') /\ go p w' = (Ok 0, w') /\
    recalculated w w' (p :: l) (s :: ss) /\ clear w' g.
Proof.
  intros H Hsz Hf Hst go.
  destruct (refresh_stale d fuel w g _ _ H Hsz Hf Hst) as (w2 & Hw2 & (Hr & Hp & Hout) & Hc).
  destruct (graph_chain_elem w g (p :: l) p H (list_elem_of_here _ _)) as (i & Hi & Hg).
  destruct (placed_head _ _ _ _ _ _ Hp) as (i2 & Hi2 & Ho2).
  destruct (reoffset_lookup _ _ Hr _ _ Hi) as (i' & Hi' & (_ & _ & Hg2 & _)%unplaced_fields).
  rewrite Hi2 in Hi'. injection Hi' as <-. exists w2. subst go. split_and!; [| |done|done].
  - unfold GetOffset_with. erewrite run_bind by (by apply run_load). rewrite Hg.
    erewrite run_bind by exact Hw2. erewrite run_bind by (by apply run_load). by rewrite Ho2.
  - rewrite <- Ho2. apply (GetOffset_clear _ _ g); congruence.
Qed.

Lemma set_offset_reoffset w p off i :
  w_instr w !! p = Some i ->
  let w' := on_instr (alter (set_offset off) p) w in
  reoffset w w' /\ w_instr w' !! p = Some (set_offset off i) /\
  forall q, q <> p -> w_instr w' !! q = w_instr w !! q.
Proof.
  intros Hi w'. split_and!; [|cbn; by rewrite lookup_alter_eq, Hi|intros q Hq; cbn; by rewrite lookup_alter_ne].
  split; try done. intros q. cbn. rewrite lookup_alter. case_decide as Hqp; [subst q|done].
  rewrite Hi. by destruct i.
Qed.

Lemma calc_offsets_stale d fuel w g l ss :
  graph_chain w g l -> sized (w_instr w) l ss -> (length l <= fuel)%nat -> ~ clear w g ->
  exists w', calc_offsets (S (S d)) fuel g w = (Ok tt, w') /\ recalculated w w' l ss.
Proof.
  intros H Hsz Hf Hst. destruct (gc_graph _ _ _ H) as (gr & Hgr & Hfirst).
  remember (S d) as d1. cbn [calc_offsets].
  erewrite run_bind by (by apply run_load_graph). rewrite Hfirst.
  set (go := GetOffset_with _).
  destruct l as [|p l]. { inversion Hsz. exists w. by destruct fuel. }
  destruct fuel as [|fuel]; [cbn in Hf; lia|].
  destruct (sized_cons _ _ _ _ Hsz) as (i & s & ss' & -> & Hi & Hsi & Hsz').
  pose proof (gc_nodup _ _ _ H) as [Hpl Hnd]%NoDup_cons. pose proof (gc_segment _ _ _ H) as [Hnode _].
  destruct (node_lookup _ _ _ _ _ Hnode Hi) as [_ Hni]. destruct (set_offset_reoffset w p 0 i Hi) as (Hr & Hi1 & Hout1).
  cbn [first_or calc_loop]. rewrite (run_bind _ _ _ _ _ (eq_refl : ret 0 w = _)). unfold SetOffset.
  erewrite run_bind by apply run_update. set (w1 := on_instr (alter (set_offset 0) p) w) in *.
  erewrite run_bind by (by apply run_load).
  replace (m_pNextInstruction (set_offset 0 i)) with (first_or l None) by (by destruct i).
  pose proof (reoffset_graph_chain _ _ Hr _ _ H) as H1.
  destruct l as [|c l].
  { inversion Hsz'; subst. exists w1. split; [by destruct fuel|]. split_and!; [done| |].
    - split; [|done]. rewrite Hi1. by destruct i.
    - intros q Hq. apply Hout1. set_solver. }
  destruct fuel as [|fuel]; [cbn in Hf; lia|]. subst d1.
  destruct (GetOffset_stale d (S (S fuel)) w1 g p (c :: l) s ss' H1 (reoffset_sized _ _ Hr _ _ Hsz) Hf Hst)
    as (w2 & Hgo1 & Hgo2 & (Hr2 & Hp2 & Hout2) & Hc2).
  pose proof (reoffset_graph_chain _ _ Hr2 _ _ H1) as H2.
  cbn [first_or]. rewrite (calc_loop_skip _ _ _ _ _ _ _ Hgo1 Hgo2).
  destruct (placed_head _ _ _ _ _ _ Hp2) as (i2 & Hi2 & Ho2).
  pose proof (reoffset_sized _ _ Hr2 _ _ (reoffset_sized _ _ Hr _ _ Hsz)) as Hsz2.
  destruct (sized_cons _ _ _ _ Hsz2) as (i2' & s2 & ss2 & [= <- <-] & Hi2' & Hs2 & Hsz2'). simplify_eq.
  destruct (calc_loop_run g go (fun w p i => GetOffset_clear _ w g p i)
    (c :: l) (Some p) (S fuel) w2 (Some p) (u32 (0 + s)) ss')
    as (w3 & Hw3 & Hr3 & _ & Hp3 & Hout3); try done.
  - apply H2.
  - intros q Hq. apply H2. by right.
  - cbn in Hf |- *. lia.
  - exists i2, s. split_and!; [done| |done|by rewrite Ho2].
    apply (graph_chain_owned _ _ _ _ _ H2 (list_elem_of_here _ _) Hi2).
  - by intros q [= <-].
  - exists w3. split; [done|]. split_and!.
    + do 2 (etransitivity; [eassumption|]). done.
    + split; [|done]. rewrite Hout3, Hi2 by done. cbn. by rewrite Ho2.
    + intros q [Hq Hql]%not_elem_of_cons. rewrite Hout3 by done.
      rewrite Hout2 by (by apply not_elem_of_cons). by apply Hout1.
Qed.

(** ** The offsets as sums *)

Definition sum_sizes (ss : list Z) : Z := foldr Z.add 0 ss.

Lemma placed_lookup m l : forall off ss k p,
  placed m off l ss -> is_u32 off -> l !! k = Some p ->
  m_offset <$> m !! p = Some (u32 (off + sum_sizes (take k ss))).
Proof.
  induction l as [|q l IH]; intros off [|s ss] k p Hp Ho Hk; try done.
  destruct Hp as [Hq Hp]. destruct k as [|k]; cbn in Hk.
  - injection Hk as <-. rewrite Hq. cbn. by rewrite Z.add_0_r, u32_small.
  - rewrite (IH _ ss k p Hp (u32_range _) Hk). rewrite u32_idemp_l. cbn [take sum_sizes foldr].
    do 2 f_equal. unfold sum_sizes. lia.
Qed.

(** Whatever the offsets and the flag were, the recalculation returns with as much
    fuel as there are instructions and changes nothing but offsets. *)
Lemma CalculateInstructionOffsets_run w g l ss fuel :
  graph_list w g l -> sized (w_instr w) l ss -> (length l <= fuel)%nat -> (0 < fuel)%nat ->
  exists w', CalculateInstructionOffsets fuel g w = (Ok tt, w') /\
    graph_list w' g l /\ placed (w_instr w') 0 l ss /\ reoffset w w' /\
    forall q, q ∉ l -> w_instr w' !! q = w_instr w !! q.
Proof.
  intros H Hsz Hf Hpos. unfold CalculateInstructionOffsets. destruct fuel as [|d]; [lia|].
  assert (exists w', calc_offsets (S (S d)) (S d) g w = (Ok tt, w') /\ recalculated w w' l ss)
    as (w' & Hw & Hr & Hp & Hout).
  { pose proof (graph_list_chain _ _ _ H) as H'.
    destruct (decide (clear w g)); [|by eapply calc_offsets_stale].
    edestruct calc_offsets_clear as (w' & ? & ? & _); eauto. }
  exists w'. split_and!; try done. by eapply reoffset_graph_list.
Qed.

(** whatever the offsets and the flag were, [CalculateInstructionOffsets]
    returns (with as much fuel as there are instructions) and gives the [k]-th
    instruction the sum of the sizes of the [k] instructions before it, modulo 2^32,
    as its offset; it changes nothing else. *)
Theorem CalculateInstructionOffsets_places w g l ss fuel :
  graph_list w g l -> sized (w_instr w) l ss -> (length l <= fuel)%nat -> (0 < fuel)%nat ->
  exists w', CalculateInstructionOffsets fuel g w = (Ok tt, w') /\ graph_list w' g l /\ reoffset w w' /\
    (forall k p, l !! k = Some p -> m_offset <$> w_instr w' !! p = Some (u32 (sum_sizes (take k ss)))) /\
    forall q, q ∉ l -> w_instr w' !! q = w_instr w !! q.
Proof.
  intros H Hsz Hf Hpos. destruct (CalculateInstructionOffsets_run w g l ss fuel) as (w' & Hw & Hl & Hp & Hrest); try done.
  exists w'. destruct Hrest as [Hre Hout]. split_and!; try done. intros k p Hk.
  exact (placed_lookup _ _ _ _ _ _ Hp (ltac:(unfold is_u32; lia) : is_u32 0) Hk).
Qed.

Lemma demo_sized : sized (w_instr demo) [1; 2; 3; 4]%positive [1; 2; 1; 1].
Proof.
  repeat (apply Forall2_cons_2; [eexists; split; [vm_compute; reflexivity|]; vm_compute; reflexivity|]).
  apply Forall2_nil_2.
Qed.

Lemma CalculateInstructionOffsets_places_witness : exists w',
  CalculateInstructionOffsets 4 1 demo = (Ok tt, w') /\
  m_offset <$> w_instr w' !! 4%positive = Some 4.
Proof.
  destruct (CalculateInstructionOffsets_places demo 1 _ _ 4 demo_graph_list demo_sized)
    as (w' & H1 & _ & _ & H2 & _); [cbn; lia|lia|].
  exists w'. split; [exact H1|exact (H2 3%nat 4%positive eq_refl)].
Defined.

(** [GetOffset] of the [k]-th instruction of a graph that has been edited is
    the sum of the sizes of the instructions before it, modulo 2^32. *)
Theorem GetOffset_is_prefix_sum w g l ss k p fuel :
  graph_list w g l -> sized (w_instr w) l ss -> (length l <= fuel)%nat ->
  m_bAreInstructionsStale <$> w_graph w !! g = Some true -> l !! k = Some p ->
  exists w', GetOffset fuel p w = (Ok (u32 (sum_sizes (take k ss))), w') /\
    graph_list w' g l /\ reoffset w w' /\ clear w' g.
Proof.
  intros H Hsz Hf Hst Hk. pose proof (list_elem_of_lookup_2 _ _ _ Hk) as Hp.
  destruct (refresh_stale fuel fuel w g l ss (graph_list_chain _ _ _ H) Hsz Hf) as (w' & Hw & (Hr & Hpl & _) & Hc).
  { unfold clear. by rewrite Hst. }
  assert (is_u32 0) as H0 by (unfold is_u32; lia).
  pose proof (placed_lookup _ _ _ _ _ _ Hpl H0 Hk) as Ho.
  destruct (graph_list_elem _ _ _ _ H Hp) as (i & Hi & Hg).
  destruct (w_instr w' !! p) as [i'|] eqn:Hi'; [|done]. injection Ho as Ho.
  exists w'. split_and!; [|by eapply reoffset_graph_list|done|done].
  unfold GetOffset, GetOffset_with, RefreshInstructions, CalculateInstructionOffsets.
  erewrite run_bind by (by apply run_load). rewrite Hg. erewrite run_bind by exact Hw.
  erewrite run_bind by (by apply run_load). by rewrite Ho.
Qed.

Lemma GetOffset_is_prefix_sum_witness : exists w', GetOffset 4 4%positive demo = (Ok 4, w').
Proof.
  destruct (GetOffset_is_prefix_sum demo 1 _ _ 3 4%positive 4 demo_graph_list demo_sized)
    as (w' & H & _); [cbn; lia|reflexivity|reflexivity|].
  exists w'. exact H.
Defined.
