(* ===== verification/Graph.v ===== *)
(** [CInstructionGraph]: the operations that edit the instruction list
    ([InstructionGraph.cpp]) and its lookups.  The list is doubly linked through the
    store; what the edits do to the sequence of instructions is in [GraphSpec.v]. *)
From S2P Require Import Prelude ILOpcodes Instruction Store BranchTargets Clauses.

Section Operations.
Context (g : ptr).

Definition MarkInstructionsStale : W unit := update_graph g (set_stale true).

(** The check [pInstrOrig->GetGraph() == this]. *)
Definition check_graph (p : ptr) : W unit :=
  i <- load p ;; if_false_ret (bool_decide (m_pGraph i = Some g)) E_UNEXPECTED.

(** The linking part shared, word for word, by [InsertBefore] and
    [InsertBeforeAndRetargetOffsets]. *)
Definition link_before (pOrig pNew : ptr) : W unit :=
  pPrevious <- attempt (GetPreviousInstruction pOrig) ;;
  SetPreviousInstruction pOrig (Some pNew) false ;;;
  SetNextInstruction pNew (Some pOrig) false ;;;
  (match pPrevious with
   | Some pv =>
       if decide (pv = pNew) then ret tt
       else SetNextInstruction pv (Some pNew) false ;;;
            SetPreviousInstruction pNew (Some pv) false
   | None => update_graph g (set_first (Some pNew))
   end) ;;;
  MarkInstructionsStale.

(** [CInstructionGraph::InsertBefore] *)
Definition InsertBefore (pOrig pNew : option ptr) : W unit :=
  pOrig <- if_null_ret pOrig E_POINTER ;;
  pNew <- if_null_ret pNew E_POINTER ;;
  check_graph pOrig ;;;
  SetGraph pNew g ;;;
  link_before pOrig pNew.

(** The linking part of [InsertAfter]; a null [pOrig] links at the head. *)
Definition link_after (pOrig : option ptr) (pNew : ptr) : W unit :=
  SetPreviousInstruction pNew pOrig false ;;;
  pNext <- (match pOrig with
            | Some o =>
                check_graph o ;;;
                i <- load o ;;
                SetNextInstruction o (Some pNew) false ;;;
                ret (m_pNextInstruction i)
            | None => update_graph g (set_first (Some pNew)) ;;; ret None
            end) ;;
  (match pNext with
   | Some nx =>
       if decide (nx = pNew) then ret tt
       else SetPreviousInstruction nx (Some pNew) false ;;;
            SetNextInstruction pNew (Some nx) false
   | None => update_graph g (set_last (Some pNew))
   end) ;;;
  MarkInstructionsStale.

(** [CInstructionGraph::InsertAfter] *)
Definition InsertAfter (pOrig pNew : option ptr) : W unit :=
  pNew <- if_null_ret pNew E_POINTER ;;
  SetGraph pNew g ;;;
  link_after pOrig pNew.

(** The part after the links that [InsertBeforeAndRetargetOffsets] and [Replace]
    share: branches, then exception clauses. *)
Definition retarget_and_update (pOrig pNew : ptr) : W unit :=
  RetargetBranches pOrig pNew ;;;
  gr <- load_graph g ;;
  update_exceptions (m_pMethodInfo gr) pOrig (Some pNew).

(** [CInstructionGraph::InsertBeforeAndRetargetOffsets] *)
Definition InsertBeforeAndRetargetOffsets (pOrig pNew : option ptr) : W unit :=
  pOrig <- if_null_ret pOrig E_POINTER ;;
  pNew <- if_null_ret pNew E_POINTER ;;
  check_graph pOrig ;;;
  SetGraph pNew g ;;;
  link_before pOrig pNew ;;;
  retarget_and_update pOrig pNew.

(** The linking part of [Replace]. *)
Definition link_replace (pOrig pNew : ptr) : W unit :=
  oi <- load pOrig ;;
  let pPrevious := m_pPreviousInstruction oi in
  let pNext := m_pNextInstruction oi in
  SetIsRemoved pOrig ;;;
  (match pPrevious with
   | Some pv => SetNextInstruction pv (Some pNew) false ;;;
                SetPreviousInstruction pNew (Some pv) false
   | None => update_graph g (set_first (Some pNew))
   end) ;;;
  (match pNext with
   | Some nx => SetPreviousInstruction nx (Some pNew) false ;;;
                SetNextInstruction pNew (Some nx) false
   | None => update_graph g (set_last (Some pNew))
   end) ;;;
  MarkInstructionsStale.

(** [CInstructionGraph::Replace] *)
Definition Replace (pOrig pNew : option ptr) : W unit :=
  pOrig <- if_null_ret pOrig E_POINTER ;;
  pNew <- if_null_ret pNew E_POINTER ;;
  check_graph pOrig ;;;
  SetGraph pNew g ;;;
  link_replace pOrig pNew ;;;
  retarget_and_update pOrig pNew.

(** The linking part of [Remove]; it returns the former neighbours. *)
Definition unlink (p : ptr) : W (option ptr * option ptr) :=
  pPrevious <- attempt (GetPreviousInstruction p) ;;
  pNext <- attempt (GetNextInstruction p) ;;
  SetIsRemoved p ;;;
  (match pPrevious with
   | Some pv => SetNextInstruction pv pNext false
   | None => update_graph g (set_first pNext)
   end) ;;;
  (match pNext with
   | Some nx => SetPreviousInstruction nx pPrevious false
   | None => update_graph g (set_last pPrevious)
   end) ;;;
  MarkInstructionsStale ;;;
  ret (pPrevious, pNext).

(** [CInstructionGraph::Remove].  Branches to the removed instruction are not
    retargeted; the clauses that end or begin at it follow to the next
    instruction, or to the previous one when it was the last. *)
Definition Remove (pInstruction : option ptr) : W unit :=
  p <- if_null_ret pInstruction E_POINTER ;;
  check_graph p ;;;
  ends <- unlink p ;;
  gr <- load_graph g ;;
  match m_pMethodInfo gr with
  | None => ret tt
  | Some m =>
      cs <- GetExceptionSection m ;;
      match ends with
      | (None, None) => fail E_FAIL
      | (_, Some nx) => section_UpdateInstruction cs p (Some nx)
      | (Some pv, None) => section_UpdateInstruction cs p (Some pv)
      end
  end.

(** The loop of [CInstructionGraph::RemoveAll]. *)
Fixpoint remove_all_loop (fuel : nat) (pInstr : option ptr) : W unit :=
  match pInstr with
  | None => ret tt
  | Some p =>
      match fuel with
      | O => out_of_fuel
      | S fuel' =>
          SetIsRemoved p ;;;
          i <- load p ;;
          SetNextInstruction p None false ;;;
          SetPreviousInstruction p None false ;;;
          remove_all_loop fuel' (m_pNextInstruction i)
      end
  end.

(** [CInstructionGraph::RemoveAll] *)
Definition RemoveAll (fuel : nat) : W unit :=
  gr <- load_graph g ;;
  remove_all_loop fuel (m_pFirstInstruction gr) ;;;
  update_graph g (fun gr => set_last None (set_first None gr)) ;;;
  match m_pMethodInfo gr with
  | None => ret tt
  | Some m => RemoveAllExceptionClauses m
  end.

(** The loop of [CInstructionGraph::ExpandBranches]. *)
Fixpoint expand_loop (fuel : nat) (pCurrent : option ptr) : W unit :=
  match pCurrent with
  | None => ret tt
  | Some p =>
      match fuel with
      | O => out_of_fuel
      | S fuel' =>
          i <- load p ;;
          isBranch <- lift (GetIsBranchInternal i) ;;
          (if (isBranch : bool)
           then i' <- lift (ExpandBranch i) ;; update p (fun _ => i')
           else ret tt) ;;;
          i <- load p ;;
          expand_loop fuel' (m_pNextInstruction i)
      end
  end.

(** [CInstructionGraph::ExpandBranches] *)
Definition ExpandBranches (fuel : nat) : W unit :=
  gr <- load_graph g ;;
  expand_loop fuel (m_pFirstInstruction gr) ;;;
  MarkInstructionsStale.

(** ** Lookups *)

(** [CInstructionGraph::GetInstructionAtOffsetInternal] *)
Fixpoint at_offset_loop (gfuel fuel : nat) (offset : Z) (pCurr : option ptr) : W ptr :=
  match pCurr with
  | None => fail E_FAIL
  | Some p =>
      match fuel with
      | O => out_of_fuel
      | S fuel' =>
          currOffset <- GetOffset gfuel p ;;
          if currOffset =? offset then ret p
          else i <- load p ;; at_offset_loop gfuel fuel' offset (m_pNextInstruction i)
      end
  end.

Definition GetInstructionAtOffsetInternal (fuel : nat) (offset : Z) : W ptr :=
  gr <- load_graph g ;; at_offset_loop fuel fuel offset (m_pFirstInstruction gr).

(** [CInstructionGraph::GetInstructionAtEndOffset] *)
Fixpoint at_end_loop (gfuel fuel : nat) (offset : Z) (pCurr : option ptr) : W ptr :=
  match pCurr with
  | None => fail E_FAIL
  | Some p =>
      match fuel with
      | O => out_of_fuel
      | S fuel' =>
          currOffset <- GetOffset gfuel p ;;
          i <- load p ;;
          currSize <- lift (GetInstructionSize i) ;;
          if u32 (currOffset + currSize) =? offset then ret p
          else at_end_loop gfuel fuel' offset (m_pNextInstruction i)
      end
  end.

Definition GetInstructionAtEndOffset (fuel : nat) (offset : Z) : W ptr :=
  gr <- load_graph g ;; at_end_loop fuel fuel offset (m_pFirstInstruction gr).

(** [CInstructionGraph::GetInstructionAtOriginalOffsetInternal]: it follows the
    original links, except that it leaves a new instruction by its current link. *)
Fixpoint at_original_loop (gfuel fuel : nat) (offset : Z) (pCurr : option ptr) : W ptr :=
  match pCurr with
  | None => fail E_FAIL
  | Some p =>
      match fuel with
      | O => out_of_fuel
      | S fuel' =>
          currOffset <- GetOriginalOffset gfuel p ;;
          i <- load p ;;
          if GetIsNew i then at_original_loop gfuel fuel' offset (m_pNextInstruction i)
          else if currOffset =? offset then ret p
          else at_original_loop gfuel fuel' offset (m_pOriginalNextInstruction i)
      end
  end.

Definition GetInstructionAtOriginalOffsetInternal (fuel : nat) (offset : Z) : W ptr :=
  gr <- load_graph g ;; at_original_loop fuel fuel offset (m_pOrigFirstInstruction gr).

(** [CInstructionGraph::GetInstructionAtUninstrumentedOffset] *)
Definition GetInstructionAtUninstrumentedOffset (fuel : nat) (dwOffset : Z) : W ptr :=
  gr <- load_graph g ;;
  match m_pUninstrumentedFirstInstruction gr with
  | None => GetInstructionAtOriginalOffsetInternal fuel dwOffset
  | Some _ =>
      match List.find (fun m => oldOffset m =? dwOffset) (m_originalToBaselineIlMap gr) with
      | Some m => GetInstructionAtOffsetInternal fuel (newOffset m)
      | None => fail E_FAIL
      end
  end.

End Operations.
