(* ===== verification/GraphSpec.v ===== *)
(** What the edits of [CInstructionGraph] promise: each one implements an
    operation on the sequence of instructions, keeps the list well formed, and
    leaves everything else of the world alone. *)
From S2P Require Import Prelude ILOpcodes Instruction Store Chain BranchTargets Retarget Clauses Demo Graph.

(** ** The specification: operations on a sequence *)

Fixpoint insert_before (o n : ptr) (l : list ptr) : list ptr :=
  match l with
  | [] => []
  | p :: l' => if decide (p = o) then n :: p :: l' else p :: insert_before o n l'
  end.

Fixpoint insert_after (o n : ptr) (l : list ptr) : list ptr :=
  match l with
  | [] => []
  | p :: l' => if decide (p = o) then p :: n :: l' else p :: insert_after o n l'
  end.

Fixpoint replace_in (o n : ptr) (l : list ptr) : list ptr :=
  match l with
  | [] => []
  | p :: l' => if decide (p = o) then n :: l' else p :: replace_in o n l'
  end.

Fixpoint remove_from (o : ptr) (l : list ptr) : list ptr :=
  match l with
  | [] => []
  | p :: l' => if decide (p = o) then l' else p :: remove_from o l'
  end.

Lemma insert_before_split o n l1 l2 :
  o ∉ l1 -> insert_before o n (l1 ++ o :: l2) = l1 ++ n :: o :: l2.
Proof.
  induction l1 as [|p l1 IH]; intros Ho; cbn; [by rewrite decide_True|].
  apply not_elem_of_cons in Ho as [? ?]. rewrite decide_False by done. by rewrite IH.
Qed.

Lemma insert_after_split o n l1 l2 :
  o ∉ l1 -> insert_after o n (l1 ++ o :: l2) = l1 ++ o :: n :: l2.
Proof.
  induction l1 as [|p l1 IH]; intros Ho; cbn; [by rewrite decide_True|].
  apply not_elem_of_cons in Ho as [? ?]. rewrite decide_False by done. by rewrite IH.
Qed.

Lemma replace_in_split o n l1 l2 :
  o ∉ l1 -> replace_in o n (l1 ++ o :: l2) = l1 ++ n :: l2.
Proof.
  induction l1 as [|p l1 IH]; intros Ho; cbn; [by rewrite decide_True|].
  apply not_elem_of_cons in Ho as [? ?]. rewrite decide_False by done. by rewrite IH.
Qed.

Lemma remove_from_split o l1 l2 : o ∉ l1 -> remove_from o (l1 ++ o :: l2) = l1 ++ l2.
Proof.
  induction l1 as [|p l1 IH]; intros Ho; cbn; [by rewrite decide_True|].
  apply not_elem_of_cons in Ho as [? ?]. rewrite decide_False by done. by rewrite IH.
Qed.

(** An element of a list without duplicates splits it, and does not occur in
    either part. *)
Lemma nodup_split (l : list ptr) (o : ptr) :
  NoDup l -> o ∈ l -> exists l1 l2, l = l1 ++ o :: l2 /\ o ∉ l1 /\ o ∉ l2.
Proof.
  intros Hnd (l1 & l2 & ->)%list_elem_of_split. exists l1, l2. split; [done|].
  apply NoDup_app in Hnd as (_ & H1 & H2). apply NoDup_cons in H2 as [H2 _].
  split; [|done]. intros Ho. apply (H1 o Ho). set_solver.
Qed.

(** ** A claimed instruction

    [claimed w g l n]: the state between [SetGraph] and the end of the linking:
    [g] still represents [l], and owns [n] too. *)
Record claimed (w : World) (g : ptr) (l : list ptr) (n : ptr) : Prop := {
  cl_graph : exists gr, w_graph w !! g = Some gr /\
    m_pFirstInstruction gr = first_or l None /\ m_pLastInstruction gr = last_or l None;
  cl_segment : segment (w_instr w) None l None;
  cl_nodup : NoDup (n :: l);
  cl_owned : forall p, p ∈ n :: l <-> owner (w_instr w) p = Some (Some g);
  cl_new : node (w_instr w) n None None
}.

Definition stale (w : World) (g : ptr) : Prop :=
  m_bAreInstructionsStale <$> w_graph w !! g = Some true.

Lemma run_claim w g l n :
  graph_list w g l -> detached w n ->
  exists w', SetGraph n g w = (Ok tt, w') /\ claimed w' g l n /\ relinked g w w'.
Proof.
  intros H Hd. pose proof (detached_notin _ _ _ _ H Hd) as Hnl.
  destruct Hd as [Hg Hn]. eexists. split_and!.
  - by eapply run_SetGraph.
  - destruct H as [Hgr Hs Hnd Ho]. split; cbn.
    + done.
    + by apply segment_alter_notin.
    + by apply NoDup_cons.
    + intros p. destruct Hn as (i & Hi & _). rewrite owner_set_graph, elem_of_cons, Ho by eauto.
      case_decide; naive_solver.
    + apply node_keep; auto with cie.
  - apply relinked_instr, content_set_graph.
Qed.

Lemma run_check_graph g w p :
  owner (w_instr w) p = Some (Some g) -> check_graph g p w = (Ok tt, w).
Proof.
  unfold owner, check_graph. destruct (w_instr w !! p) as [i|] eqn:Hi; [|done]. intros [= Hg].
  erewrite run_bind by (by apply run_load). by rewrite Hg, bool_decide_eq_true_2.
Qed.

(** ** Automation for the linking code

    [links] proves what is known of a node or a segment after some assignments,
    peeling them off from the last one; [rstep] runs one statement. *)
Ltac notin :=
  rewrite ?not_elem_of_app, ?not_elem_of_cons; repeat split;
  first [assumption | apply not_elem_of_nil | congruence].

Ltac split_notin := rewrite ?not_elem_of_app, ?not_elem_of_cons, ?elem_of_nil in *; destruct_and?.

Ltac links :=
  cbn [w_instr w_graph on_instr on_graph];
  repeat first
    [ eassumption
    | apply node_ne; [congruence|]
    | eapply node_set_next
    | eapply node_set_prev
    | apply node_keep; [solve [auto with cie]|]
    | apply segment_alter_notin; [notin|]
    | apply segment_keep; [solve [auto with cie]|]
    | eapply segment_set_exit; [notin|]
    | eapply segment_set_entry; [notin|]
    | exact I
    | eapply segment_cons ].

Ltac rstep :=
  rewrite ?bind_bind;
  first
    [ erewrite run_bind;
      [|first [ apply run_SetNext | apply run_SetPrev | apply run_update_graph | apply run_update
              | eapply run_GetPrevious; solve [links]
              | eapply run_GetNext; solve [links]
              | eapply run_load_graph; eassumption ] ]
    | progress cbn beta iota delta [bind ret] ].

(** The assignments change links and ends only. *)
Ltac relink :=
  lazymatch goal with
  | |- relinked ?g _ (on_instr (alter ?f ?p) ?w) =>
      transitivity w; [relink | apply (relinked_instr g f p w); solve [auto with cie]]
  | |- relinked ?g _ (on_graph (alter ?f ?g) ?w) =>
      transitivity w; [relink | apply (relinked_graph g f w); by intros []]
  | |- _ => first [reflexivity | eassumption]
  end.

(** Who owns what, after assignments to links. *)
Ltac owned H := intros ?p; cbn [w_instr on_instr on_graph]; autorewrite with cie;
  rewrite <- H; repeat (rewrite elem_of_app || rewrite elem_of_cons || rewrite elem_of_nil); tauto.

(** The ends of the graph after assignments to them. *)
Ltac ends Hgr := cbn [w_graph on_instr on_graph]; rewrite ?lookup_alter_eq, Hgr;
  eexists; split; [reflexivity|];
  match type of Hgr with _ = Some ?gr => destruct gr; cbn in * end;
  rewrite ?last_or_app, ?first_or_app in *; cbn in *; try done.

Ltac staled Hgr := unfold stale; cbn [w_graph on_instr on_graph];
  rewrite ?lookup_alter_eq, Hgr; match type of Hgr with _ = Some ?gr => by destruct gr end.

Lemma nodup_mid (l1 l2 : list ptr) o : NoDup (l1 ++ o :: l2) -> o ∉ l1 /\ o ∉ l2.
Proof. rewrite <- Permutation_middle, NoDup_cons, not_elem_of_app. by intros [? _]. Qed.

Lemma nodup_insert (l1 l2 : list ptr) n : NoDup (n :: l1 ++ l2) -> NoDup (l1 ++ n :: l2).
Proof. by rewrite <- Permutation_middle. Qed.

Lemma nodup_prev (l1 l2 : list ptr) pv :
  NoDup ((l1 ++ [pv]) ++ l2) -> pv ∉ l1 /\ pv ∉ l2.
Proof. rewrite <- app_assoc. apply nodup_mid. Qed.

Lemma nodup_next (l1 l2 : list ptr) o nx :
  NoDup (l1 ++ o :: nx :: l2) -> nx ∉ l1 /\ nx <> o /\ nx ∉ l2.
Proof.
  intros Hnd. destruct (nodup_mid (l1 ++ [o]) l2 nx) as [H1 H2]; [by rewrite <- app_assoc|].
  rewrite not_elem_of_app, not_elem_of_cons in H1. tauto.
Qed.

Lemma link_before_spec w g l1 o l2 n :
  claimed w g (l1 ++ o :: l2) n ->
  exists w', link_before g o n w = (Ok tt, w') /\
    graph_list w' g (l1 ++ n :: o :: l2) /\ relinked g w w' /\ stale w' g.
Proof.
  intros [(gr & Hgr & Hf & Hl) Hs Hnd Ho Hnew].
  pose proof (segment_mid _ _ _ _ _ _ Hs) as Hmid.
  apply segment_app in Hs as [Hs1 Hs2]. cbn [first_or] in Hs1.
  pose proof (nodup_insert _ _ _ Hnd) as Hnd'.
  apply NoDup_cons in Hnd as [Hn Hnd]. pose proof (nodup_mid _ _ _ Hnd) as Hno.
  unfold link_before, MarkInstructionsStale.
  destruct l1 as [|pv l1 _] using rev_ind.
  - split_notin. rstep. do 2 rstep.
    cbn [last_or first_or app] in *. rstep. eexists. split_and!; [reflexivity| |relink|staled Hgr].
    split; [ends Hgr| |done|owned Ho].
    links.
  - rewrite last_or_rcons in *. pose proof (nodup_prev _ _ _ Hnd) as Hpv.
    split_notin. rstep. do 2 rstep.
    rewrite decide_False by congruence.
    do 2 rstep. eexists. split_and!; [reflexivity| |relink|staled Hgr].
    split; [ends Hgr| |done|owned Ho].
    apply segment_app. rewrite last_or_rcons. split; links.
Qed.

Lemma link_after_spec w g l1 o l2 n :
  claimed w g (l1 ++ o :: l2) n ->
  exists w', link_after g (Some o) n w = (Ok tt, w') /\
    graph_list w' g (l1 ++ o :: n :: l2) /\ relinked g w w' /\ stale w' g.
Proof.
  intros [(gr & Hgr & Hf & Hl) Hs Hnd Ho Hnew].
  pose proof (segment_mid _ _ _ _ _ _ Hs) as Hmid.
  change (o :: l2) with ([o] ++ l2) in Hs. rewrite app_assoc in Hs.
  apply segment_app in Hs as [Hs1 Hs2]. rewrite last_or_rcons in Hs2.
  assert (NoDup (l1 ++ o :: n :: l2)) as Hnd'.
  { change (o :: n :: l2) with ([o] ++ n :: l2). rewrite app_assoc.
    apply nodup_insert. by rewrite <- app_assoc. }
  apply NoDup_cons in Hnd as [Hn Hnd]. pose proof (nodup_mid _ _ _ Hnd) as Hno.
  assert (owner (w_instr w) o = Some (Some g)) as Hown by (apply Ho; set_solver).
  split_notin. unfold link_after, MarkInstructionsStale. rstep. rewrite bind_bind.
  erewrite run_bind by (apply run_check_graph; cbn; by autorewrite with cie).
  rewrite bind_bind.
  assert (node (w_instr (on_instr (alter (set_prev (Some o)) n) w)) o (last_or l1 None)
            (first_or l2 None)) as (oi & Hoi & _ & Hon) by links.
  erewrite run_bind by (by apply run_load). rewrite Hon. do 2 rstep.
  replace (l1 ++ o :: n :: l2) with ((l1 ++ [o]) ++ n :: l2) in * by by rewrite <- app_assoc.
  destruct l2 as [|nx l2].
  - cbn [first_or]. rstep. eexists. split_and!; [reflexivity| |relink|staled Hgr].
    split; [ends Hgr| |done|owned Ho].
    apply segment_app. rewrite last_or_rcons. split; links.
  - cbn [first_or]. split_notin. rewrite decide_False by congruence. do 2 rstep.
    pose proof (nodup_next _ _ _ _ Hnd) as Hnx. split_notin.
    eexists. split_and!; [reflexivity| |relink|staled Hgr].
    split; [ends Hgr| |done|owned Ho].
    apply segment_app. rewrite last_or_rcons. split; links.
Qed.

(** The removed flag of the instruction [Hi] looks up. *)
Ltac removed Hi := cbn [w_instr on_instr on_graph];
  rewrite ?lookup_alter_ne by congruence; rewrite lookup_alter_eq, Hi;
  match type of Hi with _ = Some ?i => by destruct i end.

Lemma link_replace_spec w g l1 o l2 n :
  claimed w g (l1 ++ o :: l2) n ->
  exists w', link_replace g o n w = (Ok tt, w') /\
    graph_list w' g (l1 ++ n :: l2) /\ relinked g w w' /\ stale w' g /\
    m_bIsRemoved <$> w_instr w' !! o = Some true.
Proof.
  intros [(gr & Hgr & Hf & Hl) Hs Hnd Ho Hnew].
  pose proof (segment_mid _ _ _ _ _ _ Hs) as Hmid.
  change (o :: l2) with ([o] ++ l2) in Hs. rewrite app_assoc in Hs.
  apply segment_app in Hs as [[Hs1 _]%segment_app Hs2]. rewrite last_or_rcons in Hs2. cbn [first_or app] in Hs1.
  pose proof Hnd as [Hn Hnd0]%NoDup_cons. pose proof (nodup_mid _ _ _ Hnd0) as Hno.
  assert (NoDup (l1 ++ n :: l2)) as Hnd'.
  { apply nodup_insert. change (n :: l1 ++ o :: l2) with ((n :: l1) ++ o :: l2) in Hnd.
    rewrite <- Permutation_middle in Hnd. apply NoDup_cons in Hnd. tauto. }
  destruct Hmid as (oi & Hoi & Hop & Hon). unfold link_replace, MarkInstructionsStale, SetIsRemoved.
  erewrite run_bind by (by apply run_load). rewrite Hop, Hon. rstep.
  assert (forall m p, (forall q, owner m q = owner (alter (fun i => set_graph None (set_removed true i)) o (w_instr w)) q) ->
     p ∈ l1 ++ n :: l2 <-> owner m p = Some (Some g)) as Hown.
  { intros m p ->. rewrite owner_SetIsRemoved by eauto. split_notin.
    case_decide; [subst; rewrite elem_of_app, elem_of_cons; naive_solver|].
    rewrite <- Ho, !elem_of_app, !elem_of_cons, !elem_of_app, !elem_of_cons. tauto. }
  assert (node (w_instr w) o (last_or l1 None) (first_or l2 None)) as Hmid by (exists oi; done).
  destruct l1 as [|pv l1 _] using rev_ind; [|pose proof (nodup_prev _ _ _ Hnd0) as Hpv; rewrite last_or_rcons in *];
    (destruct l2 as [|nx l2]; [|pose proof (nodup_next _ _ _ _ Hnd0) as Hnx]); split_notin;
    cbn [last_or first_or app] in *; repeat rstep;
    (eexists; split_and!; [reflexivity| |relink|staled Hgr|removed Hoi]);
    (split; [ends Hgr| |done|intros p; apply Hown; intros q; cbn [w_instr on_instr on_graph];
                                 autorewrite with cie; reflexivity]).
  - links.
  - links.
  - apply segment_app. rewrite last_or_rcons. split; links.
  - apply segment_app. rewrite last_or_rcons. split; links.
Qed.

Lemma unlink_spec w g l1 p l2 :
  graph_list w g (l1 ++ p :: l2) ->
  exists w', unlink g p w = (Ok (last_or l1 None, first_or l2 None), w') /\
    graph_list w' g (l1 ++ l2) /\ relinked g w w' /\ stale w' g /\
    m_bIsRemoved <$> w_instr w' !! p = Some true.
Proof.
  intros [(gr & Hgr & Hf & Hl) Hs Hnd Ho].
  pose proof (segment_mid _ _ _ _ _ _ Hs) as Hmid.
  change (p :: l2) with ([p] ++ l2) in Hs. rewrite app_assoc in Hs.
  apply segment_app in Hs as [[Hs1 _]%segment_app Hs2]. rewrite last_or_rcons in Hs2. cbn [first_or app] in Hs1.
  pose proof (nodup_mid _ _ _ Hnd) as Hno.
  assert (NoDup (l1 ++ l2)) as Hnd' by (rewrite <- Permutation_middle in Hnd; by apply NoDup_cons in Hnd as [_ ?]).
  pose proof Hmid as (oi & Hoi & _).
  assert (forall m q, (forall q, owner m q = owner (alter (fun i => set_graph None (set_removed true i)) p (w_instr w)) q) ->
     q ∈ l1 ++ l2 <-> owner m q = Some (Some g)) as Hown.
  { intros m q ->. rewrite owner_SetIsRemoved by eauto. split_notin.
    case_decide; [subst; rewrite elem_of_app; split; [tauto|done]|].
    rewrite <- Ho, !elem_of_app, !elem_of_cons. tauto. }
  unfold unlink, MarkInstructionsStale, SetIsRemoved.
  destruct l1 as [|pv l1 _] using rev_ind; [|pose proof (nodup_prev _ _ _ Hnd) as Hpv; rewrite last_or_rcons in *];
    (destruct l2 as [|nx l2]; [|pose proof (nodup_next _ _ _ _ Hnd) as Hnx]); split_notin;
    cbn [last_or first_or app] in *; repeat rstep;
    (eexists; split_and!; [reflexivity| |relink|staled Hgr|removed Hoi]);
    (split; [ends Hgr| |done|intros q; apply Hown; intros q'; cbn [w_instr on_instr on_graph];
                                 autorewrite with cie; reflexivity]).
  - links.
  - links.
  - rewrite app_nil_r. links.
  - apply segment_app. rewrite last_or_rcons. split; links.
Qed.

(** ** What the linking leaves alone *)

Lemma relinked_lookup g w w' p i :
  relinked g w w' -> w_instr w !! p = Some i ->
  exists i', w_instr w' !! p = Some i' /\ content i' = content i.
Proof.
  intros H Hi. pose proof (rl_instr _ _ _ H p) as E. rewrite Hi in E.
  destruct (w_instr w' !! p); [|done]. injection E. eauto.
Qed.

Lemma content_fields i i' :
  content i' = content i ->
  m_opcode i' = m_opcode i /\ m_class i' = m_class i /\ m_branchInfo i' = m_branchInfo i /\
  m_instructionGeneration i' = m_instructionGeneration i.
Proof. destruct i, i'. intros E. injection E. intros. subst. by split_and!. Qed.

Lemma relinked_sym g w w' : relinked g w w' -> relinked g w' w.
Proof. intros []. split; intros; symmetry; auto. Qed.

Lemma relinked_class g w w' p : relinked g w w' -> class_of w' p = class_of w p.
Proof.
  intros H. pose proof (rl_instr _ _ _ H p) as E. unfold class_of.
  destruct (w_instr w' !! p), (w_instr w !! p); try done. injection E as E%content_fields.
  cbn. f_equal. tauto.
Qed.

Lemma relinked_is_Some g w w' p :
  relinked g w w' -> is_Some (w_instr w !! p) -> is_Some (w_instr w' !! p).
Proof. intros H [i Hi]. destruct (relinked_lookup _ _ _ _ _ H Hi) as (? & ? & _). eauto. Qed.

(** The removed flags, for the edits that do not remove anything. *)
Definition same_removed (w w' : World) : Prop :=
  forall q, m_bIsRemoved <$> w_instr w' !! q = m_bIsRemoved <$> w_instr w !! q.

#[export] Instance same_removed_preorder : PreOrder same_removed.
Proof. split; [done|]. intros w1 w2 w3 H1 H2 q. by rewrite H2, H1. Qed.

Lemma sr_update p f :
  (forall i, m_bIsRemoved (f i) = m_bIsRemoved i) -> Preserves same_removed (update p f).
Proof.
  intros Hf w q. cbn. rewrite lookup_alter. case_decide as Hq; [subst q|done].
  destruct (w_instr w !! p); cbn; [by rewrite Hf|done].
Qed.

#[export] Instance sr_load p : Preserves same_removed (load p).
Proof. done. Qed.
#[export] Instance sr_update_graph g f : Preserves same_removed (update_graph g f).
Proof. done. Qed.
#[export] Instance sr_SetNext p q b : Preserves same_removed (SetNextInstruction p q b).
Proof. apply sr_update. intros []. cbn. by case_match. Qed.
#[export] Instance sr_SetPrev p q b : Preserves same_removed (SetPreviousInstruction p q b).
Proof. apply sr_update. intros []. cbn. by case_match. Qed.
#[export] Instance sr_SetGraph p g : Preserves same_removed (SetGraph p g).
Proof.
  unfold SetGraph. apply pres_bind; [apply _..|]. intros i. apply pres_bind; [apply _..|].
  intros _. apply sr_update. by intros [].
Qed.
#[export] Instance sr_link_before g o n : Preserves same_removed (link_before g o n).
Proof. unfold link_before, GetPreviousInstruction, MarkInstructionsStale. pres. Qed.

(** ** Targets and clauses of a world that is edited

    [targets_ok w o]: every target is an instruction, the back links of [o] are
    complete, and opcodes and classes agree: what retargeting needs to succeed. *)
Record targets_ok (w : World) (o : ptr) : Prop := {
  tk_closed : closed w;
  tk_back : backlinks_at w o;
  tk_kind : forall q i, w_instr w !! q = Some i -> kind_ok i
}.

Lemma relinked_targets_ok g w w' o : relinked g w w' -> targets_ok w o -> targets_ok w' o.
Proof.
  intros H [Hc (io & Hio & Hb) Hk]. split.
  - intros p c t Hp Ht. eapply relinked_is_Some; [done|]. eapply Hc; [|done].
    by rewrite <- (relinked_class _ _ _ p H).
  - destruct (relinked_lookup _ _ _ _ _ H Hio) as (io' & Hio' & (_ & _ & E & _)%content_fields).
    exists io'. split; [done|]. intros q. by rewrite E, <- Hb, (relinked_class _ _ _ q H).
  - intros q i' Hi'. apply relinked_sym in H.
    destruct (relinked_lookup _ _ _ _ _ H Hi') as (i & Hi & (Ho & Hcl & _)%content_fields).
    destruct (Hk q i Hi) as (r & Hr & Hm). exists r. by rewrite <- Ho, <- Hcl.
Qed.

Definition method_of (w : World) (g : ptr) : option ptr := w_graph w !! g ≫= m_pMethodInfo.

Lemma relinked_method_of g w w' : relinked g w w' -> method_of w' g = method_of w g.
Proof.
  intros H. pose proof (rl_this _ _ _ H) as E. unfold method_of.
  destruct (w_graph w' !! g) as [[]|], (w_graph w !! g) as [[]|]; try done. by injection E.
Qed.

Lemma relinked_section_ok g w w' m cs : relinked g w w' -> section_ok w m cs -> section_ok w' m cs.
Proof.
  intros H. unfold section_ok. destruct m; [|done].
  by rewrite (rl_clause _ _ _ H), (rl_method _ _ _ H).
Qed.

Lemma kept_section_ok w w' m cs : kept w w' -> section_ok w m cs -> section_ok w' m cs.
Proof.
  intros H. unfold section_ok. destruct m; [|done].
  by rewrite (kp_clause _ _ H), (kp_method _ _ H).
Qed.

(** What [InsertBeforeAndRetargetOffsets] and [Replace] do beyond the list. *)
Definition updated_clauses (cs : list ptr) (r : bool) (o : ptr) (n : option ptr) (w w' : World) : Prop :=
  forall c, w_clause w' !! c =
    if decide (c ∈ cs) then clause_update r o n <$> w_clause w !! c else w_clause w !! c.

(** The world [w'] is [w] with the branches of [o] retargeted to [n], up to clauses. *)
Definition retargeted (o n : ptr) (w w' : World) : Prop :=
  exists w1, RetargetBranches o n w = (Ok tt, w1) /\ kept w w1 /\ retargets o n w w1 /\
    w_instr w' = w_instr w1 /\ w_graph w' = w_graph w1 /\ w_method w' = w_method w1.

Lemma retarget_and_update_spec w g o n cs r :
  targets_ok w o -> is_Some (w_instr w !! n) -> n <> o -> is_Some (w_graph w !! g) ->
  section_ok w (method_of w g) cs -> m_bIsRemoved <$> w_instr w !! o = Some r ->
  exists w', retarget_and_update g o n w = (Ok tt, w') /\ retargeted o n w w' /\
    updated_clauses cs r o (Some n) w w'.
Proof.
  intros [Hc Hb Hk] Hn Hno [gr Hgr] Hs Hr. unfold retarget_and_update.
  destruct (RetargetBranches_run w o n) as (w1 & Hw1 & Hk1 & Hrt); [done..|].
  erewrite run_bind by exact Hw1.
  assert (w_graph w1 !! g = Some gr) as Hgr1 by (by rewrite (kp_graph _ _ Hk1)).
  erewrite run_bind by (by apply run_load_graph).
  destruct (w_instr w !! o) as [io|] eqn:Hio; [|done]. injection Hr as Hr.
  destruct (kept_lookup _ _ _ _ Hk1 Hio) as (io1 & Hio1 & (_ & _ & _ & _ & _ & Hrm)%shell_fields).
  destruct (update_exceptions_run (m_pMethodInfo gr) cs o (Some n) w1 io1) as (w2 & Hw2 & [Ui Ug Um Uc]).
  - apply (kept_section_ok w); [done|]. unfold method_of in Hs. by rewrite Hgr in Hs.
  - done.
  - congruence.
  - exists w2. split_and!; [done|by exists w1|].
    intros c. by rewrite Uc, Hrm, Hr, (kp_clause _ _ Hk1).
Qed.

(** Retargeting after the links of an edit have been set. *)
Lemma relinked_retarget w w2 g l o n cs r :
  relinked g w w2 -> graph_list w2 g l -> stale w2 g -> targets_ok w o -> is_Some (w_instr w !! n) ->
  n <> o -> section_ok w (method_of w g) cs -> m_bIsRemoved <$> w_instr w2 !! o = Some r ->
  exists w', retarget_and_update g o n w2 = (Ok tt, w') /\ graph_list w' g l /\ stale w' g /\
    retargets o n w w' /\ updated_clauses cs r o (Some n) w w' /\ retargeted o n w2 w'.
Proof.
  intros Hr Hl Hst Ht Hn Hno Hs Hrm.
  destruct (retarget_and_update_spec w2 g o n cs r) as (w3 & Hw3 & (w1 & Hw1 & Hk & Hrt & Hi3 & Hg3 & Hm3) & Huc);
    try done.
  - by eapply relinked_targets_ok.
  - by eapply relinked_is_Some.
  - destruct (gl_graph _ _ _ Hl) as (gr & Hgr & _). eauto.
  - rewrite (relinked_method_of _ _ _ Hr). by eapply relinked_section_ok.
  - exists w3. split_and!; [done| | | | |by exists w1].
    + apply (kept_graph_list _ _ _ _ Hk) in Hl as [Lg Ls Ln Lo]. split; rewrite ?Hi3, ?Hg3; done.
    + unfold stale. by rewrite Hg3, (kp_graph _ _ Hk).
    + intros q i Hi. destruct (relinked_lookup _ _ _ _ _ Hr Hi) as (i2 & Hi2 & (_ & <- & _ & <-)%content_fields).
      unfold class_of. rewrite Hi3. by apply Hrt.
    + intros c. by rewrite Huc, (rl_clause _ _ _ Hr).
Qed.

(** ** The refinement theorems *)

Lemma run_check_list w g l o : graph_list w g l -> o ∈ l -> check_graph g o w = (Ok tt, w).
Proof. intros H Ho. apply run_check_graph. by apply (gl_owned _ _ _ H). Qed.

Lemma InsertBefore_run w g l o n :
  graph_list w g l -> o ∈ l -> detached w n ->
  exists w', InsertBefore g (Some o) (Some n) w = (Ok tt, w') /\
    graph_list w' g (insert_before o n l) /\ relinked g w w' /\ stale w' g.
Proof.
  intros H Ho Hd. unfold InsertBefore. cbn [if_null_ret].
  destruct (run_claim _ _ _ _ H Hd) as (w1 & Hw1 & Hcl & Hr1).
  destruct (nodup_split _ _ (gl_nodup _ _ _ H) Ho) as (l1 & l2 & -> & Ho1 & _).
  destruct (link_before_spec _ _ _ _ _ _ Hcl) as (w2 & Hw2 & Hl & Hr2 & Hst).
  exists w2. split_and!; [|by rewrite insert_before_split|by transitivity w1|done].
  rewrite !(run_bind _ _ _ _ _ (eq_refl : ret _ w = _)).
  erewrite run_bind by (by eapply run_check_list). by erewrite run_bind by exact Hw1.
Qed.

(** C11: [InsertBefore] inserts the new instruction before the given one in the
    sequence the graph represents, keeps the doubly linked list well formed,
    marks the offsets stale, and changes nothing else: no opcode, operand, target
    or clause, and no other graph. *)
Theorem InsertBefore_refines w g l o n :
  graph_list w g l -> o ∈ l -> detached w n ->
  exists w', InsertBefore g (Some o) (Some n) w = (Ok tt, w') /\
    graph_list w' g (insert_before o n l) /\ relinked g w w' /\ stale w' g.
Proof. apply InsertBefore_run. Qed.

Lemma InsertBefore_refines_witness : exists w',
  InsertBefore 1 (Some 1%positive) (Some 5%positive) demo = (Ok tt, w') /\
  graph_list w' 1 [5; 1; 2; 3; 4]%positive.
Proof.
  destruct (InsertBefore_refines demo 1 [1; 2; 3; 4] 1 5 demo_graph_list ltac:(set_solver) demo_detached)%positive
    as (w' & H1 & H2 & _). exists w'. split; [exact H1|exact H2].
Defined.

Lemma InsertAfter_run w g l o n :
  graph_list w g l -> o ∈ l -> detached w n ->
  exists w', InsertAfter g (Some o) (Some n) w = (Ok tt, w') /\
    graph_list w' g (insert_after o n l) /\ relinked g w w' /\ stale w' g.
Proof.
  intros H Ho Hd. unfold InsertAfter. cbn [if_null_ret].
  destruct (run_claim _ _ _ _ H Hd) as (w1 & Hw1 & Hcl & Hr1).
  destruct (nodup_split _ _ (gl_nodup _ _ _ H) Ho) as (l1 & l2 & -> & Ho1 & _).
  destruct (link_after_spec _ _ _ _ _ _ Hcl) as (w2 & Hw2 & Hl & Hr2 & Hst).
  exists w2. split_and!; [|by rewrite insert_after_split|by transitivity w1|done].
  rewrite !(run_bind _ _ _ _ _ (eq_refl : ret _ w = _)).
  by erewrite run_bind by exact Hw1.
Qed.

(** [InsertAfter] inserts the new instruction after the given one. *)
Theorem InsertAfter_refines w g l o n :
  graph_list w g l -> o ∈ l -> detached w n ->
  exists w', InsertAfter g (Some o) (Some n) w = (Ok tt, w') /\
    graph_list w' g (insert_after o n l) /\ relinked g w w' /\ stale w' g.
Proof. apply InsertAfter_run. Qed.

Lemma InsertAfter_refines_witness : exists w',
  InsertAfter 1 (Some 4%positive) (Some 5%positive) demo = (Ok tt, w') /\
  graph_list w' 1 [1; 2; 3; 4; 5]%positive.
Proof.
  destruct (InsertAfter_refines demo 1 [1; 2; 3; 4] 4 5 demo_graph_list ltac:(set_solver) demo_detached)%positive
    as (w' & H1 & H2 & _). exists w'. split; [exact H1|exact H2].
Defined.

(** The part of [Replace] and [InsertBeforeAndRetargetOffsets] before the retargeting. *)
Lemma Replace_linked w g l o n :
  graph_list w g l -> o ∈ l -> detached w n ->
  exists w2, Replace g (Some o) (Some n) w = retarget_and_update g o n w2 /\
    graph_list w2 g (replace_in o n l) /\ relinked g w w2 /\ stale w2 g /\
    m_bIsRemoved <$> w_instr w2 !! o = Some true.
Proof.
  intros H Ho Hd. unfold Replace. cbn [if_null_ret].
  destruct (run_claim _ _ _ _ H Hd) as (w1 & Hw1 & Hcl & Hr1).
  destruct (nodup_split _ _ (gl_nodup _ _ _ H) Ho) as (l1 & l2 & -> & Ho1 & _).
  destruct (link_replace_spec _ _ _ _ _ _ Hcl) as (w2 & Hw2 & Hl & Hr2 & Hst & Hrm).
  exists w2. split_and!; [|by rewrite replace_in_split|by transitivity w1|done..].
  rewrite !(run_bind _ _ _ _ _ (eq_refl : ret _ w = _)).
  erewrite run_bind by (by eapply run_check_list). erewrite run_bind by exact Hw1.
  by erewrite run_bind by exact Hw2.
Qed.

Lemma InsertBeforeAndRetargetOffsets_linked w g l o n :
  graph_list w g l -> o ∈ l -> detached w n ->
  exists w2, InsertBeforeAndRetargetOffsets g (Some o) (Some n) w = retarget_and_update g o n w2 /\
    graph_list w2 g (insert_before o n l) /\ relinked g w w2 /\ stale w2 g /\ same_removed w w2.
Proof.
  intros H Ho Hd. unfold InsertBeforeAndRetargetOffsets. cbn [if_null_ret].
  destruct (run_claim _ _ _ _ H Hd) as (w1 & Hw1 & Hcl & Hr1).
  destruct (nodup_split _ _ (gl_nodup _ _ _ H) Ho) as (l1 & l2 & -> & Ho1 & _).
  destruct (link_before_spec _ _ _ _ _ _ Hcl) as (w2 & Hw2 & Hl & Hr2 & Hst).
  exists w2. split_and!; [|by rewrite insert_before_split|by transitivity w1|done|].
  - rewrite !(run_bind _ _ _ _ _ (eq_refl : ret _ w = _)).
    erewrite run_bind by (by eapply run_check_list). erewrite run_bind by exact Hw1.
    by erewrite run_bind by exact Hw2.
  - transitivity w1; [by eapply preserves_run; [apply sr_SetGraph|]|].
    by eapply preserves_run; [apply sr_link_before|].
Qed.

Lemma detached_other w g l o n : graph_list w g l -> o ∈ l -> detached w n -> n <> o /\ is_Some (w_instr w !! n).
Proof.
  intros H Ho Hd. pose proof (detached_notin _ _ _ _ H Hd). destruct Hd as [_ (i & Hi & _)].
  split; [set_solver|eauto].
Qed.

Lemma Replace_run w g l o n cs :
  graph_list w g l -> o ∈ l -> detached w n -> targets_ok w o ->
  section_ok w (method_of w g) cs ->
  exists w', Replace g (Some o) (Some n) w = (Ok tt, w') /\
    graph_list w' g (replace_in o n l) /\ stale w' g /\ retargets o n w w' /\
    updated_clauses cs true o (Some n) w w' /\
    (forall c x, c ∈ cs -> w_clause w' !! c = Some x -> Some o ∉ clause_refs x).
Proof.
  intros H Ho Hd Ht Hs. destruct (detached_other _ _ _ _ _ H Ho Hd) as [Hno Hn].
  destruct (Replace_linked w g l o n) as (w2 & E & Hl & Hr & Hst & Hrm); [done..|]. rewrite E.
  destruct (relinked_retarget w w2 g _ o n cs true Hr Hl Hst Ht Hn Hno Hs Hrm)
    as (w3 & Hw3 & Hl3 & Hst3 & Hrt & Huc & _).
  exists w3. split_and!; try done. intros c x Hc Hx. rewrite Huc, decide_True in Hx by done.
  destruct (w_clause w !! c); [|done]. injection Hx as <-. apply clause_update_removed. congruence.
Qed.

(** [Replace] puts the new instruction in the place of the old one, marks the
    old one as removed, makes every branch and switch of the world that targeted
    the old one target the new one (a new branch that targets the old instruction
    keeps its target), and moves every clause boundary of the method, so that no
    clause refers to the old instruction. *)
Theorem Replace_refines w g l o n cs :
  graph_list w g l -> o ∈ l -> detached w n -> targets_ok w o ->
  section_ok w (method_of w g) cs ->
  exists w', Replace g (Some o) (Some n) w = (Ok tt, w') /\
    graph_list w' g (replace_in o n l) /\ stale w' g /\ retargets o n w w' /\
    updated_clauses cs true o (Some n) w w' /\
    (forall c x, c ∈ cs -> w_clause w' !! c = Some x -> Some o ∉ clause_refs x).
Proof. apply Replace_run. Qed.

Lemma demo_targets_ok : targets_ok demo 4.
Proof. destruct demo_targets as (? & ? & ?). by split. Qed.

Lemma Replace_refines_witness : exists w',
  Replace 1 (Some 4%positive) (Some 5%positive) demo = (Ok tt, w') /\
  graph_list w' 1 [1; 2; 3; 5]%positive /\
  class_of w' 2%positive = Some (CBranch 4 (Some 5%positive) (Some 4%positive)).
Proof.
  destruct (Replace_refines demo 1 [1; 2; 3; 4] 4 5 [1] demo_graph_list ltac:(set_solver)
    demo_detached demo_targets_ok demo_section)%positive as (w' & H1 & H2 & _ & H3 & _).
  exists w'. split_and!; [exact H1|exact H2|]. exact (H3 2%positive _ eq_refl).
Defined.

Lemma InsertBeforeAndRetargetOffsets_run w g l o n cs io :
  graph_list w g l -> o ∈ l -> detached w n -> targets_ok w o ->
  section_ok w (method_of w g) cs -> w_instr w !! o = Some io ->
  exists w', InsertBeforeAndRetargetOffsets g (Some o) (Some n) w = (Ok tt, w') /\
    graph_list w' g (insert_before o n l) /\ stale w' g /\ retargets o n w w' /\
    updated_clauses cs (m_bIsRemoved io) o (Some n) w w'.
Proof.
  intros H Ho Hd Ht Hs Hio. destruct (detached_other _ _ _ _ _ H Ho Hd) as [Hno Hn].
  destruct (InsertBeforeAndRetargetOffsets_linked w g l o n) as (w2 & E & Hl & Hr & Hst & Hrm); [done..|]. rewrite E.
  destruct (relinked_retarget w w2 g _ o n cs (m_bIsRemoved io) Hr Hl Hst Ht Hn Hno Hs)
    as (w3 & Hw3 & Hl3 & Hst3 & Hrt & Huc & _); [by rewrite Hrm, Hio|].
  by exists w3.
Qed.



(** The clauses of a removed instruction [p] move to [x]. *)
Lemma removed_clauses_run w1 g l1 l2 p cs m :
  graph_list w1 g (l1 ++ l2) -> stale w1 g -> section_ok w1 (Some m) cs -> p ∉ l1 /\ p ∉ l2 ->
  m_bIsRemoved <$> w_instr w1 !! p = Some true ->
  forall x, x ∈ l1 ++ l2 -> exists w', section_UpdateInstruction cs p (Some x) w1 = (Ok tt, w') /\
    graph_list w' g (l1 ++ l2) /\ stale w' g /\ (forall q, class_of w' q = class_of w1 q) /\
    m_bIsRemoved <$> w_instr w' !! p = Some true /\ updated_clauses cs true p (Some x) w1 w'.
Proof.
  intros Hl Hst (mi & _ & _ & Hcs) Hp Hrm x Hx.
  destruct (w_instr w1 !! p) as [i|] eqn:Hi; [|done]. injection Hrm as Hrm.
  destruct (section_update_run cs p (Some x) w1 i Hcs Hi) as (w2 & Hw2 & [Ui Ug Um Uc]).
  { intros [= ->]. apply elem_of_app in Hx. tauto. }
  exists w2. destruct Hl. unfold stale, class_of in *. rewrite Ug, Ui, Hi. cbn. rewrite Hrm.
  split_and!; try done; [by split; rewrite ?Ui, ?Ug|]. intros c. by rewrite Uc, Hrm.
Qed.

Lemma Remove_run w g l1 p l2 cs :
  graph_list w g (l1 ++ p :: l2) -> section_ok w (method_of w g) cs ->
  exists w', Remove g (Some p) w =
      (if bool_decide (first_or l2 (last_or l1 None) = None) && negb (bool_decide (method_of w g = None))
       then Err E_FAIL else Ok tt, w') /\
    graph_list w' g (remove_from p (l1 ++ p :: l2)) /\ stale w' g /\
    (forall q, class_of w' q = class_of w q) /\
    m_bIsRemoved <$> w_instr w' !! p = Some true /\
    updated_clauses (match first_or l2 (last_or l1 None) with Some _ => cs | None => [] end)
      true p (first_or l2 (last_or l1 None)) w w'.
Proof.
  intros H Hs. pose proof (nodup_mid _ _ _ (gl_nodup _ _ _ H)) as [Hp1 Hp2].
  rewrite remove_from_split by done.
  destruct (unlink_spec _ _ _ _ _ H) as (w1 & Hw1 & Hl & Hr & Hst & Hrm).
  destruct (gl_graph _ _ _ Hl) as (gr & Hgr & _).
  assert (method_of w g = m_pMethodInfo gr) as Hm
    by (rewrite <- (relinked_method_of _ _ _ Hr); unfold method_of; by rewrite Hgr).
  rewrite Hm in *. pose proof (fun q => relinked_class _ _ _ q Hr) as Hcls.
  assert (forall r n, updated_clauses [] r p n w w1) as Hnone
    by (intros r n c; by rewrite (rl_clause _ _ _ Hr)).
  assert (forall (k : ptr * ptr -> W unit), Remove g (Some p) w =
    match m_pMethodInfo gr with
    | None => ret tt
    | Some m => cs <- GetExceptionSection m ;;
        match (last_or l1 None, first_or l2 None) with
        | (None, None) => fail E_FAIL
        | (_, Some nx) => section_UpdateInstruction cs p (Some nx)
        | (Some pv, None) => section_UpdateInstruction cs p (Some pv)
        end
    end w1) as E.
  { intros _. unfold Remove. cbn [if_null_ret]. rewrite (run_bind _ _ _ _ _ (eq_refl : ret _ w = _)).
    erewrite run_bind by (eapply run_check_list; [done|set_solver]). erewrite run_bind by exact Hw1.
    by erewrite run_bind by (by apply run_load_graph). }
  rewrite (E (fun _ => ret tt)). clear E.
  destruct (m_pMethodInfo gr) as [m|].
  2: { rewrite (bool_decide_eq_true_2 (None = None)), andb_false_r by done.
       cbn in Hs. subst cs. exists w1. split_and!; try done.
       destruct (first_or l2 (last_or l1 None)); apply Hnone. }
  rewrite (bool_decide_eq_false_2 (Some m = None)), andb_true_r by done.
  apply (relinked_section_ok _ _ _ _ _ Hr) in Hs as Hs1.
  erewrite run_bind by (by apply run_GetExceptionSection).
  pose proof (removed_clauses_run _ _ _ _ _ _ _ Hl Hst Hs1 (conj Hp1 Hp2) Hrm) as Hupd.
  assert (forall x, x ∈ l1 ++ l2 -> exists w', section_UpdateInstruction cs p (Some x) w1 = (Ok tt, w') /\
    graph_list w' g (l1 ++ l2) /\ stale w' g /\ (forall q, class_of w' q = class_of w q) /\
    m_bIsRemoved <$> w_instr w' !! p = Some true /\ updated_clauses cs true p (Some x) w w') as Hfin.
  { intros x Hx. destruct (Hupd x Hx) as (w2 & ? & ? & ? & Hc2 & ? & Hu). exists w2.
    split_and!; try done; [intros q; by rewrite Hc2|]. intros c. by rewrite Hu, (rl_clause _ _ _ Hr). }
  destruct l2 as [|nx l2]; cbn [first_or].
  - destruct (last_or l1 None) as [pv|] eqn:Hpv.
    + rewrite bool_decide_eq_false_2 by done. apply Hfin.
      rewrite app_nil_r. by apply last_or_elem.
    + exists w1. rewrite bool_decide_eq_true_2 by done. by split_and!.
  - rewrite bool_decide_eq_false_2 by done. replace (match last_or l1 None with Some _ => _ | None => _ end)
      with (section_UpdateInstruction cs p (Some nx)) by by destruct (last_or l1 None).
    apply Hfin. set_solver.
Qed.

(** C13: [Remove] takes the instruction out of the sequence and marks it removed.
    Clause boundaries at the instruction move to the next one, or to the previous
    one if it was the last.  Removing the only instruction of a graph that has a
    method fails with [E_FAIL], after the list has been emptied. *)
Theorem Remove_refines w g l1 p l2 cs :
  graph_list w g (l1 ++ p :: l2) -> section_ok w (method_of w g) cs ->
  exists w', Remove g (Some p) w =
      (if bool_decide (first_or l2 (last_or l1 None) = None) && negb (bool_decide (method_of w g = None))
       then Err E_FAIL else Ok tt, w') /\
    graph_list w' g (remove_from p (l1 ++ p :: l2)) /\ stale w' g /\
    (forall q, class_of w' q = class_of w q) /\
    m_bIsRemoved <$> w_instr w' !! p = Some true /\
    updated_clauses (match first_or l2 (last_or l1 None) with Some _ => cs | None => [] end)
      true p (first_or l2 (last_or l1 None)) w w'.
Proof. apply Remove_run. Qed.

Lemma Remove_refines_witness : exists w',
  Remove 1 (Some 3%positive) demo = (Ok tt, w') /\
  graph_list w' 1 [1; 2; 4]%positive /\
  m_pTryLastInstruction <$> w_clause w' !! 1%positive = Some (Some 4%positive).
Proof.
  destruct (Remove_refines demo 1 [1; 2] 3 [4] [1] demo_graph_list demo_section)%positive
    as (w' & H1 & H2 & _ & _ & _ & H3).
  exists w'. split_and!; [exact H1|exact H2|]. by rewrite (H3 1%positive).
Defined.

(** *** RemoveAll *)

Lemma remove_all_run fuel l a w :
  (length l <= fuel)%nat -> NoDup l -> segment (w_instr w) a l None ->
  exists w', remove_all_loop fuel (first_or l None) w = (Ok tt, w') /\
    w_graph w' = w_graph w /\ w_clause w' = w_clause w /\ w_method w' = w_method w /\
    (forall p, p ∈ l -> owner (w_instr w') p = Some None /\ node (w_instr w') p None None) /\
    (forall p, p ∉ l -> w_instr w' !! p = w_instr w !! p).
Proof.
  revert l a w. induction fuel as [|fuel IH]; intros [|p l] a w Hf Hnd Hs;
    try (exists w; split_and!; try done; set_solver); cbn in Hf; [lia|].
  cbn [first_or remove_all_loop]. apply NoDup_cons in Hnd as [Hp Hnd].
  destruct Hs as [(i & Hi & Hprev & Hnext) Hs]. unfold SetIsRemoved. rstep.
  erewrite run_bind.
  2: { apply run_load. cbn. rewrite lookup_alter_eq, Hi. reflexivity. }
  do 2 rstep. replace (m_pNextInstruction (set_graph None (set_removed true i)))
    with (first_or l None) by (by destruct i).
  match goal with |- context [remove_all_loop _ _ ?w1] =>
    destruct (IH l (Some p) w1) as (w2 & Hw2 & Hg & Hc & Hm & Hin & Hout); [lia|done|links|] end.
  exists w2. split_and!; try done.
  - intros q [->|Hq]%elem_of_cons; [|by apply Hin].
    unfold owner, node. rewrite (Hout p Hp). cbn. rewrite !lookup_alter_eq, Hi. destruct i. cbn in *.
    split; [done|]. eexists. split; [reflexivity|done].
  - intros q [Hq1 Hq2]%not_elem_of_cons. rewrite Hout by done. cbn. by rewrite !lookup_alter_ne.
Qed.

Lemma RemoveAll_run w g l cs fuel :
  graph_list w g l -> section_ok w (method_of w g) cs -> (length l <= fuel)%nat ->
  exists w', RemoveAll g fuel w = (Ok tt, w') /\ graph_list w' g [] /\
    (forall p, p ∈ l -> detached w' p) /\
    (forall m, method_of w g = Some m -> m_exceptionClauses <$> w_method w' !! m = Some (Some [])).
Proof.
  intros [(gr & Hgr & Hf & Hl) Hs Hnd Ho] Hsec Hfuel. unfold RemoveAll.
  erewrite run_bind by (by apply run_load_graph). rewrite Hf.
  destruct (remove_all_run fuel l None w) as (w1 & Hw1 & Hg1 & Hc1 & Hm1 & Hin & Hout); [done..|].
  erewrite run_bind by exact Hw1. erewrite run_bind by apply run_update_graph.
  set (w2 := on_graph _ w1).
  assert (graph_list w2 g []) as Hl2.
  { split; [|exact I|constructor|].
    - cbn. rewrite lookup_alter_eq, Hg1, Hgr. eexists. split; [reflexivity|]. by destruct gr.
    - intros p. cbn. split; [set_solver|]. intros Hp. destruct (decide (p ∈ l)) as [Hpl|Hpl].
      + destruct (Hin p Hpl). congruence.
      + unfold owner in Hp. rewrite Hout in Hp by done. exfalso. apply Hpl, Ho, Hp. }
  unfold method_of in *. rewrite Hgr in *. cbn in Hsec |- *.
  destruct (m_pMethodInfo gr) as [m|]; [|by exists w2].
  unfold RemoveAllExceptionClauses. erewrite run_bind.
  2: { apply (run_GetExceptionSection w2 m cs). destruct Hsec as (mi & ? & ? & ?).
       exists mi. cbn. by rewrite Hm1, Hc1. }
  eexists. split_and!; [reflexivity| |done|].
  - destruct Hl2. by split.
  - intros m' [= <-]. cbn. rewrite lookup_alter_eq, Hm1. destruct Hsec as (mi & -> & _). done.
Qed.

(** [RemoveAll] empties the sequence: every instruction of the graph is left
    unowned, unlinked and so can be inserted again, and the clauses of the method
    are gone.  As many steps as there are instructions are enough. *)
Theorem RemoveAll_empties w g l cs fuel :
  graph_list w g l -> section_ok w (method_of w g) cs -> (length l <= fuel)%nat ->
  exists w', RemoveAll g fuel w = (Ok tt, w') /\ graph_list w' g [] /\
    (forall p, p ∈ l -> detached w' p) /\
    (forall m, method_of w g = Some m -> m_exceptionClauses <$> w_method w' !! m = Some (Some [])).
Proof. apply RemoveAll_run. Qed.

Lemma RemoveAll_empties_witness : exists w',
  RemoveAll 1 4 demo = (Ok tt, w') /\ graph_list w' 1 [] /\ detached w' 3.
Proof.
  destruct (RemoveAll_empties demo 1 [1; 2; 3; 4] [1] 4 demo_graph_list demo_section)%positive
    as (w' & H1 & H2 & H3 & _); [cbn; lia|]. exists w'. split_and!; [exact H1|exact H2|apply H3; set_solver].
Defined.

(** *** Errors *)

Lemma run_check_fail g w o h :
  owner (w_instr w) o = Some h -> h <> Some g -> check_graph g o w = (Err E_UNEXPECTED, w).
Proof.
  unfold owner, check_graph. destruct (w_instr w !! o) as [i|] eqn:Hi; [|done]. intros [= <-] Hh.
  erewrite run_bind by (by apply run_load). by rewrite bool_decide_eq_false_2.
Qed.

Lemma run_SetGraph_fail p g w h :
  owner (w_instr w) p = Some (Some h) -> SetGraph p g w = (Err E_UNEXPECTED, w).
Proof.
  unfold owner, SetGraph. destruct (w_instr w !! p) as [i|] eqn:Hi; [|done]. intros [= Hh].
  erewrite run_bind by (by apply run_load). by rewrite Hh, bool_decide_eq_false_2.
Qed.

Lemma bind_Err {S A B} (m : M S A) (f : A -> M S B) s hr s' :
  m s = (Err hr, s') -> bind m f s = (Err hr, s').
Proof. unfold bind. by intros ->. Qed.

(** The edits that check the given instruction before they claim the new one
    are all or nothing on their argument errors: a null pointer, an instruction of
    another graph, or a new instruction that a graph owns already leaves the world
    unchanged. *)
Theorem edits_reject w g o n h :
  owner (w_instr w) o = Some h ->
  let edits := [InsertBefore g; InsertBeforeAndRetargetOffsets g; Replace g] in
  Forall (fun edit => edit None n w = (Err E_POINTER, w) /\ edit (Some o) None w = (Err E_POINTER, w) /\
    (h <> Some g -> forall n, edit (Some o) (Some n) w = (Err E_UNEXPECTED, w)) /\
    (h = Some g -> forall n h', owner (w_instr w) n = Some (Some h') ->
       edit (Some o) (Some n) w = (Err E_UNEXPECTED, w))) edits /\
  Remove g None w = (Err E_POINTER, w) /\
  (h <> Some g -> Remove g (Some o) w = (Err E_UNEXPECTED, w)).
Proof.
  intros Ho edits. subst edits. split_and!.
  - repeat (apply Forall_cons; split); [..|by apply Forall_nil].
    all: split_and!; [done|done|intros Hh ?|intros -> ? ? Hn];
      unfold InsertBefore, InsertBeforeAndRetargetOffsets, Replace; cbn [if_null_ret];
      rewrite !(run_bind _ _ _ _ _ (eq_refl : ret _ w = _)).
    all: try by erewrite bind_Err by (by eapply run_check_fail).
    all: erewrite run_bind by (by apply run_check_graph);
      by erewrite bind_Err by (by eapply run_SetGraph_fail).
  - done.
  - intros Hh. unfold Remove. cbn [if_null_ret]. rewrite (run_bind _ _ _ _ _ (eq_refl : ret _ w = _)).
    by erewrite bind_Err by (by eapply run_check_fail).
Qed.

Lemma edits_reject_witness :
  InsertBefore 1 (Some 5%positive) (Some 5%positive) demo = (Err E_UNEXPECTED, demo).
Proof.
  destruct (edits_reject demo 1 5 None None eq_refl)%positive as [H _].
  apply Forall_inv in H as (_ & _ & H & _). apply H. done.
Defined.

(** [InsertAfter] claims the new instruction before it checks the given one:
    with an instruction of another graph it fails with [E_UNEXPECTED], and the new
    instruction, now owned but in no list, is rejected by every later insertion. *)
Theorem InsertAfter_foreign_claims w g l o n h :
  graph_list w g l -> owner (w_instr w) o = Some h -> h <> Some g -> o <> n -> detached w n ->
  exists w', InsertAfter g (Some o) (Some n) w = (Err E_UNEXPECTED, w') /\
    owner (w_instr w') n = Some (Some g) /\ n ∉ l /\ ~ graph_list w' g l /\
    forall g' p, InsertAfter g' p (Some n) w' = (Err E_UNEXPECTED, w').
Proof.
  intros H Ho Hh Hon Hd. pose proof (detached_notin _ _ _ _ H Hd) as Hnl.
  destruct Hd as [Hg (ni & Hni & _)]. eexists. unfold InsertAfter at 1. cbn [if_null_ret].
  rewrite (run_bind _ _ _ _ _ (eq_refl : ret _ w = _)).
  erewrite run_bind by (by apply run_SetGraph). unfold link_after. rstep. rewrite bind_bind.
  set (w' := on_instr _ _).
  assert (forall q, owner (w_instr w') q = if decide (q = n) then Some (Some g) else owner (w_instr w) q) as How.
  { intros q. cbn. rewrite owner_set_prev, owner_set_graph by eauto. done. }
  assert (owner (w_instr w') n = Some (Some g)) as Hn' by (by rewrite How, decide_True).
  erewrite bind_Err.
  2: { eapply run_check_fail; [|done]. by rewrite How, decide_False. }
  split_and!; [reflexivity|done|done| |].
  - intros Hl. by apply Hnl, (gl_owned _ _ _ Hl).
  - intros g' p. unfold InsertAfter. cbn [if_null_ret].
    rewrite (run_bind _ _ _ _ _ (eq_refl : ret _ w' = _)).
    by erewrite bind_Err by (by eapply run_SetGraph_fail).
Qed.

(** [InsertAfter] of nothing on a graph that is not empty makes the new instruction the
    first and the last one: the four instructions of the sample graph are no longer in it. *)
Lemma InsertAfter_null_forgets : exists w' gr n,
  InsertAfter 1 None (Some 5%positive) demo = (Ok tt, w') /\
  w_graph w' !! 1%positive = Some gr /\ w_instr w' !! 5%positive = Some n /\
  m_pFirstInstruction gr = Some 5%positive /\ m_pLastInstruction gr = Some 5%positive /\ m_pNextInstruction n = None.
Proof. do 3 eexists. split; [vm_compute; reflexivity|]. by split_and!. Qed.

(** A second unowned instruction, for the witness. *)
Definition demo2 : World := on_instr (insert 6%positive (new_instruction Cee_Nop true CNone)) demo.

Lemma InsertAfter_foreign_claims_witness : exists w',
  InsertAfter 1 (Some 6%positive) (Some 5%positive) demo2 = (Err E_UNEXPECTED, w') /\
  owner (w_instr w') 5 = Some (Some 1%positive).
Proof.
  assert (graph_list demo2 1 [1; 2; 3; 4]%positive) as Hl.
  { split; [apply demo_graph_list| |apply demo_graph_list|apply owned_check; vm_compute; reflexivity].
    repeat (apply segment_cons; [apply node_check; vm_compute; reflexivity|]). exact I. }
  destruct (InsertAfter_foreign_claims demo2 1 [1; 2; 3; 4] 6 5 None Hl eq_refl)%positive
    as (w' & H1 & H2 & _); [done|done| |exists w'; split; [exact H1|exact H2]].
  split; [reflexivity|]. apply node_check; vm_compute; reflexivity.
Defined.
