(* ===== verification/BackLinks.v ===== *)
(** Theory of the back links: setting one target and retargeting all the branches of
    an instruction keep them exact for every instruction of the world, not only for
    the one whose branches move. *)
From S2P Require Import Prelude ILOpcodes Instruction Store Chain BranchTargets Retarget Clauses Demo Graph GraphSpec.

(** The branches that [CBranchTargetInfo] records for [o], and those that target it. *)
Definition back (w : World) (o : ptr) : gset ptr := default ∅ (w_instr w !! o ≫= m_branchInfo).

Definition targets (w : World) (q o : ptr) : Prop := exists c, class_of w q = Some c /\ Some o ∈ refs c.

Definition backs_ok (w : World) : Prop := forall o q, targets w q o <-> q ∈ back w o.

Lemma backs_ok_at w o : backs_ok w -> is_Some (w_instr w !! o) -> backlinks_at w o.
Proof.
  intros H [io Hio]. exists io. split; [done|]. intros q. etransitivity; [apply (H o q)|].
  unfold back. rewrite Hio. cbn. destruct (m_branchInfo io); cbn; [naive_solver|].
  split; [set_solver|naive_solver].
Qed.

Lemma back_update p b w x :
  is_Some (w_instr w !! p) ->
  back (on_instr (alter (set_branchInfo b) p) w) x = if decide (x = p) then default ∅ b else back w x.
Proof.
  intros [i Hi]. unfold back. cbn. case_decide as Hx; [subst x|by rewrite lookup_alter_ne].
  rewrite lookup_alter_eq, Hi. by destruct i.
Qed.

Lemma back_set_class p c w x : back (on_instr (alter (set_class c) p) w) x = back w x.
Proof.
  unfold back. cbn. rewrite lookup_alter. case_decide as Hx; [subst x|done].
  by destruct (w_instr w !! p) as [[]|].
Qed.

Lemma lookup_update_is_Some p f w x :
  is_Some (w_instr w !! x) -> is_Some (w_instr (on_instr (alter f p) w) !! x).
Proof. intros H. by apply lookup_alter_is_Some. Qed.

Lemma Remove_branch_back old b p w w' :
  is_Some (w_instr w !! old) -> Remove_branch old b p w = (Ok tt, w') ->
  forall x, back w' x = if decide (x = old) then b ∖ {[p]} else back w x.
Proof.
  intros Ho. unfold Remove_branch. erewrite run_bind by apply run_update.
  destruct (decide (b ∖ {[p]} = ∅)) as [E|]; intros [= <-] x.
  - rewrite !back_update by (try apply lookup_update_is_Some; done). cbn. repeat case_decide; congruence.
  - by rewrite back_update.
Qed.

(** What [CBranchTargetInfo::SetBranchTarget] does to the back links. *)
Lemma info_SetBranchTarget_back p t old w w' :
  is_Some (w_instr w !! t) -> (forall o, old = Some o -> is_Some (w_instr w !! o)) ->
  info_SetBranchTarget p (Some t) old w = (Ok tt, w') ->
  forall x q, q ∈ back w' x <-> (x = t /\ q = p) \/ (q ∈ back w x /\ ~ (old = Some x /\ q = p)).
Proof.
  intros Ht Ho. unfold info_SetBranchTarget.
  assert (exists w1, kept w w1 /\
    (forall x q, q ∈ back w1 x <-> q ∈ back w x /\ ~ (old = Some x /\ q = p)) /\
    forall k : unit -> W unit,
    bind (match old with None => ret tt | Some o => o' <- attempt (GetInstance o) ;;
      match o' with Some b => Remove_branch o b p | None => ret tt end end) k w = k tt w1)
    as (w1 & Hk & Hb1 & E).
  { destruct old as [o|]; [|exists w; split_and!; [reflexivity|naive_solver|done]].
    destruct (Ho o eq_refl) as [io Hio].
    destruct (m_branchInfo io) as [b|] eqn:Hb.
    - destruct (run_Remove_branch o b p w) as [w1 Hw1]. exists w1. split_and!.
      + by eapply preserves_run; [apply kept_Remove_branch|].
      + intros x q. rewrite (Remove_branch_back _ _ _ _ _ (mk_is_Some _ _ Hio) Hw1).
        case_decide; [subst x|naive_solver]. unfold back. rewrite Hio. cbn. rewrite Hb. cbn. set_solver.
      + intros k. rewrite bind_bind. erewrite run_bind by (by apply run_GetInstance). rewrite Hb.
        by erewrite run_bind.
    - exists w. split_and!; [reflexivity| |].
      + intros x q. split; [|tauto]. intros Hq. split; [done|]. intros [[= <-] ->].
        unfold back in Hq. rewrite Hio in Hq. cbn in Hq. rewrite Hb in Hq. set_solver.
      + intros k. rewrite bind_bind. erewrite run_bind by (by apply run_GetInstance). by rewrite Hb. }
  rewrite E. destruct (kept_is_Some _ _ _ Hk Ht) as [it Hit].
  unfold GetOrCreateInstance. rewrite bind_bind. erewrite run_bind by (by apply run_GetInstance).
  destruct (m_branchInfo it) as [b|] eqn:Hb; cbn; intros [= <-] x q.
  - rewrite back_update by eauto. rewrite <- Hb1. case_decide; [subst x|naive_solver].
    unfold back. rewrite Hit. cbn. rewrite Hb. cbn. set_solver.
  - rewrite !back_update by (try apply lookup_update_is_Some; eauto). rewrite <- Hb1.
    case_decide; [subst x|naive_solver].
    unfold back. rewrite Hit. cbn. rewrite Hb. cbn. set_solver.
Qed.

Lemma Branch_SetBranchTarget_back w p d tgt orig t w' :
  class_of w p = Some (CBranch d tgt orig) -> closed w -> is_Some (w_instr w !! t) ->
  Branch_SetBranchTarget p t w = (Ok tt, w') ->
  forall x q, q ∈ back w' x <-> (x = t /\ q = p) \/ (q ∈ back w x /\ ~ (tgt = Some x /\ q = p)).
Proof.
  intros Hp Hcl Ht. pose proof Hp as Hp'. unfold class_of in Hp'.
  destruct (w_instr w !! p) as [i|] eqn:Hi; [|done]. injection Hp' as Hc.
  unfold Branch_SetBranchTarget. erewrite run_bind by (by apply run_load). rewrite Hc.
  erewrite run_bind by apply run_update.
  set (w1 := on_instr _ w).
  assert (is_Some (w_instr w1 !! t)) as Ht1 by by apply lookup_update_is_Some.
  assert (forall o, tgt = Some o -> is_Some (w_instr w1 !! o)) as Ho1.
  { intros o ->. apply lookup_update_is_Some, (Hcl p _ _ Hp). set_solver. }
  destruct (run_info_SetBranchTarget w1 p t tgt Ht1 Ho1) as [w2 Hw2].
  pose proof (info_SetBranchTarget_back _ _ _ _ _ Ht1 Ho1 Hw2) as Hb.
  erewrite run_bind by exact Hw2.
  destruct (kept_lookup _ _ p _ (preserves_run _ _ _ _ _ (kept_info_SetBranchTarget _ _ _) Hw2)
    ltac:(cbn; rewrite lookup_alter_eq, Hi; reflexivity)) as (i2 & Hi2 & _).
  erewrite run_bind by (by apply run_load).
  assert (forall x q, q ∈ back w2 x <-> (x = t /\ q = p) \/ (q ∈ back w x /\ ~ (tgt = Some x /\ q = p))) as Hb2.
  { intros x q. rewrite Hb. by unfold w1; rewrite back_set_class. }
  destruct (bool_decide (orig = None) && _); intros [= <-] x q; [|apply Hb2].
  rewrite back_set_class. apply Hb2.
Qed.

Lemma Switch_SetBranchTarget_back w p ds ts k o t w' :
  class_of w p = Some (CSwitch ds ts) -> ts !! k = Some o -> closed w -> is_Some (w_instr w !! t) ->
  Switch_SetBranchTarget p (Z.of_nat k) t w = (Ok tt, w') ->
  forall x q, q ∈ back w' x <-> (x = t /\ q = p) \/ (q ∈ back w x /\ ~ (o = Some x /\ q = p)).
Proof.
  intros Hp Hk Hcl Ht. pose proof Hp as Hp'. unfold class_of in Hp'.
  destruct (w_instr w !! p) as [i|] eqn:Hi; [|done]. injection Hp' as Hc.
  unfold Switch_SetBranchTarget. erewrite run_bind by (by apply run_load). rewrite Hc.
  rewrite (switch_target_lookup _ _ _ Hk). unfold lift at 1, bind at 1.
  erewrite run_bind by apply run_update. rewrite Nat2Z.id. intros Hw'.
  pose proof (fun H1 H2 => info_SetBranchTarget_back _ _ _ _ _ H1 H2 Hw') as Hb.
  intros x q. rewrite Hb; [by rewrite back_set_class| |].
  - by apply lookup_update_is_Some.
  - intros o' ->. apply lookup_update_is_Some, (Hcl p _ _ Hp). by eapply list_elem_of_lookup_2.
Qed.

(** Setting the target of a branch keeps them exact. *)
Lemma Branch_SetBranchTarget_backs w p d tgt orig t w' :
  class_of w p = Some (CBranch d tgt orig) -> closed w -> backs_ok w -> is_Some (w_instr w !! t) ->
  Branch_SetBranchTarget p t w = (Ok tt, w') -> closed w' /\ backs_ok w'.
Proof.
  intros Hp Hcl Hb Ht Hw'. pose proof Hp as Hp'. unfold class_of in Hp'.
  destruct (w_instr w !! p) as [i|] eqn:Hi; [|done]. injection Hp' as Hc.
  destruct (Branch_SetBranchTarget_run w p i d tgt orig t Hi Hc Hcl Ht) as (w2 & Hw2 & Hk & Hcp & Hcq).
  rewrite Hw' in Hw2. injection Hw2 as <-. split.
  { eapply (sets_class_closed w); try done. cbn. intros x ->%list_elem_of_singleton%(inj Some). done. }
  intros x q. rewrite (Branch_SetBranchTarget_back _ _ _ _ _ _ _ Hp Hcl Ht Hw'), <- (Hb x q).
  unfold targets. destruct (decide (q = p)) as [->|Hq].
  - rewrite Hcp, Hp. split.
    + intros (c & [= <-] & [= ->]%list_elem_of_singleton). by left.
    + intros [[-> _]|[(c & [= <-] & <-%list_elem_of_singleton) []]]; [|done].
      eexists. split; [done|]. by apply list_elem_of_singleton.
  - rewrite (Hcq q Hq). naive_solver.
Qed.

(** The loop of [ReplaceBranchTarget] on a switch that the back links of the old
    target no longer have. *)
Lemma replace_loop_back o n p ds todo done w w' :
  class_of w p = Some (CSwitch ds (map (subst_target o n) done ++ todo)) ->
  closed w -> is_Some (w_instr w !! n) -> p ∉ back w o -> n <> o ->
  replace_loop p o n (Z.of_nat (length done)) (length todo) w = (Ok tt, w') ->
  forall x q, q ∈ back w' x <-> (x = n /\ q = p /\ Some o ∈ todo) \/ q ∈ back w x.
Proof.
  revert done w. induction todo as [|x todo IH]; intros done w Hp Hcl Hn Hpo Hno; cbn [length replace_loop].
  { intros [= <-]. set_solver. }
  pose proof Hp as Hp'. unfold class_of in Hp'.
  destruct (w_instr w !! p) as [i|] eqn:Hi; [|done]. injection Hp' as Hc.
  erewrite run_bind by (by apply run_load). rewrite Hc.
  assert ((map (subst_target o n) done ++ x :: todo) !! length done = Some x) as Hx.
  { rewrite lookup_app_r by (by rewrite length_map). by rewrite length_map, Nat.sub_diag. }
  rewrite (switch_target_lookup _ _ _ Hx). unfold lift, bind at 1.
  assert (exists w1, (if bool_decide (x = Some o) then Switch_SetBranchTarget p (Z.of_nat (length done)) n else ret tt) w
      = (Ok tt, w1) /\ class_of w1 p = Some (CSwitch ds (map (subst_target o n) (done ++ [x]) ++ todo)) /\
      closed w1 /\ kept w w1 /\
      forall y q, q ∈ back w1 y <-> (y = n /\ q = p /\ x = Some o) \/ q ∈ back w y)
    as (w1 & Hw1 & Hp1 & Hcl1 & Hk1 & Hb1).
  { rewrite map_app, <- app_assoc. cbn. unfold subst_target at 2.
    case_bool_decide as Hxo; [subst x|rewrite decide_False by done; exists w; split_and!; try done; naive_solver].
    rewrite decide_True by done.
    destruct (Switch_SetBranchTarget_run w p ds _ _ _ n Hp Hx Hcl Hn) as (w1 & Hw1 & Hk1 & Hc1 & Hq1).
    exists w1. split_and!; [done| | |done|].
    - rewrite Hc1. rewrite insert_app_r_alt by (by rewrite length_map). by rewrite length_map, Nat.sub_diag.
    - eapply (sets_class_closed w); try done. intros t Ht.
      destruct (decide (t = n)) as [->|Htn]; [done|]. apply (Hcl p _ _ Hp). cbn in Ht |- *.
      rewrite insert_app_r_alt, length_map, Nat.sub_diag in Ht by (by rewrite length_map).
      cbn in Ht. rewrite elem_of_app, elem_of_cons in *. naive_solver.
    - intros y q. rewrite (Switch_SetBranchTarget_back _ _ _ _ _ _ _ _ Hp Hx Hcl Hn Hw1). naive_solver. }
  erewrite run_bind by exact Hw1.
  replace (Z.of_nat (length done) + 1) with (Z.of_nat (length (done ++ [x]))) by (rewrite length_app; cbn; lia).
  intros Hw' y q. rewrite (IH (done ++ [x]) w1 Hp1 Hcl1); [|by eapply kept_is_Some| |done|exact Hw'].
  - rewrite Hb1, elem_of_cons. naive_solver.
  - rewrite Hb1. naive_solver.
Qed.

(** ** Retargeting *)

(** Where the references to [o] of the instruction [p] go. *)
Definition destination (o n p : ptr) (c : InstrClass) : ptr :=
  match c with CBranch _ _ _ => if decide (p = n) then o else n | _ => n end.

Lemma retarget_refs o n p gen c x :
  Some o ∈ refs c -> n <> o ->
  Some x ∈ refs (retarget_class o n p gen c) <-> x = destination o n p c \/ (x <> o /\ Some x ∈ refs c).
Proof.
  intros Ho Hno. destruct c as [| |d t orig|ds ts]; cbn in *; try set_solver.
  - apply list_elem_of_singleton in Ho as <-. rewrite decide_True by done. cbn.
    rewrite !list_elem_of_singleton. case_decide; naive_solver.
  - rewrite list_elem_of_fmap. unfold subst_target. split.
    + intros (y & Hy & Hin). case_decide; naive_solver.
    + intros [->|[Hx Hin]]; [exists (Some o); by rewrite decide_True|].
      exists (Some x). by rewrite decide_False by congruence.
Qed.

Lemma retarget_one_back w o n p i w' :
  w_instr w !! p = Some i -> kind_ok i -> Some o ∈ refs (m_class i) -> closed w ->
  is_Some (w_instr w !! n) -> n <> o -> p ∉ back w o -> retarget_one o n p w = (Ok tt, w') ->
  forall x q, q ∈ back w' x <-> (x = destination o n p (m_class i) /\ q = p) \/ q ∈ back w x.
Proof.
  intros Hi (r & Hr & Hkind) Ho Hcl Hn Hno Hpo.
  assert (class_of w p = Some (m_class i)) as Hcp by (unfold class_of; by rewrite Hi).
  unfold retarget_one. erewrite run_bind by (by apply run_load).
  unfold GetIsBranchInternal. rewrite Hr. cbn [obind]. unfold lift, bind at 1.
  destruct (m_class i) as [| |d tgt orig|ds ts] eqn:Hc; cbn [refs destination] in *; try set_solver.
  - rewrite Hkind. apply list_elem_of_singleton in Ho as <-.
    assert (is_Some (w_instr w !! o)) as Hos by (eapply Hcl; [done|]; set_solver).
    intros Hw' x q. destruct (decide (p = n)).
    + rewrite (Branch_SetBranchTarget_back _ _ _ _ _ _ _ Hcp Hcl Hos Hw'). naive_solver.
    + rewrite (Branch_SetBranchTarget_back _ _ _ _ _ _ _ Hcp Hcl Hn Hw'). naive_solver.
  - destruct (row_facts _ _ Hr) as (_ & _ & _ & _ & _ & Hbr).
    destruct (IsFlagSet (m_flags r) ILOpcodeFlag_Branch); [destruct (Hbr eq_refl); tauto|].
    unfold GetIsSwitchInternal. rewrite Hkind, Z.eqb_refl.
    unfold Switch_ReplaceBranchTarget. erewrite run_bind by (by apply run_load). rewrite Hc.
    assert (0 <? Z.of_nat (length ts) = true) as ->
      by (apply Z.ltb_lt; destruct ts; cbn; [set_solver|lia]).
    cbn [if_false_ret]. unfold ret at 1, bind at 1. intros Hw' x q.
    rewrite (replace_loop_back o n p ds ts [] w w' Hcp Hcl Hn Hpo Hno Hw'). naive_solver.
Qed.

(** The back links are exact, except that those of [o] miss the instructions [bs]. *)
Record exact_but (w : World) (o : ptr) (bs : list ptr) : Prop := {
  eb_other : forall x q, x <> o -> (targets w q x <-> q ∈ back w x);
  eb_this : forall q, q ∉ bs -> (targets w q o <-> q ∈ back w o);
  eb_rest : forall q, q ∈ bs -> q ∉ back w o
}.

Lemma retarget_one_exact w o n b bs i w1 :
  exact_but w o (b :: bs) -> b ∉ bs -> w_instr w !! b = Some i -> kind_ok i -> Some o ∈ refs (m_class i) ->
  closed w -> is_Some (w_instr w !! n) -> n <> o -> retarget_one o n b w = (Ok tt, w1) ->
  exact_but w1 o bs.
Proof.
  intros [Ho Ht Hr] Hb Hi Hk Hob Hcl Hn Hno Hw1.
  pose proof (retarget_one_back _ _ _ _ _ _ Hi Hk Hob Hcl Hn Hno (Hr b (list_elem_of_here _ _)) Hw1) as Hback.
  destruct (retarget_one_run w o n b i Hi Hk Hob Hcl Hn) as (w2 & Hw2 & _ & Hc & Hcq).
  rewrite Hw1 in Hw2. injection Hw2 as <-.
  assert (forall x, targets w1 b x <-> x = destination o n b (m_class i) \/ (x <> o /\ targets w b x)) as Htb.
  { intros x. unfold targets. rewrite Hc. unfold class_of. rewrite Hi. cbn.
    pose proof (retarget_refs o n b (m_instructionGeneration i) (m_class i) x Hob Hno). naive_solver. }
  assert (forall q x, q <> b -> targets w1 q x <-> targets w q x) as Htq
    by (intros q x Hq; unfold targets; by rewrite (Hcq q Hq)).
  split.
  - intros x q Hx. rewrite Hback, <- (Ho x q Hx).
    destruct (decide (q = b)) as [->|Hq]; [rewrite Htb|rewrite Htq by done]; naive_solver.
  - intros q Hq. rewrite Hback. destruct (decide (q = b)) as [->|Hqb].
    + rewrite Htb. specialize (Hr b). set_solver.
    + rewrite Htq by done. rewrite (Ht q) by set_solver. naive_solver.
  - intros q Hq. rewrite Hback. specialize (Hr q). set_solver.
Qed.

Lemma retarget_loop_exact o n bs w w' :
  NoDup bs -> closed w -> is_Some (w_instr w !! n) -> is_Some (w_instr w !! o) -> n <> o ->
  exact_but w o bs ->
  (forall q, q ∈ bs -> exists i, w_instr w !! q = Some i /\ kind_ok i /\ Some o ∈ refs (m_class i)) ->
  retarget_loop o n bs w = (Ok tt, w') -> closed w' /\ backs_ok w'.
Proof.
  revert w. induction bs as [|b bs IH]; intros w Hnd Hcl Hn Ho Hno He Hbs; cbn [retarget_loop].
  { intros [= <-]. split; [done|]. intros x q. destruct He as [He1 He2 _].
    destruct (decide (x = o)) as [->|]; [apply He2, not_elem_of_nil|by apply He1]. }
  apply NoDup_cons in Hnd as [Hb Hnd].
  destruct (Hbs b) as (ib & Hib & Hkb & Hrb); [set_solver|].
  destruct (retarget_one_run w o n b ib) as (w1 & Hw1 & Hk1 & Hc1 & Hq1); [done..|].
  erewrite run_bind by exact Hw1. apply IH; [done| | | |done| |].
  - eapply (sets_class_closed w); try done. intros t [->|[->|Ht]]%retarget_refs_closed; [done..|].
    eapply (Hcl b); [|done]. unfold class_of. by rewrite Hib.
  - by eapply kept_is_Some.
  - by eapply kept_is_Some.
  - exact (retarget_one_exact w o n b bs ib w1 He Hb Hib Hkb Hrb Hcl Hn Hno Hw1).
  - intros q Hq. destruct (Hbs q) as (i & Hi & (r & Hr & Hki) & Hri); [set_solver|].
    destruct (kept_lookup _ _ _ _ Hk1 Hi) as (i1 & Hi1 & (Hop & _)%shell_fields).
    specialize (Hq1 q ltac:(set_solver)). unfold class_of in Hq1. rewrite Hi, Hi1 in Hq1. injection Hq1 as Hc.
    exists i1. split_and!; [done| |by rewrite Hc]. exists r. by rewrite Hop, Hc.
Qed.

Lemma RetargetBranches_backs w o n w' :
  closed w -> backs_ok w -> is_Some (w_instr w !! n) -> is_Some (w_instr w !! o) -> n <> o ->
  (forall q i, w_instr w !! q = Some i -> kind_ok i) ->
  RetargetBranches o n w = (Ok tt, w') -> closed w' /\ backs_ok w'.
Proof.
  intros Hcl Hback Hn [io Hio] Hno Hkind. unfold RetargetBranches.
  erewrite run_bind by (by apply run_GetInstance).
  destruct (m_branchInfo io) as [b|] eqn:Hb; [|by intros [= <-]].
  unfold Retarget, Disconnect_info. erewrite run_bind by apply run_update.
  set (w1 := on_instr (alter (set_branchInfo None) o) w).
  assert (forall q, class_of w1 q = class_of w q) as Hsc by exact (sc_set_branchInfo o None w).
  assert (kept w w1) as Hk1 by exact (kept_set_branchInfo o None w).
  assert (forall q x, targets w1 q x <-> targets w q x) as Htg by (intros q x; unfold targets; by rewrite Hsc).
  assert (forall x, back w1 x = if decide (x = o) then ∅ else back w x) as Hb1
    by (intros x; apply back_update; eauto).
  assert (back w o = b) as Hbo by (unfold back; rewrite Hio; cbn; by rewrite Hb).
  apply retarget_loop_exact.
  - apply NoDup_elements.
  - intros p c t Hp Ht. eapply kept_is_Some; [done|]. eapply Hcl; [|done]. by rewrite <- Hsc.
  - by eapply kept_is_Some.
  - eapply kept_is_Some; [done|eauto].
  - done.
  - split; intros x; rewrite ?Hb1.
    + intros q Hx. rewrite decide_False by done. rewrite Htg. apply Hback.
    + intros Hx. rewrite decide_True by done. rewrite Htg, (Hback o x), Hbo.
      rewrite elem_of_elements in Hx. set_solver.
    + intros _. rewrite decide_True by done. set_solver.
  - intros q Hq. apply elem_of_elements in Hq. rewrite <- Hbo in Hq. apply Hback in Hq as (c & Hc & Ho).
    rewrite <- Hsc in Hc. unfold class_of in Hc. destruct (w_instr w1 !! q) as [i1|] eqn:Hi1; [|done].
    injection Hc as <-. exists i1. split_and!; [done| |done].
    specialize (Hsc q). unfold class_of in Hsc.
    pose proof (kp_instr _ _ Hk1 q) as E. rewrite Hi1 in E, Hsc.
    destruct (w_instr w !! q) as [i|] eqn:Hi; [|done]. injection E as (Hop & _)%shell_fields. injection Hsc as Hsc.
    destruct (Hkind q i Hi) as (r & Hr & Hm). exists r. by rewrite Hop, Hsc.
Qed.

(** ** The code of a world *)

Record code_ok (w : World) : Prop := {
  co_closed : closed w;
  co_backs : backs_ok w;
  co_kind : forall q i, w_instr w !! q = Some i -> kind_ok i
}.

Lemma code_ok_targets w o : code_ok w -> is_Some (w_instr w !! o) -> targets_ok w o.
Proof. intros [H1 H2 H3] Ho. split; [done| |done]. by apply backs_ok_at. Qed.

(** Edits of links leave opcodes, classes and back links alone. *)
Definition code_of (i : CInstruction) := (m_opcode i, m_class i, m_branchInfo i).

Record same_code (w w' : World) : Prop := {
  sd_code : forall p, code_of <$> w_instr w' !! p = code_of <$> w_instr w !! p;
  sd_method : w_method w' = w_method w;
  sd_of : forall g, method_of w' g = method_of w g
}.

#[export] Instance same_code_preorder : PreOrder same_code.
Proof. split; [done|]. intros w1 w2 w3 [] []. split; intros; congruence. Qed.

Lemma same_code_lookup w w' p i :
  same_code w w' -> w_instr w !! p = Some i -> exists i', w_instr w' !! p = Some i' /\ code_of i' = code_of i.
Proof.
  intros [H _ _] Hi. specialize (H p). rewrite Hi in H. destruct (w_instr w' !! p) as [i'|]; [|done].
  exists i'. split; [done|]. unfold code_of in *. injection H. congruence.
Qed.

Lemma same_code_lookup_inv w w' p i' :
  same_code w w' -> w_instr w' !! p = Some i' -> exists i, w_instr w !! p = Some i /\ code_of i' = code_of i.
Proof.
  intros [H _ _] Hi. specialize (H p). rewrite Hi in H. destruct (w_instr w !! p) as [i|]; [|done].
  exists i. split; [done|]. unfold code_of in *. injection H. congruence.
Qed.

Lemma relinked_same_code g w w' : relinked g w w' -> same_code w w'.
Proof.
  intros H. split; [|exact (rl_method _ _ _ H)|].
  - intros p. pose proof (rl_instr _ _ _ H p) as E.
    destruct (w_instr w' !! p), (w_instr w !! p); try done. injection E as (? & ? & ? & _)%content_fields.
    cbn. unfold code_of. congruence.
  - intros h. destruct (decide (h = g)) as [->|Hh]; [by eapply relinked_method_of|].
    unfold method_of. by rewrite (rl_graph _ _ _ H h Hh).
Qed.

Lemma same_code_class w w' p : same_code w w' -> class_of w' p = class_of w p.
Proof.
  intros [H _ _]. specialize (H p). unfold class_of.
  destruct (w_instr w' !! p), (w_instr w !! p); try done. injection H. cbn. congruence.
Qed.

Lemma same_code_back w w' p : same_code w w' -> back w' p = back w p.
Proof.
  intros [H _ _]. specialize (H p). unfold back.
  destruct (w_instr w' !! p), (w_instr w !! p); try done. injection H. cbn. congruence.
Qed.

Lemma same_code_ok w w' : same_code w w' -> code_ok w -> code_ok w'.
Proof.
  intros H [Hc Hb Hk]. split.
  - intros p c t Hp Ht. rewrite (same_code_class _ _ p H) in Hp.
    destruct (Hc p c t Hp Ht) as [i Hi]. destruct (same_code_lookup _ _ _ _ H Hi) as (i' & ? & _). eauto.
  - intros o q. rewrite (same_code_back _ _ o H), <- (Hb o q). unfold targets.
    by rewrite (same_code_class _ _ q H).
  - intros q i' Hi'. destruct (same_code_lookup_inv _ _ _ _ H Hi') as (i & Hi & E).
    injection E as Ho Hcl _. destruct (Hk q i Hi) as (r & Hr & Hm). exists r. by rewrite Ho, Hcl.
Qed.

(** Allocating an instruction without targets. *)
Lemma alloc_code_ok w p i :
  w_instr w !! p = None -> m_branchInfo i = None -> kind_ok i -> (forall t, Some t ∉ refs (m_class i)) ->
  code_ok w -> code_ok (on_instr (insert p i) w).
Proof.
  intros Hp Hb Hk Hr [Hcl Hbk Hkd].
  assert (forall q, q <> p -> w_instr (on_instr (insert p i) w) !! q = w_instr w !! q) as Hne
    by (intros q Hq; cbn; by rewrite lookup_insert_ne).
  assert (w_instr (on_instr (insert p i) w) !! p = Some i) as Hpi by (cbn; by rewrite lookup_insert_eq).
  set (w' := on_instr _ w) in *.
  assert (forall q t, targets w' q t <-> targets w q t) as Htg.
  { intros q t. unfold targets, class_of. destruct (decide (q = p)) as [->|Hq]; [|by rewrite Hne].
    rewrite Hpi, Hp. cbn. split; [intros (c & [= <-] & Ht); by destruct (Hr t)|by intros (c & ? & _)]. }
  split.
  - intros q c t Hq Ht. assert (targets w q t) as (c' & Hc' & Ht') by (apply Htg; by exists c).
    destruct (Hcl q c' t Hc' Ht') as [j Hj]. destruct (decide (t = p)) as [->|]; [eauto|]. rewrite Hne by done. eauto.
  - intros o q. rewrite Htg, (Hbk o q). unfold back. destruct (decide (o = p)) as [->|Ho]; [|by rewrite Hne].
    rewrite Hpi, Hp. cbn. by rewrite Hb.
  - intros q j. destruct (decide (q = p)) as [->|Hq]; [rewrite Hpi; by intros [= <-]|].
    rewrite Hne by done. apply Hkd.
Qed.

(** Assignments to links, offsets and flags. *)
Lemma alter_same_code f p w :
  (forall i, code_of (f i) = code_of i) -> same_code w (on_instr (alter f p) w).
Proof.
  intros Hf. split; [|done..]. intros q. cbn. rewrite lookup_alter. case_decide; [|done]. subst.
  destruct (w_instr w !! q); cbn; [by rewrite Hf|done].
Qed.

Lemma same_instr_code_ok w w' : w_instr w' = w_instr w -> code_ok w -> code_ok w'.
Proof.
  intros E [H1 H2 H3]. split; unfold closed, backs_ok, targets, back, class_of in *; by rewrite E.
Qed.

(** *** Setting a target *)

Lemma sets_class_back w w' p c q i' :
  kept w w' -> class_of w' p = Some c -> (forall q, q <> p -> class_of w' q = class_of w q) ->
  w_instr w' !! q = Some i' -> exists i, w_instr w !! q = Some i /\
    m_opcode i' = m_opcode i /\ m_class i' = if decide (q = p) then c else m_class i.
Proof.
  intros Hk Hpc Hother Hi'. pose proof (kp_instr _ _ Hk q) as E. rewrite Hi' in E.
  destruct (w_instr w !! q) as [i|] eqn:Hi; [|done]. injection E as (Hop & _)%shell_fields.
  exists i. split_and!; [done..|]. unfold class_of in Hpc, Hother. case_decide as Hqp.
  - subst q. rewrite Hi' in Hpc. by injection Hpc.
  - specialize (Hother q Hqp). rewrite Hi, Hi' in Hother. by injection Hother.
Qed.

Lemma sets_class_code_ok w w' p c :
  code_ok w -> kept w w' -> class_of w' p = Some c -> (forall q, q <> p -> class_of w' q = class_of w q) ->
  closed w' -> backs_ok w' -> (forall i, w_instr w !! p = Some i -> kind_ok i -> kind_ok (set_class c i)) -> code_ok w'.
Proof.
  intros Hc Hk Hpc Hother Hcl' Hb' Hkind. split; [done..|]. intros q i' Hi'.
  destruct (sets_class_back _ _ _ _ _ _ Hk Hpc Hother Hi') as (i & Hi & Hop & Hcs).
  pose proof (co_kind _ Hc q i Hi) as Hki. case_decide as Hqp; [subst q|].
  - destruct (Hkind i Hi Hki) as (r & Hr & Hm). exists r. rewrite Hop, Hcs. by destruct i.
  - destruct Hki as (r & Hr & Hm). exists r. by rewrite Hop, Hcs.
Qed.

(** The target of a branch. *)
Lemma Branch_SetBranchTarget_code_ok w p d tgt orig t :
  code_ok w -> class_of w p = Some (CBranch d tgt orig) -> is_Some (w_instr w !! t) ->
  exists w' o, Branch_SetBranchTarget p t w = (Ok tt, w') /\ kept w w' /\ class_of w' p = Some (CBranch d (Some t) o) /\
    (forall q, q <> p -> class_of w' q = class_of w q) /\ code_ok w'.
Proof.
  intros Hc Hb Ht. pose proof Hb as Hb'. unfold class_of in Hb'.
  destruct (w_instr w !! p) as [i|] eqn:Hi; [|done]. injection Hb' as Hcb.
  destruct (Branch_SetBranchTarget_run w p i d tgt orig t Hi Hcb (co_closed _ Hc) Ht) as (w' & Hw' & Hk & Hcs & Hq).
  destruct (Branch_SetBranchTarget_backs _ _ _ _ _ _ _ Hb (co_closed _ Hc) (co_backs _ Hc) Ht Hw') as [Hcl Hbk].
  eexists w', _. split_and!; [done..|]. eapply sets_class_code_ok; try done.
  intros j Hj (r & Hr & Hki). rewrite Hi in Hj. injection Hj as <-. rewrite Hcb in Hki. exists r. by destruct i.
Qed.

Lemma elem_set_case (ts : list (option ptr)) k t x :
  ts !! k = Some None -> Some x ∈ <[k:=Some t]> ts <-> x = t \/ Some x ∈ ts.
Proof.
  intros Hk. rewrite !list_elem_of_lookup. split.
  - intros [j Hj]. destruct (decide (j = k)) as [->|]; [|rewrite list_lookup_insert_ne in Hj by done; eauto].
    rewrite list_lookup_insert_eq in Hj by (by eapply lookup_lt_Some). left. congruence.
  - intros [->|[j Hj]].
    + exists k. apply list_lookup_insert_eq. by eapply lookup_lt_Some.
    + exists j. rewrite list_lookup_insert_ne; [done|]. intros <-. congruence.
Qed.

(** The case of a switch that was not set. *)
Lemma Switch_SetBranchTarget_code_ok w p ds ts k t :
  code_ok w -> class_of w p = Some (CSwitch ds ts) -> ts !! k = Some None -> is_Some (w_instr w !! t) ->
  exists w', Switch_SetBranchTarget p (Z.of_nat k) t w = (Ok tt, w') /\ kept w w' /\
    class_of w' p = Some (CSwitch ds (<[k := Some t]> ts)) /\
    (forall q, q <> p -> class_of w' q = class_of w q) /\ code_ok w'.
Proof.
  intros Hc Hsw Hk Ht. pose proof Hsw as Hsw'. unfold class_of in Hsw'.
  destruct (w_instr w !! p) as [i|] eqn:Hi; [|done]. injection Hsw' as Hcs.
  destruct (Switch_SetBranchTarget_run w p ds ts k _ t Hsw Hk (co_closed _ Hc) Ht) as (w' & Hw' & Hkp & Hcs' & Hq).
  pose proof (Switch_SetBranchTarget_back _ _ _ _ _ _ _ _ Hsw Hk (co_closed _ Hc) Ht Hw') as Hbk.
  pose proof (fun x => elem_set_case ts k t x Hk) as Hts.
  exists w'. split_and!; [done..|]. eapply sets_class_code_ok; try done.
  - eapply (sets_class_closed w); try done; [apply Hc|]. intros x [->|Hx]%Hts; [done|].
    by apply (co_closed _ Hc p _ x Hsw).
  - intros x q. rewrite Hbk, <- (co_backs _ Hc x q). unfold targets. destruct (decide (q = p)) as [->|Hqs].
    + rewrite Hcs', Hsw. split.
      * intros (c & [= <-] & [->|Hx]%Hts); [by left|]. right. split; [by eexists|]. by intros [? _].
      * intros [[-> _]|[(c & [= <-] & Hx) _]]; eexists; (split; [done|]); apply Hts; auto.
    + rewrite (Hq q Hqs). naive_solver.
  - intros j Hj (r & Hr & Hki). rewrite Hi in Hj. injection Hj as <-. rewrite Hcs in Hki. exists r. by destruct i.
Qed.
