(* ===== verification/Codec.v ===== *)
(** Bytes to graph and back: [CInstructionGraph::DecodeInstructions] and [EncodeIL],
    and [CInstruction::EmitIL].

    A code buffer is a list of bytes; [pCode] is a position in it.  The loops of
    the source take fuel; the theorems of [CodecSpec.v] say how much is enough. *)
From S2P Require Import Prelude ILOpcodes Instruction Store BranchTargets Clauses Graph.

(** ** Emission *)

(** Stores to [pILBuffer] are unchecked. *)
Definition poke (buf : list Z) (pos : Z) (bs : list Z) : W (list Z) :=
  lift (of_option OutOfBoundsWrite (write_at buf pos bs)).

Section Emit.
Context (fuel : nat).

(** The loop of [EmitIL] over the cases of a switch; [pos] is where the entry
    goes. *)
Fixpoint emit_cases (p : ptr) (nextOffset : Z) (pos : Z) (i : Z) (count : nat)
    (buf : list Z) : W (list Z) :=
  match count with
  | O => ret buf
  | S count' =>
      tgt <- Switch_GetBranchTarget p i ;;
      t <- deref tgt ;;
      dwSwitchTargetOffset <- GetOffset fuel t ;;
      buf <- poke buf pos (le_bytes 4 (u32 (dwSwitchTargetOffset - nextOffset))) ;;
      emit_cases p nextOffset (pos + 4) (i + 1) count' buf
  end.

(** [CInstruction::EmitIL]: the buffer after the stores.  The [HRESULT] of
    [GetOperandValue] is dropped, the casts to the subclasses are not checked. *)
Definition EmitIL (p : ptr) (buf : list Z) : W (list Z) :=
  let dwcbILBuffer := Z.of_nat (length buf) in
  i <- load p ;;
  let curpos := m_offset i in
  r <- lift (opinfo (m_opcode i)) ;;
  let opcodeLength := m_opcodeLength r in
  if_false_ret (u32 (curpos + opcodeLength + m_operandLength r) <=? dwcbILBuffer) E_FAIL ;;;
  buf <- (if 0x100 <=? m_opcode i then poke buf curpos [0xFE] else ret buf) ;;
  let curpos := if 0x100 <=? m_opcode i then u32 (curpos + 1) else curpos in
  buf <- poke buf curpos [u8 (m_opcode i)] ;;
  let curpos := u32 (curpos + 1) in
  let operandSize := m_operandLength r in
  if IsFlagSet (m_flags r) ILOpcodeFlag_Branch then
    pTarget <- Branch_GetBranchTarget p ;;
    targetOffset <- GetOffset fuel pTarget ;;
    let nextOffset := m_offset i + 1 + operandSize in
    poke buf curpos (le_bytes (Z.to_nat operandSize) (u32 (targetOffset - nextOffset)))
  else if GetIsSwitchInternal i then
    branchCount <- Switch_GetBranchCount p ;;
    let operandSize := u32 ((1 + branchCount) * 4) in
    let nextOffset := m_offset i + 1 + operandSize in
    if_false_ret (u32 (curpos + opcodeLength + operandSize) <=? dwcbILBuffer) E_FAIL ;;;
    buf <- poke buf curpos (le_bytes 4 branchCount) ;;
    emit_cases p nextOffset (curpos + 4) 0 (Z.to_nat branchCount) buf
  else if operandSize =? 0 then ret buf
  else
    if_false_ret (curpos + operandSize <=? dwcbILBuffer) E_FAIL ;;;
    bs <- attempt (lift (GetOperandValue operandSize i)) ;;
    match bs with
    | Some bs => poke buf curpos bs
    | None => ret buf
    end.

(** ** EncodeIL *)

(** The first loop of [EncodeIL]: the number of map entries and of bytes. *)
Fixpoint count_loop (n : nat) (pInstruction : option ptr) (cCorILMap cbBuffer : Z) : W (Z * Z) :=
  match pInstruction with
  | None => ret (cCorILMap, cbBuffer)
  | Some p =>
      match n with
      | O => out_of_fuel
      | S n' =>
          i <- load p ;;
          dwInstructionSize <- lift (GetInstructionSize i) ;;
          cCorILMap <- (if GetIsNew i then ret cCorILMap
                        else if_false_ret (cCorILMap <? u32 (cCorILMap + 1)) E_BOUNDS ;;;
                             ret (u32 (cCorILMap + 1))) ;;
          let cbBufferTemp := u32 (cbBuffer + dwInstructionSize) in
          if_false_ret (cbBuffer <=? cbBufferTemp) E_BOUNDS ;;;
          count_loop n' (m_pNextInstruction i) cCorILMap cbBufferTemp
      end
  end.

(** The second loop: the buffer and the entries of the map, in order. *)
Fixpoint emit_loop (n : nat) (pCurrent pPrevNew : option ptr) (buf : list Z)
    (map : list COR_IL_MAP) : W (list Z * list COR_IL_MAP) :=
  match pCurrent with
  | None => ret (buf, map)
  | Some p =>
      match n with
      | O => out_of_fuel
      | S n' =>
          buf <- EmitIL p buf ;;
          i <- load p ;;
          if GetIsNew i then
            emit_loop n' (m_pNextInstruction i)
              (match pPrevNew with None => Some p | Some q => Some q end) buf map
          else
            currOldOffset <- GetOriginalOffset fuel p ;;
            currOffset <- GetOffset fuel p ;;
            newOffset <- (match pPrevNew with Some q => GetOffset fuel q | None => ret currOffset end) ;;
            i <- load p ;;
            emit_loop n' (m_pNextInstruction i) None buf
              (map ++ [mkILMap currOldOffset newOffset true])
      end
  end.

(** [CInstructionGraph::EncodeIL]: the new contents of [ppILBuffer] and
    [ppCorILMap].  The buffer starts as [cbBuffer] zeros; the map, sized by the
    first loop, is filled from its start. *)
Definition EncodeIL (g : ptr) : W (list Z * list COR_IL_MAP) :=
  gr <- load_graph g ;;
  counts <- count_loop fuel (m_pFirstInstruction gr) 0 0 ;;
  CalculateInstructionOffsets fuel g ;;;
  gr <- load_graph g ;;
  emit_loop fuel (m_pFirstInstruction gr) None (replicate (Z.to_nat (snd counts)) 0) [].

(** ** DecodeInstructions *)

(** The first pass, from the instruction [pNew] decoded at [pos]: the last
    instruction and the map from offsets to instructions. *)
Fixpoint decode_loop (g : ptr) (code : list Z) (n : nat) (pNew : ptr) (pPrevious : option ptr)
    (pos : Z) (offsetMap : gmap Z ptr) : W (ptr * gmap Z ptr) :=
  match n with
  | O => out_of_fuel
  | S n' =>
      SetGraph pNew g ;;;
      SetPreviousInstruction pNew pPrevious true ;;;
      (match pPrevious with
       | Some pv => SetNextInstruction pv (Some pNew) true
       | None => ret tt
       end) ;;;
      let offset := u32 pos in
      SetOffset pNew offset ;;;
      SetOriginalOffset pNew offset ;;;
      let offsetMap := <[offset := pNew]> offsetMap in
      i <- load pNew ;;
      size <- lift (GetInstructionSize i) ;;
      let pos := pos + size in
      if Z.of_nat (length code) <=? pos then ret (pNew, offsetMap)
      else
        i <- lift (InstructionFromBytes code pos) ;;
        p <- alloc i ;;
        decode_loop g code n' p (Some pNew) pos offsetMap
  end.

(** The targets of a switch in the second pass. *)
Fixpoint finalize_cases (p : ptr) (nextOffset : Z) (offsetMap : gmap Z ptr) (i : Z)
    (count : nat) : W unit :=
  match count with
  | O => ret tt
  | S count' =>
      offset <- Switch_GetBranchOffset fuel p i ;;
      t <- if_null_ret (offsetMap !! u32 (offset + nextOffset)) E_FAIL ;;
      attempt (Switch_SetBranchTarget p i t) ;;;
      finalize_cases p nextOffset offsetMap (i + 1) count'
  end.

(** One step of the second pass. *)
Definition finalize_one (p : ptr) (offsetMap : gmap Z ptr) : W unit :=
  i <- load p ;;
  isBranch <- lift (GetIsBranchInternal i) ;;
  if (isBranch : bool) then
    dwTargetOffset <- GetTargetOffset fuel p ;;
    dwBranchOrigOffset <- GetOriginalOffset fuel p ;;
    t <- if_null_ret (offsetMap !! u32 (dwTargetOffset + dwBranchOrigOffset)) E_FAIL ;;
    attempt (Branch_SetBranchTarget p t) ;;; ret tt
  else if GetIsSwitchInternal i then
    pNextInner <- if_null_ret (m_pNextInstruction i) E_FAIL ;;
    nextOffset <- GetOriginalOffset fuel pNextInner ;;
    branchCount <- Switch_GetBranchCount p ;;
    finalize_cases p nextOffset offsetMap 0 (Z.to_nat branchCount)
  else ret tt.

(** The second pass, backwards from [pCurrent]. *)
Fixpoint finalize_loop (n : nat) (pCurrent : option ptr) (offsetMap : gmap Z ptr) : W unit :=
  match pCurrent with
  | None => ret tt
  | Some p =>
      match n with
      | O => out_of_fuel
      | S n' =>
          finalize_one p offsetMap ;;;
          i <- load p ;;
          finalize_loop n' (m_pPreviousInstruction i) offsetMap
      end
  end.

(** [CInstructionGraph::DecodeInstructions] on the whole buffer [code]. *)
Definition DecodeInstructions (g : ptr) (code : list Z) : W unit :=
  (match code with
   | [] => ret tt
   | _ => i <- lift (InstructionFromBytes code 0) ;;
          p <- alloc i ;;
          update_graph g (set_first (Some p))
   end) ;;;
  gr <- load_graph g ;;
  update_graph g (set_origFirst (m_pFirstInstruction gr)) ;;;
  last <- (match m_pFirstInstruction gr with
           | None => ret None
           | Some p =>
               r <- decode_loop g code fuel p None 0 ∅ ;;
               finalize_loop fuel (Some (fst r)) (snd r) ;;;
               ret (Some (fst r))
           end) ;;
  update_graph g (fun gr => set_orig (m_pOrigFirstInstruction gr) last (set_last last gr)).

End Emit.
