(* ===== verification/CodecSpec.v ===== *)
(** What the codec promises.  [encode_instr] is the reference encoding of one
    instruction, given the offsets of the targets; [EncodeIL] is shown to emit the
    concatenation of the encodings, and [DecodeInstructions] followed by
    [EncodeIL] to give back the bytes. *)
From S2P Require Import Prelude ILOpcodes Instruction Store Chain BranchTargets Retarget Clauses Demo Offsets Graph Codec.

(** ** The reference encoding *)

Definition encode_payload (offs : ptr -> option Z) (i : CInstruction) (r : ILOpcodeInfo) : option (list Z) :=
  let br := IsFlagSet (m_flags r) ILOpcodeFlag_Branch in
  let sw := m_opcode i =? Cee_Switch in
  match m_class i with
  | CBranch _ (Some t) _ =>
      if br then branch_payload (m_operandLength r) (m_offset i) <$> offs t else None
  | CBranch _ None _ => None
  | CSwitch _ ts =>
      if sw then switch_payload (m_offset i) <$> mapM (fun t => t ≫= offs) ts else None
  | COperand _ =>
      if br || sw then None
      else if m_operandLength r =? 0 then Some []
      else match GetOperandValue (m_operandLength r) i with
           | Ok bs => if Z.of_nat (length bs) =? m_operandLength r then Some bs else None
           | _ => None
           end
  | CNone => if br || sw || negb (m_operandLength r =? 0) then None else Some []
  end.

Definition encode_instr (offs : ptr -> option Z) (i : CInstruction) : option (list Z) :=
  r ← opinfo_opt (m_opcode i);
  if (0 <=? m_opcode i) && (m_opcode i <? 0x123)
  then app (opcode_bytes (m_opcode i)) <$> encode_payload offs i r
  else None.

(** ** Lemmas on emission

    A buffer that is being filled is [pre ++ rest], [pre] being what has been
    emitted. *)

Lemma run_poke pre rest pos bs w :
  pos = Z.of_nat (length pre) -> (length bs <= length rest)%nat ->
  poke (pre ++ rest) pos bs w = (Ok ((pre ++ bs) ++ drop (length bs) rest), w).
Proof.
  intros Hp Hl. unfold poke, lift. rewrite <- (take_drop (length bs) rest) at 1.
  rewrite write_at_app; [by rewrite app_assoc|done|]. rewrite length_take. lia.
Qed.

(** A refresh of an up-to-date graph changes nothing but the stale flag. *)
Record only_flag (w w' : World) : Prop := {
  of_instr : w_instr w' = w_instr w;
  of_graph : forall g, set_stale false <$> w_graph w' !! g = set_stale false <$> w_graph w !! g;
  of_clause : w_clause w' = w_clause w;
  of_method : w_method w' = w_method w
}.

#[export] Instance only_flag_preorder : PreOrder only_flag.
Proof. split; [by split|]. intros w1 w2 w3 [] []. split; intros; congruence. Qed.

(** [settled m w r]: from a world that differs from [w] by stale flags, [m]
    returns [r] and leaves such a world. *)
Definition settled {A} (w : World) (m : W A) (r : A) : Prop :=
  forall w1, only_flag w w1 -> exists w2, m w1 = (Ok r, w2) /\ only_flag w w2.

Lemma settled_bind {A B} w (m : W A) (f : A -> W B) a b :
  settled w m a -> settled w (f a) b -> settled w (bind m f) b.
Proof.
  intros Hm Hf w1 H1. destruct (Hm w1 H1) as (w2 & Hw2 & H2).
  destruct (Hf w2 H2) as (w3 & Hw3 & H3). exists w3. split; [|done]. by erewrite run_bind.
Qed.

Lemma settled_ret {A} w (a : A) : settled w (ret a) a.
Proof. intros w1 H1. by exists w1. Qed.

Lemma settled_lift {A} w (a : A) : settled w (lift (Ok a)) a.
Proof. intros w1 H1. by exists w1. Qed.

Lemma settled_load w p i : w_instr w !! p = Some i -> settled w (load p) i.
Proof. intros Hi w1 H1. exists w1. split; [|done]. apply run_load. by rewrite (of_instr _ _ H1). Qed.

Lemma settled_if_false w b hr : b = true -> settled w (if_false_ret b hr) tt.
Proof. intros -> w1 H1. by exists w1. Qed.

Lemma settled_poke w pre rest pos bs :
  pos = Z.of_nat (length pre) -> (length bs <= length rest)%nat ->
  settled w (poke (pre ++ rest) pos bs) ((pre ++ bs) ++ drop (length bs) rest).
Proof. intros Hp Hl w1 H1. exists w1. split; [|done]. by apply run_poke. Qed.

Lemma settled_attempt {A} w (a : A) : settled w (attempt (lift (Ok a))) (Some a).
Proof. intros w1 H1. by exists w1. Qed.

(** Running the next statement of a settled computation. *)
Ltac sstep := eapply settled_bind;
  [first [ by apply settled_load | apply settled_ret | apply settled_lift | by apply settled_if_false
         | eapply settled_poke; [done|] | apply settled_attempt ] | cbn beta ].

(** The offsets the emission sees: those of instructions whose graph is up to
    date. *)
Definition offsets_ok (fuel : nat) (offs : ptr -> option Z) (w : World) : Prop :=
  forall t o, offs t = Some o -> settled w (GetOffset fuel t) o.

Definition case_bytes (next : Z) (os : list Z) : list Z :=
  concat (map (fun t => le_bytes 4 (u32 (t - next))) os).

Lemma length_case_bytes next os : length (case_bytes next os) = (4 * length os)%nat.
Proof. unfold case_bytes. by rewrite <- map_map, length_concat_le4, length_map. Qed.

Section Emission.
Context (fuel : nat) (offs : ptr -> option Z) (w : World).
Hypothesis Hoffs : offsets_ok fuel offs w.

Lemma settled_Branch_GetBranchTarget p i d t orig :
  w_instr w !! p = Some i -> m_class i = CBranch d (Some t) orig ->
  settled w (Branch_GetBranchTarget p) t.
Proof using. intros Hi Hc. unfold Branch_GetBranchTarget. sstep. rewrite Hc. apply settled_ret. Qed.

Lemma settled_Switch_GetBranchTarget p i ds ts k t :
  w_instr w !! p = Some i -> m_class i = CSwitch ds ts -> ts !! k = Some t ->
  settled w (Switch_GetBranchTarget p (Z.of_nat k)) t.
Proof using.
  intros Hi Hc Ht. unfold Switch_GetBranchTarget. sstep. rewrite Hc.
  apply lookup_lt_Some in Ht as Hlt.
  destruct (Z.leb_spec (Z.of_nat (length ts)) (Z.of_nat k)); [lia|].
  rewrite (switch_target_lookup _ _ _ Ht). apply settled_lift.
Qed.

Lemma settled_Switch_GetBranchCount p i ds ts :
  w_instr w !! p = Some i -> m_class i = CSwitch ds ts -> Z.of_nat (length ts) < 2 ^ 32 ->
  settled w (Switch_GetBranchCount p) (Z.of_nat (length ts)).
Proof using.
  intros Hi Hc Hl. unfold Switch_GetBranchCount. sstep. rewrite Hc.
  rewrite u32_small by (unfold is_u32; lia). apply settled_ret.
Qed.

Lemma emit_cases_run p i ds ts next todo : forall done os pre rest,
  w_instr w !! p = Some i -> m_class i = CSwitch ds ts -> ts = done ++ todo ->
  Forall2 (fun t o => t ≫= offs = Some o) todo os -> (4 * length todo <= length rest)%nat ->
  settled w (emit_cases fuel p next (Z.of_nat (length pre)) (Z.of_nat (length done)) (length todo)
    (pre ++ rest))
  ((pre ++ case_bytes next os) ++ drop (4 * length todo) rest).
Proof using Hoffs.
  induction todo as [|t todo IH]; intros done os pre rest Hi Hc Hts Hos Hrest.
  { inversion Hos. cbn. rewrite app_nil_r. apply settled_ret. }
  cbn [length emit_cases]. inversion Hos as [|? o ? os' Ho Hos']; subst os.
  eapply settled_bind; [eapply settled_Switch_GetBranchTarget; [done..|]|].
  { subst ts. rewrite lookup_app_r by lia. by rewrite Nat.sub_diag. }
  destruct t as [t|]; [|done]. cbn in Ho. cbn [deref]. sstep.
  eapply settled_bind; [by apply Hoffs|]. sstep; [rewrite length_le_bytes; cbn in Hrest; lia|].
  rewrite length_le_bytes.
  replace (Z.of_nat (length pre) + 4) with (Z.of_nat (length (pre ++ le_bytes 4 (u32 (o - next)))))
    by (rewrite length_app, length_le_bytes; lia).
  replace (Z.of_nat (length done) + 1) with (Z.of_nat (length (done ++ [Some t])))
    by (rewrite length_app; cbn; lia).
  replace ((pre ++ case_bytes next (o :: os')) ++ drop (4 * S (length todo)) rest)
    with (((pre ++ le_bytes 4 (u32 (o - next))) ++ case_bytes next os') ++ drop (4 * length todo) (drop 4 rest)).
  - apply IH; [done|done|by rewrite <- app_assoc|done|rewrite length_drop; cbn in Hrest; lia].
  - unfold case_bytes. cbn [map concat]. rewrite drop_drop, <- !app_assoc.
    by replace (4 * S (length todo))%nat with (4 + 4 * length todo)%nat by lia.
Qed.

(** What follows the opcode, for each class. *)
Definition emit_payload (p : ptr) (i : CInstruction) (r : ILOpcodeInfo) (dwcbILBuffer curpos : Z)
    (buf : list Z) : W (list Z) :=
  let opcodeLength := m_opcodeLength r in
  let operandSize := m_operandLength r in
  if IsFlagSet (m_flags r) ILOpcodeFlag_Branch then
    pTarget <- Branch_GetBranchTarget p ;;
    targetOffset <- GetOffset fuel pTarget ;;
    let nextOffset := m_offset i + 1 + operandSize in
    poke buf curpos (le_bytes (Z.to_nat operandSize) (u32 (targetOffset - nextOffset)))
  else if GetIsSwitchInternal i then
    branchCount <- Switch_GetBranchCount p ;;
    let operandSize := u32 ((1 + branchCount) * 4) in
    let nextOffset := m_offset i + 1 + operandSize in
    if_false_ret (u32 (curpos + opcodeLength + operandSize) <=? dwcbILBuffer) E_FAIL ;;;
    buf <- poke buf curpos (le_bytes 4 branchCount) ;;
    emit_cases fuel p nextOffset (curpos + 4) 0 (Z.to_nat branchCount) buf
  else if operandSize =? 0 then ret buf
  else
    if_false_ret (curpos + operandSize <=? dwcbILBuffer) E_FAIL ;;;
    bs <- attempt (lift (GetOperandValue operandSize i)) ;;
    match bs with
    | Some bs => poke buf curpos bs
    | None => ret buf
    end.

Lemma emit_switch_run p i r ds ts os pre rest :
  w_instr w !! p = Some i -> opinfo (m_opcode i) = Ok r -> m_class i = CSwitch ds ts ->
  m_opcode i = Cee_Switch -> Forall2 (fun t o => t ≫= offs = Some o) ts os ->
  Z.of_nat (length (pre ++ rest)) < 2 ^ 31 ->
  (length (switch_payload (m_offset i) os) < length rest)%nat ->
  settled w (branchCount <- Switch_GetBranchCount p ;;
   let operandSize := u32 ((1 + branchCount) * 4) in
   let nextOffset := m_offset i + 1 + operandSize in
   if_false_ret (u32 (Z.of_nat (length pre) + m_opcodeLength r + operandSize)
                 <=? Z.of_nat (length (pre ++ rest))) E_FAIL ;;;
   buf <- poke (pre ++ rest) (Z.of_nat (length pre)) (le_bytes 4 branchCount) ;;
   emit_cases fuel p nextOffset (Z.of_nat (length pre) + 4) 0 (Z.to_nat branchCount) buf)
  ((pre ++ switch_payload (m_offset i) os) ++ drop (length (switch_payload (m_offset i) os)) rest).
Proof using Hoffs.
  intros Hi Hr Hc Hop Hos Hbuf Hsw. pose proof (Forall2_length _ _ _ Hos) as Hol.
  unfold switch_payload in *. fold (case_bytes (m_offset i + 1 + switch_operand_size (length os)) os) in *.
  rewrite length_app, length_le_bytes, length_case_bytes in Hsw. rewrite length_app in Hbuf.
  eapply settled_bind; [eapply settled_Switch_GetBranchCount; [done..|lia]|].
  assert (m_opcodeLength r = 1) as Hol1.
  { apply row_facts in Hr as (Hr & _). rewrite Hr; rewrite Hop; [reflexivity|done]. }
  rewrite Hol1, Nat2Z.id, Hol. fold (switch_operand_size (length os)). rewrite length_app.
  assert (switch_operand_size (length os) = 4 + 4 * Z.of_nat (length os)) as Hsz
    by (unfold switch_operand_size; rewrite u32_small; unfold is_u32; lia).
  eapply settled_bind; [apply settled_if_false|].
  { rewrite Hsz, u32_small by (unfold is_u32; lia). apply Z.leb_le. lia. }
  sstep; [rewrite length_le_bytes; lia|]. rewrite length_le_bytes.
  rewrite (u32_small (Z.of_nat (length os))) by (unfold is_u32; lia).
  replace (Z.of_nat (length pre) + 4) with (Z.of_nat (length (pre ++ le_bytes 4 (Z.of_nat (length os)))))
    by (rewrite length_app, length_le_bytes; lia).
  pose proof (emit_cases_run p i ds ts (m_offset i + 1 + switch_operand_size (length os)) ts [] os
    (pre ++ le_bytes 4 (Z.of_nat (length os))) (drop 4 rest)) as Hrun.
  rewrite Hol in Hrun. change (Z.of_nat (length [])) with 0 in Hrun.
  set (next := m_offset i + 1 + switch_operand_size (length os)) in *.
  assert (length (le_bytes 4 (Z.of_nat (length os)) ++ case_bytes next os) = 4 + 4 * length os)%nat as ->
    by (rewrite length_app, length_le_bytes, length_case_bytes; lia).
  rewrite (app_assoc pre), <- (drop_drop rest).
  apply Hrun; try done. rewrite length_drop. lia.
Qed.

(** The payload is emitted after what has been emitted so far. *)
Lemma emit_payload_run p i r pl pre rest :
  w_instr w !! p = Some i -> opinfo (m_opcode i) = Ok r ->
  encode_payload offs i r = Some pl ->
  (length pl <= length rest)%nat -> Z.of_nat (length (pre ++ rest)) < 2 ^ 31 ->
  (m_opcode i = Cee_Switch -> (length pl < length rest)%nat) ->
  settled w (emit_payload p i r (Z.of_nat (length (pre ++ rest))) (Z.of_nat (length pre)) (pre ++ rest))
    ((pre ++ pl) ++ drop (length pl) rest).
Proof using Hoffs.
  intros Hi Hr Hpl Hlen Hbuf Hsw. unfold emit_payload, encode_payload in *.
  destruct (row_facts _ _ Hr) as (_ & _ & _ & _ & _ & Hbr).
  destruct (m_class i) as [|v|d [t|] orig|ds ts] eqn:Hc; cbn in Hpl; try done.
  - destruct (IsFlagSet (m_flags r) ILOpcodeFlag_Branch), (m_opcode i =? Cee_Switch) eqn:Hs,
      (m_operandLength r =? 0); try done.
    injection Hpl as <-. unfold GetIsSwitchInternal. rewrite Hs, app_nil_r. apply settled_ret.
  - unfold GetIsSwitchInternal.
    destruct (IsFlagSet (m_flags r) ILOpcodeFlag_Branch), (m_opcode i =? Cee_Switch) eqn:Hs; try done.
    cbn [orb] in Hpl. destruct (m_operandLength r =? 0).
    { injection Hpl as <-. rewrite app_nil_r. apply settled_ret. }
    destruct (GetOperandValue (m_operandLength r) i) as [bs| | |] eqn:Hv; try done.
    destruct (Z.eqb_spec (Z.of_nat (length bs)) (m_operandLength r)) as [Hl|]; [|done].
    injection Hpl as ->. rewrite length_app. eapply settled_bind; [apply settled_if_false|].
    { apply Z.leb_le. lia. }
    sstep. by apply settled_poke.
  - destruct (IsFlagSet (m_flags r) ILOpcodeFlag_Branch) eqn:Hf; [|done].
    destruct (offs t) as [o|] eqn:Ho; [|done]. injection Hpl as <-.
    eapply settled_bind; [by eapply settled_Branch_GetBranchTarget|].
    eapply settled_bind; [by apply Hoffs|]. by apply settled_poke.
  - destruct (Z.eqb_spec (m_opcode i) Cee_Switch) as [Hop|]; [|done].
    destruct (IsFlagSet (m_flags r) ILOpcodeFlag_Branch); [destruct (Hbr eq_refl) as (_ & ? & _); done|].
    unfold GetIsSwitchInternal. rewrite Hop, Z.eqb_refl.
    destruct (mapM _ ts) as [os|] eqn:Hos; [|done]. injection Hpl as <-.
    rewrite Hop in Hsw. eapply emit_switch_run; eauto. by apply mapM_Some.
Qed.

Lemma encode_payload_length i r pl :
  opinfo (m_opcode i) = Ok r -> encode_payload offs i r = Some pl ->
  m_opcode i = Cee_Switch \/ Z.of_nat (length pl) = m_operandLength r.
Proof using.
  intros Hr Hpl. unfold encode_payload in Hpl.
  destruct (row_facts _ _ Hr) as (_ & _ & _ & _ & _ & Hbr).
  destruct (m_class i) as [|v|d [t|] orig|ds ts]; try done.
  - destruct (Z.eqb_spec (m_operandLength r) 0) as [->|]; [|by rewrite orb_true_r in Hpl].
    destruct (_ || _); [done|]. injection Hpl as <-. by right.
  - destruct (_ || _); [done|].
    destruct (Z.eqb_spec (m_operandLength r) 0) as [->|]; [injection Hpl as <-; by right|].
    destruct (GetOperandValue _ _); try done. destruct (Z.eqb_spec (Z.of_nat (length a)) (m_operandLength r)); [|done].
    injection Hpl as <-. by right.
  - destruct (IsFlagSet _ _); [|done]. destruct (offs t); [|done]. injection Hpl as <-. right.
    destruct (Hbr eq_refl) as (_ & _ & Hl). unfold branch_payload. rewrite length_le_bytes, Hl.
    by destruct (IsShortBranch _).
  - destruct (Z.eqb_spec (m_opcode i) Cee_Switch); [by left|done].
Qed.

Lemma encode_instr_inv i bs :
  encode_instr offs i = Some bs -> exists r pl, opinfo (m_opcode i) = Ok r /\
    encode_payload offs i r = Some pl /\ bs = opcode_bytes (m_opcode i) ++ pl /\
    0 <= m_opcode i < 0x123 /\ m_opcodeLength r = Z.of_nat (length (opcode_bytes (m_opcode i))).
Proof using.
  unfold encode_instr. destruct (opinfo_opt (m_opcode i)) as [r|] eqn:Hr; [|done]. cbn.
  destruct (Z.leb_spec 0 (m_opcode i)), (Z.ltb_spec (m_opcode i) 0x123); cbn; try done.
  destruct (encode_payload offs i r) as [pl|] eqn:Hpl; [|done]. intros [= <-].
  apply opinfo_Ok in Hr. exists r, pl. split_and!; try done.
  apply row_facts in Hr as (Hr & _). by apply Hr.
Qed.

(** The stores of the opcode. *)
Lemma emit_opcode_run op pre rest cur (k : Z -> list Z -> W (list Z)) res :
  cur = Z.of_nat (length pre) ->
  (length (opcode_bytes op) <= length rest)%nat -> Z.of_nat (length (pre ++ rest)) < 2 ^ 31 ->
  settled w (k (Z.of_nat (length (pre ++ opcode_bytes op)))
    ((pre ++ opcode_bytes op) ++ drop (length (opcode_bytes op)) rest)) res ->
  settled w (buf <- (if 0x100 <=? op then poke (pre ++ rest) cur [0xFE] else ret (pre ++ rest)) ;;
   let curpos := if 0x100 <=? op then u32 (cur + 1) else cur in
   buf <- poke buf curpos [u8 op] ;; k (u32 (curpos + 1)) buf) res.
Proof using.
  intros ->. rewrite !length_app. unfold opcode_bytes.
  destruct (0x100 <=? op); cbn [length]; intros Hl Hb Hk.
  - sstep; [cbn [length]; lia|]. rewrite (u32_small (Z.of_nat (length pre) + 1)) by (unfold is_u32; lia).
    eapply settled_bind; [eapply settled_poke; [rewrite length_app; cbn; lia|rewrite length_drop; cbn [length]; lia]|].
    rewrite u32_small by (unfold is_u32; lia). rewrite drop_drop, <- (app_assoc pre). cbn [length app Nat.add].
    by replace (Z.of_nat (length pre) + 1 + 1) with (Z.of_nat (length pre + 2)) by lia.
  - sstep. sstep; [cbn [length]; lia|]. rewrite u32_small by (unfold is_u32; lia).
    by replace (Z.of_nat (length pre) + 1) with (Z.of_nat (length pre + 1)) by lia.
Qed.

Lemma EmitIL_run p i bs pre rest :
  w_instr w !! p = Some i -> encode_instr offs i = Some bs ->
  m_offset i = Z.of_nat (length pre) -> (length bs <= length rest)%nat ->
  Z.of_nat (length (pre ++ rest)) < 2 ^ 31 ->
  (m_opcode i = Cee_Switch -> (length bs < length rest)%nat) ->
  settled w (EmitIL fuel p (pre ++ rest)) ((pre ++ bs) ++ drop (length bs) rest).
Proof using Hoffs.
  intros Hi (r & pl & Hr & Hpl & -> & Hop & Hol)%encode_instr_inv Hoff Hlen Hbuf Hsw.
  rewrite !length_app in Hlen, Hsw. pose proof (encode_payload_length _ _ _ Hr Hpl) as Hpll.
  destruct (row_facts _ _ Hr) as (_ & _ & _ & _ & Hswl & _).
  unfold EmitIL. sstep. rewrite Hr. sstep. eapply settled_bind; [apply settled_if_false|].
  { rewrite length_app, Hol, Hoff in *. apply Z.leb_le. destruct (decide (m_opcode i = Cee_Switch)) as [E|].
    - rewrite (Hswl E), E. change (length (opcode_bytes Cee_Switch)) with 1%nat.
      replace (Z.of_nat (length pre) + Z.of_nat 1 + (2 ^ 32 - 1)) with (Z.of_nat (length pre) + 1 * 2 ^ 32) by lia.
      unfold u32. rewrite Z_mod_plus_full, Z.mod_small; lia.
    - destruct Hpll as [|Hpll]; [done|]. rewrite u32_small; unfold is_u32; lia. }
  apply (emit_opcode_run (m_opcode i) pre rest (m_offset i)
      (emit_payload p i r (Z.of_nat (length (pre ++ rest))))); [done|lia|done|].
  set (ob := opcode_bytes (m_opcode i)) in *.
  assert (length ((pre ++ ob) ++ drop (length ob) rest) = length (pre ++ rest)) as Hl2
    by (rewrite !length_app, length_drop; lia).
  rewrite <- Hl2, (app_assoc pre ob pl), (length_app ob pl), <- drop_drop.
  apply emit_payload_run; try done.
  - rewrite length_drop. lia.
  - by rewrite Hl2.
  - rewrite length_drop. intros E. specialize (Hsw E). lia.
Qed.

End Emission.

(** ** The reference encoding of a graph *)

(** Where the instructions of [l], of sizes [ss], are, from [off] on. *)
Fixpoint offset_in (off : Z) (l : list ptr) (ss : list Z) (t : ptr) : option Z :=
  match l, ss with
  | p :: l', s :: ss' => if decide (t = p) then Some off else offset_in (off + s) l' ss' t
  | _, _ => None
  end.

Definition lengths (bss : list (list Z)) : list Z := map (fun bs => Z.of_nat (length bs)) bss.

(** [bss] are the encodings of the instructions of [l] when they are laid out one
    after the other: every target is resolved to its place in this layout. *)
Definition encodes (w : World) (l : list ptr) (bss : list (list Z)) : Prop :=
  let offs := offset_in 0 l (lengths bss) in
  Forall2 (fun p bs => exists i o, w_instr w !! p = Some i /\ offs p = Some o /\
    encode_instr offs (set_offset o i) = Some bs) l bss.

(** A switch is not the last instruction. *)
Definition switch_not_last (w : World) (l : list ptr) : Prop :=
  forall p i, last l = Some p -> w_instr w !! p = Some i -> m_opcode i <> Cee_Switch.

(** The reference IL map: an entry for each instruction that is not new, from its
    original offset to the place of the first new instruction since the last such
    instruction, or to its own when there is none. *)
Fixpoint il_map (offs : ptr -> option Z) (w : World) (pending : option Z) (l : list ptr) : list COR_IL_MAP :=
  match l with
  | [] => []
  | p :: l' =>
      let off := default (default 0 (offs p)) pending in
      match w_instr w !! p with
      | Some i =>
          if GetIsNew i then il_map offs w (Some off) l'
          else mkILMap (m_origOffset i) off true :: il_map offs w None l'
      | None => []
      end
  end.

(** ** The size of an encoding *)

Lemma encode_instr_size offs i bs :
  encode_instr offs i = Some bs -> Z.of_nat (length bs) < 2 ^ 31 ->
  GetInstructionSize i = Ok (Z.of_nat (length bs)) /\ (0 < length bs)%nat.
Proof.
  intros (r & pl & Hr & Hpl & -> & Hop & Hol)%encode_instr_inv Hlen.
  assert (0 < length (opcode_bytes (m_opcode i)))%nat by (unfold opcode_bytes; case_match; cbn; lia).
  rewrite length_app in *. split; [|lia]. unfold GetInstructionSize. rewrite Hr. cbn [obind].
  rewrite Hol. destruct (encode_payload_length _ _ _ _ Hr Hpl) as [Hsw|Hl].
  - unfold encode_payload in Hpl. rewrite Hsw in Hpl. cbn [Z.eqb] in Hpl.
    destruct (m_class i) as [|v|d [t|] orig|ds ts]; rewrite ?orb_true_r in Hpl; try done.
    + destruct (row_facts _ _ Hr) as (_ & _ & _ & _ & _ & Hbr).
      destruct (IsFlagSet _ _); [|done]. destruct (Hbr eq_refl) as (_ & ? & _). done.
    + rewrite Z.eqb_refl in Hpl. destruct (mapM _ ts) as [os|] eqn:Hos; [|done]. injection Hpl as <-.
      apply length_mapM in Hos. unfold switch_payload in *. 
      fold (case_bytes (m_offset i + 1 + switch_operand_size (length os)) os) in *.
      rewrite length_app, length_le_bytes, length_case_bytes in *. rewrite Hos.
      rewrite u32_idemp_r, u32_small by (unfold is_u32; lia). f_equal. lia.
  - assert (u32 (Z.of_nat (length (opcode_bytes (m_opcode i))) + m_operandLength r) =
      Z.of_nat (length (opcode_bytes (m_opcode i)) + length pl)) as E
      by (rewrite u32_small; unfold is_u32; lia).
    destruct (m_class i) as [|v|d t orig|ds ts] eqn:Hc; try by rewrite E.
    unfold encode_payload in Hpl. rewrite Hc in Hpl.
    destruct (Z.eqb_spec (m_opcode i) Cee_Switch) as [Hsw|]; [|done].
    destruct (row_facts _ _ Hr) as (_ & _ & _ & _ & Hswl & _). specialize (Hswl Hsw). lia.
Qed.

Lemma encodes_sized w l bss :
  encodes w l bss -> Z.of_nat (length (concat bss)) < 2 ^ 31 -> sized (w_instr w) l (lengths bss).
Proof.
  unfold encodes. generalize (offset_in 0 l (lengths bss)) as offs. intros offs H.
  induction H as [|p bs l bss (i & o & Hi & Ho & He) _ IH]; cbn; [constructor|].
  rewrite length_app. intros Hlen. constructor; [|apply IH; lia]. exists i. split; [done|].
  destruct (encode_instr_size _ _ _ He) as [Hs _]; [lia|]. by destruct i.
Qed.

(** ** Offsets of a graph that is up to date *)

Lemma placed_in m : forall l ss off t o,
  placed m off l ss -> Forall (fun s => 0 <= s) ss -> 0 <= off -> off + sum_sizes ss < 2 ^ 32 ->
  offset_in off l ss t = Some o -> exists i, m !! t = Some i /\ m_offset i = o.
Proof.
  induction l as [|p l IH]; intros [|s ss] off t o Hp Hss Hoff Hsum Ho; try done.
  cbn [offset_in] in Ho. destruct Hp as [Hp1 Hp2]. inversion Hss as [|? ? Hs Hss']; subst.
  cbn [sum_sizes foldr] in Hsum. fold (sum_sizes ss) in Hsum.
  assert (0 <= sum_sizes ss) by (clear -Hss'; induction Hss'; cbn; unfold sum_sizes in *; lia).
  case_decide as Ht.
  - injection Ho as <-. subst t. destruct (m !! p); [|done]. injection Hp1. eauto.
  - rewrite u32_small in Hp2 by (unfold is_u32; lia). eapply IH; eauto; lia.
Qed.

Lemma placed_agree m m' : forall l ss off p,
  placed m off l ss -> placed m' off l ss -> p ∈ l -> m_offset <$> m' !! p = m_offset <$> m !! p.
Proof.
  induction l as [|q l IH]; intros [|s ss] off p H H' Hp; try done; [set_solver|].
  destruct H as [H1 H2], H' as [H1' H2']. apply elem_of_cons in Hp as [->|Hp]; [congruence|].
  by eapply IH.
Qed.

Lemma unplaced_eq i i' : unplaced i' = unplaced i -> m_offset i' = m_offset i -> i' = i.
Proof. destruct i, i'. cbn. intros E ->. injection E. intros. by subst. Qed.

(** A recalculation of offsets that are right already. *)
Lemma recalculated_same w w' l ss :
  placed (w_instr w) 0 l ss -> recalculated w w' l ss -> only_flag w w'.
Proof.
  intros Hp (Hr & Hp' & Hout). split; [|apply Hr..].
  apply map_eq. intros p. destruct (decide (p ∈ l)) as [Hpl|]; [|by apply Hout].
  pose proof (placed_agree _ _ _ _ _ _ Hp Hp' Hpl) as E.
  pose proof (ro_instr _ _ Hr p) as E'.
  destruct (w_instr w' !! p), (w_instr w !! p); try done. injection E as E. injection E' as E'.
  f_equal. by apply unplaced_eq.
Qed.

Lemma offset_in_elem : forall l ss off t o,
  offset_in off l ss t = Some o -> t ∈ l.
Proof.
  induction l as [|p l IH]; intros [|s ss] off t o H; try done. cbn in H.
  case_decide; [set_solver|]. apply IH in H. set_solver.
Qed.

Section UpToDate.
Context (fuel : nat) (w : World) (g : ptr) (l : list ptr) (ss : list Z).
Hypothesis Hl : graph_chain w g l.
Hypothesis Hss : sized (w_instr w) l ss.
Hypothesis Hp : placed (w_instr w) 0 l ss.
Hypothesis Hf : (length l <= fuel)%nat.

Lemma only_flag_reoffset w1 : only_flag w w1 -> reoffset w w1.
Proof using. intros [Hi Hg Hc Hm]. split; [|done..]. intros p. by rewrite Hi. Qed.

Lemma settled_Refresh : settled w (RefreshInstructions fuel g) tt.
Proof using All.
  intros w1 H1. pose proof (only_flag_reoffset _ H1) as Hr.
  unfold RefreshInstructions, CalculateInstructionOffsets.
  destruct (decide (clear w1 g)) as [Hc|Hc].
  - exists w1. split; [|done]. by apply clear_refresh.
  - destruct (refresh_stale fuel fuel w1 g l ss (reoffset_graph_chain _ _ Hr _ _ Hl)
      (reoffset_sized _ _ Hr _ _ Hss) Hf Hc) as (w2 & Hw2 & Hrc & _).
    exists w2. split; [done|]. transitivity w1; [done|].
    eapply recalculated_same; [|done]. by rewrite (of_instr _ _ H1).
Qed.

Lemma settled_GetOffset t i : t ∈ l -> w_instr w !! t = Some i -> settled w (GetOffset fuel t) (m_offset i).
Proof using All.
  intros Ht Hi. unfold GetOffset, GetOffset_with. sstep.
  rewrite (graph_chain_owned _ _ _ _ _ Hl Ht Hi).
  eapply settled_bind; [apply settled_Refresh|]. sstep. apply settled_ret.
Qed.

Lemma settled_GetOriginalOffset t i :
  t ∈ l -> w_instr w !! t = Some i -> settled w (GetOriginalOffset fuel t) (m_origOffset i).
Proof using All.
  intros Ht Hi. unfold GetOriginalOffset. sstep.
  rewrite (graph_chain_owned _ _ _ _ _ Hl Ht Hi).
  eapply settled_bind; [apply settled_Refresh|]. sstep. apply settled_ret.
Qed.

Lemma up_to_date_offsets :
  Forall (fun s => 0 <= s) ss -> sum_sizes ss < 2 ^ 32 -> offsets_ok fuel (offset_in 0 l ss) w.
Proof using All.
  intros Hpos Hsum t o Ho. destruct (placed_in _ _ _ _ _ _ Hp Hpos ltac:(lia) ltac:(lia) Ho) as (i & Hi & <-).
  apply settled_GetOffset; [|done]. by eapply offset_in_elem.
Qed.

End UpToDate.

(** ** The loops of [EncodeIL] *)

Section Encoding.
Context (fuel : nat) (w : World) (g : ptr) (all : list ptr) (ss : list Z).
Hypothesis Hl : graph_chain w g all.
Hypothesis Hss : sized (w_instr w) all ss.
Hypothesis Hp : placed (w_instr w) 0 all ss.
Hypothesis Hf : (length all <= fuel)%nat.
Hypothesis Hpos : Forall (fun s => 0 <= s) ss.
Hypothesis Hsum : sum_sizes ss < 2 ^ 32.

Let offs := offset_in 0 all ss.

(** The instructions still to be emitted, with their encodings. *)
Definition to_emit (l : list ptr) (bss : list (list Z)) : Prop :=
  Forall2 (fun p bs => exists i, w_instr w !! p = Some i /\ offs p = Some (m_offset i) /\
    encode_instr offs i = Some bs) l bss.

Lemma emit_loop_run l : forall bss a n prev pre rest acc,
  segment (w_instr w) a l None -> to_emit l bss -> (length l <= n)%nat ->
  placed (w_instr w) (Z.of_nat (length pre)) l (lengths bss) ->
  (length (concat bss) <= length rest)%nat -> Z.of_nat (length (pre ++ rest)) < 2 ^ 31 ->
  switch_not_last w l -> (forall q, prev = Some q -> is_Some (offs q)) ->
  settled w (emit_loop fuel n (first_or l None) prev (pre ++ rest) acc)
    ((pre ++ concat bss) ++ drop (length (concat bss)) rest,
     acc ++ il_map offs w (prev ≫= offs) l).
Proof using All.
  induction l as [|p l IH]; intros bss a n prev pre rest acc Hs He Hn Hpl Hlen Hbuf Hsw Hprev.
  { inversion He; subst. cbn. rewrite !app_nil_r, drop_0. destruct n; apply settled_ret. }
  inversion He as [|? bs ? bss' (i & Hi & Ho & Henc) He']; subst.
  cbn [length] in Hn. destruct n as [|n]; [lia|]. cbn [first_or emit_loop concat] in *.
  rewrite length_app in Hlen. destruct Hs as [Hnode Hs]. destruct (node_lookup _ _ _ _ _ Hnode Hi) as [_ Hnext].
  destruct Hpl as [Hpo Hpl]. rewrite Hi in Hpo. injection Hpo as Hpo.
  pose proof Hbuf as Hbuf'. rewrite length_app in Hbuf'.
  destruct (encode_instr_size _ _ _ Henc) as [_ Hbs]; [lia|].
  assert (forall q o, offs q = Some o -> settled w (GetOffset fuel q) o) as Hoffs
    by (eapply up_to_date_offsets; eauto).
  assert (p ∈ all) as Hpall by (eapply offset_in_elem; exact Ho).
  eapply settled_bind; [eapply EmitIL_run; [exact Hoffs|done..|lia|done|]|].
  { intros Hop. destruct l as [|q l]; [by destruct (Hsw p i eq_refl Hi)|].
    inversion He' as [|? bs2 ? bss2 (i2 & _ & _ & Henc2) _]; subst. cbn [concat] in Hlen.
    rewrite length_app in Hlen. destruct (encode_instr_size _ _ _ Henc2) as [_ ?]; [lia|lia]. }
  sstep. rewrite Hnext, app_assoc, length_app, <- drop_drop.
  rewrite u32_small in Hpl by (unfold is_u32; lia). rewrite <- Nat2Z.inj_add, <- length_app in Hpl.
  assert (forall q i, last l = Some q -> w_instr w !! q = Some i -> m_opcode i <> Cee_Switch) as Hsw'.
  { intros q j Hq. apply Hsw. destruct l; [done|]. by rewrite last_cons_cons. }
  assert (length ((pre ++ bs) ++ drop (length bs) rest) = length (pre ++ rest)) as Hbl
    by (rewrite !length_app, length_drop; lia).
  cbn [il_map]. rewrite Hi, Ho. destruct (GetIsNew i).
  - replace (Some (default (default 0 (Some (m_offset i))) (prev ≫= offs)))
      with ((match prev with None => Some p | Some q => Some q end) ≫= offs).
    + eapply IH; try done; [lia|rewrite length_drop; lia|by rewrite Hbl|].
      intros q. destruct prev; [|intros [= <-]; eauto]. intros [= <-]. by apply Hprev.
    + destruct prev as [q|]; [|cbn; congruence]. destruct (Hprev q eq_refl) as [o Hq]. cbn. by rewrite Hq.
  - eapply settled_bind; [eapply settled_GetOriginalOffset; eauto|].
    eapply settled_bind; [eapply settled_GetOffset; eauto|].
    eapply (settled_bind _ _ _ (default (m_offset i) (prev ≫= offs))).
    { destruct prev as [q|]; [|apply settled_ret]. destruct (Hprev q eq_refl) as [o Hq]. cbn. rewrite Hq. by apply Hoffs. }
    sstep. rewrite Hnext.
    replace (acc ++ mkILMap (m_origOffset i) (default (default 0 (Some (m_offset i))) (prev ≫= offs)) true :: il_map offs w None l)
      with ((acc ++ [mkILMap (m_origOffset i) (default (m_offset i) (prev ≫= offs)) true]) ++ il_map offs w (None ≫= offs) l)
      by (by rewrite <- app_assoc).
    eapply IH; try done; [lia|rewrite length_drop; lia|by rewrite Hbl].
Qed.

End Encoding.

Lemma count_loop_run w l : forall n a c b ss,
  segment (w_instr w) a l None -> sized (w_instr w) l ss -> (length l <= n)%nat ->
  Forall (fun s => 0 < s) ss -> 0 <= b -> b + sum_sizes ss < 2 ^ 32 ->
  0 <= c -> c + Z.of_nat (length l) < 2 ^ 32 ->
  exists c', count_loop n (first_or l None) c b w = (Ok (c', b + sum_sizes ss), w).
Proof.
  induction l as [|p l IH]; intros n a c b ss Hs Hsz Hn Hpos Hb Hsum Hc Hcl.
  { inversion Hsz; subst. exists c. cbn. rewrite Z.add_0_r. by destruct n. }
  destruct (sized_cons _ _ _ _ Hsz) as (i & s & ss' & -> & Hi & Hsi & Hsz').
  inversion Hpos as [|? ? Hs0 Hpos']; subst. cbn [length sum_sizes foldr] in *. fold (sum_sizes ss') in *.
  assert (0 <= sum_sizes ss') by (clear -Hpos'; induction Hpos'; cbn; unfold sum_sizes in *; lia).
  destruct n as [|n]; [lia|]. destruct Hs as [Hnode Hs].
  destruct (node_lookup _ _ _ _ _ Hnode Hi) as [_ Hnext]. cbn [first_or count_loop].
  erewrite run_bind by (by apply run_load). rewrite Hsi.
  rewrite (run_bind _ _ _ _ _ (eq_refl : lift (Ok s) w = _)).
  rewrite (u32_small (b + s)) by (unfold is_u32; lia).
  assert (b <=? b + s = true) as Hle by (apply Z.leb_le; lia).
  assert (forall c', 0 <= c' <= c + 1 -> exists c2,
    (if_false_ret (b <=? b + s) E_BOUNDS ;;; count_loop n (m_pNextInstruction i) c' (b + s)) w
      = (Ok (c2, b + (s + sum_sizes ss')), w)) as Hrest.
  { intros c' Hc'. rewrite Hle, (run_bind _ _ _ _ _ (eq_refl : if_false_ret true E_BOUNDS w = _)), Hnext.
    destruct (IH n (Some p) c' (b + s) ss') as [c2 Hc2]; try done; try lia.
    exists c2. rewrite Hc2. do 3 f_equal. lia. }
  destruct (GetIsNew i).
  - rewrite (run_bind _ _ _ _ _ (eq_refl : ret c w = _)). apply Hrest. lia.
  - rewrite (u32_small (c + 1)) by (unfold is_u32; lia). rewrite bind_bind.
    assert (c <? c + 1 = true) as -> by (apply Z.ltb_lt; lia).
    rewrite (run_bind _ _ _ _ _ (eq_refl : if_false_ret true E_BOUNDS w = _)).
    rewrite (run_bind _ _ _ _ _ (eq_refl : ret (c + 1) w = _)). apply Hrest. lia.
Qed.

Lemma il_map_reoffset offs w w' l : forall pending,
  (forall p, unplaced <$> w_instr w' !! p = unplaced <$> w_instr w !! p) ->
  il_map offs w' pending l = il_map offs w pending l.
Proof.
  induction l as [|p l IH]; intros pending H; [done|]. cbn [il_map]. specialize (H p) as E.
  destruct (w_instr w' !! p) as [i'|], (w_instr w !! p) as [i|]; try done. injection E as E.
  assert (GetIsNew i' = GetIsNew i /\ m_origOffset i' = m_origOffset i) as [-> ->]
    by (destruct i, i'; injection E; intros; subst; done).
  by rewrite !IH.
Qed.

Lemma encodes_facts w l bss :
  encodes w l bss -> Z.of_nat (length (concat bss)) < 2 ^ 31 ->
  Forall (fun s => 0 < s) (lengths bss) /\ sum_sizes (lengths bss) = Z.of_nat (length (concat bss)) /\
  (length l <= length (concat bss))%nat.
Proof.
  unfold encodes. generalize (offset_in 0 l (lengths bss)) as offs. intros offs H.
  induction H as [|p bs l bss (i & o & Hi & Ho & He) _ IH]; [done|].
  cbn [concat lengths map sum_sizes foldr length]. rewrite length_app. intros Hlen.
  destruct (encode_instr_size _ _ _ He) as [_ ?]; [lia|].
  destruct IH as (H1 & H2 & H3); [lia|]. unfold lengths, sum_sizes in *.
  split_and!; [constructor; [lia|done]|lia|lia].
Qed.

Lemma EncodeIL_run w g l bss fuel :
  graph_list w g l -> encodes w l bss -> switch_not_last w l ->
  Z.of_nat (length (concat bss)) < 2 ^ 31 -> (length l <= fuel)%nat -> (0 < fuel)%nat ->
  exists w', EncodeIL fuel g w =
    (Ok (concat bss, il_map (offset_in 0 l (lengths bss)) w None l), w') /\
    graph_list w' g l /\ reoffset w w'.
Proof.
  intros Hl He Hsw Hlen Hf Hf0. destruct (encodes_facts _ _ _ He Hlen) as (Hpos & Hsum & Hll).
  pose proof (encodes_sized _ _ _ He Hlen) as Hsz.
  destruct (gl_graph _ _ _ Hl) as (gr & Hgr & Hfirst & _).
  unfold EncodeIL. erewrite run_bind by (by apply run_load_graph). rewrite Hfirst.
  destruct (count_loop_run w l fuel None 0 0 (lengths bss)) as [c Hc]; try done; try lia; [apply Hl|].
  erewrite run_bind by exact Hc.
  destruct (CalculateInstructionOffsets_run w g l (lengths bss) fuel Hl Hsz Hf Hf0)
    as (w1 & Hw1 & Hl1 & Hp1 & Hr & _).
  erewrite run_bind by exact Hw1. destruct (gl_graph _ _ _ Hl1) as (gr1 & Hgr1 & Hfirst1 & _).
  erewrite run_bind by (by apply run_load_graph). rewrite Hfirst1. cbn [snd].
  assert (Forall (fun s => 0 <= s) (lengths bss)) as Hpos0 by (eapply Forall_impl; [exact Hpos|]; cbn; lia).
  assert (to_emit w1 l (lengths bss) l bss) as Hemit.
  { eapply Forall2_impl; [exact He|]. intros p bs (i & o & Hi & Ho & Henc).
    destruct (placed_in _ _ _ _ _ _ Hp1 Hpos0 ltac:(lia) ltac:(lia) Ho) as (i1 & Hi1 & Ho1).
    destruct (reoffset_lookup _ _ Hr _ _ Hi) as (i1' & Hi1' & E). simplify_eq.
    exists i1. split_and!; [done|by rewrite Ho|]. rewrite <- Henc. f_equal.
    apply unplaced_eq; [by destruct i|by destruct i]. }
  destruct (emit_loop_run fuel w1 g l (lengths bss) (graph_list_chain _ _ _ Hl1) (reoffset_sized _ _ Hr _ _ Hsz) Hp1 Hf Hpos0 ltac:(lia)
    l bss None fuel None [] (replicate (Z.to_nat (0 + sum_sizes (lengths bss))) 0) []) with (w1 := w1)
    as (w2 & Hw2 & H2); try done; try (rewrite length_replicate; lia); try apply Hl1; try lia.
  - rewrite app_nil_l, length_replicate. lia.
  - intros p i1 Hlast Hi1. destruct (reoffset_lookup _ _ (symmetry Hr) _ _ Hi1) as (i & Hi & E).
    apply unplaced_fields in E as (<- & _). by apply (Hsw p i).
  - exists w2. split_and!.
    + rewrite app_nil_l in Hw2. rewrite Hw2, drop_ge by (rewrite length_replicate; lia).
      rewrite app_nil_r. cbn [app mbind option_bind]. by rewrite (il_map_reoffset _ w) by apply Hr.
    + eapply reoffset_graph_list; [|exact Hl1]. by apply only_flag_reoffset.
    + transitivity w1; [done|]. by apply only_flag_reoffset.
Qed.

(** C4: [EncodeIL] emits, for every graph whose instructions have encodings, the
    concatenation of those encodings, each branch and switch resolved to the place
    its targets have in the emitted code, and an IL map in which every old
    instruction is mapped to the place of the instrumentation inserted before it. *)
Theorem EncodeIL_emits w g l bss fuel :
  graph_list w g l -> encodes w l bss -> switch_not_last w l ->
  Z.of_nat (length (concat bss)) < 2 ^ 31 -> (length l <= fuel)%nat -> (0 < fuel)%nat ->
  exists w', EncodeIL fuel g w =
    (Ok (concat bss, il_map (offset_in 0 l (lengths bss)) w None l), w') /\
    graph_list w' g l /\ reoffset w w'.
Proof. apply EncodeIL_run. Qed.

Lemma demo_encodes : encodes demo [1; 2; 3; 4]%positive [[0x00]; [0x2D; 0x01]; [0x00]; [0x2A]].
Proof.
  unfold encodes. cbv zeta.
  repeat (apply Forall2_cons_2;
    [eexists; eexists; split; [vm_compute; reflexivity|]; split; [vm_compute; reflexivity|];
     vm_compute; reflexivity|]).
  apply Forall2_nil_2.
Qed.

Lemma EncodeIL_emits_witness : exists w', EncodeIL 4 1 demo =
  (Ok ([0x00; 0x2D; 0x01; 0x00; 0x2A],
       [mkILMap 0 0 true; mkILMap 0 1 true; mkILMap 0 3 true; mkILMap 0 4 true]), w').
Proof.
  destruct (EncodeIL_emits demo 1 _ _ 4 demo_graph_list demo_encodes) as (w' & H & _).
  - intros p i [= <-] [= <-]. done.
  - done.
  - cbn. lia.
  - lia.
  - exists w'. exact H.
Defined.
