(* ===== verification/DecodeSpec.v ===== *)
(** [DecodeInstructions]: the graph it builds for well-formed IL, and the round
    trip through [EncodeIL]. *)
From S2P Require Import Prelude ILOpcodes Instruction Store Chain BranchTargets Retarget Clauses Demo Offsets Graph Codec CodecSpec BackLinks.

(** ** Well-formed IL

    The reference disassembly of a buffer: the instructions from [pos] on, with
    their positions; [None] when an instruction is cut by the end of the buffer or
    its opcode is not one of ECMA-335. *)
Fixpoint disassemble (n : nat) (code : list Z) (pos : Z) : option (list (Z * CInstruction)) :=
  match n with
  | O => None
  | S n' =>
      match OrdinalOpcodeFromBytes code pos, InstructionFromBytes code pos with
      | Ok (S_OK, op), Ok i =>
          if op <? 0x123 then
            match GetInstructionSize i with
            | Ok s =>
                if Z.of_nat (length code) <=? pos + s then Some [(pos, i)]
                else cons (pos, i) <$> disassemble n' code (pos + s)
            | _ => None
            end
          else None
      | _, _ => None
      end
  end.

(** The targets of an instruction are instructions; [next] is the position of the
    next one, if there is one. *)
Definition targets_in (offs : list Z) (pos : Z) (next : option Z) (i : CInstruction) : bool :=
  match m_class i with
  | CBranch d _ _ => bool_decide (u32 (d + pos) ∈ offs)
  | CSwitch ds _ =>
      match next with
      | Some nx => forallb (fun d => bool_decide (u32 (d + nx) ∈ offs)) ds
      | None => false
      end
  | CNone | COperand _ => true
  end.

Fixpoint all_targets_in (offs : list Z) (items : list (Z * CInstruction)) : bool :=
  match items with
  | [] => true
  | (pos, i) :: items' =>
      targets_in offs pos (fst <$> head items') i && all_targets_in offs items'
  end.

Definition il_items (code : list Z) : option (list (Z * CInstruction)) :=
  disassemble (S (length code)) code 0.

(** Well-formed IL: it disassembles, and branches and switches jump to
    instructions of it. *)
Definition il_ok (code : list Z) : bool :=
  match il_items code with
  | Some items => all_targets_in (map fst items) items
  | None => false
  end.

Example il_ok_demo : il_ok [0x00; 0x2D; 0x01; 0x00; 0x2A] = true.
Proof. reflexivity. Qed.

(** ** The first pass *)

Definition next_fn (q : option ptr) (setOrig : bool) (i : CInstruction) : CInstruction :=
  let i := set_next q i in
  if bool_decide (m_pOriginalNextInstruction i = None) && setOrig
  then set_origNext (m_pNextInstruction i) i else i.

Definition prev_fn (q : option ptr) (setOrig : bool) (i : CInstruction) : CInstruction :=
  let i := set_prev q i in
  if bool_decide (m_pOriginalPreviousInstruction i = None) && setOrig
  then set_origPrev (m_pPreviousInstruction i) i else i.

(** What the decoded instruction [i] at position [o] has become. *)
Definition decoded_node (m : gmap ptr CInstruction) (p : ptr) (o : Z) (i : CInstruction) : Prop :=
  exists j, m !! p = Some j /\ m_opcode j = m_opcode i /\ m_class j = m_class i /\
    m_instructionGeneration j = Generation_Original /\ m_origOffset j = o /\ m_offset j = o.

Record pass1 (g : ptr) (w : World) (l : list ptr) (items : list (Z * CInstruction))
    (om : gmap Z ptr) : Prop := {
  p1_segment : segment (w_instr w) None l None;
  p1_nodup : NoDup l;
  p1_owned : forall p, p ∈ l <-> owner (w_instr w) p = Some (Some g);
  p1_items : Forall2 (fun p it => decoded_node (w_instr w) p it.1 it.2) l items;
  p1_map : forall o p, om !! o = Some p <-> (o, p) ∈ zip (items.*1) l
}.

(** Assignments that keep what [decoded_node] reads. *)
Definition keeps_decoded (f : CInstruction -> CInstruction) : Prop :=
  forall j, m_opcode (f j) = m_opcode j /\ m_class (f j) = m_class j /\
    m_instructionGeneration (f j) = m_instructionGeneration j /\
    m_origOffset (f j) = m_origOffset j /\ m_offset (f j) = m_offset j.

Lemma decoded_keep m f q p o i :
  keeps_decoded f -> decoded_node m p o i -> decoded_node (alter f q m) p o i.
Proof.
  intros Hf (j & Hj & H). unfold decoded_node. rewrite lookup_alter. case_decide as Hq; [subst q|by exists j].
  rewrite Hj. exists (f j). destruct (Hf j) as (E1 & E2 & E3 & E4 & E5). by rewrite E1, E2, E3, E4, E5.
Qed.

Lemma decoded_ne m f q p o i : p <> q -> decoded_node m p o i -> decoded_node (alter f q m) p o i.
Proof. intros Hq (j & Hj & H). exists j. by rewrite lookup_alter_ne. Qed.

Lemma keeps_decoded_next q b : keeps_decoded (next_fn q b).
Proof. intros []. unfold next_fn. cbn. by case_match. Qed.
Lemma keeps_decoded_prev q b : keeps_decoded (prev_fn q b).
Proof. intros []. unfold prev_fn. cbn. by case_match. Qed.
Lemma keeps_decoded_graph v : keeps_decoded (set_graph v).
Proof. by intros []. Qed.

Lemma next_fn_links q b i :
  m_pNextInstruction (next_fn q b i) = q /\
  m_pPreviousInstruction (next_fn q b i) = m_pPreviousInstruction i.
Proof. destruct i. unfold next_fn. cbn. by case_match. Qed.
Lemma prev_fn_links q b i :
  m_pPreviousInstruction (prev_fn q b i) = q /\
  m_pNextInstruction (prev_fn q b i) = m_pNextInstruction i.
Proof. destruct i. unfold prev_fn. cbn. by case_match. Qed.

Lemma keeps_links_offset v : keeps_links (set_offset v).
Proof. by intros []. Qed.
Lemma keeps_links_origOffset v : keeps_links (set_origOffset v).
Proof. by intros []. Qed.

(** The assignments to one instruction in the first pass. *)
Definition pass1_new (g : ptr) (prev : option ptr) (pos : Z) (i : CInstruction) : CInstruction :=
  set_origOffset pos (set_offset pos (prev_fn prev true (set_graph (Some g) i))).

Definition pass1_step (g p : ptr) (prev : option ptr) (pos : Z) (m : gmap ptr CInstruction) :
    gmap ptr CInstruction :=
  let m' := alter (prev_fn prev true) p (alter (set_graph (Some g)) p m) in
  let m' := match prev with Some pv => alter (next_fn (Some p) true) pv m' | None => m' end in
  alter (set_origOffset pos) p (alter (set_offset pos) p m').

Lemma pass1_step_run {A} g p prev pos w (k : W A) :
  owner (w_instr w) p = Some None -> is_u32 pos ->
  (SetGraph p g ;;;
   SetPreviousInstruction p prev true ;;;
   (match prev with Some pv => SetNextInstruction pv (Some p) true | None => ret tt end) ;;;
   SetOffset p (u32 pos) ;;; SetOriginalOffset p (u32 pos) ;;; k) w =
  k (on_instr (pass1_step g p prev pos) w).
Proof.
  intros Ho Hpos. rewrite u32_small by done.
  erewrite run_bind by (by apply run_SetGraph). by destruct prev.
Qed.

Lemma pass1_lookup g p prev pos m i q :
  m !! p = Some i -> prev <> Some p ->
  pass1_step g p prev pos m !! q =
    if decide (q = p) then Some (pass1_new g prev pos i)
    else if decide (prev = Some q) then next_fn (Some p) true <$> m !! q else m !! q.
Proof.
  intros Hi Hp. unfold pass1_step. case_decide as Hq.
  - subst q. rewrite !lookup_alter_eq.
    destruct prev as [pv|]; [rewrite lookup_alter_ne by congruence|]; by rewrite !lookup_alter_eq, Hi.
  - rewrite !lookup_alter_ne by done. destruct prev as [pv|]; [|by rewrite !lookup_alter_ne].
    destruct (decide (pv = q)) as [->|Hpv].
    + rewrite lookup_alter_eq, !lookup_alter_ne by done. by rewrite decide_True.
    + rewrite !lookup_alter_ne by congruence. rewrite decide_False; congruence.
Qed.

Section Pass1.
Context (g p : ptr) (pos : Z) (m : gmap ptr CInstruction) (i : CInstruction) (l : list ptr).
Hypothesis Hi : m !! p = Some i.
Hypothesis Hn : m_pNextInstruction i = None.
Hypothesis Hgen : m_instructionGeneration i = Generation_Original.
Hypothesis Hpl : p ∉ l.

Context (prev : option ptr).
Hypothesis Hprev : prev = last_or l None.

#[local] Notation m' := (pass1_step g p prev pos m).

Lemma prev_ne : prev <> Some p.
Proof using Hpl Hprev. subst prev. intros E. apply last_or_elem in E. done. Qed.

Lemma pass1_out q : q <> p -> prev <> Some q -> m' !! q = m !! q.
Proof using Hi Hpl Hprev.
  intros Hq Hpv. rewrite (pass1_lookup _ _ _ _ _ i) by (done || apply prev_ne).
  by rewrite !decide_False.
Qed.

Lemma pass1_in : m' !! p = Some (pass1_new g prev pos i).
Proof using Hi Hpl Hprev.
  rewrite (pass1_lookup _ _ _ _ _ i) by (done || apply prev_ne). by rewrite decide_True.
Qed.

Lemma pass1_segment : NoDup l -> segment m None l None -> segment m' None (l ++ [p]) None.
Proof using All.
  pose proof pass1_out as Hout. pose proof prev_ne as Hne. pose proof pass1_in as Hin.
  intros Hnd Hs. apply segment_app. split; [|split; [|exact I]].
  - cbn [first_or]. destruct l as [|pv l' _] using rev_ind; [exact I|].
    apply segment_snoc in Hs as [Hs (j & Hj & Hjp & Hjn)].
    rewrite last_or_rcons in Hprev.
    apply NoDup_app in Hnd as (_ & Hd & _). apply not_elem_of_app in Hpl as [Hp1 Hp2].
    apply segment_snoc. split.
    + eapply segment_frame; [|done]. intros q Hq. apply Hout; [set_solver|].
      rewrite Hprev. intros [= ->]. apply (Hd q Hq). set_solver.
    + assert (m' !! pv = Some (next_fn (Some p) true j)) as E.
      { rewrite (pass1_lookup _ _ _ _ _ i) by done.
        rewrite decide_False by set_solver. by rewrite decide_True, Hj. }
      exists (next_fn (Some p) true j). split; [exact E|].
      destruct (next_fn_links (Some p) true j) as [-> ->]. done.
  - exists (pass1_new g prev pos i). split; [exact Hin|]. unfold pass1_new.
    destruct (prev_fn_links prev true (set_graph (Some g) i)) as [E1 E2].
    destruct (prev_fn prev true _). cbn in *. subst. split; [done|]. by destruct i.
Qed.

Lemma pass1_decoded q o j : q <> p -> decoded_node m q o j -> decoded_node m' q o j.
Proof using Hi Hpl Hprev.
  intros Hq (j' & Hj & H). destruct (decide (prev = Some q)) as [E|E].
  - assert (m' !! q = Some (next_fn (Some p) true j')) as E'.
    { rewrite (pass1_lookup _ _ _ _ _ i) by (done || apply prev_ne).
      by rewrite decide_False, decide_True, Hj. }
    exists (next_fn (Some p) true j'). split; [exact E'|].
    destruct (keeps_decoded_next (Some p) true j') as (-> & -> & -> & -> & ->). done.
  - exists j'. by rewrite pass1_out.
Qed.

Lemma pass1_decoded_new : decoded_node m' p pos i.
Proof using All.
  exists (pass1_new g prev pos i). split; [apply pass1_in|]. unfold pass1_new.
  destruct (keeps_decoded_prev prev true (set_graph (Some g) i)) as (E1 & E2 & E3 & _ & _).
  destruct (prev_fn prev true _). cbn in *. subst. by destruct i.
Qed.

Lemma pass1_owner q : owner m' q = if decide (q = p) then Some (Some g) else owner m q.
Proof using All.
  unfold owner. case_decide as Hq.
  - subst q. rewrite pass1_in. unfold pass1_new, prev_fn. destruct i. cbn. by case_match.
  - destruct (decide (prev = Some q)) as [E|E]; [|by rewrite pass1_out].
    rewrite (pass1_lookup _ _ _ _ _ i) by (done || apply prev_ne).
    rewrite decide_False, decide_True by done. destruct (m !! q) as [[]|]; [|done].
    unfold next_fn. cbn. by case_match.
Qed.

End Pass1.

(** The instruction a decoding call creates. *)
Definition fresh_instr (i : CInstruction) : Prop :=
  m_pGraph i = None /\ m_pNextInstruction i = None /\ m_pPreviousInstruction i = None /\
  m_instructionGeneration i = Generation_Original /\ m_branchInfo i = None.

Lemma pass1_step_spec g w l items om p i pos :
  pass1 g w l items om -> Forall (fun it => it.1 < pos) items ->
  w_instr w !! p = Some i -> fresh_instr i -> p ∉ l ->
  pass1 g (on_instr (pass1_step g p (last_or l None) pos) w) (l ++ [p]) (items ++ [(pos, i)])
    (<[pos := p]> om).
Proof.
  intros [Hs Hnd Ho Hit Hom] Hlt Hi (Hg & Hn & _ & Hgen & _) Hpl.
  pose proof (Forall2_length _ _ _ Hit) as Hlen. split; cbn [w_instr on_instr].
  - eapply pass1_segment; eauto.
  - apply NoDup_app. split_and!; [done|set_solver|apply NoDup_singleton].
  - intros q. rewrite (pass1_owner _ _ _ _ _ _ Hi Hn Hgen Hpl _ eq_refl), elem_of_app, list_elem_of_singleton, Ho.
    case_decide; [|naive_solver]. subst q. naive_solver.
  - apply Forall2_app.
    + eapply Forall2_mono_in; [exact Hit|]. intros q it Hq Hd. eapply pass1_decoded; eauto. congruence.
    + constructor; [|constructor]. eapply pass1_decoded_new; eauto.
  - intros o q. rewrite fmap_app, zip_with_app by (by rewrite length_fmap). cbn.
    rewrite elem_of_app, list_elem_of_singleton, <- Hom. rewrite lookup_insert. case_decide as Hop.
    + subst o. split; [intros [= ->]; by right|]. intros [E|[= ->]]; [|done]. exfalso.
      apply Hom in E. apply elem_of_zip_l in E. apply list_elem_of_fmap in E as (it & -> & Hin).
      rewrite Forall_forall in Hlt. specialize (Hlt _ Hin). lia.
    + naive_solver.
Qed.

(** ** The first pass as a whole *)

(** What a decoding step leaves alone: it adds instructions without targets. *)
Record extends (w w' : World) : Prop := {
  ex_graph : w_graph w' = w_graph w;
  ex_clause : w_clause w' = w_clause w;
  ex_method : w_method w' = w_method w;
  ex_dom : forall q, is_Some (w_instr w !! q) -> is_Some (w_instr w' !! q);
  ex_class : forall q c, class_of w' q = Some c ->
    class_of w q = Some c \/ forall t, Some t ∉ refs c;
  ex_code : code_ok w -> code_ok w'
}.

#[export] Instance extends_preorder : PreOrder extends.
Proof.
  split; [split; try done; by left|]. intros w1 w2 w3 H1 H2. split.
  - by rewrite (ex_graph _ _ H2), (ex_graph _ _ H1).
  - by rewrite (ex_clause _ _ H2), (ex_clause _ _ H1).
  - by rewrite (ex_method _ _ H2), (ex_method _ _ H1).
  - intros q Hq. by apply (ex_dom _ _ H2), (ex_dom _ _ H1).
  - intros q c [Hc|Hc]%(ex_class _ _ H2); [|by right]. by apply (ex_class _ _ H1).
  - intros H. by apply (ex_code _ _ H2), (ex_code _ _ H1).
Qed.

Lemma extends_closed w w' : extends w w' -> closed w -> closed w'.
Proof.
  intros H Hcl p c t [Hc|Hc]%(ex_class _ _ H) Ht; [|by destruct (Hc t)].
  apply (ex_dom _ _ H). by eapply Hcl.
Qed.

Lemma extends_alter (f : CInstruction -> CInstruction) F p w :
  (forall i, code_of (f i) = code_of i) -> extends w (on_instr F w) ->
  extends w (on_instr (fun m => alter f p (F m)) w).
Proof.
  intros Hf [H1 H2 H3 H4 H5 H6]. split; try done.
  - intros q Hq. by apply lookup_alter_is_Some, H4.
  - intros q c. specialize (H5 q c). unfold class_of in *. cbn in *. rewrite lookup_alter.
    case_decide as Hq; [subst q|done]. destruct (F (w_instr w) !! p) as [i|]; cbn; [|done].
    specialize (Hf i). injection Hf as _ -> _. done.
  - intros Hc. eapply same_code_ok; [|by apply H6]. exact (alter_same_code f p (on_instr F w) Hf).
Qed.

Lemma extends_pass1_step g p prev pos w : extends w (on_instr (pass1_step g p prev pos) w).
Proof.
  assert (forall q b i, code_of (next_fn q b i) = code_of i) as Hnf by (intros q b []; unfold next_fn; cbn; by case_match).
  assert (forall q b i, code_of (prev_fn q b i) = code_of i) as Hpf by (intros q b []; unfold prev_fn; cbn; by case_match).
  unfold pass1_step. apply extends_alter; [by intros []|]. apply extends_alter; [by intros []|].
  assert (extends w (on_instr (fun m => alter (prev_fn prev true) p (alter (set_graph (Some g)) p m)) w)).
  { apply extends_alter; [done|]. apply (extends_alter _ (fun m => m)); [by intros []|].
    by destruct w. }
  destruct prev; [by apply extends_alter|done].
Qed.

(** Allocation. *)
Lemma extends_alloc p i w :
  w_instr w !! p = None -> m_branchInfo i = None -> kind_ok i -> (forall t, Some t ∉ refs (m_class i)) ->
  extends w (on_instr (insert p i) w).
Proof.
  intros Hp Hb Hk Hi. split; [done..| | |by apply alloc_code_ok]; cbn.
  - intros q Hq. rewrite lookup_insert. case_decide; [|done]. by eexists.
  - intros q c. unfold class_of. cbn. rewrite lookup_insert. case_decide; [|by left].
    intros [= <-]. by right.
Qed.

Lemma pass1_alloc g w l items om p i :
  w_instr w !! p = None -> fresh_instr i -> pass1 g w l items om ->
  pass1 g (on_instr (insert p i) w) l items om /\ p ∉ l.
Proof.
  intros Hp (Hg & _) [Hs Hnd Ho Hit Hom].
  assert (p ∉ l) as Hpl by (intros E%Ho; unfold owner in E; by rewrite Hp in E).
  assert (forall q, q ∈ l -> insert p i (w_instr w) !! q = w_instr w !! q) as Hframe
    by (intros q Hq; rewrite lookup_insert_ne; congruence).
  split; [|done]. split; cbn; [|done| | |done].
  - by eapply segment_frame.
  - intros q. rewrite Ho. unfold owner. rewrite lookup_insert. case_decide; [|done]. subst q.
    rewrite Hp. cbn. by rewrite Hg.
  - eapply Forall2_mono_in; [exact Hit|]. intros q it Hq (j & Hj & H). exists j. by rewrite Hframe.
Qed.

Lemma run_alloc i w :
  alloc i w = (Ok (fresh (dom (w_instr w))), on_instr (insert (fresh (dom (w_instr w))) i) w) /\
  w_instr w !! fresh (dom (w_instr w)) = None.
Proof. split; [done|]. apply not_elem_of_dom, is_fresh. Qed.

(** The instruction a successful step of the disassembly decodes. *)
Lemma size_congr i j :
  m_opcode j = m_opcode i -> m_class j = m_class i -> GetInstructionSize j = GetInstructionSize i.
Proof. unfold GetInstructionSize. by intros -> ->. Qed.

Definition decoded_item (code : list Z) (pos : Z) (i : CInstruction) : Prop :=
  exists r c, opinfo (m_opcode i) = Ok r /\ i = new_instruction (m_opcode i) false c /\
    class_matches (m_opcode i) r c /\ decoded_at code pos i /\ 0 <= m_opcode i < 0x123.

Lemma decoded_item_fresh code pos i :
  decoded_item code pos i -> fresh_instr i /\ forall t, Some t ∉ refs (m_class i).
Proof.
  intros (r & c & _ & -> & Hc & _ & _). split; [done|]. intros t. cbn.
  destruct c; cbn; [set_solver..| |].
  - destruct Hc as (_ & _ & -> & ->). set_solver.
  - destruct Hc as (_ & -> & _). by intros ?%elem_of_replicate_inv.
Qed.

(** The class the decoder chooses agrees with the opcode. *)
Lemma decoded_item_kind_ok code pos i : decoded_item code pos i -> kind_ok i.
Proof.
  intros (r & c & Hr & Hi & Hm & _). exists r. split; [done|].
  assert (m_class i = c) as -> by (by rewrite Hi). destruct (row_facts _ _ Hr) as (_ & _ & _ & Hty & _).
  destruct c as [|v|d t orig|ds ts]; cbn in Hm.
  - destruct Hm as [Hf Ht]. split; [done|]. intros E%Hty. congruence.
  - destruct Hm as (Hf & [n Hn] & _). split; [done|]. intros E%Hty. by rewrite E in Hn.
  - apply Hm.
  - apply Hm.
Qed.

Lemma decoded_item_size code pos i :
  decoded_item code pos i ->
  exists s, GetInstructionSize i = Ok s /\ 0 < s /\ 0 <= pos /\ pos + s <= Z.of_nat (length code).
Proof.
  intros (r & c & _ & _ & _ & (r' & pl & _ & _ & Hs & Hrd) & _). eexists. split; [exact Hs|].
  apply read_at_Some in Hrd as (? & ? & _). rewrite length_app, length_opcode_bytes in *.
  case_decide; lia.
Qed.

Section Disassembly.
Context (code : list Z).
Hypothesis Hbytes : Forall is_byte code.
Hypothesis Hlen : Z.of_nat (length code) < 2 ^ 31.

Lemma disassemble_step n pos items :
  disassemble n code pos = Some items ->
  exists n' i s items', n = S n' /\ InstructionFromBytes code pos = Ok i /\ decoded_item code pos i /\
    GetInstructionSize i = Ok s /\ items = (pos, i) :: items' /\
    (if Z.of_nat (length code) <=? pos + s then items' = [] else disassemble n' code (pos + s) = Some items').
Proof using Hbytes Hlen.
  destruct n as [|n]; [done|]. cbn [disassemble].
  destruct (OrdinalOpcodeFromBytes code pos) as [[hr op]| | |] eqn:Hop; try done.
  destruct hr; try done. destruct (InstructionFromBytes code pos) as [i| | |] eqn:Hi; try done.
  destruct (Z.ltb_spec op 0x123) as [Hlt|]; [|done].
  destruct (GetInstructionSize i) as [s| | |] eqn:Hs; try done. intros H.
  destruct (InstructionFromBytes_spec code pos op Hbytes Hlen Hop Hlt i Hi) as (r & c & Hr & Hic & Hm & Hd).
  assert (0 <= op) as H0 by (by destruct (OrdinalOpcode_spec _ _ _ _ Hbytes Hop) as [(_ & ? & _)|(? & _)]; [lia|]).
  assert (m_opcode i = op) as Ho by (by subst i).
  exists n, i, s. destruct (Z.of_nat (length code) <=? pos + s).
  - injection H as <-. exists []. split_and!; try done. exists r, c. by rewrite Ho.
  - destruct (disassemble n code (pos + s)) as [items'|]; [|done]. injection H as <-.
    exists items'. split_and!; try done. exists r, c. by rewrite Ho.
Qed.

End Disassembly.

(** The items of a disassembly follow each other without gaps, from [pos] to the
    end of the code. *)
Fixpoint contiguous (code : list Z) (pos : Z) (items : list (Z * CInstruction)) : Prop :=
  match items with
  | [] => False
  | (o, i) :: items' =>
      o = pos /\ decoded_item code pos i /\
      exists s, GetInstructionSize i = Ok s /\
        match items' with
        | [] => pos + s = Z.of_nat (length code)
        | _ => contiguous code (pos + s) items'
        end
  end.

Section Loop.
Context (code : list Z).
Hypothesis Hbytes : Forall is_byte code.
Hypothesis Hlen : Z.of_nat (length code) < 2 ^ 31.

Lemma disassemble_contiguous n : forall pos items,
  disassemble n code pos = Some items -> contiguous code pos items.
Proof using Hbytes Hlen.
  induction n as [|n IH]; intros pos items H; [done|].
  destruct (disassemble_step code Hbytes Hlen _ _ _ H) as (n' & i & s & items' & [= <-] & _ & Hd & Hs & -> & Hrest).
  destruct (decoded_item_size _ _ _ Hd) as (s' & Hs' & _ & _ & Hle).
  rewrite Hs in Hs'. injection Hs' as <-. cbn. split_and!; [done..|]. exists s. split; [done|].
  destruct (Z.leb_spec (Z.of_nat (length code)) (pos + s)).
  - subst items'. cbn; lia.
  - apply IH in Hrest. by destruct items'.
Qed.

Lemma decode_loop_run g n : forall fuel pos items' w l items om p i,
  disassemble n code pos = Some items' -> (n <= fuel)%nat ->
  InstructionFromBytes code pos = Ok i -> pass1 g w l items om ->
  Forall (fun it => it.1 < pos) items -> w_instr w !! p = Some i -> p ∉ l ->
  exists w' l' om' last, decode_loop g code fuel p (last_or l None) pos om w = (Ok (last, om'), w') /\
    pass1 g w' (l ++ p :: l') (items ++ items') om' /\ last_or (p :: l') None = Some last /\
    extends w w'.
Proof using Hbytes Hlen.
  induction n as [|n IH]; intros fuel pos items' w l items om p i Hdis Hfuel Hi H1 Hlt Hp Hpl; [done|].
  destruct (disassemble_step code Hbytes Hlen _ _ _ Hdis)
    as (n' & i' & s & items'' & [= <-] & Hi' & Hd & Hs & -> & Hrest).
  rewrite Hi in Hi'. injection Hi' as <-.
  destruct (decoded_item_size _ _ _ Hd) as (s' & Hs' & Hs0 & Hpos & Hle).
  rewrite Hs in Hs'. injection Hs' as <-.
  destruct (decoded_item_fresh _ _ _ Hd) as [Hfresh _]. destruct fuel as [|fuel]; [lia|].
  cbn [decode_loop]. rewrite pass1_step_run; [|rewrite (owner_Some _ _ _ Hp); by destruct Hfresh as [-> _]|unfold is_u32; lia].
  pose proof (pass1_step_spec _ _ _ _ _ _ _ _ H1 Hlt Hp Hfresh Hpl) as H2.
  set (w2 := on_instr (pass1_step g p (last_or l None) pos) w) in *.
  assert (extends w w2) as Hex by apply extends_pass1_step.
  assert (decoded_node (w_instr w2) p pos i) as (j & Hj & Hjo & Hjc & _)
    by (destruct Hfresh as (_ & ? & _ & ? & _); by eapply pass1_decoded_new).
  erewrite run_bind by (by apply run_load). rewrite (size_congr _ _ Hjo Hjc), Hs.
  rewrite (run_bind _ _ _ _ _ (eq_refl : lift (Ok s) w2 = _)), u32_small by (unfold is_u32; lia).
  destruct (Z.leb_spec (Z.of_nat (length code)) (pos + s)).
  - subst items''. exists w2, [], (<[pos := p]> om), p. split_and!; done.
  - destruct (disassemble_step code Hbytes Hlen _ _ _ Hrest) as (n'' & i2 & _ & _ & _ & Hi2 & Hd2 & _).
    rewrite Hi2, (run_bind _ _ _ _ _ (eq_refl : lift (Ok i2) w2 = _)).
    destruct (run_alloc i2 w2) as [Hal Hnone]. erewrite run_bind by exact Hal.
    destruct (decoded_item_fresh _ _ _ Hd2) as [Hf2 Hr2].
    set (p2 := fresh (dom (w_instr w2))) in *.
    destruct (pass1_alloc _ _ _ _ _ _ _ Hnone Hf2 H2) as [H3 Hp2].
    destruct (IH fuel (pos + s) items'' (on_instr (insert p2 i2) w2) (l ++ [p]) (items ++ [(pos, i)])
      (<[pos := p]> om) p2 i2) as (w' & l' & om' & last & Hw' & H4 & Hlast & Hex'); try done; [lia| | |].
    + apply Forall_app. split; [|constructor; [cbn; lia|done]]. eapply Forall_impl; [done|]. cbn. lia.
    + apply lookup_insert_eq.
    + exists w', (p2 :: l'), om', last. rewrite last_or_rcons in Hw'. split_and!; try done.
      * by rewrite <- !app_assoc in H4.
      * transitivity w2; [done|]. etransitivity; [|done]. apply extends_alloc; [done|apply Hf2|by eapply decoded_item_kind_ok|done].
Qed.

End Loop.
