(* ===== verification/LinkSpec.v ===== *)
(** The second pass of [DecodeInstructions]: every branch and every case of a
    switch is linked to the instruction at its offset, and the graph that comes
    out represents the disassembly of the code. *)
From S2P Require Import Prelude ILOpcodes Instruction Store Chain BranchTargets Retarget Clauses Demo Offsets Graph Codec CodecSpec DecodeSpec BackLinks.

(** ** Specification *)

(** The offset map of the first pass: the positions of the items. *)
Definition offset_map (items : list (Z * CInstruction)) (l : list ptr) (om : gmap Z ptr) : Prop :=
  forall o p, om !! o = Some p <-> (o, p) ∈ zip (items.*1) l.

(** The class of a decoded instruction at [o] once its targets are known; [next]
    is the position of the instruction after it. *)
Definition resolve (om : gmap Z ptr) (o : Z) (next : option Z) (c : InstrClass) : option InstrClass :=
  match c with
  | CBranch d _ _ => t ← om !! u32 (d + o); Some (CBranch d (Some t) (Some t))
  | CSwitch ds _ =>
      nx ← next; ts ← mapM (fun d => om !! u32 (d + nx)) ds; Some (CSwitch ds (map Some ts))
  | CNone | COperand _ => Some c
  end.

(** What the item [it] has become: its targets are linked when [done] is set. *)
Definition linked_at (om : gmap Z ptr) (m : gmap ptr CInstruction) (done : bool) (p : ptr)
    (it : Z * CInstruction) (next : option Z) : Prop :=
  exists j, m !! p = Some j /\ m_opcode j = m_opcode it.2 /\
    m_instructionGeneration j = Generation_Original /\ m_origOffset j = it.1 /\ m_offset j = it.1 /\
    (if done then resolve om it.1 next (m_class it.2) = Some (m_class j)
     else m_class j = m_class it.2).

(** The items from the [n]-th on are linked. *)
Record pass2 (g : ptr) (w : World) (l : list ptr) (items : list (Z * CInstruction))
    (om : gmap Z ptr) (n : nat) : Prop := {
  p2_chain : graph_chain w g l;
  p2_closed : closed w;
  p2_nodes : forall k p it, l !! k = Some p -> items !! k = Some it ->
    linked_at om (w_instr w) (bool_decide (n <= k)%nat) p it (fst <$> items !! S k)
}.

(** ** Positions and sizes *)

Definition item_size (it : Z * CInstruction) : Z :=
  match GetInstructionSize it.2 with Ok s => s | _ => 0 end.

Lemma contiguous_lookup code items : forall pos k o i,
  contiguous code pos items -> items !! k = Some (o, i) ->
  decoded_item code o i /\ pos <= o /\
  match items !! S k with
  | Some it => it.1 = o + item_size (o, i)
  | None => o + item_size (o, i) = Z.of_nat (length code)
  end.
Proof.
  induction items as [|[o' i'] items IH]; intros pos k o i Hc Hk; [done|].
  destruct Hc as (-> & Hd & s & Hs & Hrest).
  destruct (decoded_item_size _ _ _ Hd) as (s' & Hs' & Hs0 & _). rewrite Hs in Hs'. injection Hs' as <-.
  destruct k as [|k].
  - injection Hk as <- <-. split_and!; [done|lia|]. unfold item_size. cbn [snd]. rewrite Hs. cbn.
    destruct items as [|[o2 i2] items]; [done|]. by destruct Hrest as [-> _].
  - cbn in Hk |- *. destruct items as [|it items]; [done|].
    destruct (IH _ _ _ _ Hrest Hk) as (? & ? & ?). split_and!; [done|lia|done].
Qed.

Lemma contiguous_placed code m items : forall pos l,
  Z.of_nat (length code) < 2 ^ 31 -> contiguous code pos items ->
  Forall2 (fun p it => m_offset <$> m !! p = Some it.1) l items ->
  placed m pos l (map item_size items).
Proof.
  induction items as [|[o i] items IH]; intros pos l Hlen Hc H; [done|].
  inversion H as [|p ? l' ? Hp Hl]; subst. destruct Hc as (-> & Hd & s & Hs & Hrest).
  destruct (decoded_item_size _ _ _ Hd) as (s' & Hs' & Hs0 & Hpos & Hle).
  rewrite Hs in Hs'. injection Hs' as <-. cbn [map placed]. split; [done|].
  unfold item_size at 1. cbn [snd]. rewrite Hs, u32_small by (unfold is_u32; lia).
  destruct items; [by inversion Hl|]. by apply IH.
Qed.

(** Resolving the targets does not change the size. *)
Lemma resolve_size om o next i j r :
  class_matches (m_opcode i) r (m_class i) -> m_opcode j = m_opcode i ->
  resolve om o next (m_class i) = Some (m_class j) -> GetInstructionSize j = GetInstructionSize i.
Proof.
  unfold GetInstructionSize. intros Hm ->. destruct (m_class i) as [| |d t orig|ds ts]; cbn; try by intros [= <-].
  - destruct (om !! _); [|done]. by intros [= <-].
  - destruct next; [|done]. cbn. destruct (mapM _ ds) as [ts'|] eqn:E; [|done]. intros [= <-].
    destruct Hm as (_ & -> & _). apply length_mapM in E. by rewrite length_map, length_replicate, E.
Qed.

Lemma Forall2_from_lookup {A B} (P : A -> B -> Prop) l k :
  length l = length k -> (forall n x y, l !! n = Some x -> k !! n = Some y -> P x y) -> Forall2 P l k.
Proof. intros. by apply Forall2_same_length_lookup_2. Qed.

(** The links of the [k]-th instruction. *)
Lemma segment_lookup m l : forall a k p,
  segment m a l None -> l !! k = Some p ->
  node m p (match k with O => a | S k' => l !! k' end) (l !! S k).
Proof.
  induction l as [|q l IH]; intros a k p Hs Hk; [done|]. destruct Hs as [Hn Hs], k as [|k].
  - injection Hk as <-. cbn. by destruct l.
  - specialize (IH (Some q) k p Hs Hk). by destruct k.
Qed.

Lemma kept_graph_chain w w' g l : kept w w' -> graph_chain w g l -> graph_chain w' g l.
Proof.
  intros H [Hg Hs Hn Ho]. split; [by rewrite (kp_graph _ _ H)| |done|].
  - eapply segment_mono; [|done]. intros p a b _. by apply kept_node.
  - intros p. by rewrite (kept_owner _ _ _ H).
Qed.

Lemma run_attempt {A} (m : W A) w a w' : m w = (Ok a, w') -> attempt m w = (Ok (Some a), w').
Proof. unfold attempt. by intros ->. Qed.

(** ** The cases of a switch *)

(** Filling the first case that is not linked. *)
Lemma fill_case (ts : list ptr) n t :
  (map Some ts ++ replicate (S n) None) !! length ts = Some None /\
  <[length ts := Some t]> (map Some ts ++ replicate (S n) None) = map Some (ts ++ [t]) ++ replicate n None.
Proof.
  split; [rewrite lookup_app_r; rewrite length_map; [by rewrite Nat.sub_diag|lia]|].
  rewrite insert_app_r_alt by (by rewrite length_map). rewrite length_map, Nat.sub_diag, map_app, <- app_assoc. done.
Qed.

Lemma fill_case_closed w p ds (ts : list ptr) t n (rest : list (option ptr)) :
  class_of w p = Some (CSwitch ds (map Some ts ++ rest)) -> closed w -> is_Some (w_instr w !! t) ->
  forall t', Some t' ∈ map Some (ts ++ [t]) ++ replicate n None -> is_Some (w_instr w !! t').
Proof.
  intros Hp Hcl Ht t'. rewrite elem_of_app. intros [Hin|Hin%elem_of_replicate_inv]; [|done].
  apply list_elem_of_In, in_map_iff in Hin as (x & [= ->] & Hin%list_elem_of_In).
  apply elem_of_app in Hin as [Hin| ->%list_elem_of_singleton]; [|done].
  eapply (Hcl p); [exact Hp|]. cbn. apply elem_of_app. left. apply list_elem_of_fmap. by exists t'.
Qed.

Lemma finalize_cases_run fuel p nx om ds todo : forall done ts done_ts w,
  class_of w p = Some (CSwitch ds (map Some done_ts ++ replicate (length todo) None)) ->
  ds = done ++ todo -> length done = length done_ts ->
  mapM (fun d => om !! u32 (d + nx)) todo = Some ts -> closed w ->
  (forall o t, om !! o = Some t -> is_Some (w_instr w !! t)) ->
  sets_class p (CSwitch ds (map Some (done_ts ++ ts)))
    (finalize_cases fuel p nx om (Z.of_nat (length done_ts)) (length todo)) w.
Proof.
  induction todo as [|d todo IH]; intros done ts done_ts w Hp Hds Hdl Hm Hcl Hom.
  { injection Hm as <-. exists w. rewrite app_nil_r in Hp |- *. by split_and!. }
  cbn in Hm. destruct (om !! u32 (d + nx)) as [t|] eqn:Ht; [|done]. cbn in Hm.
  destruct (mapM _ todo) as [ts'|] eqn:Hm'; [|done]. injection Hm as <-.
  pose proof Hp as Hp'. unfold class_of in Hp'.
  destruct (w_instr w !! p) as [i|] eqn:Hi; [|done]. injection Hp' as Hc.
  destruct (fill_case done_ts (length todo) t) as [Hx Hins].
  destruct (Switch_SetBranchTarget_run w p _ _ _ _ t Hp Hx Hcl (Hom _ _ Ht)) as (w1 & Hw1 & Hk & Hp1 & Hq).
  unfold sets_class. cbn [length finalize_cases]. unfold Switch_GetBranchOffset. rewrite bind_bind.
  rewrite (run_bind _ _ _ _ _ (run_load _ _ _ Hi)). rewrite Hc, (switch_target_lookup _ (length done_ts) None) by exact Hx.
  rewrite decide_True by lia. rewrite Nat2Z.id.
  replace (ds !! length done_ts) with (Some d)
    by (subst ds; rewrite <- Hdl, lookup_app_r, Nat.sub_diag by lia; done).
  unfold lift, bind at 1 2. cbn [of_option]. rewrite Ht. cbn [if_null_ret].
  rewrite (run_bind _ _ _ _ _ (eq_refl : ret t w = _)).
  erewrite run_bind by (by apply run_attempt).
  change (replicate (length (d :: todo)) None) with (replicate (S (length todo)) (@None ptr)) in Hp1. rewrite Hins in Hp1.
  destruct (IH (done ++ [d]) ts' (done_ts ++ [t]) w1) as (w2 & Hw2 & Hk2 & Hp2 & Hq2); try done.
  - by rewrite <- app_assoc.
  - rewrite !length_app. cbn. lia.
  - eapply sets_class_closed; [exact Hcl|exact Hw1|done|exact Hp1|done|].
    eapply fill_case_closed; eauto.
  - intros o t' Ht'. eapply kept_is_Some; [exact Hk|]. by eapply Hom.
  - exists w2. replace (Z.of_nat (length done_ts) + 1) with (Z.of_nat (length (done_ts ++ [t])))
      by (rewrite length_app; cbn; lia).
    rewrite <- app_assoc in Hp2. split_and!; [done|by transitivity w1|done|].
    intros q Hqp. by rewrite Hq2, Hq.
Qed.

Lemma finalize_cases_code_ok fuel p nx om ds : forall todo done_ts w w',
  class_of w p = Some (CSwitch ds (map Some done_ts ++ replicate todo None)) -> code_ok w ->
  (forall o t, om !! o = Some t -> is_Some (w_instr w !! t)) ->
  finalize_cases fuel p nx om (Z.of_nat (length done_ts)) todo w = (Ok tt, w') -> code_ok w'.
Proof.
  induction todo as [|todo IH]; intros done_ts w w' Hp Hc Hom; [by intros [= <-]|].
  pose proof Hp as Hp'. unfold class_of in Hp'.
  destruct (w_instr w !! p) as [i|] eqn:Hi; [|done]. injection Hp' as Hci.
  destruct (fill_case done_ts todo 1%positive) as [Hx _].
  cbn [finalize_cases]. unfold Switch_GetBranchOffset. rewrite bind_bind.
  rewrite (run_bind _ _ _ _ _ (run_load _ _ _ Hi)). rewrite Hci, (switch_target_lookup _ (length done_ts) None) by exact Hx.
  rewrite decide_True by lia. rewrite Nat2Z.id.
  unfold lift, bind at 1 2. destruct (ds !! length done_ts) as [d|]; [|done]. cbn [of_option].
  destruct (om !! u32 (d + nx)) as [t|] eqn:Ht; [|done]. cbn [if_null_ret].
  rewrite (run_bind _ _ _ _ _ (eq_refl : ret t w = _)).
  destruct (Switch_SetBranchTarget_code_ok _ _ _ _ _ t Hc Hp Hx (Hom _ _ Ht)) as (w1 & Hw1 & Hk & Hp1 & _ & Hc1).
  destruct (fill_case done_ts todo t) as [_ Hins]. rewrite Hins in Hp1.
  erewrite run_bind by (by apply run_attempt).
  replace (Z.of_nat (length done_ts) + 1) with (Z.of_nat (length (done_ts ++ [t]))) by (rewrite length_app; cbn; lia).
  apply IH; [done..|]. intros o t' Ht'. eapply kept_is_Some; [exact Hk|]. by eapply Hom.
Qed.

(** ** One step of the second pass *)

Lemma elem_of_zip_lookup {A B} (l : list A) (k : list B) x y :
  (x, y) ∈ zip l k <-> exists n, l !! n = Some x /\ k !! n = Some y.
Proof.
  rewrite list_elem_of_lookup. split; intros [n Hn]; exists n.
  - by apply lookup_zip_Some.
  - by apply lookup_zip_Some.
Qed.

Lemma all_targets_lookup offs items : forall k o i,
  all_targets_in offs items = true -> items !! k = Some (o, i) ->
  targets_in offs o (fst <$> items !! S k) i = true.
Proof.
  induction items as [|[o' i'] items IH]; intros k o i H Hk; [done|].
  cbn [all_targets_in] in H. apply andb_true_iff in H as [H1 H2]. destruct k as [|k].
  - injection Hk as <- <-. by destruct items.
  - by apply IH.
Qed.

Lemma only_flag_closed w w' : only_flag w w' -> closed w -> closed w'.
Proof. intros H Hcl p c t. unfold class_of. rewrite (of_instr _ _ H). apply Hcl. Qed.

Lemma only_flag_chain w w' g l : only_flag w w' -> graph_chain w g l -> graph_chain w' g l.
Proof. intros H. by apply reoffset_graph_chain, only_flag_reoffset. Qed.

(** What the second pass leaves alone. *)
Record quiet (w w' : World) : Prop := {
  qu_graph : forall g, set_stale false <$> w_graph w' !! g = set_stale false <$> w_graph w !! g;
  qu_clause : w_clause w' = w_clause w;
  qu_method : w_method w' = w_method w;
  qu_code : code_ok w -> code_ok w'
}.

#[export] Instance quiet_preorder : PreOrder quiet.
Proof. split; [by split|]. intros w1 w2 w3 [] []. split; [intros; congruence|congruence..|auto]. Qed.

Lemma only_flag_quiet w w' : only_flag w w' -> quiet w w'.
Proof. intros []. split; [done..|]. by apply same_instr_code_ok. Qed.

Lemma kept_quiet w w' : kept w w' -> (code_ok w -> code_ok w') -> quiet w w'.
Proof. intros [_ Hg ? ?]. split; [|done..]. intros g. by rewrite Hg. Qed.

Lemma shell_offsets i j :
  shell j = shell i -> m_origOffset j = m_origOffset i /\ m_offset j = m_offset i.
Proof. destruct i, j. intros [= ]. by subst. Qed.

(** The table's flags agree with the class the decoder chose. *)
Lemma decoded_item_kind code pos i :
  decoded_item code pos i ->
  exists r, opinfo (m_opcode i) = Ok r /\
  match m_class i with
  | CNone | COperand _ =>
      IsFlagSet (m_flags r) ILOpcodeFlag_Branch = false /\ (m_opcode i =? Cee_Switch) = false
  | CBranch _ t orig => IsFlagSet (m_flags r) ILOpcodeFlag_Branch = true /\ t = None /\ orig = None
  | CSwitch ds ts =>
      IsFlagSet (m_flags r) ILOpcodeFlag_Branch = false /\ (m_opcode i =? Cee_Switch) = true /\
      ts = replicate (length ds) None /\ Z.of_nat (length ds) < Z.of_nat (length code)
  end.
Proof.
  intros (r & c & Hr & Hi & Hm & (r' & pl & _ & Hpl & _ & Hrd) & _). exists r. split; [done|].
  assert (m_class i = c) as Hc by (by rewrite Hi). rewrite Hc in *.
  destruct (row_facts _ _ Hr) as (_ & _ & _ & Hty & _ & Hbr).
  destruct c as [|v|d t orig|ds ts]; cbn in Hm.
  - destruct Hm as [Hf Ht]. split; [done|]. apply Z.eqb_neq. intros E%Hty. congruence.
  - destruct Hm as (Hf & [n Hn] & _). split; [done|]. apply Z.eqb_neq. intros E%Hty. by rewrite E in Hn.
  - destruct Hm as (? & _ & -> & ->). done.
  - destruct Hm as (Hs & -> & _). split_and!; [|by rewrite Hs|done|].
    + destruct (IsFlagSet _ _); [|done]. destruct (Hbr eq_refl) as (_ & ? & _). done.
    + assert (pl = le_bytes 4 (Z.of_nat (length ds)) ++ concat (map (le_bytes 4) ds)) as -> by (unfold class_payload in Hpl; congruence). apply read_at_Some in Hrd as (? & Hle & _).
      rewrite !length_app, length_le_bytes, length_concat_le4 in Hle. lia.
Qed.

Section Link.
Context (code : list Z) (items : list (Z * CInstruction)) (l : list ptr) (om : gmap Z ptr)
  (g : ptr) (fuel : nat).
Hypothesis Hlen : Z.of_nat (length code) < 2 ^ 31.
Hypothesis Hcont : contiguous code 0 items.
Hypothesis Htargets : all_targets_in (map fst items) items = true.
Hypothesis Hll : length l = length items.
Hypothesis Hom : offset_map items l om.
Hypothesis Hfuel : (length l <= fuel)%nat.

Lemma target_found o : o ∈ map fst items -> exists t, om !! o = Some t.
Proof using Hll Hom.
  intros (n & Hn)%list_elem_of_lookup. pose proof Hn as Hn'. apply lookup_lt_Some in Hn'.
  rewrite length_map, <- Hll in Hn'. apply lookup_lt_is_Some in Hn' as [t Ht].
  exists t. apply Hom, elem_of_zip_lookup. by exists n.
Qed.

Lemma target_in o t : om !! o = Some t -> t ∈ l.
Proof using Hom. intros (n & _ & Hn)%Hom%elem_of_zip_lookup. by eapply list_elem_of_lookup_2. Qed.

Lemma resolvable k o i :
  items !! k = Some (o, i) ->
  exists c, resolve om o (fst <$> items !! S k) (m_class i) = Some c.
Proof using Htargets Hll Hom.
  intros Hk. pose proof (all_targets_lookup _ _ _ _ _ Htargets Hk) as Ht. unfold targets_in, resolve in *.
  destruct (m_class i) as [| |d t orig|ds ts]; [by eexists..| |].
  - apply bool_decide_eq_true in Ht. destruct (target_found _ Ht) as [t' ->]. by eexists.
  - destruct (fst <$> items !! S k) as [nx|]; [|done]. cbn.
    assert (is_Some (mapM (fun d => om !! u32 (d + nx)) ds)) as [ts' ->]; [|by eexists].
    apply mapM_is_Some. rewrite forallb_forall in Ht. apply Forall_forall. intros d Hd.
    apply list_elem_of_In, Ht, bool_decide_eq_true in Hd. destruct (target_found _ Hd) as [t Ht']. by exists t.
Qed.

Section Step.
Context (w : World) (n : nat).
Hypothesis H2 : pass2 g w l items om n.

Lemma pass2_nodes : Forall2 (fun p it => m_offset <$> w_instr w !! p = Some it.1) l items.
Proof using All.
  apply Forall2_from_lookup; [done|]. intros k p it Hp Hit.
  destruct (p2_nodes _ _ _ _ _ _ H2 k p it Hp Hit) as (j & -> & _ & _ & _ & E & _). cbn. by rewrite E.
Qed.

Lemma pass2_placed : placed (w_instr w) 0 l (map item_size items).
Proof using All. eapply contiguous_placed; [exact Hlen|done|apply pass2_nodes]. Qed.

Lemma pass2_sized : sized (w_instr w) l (map item_size items).
Proof using All.
  apply Forall2_from_lookup; [by rewrite length_map|]. intros k p s Hp Hs.
  rewrite list_lookup_fmap in Hs. destruct (items !! k) as [[o i]|] eqn:Hk; [|done]. injection Hs as <-.
  destruct (contiguous_lookup _ _ _ _ _ _ Hcont Hk) as (Hd & _).
  destruct (p2_nodes _ _ _ _ _ _ H2 k p _ Hp Hk) as (j & Hj & Hop & _ & _ & _ & Hc).
  exists j. split; [done|]. unfold item_size. cbn [snd] in *.
  destruct (decoded_item_size _ _ _ Hd) as (s & Hs & _). rewrite Hs, <- Hs.
  destruct Hd as (r & c & _ & Hi & Hm & _).
  replace c with (m_class i) in Hm by (by rewrite Hi). case_bool_decide.
  - by eapply resolve_size.
  - by apply size_congr.
Qed.

Lemma pass2_GetOriginalOffset k p it :
  l !! k = Some p -> items !! k = Some it -> settled w (GetOriginalOffset fuel p) it.1.
Proof using All.
  intros Hp Hit. destruct (p2_nodes _ _ _ _ _ _ H2 k p it Hp Hit) as (j & Hj & _ & _ & <- & _).
  eapply settled_GetOriginalOffset; eauto using pass2_sized, pass2_placed, list_elem_of_lookup_2.
  apply H2.
Qed.

(** Linking the instruction before the linked ones. *)
Lemma pass2_step k p it w1 w2 c :
  n = S k -> l !! k = Some p -> items !! k = Some it -> only_flag w w1 -> kept w1 w2 -> closed w2 ->
  resolve om it.1 (fst <$> items !! S k) (m_class it.2) = Some c ->
  class_of w2 p = Some c -> (forall q, q <> p -> class_of w2 q = class_of w1 q) ->
  pass2 g w2 l items om k.
Proof using All.
  intros -> Hp Hit H1 Hk Hcl Hres Hc Hq. destruct H2 as [Hch _ Hnodes]. split; [|done|].
  - eapply kept_graph_chain; [done|]. by eapply only_flag_chain.
  - intros k' p' it' Hp' Hit'. destruct (Hnodes _ _ _ Hp' Hit') as (j & Hj & Hop & Hgen & Ho & Hoff & Hcj).
    rewrite <- (of_instr _ _ H1) in Hj. destruct (kept_lookup _ _ _ _ Hk Hj) as (j' & Hj' & E).
    destruct (shell_fields _ _ E) as (Eop & _ & _ & _ & Egen & _). apply shell_offsets in E as [E1 E2].
    exists j'. rewrite Eop, Egen, E1, E2. split_and!; [done..|].
    destruct (decide (k' = k)) as [->|Hkk].
    + rewrite Hp in Hp'. injection Hp' as <-. rewrite Hit in Hit'. injection Hit' as <-.
      unfold class_of in Hc. rewrite Hj' in Hc. injection Hc as ->. by rewrite bool_decide_true.
    + assert (p' <> p) as Hne by (intros ->; apply Hkk; eapply NoDup_lookup; [apply Hch|done..]).
      specialize (Hq _ Hne). unfold class_of in Hq. rewrite Hj', Hj in Hq. injection Hq as ->.
      rewrite (bool_decide_ext (k <= k')%nat (S k <= k')%nat) by lia. done.
Qed.

End Step.

(** *** The three kinds of instructions *)

Lemma finalize_branch w k p o i d t orig :
  pass2 g w l items om (S k) -> l !! k = Some p -> items !! k = Some (o, i) ->
  m_class i = CBranch d t orig -> class_of w p = Some (CBranch d None None) ->
  exists w', (dwTargetOffset <- GetTargetOffset fuel p ;;
      dwBranchOrigOffset <- GetOriginalOffset fuel p ;;
      t <- if_null_ret (om !! u32 (dwTargetOffset + dwBranchOrigOffset)) E_FAIL ;;
      attempt (Branch_SetBranchTarget p t) ;;; ret tt) w = (Ok tt, w') /\
    pass2 g w' l items om k /\ quiet w w'.
Proof using All.
  intros H2 Hp Hit Hci Hcp. destruct (resolvable _ _ _ Hit) as [c Hc]. pose proof Hc as Hres.
  rewrite Hci in Hc. cbn in Hc. destruct (om !! u32 (d + o)) as [t'|] eqn:Ht; [|done]. injection Hc as <-.
  pose proof Hcp as Hcp'. unfold class_of in Hcp'. destruct (w_instr w !! p) as [j|] eqn:Hj; [|done].
  injection Hcp' as Hjc.
  destruct (p2_nodes _ _ _ _ _ _ H2 k p _ Hp Hit) as (j' & Hj' & _ & Hgen & _).
  rewrite Hj in Hj'. injection Hj' as <-.
  assert (GetTargetOffset fuel p w = (Ok d, w)) as E
    by (unfold GetTargetOffset; rewrite (run_bind _ _ _ _ _ (run_load _ _ _ Hj)), Hjc; done).
  rewrite (run_bind _ _ _ _ _ E).
  destruct (pass2_GetOriginalOffset w _ H2 _ _ _ Hp Hit w ltac:(reflexivity)) as (w1 & Hw1 & H1).
  rewrite (run_bind _ _ _ _ _ Hw1). cbn [fst]. rewrite Ht. cbn [if_null_ret].
  rewrite (run_bind _ _ _ _ _ (eq_refl : ret t' w1 = _)).
  pose proof (only_flag_closed _ _ H1 (p2_closed _ _ _ _ _ _ H2)) as Hcl1.
  pose proof (only_flag_chain _ _ _ _ H1 (p2_chain _ _ _ _ _ _ H2)) as Hch1.
  destruct (graph_chain_elem _ _ _ _ Hch1 (target_in _ _ Ht)) as (jt & Hjt & _).
  rewrite <- (of_instr _ _ H1) in Hj.
  destruct (Branch_SetBranchTarget_run w1 p j d None None t' Hj Hjc Hcl1 ltac:(by eexists))
    as (w2 & Hw2 & Hk & Hc2 & Hq). rewrite Hgen in Hc2. cbn in Hc2.
  rewrite (run_bind _ _ _ _ _ (run_attempt _ _ _ _ Hw2)). exists w2. split_and!; [done| |].
  - eapply pass2_step; try done. eapply sets_class_closed; try done.
    intros t2. cbn. intros [= ->]%list_elem_of_singleton. by eexists.
  - etransitivity; [by apply only_flag_quiet|apply kept_quiet; [done|]]. intros Hc1.
    destruct (Branch_SetBranchTarget_code_ok w1 p d None None t' Hc1) as (w2' & ? & Hw2' & _ & _ & _ & ?);
      [unfold class_of; rewrite Hj; cbn; by rewrite Hjc|by eexists|congruence].
Qed.

Lemma finalize_switch w k p o i ds ts j :
  pass2 g w l items om (S k) -> l !! k = Some p -> items !! k = Some (o, i) ->
  m_class i = CSwitch ds ts -> w_instr w !! p = Some j ->
  m_class j = CSwitch ds (replicate (length ds) None) -> Z.of_nat (length ds) < 2 ^ 32 ->
  exists w', (pNextInner <- if_null_ret (m_pNextInstruction j) E_FAIL ;;
      nextOffset <- GetOriginalOffset fuel pNextInner ;;
      branchCount <- Switch_GetBranchCount p ;;
      finalize_cases fuel p nextOffset om 0 (Z.to_nat branchCount)) w = (Ok tt, w') /\
    pass2 g w' l items om k /\ quiet w w'.
Proof using All.
  intros H2 Hp Hit Hci Hj Hjc Hds. destruct (resolvable _ _ _ Hit) as [c Hc]. pose proof Hc as Hres.
  rewrite Hci in Hc. cbn in Hc. destruct (items !! S k) as [[nx ix]|] eqn:Hnx; [|done]. cbn in Hc.
  destruct (mapM _ ds) as [ts'|] eqn:Hts; [|done]. injection Hc as <-.
  assert (is_Some (l !! S k)) as [q Hq] by (apply lookup_lt_is_Some; rewrite Hll; by eapply lookup_lt_Some).
  pose proof (segment_lookup _ _ _ _ _ (gc_segment _ _ _ (p2_chain _ _ _ _ _ _ H2)) Hp) as Hnode.
  destruct (node_lookup _ _ _ _ _ Hnode Hj) as [_ ->]. rewrite Hq. cbn [if_null_ret].
  rewrite (run_bind _ _ _ _ _ (eq_refl : ret q w = _)).
  destruct (pass2_GetOriginalOffset w _ H2 _ _ _ Hq Hnx w ltac:(reflexivity)) as (w1 & Hw1 & H1).
  rewrite (run_bind _ _ _ _ _ Hw1). cbn [fst].
  pose proof (only_flag_closed _ _ H1 (p2_closed _ _ _ _ _ _ H2)) as Hcl1.
  pose proof (only_flag_chain _ _ _ _ H1 (p2_chain _ _ _ _ _ _ H2)) as Hch1.
  rewrite <- (of_instr _ _ H1) in Hj.
  assert (Switch_GetBranchCount p w1 = (Ok (Z.of_nat (length ds)), w1)) as E.
  { unfold Switch_GetBranchCount. rewrite (run_bind _ _ _ _ _ (run_load _ _ _ Hj)), Hjc.
    rewrite length_replicate, u32_small by (unfold is_u32; lia). done. }
  rewrite (run_bind _ _ _ _ _ E), Nat2Z.id.
  assert (forall o' t', om !! o' = Some t' -> is_Some (w_instr w1 !! t')) as Hst.
  { intros o' t' Ht. destruct (graph_chain_elem _ _ _ _ Hch1 (target_in _ _ Ht)) as (jt & Hjt & _). by eexists. }
  destruct (finalize_cases_run fuel p nx om ds ds [] ts' [] w1) as (w2 & Hw2 & Hk & Hc2 & Hq2); try done.
  { unfold class_of. rewrite Hj. cbn. by rewrite Hjc. }
  exists w2. split_and!; [done| |].
  - eapply pass2_step; try done; [|by rewrite Hnx]. eapply sets_class_closed; try done.
    intros t2. cbn. intros (t & [= ->] & Hin)%list_elem_of_fmap.
    pose proof (mapM_Some_1 _ _ _ Hts) as Hf. apply list_elem_of_lookup in Hin as [x Hx].
    destruct (Forall2_lookup_r _ _ _ _ _ Hf Hx) as (d & _ & Hd). by eapply Hst.
  - etransitivity; [by apply only_flag_quiet|apply kept_quiet; [done|]]. intros Hc1.
    eapply (finalize_cases_code_ok fuel p nx om ds (length ds) []); [|done..].
    unfold class_of. rewrite Hj. cbn. by rewrite Hjc.
Qed.

Lemma finalize_one_run w k p it :
  pass2 g w l items om (S k) -> l !! k = Some p -> items !! k = Some it ->
  exists w', finalize_one fuel p om w = (Ok tt, w') /\ pass2 g w' l items om k /\ quiet w w'.
Proof using All.
  intros H2 Hp Hit. destruct it as [o i].
  destruct (contiguous_lookup _ _ _ _ _ _ Hcont Hit) as (Hd & _).
  destruct (decoded_item_kind _ _ _ Hd) as (r & Hr & Hkind).
  destruct (p2_nodes _ _ _ _ _ _ H2 k p _ Hp Hit) as (j & Hj & Hop & _ & _ & _ & Hc). cbn [snd] in *.
  rewrite bool_decide_false in Hc by lia. unfold finalize_one.
  rewrite (run_bind _ _ _ _ _ (run_load _ _ _ Hj)).
  assert (GetIsBranchInternal j = Ok (IsFlagSet (m_flags r) ILOpcodeFlag_Branch)) as ->
    by (unfold GetIsBranchInternal; by rewrite Hop, Hr).
  rewrite (run_bind _ _ _ _ _ (eq_refl : lift (Ok _) w = _)).
  unfold GetIsSwitchInternal. rewrite Hop.
  destruct (m_class i) as [|v|d t orig|ds ts] eqn:Hci.
  1, 2: destruct Hkind as [-> ->]; exists w; split_and!; [done| |done];
    eapply (pass2_step w _ H2 k p _ w w (m_class i)); try done; rewrite ?Hci; try done;
    [apply H2|cbn [fst snd]; by rewrite Hci|unfold class_of; rewrite Hj; cbn; by rewrite Hc].
  - destruct Hkind as (-> & -> & ->). eapply finalize_branch; try done.
    unfold class_of. rewrite Hj. cbn. by rewrite Hc.
  - destruct Hkind as (-> & -> & -> & Hds). eapply finalize_switch; try done; lia.
Qed.

Lemma finalize_loop_run n : forall w m,
  pass2 g w l items om n -> (n <= m)%nat -> (n <= length l)%nat ->
  exists w', finalize_loop fuel m (match n with O => None | S k => l !! k end) om w = (Ok tt, w') /\
    pass2 g w' l items om 0 /\ quiet w w'.
Proof using All.
  induction n as [|k IH]; intros w m H2 Hm Hn; [exists w; by destruct m|].
  assert (is_Some (l !! k)) as [p Hp] by (apply lookup_lt_is_Some; lia).
  assert (is_Some (items !! k)) as [it Hit] by (apply lookup_lt_is_Some; lia).
  destruct m as [|m]; [lia|]. rewrite Hp. cbn [finalize_loop].
  destruct (finalize_one_run w k p it H2 Hp Hit) as (w1 & Hw1 & H1 & Hq).
  rewrite (run_bind _ _ _ _ _ Hw1).
  destruct (p2_nodes _ _ _ _ _ _ H1 k p it Hp Hit) as (j & Hj & _).
  rewrite (run_bind _ _ _ _ _ (run_load _ _ _ Hj)).
  pose proof (segment_lookup _ _ _ _ _ (gc_segment _ _ _ (p2_chain _ _ _ _ _ _ H1)) Hp) as Hnode.
  destruct (node_lookup _ _ _ _ _ Hnode Hj) as [-> _].
  destruct (IH w1 m H1 ltac:(lia) ltac:(lia)) as (w2 & Hw2 & H0 & Hq2).
  exists w2. split_and!; [done|done|by transitivity w1].
Qed.

End Link.

(** ** DecodeInstructions *)

(** The instructions [l] of the world are the items, with their targets linked. *)
Definition represents (w : World) (l : list ptr) (items : list (Z * CInstruction)) : Prop :=
  length l = length items /\ exists om, offset_map items l om /\
  forall k p it, l !! k = Some p -> items !! k = Some it ->
    linked_at om (w_instr w) true p it (fst <$> items !! S k).

Lemma contiguous_length code items : forall pos,
  contiguous code pos items -> pos + Z.of_nat (length items) <= Z.of_nat (length code).
Proof.
  induction items as [|[o i] items IH]; intros pos Hc; [done|].
  destruct Hc as (-> & Hd & s & Hs & Hrest).
  destruct (decoded_item_size _ _ _ Hd) as (s' & Hs' & Hs0 & _ & Hle). rewrite Hs in Hs'. injection Hs' as <-.
  cbn [length]. destruct items; [cbn; lia|]. specialize (IH _ Hrest). lia.
Qed.

Lemma last_or_lookup l k : length l = S k -> last_or l None = l !! k.
Proof.
  destruct l as [|p l _] using rev_ind; [done|]. rewrite length_app, last_or_rcons. cbn. intros [= E].
  rewrite lookup_app_r by lia. by replace (k - length l)%nat with 0%nat by lia.
Qed.

Lemma pass1_nil g w : (forall p, owner (w_instr w) p <> Some (Some g)) -> pass1 g w [] [] ∅.
Proof.
  intros H. split; [done|constructor| |constructor|].
  - intros p. split; [by intros ?%not_elem_of_nil|by intros ?%H].
  - intros o p. cbn. rewrite lookup_empty. split; [done|by intros ?%not_elem_of_nil].
Qed.

Lemma pass1_pass2 g w l items om gr :
  pass1 g w l items om -> w_graph w !! g = Some gr -> m_pFirstInstruction gr = first_or l None ->
  closed w -> pass2 g w l items om (length l).
Proof.
  intros [Hs Hnd Ho Hit _] Hgr Hf Hcl. split; [|done|].
  - split; [by exists gr|done..].
  - intros k p it Hp Hk. destruct (Forall2_lookup_lr _ _ _ _ _ _ Hit Hp Hk) as (j & Hj & ? & ? & ? & ? & ?).
    exists j. apply lookup_lt_Some in Hp. rewrite bool_decide_false by lia. by split_and!.
Qed.

Lemma head_code n code pos items : disassemble n code pos = Some items -> code <> [].
Proof.
  destruct n; [done|]. intros H ->. cbn [disassemble] in H.
  assert (OrdinalOpcodeFromBytes [] pos = Undef OutOfBoundsRead) as E; [|by rewrite E in H].
  unfold OrdinalOpcodeFromBytes, read_byte, read_at. cbn. by rewrite decide_False by lia.
Qed.

(** The world in which the second pass starts. *)
Lemma decode_start g w p i :
  closed w -> (forall q, owner (w_instr w) q <> Some (Some g)) -> w_instr w !! p = None ->
  fresh_instr i -> (forall t, Some t ∉ refs (m_class i)) ->
  kind_ok i -> pass1 g (on_instr (insert p i) w) [] [] ∅ /\ extends w (on_instr (insert p i) w).
Proof.
  intros Hcl Hno Hp Hf Hr Hk. split.
  - by apply pass1_alloc, pass1_nil.
  - apply extends_alloc; try done. apply Hf.
Qed.

Definition same_context (g : ptr) (w w' : World) : Prop :=
  (forall h, h <> g -> set_stale false <$> w_graph w' !! h = set_stale false <$> w_graph w !! h) /\
  w_clause w' = w_clause w /\ w_method w' = w_method w.

Section Decode.
Context (g : ptr) (code : list Z) (items : list (Z * CInstruction)) (fuel : nat) (w : World)
  (gr : CInstructionGraph).
Hypothesis Hbytes : Forall is_byte code.
Hypothesis Hlen : Z.of_nat (length code) < 2 ^ 31.
Hypothesis Hfuel : (length code < fuel)%nat.
Hypothesis Hitems : il_items code = Some items.
Hypothesis Htargets : all_targets_in (map fst items) items = true.
Hypothesis Hcl : closed w.

(** Both passes, from a graph whose first instruction has been decoded. *)
Lemma decode_passes p i :
  InstructionFromBytes code 0 = Ok i -> pass1 g w [] [] ∅ -> w_instr w !! p = Some i ->
  w_graph w !! g = Some gr -> m_pFirstInstruction gr = Some p ->
  exists w' l last om, (r <- decode_loop g code fuel p None 0 ∅ ;;
      finalize_loop fuel fuel (Some (fst r)) (snd r) ;;; ret (Some (fst r))) w = (Ok (Some last), w') /\
    graph_chain w' g l /\ last_or l None = Some last /\ first_or l None = Some p /\
    length l = length items /\ offset_map items l om /\ pass2 g w' l items om 0 /\ quiet w w'.
Proof using All.
  intros Hi H1 Hp Hgr Hfirst. pose proof (disassemble_contiguous _ Hbytes Hlen _ _ _ Hitems) as Hcont.
  destruct (decode_loop_run code Hbytes Hlen g _ fuel 0 items w [] [] ∅ p i Hitems ltac:(lia) Hi H1)
    as (w1 & l' & om & last & Hw1 & Hp1 & Hlast & Hex); [done|done|set_solver|].
  cbn [last_or app] in Hw1, Hp1. set (l := p :: l') in *.
  rewrite (run_bind _ _ _ _ _ Hw1). cbn [fst snd].
  pose proof (Forall2_length _ _ _ (p1_items _ _ _ _ _ Hp1)) as Hll.
  assert (pass2 g w1 l items om (length l)) as H2.
  { eapply pass1_pass2; [exact Hp1|by rewrite (ex_graph _ _ Hex)|done|by eapply extends_closed]. }
  pose proof (contiguous_length _ _ _ Hcont).
  destruct (finalize_loop_run code items l om g fuel Hlen Hcont Htargets Hll (p1_map _ _ _ _ _ Hp1) ltac:(lia)
    _ w1 fuel H2 ltac:(lia) ltac:(lia)) as (w2 & Hw2 & H0 & Hq).
  assert (l !! length l' = Some last) as Hl by (by rewrite <- last_or_lookup).
  cbn [length l] in Hw2. fold l in Hw2. rewrite Hl in Hw2. rewrite (run_bind _ _ _ _ _ Hw2).
  exists w2, l, last, om. split_and!; try done; [apply H0|exact (p1_map _ _ _ _ _ Hp1)|].
  destruct Hex as [Eg Ec Em _ _ Ek], Hq as [Hqg Hqc Hqm Hqk]. split; [|congruence..|auto].
  intros h. rewrite Hqg. by rewrite Eg.
Qed.

End Decode.

Lemma stale_eq (gr gr' : CInstructionGraph) :
  set_stale false gr' = set_stale false gr ->
  m_pFirstInstruction gr' = m_pFirstInstruction gr /\ m_pOrigFirstInstruction gr' = m_pOrigFirstInstruction gr.
Proof. destruct gr, gr'. intros [= ]. by subst. Qed.

(** The last assignment: the ends of the list. *)
Lemma decode_finish g w l items om last gr :
  pass2 g w l items om 0 -> last_or l None = Some last -> length l = length items ->
  offset_map items l om -> w_graph w !! g = Some gr -> m_pOrigFirstInstruction gr = first_or l None ->
  let w' := on_graph (alter (fun gr => set_orig (m_pOrigFirstInstruction gr) (Some last)
    (set_last (Some last) gr)) g) w in
  graph_list w' g l /\ represents w' l items /\ closed w' /\
  exists gr', w_graph w' !! g = Some gr' /\ m_pOrigFirstInstruction gr' = first_or l None /\
    m_pOrigLastInstruction gr' = last_or l None.
Proof.
  intros [[(gr0 & Hgr0 & Hf) Hs Hnd Ho] Hcl Hnodes] Hlast Hll Hom Hgr Hof w'.
  rewrite Hgr in Hgr0. injection Hgr0 as <-.
  assert (w_graph w' !! g = Some (set_orig (m_pOrigFirstInstruction gr) (Some last) (set_last (Some last) gr))) as E
    by (cbn; by rewrite lookup_alter_eq, Hgr).
  split_and!; [|split; [done|]|done|].
  - split; [|done..]. eexists. split; [exact E|]. rewrite Hlast. by destruct gr.
  - exists om. split; [done|]. intros k p it Hp Hk. specialize (Hnodes k p it Hp Hk).
    by rewrite bool_decide_true in Hnodes by lia.
  - eexists. split; [exact E|]. rewrite Hlast, <- Hof. by destruct gr.
Qed.

Lemma DecodeInstructions_run g code items fuel w gr :
  Forall is_byte code -> Z.of_nat (length code) < 2 ^ 31 -> (length code < fuel)%nat ->
  il_items code = Some items -> il_ok code = true ->
  closed w -> w_graph w !! g = Some gr -> (forall q, owner (w_instr w) q <> Some (Some g)) ->
  exists w' l gr', DecodeInstructions fuel g code w = (Ok tt, w') /\
    graph_list w' g l /\ represents w' l items /\ closed w' /\
    w_graph w' !! g = Some gr' /\ m_pOrigFirstInstruction gr' = first_or l None /\
    m_pOrigLastInstruction gr' = last_or l None /\ same_context g w w' /\ (code_ok w -> code_ok w').
Proof.
  intros Hbytes Hlen Hfuel Hit Hok Hcl Hgr Hno. unfold il_ok in Hok. rewrite Hit in Hok.
  destruct (disassemble_step code Hbytes Hlen _ _ _ Hit) as (n' & i & s & items' & _ & Hi & Hd & _).
  destruct (decoded_item_fresh _ _ _ Hd) as [Hf Hr].
  unfold DecodeInstructions.
  pose proof (head_code _ _ _ _ Hit) as Hne. destruct code as [|b code']; [done|]. set (code := b :: code') in *.
  destruct (run_alloc i w) as [Hal Hnone]. set (p := fresh (dom (w_instr w))) in *.
  destruct (decode_start g w p i Hcl Hno Hnone Hf Hr) as [H1 Hex1];
    [by eapply decoded_item_kind_ok|]. pose proof (extends_closed _ _ Hex1 Hcl) as Hcl1.
  rewrite Hi, bind_bind, (run_bind _ _ _ _ _ (eq_refl : lift (Ok i) w = _)), bind_bind, (run_bind _ _ _ _ _ Hal).
  set (w0 := on_instr (insert p i) w) in *.
  erewrite run_bind by apply run_update_graph.
  set (w1 := on_graph (alter (set_first (Some p)) g) w0).
  assert (w_graph w1 !! g = Some (set_first (Some p) gr)) as E1 by (cbn; by rewrite lookup_alter_eq, Hgr).
  rewrite (run_bind _ _ _ _ _ (run_load_graph _ _ _ E1)).
  assert (m_pFirstInstruction (set_first (Some p) gr) = Some p) as -> by (by destruct gr).
  erewrite run_bind by apply run_update_graph.
  set (w2 := on_graph (alter (set_origFirst (Some p)) g) w1).
  assert (w_graph w2 !! g = Some (set_origFirst (Some p) (set_first (Some p) gr))) as E2
    by (cbn [w2 on_graph w_graph]; by rewrite lookup_alter_eq, E1).
  destruct (decode_passes g code items fuel w2 (set_origFirst (Some p) (set_first (Some p) gr)) Hbytes Hlen Hfuel Hit Hok Hcl1 p i Hi)
    as (w3 & l & last & om & Hw3 & _ & Hlast & Hfst & Hll & Hom & H0 & Hq);
    [by destruct H1|apply lookup_insert_eq|exact E2|by destruct gr|].
  rewrite (run_bind _ _ _ _ _ Hw3). pose proof (qu_graph _ _ Hq g) as Eg. rewrite E2 in Eg.
  destruct (w_graph w3 !! g) as [gr3|] eqn:E3; [|done]. injection Eg as (Ef & Eof)%stale_eq.
  destruct (decode_finish g w3 l items om last gr3 H0 Hlast Hll Hom E3) as (Hgl & Hrep & Hcl3 & gr' & Hgr' & Ho1 & Ho2).
  { rewrite Eof, Hfst. by destruct gr. }
  eexists _, l, gr'. split; [reflexivity|]. split_and!; try done.
  2: { intros Hc. apply (same_instr_code_ok w3); [done|]. apply (qu_code _ _ Hq).
       apply (same_instr_code_ok w0); [done|]. by apply (ex_code _ _ Hex1). }
  split; [|split; apply Hq].
  intros h Hh. cbn. rewrite lookup_alter_ne by done. rewrite (qu_graph _ _ Hq). cbn.
  by rewrite !lookup_alter_ne.
Qed.

(** C3: [DecodeInstructions] on well-formed IL succeeds, and the graph that was
    empty represents the disassembly of the code: the instructions in order, at
    their offsets, as original instructions, every branch and every case of a
    switch linked to the instruction at its target offset.  Back links and classes that
    were consistent stay so. *)
Theorem DecodeInstructions_represents g code items fuel w gr :
  Forall is_byte code -> Z.of_nat (length code) < 2 ^ 31 -> (length code < fuel)%nat ->
  il_items code = Some items -> il_ok code = true ->
  closed w -> w_graph w !! g = Some gr -> (forall q, owner (w_instr w) q <> Some (Some g)) ->
  exists w' l gr', DecodeInstructions fuel g code w = (Ok tt, w') /\
    graph_list w' g l /\ represents w' l items /\ closed w' /\
    w_graph w' !! g = Some gr' /\ m_pOrigFirstInstruction gr' = first_or l None /\
    m_pOrigLastInstruction gr' = last_or l None /\ same_context g w w' /\ (code_ok w -> code_ok w').
Proof. apply DecodeInstructions_run. Qed.

(** A world with one empty graph, and a method body with a switch and a branch
    back: [ldarg.0; switch (L); br.s 0; L: ret]. *)
Definition empty_world : World := mkWorld ∅ {[1%positive := new_graph None]} ∅ ∅ ∅.

Definition switch_code : list Z := [0x02; 0x45; 1; 0; 0; 0; 2; 0; 0; 0; 0x2B; 0xF4; 0x2A].

Lemma switch_code_bytes : Forall is_byte switch_code.
Proof. repeat constructor; done. Qed.

Lemma empty_world_ok : closed empty_world /\ forall q, owner (w_instr empty_world) q <> Some (Some 1%positive).
Proof.
  split; [intros p c t|intros q]; [unfold class_of|unfold owner]; cbn; by rewrite lookup_empty.
Qed.

Lemma DecodeInstructions_represents_witness : exists w' l items,
  DecodeInstructions 14 1 switch_code empty_world = (Ok tt, w') /\
  il_items switch_code = Some items /\ represents w' l items /\ length items = 4%nat.
Proof.
  destruct (il_items switch_code) as [items|] eqn:Hit; [|exfalso; vm_compute in Hit; discriminate Hit].
  destruct (DecodeInstructions_represents 1 switch_code items 14 empty_world (new_graph None))
    as (w' & l & gr' & H & _ & Hr & _).
  - exact switch_code_bytes.
  - reflexivity.
  - cbn. lia.
  - exact Hit.
  - vm_compute. reflexivity.
  - apply empty_world_ok.
  - reflexivity.
  - apply empty_world_ok.
  - exists w', l, items. split; [exact H|]. split; [reflexivity|]. split; [exact Hr|].
    vm_compute in Hit. injection Hit as <-. reflexivity.
Defined.
