(* ===== verification/RoundTrip.v ===== *)
(** The round trip of the codec: encoding the graph that [DecodeInstructions]
    builds gives back the bytes, with an IL map that is the identity.  The last
    section is about code that is not well formed: a zero-length row of the opcode
    table makes [DecodeInstructions] stay where it is for ever. *)
From S2P Require Import Prelude ILOpcodes Instruction Store Chain BranchTargets Retarget Clauses Demo Offsets Graph Codec CodecSpec DecodeSpec LinkSpec.

(** ** The bytes of the items *)

Definition item_bytes (code : list Z) (it : Z * CInstruction) : list Z :=
  take (Z.to_nat (item_size it)) (drop (Z.to_nat it.1) code).

Lemma item_size_Ok o i s : GetInstructionSize i = Ok s -> item_size (o, i) = s.
Proof. unfold item_size. cbn. by intros ->. Qed.

Lemma contiguous_concat code items : forall pos,
  contiguous code pos items -> concat (map (item_bytes code) items) = drop (Z.to_nat pos) code.
Proof.
  induction items as [|[o i] items IH]; intros pos Hc; [done|].
  destruct Hc as (-> & Hd & s & Hs & Hrest).
  destruct (decoded_item_size _ _ _ Hd) as (s' & Hs' & Hs0 & Hpos & Hle). rewrite Hs in Hs'. injection Hs' as <-.
  cbn [map concat]. unfold item_bytes at 1. rewrite (item_size_Ok _ _ _ Hs). cbn [fst].
  destruct items as [|it items].
  - cbn. rewrite app_nil_r, take_ge; [done|]. rewrite length_drop. lia.
  - rewrite (IH _ Hrest). replace (Z.to_nat (pos + s)) with (Z.to_nat pos + Z.to_nat s)%nat by lia.
    by rewrite <- drop_drop, take_drop.
Qed.

Lemma lengths_item_bytes code items : forall pos,
  contiguous code pos items -> lengths (map (item_bytes code) items) = map item_size items.
Proof.
  induction items as [|[o i] items IH]; intros pos Hc; [done|].
  destruct Hc as (-> & Hd & s & Hs & Hrest).
  destruct (decoded_item_size _ _ _ Hd) as (s' & Hs' & Hs0 & Hpos & Hle). rewrite Hs in Hs'. injection Hs' as <-.
  unfold lengths in *. cbn [map]. f_equal.
  - unfold item_bytes. rewrite (item_size_Ok _ _ _ Hs), length_take, length_drop. cbn [fst]. lia.
  - destruct items; [done|]. by eapply IH.
Qed.

Lemma offset_in_item code items : forall pos l k t it,
  contiguous code pos items -> NoDup l -> l !! k = Some t -> items !! k = Some it ->
  offset_in pos l (map item_size items) t = Some it.1.
Proof.
  induction items as [|[o i] items IH]; intros pos [|p l] k t it Hc Hnd Ht Hit; try done.
  destruct Hc as (-> & Hd & s & Hs & Hrest). cbn [map offset_in].
  apply NoDup_cons in Hnd as [Hp Hnd]. destruct k as [|k].
  - injection Ht as ->. injection Hit as <-. by rewrite decide_True.
  - cbn in Ht, Hit. rewrite decide_False by (intros ->; by apply list_elem_of_lookup_2 in Ht).
    rewrite (item_size_Ok _ _ _ Hs). destruct items; [done|]. by eapply IH.
Qed.

Lemma decoded_bytes code o i :
  decoded_item code o i -> exists r pl, opinfo (m_opcode i) = Ok r /\
    class_payload (m_operandLength r) (m_class i) = Ok pl /\
    item_bytes code (o, i) = opcode_bytes (m_opcode i) ++ pl.
Proof.
  intros (_ & _ & _ & _ & _ & (r & pl & Hr & Hpl & Hs & Hrd) & _). exists r, pl. split_and!; [done..|].
  unfold item_bytes. rewrite (item_size_Ok _ _ _ Hs). rewrite Nat2Z.id.
  apply read_at_Some in Hrd as (_ & _ & E). by symmetry.
Qed.

(** ** The encoding of a linked item *)

Lemma value_read_length n v bs : value_read n v = Ok bs -> (n <= length v)%nat -> length bs = n.
Proof.
  unfold value_read. destruct (mapM id (take n v)) as [x|] eqn:E; [|done]. intros [= <-] Hn.
  apply length_mapM in E. rewrite <- E, length_take. lia.
Qed.

Lemma operand_payload op r v pl i offs :
  opinfo op = Ok r -> op <> Cee_Switch -> IsFlagSet (m_flags r) ILOpcodeFlag_Branch = false ->
  is_Some (operand_type_size (m_type r)) -> length v = 8%nat ->
  class_payload (m_operandLength r) (COperand v) = Ok pl ->
  m_opcode i = op -> m_class i = COperand v -> encode_payload offs i r = Some pl.
Proof.
  intros Hr Hns Hf [n Hn] Hv Hpl <- Hc. destruct (row_facts _ _ Hr) as (_ & _ & Hl & _).
  specialize (Hl Hns). rewrite Hn in Hl. cbn in Hl. cbn [class_payload] in Hpl. rewrite Hl, Nat2Z.id in Hpl.
  assert (n <= 8)%nat by (destruct (m_type r); cbn in Hn; simplify_eq; lia).
  unfold encode_payload. rewrite Hc, Hf. destruct (Z.eqb_spec (m_opcode i) Cee_Switch); [done|]. cbn [orb].
  pose proof (value_read_length _ _ _ Hpl ltac:(lia)) as Hll.
  destruct (Z.eqb_spec (m_operandLength r) 0).
  - assert (n = 0)%nat as -> by lia. by destruct pl.
  - unfold GetOperandValue. rewrite Hc, Hr. cbn [obind]. rewrite Z.ltb_irrefl, Hn, Hpl.
    by rewrite Hll, Hl, Z.eqb_refl.
Qed.

Lemma branch_payload_decoded n d o :
  branch_payload n o (u32 (d + o)) = le_bytes (Z.to_nat n) (u32 (d - (1 + n))).
Proof.
  unfold branch_payload. f_equal. unfold u32. rewrite Zminus_mod_idemp_l. f_equal. lia.
Qed.

Lemma switch_payload_decoded o ds :
  Forall is_u32 ds -> Z.of_nat (length ds) < 2 ^ 30 ->
  switch_payload o (map (fun d => u32 (d + (o + 1 + switch_operand_size (length ds)))) ds) =
  le_bytes 4 (Z.of_nat (length ds)) ++ concat (map (le_bytes 4) ds).
Proof.
  intros Hds Hl. unfold switch_payload. rewrite length_map, u32_small by (unfold is_u32; lia). f_equal.
  f_equal. rewrite map_map. apply map_ext_in. intros d Hd%list_elem_of_In.
  rewrite Forall_forall in Hds. specialize (Hds d Hd). f_equal.
  unfold u32. rewrite Zminus_mod_idemp_l.
  replace (d + _ - _) with d by lia. by apply Z.mod_small.
Qed.

Lemma mapM_offs (om : gmap Z ptr) (offs : ptr -> option Z) nx ds ts :
  (forall o t, om !! o = Some t -> offs t = Some o) ->
  mapM (fun d => om !! u32 (d + nx)) ds = Some ts ->
  mapM (fun t => t ≫= offs) (map Some ts) = Some (map (fun d => u32 (d + nx)) ds).
Proof.
  intros Ho Hm. apply mapM_Some. apply mapM_Some in Hm. induction Hm as [|d t ds ts Ht _ IH]; constructor; [by apply Ho|done].
Qed.

(** A switch is followed by the instruction at its end. *)
Lemma switch_size code o i ds ts :
  decoded_item code o i -> m_class i = CSwitch ds ts -> Z.of_nat (length code) < 2 ^ 31 ->
  Z.of_nat (length ds) < 2 ^ 30 /\ m_opcode i = Cee_Switch /\
  item_size (o, i) = 1 + switch_operand_size (length ds).
Proof.
  intros Hd Hc Hlen. destruct (decoded_item_kind _ _ _ Hd) as (r & Hr & Hk). rewrite Hc in Hk.
  destruct Hk as (_ & Hs%Z.eqb_eq & -> & _).
  destruct Hd as (_ & _ & _ & _ & _ & (r' & pl & Hr' & Hpl & Hsz & Hrd) & _).
  rewrite Hc in Hpl. assert (pl = le_bytes 4 (Z.of_nat (length ds)) ++ concat (map (le_bytes 4) ds)) as ->
    by (unfold class_payload in Hpl; congruence).
  apply read_at_Some in Hrd as (? & Hle & _). rewrite (item_size_Ok _ _ _ Hsz).
  rewrite !length_app, length_le_bytes, length_concat_le4 in *. rewrite Hs in *.
  change (length (opcode_bytes Cee_Switch)) with 1%nat in *.
  split_and!; [lia|done|]. unfold switch_operand_size. rewrite u32_small by (unfold is_u32; lia). lia.
Qed.

Section Encode.
Context (code : list Z) (om : gmap Z ptr) (offs : ptr -> option Z).
Hypothesis Hlen : Z.of_nat (length code) < 2 ^ 31.
Hypothesis Hoffs : forall o t, om !! o = Some t -> offs t = Some o.

Lemma encode_linked_payload o i j next r pl :
  decoded_item code o i -> opinfo (m_opcode i) = Ok r ->
  class_payload (m_operandLength r) (m_class i) = Ok pl ->
  (forall nx, next = Some nx -> nx = o + item_size (o, i)) ->
  m_opcode j = m_opcode i -> m_offset j = o ->
  resolve om o next (m_class i) = Some (m_class j) -> encode_payload offs j r = Some pl.
Proof using All.
  intros Hd Hr Hpl Hnext Hop Hoff Hres. pose proof Hd as (r0 & c & Hr0 & Hi & Hm & _).
  rewrite Hr in Hr0. injection Hr0 as <-.
  assert (m_class i = c) as Hc by (by rewrite Hi). destruct (row_facts _ _ Hr) as (_ & _ & Hl & Hty & _ & Hbr).
  destruct c as [|v|d t orig|ds ts]; rewrite Hc in Hres, Hpl; cbn in Hm, Hres.
  - injection Hres as Hj. destruct Hm as [Hf Ht]. injection Hpl as <-.
    assert (m_opcode i <> Cee_Switch) as Hns by (intros E%Hty; congruence).
    unfold encode_payload. rewrite <- Hj, Hop, Hf, (Hl Hns), Ht.
    by destruct (Z.eqb_spec (m_opcode i) Cee_Switch).
  - injection Hres as Hj. destruct Hm as (Hf & Hn & Hv).
    eapply operand_payload; try done. intros E%Hty. rewrite E in Hn. by destruct Hn.
  - destruct (om !! u32 (d + o)) as [t'|] eqn:Ht; [|done]. injection Hres as Hj.
    destruct Hm as (Hf & _). unfold encode_payload. rewrite <- Hj, Hf, (Hoffs _ _ Ht), Hoff. cbn [fmap option_fmap option_map].
    rewrite branch_payload_decoded. unfold class_payload in Hpl. congruence.
  - destruct next as [nx|]; [|done]. cbn in Hres.
    destruct (mapM _ ds) as [ts'|] eqn:Hts; [|done]. injection Hres as Hj.
    destruct (switch_size _ _ _ _ _ Hd Hc Hlen) as (Hds & Hs & Hsz). destruct Hm as (_ & _ & Hu).
    unfold encode_payload. rewrite <- Hj, Hop, Hs, Z.eqb_refl, (mapM_offs _ _ _ _ _ Hoffs Hts), Hoff.
    cbn [fmap option_fmap option_map]. rewrite (Hnext nx eq_refl), Hsz, Z.add_assoc.
    rewrite switch_payload_decoded by done. unfold class_payload in Hpl. congruence.
Qed.

Lemma encode_linked m p o i next :
  decoded_item code o i -> (forall nx, next = Some nx -> nx = o + item_size (o, i)) ->
  linked_at om m true p (o, i) next ->
  exists j, m !! p = Some j /\ GetIsNew j = false /\ m_origOffset j = o /\
    m_opcode j = m_opcode i /\ encode_instr offs (set_offset o j) = Some (item_bytes code (o, i)).
Proof using All.
  intros Hd Hnext (j & Hj & Hop & Hgen & Ho & Hoff & Hres). cbn [fst snd] in *.
  assert (GetIsNew j = false) as Hnew by (unfold GetIsNew; by rewrite Hgen).
  exists j. split_and!; try done.
  destruct (decoded_bytes _ _ _ Hd) as (r & pl & Hr & Hpl & ->).
  assert (set_offset o j = j) as -> by (rewrite <- Hoff; by destruct j).
  unfold encode_instr. rewrite Hop. rewrite (proj1 (opinfo_Ok _ _) Hr). cbn.
  pose proof Hd as (_ & _ & _ & _ & _ & _ & Hrng).
  destruct (Z.leb_spec 0 (m_opcode i)), (Z.ltb_spec (m_opcode i) 0x123); try lia. cbn [andb].
  by rewrite (encode_linked_payload o i j next r pl).
Qed.

End Encode.

(** ** The graph as a whole *)

Lemma il_map_identity offs w l (items : list (Z * CInstruction)) :
  Forall2 (fun p it => exists j, w_instr w !! p = Some j /\ GetIsNew j = false /\
    m_origOffset j = it.1 /\ offs p = Some it.1) l items ->
  il_map offs w None l = map (fun it => mkILMap it.1 it.1 true) items.
Proof.
  induction 1 as [|p it l items (j & Hj & Hn & Ho & Hp) _ IH]; [done|].
  cbn [il_map map default]. rewrite Hj, Hn, Hp, Ho, IH. done.
Qed.

Section Graph.
Context (code : list Z) (items : list (Z * CInstruction)) (w : World) (l : list ptr).
Hypothesis Hlen : Z.of_nat (length code) < 2 ^ 31.
Hypothesis Hcont : contiguous code 0 items.
Hypothesis Hrep : represents w l items.
Hypothesis Hnd : NoDup l.

Let offs := offset_in 0 l (map item_size items).

Lemma represented_item k p o i :
  l !! k = Some p -> items !! k = Some (o, i) ->
  exists j, w_instr w !! p = Some j /\ GetIsNew j = false /\ m_origOffset j = o /\
    m_opcode j = m_opcode i /\ offs p = Some o /\
    encode_instr offs (set_offset o j) = Some (item_bytes code (o, i)).
Proof using All.
  intros Hp Hit. destruct Hrep as (Hll & om & Hom & Hnodes).
  destruct (contiguous_lookup _ _ _ _ _ _ Hcont Hit) as (Hd & _ & Hnext).
  destruct (encode_linked code om offs Hlen) with (m := w_instr w) (p := p) (o := o) (i := i)
    (next := fst <$> items !! S k) as (j & Hj & Hn & Ho & Hop & He).
  - intros o' t (n & Hn & Ht)%Hom%elem_of_zip_lookup. rewrite list_lookup_fmap in Hn.
    destruct (items !! n) as [it|] eqn:E; [|done]. injection Hn as <-. by eapply offset_in_item.
  - done.
  - intros nx. destruct (items !! S k); cbn; [|done]. by intros [= <-].
  - by apply (Hnodes k).
  - exists j. split_and!; try done. by eapply (offset_in_item code items 0 l k p (o, i)).
Qed.

Lemma represents_encodes : encodes w l (map (item_bytes code) items).
Proof using All.
  unfold encodes. rewrite (lengths_item_bytes _ _ _ Hcont). fold offs. apply Forall2_fmap_r.
  apply Forall2_from_lookup; [apply Hrep|]. intros k p [o i] Hp Hit.
  destruct (represented_item k p o i Hp Hit) as (j & Hj & _ & _ & _ & Ho & He).
  exists j, o. by split_and!.
Qed.

Lemma represents_il_map :
  il_map offs w None l = map (fun it => mkILMap it.1 it.1 true) items.
Proof using All.
  apply il_map_identity, Forall2_from_lookup; [apply Hrep|]. intros k p [o i] Hp Hit.
  destruct (represented_item k p o i Hp Hit) as (j & Hj & Hn & Ho & _ & Hof & _).
  exists j. by split_and!.
Qed.

Lemma represents_switch_not_last : switch_not_last w l.
Proof using All.
  intros p j Hlast Hj Hop. rewrite last_lookup in Hlast. destruct Hrep as (Hll & om & _ & Hnodes).
  assert (is_Some (items !! Nat.pred (length l))) as [[o i] Hit]
    by (apply lookup_lt_is_Some; apply lookup_lt_Some in Hlast; lia).
  destruct (Hnodes _ _ _ Hlast Hit) as (j' & Hj' & Hop' & _ & _ & _ & Hres).
  rewrite Hj in Hj'. injection Hj' as <-. cbn [snd] in *. rewrite Hop in Hop'.
  destruct (contiguous_lookup _ _ _ _ _ _ Hcont Hit) as (Hd & _).
  destruct (decoded_item_kind _ _ _ Hd) as (r & Hr & Hk). rewrite <- Hop' in *.
  destruct (row_facts _ _ Hr) as (_ & _ & _ & _ & _ & Hbr).
  destruct (m_class i) as [| |d t orig|ds ts]; try by destruct Hk.
  - destruct Hk as [Hk _]. by destruct (Hbr Hk) as (_ & ? & _).
  - rewrite (proj2 (lookup_ge_None items (S (Nat.pred (length l))))) in Hres; [done|].
    apply lookup_lt_Some in Hlast. lia.
Qed.

End Graph.

(** C1: on well-formed IL, [DecodeInstructions] followed by [EncodeIL] gives back
    the bytes of the method body, whatever branches and switches it has, and an IL
    map that sends the offset of every instruction to itself. *)
Theorem Decode_Encode_roundtrip g code items fuel w gr :
  Forall is_byte code -> Z.of_nat (length code) < 2 ^ 31 -> (length code < fuel)%nat ->
  il_items code = Some items -> il_ok code = true ->
  closed w -> w_graph w !! g = Some gr -> (forall q, owner (w_instr w) q <> Some (Some g)) ->
  exists w', (DecodeInstructions fuel g code ;;; EncodeIL fuel g) w =
    (Ok (code, map (fun it => mkILMap it.1 it.1 true) items), w').
Proof.
  intros Hbytes Hlen Hfuel Hit Hok Hcl Hgr Hno.
  destruct (DecodeInstructions_run g code items fuel w gr) as (w1 & l & gr' & Hw1 & Hgl & Hrep & _); try done.
  pose proof (disassemble_contiguous _ Hbytes Hlen _ _ _ Hit) as Hcont.
  pose proof (contiguous_concat _ _ _ Hcont) as Hcat. rewrite drop_0 in Hcat.
  pose proof (contiguous_length _ _ _ Hcont) as Hitl.
  rewrite (run_bind _ _ _ _ _ Hw1).
  destruct (EncodeIL_run w1 g l (map (item_bytes code) items) fuel Hgl) as (w2 & Hw2 & _).
  - eapply represents_encodes; try done. apply Hgl.
  - eapply represents_switch_not_last; try done. apply Hgl.
  - by rewrite Hcat.
  - rewrite (proj1 Hrep). lia.
  - lia.
  - exists w2. rewrite Hw2, Hcat, (lengths_item_bytes _ _ _ Hcont).
    by erewrite represents_il_map by (done || apply Hgl).
Qed.

Lemma Decode_Encode_roundtrip_witness : exists w' map,
  (DecodeInstructions 14 1 switch_code ;;; EncodeIL 14 1) empty_world = (Ok (switch_code, map), w').
Proof.
  destruct (il_items switch_code) as [items|] eqn:Hit; [|exfalso; vm_compute in Hit; discriminate Hit].
  destruct (Decode_Encode_roundtrip 1 switch_code items 14 empty_world (new_graph None)) as (w' & H).
  - exact switch_code_bytes.
  - reflexivity.
  - cbn. lia.
  - exact Hit.
  - vm_compute. reflexivity.
  - apply empty_world_ok.
  - reflexivity.
  - apply empty_world_ok.
  - exists w'. eexists. exact H.
Defined.

(** ** Code on which the decoder does not advance *)

(** A new instruction belongs to no graph. *)
Lemma InstructionFromBytes_unowned code pos i :
  InstructionFromBytes code pos = Ok i -> m_pGraph i = None.
Proof.
  unfold InstructionFromBytes. intros (ho & _ & H)%obind_Ok. destruct (_ || _); [done|].
  apply obind_Ok in H as (r & _ & H). destruct (_ =? _).
  { by apply obind_Ok in H as (ds & _ & [= <-]). }
  destruct (IsFlagSet _ _).
  { by apply obind_Ok in H as (d & _ & [= <-]). }
  destruct (m_type r); try (by apply obind_Ok in H as (v & _ & [= <-])); [by injection H as <-|done].
Qed.

Lemma decode_loop_stuck g code pos i n : forall w p prev om,
  InstructionFromBytes code pos = Ok i -> GetInstructionSize i = Ok 0 -> m_pGraph i = None ->
  is_u32 pos -> pos < Z.of_nat (length code) -> w_instr w !! p = Some i -> prev <> Some p ->
  exists w', decode_loop g code n p prev pos om w = (NoFuel, w').
Proof.
  induction n as [|n IH]; intros w p prev om Hi Hs Hg Hpos Hlt Hp Hprev; [by exists w|].
  cbn [decode_loop]. rewrite pass1_step_run; [|by rewrite (owner_Some _ _ _ Hp), Hg|done].
  set (w1 := on_instr (pass1_step g p prev pos) w).
  assert (w_instr w1 !! p = Some (pass1_new g prev pos i)) as Hp1
    by (cbn; rewrite (pass1_lookup _ _ _ _ _ _ _ Hp Hprev); by rewrite decide_True).
  rewrite (run_bind _ _ _ _ _ (run_load _ _ _ Hp1)), (size_congr i (pass1_new g prev pos i)), Hs.
  2, 3: unfold pass1_new; destruct (keeps_decoded_prev prev true (set_graph (Some g) i)) as (E1 & E2 & _);
    destruct (prev_fn _ _ _); cbn in *; by destruct i.
  rewrite (run_bind _ _ _ _ _ (eq_refl : lift (Ok 0) w1 = _)), Z.add_0_r.
  destruct (Z.leb_spec (Z.of_nat (length code)) pos); [lia|].
  rewrite Hi, (run_bind _ _ _ _ _ (eq_refl : lift (Ok i) w1 = _)).
  destruct (run_alloc i w1) as [Hal Hnone]. rewrite (run_bind _ _ _ _ _ Hal).
  apply IH; try done; [apply lookup_insert_eq|]. intros E.
  assert (p = fresh (dom (w_instr w1))) as E' by congruence. by rewrite <- E', Hp1 in Hnone.
Qed.

(** [DecodeInstructions] does not terminate on code that starts with an
    instruction of size zero: whatever the number of iterations it is allowed, it
    does not return.  The opcode table has such rows, [FE 23] and [FE 24]. *)
Theorem DecodeInstructions_diverges g code i w gr :
  InstructionFromBytes code 0 = Ok i -> GetInstructionSize i = Ok 0 -> code <> [] ->
  w_graph w !! g = Some gr ->
  forall fuel, exists w', DecodeInstructions fuel g code w = (NoFuel, w').
Proof.
  intros Hi Hs Hne Hgr fuel. unfold DecodeInstructions. destruct code as [|b code']; [done|].
  set (code := b :: code') in *. destruct (run_alloc i w) as [Hal Hnone].
  set (p := fresh (dom (w_instr w))) in *.
  rewrite Hi, bind_bind, (run_bind _ _ _ _ _ (eq_refl : lift (Ok i) w = _)), bind_bind, (run_bind _ _ _ _ _ Hal).
  set (w0 := on_instr (insert p i) w). erewrite run_bind by apply run_update_graph.
  set (w1 := on_graph (alter (set_first (Some p)) g) w0).
  assert (w_graph w1 !! g = Some (set_first (Some p) gr)) as E1 by (cbn; by rewrite lookup_alter_eq, Hgr).
  rewrite (run_bind _ _ _ _ _ (run_load_graph _ _ _ E1)).
  assert (m_pFirstInstruction (set_first (Some p) gr) = Some p) as -> by (by destruct gr).
  erewrite run_bind by apply run_update_graph.
  set (w2 := on_graph (alter (set_origFirst (Some p)) g) w1).
  destruct (decode_loop_stuck g code 0 i fuel w2 p None ∅) as [w3 Hw3]; try done.
  - by eapply InstructionFromBytes_unowned.
  - apply lookup_insert_eq.
  - exists w3. unfold bind. by rewrite Hw3.
Qed.

Lemma DecodeInstructions_diverges_witness : exists w',
  DecodeInstructions 1000 1 [0xFE; 0x23; 0x2A] empty_world = (NoFuel, w').
Proof.
  eapply (DecodeInstructions_diverges 1 [0xFE; 0x23; 0x2A] (new_instruction 0x123 false CNone) empty_world);
    [vm_compute; reflexivity|vm_compute; reflexivity|discriminate|reflexivity].
Defined.
