(* ===== verification/Frame.v ===== *)
(** The frame of decoding, encoding and refreshing: of the graphs they change the
    ends of the list and the stale flag only, and they leave the clauses, the
    methods and the maps of the module alone. *)
From S2P Require Import Prelude ILOpcodes Instruction Store BranchTargets Graph Codec.

(** The members of a graph that stay. *)
Definition members (gr : CInstructionGraph) : CInstructionGraph :=
  set_last None (set_first None (set_orig None None (set_stale false gr))).

Record rest (w w' : World) : Prop := {
  rs_graph : forall h, members <$> w_graph w' !! h = members <$> w_graph w !! h;
  rs_clause : w_clause w' = w_clause w;
  rs_method : w_method w' = w_method w;
  rs_maps : w_ilMaps w' = w_ilMaps w
}.

#[export] Instance rest_preorder : PreOrder rest.
Proof. split; [by split|]. intros w1 w2 w3 [] []. split; intros; congruence. Qed.

#[export] Instance rest_load p : Preserves rest (load p).
Proof. by split. Qed.
#[export] Instance rest_load_graph g : Preserves rest (load_graph g).
Proof. by split. Qed.
#[export] Instance rest_load_clause c : Preserves rest (load_clause c).
Proof. by split. Qed.
#[export] Instance rest_load_method m : Preserves rest (load_method m).
Proof. by split. Qed.
#[export] Instance rest_update p f : Preserves rest (update p f).
Proof. by split. Qed.
#[export] Instance rest_alloc i : Preserves rest (alloc i).
Proof. by split. Qed.

Lemma rest_update_graph g f : (forall gr, members (f gr) = members gr) -> Preserves rest (update_graph g f).
Proof.
  intros Hf w. split; try done. intros h. cbn. rewrite lookup_alter.
  case_decide as Hh; [subst h|done]. destruct (w_graph w !! g); cbn; [by rewrite Hf|done].
Qed.

#[export] Instance rest_set_stale g b : Preserves rest (update_graph g (set_stale b)).
Proof. apply rest_update_graph. by intros []. Qed.
#[export] Instance rest_set_first g p : Preserves rest (update_graph g (set_first p)).
Proof. apply rest_update_graph. by intros []. Qed.
#[export] Instance rest_set_origFirst g p : Preserves rest (update_graph g (set_origFirst p)).
Proof. apply rest_update_graph. by intros []. Qed.

(** *** Refreshing *)

#[export] Instance rest_GetOffset_with refresh p :
  (forall g, Preserves rest (refresh g)) -> Preserves rest (GetOffset_with refresh p).
Proof. intros H. unfold GetOffset_with. pres. Qed.
#[export] Instance rest_Refresh_with calc g :
  (forall g, Preserves rest (calc g)) -> Preserves rest (RefreshInstructions_with calc g).
Proof. intros H. unfold RefreshInstructions_with. pres. Qed.
#[export] Instance rest_calc_loop off n p q :
  (forall p, Preserves rest (off p)) -> Preserves rest (calc_loop off n p q).
Proof. intros H. revert p q. induction n; intros [] ?; cbn [calc_loop]; unfold SetOffset; pres. Qed.
#[export] Instance rest_calc_offsets d n g : Preserves rest (calc_offsets d n g).
Proof. revert g. induction d; intros g; cbn [calc_offsets]; pres. Qed.
#[export] Instance rest_Calculate n g : Preserves rest (CalculateInstructionOffsets n g).
Proof. unfold CalculateInstructionOffsets. apply _. Qed.
#[export] Instance rest_Refresh n g : Preserves rest (RefreshInstructions n g).
Proof. unfold RefreshInstructions. apply _. Qed.
#[export] Instance rest_GetOffset n p : Preserves rest (GetOffset n p).
Proof. unfold GetOffset. apply _. Qed.
#[export] Instance rest_GetOriginalOffset n p : Preserves rest (GetOriginalOffset n p).
Proof. unfold GetOriginalOffset. pres. Qed.

(** *** Targets *)

#[export] Instance rest_GetOrCreate p : Preserves rest (GetOrCreateInstance p).
Proof. unfold GetOrCreateInstance. pres. Qed.
#[export] Instance rest_info_SetBranchTarget p t o : Preserves rest (info_SetBranchTarget p t o).
Proof. unfold info_SetBranchTarget, GetInstance, Remove_branch, Disconnect_info. pres. Qed.
#[export] Instance rest_Branch_Set p t : Preserves rest (Branch_SetBranchTarget p t).
Proof. unfold Branch_SetBranchTarget. pres. Qed.
#[export] Instance rest_Branch_Get p : Preserves rest (Branch_GetBranchTarget p).
Proof. unfold Branch_GetBranchTarget. pres. Qed.
#[export] Instance rest_GetTargetOffset n p : Preserves rest (GetTargetOffset n p).
Proof. unfold GetTargetOffset. pres. Qed.
#[export] Instance rest_Switch_Get p i : Preserves rest (Switch_GetBranchTarget p i).
Proof. unfold Switch_GetBranchTarget. pres. Qed.
#[export] Instance rest_Switch_Set p i t : Preserves rest (Switch_SetBranchTarget p i t).
Proof. unfold Switch_SetBranchTarget. pres. Qed.
#[export] Instance rest_Switch_Count p : Preserves rest (Switch_GetBranchCount p).
Proof. unfold Switch_GetBranchCount. pres. Qed.
#[export] Instance rest_Switch_Offset n p i : Preserves rest (Switch_GetBranchOffset n p i).
Proof. unfold Switch_GetBranchOffset. pres. Qed.

(** *** Decoding and encoding *)

#[export] Instance rest_SetGraph p g : Preserves rest (SetGraph p g).
Proof. unfold SetGraph. pres. Qed.
#[export] Instance rest_decode_loop g code n p q pos om : Preserves rest (decode_loop g code n p q pos om).
Proof.
  revert p q pos om. induction n; intros p q pos om; cbn [decode_loop];
    unfold SetPreviousInstruction, SetNextInstruction, SetOffset, SetOriginalOffset; pres.
Qed.
#[export] Instance rest_finalize_cases n p next om i c : Preserves rest (finalize_cases n p next om i c).
Proof. revert i. induction c; intros i; cbn [finalize_cases]; pres. Qed.
#[export] Instance rest_finalize_one n p om : Preserves rest (finalize_one n p om).
Proof. unfold finalize_one. pres. Qed.
#[export] Instance rest_finalize_loop k n p om : Preserves rest (finalize_loop k n p om).
Proof. revert p. induction n; intros []; cbn [finalize_loop]; pres. Qed.

#[export] Instance rest_DecodeInstructions n g code : Preserves rest (DecodeInstructions n g code).
Proof.
  unfold DecodeInstructions. pres. apply rest_update_graph. by intros [].
Qed.

#[export] Instance rest_emit_cases n p next pos i c buf : Preserves rest (emit_cases n p next pos i c buf).
Proof. revert pos i buf. induction c; intros pos i buf; cbn [emit_cases]; unfold poke; pres. Qed.
#[export] Instance rest_EmitIL n p buf : Preserves rest (EmitIL n p buf).
Proof. unfold EmitIL, poke. pres. Qed.
#[export] Instance rest_count_loop n p a b : Preserves rest (count_loop n p a b).
Proof. revert p a b. induction n; intros [] ? ?; cbn [count_loop]; pres. Qed.
#[export] Instance rest_emit_loop k n p q buf map : Preserves rest (emit_loop k n p q buf map).
Proof. revert p q buf map. induction n; intros [] ? ? ?; cbn [emit_loop]; pres. Qed.
#[export] Instance rest_EncodeIL n g : Preserves rest (EncodeIL n g).
Proof. unfold EncodeIL. pres. Qed.
#[export] Instance rest_expand_loop n p : Preserves rest (expand_loop n p).
Proof. revert p. induction n; intros []; cbn [expand_loop]; pres. Qed.
