(* ===== verification/Lookups.v ===== *)
(** Lookups by offset: [GetInstructionAtOffsetInternal] and
    [GetInstructionAtEndOffset] of [InstructionGraph.cpp] find exactly the
    instruction that begins, or ends, at the offset. *)
From S2P Require Import Prelude ILOpcodes Instruction Store Chain Demo Offsets BranchTargets Clauses Graph Codec CodecSpec.

(** ** Specification *)

(** The instruction of [l] that is at [off], and the one that ends there, when the
    sizes are [ss] and the first one is at [pos]. *)
Fixpoint begins_at (pos : Z) (l : list ptr) (ss : list Z) (off : Z) : option ptr :=
  match l, ss with
  | p :: l', s :: ss' => if pos =? off then Some p else begins_at (pos + s) l' ss' off
  | _, _ => None
  end.

Fixpoint ends_at (pos : Z) (l : list ptr) (ss : list Z) (off : Z) : option ptr :=
  match l, ss with
  | p :: l', s :: ss' => if pos + s =? off then Some p else ends_at (pos + s) l' ss' off
  | _, _ => None
  end.

(** [m] returns the instruction, or [E_FAIL] when there is none. *)
Definition settled_lookup (w : World) (m : W ptr) (r : option ptr) : Prop :=
  forall w1, only_flag w w1 -> exists w2,
    m w1 = (match r with Some p => Ok p | None => Err E_FAIL end, w2) /\ only_flag w w2.

Lemma settled_lookup_Some w m p : settled_lookup w m (Some p) <-> settled w m p.
Proof. done. Qed.

Lemma settled_lookup_bind {A} w (m : W A) (f : A -> W ptr) a r :
  settled w m a -> settled_lookup w (f a) r -> settled_lookup w (bind m f) r.
Proof.
  intros Hm Hf w1 H1. destruct (Hm w1 H1) as (w2 & Hw2 & H2).
  destruct (Hf w2 H2) as (w3 & Hw3 & H3). exists w3. split; [|done]. by erewrite run_bind.
Qed.

Lemma settled_lookup_attempt w m r : settled_lookup w m r -> settled w (attempt m) r.
Proof.
  intros Hm w1 H1. destruct (Hm w1 H1) as (w2 & Hw2 & H2). exists w2. split; [|done].
  unfold attempt. rewrite Hw2. by destruct r.
Qed.

Section UpToDate.
Context (fuel : nat) (w : World) (g : ptr) (all : list ptr) (ss : list Z).
Hypothesis Hl : graph_chain w g all.
Hypothesis Hss : sized (w_instr w) all ss.
Hypothesis Hp : placed (w_instr w) 0 all ss.
Hypothesis Hf : (length all <= fuel)%nat.
Hypothesis Hpos : Forall (fun s => 0 <= s) ss.
Hypothesis Hsum : sum_sizes ss < 2 ^ 32.

(** One step of either loop: the offset of the current instruction, and its size. *)
Lemma loop_state l : forall a pos rest,
  segment (w_instr w) a l None -> sized (w_instr w) l rest -> placed (w_instr w) pos l rest ->
  match l with
  | [] => True
  | p :: l' => exists i s rest', rest = s :: rest' /\ w_instr w !! p = Some i /\
      GetInstructionSize i = Ok s /\ m_offset i = pos /\ m_pNextInstruction i = first_or l' None /\
      segment (w_instr w) (Some p) l' None /\ sized (w_instr w) l' rest' /\
      placed (w_instr w) (u32 (pos + s)) l' rest'
  end.
Proof using.
  destruct l as [|p l]; [done|]. intros a pos rest Hs Hsz Hpl.
  destruct (sized_cons _ _ _ _ Hsz) as (i & s & rest' & -> & Hi & Hsi & Hsz'). destruct Hs as [Hn Hs].
  destruct (node_lookup _ _ _ _ _ Hn Hi) as [_ Hnx]. destruct Hpl as [Ho Hpl]. rewrite Hi in Ho. injection Ho as Ho.
  exists i, s, rest'. done.
Qed.

Lemma at_offset_loop_run l : forall n a pos rest off,
  segment (w_instr w) a l None -> sized (w_instr w) l rest -> placed (w_instr w) pos l rest ->
  (forall p, p ∈ l -> p ∈ all) -> Forall (fun s => 0 <= s) rest -> 0 <= pos ->
  pos + sum_sizes rest < 2 ^ 32 -> (length l <= n)%nat ->
  settled_lookup w (at_offset_loop fuel n off (first_or l None)) (begins_at pos l rest off).
Proof using All.
  induction l as [|p l IH]; intros n a pos rest off Hs Hsz Hpl Hin Hrest Hpos0 Hsum0 Hn.
  { intros w1 H1. exists w1. inversion Hsz. by destruct n. }
  destruct (loop_state _ _ _ _ Hs Hsz Hpl) as (i & s & rest' & -> & Hi & Hsi & <- & Hnx & Hs' & Hsz' & Hpl').
  inversion Hrest as [|? ? Hs0 Hrest']; subst. cbn [sum_sizes foldr] in Hsum0. fold (sum_sizes rest') in Hsum0.
  destruct n as [|n]; [cbn in Hn; lia|]. cbn [first_or at_offset_loop begins_at].
  eapply settled_lookup_bind; [eapply settled_GetOffset; eauto using list_elem_of_here|].
  destruct (m_offset i =? off); [intros w1 H1; by exists w1|].
  eapply settled_lookup_bind; [by apply settled_load|]. rewrite Hnx.
  assert (0 <= sum_sizes rest') by (clear -Hrest'; induction Hrest'; cbn; unfold sum_sizes in *; lia).
  rewrite u32_small in Hpl' by (unfold is_u32; lia).
  eapply IH; eauto; [|lia|lia|cbn in Hn; lia]. intros q Hq. apply Hin. by apply list_elem_of_further.
Qed.

Lemma at_end_loop_run l : forall n a pos rest off,
  segment (w_instr w) a l None -> sized (w_instr w) l rest -> placed (w_instr w) pos l rest ->
  (forall p, p ∈ l -> p ∈ all) -> Forall (fun s => 0 <= s) rest -> 0 <= pos ->
  pos + sum_sizes rest < 2 ^ 32 -> (length l <= n)%nat ->
  settled_lookup w (at_end_loop fuel n off (first_or l None)) (ends_at pos l rest off).
Proof using All.
  induction l as [|p l IH]; intros n a pos rest off Hs Hsz Hpl Hin Hrest Hpos0 Hsum0 Hn.
  { intros w1 H1. exists w1. inversion Hsz. by destruct n. }
  destruct (loop_state _ _ _ _ Hs Hsz Hpl) as (i & s & rest' & -> & Hi & Hsi & <- & Hnx & Hs' & Hsz' & Hpl').
  inversion Hrest as [|? ? Hs0 Hrest']; subst. cbn [sum_sizes foldr] in Hsum0. fold (sum_sizes rest') in Hsum0.
  destruct n as [|n]; [cbn in Hn; lia|]. cbn [first_or at_end_loop ends_at].
  eapply settled_lookup_bind; [eapply settled_GetOffset; eauto using list_elem_of_here|].
  eapply settled_lookup_bind; [by apply settled_load|]. rewrite Hsi.
  eapply settled_lookup_bind; [apply settled_lift|].
  assert (0 <= sum_sizes rest') by (clear -Hrest'; induction Hrest'; cbn; unfold sum_sizes in *; lia).
  rewrite u32_small in * by (unfold is_u32; lia).
  destruct (m_offset i + s =? off); [intros w1 H1; by exists w1|]. rewrite Hnx.
  eapply IH; eauto; [|lia|lia|cbn in Hn; lia]. intros q Hq. apply Hin. by apply list_elem_of_further.
Qed.

Lemma settled_first (k : option ptr -> W ptr) r :
  settled_lookup w (k (first_or all None)) r ->
  settled_lookup w (gr <- load_graph g ;; k (m_pFirstInstruction gr)) r.
Proof using Hl.
  intros Hk w1 H1. destruct (gc_graph _ _ _ Hl) as (gr & Hg & Hfirst).
  pose proof (of_graph _ _ H1 g) as E. rewrite Hg in E.
  destruct (w_graph w1 !! g) as [gr1|] eqn:Hg1; [|done]. injection E as E.
  rewrite (run_bind _ _ _ _ _ (run_load_graph _ _ _ Hg1)).
  replace (m_pFirstInstruction gr1) with (first_or all None); [by apply Hk|].
  rewrite <- Hfirst. destruct gr, gr1. injection E as ?. cbn. congruence.
Qed.

Lemma AtOffset_run off :
  settled_lookup w (GetInstructionAtOffsetInternal g fuel off) (begins_at 0 all ss off).
Proof using All. apply settled_first. eapply at_offset_loop_run; eauto; [apply Hl|lia]. Qed.

Lemma AtEndOffset_run off :
  settled_lookup w (GetInstructionAtEndOffset g fuel off) (ends_at 0 all ss off).
Proof using All. apply settled_first. eapply at_end_loop_run; eauto; [apply Hl|lia]. Qed.

End UpToDate.

(** ** The positions the lookups find *)

Lemma sum_take_nonneg ss k : Forall (fun s => 0 <= s) ss -> 0 <= sum_sizes (take k ss).
Proof.
  intros H. revert k. induction H as [|s ss Hs _ IH]; intros [|k]; cbn; try lia.
  specialize (IH k). unfold sum_sizes in *. lia.
Qed.

Lemma begins_at_spec l : forall pos ss off p,
  length l = length ss -> Forall (fun s => 0 < s) ss ->
  begins_at pos l ss off = Some p <-> exists k, l !! k = Some p /\ off = pos + sum_sizes (take k ss).
Proof.
  induction l as [|q l IH]; intros pos [|s ss] off p Hl Hs; try done.
  { split; [done|]. by intros (k & Hk & _). }
  inversion Hs as [|? ? Hs0 Hs']; subst. injection Hl as Hl. cbn [begins_at]. split.
  - destruct (Z.eqb_spec pos off) as [->|].
    + intros [= ->]. exists 0%nat. cbn. split; [done|lia].
    + intros (k & Hk & ->)%IH; [|done..]. exists (S k). cbn [take sum_sizes foldr]. unfold sum_sizes. split; [done|lia].
  - intros ([|k] & Hk & ->).
    + injection Hk as ->. cbn. rewrite Z.add_0_r. by rewrite Z.eqb_refl.
    + cbn [take sum_sizes foldr]. fold (sum_sizes (take k ss)).
      pose proof (sum_take_nonneg ss k) as Hk0.
      destruct (Z.eqb_spec pos (pos + (s + sum_sizes (take k ss)))) as [E|_].
      * exfalso. assert (Forall (fun s => 0 <= s) ss) as H0 by (eapply Forall_impl; [exact Hs'|cbn; lia]). specialize (Hk0 H0). lia.
      * apply IH; [done..|]. exists k. split; [done|lia].
Qed.

Lemma ends_at_spec l : forall pos ss off p,
  length l = length ss -> Forall (fun s => 0 < s) ss ->
  ends_at pos l ss off = Some p <-> exists k, l !! k = Some p /\ off = pos + sum_sizes (take (S k) ss).
Proof.
  induction l as [|q l IH]; intros pos [|s ss] off p Hl Hs; try done.
  { split; [done|]. by intros (k & Hk & _). }
  inversion Hs as [|? ? Hs0 Hs']; subst. injection Hl as Hl. cbn [ends_at]. split.
  - destruct (Z.eqb_spec (pos + s) off) as [<-|].
    + intros [= ->]. exists 0%nat. split; [done|]. unfold sum_sizes. cbn. rewrite take_0. cbn. lia.
    + intros (k & Hk & ->)%IH; [|done..]. exists (S k). split; [done|].
      change (take (S (S k)) (s :: ss)) with (s :: take (S k) ss). cbn [sum_sizes foldr]. fold (sum_sizes (take (S k) ss)). lia.
  - intros ([|k] & Hk & ->).
    + injection Hk as ->. unfold sum_sizes. cbn. rewrite take_0. cbn. rewrite Z.add_0_r. by rewrite Z.eqb_refl.
    + change (take (S (S k)) (s :: ss)) with (s :: take (S k) ss). cbn [sum_sizes foldr]. fold (sum_sizes (take (S k) ss)).
      destruct (Z.eqb_spec (pos + s) (pos + (s + sum_sizes (take (S k) ss)))) as [E|_].
      * exfalso. destruct ss as [|s' ss]; [by destruct l|]. inversion Hs' as [|? ? Hs1 Hs2]; subst.
        assert (0 <= sum_sizes (take k ss)) by (apply sum_take_nonneg; eapply Forall_impl; [exact Hs2|cbn; lia]).
        cbn [take sum_sizes foldr] in E. unfold sum_sizes in *. lia.
      * apply IH; [done..|]. exists k. split; [done|lia].
Qed.

(** ** Lookups in a graph that has been edited *)

(** The first offset that is asked for refreshes the graph. *)
Lemma GetOffset_refreshes w g l ss p fuel :
  graph_chain w g l -> sized (w_instr w) l ss -> (length l <= fuel)%nat -> ~ clear w g -> p ∈ l ->
  exists w2, GetOffset fuel p w = GetOffset fuel p w2 /\ reoffset w w2 /\ placed (w_instr w2) 0 l ss.
Proof.
  intros Hl Hss Hf Hst Hp.
  destruct (refresh_stale fuel fuel w g l ss Hl Hss Hf Hst) as (w2 & Hw & (Hr & Hpl & _) & Hc).
  destruct (graph_chain_elem _ _ _ _ Hl Hp) as (i & Hi & Hg).
  destruct (graph_chain_elem _ _ _ _ (reoffset_graph_chain _ _ Hr _ _ Hl) Hp) as (i2 & Hi2 & Hg2).
  exists w2. split_and!; [|done|done]. unfold GetOffset, GetOffset_with, RefreshInstructions, CalculateInstructionOffsets.
  rewrite (run_bind _ _ _ _ _ (run_load _ _ _ Hi)), (run_bind _ _ _ _ _ (run_load _ _ _ Hi2)), Hg, Hg2.
  rewrite (run_bind _ _ _ _ _ Hw). by rewrite (run_bind _ _ _ _ _ (clear_refresh _ _ _ Hc)).
Qed.

Definition lookup_result (r : option ptr) : outcome ptr :=
  match r with Some p => Ok p | None => Err E_FAIL end.

(** Whatever edits were made before, [GetInstructionAtOffset] finds the
    instruction whose preceding instructions have the given total size, and
    [GetInstructionAtEndOffset] the one up to which the total is the given offset;
    both fail with [E_FAIL] when there is no such instruction. *)
Theorem lookups_find w g l ss off fuel :
  graph_list w g l -> sized (w_instr w) l ss -> Forall (fun s => 0 < s) ss -> sum_sizes ss < 2 ^ 32 ->
  (length l <= fuel)%nat -> m_bAreInstructionsStale <$> w_graph w !! g = Some true ->
  (exists r w', GetInstructionAtOffsetInternal g fuel off w = (lookup_result r, w') /\
    graph_list w' g l /\
    forall p, r = Some p <-> exists k, l !! k = Some p /\ off = sum_sizes (take k ss)) /\
  (exists r w', GetInstructionAtEndOffset g fuel off w = (lookup_result r, w') /\
    graph_list w' g l /\
    forall p, r = Some p <-> exists k, l !! k = Some p /\ off = sum_sizes (take (S k) ss)).
Proof.
  intros Hl Hss Hpos Hsum Hf Hst. pose proof (Forall2_length _ _ _ Hss) as Hlen.
  assert (~ clear w g) as Hnc by (unfold clear; by rewrite Hst).
  assert (Forall (fun s => 0 <= s) ss) as Hpos0 by (eapply Forall_impl; [exact Hpos|cbn; lia]).
  pose proof (graph_list_chain _ _ _ Hl) as Hch.
  assert (forall (loop : nat -> option ptr -> W ptr) r,
    (forall w2, reoffset w w2 -> placed (w_instr w2) 0 l ss -> settled_lookup w2 (loop fuel (first_or l None)) r) ->
    (forall n, loop n None = fail E_FAIL) ->
    (forall p w2, p ∈ l -> GetOffset fuel p w = GetOffset fuel p w2 -> loop fuel (Some p) w = loop fuel (Some p) w2) ->
    (l = [] -> r = None) ->
    exists w', (gr <- load_graph g ;; loop fuel (m_pFirstInstruction gr)) w = (lookup_result r, w') /\ graph_list w' g l)
    as Hrun.
  { intros loop r Hloop Hnone Hskip Hnil. destruct (gl_graph _ _ _ Hl) as (gr & Hgr & Hfirst & _).
    rewrite (run_bind _ _ _ _ _ (run_load_graph _ _ _ Hgr)), Hfirst.
    destruct l as [|p l']; [exists w; rewrite Hnil by done; cbn; by rewrite Hnone|].
    destruct (GetOffset_refreshes w g _ ss p fuel Hch Hss Hf Hnc (list_elem_of_here _ _)) as (w2 & Hw2 & Hr & Hp).
    destruct (Hloop w2 Hr Hp w2) as (w3 & Hw3 & H3); [reflexivity|].
    exists w3. cbn [first_or]. rewrite (Hskip p w2) by (done || apply list_elem_of_here). split; [by destruct r|].
    eapply reoffset_graph_list; [by apply only_flag_reoffset|]. by eapply reoffset_graph_list. }
  split.
  - destruct (Hrun (fun n => at_offset_loop fuel n off) (begins_at 0 l ss off)) as (w' & Hw & Hl').
    + intros w2 Hr Hp. eapply at_offset_loop_run; eauto; [by eapply reoffset_graph_chain|by eapply reoffset_sized| | |lia].
      * eapply reoffset_segment; [done|apply Hl].
      * by eapply reoffset_sized.
    + by intros [].
    + intros p w2 Hp E. destruct fuel; [destruct l; [set_solver|cbn in Hf; lia]|]. cbn [at_offset_loop]. unfold bind. by rewrite E.
    + by intros ->.
    + exists (begins_at 0 l ss off), w'. split; [exact Hw|]. split; [done|]. intros p. by apply begins_at_spec.
  - destruct (Hrun (fun n => at_end_loop fuel n off) (ends_at 0 l ss off)) as (w' & Hw & Hl').
    + intros w2 Hr Hp. eapply at_end_loop_run; eauto; [by eapply reoffset_graph_chain|by eapply reoffset_sized| | |lia].
      * eapply reoffset_segment; [done|apply Hl].
      * by eapply reoffset_sized.
    + by intros [].
    + intros p w2 Hp E. destruct fuel; [destruct l; [set_solver|cbn in Hf; lia]|]. cbn [at_end_loop]. unfold bind. by rewrite E.
    + by intros ->.
    + exists (ends_at 0 l ss off), w'. split; [exact Hw|]. split; [done|]. intros p. by apply ends_at_spec.
Qed.

Lemma lookups_find_witness : exists r w',
  GetInstructionAtOffsetInternal 1 4 3 demo = (lookup_result r, w') /\
  (r = Some 3%positive <-> exists k, [1; 2; 3; 4]%positive !! k = Some 3%positive /\
     3 = sum_sizes (take k [1; 2; 1; 1])).
Proof.
  destruct (lookups_find demo 1 _ _ 3 4 demo_graph_list demo_sized) as [(r & w' & H & _ & Hr) _].
  - repeat constructor.
  - reflexivity.
  - cbn. lia.
  - reflexivity.
  - exists r, w'. split; [exact H|apply Hr].
Defined.
