(* ===== verification/EditInvariant.v ===== *)
(** Sessions of edits: what an instrumentation method may do to a graph, one edit
    after the other, keeps the graph, the targets, the back links and the clauses
    consistent, and what comes out can be encoded. *)
From S2P Require Import Prelude ILOpcodes Instruction Store Chain BranchTargets Retarget Clauses Demo Offsets Graph GraphSpec Codec CodecSpec BackLinks.

(** Retargeting keeps the code consistent. *)
Lemma kind_ok_retarget i i' o n q gen :
  kind_ok i -> m_opcode i' = m_opcode i -> m_class i' = retarget_class o n q gen (m_class i) -> kind_ok i'.
Proof.
  intros (r & Hr & Hk) Ho Hc. exists r. rewrite Ho, Hc. split; [done|].
  destruct (m_class i) as [| |d t orig|]; cbn in *; try done. by case_decide.
Qed.

Lemma retargeted_code_ok w o n w' :
  code_ok w -> is_Some (w_instr w !! n) -> is_Some (w_instr w !! o) -> n <> o ->
  retargeted o n w w' -> code_ok w'.
Proof.
  intros [Hc Hb Hk] Hn Ho Hno (w1 & Hw1 & Hkp & Hrt & Hi & _ & _).
  destruct (RetargetBranches_backs _ _ _ _ Hc Hb Hn Ho Hno Hk Hw1) as [Hc1 Hb1].
  assert (code_ok w1) as [H1 H2 H3].
  { split; [done..|]. intros q i' Hi'. pose proof (kp_instr _ _ Hkp q) as E. rewrite Hi' in E.
    destruct (w_instr w !! q) as [i|] eqn:Hiq; [|done]. injection E as (Hop & _)%shell_fields.
    specialize (Hrt q i Hiq). unfold class_of in Hrt. rewrite Hi' in Hrt. injection Hrt as Hrt.
    eapply kind_ok_retarget; [by apply (Hk q)|done|exact Hrt]. }
  split; unfold closed, backs_ok, targets, back, class_of in *; rewrite Hi; done.
Qed.

(** ** What can be encoded *)

(** An instruction that lacks nothing: its targets are set and its operand has a value. *)
Definition complete (i : CInstruction) : Prop :=
  0 <= m_opcode i < 0x123 /\ exists r, opinfo (m_opcode i) = Ok r /\
  match m_class i with
  | CBranch _ t _ => is_Some t
  | CSwitch _ ts => Forall is_Some ts
  | CNone => m_operandLength r = 0
  | COperand _ => m_operandLength r = 0 \/
      exists bs, GetOperandValue (m_operandLength r) i = Ok bs /\ Z.of_nat (length bs) = m_operandLength r
  end.

(** The number of bytes of its encoding. *)
Definition encoded_size (i : CInstruction) : nat :=
  length (opcode_bytes (m_opcode i)) +
  match m_class i with
  | CSwitch _ ts => 4 + 4 * length ts
  | _ => match opinfo_opt (m_opcode i) with Some r => Z.to_nat (m_operandLength r) | None => 0 end
  end.

Lemma opinfo_Ok_opt op r : opinfo op = Ok r -> opinfo_opt op = Some r.
Proof. unfold opinfo. destruct (opinfo_opt op); cbn; congruence. Qed.

Lemma mapM_total {A B} (f : A -> option B) l : (forall x, x ∈ l -> is_Some (f x)) -> exists k, mapM f l = Some k.
Proof.
  induction l as [|x l IH]; intros H; [by exists []|].
  destruct (H x) as [y Hy]; [set_solver|]. destruct IH as [k Hk]; [set_solver|].
  exists (y :: k). cbn. by rewrite Hy, Hk.
Qed.

Lemma complete_encodes offs o i :
  complete i -> kind_ok i -> (forall t, Some t ∈ refs (m_class i) -> is_Some (offs t)) ->
  exists bs, encode_instr offs (set_offset o i) = Some bs /\ length bs = encoded_size i.
Proof.
  intros (Hop & r & Hr & Hc) (r' & Hr' & Hk) Hoffs. rewrite Hr in Hr'. injection Hr' as <-.
  unfold encode_instr, encoded_size.
  replace (m_opcode (set_offset o i)) with (m_opcode i) by by destruct i.
  rewrite (opinfo_Ok_opt _ _ Hr). cbn [mbind option_bind].
  assert ((0 <=? m_opcode i) && (m_opcode i <? 291) = true) as -> by lia.
  enough (exists pl, encode_payload offs (set_offset o i) r = Some pl /\ length pl =
    match m_class i with CSwitch _ ts => 4 + 4 * length ts | _ => Z.to_nat (m_operandLength r) end)%nat
    as (pl & -> & Hl).
  { eexists. split; [reflexivity|]. rewrite length_app, Hl. by destruct (m_class i). }
  unfold encode_payload.
  replace (m_opcode (set_offset o i)) with (m_opcode i) by by destruct i.
  replace (m_class (set_offset o i)) with (m_class i) by by destruct i.
  replace (m_offset (set_offset o i)) with o by by destruct i.
  destruct (m_class i) as [|v|d t orig|ds ts] eqn:Ec; cbn [refs] in *.
  - destruct Hk as [-> ->%Z.eqb_neq]. rewrite Hc. by exists [].
  - destruct Hk as [-> ->%Z.eqb_neq]. cbn [orb]. destruct Hc as [->|(bs & Hv & Hl)]; [by exists []|].
    destruct (Z.eqb_spec (m_operandLength r) 0) as [->|]; [by exists []|].
    exists bs. unfold GetOperandValue in *.
    replace (m_class (set_offset o i)) with (m_class i) by by destruct i.
    replace (m_opcode (set_offset o i)) with (m_opcode i) by by destruct i.
    rewrite Hv, Hl, Z.eqb_refl. split; [done|lia].
  - destruct Hc as [t' ->]. rewrite Hk. destruct (Hoffs t') as [x Hx]; [set_solver|]. rewrite Hx.
    eexists. split; [reflexivity|]. unfold branch_payload. by rewrite length_le_bytes.
  - rewrite Hk, Z.eqb_refl. destruct (mapM_total (fun t => t ≫= offs) ts) as [k Hkk].
    { intros x Hx. rewrite Forall_forall in Hc. destruct (Hc x Hx) as [t ->]. by apply Hoffs. }
    rewrite Hkk. eexists. split; [reflexivity|]. unfold switch_payload.
    rewrite <- (map_map _ (le_bytes 4)), length_app, length_le_bytes, length_concat_le4, length_map.
    by rewrite (length_mapM _ _ _ Hkk).
Qed.

(** ** Graphs that can be edited *)

(** The graph [g] represents [l], its method has the clauses [cs], the code of the world
    is consistent, and the graph is closed: what its instructions target and where its
    clauses begin and end are its own instructions, which can all be encoded. *)
Record editable (w : World) (g : ptr) (l cs : list ptr) : Prop := {
  ed_list : graph_list w g l;
  ed_code : code_ok w;
  ed_section : section_ok w (method_of w g) cs;
  ed_live : forall p t, p ∈ l -> targets w p t -> t ∈ l;
  ed_inside : forall c cl p, c ∈ cs -> w_clause w !! c = Some cl -> Some p ∈ clause_refs cl -> p ∈ l;
  ed_complete : forall p i, p ∈ l -> w_instr w !! p = Some i -> complete i
}.

Lemma complete_ext i i' :
  m_opcode i' = m_opcode i -> m_class i' = m_class i -> complete i -> complete i'.
Proof.
  intros Ho Hc (H1 & r & Hr & H2). split; [by rewrite Ho|]. exists r. rewrite Ho, Hc. split; [done|].
  destruct (m_class i) eqn:E; try done. unfold GetOperandValue in *. by rewrite Ho, Hc, E in *.
Qed.

Lemma complete_retarget i i' o n q gen :
  complete i -> m_opcode i' = m_opcode i -> m_class i' = retarget_class o n q gen (m_class i) -> complete i'.
Proof.
  intros Hi Ho Hc. destruct (m_class i) as [| |d t orig|ds ts] eqn:E; cbn in Hc;
    try (apply (complete_ext i); congruence).
  - case_decide; [|apply (complete_ext i); congruence].
    destruct Hi as (H1 & r & Hr & H2). split; [by rewrite Ho|]. exists r. rewrite Ho, Hc. split; [done|by eexists].
  - destruct Hi as (H1 & r & Hr & H2). split; [by rewrite Ho|]. exists r. rewrite Ho, Hc. split; [done|].
    rewrite E in H2. rewrite Forall_forall in *. intros x (y & -> & Hy)%list_elem_of_fmap.
    unfold subst_target. case_decide; eauto.
Qed.

(** A new instruction that may be put into the graph. *)
Record insertable (w : World) (l : list ptr) (n : ptr) : Prop := {
  in_detached : detached w n;
  in_complete : forall i, w_instr w !! n = Some i -> complete i;
  in_targets : forall t, targets w n t -> t = n \/ t ∈ l
}.

(** Edits that set links and ends only. *)
Lemma linked_editable w w' g l l' cs n :
  editable w g l cs -> insertable w l n -> same_code w w' -> w_clause w' = w_clause w ->
  graph_list w' g l' -> (forall p, p ∈ l' <-> p = n \/ p ∈ l) -> editable w' g l' cs.
Proof.
  intros [Hl Hc Hs Hlv Hin Hcp] [_ Hnc Hnt] Hsc Hcl Hl' Hel.
  assert (forall p t, targets w' p t <-> targets w p t) as Htg
    by (intros p t; unfold targets; by rewrite (same_code_class _ _ p Hsc)).
  split; [done|by eapply same_code_ok| | | |].
  - rewrite (sd_of _ _ Hsc). unfold section_ok in *. by rewrite (sd_method _ _ Hsc), Hcl.
  - intros p t. rewrite Htg, !Hel. naive_solver.
  - intros c cl p. rewrite Hcl, Hel. right. by eapply Hin.
  - intros p i' Hp Hi'. destruct (same_code_lookup_inv _ _ _ _ Hsc Hi') as (i & Hi & E). injection E as Ho Hcs _.
    apply (complete_ext i); [done..|]. apply Hel in Hp as [->|Hp]; eauto.
Qed.

Lemma update_boundary_Some b o n x p :
  Some p = update_boundary b o (Some n) x -> p = n \/ (Some p = x /\ (p <> o \/ b = false)).
Proof. unfold update_boundary. destruct b; case_bool_decide; cbn; intros; simplify_eq; auto; right; split; congruence || auto. left. congruence. Qed.

Lemma clause_update_refs r o n cl p :
  Some p ∈ clause_refs (clause_update r o (Some n) cl) ->
  p = n \/ (Some p ∈ clause_refs cl /\ (p <> o \/ r = false)).
Proof.
  intros H. unfold clause_refs, clause_update in H. cbn in H. rewrite !elem_of_cons in H.
  assert (forall b x, Some p = update_boundary b o (Some n) x -> (b = true \/ b = r) -> x ∈ clause_refs cl ->
    p = n \/ (Some p ∈ clause_refs cl /\ (p <> o \/ r = false))) as Hb.
  { intros b x [->|[-> Hp]]%update_boundary_Some Hbr Hx; [by left|]. right. split; [done|].
    destruct Hp as [? | -> ], Hbr as [? | <- ]; auto; done. }
  unfold clause_refs in *. destruct H as [H|[H|[H|[H|[H|H]]]]]; try (eapply Hb; [exact H|by auto|set_solver]).
  by apply elem_of_nil in H.
Qed.

Lemma retargeted_facts o n w w' :
  retargeted o n w w' -> (forall g, method_of w' g = method_of w g) /\ w_method w' = w_method w /\
  forall q i', w_instr w' !! q = Some i' -> exists i, w_instr w !! q = Some i /\ m_opcode i' = m_opcode i /\
    m_class i' = retarget_class o n q (m_instructionGeneration i) (m_class i).
Proof.
  intros (w1 & _ & Hk & Hrt & Hi & Hg & Hm). split_and!.
  - intros g. unfold method_of. by rewrite Hg, (kp_graph _ _ Hk).
  - by rewrite Hm, (kp_method _ _ Hk).
  - intros q i'. rewrite Hi. intros Hi'. pose proof (kp_instr _ _ Hk q) as E. rewrite Hi' in E.
    destruct (w_instr w !! q) as [i|] eqn:Hq; [|done]. injection E as (Hop & _)%shell_fields.
    exists i. split_and!; [done..|]. specialize (Hrt q i Hq). unfold class_of in Hrt. rewrite Hi' in Hrt.
    by injection Hrt.
Qed.

(** Edits that also move branches and clauses from [o] to the new instruction [n]. *)
Lemma retargeted_editable w w2 w' g l l' cs o n r :
  editable w g l cs -> insertable w l n -> o ∈ l -> n <> o -> same_code w w2 ->
  retargeted o n w2 w' -> updated_clauses cs r o (Some n) w w' -> graph_list w' g l' ->
  (forall p, p ∈ l' -> p = n \/ p ∈ l) -> n ∈ l' -> (forall p, p ∈ l -> p <> o -> p ∈ l') ->
  (o ∈ l' \/ (r = true /\ ~ targets w n o)) -> editable w' g l' cs.
Proof.
  intros [Hl Hc Hs Hlv Hin Hcp] [Hd Hnc Hnt] Ho Hno Hsc Hrt Huc Hl' Hin' Hn' Hother Hor.
  destruct (retargeted_facts _ _ _ _ Hrt) as (Hmo & Hme & Hi).
  assert (is_Some (w_instr w2 !! n)) as Hn2.
  { destruct (detached_other _ _ _ _ _ Hl Ho Hd) as [_ [i Hni]].
    destruct (same_code_lookup _ _ _ _ Hsc Hni) as (? & ? & _). eauto. }
  assert (is_Some (w_instr w2 !! o)) as Ho2.
  { destruct (graph_list_elem _ _ _ _ Hl Ho) as (i & Hoi & _).
    destruct (same_code_lookup _ _ _ _ Hsc Hoi) as (? & ? & _). eauto. }
  assert (forall p i', w_instr w' !! p = Some i' -> exists i, w_instr w !! p = Some i /\
    m_opcode i' = m_opcode i /\ exists gen, m_class i' = retarget_class o n p gen (m_class i)) as Hback.
  { intros p i' Hp. destruct (Hi p i' Hp) as (i2 & Hi2 & Hop & Hcs).
    destruct (same_code_lookup_inv _ _ _ _ Hsc Hi2) as (i & Hiw & E). injection E as E1 E2 _.
    exists i. split_and!; [done|congruence|]. eexists. by rewrite Hcs, E2. }
  split; [done|eapply retargeted_code_ok; [exact (same_code_ok _ _ Hsc Hc)|exact Hn2|exact Ho2|exact Hno|exact Hrt]| | | |].
  - rewrite Hmo, (sd_of _ _ Hsc). unfold section_ok in *. destruct (method_of w g) as [m|]; [|done].
    destruct Hs as (mi & Hm & Hcs & Hex). exists mi. rewrite Hme, (sd_method _ _ Hsc). split_and!; [done..|].
    intros c Hcc. rewrite Huc, decide_True by done. destruct (Hex c Hcc) as [cl ->]. eauto.
  - intros p t Hp (c & Hpc & Ht). unfold class_of in Hpc.
    destruct (w_instr w' !! p) as [i'|] eqn:Hi'; [|done]. injection Hpc as <-.
    destruct (Hback p i' Hi') as (i & Hiw & _ & gen & Hcs). rewrite Hcs in Ht.
    assert (forall x, Some x ∈ refs (m_class i) -> targets w p x) as Htw
      by (intros x Hx; exists (m_class i); unfold class_of; by rewrite Hiw).
    assert (forall x, targets w p x -> x <> o -> x ∈ l') as Hgo.
    { intros x Hx Hxo. destruct (Hin' p Hp) as [->|Hpl]; [destruct (Hnt x Hx) as [->|]; eauto|].
      apply Hother; [by eapply Hlv|done]. }
    destruct (decide (Some o ∈ refs (m_class i))) as [Hoi|Hoi].
    + apply (retarget_refs o n p gen _ t Hoi Hno) in Ht as [->|[Hto Ht]]; [|by apply Hgo; auto].
      unfold destination. destruct (m_class i); try done. case_decide; [subst p|done].
      destruct Hor as [?|[_ Hnot]]; [done|]. exfalso. by apply Hnot, Htw.
    + rewrite retarget_class_id in Ht by done. apply Hgo; [by apply Htw|]. intros ->. done.
  - intros c cl p Hcc Hcl Hp. rewrite Huc, decide_True in Hcl by done.
    destruct (w_clause w !! c) as [cl0|] eqn:Hc0; [|done]. injection Hcl as <-.
    apply clause_update_refs in Hp as [->|[Hp Hpr]]; [done|]. pose proof (Hin c cl0 p Hcc Hc0 Hp) as Hpl.
    destruct (decide (p = o)) as [->|]; [|by apply Hother]. destruct Hpr as [? | -> ]; [done|].
    by destruct Hor as [?|[]].
  - intros p i' Hp Hi'. destruct (Hback p i' Hi') as (i & Hiw & Hop & gen & Hcs).
    apply (complete_retarget i i' o n p gen); [|done..]. destruct (Hin' p Hp) as [->|]; eauto.
Qed.

(** *** Remove *)

Lemma cd_update p f : (forall i, code_of (f i) = code_of i) -> Preserves same_code (update p f).
Proof.
  intros Hf w. split; try done. intros q. cbn. rewrite lookup_alter. case_decide as Hq; [subst q|done].
  destruct (w_instr w !! p); cbn; [by rewrite Hf|done].
Qed.

Lemma cd_update_graph g f :
  (forall gr, m_pMethodInfo (f gr) = m_pMethodInfo gr) -> Preserves same_code (update_graph g f).
Proof.
  intros Hf w. split; try done. intros h. unfold method_of. cbn. rewrite lookup_alter.
  case_decide as Hq; [subst h|done]. destruct (w_graph w !! g); cbn; [by rewrite Hf|done].
Qed.

#[export] Instance cd_load p : Preserves same_code (load p).
Proof. intros w. reflexivity. Qed.
#[export] Instance cd_load_graph p : Preserves same_code (load_graph p).
Proof. intros w. reflexivity. Qed.
#[export] Instance cd_load_clause p : Preserves same_code (load_clause p).
Proof. intros w. reflexivity. Qed.
#[export] Instance cd_load_method p : Preserves same_code (load_method p).
Proof. intros w. reflexivity. Qed.
#[export] Instance cd_update_clause p f : Preserves same_code (update_clause p f).
Proof. intros w. by split. Qed.
#[export] Instance cd_SetNext p q b : Preserves same_code (SetNextInstruction p q b).
Proof. apply cd_update. intros []. cbn. by case_match. Qed.
#[export] Instance cd_SetPrev p q b : Preserves same_code (SetPreviousInstruction p q b).
Proof. apply cd_update. intros []. cbn. by case_match. Qed.
#[export] Instance cd_SetIsRemoved p : Preserves same_code (SetIsRemoved p).
Proof. apply cd_update. by intros []. Qed.
#[export] Instance cd_set_first g x : Preserves same_code (update_graph g (set_first x)).
Proof. apply cd_update_graph. by intros []. Qed.
#[export] Instance cd_set_last g x : Preserves same_code (update_graph g (set_last x)).
Proof. apply cd_update_graph. by intros []. Qed.
#[export] Instance cd_stale g : Preserves same_code (MarkInstructionsStale g).
Proof. apply cd_update_graph. by intros []. Qed.
#[export] Instance cd_section cs o n : Preserves same_code (section_UpdateInstruction cs o n).
Proof. induction cs; cbn [section_UpdateInstruction]; unfold clause_UpdateInstruction; pres. Qed.
#[export] Instance cd_Remove g p : Preserves same_code (Remove g p).
Proof.
  unfold Remove, check_graph, unlink, GetPreviousInstruction, GetNextInstruction, GetExceptionSection. pres.
Qed.

Lemma removed_editable w w' g l1 p l2 cs x :
  editable w g (l1 ++ p :: l2) cs -> x ∈ l1 ++ l2 -> same_code w w' ->
  (forall q, q ∈ l1 ++ l2 -> ~ targets w q p) ->
  updated_clauses cs true p (Some x) w w' -> graph_list w' g (l1 ++ l2) -> editable w' g (l1 ++ l2) cs.
Proof.
  intros [Hl Hc Hs Hlv Hin Hcp] Hx Hsc Hnt Huc Hl'.
  assert (forall q, q ∈ l1 ++ p :: l2 -> q <> p -> q ∈ l1 ++ l2) as Hother by (intros q; set_solver).
  assert (forall q, q ∈ l1 ++ l2 -> q ∈ l1 ++ p :: l2) as Hsub by (intros q; set_solver).
  split; [done|by eapply same_code_ok| | | |].
  - rewrite (sd_of _ _ Hsc). unfold section_ok in *. destruct (method_of w g) as [m|]; [|done].
    destruct Hs as (mi & Hm & Hcs & Hex). exists mi. rewrite (sd_method _ _ Hsc). split_and!; [done..|].
    intros c Hcc. rewrite Huc, decide_True by done. destruct (Hex c Hcc) as [cl ->]. eauto.
  - intros q t Hq. unfold targets. rewrite (same_code_class _ _ q Hsc). intros Ht.
    apply Hother; [eapply Hlv; [by apply Hsub|done]|]. intros ->. by eapply Hnt.
  - intros c cl q Hcc Hcl Hq. rewrite Huc, decide_True in Hcl by done.
    destruct (w_clause w !! c) as [cl0|] eqn:Hc0; [|done]. injection Hcl as <-.
    apply clause_update_refs in Hq as [->|[Hq [Hqp|?]]]; [done| |done]. apply Hother; [|done]. by eapply Hin.
  - intros q i' Hq Hi'. destruct (same_code_lookup_inv _ _ _ _ Hsc Hi') as (i & Hi & E). injection E as Ho Hcs _.
    apply (complete_ext i); [done..|]. eauto.
Qed.

(** *** New instructions and targets *)

Lemma kept_method_of w w' g : kept w w' -> method_of w' g = method_of w g.
Proof. intros H. unfold method_of. by rewrite (kp_graph _ _ H). Qed.

Lemma sets_class_editable w w' g l cs p c :
  editable w g l cs -> kept w w' -> class_of w' p = Some c ->
  (forall q, q <> p -> class_of w' q = class_of w q) -> code_ok w' ->
  (p ∈ l -> (forall t, Some t ∈ refs c -> t ∈ l) /\ forall i, w_instr w !! p = Some i -> complete i -> complete (set_class c i)) ->
  editable w' g l cs.
Proof.
  intros [Hl Hc Hs Hlv Hin Hcp] Hk Hpc Hother Hc' Hp.
  split; [by eapply kept_graph_list|done|rewrite (kept_method_of _ _ _ Hk); by eapply kept_section_ok| | |].
  - intros q t Hq (c' & Hcq & Ht). destruct (decide (q = p)) as [->|Hqp].
    + rewrite Hpc in Hcq. injection Hcq as <-. by apply Hp.
    + rewrite Hother in Hcq by done. eapply Hlv; [done|]. by exists c'.
  - intros c' cl q Hcc. rewrite (kp_clause _ _ Hk). by apply Hin.
  - intros q i' Hq Hi'. destruct (sets_class_back _ _ _ _ _ _ Hk Hpc Hother Hi') as (i & Hi & Hop & Hcs).
    case_decide as Hqp; [subst q|].
    + apply (complete_ext (set_class c i)); [by destruct i..|]. apply Hp; eauto.
    + apply (complete_ext i); eauto.
Qed.

Lemma alloc_editable w g l cs i :
  editable w g l cs -> m_pGraph i = None -> m_branchInfo i = None -> kind_ok i ->
  (forall t, Some t ∉ refs (m_class i)) -> editable (alloc i w).2 g l cs.
Proof.
  intros [Hl Hc Hs Hlv Hin Hcp] Hg Hb Hk Hr. unfold alloc. cbn [snd]. set (p := fresh _).
  assert (w_instr w !! p = None) as Hp by (apply not_elem_of_dom, is_fresh).
  pose proof (alloc_code_ok w p i Hp Hb Hk Hr Hc) as Hc'. set (w' := on_instr _ w) in *.
  assert (p ∉ l) as Hpl.
  { intros H. destruct (graph_list_elem _ _ _ _ Hl H) as (? & ? & _). congruence. }
  assert (forall q, q ∈ l -> w_instr w' !! q = w_instr w !! q) as Hne
    by (intros q Hq; cbn; rewrite lookup_insert_ne; [done|congruence]).
  split; [|done|done| |done|].
  - destruct Hl as [Lg Ls Ln Lo]. split; [done| |done|].
    + eapply segment_frame; [|exact Ls]. exact Hne.
    + intros q. rewrite Lo. unfold owner. cbn. destruct (decide (q = p)) as [->|Hq]; [|by rewrite lookup_insert_ne].
      rewrite lookup_insert_eq, Hp. cbn. rewrite Hg. done.
  - intros q t Hq. unfold targets, class_of. rewrite Hne by done. by apply Hlv.
  - intros q j Hq. rewrite Hne by done. by apply Hcp.
Qed.

(** ** Sessions *)

(** What a client of the graph does: the edits of [IInstructionGraph], the creation
    of an instruction, and setting the target of a branch or of a case of a switch. *)
Inductive edit :=
| EInsertBefore (o n : ptr)
| EInsertAfter (o n : ptr)
| EInsertBeforeAndRetargetOffsets (o n : ptr)
| EReplace (o n : ptr)
| ERemove (p : ptr)
| ECreate (i : CInstruction)
| ESetBranchTarget (b t : ptr)
| ESetCase (s : ptr) (k : nat) (t : ptr).

Definition run_edit (g : ptr) (e : edit) : W unit :=
  match e with
  | EInsertBefore o n => InsertBefore g (Some o) (Some n)
  | EInsertAfter o n => InsertAfter g (Some o) (Some n)
  | EInsertBeforeAndRetargetOffsets o n => InsertBeforeAndRetargetOffsets g (Some o) (Some n)
  | EReplace o n => Replace g (Some o) (Some n)
  | ERemove p => Remove g (Some p)
  | ECreate i => alloc i ;;; ret tt
  | ESetBranchTarget b t => Branch_SetBranchTarget b t
  | ESetCase s k t => Switch_SetBranchTarget s (Z.of_nat k) t
  end.

(** Its effect on the represented sequence. *)
Definition edited (e : edit) (l : list ptr) : list ptr :=
  match e with
  | EInsertBefore o n | EInsertBeforeAndRetargetOffsets o n => insert_before o n l
  | EInsertAfter o n => insert_after o n l
  | EReplace o n => replace_in o n l
  | ERemove p => remove_from p l
  | ECreate _ | ESetBranchTarget _ _ | ESetCase _ _ _ => l
  end.

(** What a client has to respect.  New instructions come from [ECreate], with their
    targets set before they are inserted; a replacement does not target what it
    replaces; an instruction that is removed is not a target and not the last one;
    instructions of the graph target instructions of the graph; and the case of a switch
    is set once ([Switch_SetBranchTarget_forgets] below is why). *)
Definition legal (w : World) (l : list ptr) (e : edit) : Prop :=
  match e with
  | EInsertBefore o n | EInsertAfter o n | EInsertBeforeAndRetargetOffsets o n => o ∈ l /\ insertable w l n
  | EReplace o n => o ∈ l /\ insertable w l n /\ ~ targets w n o
  | ERemove p => p ∈ l /\ l <> [p] /\ forall q, q ∈ l -> q <> p -> ~ targets w q p
  | ECreate i => m_pGraph i = None /\ m_branchInfo i = None /\ kind_ok i /\ forall t, Some t ∉ refs (m_class i)
  | ESetBranchTarget b t => (exists d tgt orig, class_of w b = Some (CBranch d tgt orig)) /\
      is_Some (w_instr w !! t) /\ (b ∈ l -> t ∈ l)
  | ESetCase s k t => (exists ds ts, class_of w s = Some (CSwitch ds ts) /\ ts !! k = Some None) /\
      is_Some (w_instr w !! t) /\ s ∉ l
  end.

Lemma elem_insert_before o n l p : o ∈ l -> p ∈ insert_before o n l <-> p = n \/ p ∈ l.
Proof.
  induction l as [|x l IH]; [set_solver|]. intros Ho. cbn. case_decide; [set_solver|].
  apply elem_of_cons in Ho as [|Ho]; [done|]. rewrite !elem_of_cons, IH by done. tauto.
Qed.

Lemma elem_insert_after o n l p : o ∈ l -> p ∈ insert_after o n l <-> p = n \/ p ∈ l.
Proof.
  induction l as [|x l IH]; [set_solver|]. intros Ho. cbn. case_decide; [set_solver|].
  apply elem_of_cons in Ho as [|Ho]; [done|]. rewrite !elem_of_cons, IH by done. tauto.
Qed.

Lemma elem_replace_in o n l p :
  NoDup l -> o ∈ l -> n <> o -> p ∈ replace_in o n l <-> p = n \/ (p ∈ l /\ p <> o).
Proof.
  intros Hnd Ho Hno. destruct (nodup_split _ _ Hnd Ho) as (l1 & l2 & -> & H1 & H2).
  rewrite replace_in_split by done. set_solver.
Qed.

Lemma remove_target (l1 l2 : list ptr) (p : ptr) :
  l1 ++ p :: l2 <> [p] -> exists x, first_or l2 (last_or l1 None) = Some x /\ x ∈ l1 ++ l2.
Proof.
  intros H. destruct l2 as [|y l2]; cbn [first_or]; [|exists y; set_solver].
  destruct l1 as [|y l1 _] using rev_ind; [done|]. rewrite last_or_rcons. exists y. set_solver.
Qed.

(** What retargeting edits do to the targets of the other instructions. *)
Definition moved (o n : ptr) (w w' : World) : Prop := exists w2, same_code w w2 /\ retargeted o n w2 w'.

Lemma moved_class o n w w' q i :
  moved o n w w' -> w_instr w !! q = Some i -> exists i' gen, w_instr w' !! q = Some i' /\ m_opcode i' = m_opcode i /\
    m_class i' = retarget_class o n q gen (m_class i).
Proof.
  intros (w2 & Hsc & Hrt) Hi. destruct (same_code_lookup _ _ _ _ Hsc Hi) as (i2 & Hi2 & E). injection E as Ho Hc _.
  pose proof Hrt as (w1 & _ & Hk & _ & Hi1 & _). destruct (kept_lookup _ _ _ _ Hk Hi2) as (i' & Hi' & _).
  rewrite <- Hi1 in Hi'. destruct (retargeted_facts _ _ _ _ Hrt) as (_ & _ & Hf).
  destruct (Hf q i' Hi') as (j & Hj & Hoj & Hcj). assert (j = i2) as -> by congruence.
  exists i', (m_instructionGeneration i2). split_and!; [done|congruence|]. by rewrite Hcj, Hc.
Qed.

(** Legal edits succeed and keep the graph editable. *)
Section Runs.
Context (w : World) (g : ptr) (l cs : list ptr).
Hypothesis He : editable w g l cs.

Lemma insert_retarget_edit o n :
  o ∈ l -> insertable w l n -> exists w', InsertBeforeAndRetargetOffsets g (Some o) (Some n) w = (Ok tt, w') /\
    editable w' g (insert_before o n l) cs /\ moved o n w w'.
Proof using He.
  intros Ho Hn. pose proof He as [Hl Hc Hs Hlv Hin Hcp]. pose proof (in_detached _ _ _ Hn) as Hd.
  destruct (detached_other _ _ _ _ _ Hl Ho Hd) as [Hno Hni].
  destruct (graph_list_elem _ _ _ _ Hl Ho) as (io & Hio & _).
  destruct (InsertBeforeAndRetargetOffsets_linked w g l o n) as (w2 & -> & Hl2 & Hr & Hst & Hrm); [done..|].
  destruct (relinked_retarget w w2 g _ o n cs (m_bIsRemoved io) Hr Hl2 Hst (code_ok_targets _ _ Hc (mk_is_Some _ _ Hio)) Hni Hno Hs)
    as (w' & Hw' & Hl' & _ & _ & Huc & Hrt); [by rewrite Hrm, Hio|].
  apply relinked_same_code in Hr. exists w'. split; [done|]. split; [|by exists w2].
  eapply (retargeted_editable w w2 w'); try done;
    try (intros p; rewrite elem_insert_before by done; tauto).
  all: try left; apply elem_insert_before; auto.
Qed.

Lemma replace_edit o n :
  o ∈ l -> insertable w l n -> ~ targets w n o -> exists w', Replace g (Some o) (Some n) w = (Ok tt, w') /\
    editable w' g (replace_in o n l) cs /\ moved o n w w'.
Proof using He.
  intros Ho Hn Hnt. pose proof He as [Hl Hc Hs Hlv Hin Hcp]. pose proof (in_detached _ _ _ Hn) as Hd.
  destruct (detached_other _ _ _ _ _ Hl Ho Hd) as [Hno Hni].
  destruct (graph_list_elem _ _ _ _ Hl Ho) as (io & Hio & _).
  destruct (Replace_linked w g l o n) as (w2 & -> & Hl2 & Hr & Hst & Hrm); [done..|].
  destruct (relinked_retarget w w2 g _ o n cs true Hr Hl2 Hst (code_ok_targets _ _ Hc (mk_is_Some _ _ Hio)) Hni Hno Hs Hrm)
    as (w' & Hw' & Hl' & _ & _ & Huc & Hrt).
  apply relinked_same_code in Hr. exists w'. split; [done|]. split; [|by exists w2].
  pose proof (gl_nodup _ _ _ Hl) as Hnd. eapply (retargeted_editable w w2 w'); try done;
    try (intros p; rewrite elem_replace_in by done; tauto).
  - apply elem_replace_in; auto.
  - by right.
Qed.

Lemma remove_edit p :
  p ∈ l -> l <> [p] -> (forall q, q ∈ l -> q <> p -> ~ targets w q p) ->
  exists w', Remove g (Some p) w = (Ok tt, w') /\ editable w' g (remove_from p l) cs.
Proof using He.
  intros Hp Hlp Hnt. pose proof He as [Hl _ Hs _ _ _]. pose proof (gl_nodup _ _ _ Hl) as Hnd.
  destruct (nodup_split _ _ Hnd Hp) as (l1 & l2 & El & Hp1 & Hp2). rewrite El in *.
  destruct (remove_target _ _ _ Hlp) as (x & Hx & Hxl).
  destruct (Remove_run w g l1 p l2 cs Hl Hs) as (w' & Hw' & Hl' & _ & _ & _ & Huc).
  rewrite Hx in *. rewrite bool_decide_eq_false_2 in Hw' by done. cbn in Hw'.
  exists w'. split; [done|]. rewrite remove_from_split in * by done.
  eapply removed_editable; try done; [exact (preserves_run _ _ _ _ _ (cd_Remove g (Some p)) Hw')|].
  intros q Hq. apply Hnt; [set_solver|]. intros ->. set_solver.
Qed.

Lemma set_target_edit b d tgt orig t :
  class_of w b = Some (CBranch d tgt orig) -> is_Some (w_instr w !! t) -> (b ∈ l -> t ∈ l) ->
  exists w', Branch_SetBranchTarget b t w = (Ok tt, w') /\ editable w' g l cs.
Proof using He.
  intros Hb Ht Hbt.
  destruct (Branch_SetBranchTarget_code_ok _ _ _ _ _ _ (ed_code _ _ _ _ He) Hb Ht) as (w' & o & Hw' & Hk & Hcs & Hq & Hc').
  exists w'. split; [done|]. eapply sets_class_editable; try done.
  intros Hbl. split; [intros t' [= ->]%list_elem_of_singleton; auto|].
  intros i Hi (H1 & r & Hr & _). destruct i. split; [done|]. exists r. split; [done|by eexists].
Qed.

Lemma set_case_edit s ds ts k t :
  class_of w s = Some (CSwitch ds ts) -> ts !! k = Some None -> is_Some (w_instr w !! t) -> s ∉ l ->
  exists w', Switch_SetBranchTarget s (Z.of_nat k) t w = (Ok tt, w') /\ editable w' g l cs.
Proof using He.
  intros Hsw Hk Ht Hsl.
  destruct (Switch_SetBranchTarget_code_ok _ _ _ _ _ _ (ed_code _ _ _ _ He) Hsw Hk Ht) as (w' & Hw' & Hkp & Hcs & Hq & Hc').
  exists w'. split; [done|]. by eapply sets_class_editable.
Qed.

Lemma edit_run e :
  legal w l e -> exists w', run_edit g e w = (Ok tt, w') /\ editable w' g (edited e l) cs.
Proof using He.
  intros Hle. pose proof He as [Hl Hc Hs Hlv Hin Hcp]. destruct e as [o n|o n|o n|o n|p|i|b t|s k t];
    cbn [run_edit edited legal] in *.
  - destruct Hle as [Ho Hn]. destruct (InsertBefore_run w g l o n Hl Ho (in_detached _ _ _ Hn)) as (w' & Hw' & Hl' & Hr & _).
    exists w'. split; [done|]. eapply linked_editable; [done..|by eapply relinked_same_code|apply (rl_clause _ _ _ Hr)|done|].
    intros p. by apply elem_insert_before.
  - destruct Hle as [Ho Hn]. destruct (InsertAfter_run w g l o n Hl Ho (in_detached _ _ _ Hn)) as (w' & Hw' & Hl' & Hr & _).
    exists w'. split; [done|]. eapply linked_editable; [done..|by eapply relinked_same_code|apply (rl_clause _ _ _ Hr)|done|].
    intros p. by apply elem_insert_after.
  - destruct Hle as [Ho Hn]. destruct (insert_retarget_edit o n Ho Hn) as (w' & ? & ? & _). by exists w'.
  - destruct Hle as (Ho & Hn & Ht). destruct (replace_edit o n Ho Hn Ht) as (w' & ? & ? & _). by exists w'.
  - destruct Hle as (? & ? & ?). by apply remove_edit.
  - destruct Hle as (? & ? & ? & ?). exists (alloc i w).2. split; [done|]. by apply alloc_editable.
  - destruct Hle as ((d & tgt & orig & ?) & ? & ?). by eapply set_target_edit.
  - destruct Hle as ((ds & ts & ? & ?) & ? & ?). by eapply set_case_edit.
Qed.

End Runs.

(** One edit of a session, and sessions. *)
Inductive edit_step (g : ptr) : World * list ptr -> World * list ptr -> Prop :=
| step e w l w' : legal w l e -> run_edit g e w = (Ok tt, w') -> edit_step g (w, l) (w', edited e l).

Lemma session_editable g cs s s' :
  rtc (edit_step g) s s' -> editable s.1 g s.2 cs -> editable s'.1 g s'.2 cs.
Proof.
  induction 1 as [s|s1 s2 s3 Hstep _ IH]; [done|]. intros He. apply IH.
  destruct Hstep as [e w l w' Hle Hw']. cbn in *.
  destruct (edit_run _ _ _ _ He e Hle) as (w2 & Hw2 & He2). congruence.
Qed.

(** C5: sessions of edits are safe.  Whatever legal edits are made, one after the other,
    from a consistent graph, the result is consistent: the graph represents the sequence
    that the edits describe, the back links of every instruction of the world are exactly
    the branches and switches that target it, nothing in the graph targets an instruction
    outside it, and the clauses begin and end in it.  And a session never gets stuck: every
    legal edit succeeds. *)
Theorem edit_sessions_safe g cs w l w' l' :
  editable w g l cs -> rtc (edit_step g) (w, l) (w', l') ->
  editable w' g l' cs /\
  forall e, legal w' l' e -> exists w2, edit_step g (w', l') (w2, edited e l').
Proof.
  intros He Hs. apply (session_editable g cs _ _ Hs) in He. split; [done|]. intros e Hle.
  destruct (edit_run _ _ _ _ He e Hle) as (w2 & Hw2 & _). exists w2. by constructor.
Qed.

(** ** From a session to the emitted code *)

(** The bytes that the instructions of a sequence take. *)
Definition code_size (w : World) (l : list ptr) : nat :=
  sum_list (map (fun p => match w_instr w !! p with Some i => encoded_size i | None => 0%nat end) l).

Lemma offset_in_of_length l : forall ss off t, length ss = length l -> t ∈ l -> is_Some (offset_in off l ss t).
Proof.
  induction l as [|p l IH]; intros [|s ss] off t Hlen Ht; try (by apply elem_of_nil in Ht); try done.
  cbn in *. case_decide; [by eexists|]. apply IH; [lia|set_solver].
Qed.

Lemma choose_list {A B} (P : A -> B -> Prop) l : (forall x, x ∈ l -> exists y, P x y) -> exists k, Forall2 P l k.
Proof.
  induction l as [|x l IH]; intros H; [by exists []|].
  destruct (H x) as [y Hy]; [set_solver|]. destruct IH as [k Hk]; [set_solver|]. exists (y :: k). by constructor.
Qed.

Lemma editable_encodes w g l cs :
  editable w g l cs -> exists bss, encodes w l bss /\ length (concat bss) = code_size w l.
Proof.
  intros [Hl Hc _ Hlv _ Hcp].
  set (size := fun p => match w_instr w !! p with Some i => encoded_size i | None => 0%nat end).
  set (offs := offset_in 0 l (map (fun p => Z.of_nat (size p)) l)).
  assert (forall t, t ∈ l -> is_Some (offs t)) as Hoffs
    by (intros t; apply offset_in_of_length; by rewrite length_map).
  assert (exists bss, Forall2 (fun p bs => (exists i o, w_instr w !! p = Some i /\ offs p = Some o /\
    encode_instr offs (set_offset o i) = Some bs) /\ length bs = size p) l bss) as [bss Hb].
  { apply choose_list. intros p Hp.
    destruct (graph_list_elem _ _ _ _ Hl Hp) as (i & Hi & _). destruct (Hoffs p Hp) as [o Ho].
    destruct (complete_encodes offs o i) as (bs & Hbs & Hlen); [eauto|by apply (co_kind _ Hc p)|..].
    { intros t Ht. apply Hoffs, (Hlv p); [done|]. exists (m_class i). split; [|done]. unfold class_of. by rewrite Hi. }
    exists bs. split; [eauto|]. unfold size. by rewrite Hi. }
  assert (lengths bss = map (fun p => Z.of_nat (size p)) l) as Hlen.
  { clear -Hb. unfold lengths. induction Hb as [|p bs k bss [_ Hp] _ IH]; [done|]. cbn. by rewrite Hp, IH. }
  exists bss. split; [unfold encodes; cbv zeta; rewrite Hlen; eapply Forall2_impl; [exact Hb|]; by intros ?? [? _]|].
  unfold code_size. fold size. clear -Hb.
  induction Hb as [|p bs k bss [_ Hp] _ IH]; [done|]. cbn [concat map sum_list_with]. rewrite length_app, IH, Hp. done.
Qed.

Lemma session_encodes g cs w l w' l' fuel :
  editable w g l cs -> rtc (edit_step g) (w, l) (w', l') -> switch_not_last w' l' ->
  Z.of_nat (code_size w' l') < 2 ^ 31 -> (length l' <= fuel)%nat -> (0 < fuel)%nat ->
  exists bss w2, encodes w' l' bss /\ length (concat bss) = code_size w' l' /\
    EncodeIL fuel g w' = (Ok (concat bss, il_map (offset_in 0 l' (lengths bss)) w' None l'), w2) /\
    graph_list w2 g l' /\ reoffset w' w2.
Proof.
  intros He Hs Hsw Hsz Hf Hf0. apply (session_editable g cs _ _ Hs) in He. cbn in He.
  destruct (editable_encodes _ _ _ _ He) as (bss & Hb & Hlen). exists bss.
  destruct (EncodeIL_run w' g l' bss fuel (ed_list _ _ _ _ He) Hb Hsw ltac:(lia) Hf Hf0) as (w2 & Hw2 & Hl2 & Hr).
  by exists w2.
Qed.

(** What has an encoding is complete and targets instructions of the sequence. *)
Lemma encode_complete offs i bs :
  encode_instr offs i = Some bs ->
  complete i /\ forall t, Some t ∈ refs (m_class i) -> is_Some (offs t).
Proof.
  unfold encode_instr, complete. destruct (opinfo_opt (m_opcode i)) as [r|] eqn:Hr; [|done]. cbn.
  destruct ((0 <=? m_opcode i) && (m_opcode i <? 291)) eqn:Hop; [|done].
  destruct (encode_payload offs i r) as [pl|] eqn:Hpl; [|done]. intros _. split.
  - split; [lia|]. exists r. split; [by apply opinfo_Ok|]. unfold encode_payload in Hpl.
    destruct (m_class i) as [|v|d [t|] orig|ds ts]; try done.
    + destruct (Z.eqb_spec (m_operandLength r) 0); [done|]. by rewrite orb_true_r in Hpl.
    + destruct (IsFlagSet _ _ || _); [done|]. destruct (Z.eqb_spec (m_operandLength r) 0); [by left|]. right.
      destruct (GetOperandValue _ i) as [bs'| | |]; try done. destruct (Z.eqb_spec (Z.of_nat (length bs')) (m_operandLength r)); [|done].
      by exists bs'.
    + destruct (m_opcode i =? Cee_Switch); [|done]. destruct (mapM _ ts) as [k|] eqn:Hk; [|done].
      apply mapM_Some_1 in Hk. apply Forall_forall. intros x [n Hn]%list_elem_of_lookup.
      destruct (Forall2_lookup_l _ _ _ _ _ Hk Hn) as (y & _ & Hy). by destruct x.
  - unfold encode_payload in Hpl. destruct (m_class i) as [|v|d [t'|] orig|ds ts]; cbn; intros t Ht; try (by apply elem_of_nil in Ht); try done.
    + apply list_elem_of_singleton in Ht as [= ->]. destruct (IsFlagSet _ _); [|done]. by destruct (offs t').
    + destruct (m_opcode i =? Cee_Switch); [|done]. destruct (mapM _ ts) as [k|] eqn:Hk; [|done].
      apply mapM_Some_1 in Hk. apply list_elem_of_lookup in Ht as [n Hn].
      destruct (Forall2_lookup_l _ _ _ _ _ Hk Hn) as (y & _ & Hy). cbn in Hy. by eexists.
Qed.

Lemma encodes_editable w g l cs bss :
  graph_list w g l -> code_ok w -> section_ok w (method_of w g) cs ->
  (forall c cl p, c ∈ cs -> w_clause w !! c = Some cl -> Some p ∈ clause_refs cl -> p ∈ l) ->
  encodes w l bss -> editable w g l cs.
Proof.
  intros Hl Hc Hs Hin He.
  assert (forall p i, p ∈ l -> w_instr w !! p = Some i -> complete i /\ forall t, Some t ∈ refs (m_class i) -> t ∈ l) as H.
  { intros p i [k Hk]%list_elem_of_lookup Hi.
    destruct (Forall2_lookup_l _ _ _ _ _ He Hk) as (bs & _ & i' & o & Hi' & _ & Hbs). rewrite Hi in Hi'. injection Hi' as <-.
    destruct (encode_complete _ _ _ Hbs) as [H1 H2]. split.
    - apply (complete_ext (set_offset o i)); [by destruct i..|done].
    - intros t Ht. destruct (H2 t) as [x Hx]; [by destruct i|]. by eapply offset_in_elem. }
  split; [done..| |done|].
  - intros p t Hp (c & Hcp & Ht). unfold class_of in Hcp. destruct (w_instr w !! p) as [i|] eqn:Hi; [|done].
    injection Hcp as <-. by eapply H.
  - intros p i Hp Hi. by eapply H.
Qed.

(** A created instruction may be inserted. *)
Lemma create_insertable w l i :
  m_pGraph i = None -> m_pNextInstruction i = None -> m_pPreviousInstruction i = None ->
  complete i -> (forall t, Some t ∉ refs (m_class i)) -> insertable (alloc i w).2 l (fresh (dom (w_instr w))).
Proof.
  intros Hg Hn Hp Hc Hr. unfold alloc. cbn [snd]. set (p := fresh _). set (w' := on_instr _ w).
  assert (w_instr w' !! p = Some i) as E by (cbn; apply lookup_insert_eq).
  split.
  - split; [by rewrite (owner_Some _ _ _ E), Hg|]. exists i. by rewrite Hn, Hp.
  - intros i'. rewrite E. by intros [= <-].
  - intros t (c & Hcp & Ht). unfold class_of in Hcp. rewrite E in Hcp. injection Hcp as <-. by destruct (Hr t).
Qed.

(** ** A session on the sample world *)

Lemma demo_backlinks o : is_Some (w_instr demo !! o) -> backlinks_at demo o.
Proof.
  intros [i Hi]. destruct (decide (o = 4%positive)) as [->|Ho]; [apply demo_targets|].
  assert (m_branchInfo i = None) as Hb.
  { assert (map_Forall (fun o i => o <> 4%positive -> m_branchInfo i = None) (w_instr demo)) as H
      by (each_instr; done). exact (H o i Hi Ho). }
  exists i. split; [done|]. rewrite Hb. intros q. split; [|by intros (? & ? & _)].
  intros (c & Hc & Hin). unfold class_of in Hc. destruct (w_instr demo !! q) as [j|] eqn:Hj; [|done]. injection Hc as <-.
  assert (map_Forall (fun _ j => forall t, Some t ∈ refs (m_class j) -> t = 4%positive) (w_instr demo)) as H
    by (each_instr; cbn; set_solver).
  destruct (Ho (H q j Hj o Hin)).
Qed.

Lemma demo_code_ok : code_ok demo.
Proof.
  destruct demo_targets as (Hc & _ & Hk). split; [done| |done]. intros o q. split.
  - intros Ht. destruct (demo_backlinks o) as (i & Hi & Hb).
    { destruct Ht as (c & Hcl & Hin). by eapply Hc. }
    destruct (proj1 (Hb q) Ht) as (b & Hbi & Hq). unfold back. rewrite Hi. cbn. by rewrite Hbi.
  - unfold back. destruct (w_instr demo !! o) as [i|] eqn:Hi; [|cbn; set_solver].
    destruct (demo_backlinks o) as (i' & Hi' & Hb); [by eexists|]. rewrite Hi in Hi'. injection Hi' as <-.
    cbn. intros Hq. apply Hb. destruct (m_branchInfo i); [by eexists|set_solver].
Qed.

Lemma demo_complete p i : w_instr demo !! p = Some i -> complete i.
Proof.
  revert p i. change (map_Forall (fun _ i => complete i) (w_instr demo)).
  each_instr; (split; [cbn; unfold Cee_Nop, Cee_Ret, Cee_Dup; lia|]; eexists; split; [vm_compute; reflexivity|]; cbn; try done).
Qed.

Lemma demo_targets_only q t : targets demo q t -> q = 2%positive /\ t = 4%positive.
Proof.
  intros (c & Hc & Hin). unfold class_of in Hc. destruct (w_instr demo !! q) as [j|] eqn:Hj; [|done]. injection Hc as <-.
  assert (map_Forall (fun q j => forall t, Some t ∈ refs (m_class j) -> q = 2%positive /\ t = 4%positive) (w_instr demo)) as H
    by (each_instr; cbn; set_solver).
  exact (H q j Hj t Hin).
Qed.

Lemma demo_editable : editable demo 1%positive [1; 2; 3; 4]%positive [1%positive].
Proof.
  split; [exact demo_graph_list|exact demo_code_ok|exact demo_section| | |by intros p i _; apply demo_complete].
  - intros p t _ [_ ->]%demo_targets_only. set_solver.
  - intros c cl p ->%list_elem_of_singleton Hcl Hp. vm_compute in Hcl.
    injection Hcl as <-. repeat (apply elem_of_cons in Hp as [[= ->]|Hp]; [set_solver|]). by apply list_elem_of_singleton in Hp.
Qed.

Lemma demo_insertable : insertable demo [1; 2; 3; 4]%positive 5%positive.
Proof.
  split; [exact demo_detached|apply demo_complete|]. intros t [? _]%demo_targets_only. done.
Qed.

(** Two edits: [dup] goes before the [nop] that the branch jumps over, and that [nop] is removed. *)
Definition demo_session : World :=
  (Remove 1 (Some 3%positive) (InsertBeforeAndRetargetOffsets 1 (Some 3%positive) (Some 5%positive) demo).2).2.

Lemma no_target_check w p :
  bool_decide (map_Forall (fun _ i => Some p ∉ refs (m_class i)) (w_instr w)) = true -> forall q, ~ targets w q p.
Proof.
  intros H%bool_decide_eq_true q (c & Hc & Hin). unfold class_of in Hc.
  destruct (w_instr w !! q) as [i|] eqn:Hi; [|done]. injection Hc as <-. exact (H q i Hi Hin).
Qed.

Lemma demo_session_steps :
  rtc (edit_step 1) (demo, [1; 2; 3; 4]%positive) (demo_session, [1; 2; 5; 4]%positive).
Proof.
  eapply rtc_l.
  { apply (step 1 (EInsertBeforeAndRetargetOffsets 3%positive 5%positive)).
    - split; [set_solver|exact demo_insertable].
    - vm_compute. reflexivity. }
  eapply rtc_l; [|apply rtc_refl]. apply (step 1 (ERemove 3%positive)).
  - split_and!; [cbn; set_solver|done|]. intros q _ _. apply no_target_check. vm_compute. reflexivity.
  - vm_compute. reflexivity.
Qed.

Lemma edit_sessions_safe_witness : editable demo_session 1 [1; 2; 5; 4]%positive [1%positive].
Proof. exact (proj1 (edit_sessions_safe 1 _ _ _ _ _ demo_editable demo_session_steps)). Defined.

(** The case of a switch that is set twice.  The instruction 1 is a switch whose two cases
    target 2; once its first case targets 3, the back link of 2 is gone although the second
    case still targets it, so that a later [RetargetBranches] from 2 does not move it. *)
Definition two_cases : World := mkWorld
  (list_to_map
    [(1%positive, demo_node Cee_Switch (CSwitch [] [Some 2; Some 2]) (Some 1) None (Some 2) None);
     (2, demo_node Cee_Nop CNone (Some 1) (Some 1) (Some 3) (Some {[1]}));
     (3, demo_node Cee_Ret CNone (Some 1) (Some 2) None None)])%positive ∅ ∅ ∅ ∅.

Lemma Switch_SetBranchTarget_forgets :
  let w := (Switch_SetBranchTarget 1%positive 0 3%positive two_cases).2 in
  targets w 1%positive 2%positive /\ back w 2%positive = ∅.
Proof.
  split; [|vm_compute; reflexivity]. eexists. split; [vm_compute; reflexivity|]. set_solver.
Qed.
