(* ===== verification/Lifecycle.v ===== *)
(** The life of a graph: it is decoded from IL, edited by any session of legal edits,
    and encoded again. *)
From S2P Require Import Prelude ILOpcodes Instruction Store Chain BranchTargets Retarget Clauses Demo Offsets Graph GraphSpec BackLinks Codec CodecSpec DecodeSpec LinkSpec RoundTrip Frame EditInvariant.

(** Decoding gives a graph that may be edited. *)
Lemma decode_editable g code items fuel w gr :
  Forall is_byte code -> Z.of_nat (length code) < 2 ^ 31 -> (length code < fuel)%nat ->
  il_items code = Some items -> il_ok code = true ->
  code_ok w -> w_graph w !! g = Some gr -> (forall q, owner (w_instr w) q <> Some (Some g)) ->
  section_ok w (method_of w g) [] ->
  exists w1 l, DecodeInstructions fuel g code w = (Ok tt, w1) /\ represents w1 l items /\ editable w1 g l [].
Proof.
  intros Hbytes Hlen Hfuel Hit Hok Hc Hgr Hno Hs.
  destruct (DecodeInstructions_run g code items fuel w gr) as (w1 & l & gr' & Hw1 & Hgl & Hrep & _ & _ & _ & _ & _ & Hc1);
    try done; [apply Hc|].
  pose proof (preserves_run _ _ _ _ _ (rest_DecodeInstructions fuel g code) Hw1) as Hrs.
  assert (method_of w1 g = method_of w g) as Hm.
  { unfold method_of. pose proof (rs_graph _ _ Hrs g) as E. rewrite Hgr in E |- *.
    destruct (w_graph w1 !! g) as [g1|]; [|done]. destruct g1, gr. injection E. cbn. congruence. }
  exists w1, l. split_and!; [done..|]. apply encodes_editable with (bss := map (item_bytes code) items).
  - done.
  - by apply Hc1.
  - rewrite Hm. unfold section_ok in *. destruct (method_of w g) as [m|]; [|done].
    rewrite (rs_method _ _ Hrs). destruct Hs as (mi & ? & ? & _). exists mi. split_and!; [done..|]. set_solver.
  - set_solver.
  - eapply represents_encodes; [exact Hlen|by eapply disassemble_contiguous|done|apply Hgl].
Qed.

(** C6: instrumentation works end to end.  From well-formed IL, in a world whose code is
    consistent and for a method whose clauses are not read yet, [DecodeInstructions] succeeds
    and gives a graph that represents the disassembly; whatever session of legal edits
    follows, [EncodeIL] succeeds on its result, provided that this is not too large and does
    not end in a switch: it emits the encodings of the edited sequence, one after the other,
    every branch and switch resolved to the place its target has after the edits, with an IL
    map for the instructions that are not new. *)
Theorem decode_edit_encode g code items fuel w gr :
  Forall is_byte code -> Z.of_nat (length code) < 2 ^ 31 -> (length code < fuel)%nat ->
  il_items code = Some items -> il_ok code = true ->
  code_ok w -> w_graph w !! g = Some gr -> (forall q, owner (w_instr w) q <> Some (Some g)) ->
  section_ok w (method_of w g) [] ->
  exists w1 l, DecodeInstructions fuel g code w = (Ok tt, w1) /\ represents w1 l items /\ editable w1 g l [] /\
  forall w2 l2 fuel2, rtc (edit_step g) (w1, l) (w2, l2) -> switch_not_last w2 l2 ->
    Z.of_nat (code_size w2 l2) < 2 ^ 31 -> (length l2 <= fuel2)%nat -> (0 < fuel2)%nat ->
  exists bss w3, encodes w2 l2 bss /\ length (concat bss) = code_size w2 l2 /\
    EncodeIL fuel2 g w2 = (Ok (concat bss, il_map (offset_in 0 l2 (lengths bss)) w2 None l2), w3) /\
    graph_list w3 g l2.
Proof.
  intros. destruct (decode_editable g code items fuel w gr) as (w1 & l & Hw1 & Hrep & He); try done.
  exists w1, l. split_and!; [done..|]. intros w2 l2 fuel2 Hs Hsw Hsz Hf Hf0.
  destruct (session_encodes _ _ _ _ _ _ _ He Hs Hsw Hsz Hf Hf0) as (bss & w3 & ? & ? & ? & ? & _).
  by exists bss, w3.
Qed.

(** [nop] is created and put before the first instruction of the method with the switch. *)
Lemma empty_world_code_ok : code_ok empty_world.
Proof.
  split; [apply empty_world_ok| |]; unfold backs_ok, targets, back, class_of; cbn.
  - intros o q. rewrite !lookup_empty. cbn. set_solver.
  - intros q i. by rewrite lookup_empty.
Qed.

Definition nop : CInstruction := new_instruction Cee_Nop true CNone.

(** Creating an instruction and inserting it before [o] is a session. *)
Lemma prepend_session w g l cs o :
  editable w g l cs -> o ∈ l ->
  exists w2 n, rtc (edit_step g) (w, l) (w2, insert_before o n l) /\ w_instr w2 !! n <> None.
Proof.
  intros He Ho.
  assert (complete nop) as Hn
    by (split; [unfold nop, Cee_Nop; cbn; lia|]; eexists; split; [vm_compute; reflexivity|]; reflexivity).
  assert (legal w l (ECreate nop)) as L1.
  { split_and!; [done..| |intros t; apply not_elem_of_nil]. eexists. split; [vm_compute; reflexivity|]. by split. }
  destruct (edit_run _ _ _ _ He _ L1) as (w1 & Hw1 & He1).
  assert (w1 = (alloc nop w).2) as -> by (symmetry; exact (f_equal snd Hw1)).
  pose proof (create_insertable w l nop eq_refl eq_refl eq_refl Hn (fun t => not_elem_of_nil _)) as Hins.
  destruct (edit_run _ _ _ _ He1 (EInsertBefore o (fresh (dom (w_instr w)))) (conj Ho Hins)) as (w2 & Hw2 & He2).
  eexists w2, _. split.
  - eapply rtc_l; [exact (step g (ECreate nop) w l _ L1 Hw1)|]. apply rtc_once.
    exact (step g (EInsertBefore _ _) _ l _ (conj Ho Hins) Hw2).
  - destruct (graph_list_elem _ _ _ (fresh (dom (w_instr w))) (ed_list _ _ _ _ He2)) as (i & -> & _); [|done].
    cbn [edited]. apply elem_insert_before; auto.
Qed.

Lemma decode_edit_encode_witness : exists w1 l, DecodeInstructions 14 1 switch_code empty_world = (Ok tt, w1) /\
  forall o, o ∈ l -> exists w2 n, rtc (edit_step 1) (w1, l) (w2, insert_before o n l) /\
  forall fuel, switch_not_last w2 (insert_before o n l) -> Z.of_nat (code_size w2 (insert_before o n l)) < 2 ^ 31 ->
  (length (insert_before o n l) <= fuel)%nat -> (0 < fuel)%nat ->
  exists bss map w3, encodes w2 (insert_before o n l) bss /\ EncodeIL fuel 1 w2 = (Ok (concat bss, map), w3).
Proof.
  destruct (il_items switch_code) as [items|] eqn:Hit; [|exfalso; vm_compute in Hit; discriminate Hit].
  destruct (decode_edit_encode 1 switch_code items 14 empty_world (new_graph None)) as (w1 & l & H & Hr & He & Hrun).
  - exact switch_code_bytes.
  - reflexivity.
  - cbn. lia.
  - exact Hit.
  - vm_compute. reflexivity.
  - exact empty_world_code_ok.
  - reflexivity.
  - apply empty_world_ok.
  - reflexivity.
  - exists w1, l. split; [exact H|]. intros o Ho.
    destruct (prepend_session _ _ _ _ _ He Ho) as (w2 & n & Hs & _). exists w2, n. split; [exact Hs|].
    intros fuel H1 H2 H3 H4. destruct (Hrun _ _ fuel Hs H1 H2 H3 H4) as (bss & w3 & Hb & _ & Hw & _).
    eexists bss, _, w3. split; [exact Hb|exact Hw].
Defined.
