(* ===== verification/Exceptions.v ===== *)
(** Reading exception clauses from a method body and writing them back
    ([CExceptionClause], [CExceptionSection]), and the order of new clauses. *)
From S2P Require Import Prelude ILOpcodes Instruction Store Chain Demo Offsets BranchTargets Clauses Graph Codec CodecSpec Lookups CorHeaders.

(** ** Clauses *)

Section Clause.
Context (g : ptr) (fuel : nat).

(** [CExceptionClause::InitializeFromFat]: the members of the clause, which nobody
    shares yet.  A handler that is not found is left null. *)
Definition InitializeFromFat (c : EH_CLAUSE_FAT) : W CExceptionClause :=
  tryFirst <- GetInstructionAtOffsetInternal g fuel (TryOffset c) ;;
  tryLast <- GetInstructionAtEndOffset g fuel (u32 (TryOffset c + TryLength c)) ;;
  handlerFirst <- attempt (GetInstructionAtOffsetInternal g fuel (HandlerOffset c)) ;;
  handlerLast <- attempt (GetInstructionAtEndOffset g fuel (u32 (HandlerOffset c + HandlerLength c))) ;;
  if eh_Flags c =? COR_ILEXCEPTION_CLAUSE_NONE then
    ret (mkClause (eh_Flags c) (Some tryFirst) (Some tryLast) handlerFirst handlerLast None (ClassToken c))
  else if eh_Flags c =? COR_ILEXCEPTION_CLAUSE_FILTER then
    filterFirst <- GetInstructionAtOffsetInternal g fuel (ClassToken c) ;;
    ret (mkClause (eh_Flags c) (Some tryFirst) (Some tryLast) handlerFirst handlerLast (Some filterFirst) mdTokenNil)
  else ret (mkClause (eh_Flags c) (Some tryFirst) (Some tryLast) handlerFirst handlerLast None mdTokenNil).

(** [CExceptionClause::InitializeFromSmall]: the sums are of [int]. *)
Definition InitializeFromSmall (c : EH_CLAUSE_FAT) : W CExceptionClause :=
  tryFirst <- GetInstructionAtOffsetInternal g fuel (TryOffset c) ;;
  tryLast <- GetInstructionAtEndOffset g fuel (TryOffset c + TryLength c) ;;
  handlerFirst <- attempt (GetInstructionAtOffsetInternal g fuel (HandlerOffset c)) ;;
  handlerLast <- attempt (GetInstructionAtEndOffset g fuel (HandlerOffset c + HandlerLength c)) ;;
  if eh_Flags c =? COR_ILEXCEPTION_CLAUSE_NONE then
    ret (mkClause (eh_Flags c) (Some tryFirst) (Some tryLast) handlerFirst handlerLast None (ClassToken c))
  else if eh_Flags c =? COR_ILEXCEPTION_CLAUSE_FILTER then
    filterFirst <- GetInstructionAtOffsetInternal g fuel (ClassToken c) ;;
    ret (mkClause (eh_Flags c) (Some tryFirst) (Some tryLast) handlerFirst handlerLast (Some filterFirst) mdTokenNil)
  else ret (mkClause (eh_Flags c) (Some tryFirst) (Some tryLast) handlerFirst handlerLast None mdTokenNil).

End Clause.

(** The bytes of a new buffer: [None] for a byte that was never written. *)
Notation raw := (list (option Z)).

Definition written (bs : list Z) : raw := map Some bs.

(** [CExceptionClause::RenderExceptionClause] on a clause structure that holds
    garbage: the 24 bytes afterwards.  The token is written for typed handlers and
    filters only. *)
Definition RenderExceptionClause (fuel : nat) (p : ptr) : W raw :=
  c <- load_clause p ;;
  tryFirst <- if_null_ret (m_pTryFirstInstruction c) E_FAIL ;;
  tryLast <- if_null_ret (m_pTryLastInstruction c) E_FAIL ;;
  handlerFirst <- if_null_ret (m_pHandlerFirstInstruction c) E_FAIL ;;
  handlerLast <- if_null_ret (m_pHandlerLastInstruction c) E_FAIL ;;
  tl <- load tryLast ;;
  lastTrySize <- lift (GetInstructionSize tl) ;;
  firstTryOffset <- GetOffset fuel tryFirst ;;
  lastTryOffset <- GetOffset fuel tryLast ;;
  hl <- load handlerLast ;;
  lastHandlerSize <- lift (GetInstructionSize hl) ;;
  firstHandlerOffset <- GetOffset fuel handlerFirst ;;
  lastHandlerOffset <- GetOffset fuel handlerLast ;;
  let head := le_bytes 4 (m_clauseFlags c) ++ le_bytes 4 firstTryOffset ++
    le_bytes 4 (u32 (lastTryOffset + lastTrySize - firstTryOffset)) ++
    le_bytes 4 firstHandlerOffset ++
    le_bytes 4 (u32 (lastHandlerOffset + lastHandlerSize - firstHandlerOffset)) in
  if m_clauseFlags c =? COR_ILEXCEPTION_CLAUSE_NONE then
    ret (written (head ++ le_bytes 4 (m_ExceptionHandlerType c)))
  else if m_clauseFlags c =? COR_ILEXCEPTION_CLAUSE_FILTER then
    f <- deref (m_pFilterFirstInstruction c) ;;
    filterOffset <- GetOffset fuel f ;;
    ret (written (head ++ le_bytes 4 filterOffset))
  else ret (written head ++ replicate 4 None).

(** ** Sections *)

(** The loop over the clauses of one section of [CExceptionSection::Initialize]:
    the clauses are appended to the section of method [m] one by one. *)
Fixpoint init_clauses (g : ptr) (fuel : nat) (m : ptr) (body : list Z) (sect nIndex : Z) (count : nat) : W unit :=
  match count with
  | O => ret tt
  | S count' =>
      fat <- lift (Sect_IsFat body sect) ;;
      c <- (if (fat : bool)
            then e <- lift (read_fat_clause body (sect + 4 + sizeof_CLAUSE_FAT * nIndex)) ;;
                 InitializeFromFat g fuel e
            else e <- lift (read_small_clause body (sect + 4 + sizeof_CLAUSE_SMALL * nIndex)) ;;
                 InitializeFromSmall g fuel e) ;;
      pClause <- alloc_clause c ;;
      AddExceptionClause m pClause ;;;
      init_clauses g fuel m body sect (nIndex + 1) count'
  end.

(** The inner loop of [Initialize]: the next section of kind [EHTable]. *)
Fixpoint next_eh_sect (n : nat) (body : list Z) (sect : Z) : outcome (option Z) :=
  match n with
  | O => NoFuel
  | S n' =>
      nx <~ Sect_Next body sect ;;
      match nx with
      | None => Ok None
      | Some s => k <~ Sect_Kind body s ;;
                  if k =? CorILMethod_Sect_EHTable then Ok (Some s) else next_eh_sect n' body s
      end
  end.

(** The outer loop. *)
Fixpoint init_sections (n : nat) (g : ptr) (fuel : nat) (m : ptr) (body : list Z) (sect : option Z) : W unit :=
  match sect with
  | None => ret tt
  | Some s =>
      match n with
      | O => out_of_fuel
      | S n' =>
          nCount <- lift (EHCount body s) ;;
          init_clauses g fuel m body s 0 (Z.to_nat nCount) ;;;
          nx <- lift (next_eh_sect fuel body s) ;;
          init_sections n' g fuel m body nx
      end
  end.

(** [CExceptionSection::Initialize] on the method body [body]. *)
Definition Initialize (g : ptr) (fuel : nat) (m : ptr) (body : list Z) : W unit :=
  b <- lift (read_byte body 0) ;;
  if Tiny_IsTiny b then ret tt
  else
    h <- lift (read_fat_header body 0) ;;
    if negb (Fat_HasSEH h) then ret tt
    else
      d <- lift (DecoderInit body 0) ;;
      init_sections fuel g fuel m body (snd (fst d)).

(** The loop of [CreateExceptionHeader]; the [HRESULT] of
    [RenderExceptionClause] is dropped. *)
Fixpoint render_clauses (fuel : nat) (cs : list ptr) : W raw :=
  match cs with
  | [] => ret []
  | c :: cs' =>
      r <- attempt (RenderExceptionClause fuel c) ;;
      rest <- render_clauses fuel cs' ;;
      ret (default (replicate 24 None) r ++ rest)
  end.

(** [CExceptionSection::CreateExceptionHeader]: [None] for [S_FALSE], when there
    are no clauses.  [DataSize] has 24 bits.  The structure has room for one clause
    already, so the buffer ends with 24 bytes that are never written. *)
Definition CreateExceptionHeader (fuel : nat) (m : ptr) : W (option raw) :=
  cs <- GetExceptionSection m ;;
  match cs with
  | [] => ret None
  | _ =>
      let dataSize := u32 (Z.of_nat (length cs) * sizeof_CLAUSE_FAT) in
      body <- render_clauses fuel cs ;;
      ret (Some (written (le_bytes 1 (Z.lor CorILMethod_Sect_EHTable CorILMethod_Sect_FatFormat) ++
                          le_bytes 3 dataSize) ++ body ++ replicate 24 None))
  end.

(** ** New clauses *)

(** [CExceptionSection::IsExistingTryContainedWithinNewTry]: a clause without try
    boundaries is dereferenced. *)
Definition IsExistingTryContainedWithinNewTry (fuel : nat) (existing new : CExceptionClause) : W bool :=
  newFirst <- deref (m_pTryFirstInstruction new) ;;
  dwNewTryFirstOffset <- GetOffset fuel newFirst ;;
  newLast <- deref (m_pTryLastInstruction new) ;;
  dwNewTryLastOffset <- GetOffset fuel newLast ;;
  nl <- load newLast ;;
  dwNewTryLastLength <- lift (GetInstructionLength nl) ;;
  exFirst <- deref (m_pTryFirstInstruction existing) ;;
  dwExistingTryFirstOffset <- GetOffset fuel exFirst ;;
  exLast <- deref (m_pTryLastInstruction existing) ;;
  dwExistingTryLastOffset <- GetOffset fuel exLast ;;
  el <- load exLast ;;
  dwExistingTryLastLength <- lift (GetInstructionLength el) ;;
  ret ((dwNewTryFirstOffset <=? dwExistingTryFirstOffset) &&
       (u32 (dwExistingTryLastOffset + dwExistingTryLastLength) <=?
        u32 (dwNewTryLastOffset + dwNewTryLastLength))).

(** The reverse search of [FindExceptionClauseInsertionPoint] over [rcs], the
    clauses from the last one on: the index after the first one that is contained. *)
Fixpoint find_reverse (fuel : nat) (rcs : list ptr) (new : CExceptionClause) : W nat :=
  match rcs with
  | [] => ret 0%nat
  | c :: rcs' =>
      e <- load_clause c ;;
      contained <- IsExistingTryContainedWithinNewTry fuel e new ;;
      if (contained : bool) then ret (length rcs) else find_reverse fuel rcs' new
  end.

Definition FindExceptionClauseInsertionPoint (fuel : nat) (cs : list ptr) (new : CExceptionClause) : W nat :=
  find_reverse fuel (rev cs) new.

(** [CExceptionSection::AddNewExceptionClause] on the section of method [m]. *)
Definition AddNewExceptionClause (fuel : nat) (m : ptr) (flags : Z)
    (pTryFirst pTryLast pHandlerFirst pHandlerLast pFilterLast : option ptr) (handlerTypeToken : Z) : W ptr :=
  let c := mkClause flags pTryFirst pTryLast pHandlerFirst pHandlerLast pFilterLast handlerTypeToken in
  cs <- GetExceptionSection m ;;
  i <- FindExceptionClauseInsertionPoint fuel cs c ;;
  p <- alloc_clause c ;;
  update_method m (set_clauses (take i cs ++ p :: drop i cs)) ;;;
  ret p.
