(* ===== verification/ExceptionSpec.v ===== *)
(** What the exception sections promise: a section that is rendered and parsed
    again gives the clauses back, and a new clause is inserted where the order that
    the runtime requires is kept. *)
From stdpp Require Import sorting.
From S2P Require Import Prelude ILOpcodes Instruction Store Chain Demo Offsets BranchTargets Clauses Graph Codec CodecSpec Lookups CorHeaders Exceptions.

(** ** Clauses of an up-to-date graph *)

Record up_to_date (fuel : nat) (w : World) (g : ptr) (l : list ptr) (ss : list Z) : Prop := {
  ud_chain : graph_chain w g l;
  ud_sized : sized (w_instr w) l ss;
  ud_placed : placed (w_instr w) 0 l ss;
  ud_fuel : (length l <= fuel)%nat;
  ud_pos : Forall (fun s => 0 < s) ss;
  ud_sum : sum_sizes ss < 2 ^ 32
}.

(** Offsets do not depend on the clauses and the methods of the world. *)
Lemma up_to_date_frame fuel w w' g l ss :
  w_instr w' = w_instr w -> (forall h, set_stale false <$> w_graph w' !! h = set_stale false <$> w_graph w !! h) ->
  up_to_date fuel w g l ss -> up_to_date fuel w' g l ss.
Proof.
  intros Hi Hg [[(gr & Hgr & Hf) Hs Hn Ho] Hsz Hp Hfu Hpos Hsum].
  split; rewrite ?Hi; try done. split; rewrite ?Hi; try done.
  specialize (Hg g). rewrite Hgr in Hg. destruct (w_graph w' !! g) as [gr'|]; [|done]. injection Hg as Hg.
  exists gr'. split; [done|]. rewrite <- Hf. destruct gr, gr'. injection Hg as ?. cbn. congruence.
Qed.

Lemma up_to_date_flag fuel w w' g l ss :
  only_flag w w' -> up_to_date fuel w g l ss -> up_to_date fuel w' g l ss.
Proof. intros [] H. by eapply up_to_date_frame. Qed.

(** The position where the [k]-th instruction begins. *)
Definition pos_of (ss : list Z) (k : nat) : Z := sum_sizes (take k ss).

Lemma sum_app a b : sum_sizes (a ++ b) = sum_sizes a + sum_sizes b.
Proof. induction a as [|x a IH]; cbn; [done|]. unfold sum_sizes in *. rewrite IH. lia. Qed.

Lemma sum_single s : sum_sizes [s] = s.
Proof. unfold sum_sizes. cbn. lia. Qed.

Section Positions.
Context (fuel : nat) (w : World) (g : ptr) (l : list ptr) (ss : list Z).
Hypothesis Hud : up_to_date fuel w g l ss.

Lemma pos_range k p : l !! k = Some p ->
  exists s, ss !! k = Some s /\ 0 < s /\ 0 <= pos_of ss k /\ pos_of ss (S k) = pos_of ss k + s /\ pos_of ss (S k) < 2 ^ 32.
Proof using Hud.
  intros Hk. pose proof (Forall2_length _ _ _ (ud_sized _ _ _ _ _ Hud)) as Hlen.
  assert (is_Some (ss !! k)) as [s Hs] by (apply lookup_lt_is_Some; rewrite <- Hlen; by eapply lookup_lt_Some).
  pose proof (Forall_lookup_1 _ _ _ _ (ud_pos _ _ _ _ _ Hud) Hs) as Hs0. cbn in Hs0.
  assert (forall x : list Z, Forall (fun s => 0 < s) x -> 0 <= sum_sizes x) as Hnn.
  { induction 1; cbn; unfold sum_sizes in *; lia. }
  exists s. unfold pos_of. rewrite (take_S_r _ _ _ Hs), sum_app, sum_single.
  split_and!; [done|done|apply Hnn, Forall_take, Hud|done|].
  pose proof (ud_sum _ _ _ _ _ Hud) as Hsum. rewrite <- (take_drop (S k) ss), sum_app, (take_S_r _ _ _ Hs), sum_app, sum_single in Hsum.
  pose proof (Hnn (drop (S k) ss) ltac:(apply Forall_drop, Hud)). lia.
Qed.

Lemma settled_pos k p : l !! k = Some p -> settled w (GetOffset fuel p) (pos_of ss k).
Proof using Hud.
  intros Hk. destruct (graph_chain_elem _ _ _ _ (ud_chain _ _ _ _ _ Hud) (list_elem_of_lookup_2 _ _ _ Hk)) as (i & Hi & _).
  pose proof (placed_lookup _ _ _ _ _ _ (ud_placed _ _ _ _ _ Hud) (ltac:(unfold is_u32; lia) : is_u32 0) Hk) as E.
  rewrite Hi in E. injection E as E. destruct (pos_range k p Hk) as (s & _ & Hs0 & H0 & H1 & H2).
  rewrite Z.add_0_l, u32_small in E by (fold (pos_of ss k); unfold is_u32; lia). unfold pos_of. rewrite <- E.
  destruct Hud. eapply (settled_GetOffset fuel w g l ss); try done. by eapply list_elem_of_lookup_2.
Qed.

Lemma item_lookup k p : l !! k = Some p ->
  exists i, w_instr w !! p = Some i /\ GetInstructionSize i = Ok (pos_of ss (S k) - pos_of ss k).
Proof using Hud.
  intros Hk. destruct (pos_range k p Hk) as (s & Hs & _ & _ & -> & _).
  destruct (Forall2_lookup_lr _ _ _ _ _ _ (ud_sized _ _ _ _ _ Hud) Hk Hs) as (i & Hi & Hsi).
  exists i. split; [done|]. rewrite Hsi. f_equal. lia.
Qed.

Lemma ss_nonneg : Forall (fun s => 0 <= s) ss.
Proof using Hud. eapply Forall_impl; [apply Hud|]. cbn. lia. Qed.

Lemma settled_at_pos k p : l !! k = Some p -> settled w (GetInstructionAtOffsetInternal g fuel (pos_of ss k)) p.
Proof using Hud.
  intros Hk. pose proof (Forall2_length _ _ _ (ud_sized _ _ _ _ _ Hud)) as Hlen. apply (proj1 (settled_lookup_Some w _ p)).
  replace (Some p) with (begins_at 0 l ss (pos_of ss k)).
  - destruct Hud. apply (AtOffset_run fuel w g l ss); try done. apply ss_nonneg.
  - apply begins_at_spec; [done|apply Hud|]. exists k. unfold pos_of. split; [done|lia].
Qed.

Lemma settled_at_end k p : l !! k = Some p -> settled w (GetInstructionAtEndOffset g fuel (pos_of ss (S k))) p.
Proof using Hud.
  intros Hk. pose proof (Forall2_length _ _ _ (ud_sized _ _ _ _ _ Hud)) as Hlen. apply (proj1 (settled_lookup_Some w _ p)).
  replace (Some p) with (ends_at 0 l ss (pos_of ss (S k))).
  - destruct Hud. apply (AtEndOffset_run fuel w g l ss); try done. apply ss_nonneg.
  - apply ends_at_spec; [done|apply Hud|]. exists k. unfold pos_of. split; [done|lia].
Qed.

End Positions.

(** ** One clause, rendered and parsed *)

(** A clause whose boundaries are the instructions of [l] with the given indices. *)
Record spans (l : list ptr) (cl : CExceptionClause) (tf tl hf hl : nat) (ff : option nat) : Prop := {
  sp_tf : exists p, l !! tf = Some p /\ m_pTryFirstInstruction cl = Some p;
  sp_tl : exists p, l !! tl = Some p /\ m_pTryLastInstruction cl = Some p;
  sp_hf : exists p, l !! hf = Some p /\ m_pHandlerFirstInstruction cl = Some p;
  sp_hl : exists p, l !! hl = Some p /\ m_pHandlerLastInstruction cl = Some p;
  sp_ff : match ff with
          | Some k => m_clauseFlags cl = COR_ILEXCEPTION_CLAUSE_FILTER /\
                      exists p, l !! k = Some p /\ m_pFilterFirstInstruction cl = Some p
          | None => m_clauseFlags cl <> COR_ILEXCEPTION_CLAUSE_FILTER /\ m_pFilterFirstInstruction cl = None
          end;
  sp_flags : is_u32 (m_clauseFlags cl);
  sp_type : is_u32 (m_ExceptionHandlerType cl);
  sp_none : m_clauseFlags cl <> COR_ILEXCEPTION_CLAUSE_NONE -> m_ExceptionHandlerType cl = mdTokenNil
}.

(** The clause in the method body. *)
Definition eh_of (ss : list Z) (cl : CExceptionClause) (tf tl hf hl : nat) (tok : Z) : EH_CLAUSE_FAT :=
  mkEH (m_clauseFlags cl) (pos_of ss tf) (u32 (pos_of ss (S tl) - pos_of ss tf))
    (pos_of ss hf) (u32 (pos_of ss (S hl) - pos_of ss hf)) tok.

(** The token that is written, if one is. *)
Definition token_of (ss : list Z) (cl : CExceptionClause) (ff : option nat) : option Z :=
  if m_clauseFlags cl =? COR_ILEXCEPTION_CLAUSE_NONE then Some (m_ExceptionHandlerType cl)
  else pos_of ss <$> ff.

(** [bs] are bytes that the buffer [r] may hold. *)
Definition fills (r : raw) (bs : list Z) : Prop :=
  Forall is_byte bs /\ Forall2 (fun o b => match o with Some x => x = b | None => True end) r bs.

Lemma fills_written a bs : fills (written a) bs -> bs = a.
Proof.
  intros [_ H]. revert bs H. induction a as [|x a IH]; intros bs H; inversion H as [|? b ? bs' Hx H']; subst; [done|].
  f_equal. by apply IH.
Qed.

Lemma fills_app r1 r2 bs : fills (r1 ++ r2) bs -> exists b1 b2, bs = b1 ++ b2 /\ fills r1 b1 /\ fills r2 b2.
Proof.
  intros [Hb H]. apply Forall2_app_inv_l in H as (b1 & b2 & H1 & H2 & ->).
  apply Forall_app in Hb as [Hb1 Hb2]. exists b1, b2. by split_and!.
Qed.

Definition eh_head (e : EH_CLAUSE_FAT) : list Z :=
  le_bytes 4 (eh_Flags e) ++ le_bytes 4 (TryOffset e) ++ le_bytes 4 (TryLength e) ++
  le_bytes 4 (HandlerOffset e) ++ le_bytes 4 (HandlerLength e).

Definition clause_raw (e : EH_CLAUSE_FAT) (tok : option Z) : raw :=
  written (eh_head e) ++ match tok with Some t => written (le_bytes 4 t) | None => replicate 4 None end.

Lemma settled_load_clause w c cl : w_clause w !! c = Some cl -> settled w (load_clause c) cl.
Proof.
  intros Hc w1 H1. exists w1. split; [|done]. unfold load_clause. by rewrite (of_clause _ _ H1), Hc.
Qed.

Section Clause.
Context (fuel : nat) (w : World) (g : ptr) (l : list ptr) (ss : list Z).
Hypothesis Hud : up_to_date fuel w g l ss.
Context (cl : CExceptionClause) (tf tl hf hl : nat) (ff : option nat).
Hypothesis Hsp : spans l cl tf tl hf hl ff.

Lemma settled_size k p i :
  l !! k = Some p -> w_instr w !! p = Some i ->
  settled w (lift (GetInstructionSize i)) (pos_of ss (S k) - pos_of ss k).
Proof using Hud.
  intros Hk Hi. destruct (item_lookup fuel w g l ss Hud k p Hk) as (i' & Hi' & Hs).
  rewrite Hi in Hi'. injection Hi' as <-. rewrite Hs. apply settled_lift.
Qed.

Lemma Render_run c :
  w_clause w !! c = Some cl ->
  settled w (RenderExceptionClause fuel c) (clause_raw (eh_of ss cl tf tl hf hl 0) (token_of ss cl ff)).
Proof using Hud Hsp.
  intros Hc. destruct Hsp as [(ptf & Htf & Etf) (ptl & Htl & Etl) (phf & Hhf & Ehf) (phl & Hhl & Ehl) Hff _ _ _].
  destruct (item_lookup _ _ _ _ _ Hud _ _ Htl) as (itl & Hitl & _).
  destruct (item_lookup _ _ _ _ _ Hud _ _ Hhl) as (ihl & Hihl & _).
  unfold RenderExceptionClause. eapply settled_bind; [by apply settled_load_clause|].
  rewrite Etf, Etl, Ehf, Ehl. cbn [if_null_ret]. do 4 sstep. sstep.
  eapply settled_bind; [exact (settled_size tl ptl itl Htl Hitl)|].
  do 2 (eapply settled_bind; [by eapply settled_pos|]). sstep.
  eapply settled_bind; [exact (settled_size hl phl ihl Hhl Hihl)|].
  do 2 (eapply settled_bind; [by eapply settled_pos|]).
  unfold clause_raw, token_of, eh_head, eh_of. cbn [eh_Flags TryOffset TryLength HandlerOffset HandlerLength].
  replace (pos_of ss tl + (pos_of ss (S tl) - pos_of ss tl) - pos_of ss tf) with (pos_of ss (S tl) - pos_of ss tf) by lia.
  replace (pos_of ss hl + (pos_of ss (S hl) - pos_of ss hl) - pos_of ss hf) with (pos_of ss (S hl) - pos_of ss hf) by lia.
  destruct (Z.eqb_spec (m_clauseFlags cl) COR_ILEXCEPTION_CLAUSE_NONE) as [E|].
  - unfold written. rewrite map_app. apply settled_ret.
  - destruct ff as [k|].
    + destruct Hff as [E (p & Hp & ->)]. rewrite E. cbn [Z.eqb COR_ILEXCEPTION_CLAUSE_FILTER Pos.eqb deref].
      sstep. eapply settled_bind; [by eapply settled_pos|]. cbn [fmap option_fmap option_map].
      unfold written. rewrite map_app. apply settled_ret.
    + destruct Hff as [E _]. destruct (Z.eqb_spec (m_clauseFlags cl) COR_ILEXCEPTION_CLAUSE_FILTER); [done|].
      apply settled_ret.
Qed.

Lemma Initialize_run tok :
  (forall t, token_of ss cl ff = Some t -> tok = t) ->
  settled w (InitializeFromFat g fuel (eh_of ss cl tf tl hf hl tok)) cl.
Proof using Hud Hsp.
  intros Htok. destruct Hsp as [(ptf & Htf & Etf) (ptl & Htl & Etl) (phf & Hhf & Ehf) (phl & Hhl & Ehl) Hff _ _ Hnone].
  assert (forall a b p, l !! b = Some p -> u32 (pos_of ss a + u32 (pos_of ss (S b) - pos_of ss a)) = pos_of ss (S b)) as Hend.
  { intros a b p Hb. destruct (pos_range _ _ _ _ _ Hud _ _ Hb) as (s & _ & ? & ? & ? & ?).
    rewrite u32_idemp_r, u32_small; unfold is_u32; lia. }
  unfold InitializeFromFat, eh_of. cbn [eh_Flags TryOffset TryLength HandlerOffset HandlerLength ClassToken].
  rewrite (Hend tf tl ptl), (Hend hf hl phl) by done.
  eapply settled_bind; [by eapply settled_at_pos|]. eapply settled_bind; [by eapply settled_at_end|].
  eapply settled_bind; [apply settled_lookup_attempt, settled_lookup_Some; by eapply settled_at_pos|].
  eapply settled_bind; [apply settled_lookup_attempt, settled_lookup_Some; by eapply settled_at_end|].
  rewrite <- Etf, <- Etl, <- Ehf, <- Ehl. unfold token_of in Htok.
  destruct (Z.eqb_spec (m_clauseFlags cl) COR_ILEXCEPTION_CLAUSE_NONE) as [E|E].
  - rewrite (Htok _ eq_refl). replace None with (m_pFilterFirstInstruction cl); [by destruct cl; apply settled_ret|].
    destruct ff; [destruct Hff as [E' _]; by rewrite E in E'|apply Hff].
  - rewrite <- (Hnone E). destruct ff as [k|].
    + destruct Hff as [E' (p & Hp & Hpf)]. rewrite E'. cbn [Z.eqb COR_ILEXCEPTION_CLAUSE_FILTER Pos.eqb].
      rewrite (Htok _ eq_refl). eapply settled_bind; [by eapply settled_at_pos|].
      rewrite <- E', <- Hpf. destruct cl; apply settled_ret.
    + destruct Hff as [E' <-]. destruct (Z.eqb_spec (m_clauseFlags cl) COR_ILEXCEPTION_CLAUSE_FILTER); [done|].
      destruct cl; apply settled_ret.
Qed.

End Clause.

(** ** A section, rendered and parsed *)

Lemma settled_attempt' {A} w (m : W A) a : settled w m a -> settled w (attempt m) (Some a).
Proof.
  intros Hm w1 H1. destruct (Hm w1 H1) as (w2 & Hw2 & H2). exists w2. split; [|done].
  unfold attempt. by rewrite Hw2.
Qed.

(** A clause of a section with the indices of its boundaries. *)
Record desc := mkDesc {
  d_cl : CExceptionClause; d_tf : nat; d_tl : nat; d_hf : nat; d_hl : nat; d_ff : option nat
}.

Definition desc_ok (l : list ptr) (d : desc) : Prop :=
  spans l (d_cl d) (d_tf d) (d_tl d) (d_hf d) (d_hl d) (d_ff d).

Definition desc_eh (ss : list Z) (d : desc) (tok : Z) : EH_CLAUSE_FAT :=
  eh_of ss (d_cl d) (d_tf d) (d_tl d) (d_hf d) (d_hl d) tok.

Definition desc_token (ss : list Z) (d : desc) : option Z := token_of ss (d_cl d) (d_ff d).

Definition desc_raw (ss : list Z) (d : desc) : raw := clause_raw (desc_eh ss d 0) (desc_token ss d).

Lemma render_clauses_run fuel w g l ss cs ds :
  up_to_date fuel w g l ss -> Forall (desc_ok l) ds ->
  Forall2 (fun c d => w_clause w !! c = Some (d_cl d)) cs ds ->
  settled w (render_clauses fuel cs) (concat (map (desc_raw ss) ds)).
Proof.
  intros Hud Hok H. induction H as [|c d cs ds Hc _ IH]; [apply settled_ret|].
  inversion Hok as [|? ? Hd Hok']; subst. cbn [render_clauses map concat].
  eapply settled_bind; [eapply settled_attempt'; by eapply Render_run|].
  eapply settled_bind; [by apply IH|]. apply settled_ret.
Qed.

(** The bytes of a clause whose buffer held garbage. *)
Lemma fills_clause ss d bs :
  fills (desc_raw ss d) bs ->
  exists tok, bs = fat_clause_bytes (desc_eh ss d tok) /\
    ((forall t, desc_token ss d = Some t -> is_u32 t) -> is_u32 tok) /\
    forall t, desc_token ss d = Some t -> is_u32 t -> tok = t.
Proof.
  intros H. apply fills_app in H as (b1 & b2 & -> & H1%fills_written & H2). subst b1.
  exists (le_val b2). destruct H2 as [Hb H2]. pose proof (Forall2_length _ _ _ H2) as Hl2.
  assert (length b2 = 4%nat) as Hl by (rewrite <- Hl2; by destruct (desc_token ss d)).
  assert (is_u32 (le_val b2)) as Hu.
  { pose proof (le_val_range b2 Hb) as Hr. rewrite Hl in Hr. exact Hr. }
  split_and!; [|done|].
  - unfold fat_clause_bytes, eh_head, desc_eh, eh_of. cbn [eh_Flags TryOffset TryLength HandlerOffset HandlerLength ClassToken].
    rewrite <- !app_assoc. repeat f_equal. rewrite <- Hl. symmetry. by apply le_bytes_le_val.
  - intros t Ht Hut. rewrite Ht in H2. assert (b2 = le_bytes 4 t) as -> by (by apply fills_written).
    rewrite le_val_le_bytes. change (256 ^ Z.of_nat 4) with (2 ^ 32). by apply Z.mod_small.
Qed.

Lemma fills_clauses ss ds : forall bs,
  fills (concat (map (desc_raw ss) ds)) bs ->
  (forall d t, d ∈ ds -> desc_token ss d = Some t -> is_u32 t) ->
  exists toks, bs = concat (map fat_clause_bytes (zip_with (desc_eh ss) ds toks)) /\
    Forall2 (fun d tok => is_u32 tok /\ forall t, desc_token ss d = Some t -> tok = t) ds toks.
Proof.
  induction ds as [|d ds IH]; intros bs H Ht; cbn [map concat] in H.
  { destruct H as [_ H]. inversion H. by exists []. }
  apply fills_app in H as (b1 & b2 & -> & H1 & H2). apply fills_clause in H1 as (tok & -> & Hu & Heq).
  destruct (IH _ H2) as (toks & -> & Hf); [intros; eapply Ht; [by apply list_elem_of_further|done]|].
  exists (tok :: toks). split; [done|]. constructor; [|done]. split.
  - apply Hu. intros t. apply Ht, list_elem_of_here.
  - intros t Hd. apply Heq; [done|]. eapply Ht; [apply list_elem_of_here|done].
Qed.

(** Parsing appends the clauses to the section of the method. *)
Definition section_of (w : World) (m : ptr) (cs : list ptr) : Prop :=
  exists mi, w_method w !! m = Some mi /\ m_exceptionClauses mi = Some cs.

Record parsed (m : ptr) (w w' : World) : Prop := {
  pa_instr : w_instr w' = w_instr w;
  pa_graph : forall h, set_stale false <$> w_graph w' !! h = set_stale false <$> w_graph w !! h;
  pa_clause : forall c cl, w_clause w !! c = Some cl -> w_clause w' !! c = Some cl;
  pa_method : forall n, n <> m -> w_method w' !! n = w_method w !! n
}.

#[export] Instance parsed_preorder m : PreOrder (parsed m).
Proof.
  split; [by split|]. intros w1 w2 w3 H1 H2. split.
  - by rewrite (pa_instr _ _ _ H2), (pa_instr _ _ _ H1).
  - intros h. by rewrite (pa_graph _ _ _ H2), (pa_graph _ _ _ H1).
  - intros c cl Hc. by apply (pa_clause _ _ _ H2), (pa_clause _ _ _ H1).
  - intros n Hn. by rewrite (pa_method _ _ _ H2), (pa_method _ _ _ H1).
Qed.

Lemma only_flag_parsed m w w' : only_flag w w' -> parsed m w w'.
Proof. intros [Hi Hg Hc Hm]. split; [done|done| |]; intros; congruence. Qed.

Lemma parsed_up_to_date fuel m w w' g l ss :
  parsed m w w' -> up_to_date fuel w g l ss -> up_to_date fuel w' g l ss.
Proof. intros [] H. by eapply up_to_date_frame. Qed.

(** A new clause at the end of the section. *)
Lemma add_clause_run w m cs cl :
  section_of w m cs -> exists p w', (p <- alloc_clause cl ;; AddExceptionClause m p) w = (Ok tt, w') /\
    section_of w' m (cs ++ [p]) /\ w_clause w' !! p = Some cl /\ parsed m w w'.
Proof.
  intros (mi & Hm & Hcs). set (p := fresh (dom (w_clause w))).
  assert (w_clause w !! p = None) as Hp by apply not_elem_of_dom, is_fresh.
  assert (alloc_clause cl w = (Ok p, on_clause (insert p cl) w)) as Hal by done.
  exists p. eexists. rewrite (run_bind _ _ _ _ _ Hal). unfold AddExceptionClause, GetExceptionSection.
  rewrite bind_bind. unfold load_method, bind at 1. cbn [w_method on_clause]. rewrite Hm. cbn [of_option].
  rewrite Hcs. split; [reflexivity|]. split_and!.
  - eexists. split; [cbn; by rewrite lookup_alter_eq, Hm|done].
  - cbn. apply lookup_insert_eq.
  - split; cbn; try done.
    + intros c cl' Hc. rewrite lookup_insert_ne; congruence.
    + intros n Hn. by rewrite lookup_alter_ne.
Qed.

Section Parse.
Context (fuel : nat) (g : ptr) (l : list ptr) (ss : list Z) (m : ptr) (body : list Z) (sect : Z).
Hypothesis Hfat : Sect_IsFat body sect = Ok true.

Lemma init_clauses_run ds : forall toks (i : nat) w cs,
  up_to_date fuel w g l ss -> section_of w m cs -> Forall (desc_ok l) ds ->
  Forall2 (fun d tok => is_u32 tok /\ forall t, desc_token ss d = Some t -> tok = t) ds toks ->
  (forall j e, zip_with (desc_eh ss) ds toks !! j = Some e ->
     read_fat_clause body (sect + 4 + sizeof_CLAUSE_FAT * Z.of_nat (i + j)) = Ok e) ->
  exists w' cs', init_clauses g fuel m body sect (Z.of_nat i) (length ds) w = (Ok tt, w') /\
    section_of w' m (cs ++ cs') /\
    Forall2 (fun c d => w_clause w' !! c = Some (d_cl d)) cs' ds /\ parsed m w w'.
Proof using Hfat.
  induction ds as [|d ds IH]; intros toks i w cs Hud Hsec Hok Htok Hread.
  { exists w, []. rewrite app_nil_r. split_and!; try done. }
  inversion Htok as [|? tok ? toks' [_ Ht] Htok']; subst. inversion Hok as [|? ? Hd Hok']; subst.
  cbn [length init_clauses]. rewrite Hfat, (run_bind _ _ _ _ _ (eq_refl : lift (Ok true) w = _)).
  specialize (Hread 0%nat _ eq_refl) as Hr0. rewrite Nat.add_0_r in Hr0.
  rewrite bind_bind, Hr0, (run_bind _ _ _ _ _ (eq_refl : lift (Ok (desc_eh ss d tok)) w = _)).
  destruct (Initialize_run fuel w g l ss Hud _ _ _ _ _ _ Hd tok Ht w) as (w1 & Hw1 & H1); [reflexivity|].
  rewrite (run_bind _ _ _ _ _ Hw1).
  assert (section_of w1 m cs) as Hsec1 by (destruct H1 as [_ _ _ E]; unfold section_of; by rewrite E).
  destruct (add_clause_run w1 m cs (d_cl d) Hsec1) as (p & w2 & Hw2 & Hsec2 & Hp & H2).
  assert (parsed m w w2) as H02 by (transitivity w1; [by apply only_flag_parsed|done]).
  destruct (IH toks' (S i) w2 (cs ++ [p])) as (w3 & cs' & Hw3 & Hsec3 & Hcl & H3); try done.
  - by eapply parsed_up_to_date.
  - intros j e Hj. replace (S i + j)%nat with (i + S j)%nat by lia. by apply Hread.
  - exists w3, (p :: cs'). rewrite <- bind_bind, (run_bind _ _ _ _ _ Hw2).
    replace (Z.of_nat i + 1) with (Z.of_nat (S i)) by lia. rewrite <- app_assoc in Hsec3.
    split_and!; [done|done| |by transitivity w2]. constructor; [|done]. by apply (pa_clause _ _ _ H3).
Qed.

End Parse.

(** The header that [CreateExceptionHeader] writes. *)
Definition eh_sect_header (n : nat) : list Z :=
  le_bytes 1 (Z.lor CorILMethod_Sect_EHTable CorILMethod_Sect_FatFormat) ++ le_bytes 3 (24 * Z.of_nat n).

Lemma sect_header_facts pre n post :
  24 * Z.of_nat n < 2 ^ 24 ->
  let body := pre ++ eh_sect_header n ++ post in let sect := Z.of_nat (length pre) in
  Sect_IsFat body sect = Ok true /\ Sect_More body sect = Ok false /\ EHCount body sect = Ok (Z.of_nat n).
Proof.
  intros Hn body sect.
  assert (Sect_kindByte body sect = Ok 0x41) as Hk by (apply (read_byte_mid pre _ (le_bytes 3 (24 * Z.of_nat n)))).
  unfold EHCount, Sect_DataSize, Sect_IsFat, Sect_More. rewrite Hk. cbn [obind]. split_and!; [done|done|].
  cbn [Z.land negb Z.eqb CorILMethod_Sect_FatFormat Pos.land]. unfold read_le, body, sect, eh_sect_header.
  replace (Z.of_nat (length pre) + 1) with (Z.of_nat (length (pre ++ le_bytes 1 (Z.lor CorILMethod_Sect_EHTable CorILMethod_Sect_FatFormat))))
    by (rewrite length_app, length_le_bytes; lia).
  rewrite <- !app_assoc, (app_assoc pre), read_at_app_r, Z.sub_diag by lia.
  change 3%nat with (length (le_bytes 3 (24 * Z.of_nat n))) at 2. rewrite read_at_here. unfold of_option, obind.
  rewrite le_val_le_bytes. change (256 ^ Z.of_nat 3) with (2 ^ 24). rewrite Z.mod_small by lia.
  f_equal. symmetry. change (if negb (Z.land 65 CorILMethod_Sect_FatFormat =? 0) then sizeof_CLAUSE_FAT else _) with 24.
  apply Z.div_unique with 0; lia.
Qed.

Lemma sect_header_len n : length (eh_sect_header n) = 4%nat.
Proof. unfold eh_sect_header. by rewrite length_app, !length_le_bytes. Qed.

Lemma desc_token_u32 fuel w g l ss d t :
  up_to_date fuel w g l ss -> desc_ok l d -> desc_token ss d = Some t -> is_u32 t.
Proof.
  intros Hud [_ _ _ _ Hff _ Hty _]. unfold desc_token, token_of.
  destruct (_ =? _); [by intros [= <-]|]. destruct (d_ff d) as [k|]; [|done]. intros [= <-].
  destruct Hff as [_ (p & Hp & _)]. destruct (pos_range _ _ _ _ _ Hud _ _ Hp) as (s & _ & ? & ? & ? & ?).
  unfold is_u32. lia.
Qed.

(** A section read from the bytes that were rendered. *)
Lemma init_sections_run fuel w g l ss m ds bs pre post cs :
  up_to_date fuel w g l ss -> section_of w m cs -> Forall (desc_ok l) ds -> (0 < fuel)%nat ->
  24 * Z.of_nat (length ds) < 2 ^ 24 -> fills (concat (map (desc_raw ss) ds)) bs ->
  exists w' cs',
    init_sections fuel g fuel m (pre ++ (eh_sect_header (length ds) ++ bs) ++ post) (Some (Z.of_nat (length pre))) w
      = (Ok tt, w') /\
    section_of w' m (cs ++ cs') /\ Forall2 (fun c d => w_clause w' !! c = Some (d_cl d)) cs' ds /\ parsed m w w'.
Proof.
  intros Hud Hsec Hok Hfuel Hn Hbs.
  destruct (fills_clauses ss ds bs Hbs) as (toks & -> & Htok).
  { intros d t Hd. rewrite Forall_forall in Hok. eapply desc_token_u32; [done|by apply Hok]. }
  rewrite <- app_assoc. set (cb := concat _).
  destruct (sect_header_facts pre (length ds) (cb ++ post) Hn) as (Hf & Hm & Hc).
  destruct fuel as [|f]; [lia|].
  destruct (init_clauses_run (S f) g l ss m _ _ Hf ds toks 0 w cs) as (w' & cs' & Hw' & H); try done.
  - intros j e Hj. apply read_fat_clause_bytes.
    + rewrite app_assoc. replace (_ + sizeof_CLAUSE_FAT * Z.of_nat (0 + j))
        with (Z.of_nat (length (pre ++ eh_sect_header (length ds))) + Z.of_nat (24 * j))
        by (rewrite length_app, sect_header_len; unfold sizeof_CLAUSE_FAT; lia).
      by apply read_at_concat.
    + apply lookup_zip_with_Some in Hj as (d & tok & -> & Hd & Ht).
      destruct (Forall2_lookup_lr _ _ _ _ _ _ Htok Hd Ht) as [Hu _].
      pose proof (Forall_lookup_1 _ _ _ _ Hok Hd) as [(p & Hp & _) _ (q & Hq & _) _ _ Hfl _ _].
      destruct (pos_range _ _ _ _ _ Hud _ _ Hp) as (? & _ & ? & ? & ? & ?).
      destruct (pos_range _ _ _ _ _ Hud _ _ Hq) as (? & _ & ? & ? & ? & ?).
      unfold eh_ok, desc_eh, eh_of. cbn. split_and!; try done; try apply u32_range; unfold is_u32; lia.
  - exists w', cs'. split; [|done]. cbn [init_sections].
    rewrite Hc, (run_bind _ _ _ _ _ (eq_refl : lift (Ok _) w = _)), Nat2Z.id, (run_bind _ _ _ _ _ Hw').
    cbn [next_eh_sect]. unfold Sect_Next. rewrite Hm. cbn [obind negb].
    rewrite (run_bind _ _ _ _ _ (eq_refl : lift (Ok None) w' = _)). by destruct f.
Qed.

(** Clauses of two worlds that have the same descriptions. *)
Lemma clauses_agree w w2 cs cs' ds :
  Forall2 (fun c d => w_clause w !! c = Some (d_cl d)) cs ds ->
  Forall2 (fun c d => w_clause w2 !! c = Some (d_cl d)) cs' ds ->
  Forall2 (fun c' c => w_clause w2 !! c' = w_clause w !! c) cs' cs.
Proof.
  intros Hds Hc2. revert cs Hds.
  induction Hc2 as [|c' d cs' ds Hd _ IH]; intros cs Hds; inversion Hds as [|c ? cs1 ? Hc Hcs]; subst; constructor.
  - congruence.
  - by apply IH.
Qed.

(** What [CreateExceptionHeader] gives. *)
Definition section_raw (ss : list Z) (ds : list desc) : raw :=
  written (eh_sect_header (length ds)) ++ concat (map (desc_raw ss) ds) ++ replicate 24 None.

Lemma CreateExceptionHeader_run fuel w g l ss m cs ds :
  up_to_date fuel w g l ss -> section_of w m cs -> 24 * Z.of_nat (length cs) < 2 ^ 24 -> Forall (desc_ok l) ds ->
  Forall2 (fun c d => w_clause w !! c = Some (d_cl d)) cs ds ->
  settled w (CreateExceptionHeader fuel m) (match cs with [] => None | _ => Some (section_raw ss ds) end).
Proof.
  intros Hud (mi & Hm & Hcs) Hn Hok Hds. pose proof (Forall2_length _ _ _ Hds) as Hlen.
  unfold CreateExceptionHeader. eapply (settled_bind _ _ _ cs).
  { intros w1 H1. exists w1. split; [|done]. unfold GetExceptionSection, load_method, bind.
    rewrite (of_method _ _ H1), Hm. cbn. by rewrite Hcs. }
  assert (u32 (Z.of_nat (length cs) * sizeof_CLAUSE_FAT) = 24 * Z.of_nat (length ds)) as E.
  { unfold sizeof_CLAUSE_FAT. rewrite u32_small by (unfold is_u32; lia). lia. }
  rewrite E. destruct cs as [|c cs]; [apply settled_ret|].
  eapply settled_bind; [by eapply render_clauses_run|]. apply settled_ret.
Qed.

(** C14: exception sections round-trip: for the clauses of a method whose graph is up
    to date, [CreateExceptionHeader] gives a section whose bytes, whatever is in the
    ones that it leaves unwritten and wherever the section is in a method body, are
    parsed by [CExceptionSection::Initialize] into clauses with the same kinds, the
    same boundary instructions and the same types, in the same order. *)
Theorem CreateExceptionHeader_roundtrip fuel w g l ss m cs ds m' cs0 :
  up_to_date fuel w g l ss -> (0 < fuel)%nat -> section_of w m cs -> cs <> [] ->
  24 * Z.of_nat (length cs) < 2 ^ 24 -> Forall (desc_ok l) ds ->
  Forall2 (fun c d => w_clause w !! c = Some (d_cl d)) cs ds -> section_of w m' cs0 ->
  exists r w1, CreateExceptionHeader fuel m w = (Ok (Some r), w1) /\
    forall bs pre post, fills r bs ->
      exists w2 cs', init_sections fuel g fuel m' (pre ++ bs ++ post) (Some (Z.of_nat (length pre))) w1 = (Ok tt, w2) /\
        section_of w2 m' (cs0 ++ cs') /\ Forall2 (fun c' c => w_clause w2 !! c' = w_clause w !! c) cs' cs.
Proof.
  intros Hud Hfuel Hsec Hne Hn Hok Hds Hsec'. pose proof (Forall2_length _ _ _ Hds) as Hlen.
  destruct (CreateExceptionHeader_run fuel w g l ss m cs ds Hud Hsec Hn Hok Hds w) as (w1 & Hw1 & H1); [reflexivity|].
  exists (section_raw ss ds), w1. split; [by destruct cs|].
  intros bs pre post (b1 & b2 & -> & ->%fills_written & Hb)%fills_app.
    apply fills_app in Hb as (b3 & b4 & -> & Hb & _). rewrite (app_assoc _ b3 b4), <- (app_assoc _ b4 post).
    destruct (init_sections_run fuel w1 g l ss m' ds b3 pre (b4 ++ post) cs0) as (w2 & cs' & Hw2 & Hs2 & Hc2 & _); try done.
    + by eapply up_to_date_flag.
    + destruct Hsec' as (mi' & ? & ?). exists mi'. by rewrite (of_method _ _ H1).
    + by rewrite <- Hlen.
    + exists w2, cs'. split_and!; [done..|]. by eapply clauses_agree.
Qed.

(** The demo method with its offsets in place, and a second section. *)
Definition placed_demo : World := mkWorld
  (foldr (fun po m => alter (set_offset (snd po)) (fst po) m) (w_instr demo)
    [(1, 0%Z); (2, 1%Z); (3, 3%Z); (4, 4%Z)]%positive)
  (w_graph demo) (w_clause demo) (<[2%positive := mkMethod (Some []) false [] (new_render 8 0x06000002 false)]> (w_method demo)) ∅.

Definition demo_desc : desc :=
  mkDesc (mkClause COR_ILEXCEPTION_CLAUSE_FINALLY (Some 1%positive) (Some 3%positive)
    (Some 4%positive) (Some 4%positive) None mdTokenNil) 0 2 3 3 None.

Lemma placed_demo_up_to_date : up_to_date 4 placed_demo 1%positive [1; 2; 3; 4]%positive [1; 2; 1; 1].
Proof.
  split.
  - split.
    + eexists. split; vm_compute; reflexivity.
    + repeat (apply segment_cons; [apply node_check; vm_compute; reflexivity|]). exact I.
    + apply (bool_decide_unpack _). vm_compute. exact I.
    + apply owned_check; vm_compute; reflexivity.
  - repeat (apply Forall2_cons_2; [eexists; split; [vm_compute; reflexivity|]; vm_compute; reflexivity|]).
    apply Forall2_nil_2.
  - repeat split; vm_compute; reflexivity.
  - cbn. lia.
  - repeat constructor.
  - reflexivity.
Qed.

Lemma demo_desc_ok : Forall (desc_ok [1; 2; 3; 4]%positive) [demo_desc].
Proof.
  repeat constructor; cbn; try (eexists; split; reflexivity); try done; unfold is_u32; cbn; lia.
Qed.

Lemma CreateExceptionHeader_roundtrip_witness : exists r w1,
  CreateExceptionHeader 4 1 placed_demo = (Ok (Some r), w1) /\
  exists w2 cs', init_sections 4 1 4 2 ([0; 0; 0; 0] ++ map (default 0xCC) r ++ []) (Some 4) w1 = (Ok tt, w2) /\
    Forall2 (fun c' c => w_clause w2 !! c' = w_clause placed_demo !! c) cs' [1%positive].
Proof.
  destruct (CreateExceptionHeader_roundtrip 4 placed_demo 1 _ _ 1 [1%positive] [demo_desc] 2 []
    placed_demo_up_to_date) as (r & w1 & Hr & Hb).
  - lia.
  - eexists. split; vm_compute; reflexivity.
  - discriminate.
  - reflexivity.
  - exact demo_desc_ok.
  - repeat constructor.
  - eexists. split; vm_compute; reflexivity.
  - exists r, w1. split; [exact Hr|].
    destruct (Hb (map (default 0xCC) r) [0; 0; 0; 0] []) as (w2 & cs' & H2 & _ & Hc).
    + vm_compute in Hr. injection Hr as <- <-. split; vm_compute.
      * repeat constructor; congruence.
      * repeat constructor.
    + by exists w2, cs'.
Defined.

(** ** The order of the clauses *)

(** The range of a try block, from its first byte to the byte after its last. *)
Definition range : Type := Z * Z.

Definition contains (a b : range) : bool := (fst a <=? fst b) && (snd b <=? snd a).

(** What the runtime requires: a range comes after those that it contains. *)
Definition ordered : list range -> Prop := StronglySorted (fun a b => contains a b -> a = b).

(** The try block of a clause covers [r] and does not end with a [switch]. *)
Definition ranged (w : World) (l : list ptr) (ss : list Z) (cl : CExceptionClause) (r : range) : Prop :=
  exists tf tl ptf ptl i, l !! tf = Some ptf /\ l !! tl = Some ptl /\
    m_pTryFirstInstruction cl = Some ptf /\ m_pTryLastInstruction cl = Some ptl /\
    w_instr w !! ptl = Some i /\ (forall d ts, m_class i <> CSwitch d ts) /\
    r = (pos_of ss tf, pos_of ss (S tl)).

Lemma contains_trans a b c : contains a b -> contains b c -> contains a c.
Proof. unfold contains. rewrite !andb_True, !Is_true_true, !Z.leb_le. lia. Qed.

Lemma contains_antisym a b : contains a b -> contains b a -> a = b.
Proof.
  unfold contains. rewrite !andb_True, !Is_true_true, !Z.leb_le. destruct a, b. cbn. intros. f_equal; lia.
Qed.

(** The insertion point: after the last range that the new one contains. *)
Fixpoint insertion (r : range) (rrs : list range) : nat :=
  match rrs with
  | [] => 0%nat
  | x :: rrs' => if contains r x then length rrs else insertion r rrs'
  end.

Lemma insertion_spec r rs : forall i, insertion r (rev rs) = i ->
  (forall j x, rs !! j = Some x -> (i <= j)%nat -> ~ contains r x) /\
  (i = 0%nat \/ exists x, rs !! (i - 1)%nat = Some x /\ contains r x) /\ (i <= length rs)%nat.
Proof.
  induction rs as [|x rs IH] using rev_ind; intros i Hi; [cbn in Hi; subst; split_and!; [done|by left|cbn; lia]|].
  rewrite rev_app_distr in Hi. cbn [rev app insertion] in Hi. rewrite length_app. cbn [length].
  destruct (contains r x) eqn:Hc.
  - cbn [length] in Hi. rewrite length_rev in Hi. subst i. split_and!; [|right|lia].
    + intros j y Hy%lookup_lt_Some Hj. rewrite length_app in Hy. cbn in Hy. lia.
    + exists x. split; [|by rewrite Hc]. replace (S (length rs) - 1)%nat with (length rs) by lia.
      by apply list_lookup_middle.
  - destruct (IH i Hi) as (Hafter & Hat & Hle). split_and!; [| |lia].
    + intros j y Hy Hj. destruct (decide (j = length rs)) as [->|].
      * rewrite list_lookup_middle in Hy by done. injection Hy as <-. rewrite Hc. by intros [].
      * eapply Hafter; [|done]. rewrite lookup_app_l in Hy; [done|]. apply lookup_lt_Some in Hy.
        rewrite length_app in Hy. cbn in Hy. lia.
    + destruct Hat as [->|(y & Hy & ?)]; [by left|right]. exists y. split; [|done].
      by apply lookup_app_l_Some.
Qed.

Lemma ordered_lookup rs i j a b :
  ordered rs -> (i < j)%nat -> rs !! i = Some a -> rs !! j = Some b -> contains a b -> a = b.
Proof.
  intros H. revert i j. induction H as [|x rs _ IH Hx]; intros i j Hij Ha Hb Hc; [done|].
  destruct j as [|j]; [lia|]. destruct i as [|i]; [|apply (IH i j); (done || lia)].
  injection Ha as ->. rewrite Forall_forall in Hx. apply Hx; [by eapply list_elem_of_lookup_2|done].
Qed.

Lemma insertion_ordered r rs :
  ordered rs -> let i := insertion r (rev rs) in ordered (take i rs ++ r :: drop i rs).
Proof.
  intros Ho i. destruct (insertion_spec r rs i eq_refl) as (Hafter & Hat & Hle). clearbody i.
  pose proof Ho as Hs. rewrite <- (take_drop i rs) in Hs. apply StronglySorted_app in Hs as (Hlr & Hl & Hr).
  apply StronglySorted_app_2; [|done|].
  - intros x y Hx [->|Hy]%elem_of_cons; [|by apply Hlr].
    intros Hc. apply list_elem_of_lookup_1 in Hx as [k Hk].
    pose proof (lookup_lt_Some _ _ _ Hk) as Hlt. rewrite length_take in Hlt.
    rewrite lookup_take_lt in Hk by lia. destruct Hat as [E|(z & Hz & Hrz)]; [lia|].
    apply contains_antisym; [done|]. destruct (decide (k = i - 1)%nat) as [->|]; [congruence|].
    assert (x = z) as -> by (eapply (ordered_lookup rs k (i - 1)); [done|lia|done|done|by eapply contains_trans]).
    done.
  - constructor; [done|]. apply Forall_forall. intros x [k Hk]%list_elem_of_lookup Hc.
    rewrite lookup_drop in Hk. exfalso. eapply Hafter; [done|lia|done].
Qed.

Section Insertion.
Context (fuel : nat) (w : World) (g : ptr) (l : list ptr) (ss : list Z).
Hypothesis Hud : up_to_date fuel w g l ss.

Lemma plain_length i : (forall d ts, m_class i <> CSwitch d ts) -> GetInstructionLength i = GetInstructionSize i.
Proof using.
  intros Hc. unfold GetInstructionLength, GetInstructionSize. destruct (opinfo _); [|done..].
  cbn [obind]. destruct (m_class i); try done. by edestruct Hc.
Qed.

Lemma IsExisting_run ex new r r' :
  ranged w l ss ex r' -> ranged w l ss new r ->
  settled w (IsExistingTryContainedWithinNewTry fuel ex new) (contains r r').
Proof using Hud.
  intros (tf & tl & ptf & ptl & i & Htf & Htl & Etf & Etl & Hi & Hci & ->)
    (tf2 & tl2 & ptf2 & ptl2 & i2 & Htf2 & Htl2 & Etf2 & Etl2 & Hi2 & Hci2 & ->).
  assert (forall k p j, l !! k = Some p -> w_instr w !! p = Some j -> (forall d ts, m_class j <> CSwitch d ts) ->
    settled w (lift (GetInstructionLength j)) (pos_of ss (S k) - pos_of ss k)) as Hlen.
  { intros k p j Hk Hj Hcj. rewrite plain_length by done. by eapply settled_size. }
  unfold IsExistingTryContainedWithinNewTry. rewrite Etf, Etl, Etf2, Etl2. cbn [deref].
  sstep. eapply settled_bind; [by eapply settled_pos|]. sstep. eapply settled_bind; [by eapply settled_pos|].
  sstep. eapply settled_bind; [exact (Hlen tl2 ptl2 i2 Htl2 Hi2 Hci2)|].
  sstep. eapply settled_bind; [by eapply settled_pos|]. sstep. eapply settled_bind; [by eapply settled_pos|].
  sstep. eapply settled_bind; [exact (Hlen tl ptl i Htl Hi Hci)|].
  destruct (pos_range _ _ _ _ _ Hud _ _ Htl) as (? & _ & ? & ? & ? & ?).
  destruct (pos_range _ _ _ _ _ Hud _ _ Htl2) as (? & _ & ? & ? & ? & ?).
  rewrite !Zplus_minus, !u32_small by (unfold is_u32; lia). unfold contains. cbn [fst snd]. apply settled_ret.
Qed.

Lemma find_reverse_run new r cs rs :
  Forall2 (fun c r' => exists cl, w_clause w !! c = Some cl /\ ranged w l ss cl r') cs rs -> ranged w l ss new r ->
  settled w (find_reverse fuel cs new) (insertion r rs).
Proof using Hud.
  intros H Hr. induction H as [|c r' cs rs (cl & Hc & Hr') Hf IH]; [apply settled_ret|].
  cbn [find_reverse insertion]. eapply settled_bind; [by apply settled_load_clause|].
  eapply settled_bind; [by apply IsExisting_run|].
  destruct (contains r r'); [|exact IH]. cbn [length]. rewrite (Forall2_length _ _ _ Hf). apply settled_ret.
Qed.

End Insertion.

(** C15: [AddNewExceptionClause] keeps the order that the runtime requires: in a
    section of an up-to-date graph where every clause comes after those whose try
    block its own contains, the new clause is inserted at a place where this still
    holds; the other clauses, their order and the instructions are unchanged. *)
Theorem AddNewExceptionClause_ordered fuel w g l ss m cs rs flags tf tl hf hl ff tok r :
  let new := mkClause flags tf tl hf hl ff tok in
  up_to_date fuel w g l ss -> section_of w m cs ->
  Forall2 (fun c r' => exists cl, w_clause w !! c = Some cl /\ ranged w l ss cl r') cs rs ->
  ranged w l ss new r -> ordered rs ->
  exists p w' i, AddNewExceptionClause fuel m flags tf tl hf hl ff tok w = (Ok p, w') /\
    section_of w' m (take i cs ++ p :: drop i cs) /\ w_clause w' = <[p := new]> (w_clause w) /\
    w_clause w !! p = None /\ w_instr w' = w_instr w /\
    ordered (take i rs ++ r :: drop i rs).
Proof.
  intros new Hud (mi & Hm & Hcs) Hrs Hr Ho. set (i := insertion r (rev rs)).
  assert (settled w (find_reverse fuel (rev cs) new) i) as Hfind.
  { eapply (find_reverse_run fuel w g l ss Hud); [|exact Hr]. rewrite !rev_alt. exact (Forall2_reverse _ _ _ Hrs). }
  destruct (Hfind w) as (w1 & Hw1 & H1); [reflexivity|]. set (p := fresh (dom (w_clause w1))).
  exists p. eexists. exists i. unfold AddNewExceptionClause, FindExceptionClauseInsertionPoint, GetExceptionSection.
  rewrite bind_bind. unfold load_method, bind at 1. rewrite Hm. cbn [of_option].
  rewrite Hcs, (run_bind _ _ _ _ _ (eq_refl : if_null_ret (Some cs) E_FAIL w = _)).
  fold new. rewrite (run_bind _ _ _ _ _ Hw1). split; [reflexivity|]. cbn. split_and!.
  - eexists. cbn. rewrite lookup_alter_eq, (of_method _ _ H1), Hm. split; [reflexivity|done].
  - exact (f_equal (insert p new) (of_clause _ _ H1)).
  - rewrite <- (of_clause _ _ H1). apply not_elem_of_dom, is_fresh.
  - apply (of_instr _ _ H1).
  - by apply insertion_ordered.
Qed.

Lemma AddNewExceptionClause_ordered_witness : exists p w' i,
  AddNewExceptionClause 4 1 0 (Some 2%positive) (Some 2%positive) (Some 4%positive) (Some 4%positive) None
    0x01000001 placed_demo = (Ok p, w') /\
  section_of w' 1 (take i [1%positive] ++ p :: drop i [1%positive]) /\
  ordered (take i [(0, 4)] ++ (1, 3) :: drop i [(0, 4)]).
Proof.
  assert (forall cl k n p q i, [1; 2; 3; 4]%positive !! k = Some p -> [1; 2; 3; 4]%positive !! n = Some q ->
    m_pTryFirstInstruction cl = Some p -> m_pTryLastInstruction cl = Some q -> w_instr placed_demo !! q = Some i ->
    (forall d ts, m_class i <> CSwitch d ts) ->
    ranged placed_demo [1; 2; 3; 4]%positive [1; 2; 1; 1] cl (pos_of [1; 2; 1; 1] k, pos_of [1; 2; 1; 1] (S n)))
    as Hr by (intros; repeat eexists; eassumption).
  destruct (AddNewExceptionClause_ordered 4 placed_demo 1 _ _ 1 [1%positive] [(0, 4)] 0 (Some 2%positive)
    (Some 2%positive) (Some 4%positive) (Some 4%positive) None 0x01000001 (1, 3) placed_demo_up_to_date)
    as (p & w' & i & H & Hs & _ & _ & _ & Ho).
  - eexists. split; vm_compute; reflexivity.
  - constructor; [|constructor]. eexists. split; [vm_compute; reflexivity|].
    eapply (Hr _ 0%nat 2%nat); try (vm_compute; reflexivity). cbn. done.
  - eapply (Hr _ 1%nat 1%nat); try (vm_compute; reflexivity). cbn. done.
  - repeat constructor.
  - by exists p, w', i.
Defined.
