(* ===== verification/ILMap.v ===== *)
(** IL maps: [CMethodInfo::MergeILInstrumentedCodeMap], the store of maps of a
    module, and [CInstructionGraph::CreateBaseline], which gives a method a new
    starting point. *)
From S2P Require Import Prelude ILOpcodes Instruction CorHeaders Store Chain BranchTargets Clauses Demo Graph GraphSpec Codec LinkSpec.

(** ** Merging *)

(** The index of the old entries by their new offset: a later entry replaces an
    earlier one. *)
Definition index_by_new (l : list COR_IL_MAP) : gmap Z COR_IL_MAP :=
  fold_left (fun idx e => <[newOffset e := e]> idx) l ∅.

(** The loop over the new entries: the entries that are kept, and the caller's
    array, which is changed in place. *)
Fixpoint convert_entries (idx : gmap Z COR_IL_MAP) (rg : list COR_IL_MAP) : list COR_IL_MAP * list COR_IL_MAP :=
  match rg with
  | [] => ([], [])
  | e :: rg' =>
      let '(updated, after) := convert_entries idx rg' in
      match idx !! oldOffset e with
      | Some o => let e' := mkILMap (oldOffset o) (newOffset e) (fAccurate e) in (e' :: updated, e' :: after)
      | None => (updated, e :: after)
      end
  end.

(** [CModuleInfo::SetILInstrumentationMap], on the key of the method [m]; the
    [HRESULT] of [GetFunctionId], which fails when the id is 0, is dropped. *)
Definition SetILInstrumentationMap (m : ptr) : W unit :=
  mi <- load_method m ;;
  let functionId := if m_bIsRejit (m_render mi) then 0 else m_functionId (m_render mi) in
  modify (on_ilMaps (insert (m_tkFunction (m_render mi), functionId) (m_pCorILMap mi))).

(** [CMethodInfo::MergeILInstrumentedCodeMap] on an array of the caller, or, when
    [same] is set, on the array that the method already holds; the result is the
    contents of that array afterwards. *)
Definition MergeILInstrumentedCodeMap (m : ptr) (same : bool) (rg : list COR_IL_MAP) : W (list COR_IL_MAP) :=
  mi <- load_method m ;;
  after <- (match m_pCorILMap mi with
            | [] => update_method m (set_corILMap rg) ;;; ret rg
            | old =>
                if same then ret rg
                else
                  let '(updated, after) := convert_entries (index_by_new old) rg in
                  update_method m (set_corILMap updated) ;;; ret after
            end) ;;
  SetILInstrumentationMap m ;;;
  ret after.

(** [CModuleInfo::GetILInstrumentationMap] for a method that was jitted as
    [functionId], or rejitted: the size of the map ([ULONG32]) and the entries that
    are copied to a buffer of [cMap] entries (0 when there is no buffer).  A method
    without a map has an empty one. *)
Definition GetILInstrumentationMap (tkFunction functionId : Z) (isRejit : bool) (cMap : Z) :
    W (Z * list COR_IL_MAP) :=
  maps <- gets w_ilMaps ;;
  match maps !! (tkFunction, if isRejit then 0 else functionId) with
  | None => ret (0, [])
  | Some map => ret (u32 (Z.of_nat (length map)), take (Z.to_nat (Z.min cMap (Z.of_nat (length map)))) map)
  end.

(** ** Baselines *)

(** The loop of [CreateBaseline] over the new instructions. *)
Fixpoint mark_baseline (fuel : nat) (pCurr : option ptr) : W unit :=
  match pCurr with
  | None => ret tt
  | Some p =>
      match fuel with
      | O => out_of_fuel
      | S fuel' =>
          SetInstructionGeneration p Generation_Baseline ;;;
          i <- load p ;;
          mark_baseline fuel' (m_pNextInstruction i)
      end
  end.

(** [CInstructionGraph::CreateBaseline] on the code [code] and the contents of the
    two arrays.  A resize to a size of 0 is not made, so the maps of an earlier
    value stay. *)
Definition CreateBaseline (fuel : nat) (g : ptr) (code : list Z)
    (originalToBaselineCorIlMap : list COR_IL_MAP) (baselineSequencePointList : list Z) : W unit :=
  if_false_ret (0 <? Z.of_nat (length code)) E_INVALIDARG ;;;
  gr <- load_graph g ;;
  if_false_ret (bool_decide (m_pUninstrumentedFirstInstruction gr = None)) E_UNEXPECTED ;;;
  m <- deref (m_pMethodInfo gr) ;;
  mi <- load_method m ;;
  if_false_ret (m_bIsCreateBaselineEnabled mi) E_FAIL ;;;
  if_false_ret (negb (m_bHasBaselineBeenSet gr)) E_FAIL ;;;
  update_graph g (set_baselineSet true) ;;;
  RemoveAll g fuel ;;;
  update_graph g (fun gr => set_orig None None
    (set_uninstrumented (m_pOrigFirstInstruction gr) (m_pOrigLastInstruction gr) gr)) ;;;
  DecodeInstructions fuel g code ;;;
  gr <- load_graph g ;;
  mark_baseline fuel (m_pOrigFirstInstruction gr) ;;;
  (match originalToBaselineCorIlMap with
   | [] => ret tt
   | l => update_graph g (fun gr => set_baselineMaps l (m_baselineIlMap gr) gr)
   end) ;;;
  match baselineSequencePointList with
  | [] => ret tt
  | l =>
      let map := map (fun o => mkILMap o o true) l in
      update_graph g (fun gr => set_baselineMaps (m_originalToBaselineIlMap gr) map gr) ;;;
      after <- MergeILInstrumentedCodeMap m false map ;;
      update_graph g (fun gr => set_baselineMaps (m_originalToBaselineIlMap gr) after gr)
  end.

(** ** What merging means

    A map relates an offset of the original code to an offset of the new one. *)
Definition related (l : list COR_IL_MAP) (a c : Z) : Prop :=
  exists e, e ∈ l /\ oldOffset e = a /\ newOffset e = c.

Lemma index_by_new_lookup l k e : index_by_new l !! k = Some e -> e ∈ l /\ newOffset e = k.
Proof.
  unfold index_by_new. induction l as [|x l IH] using rev_ind; [done|]. rewrite fold_left_app. cbn.
  destruct (decide (newOffset x = k)) as [<-|Hk].
  - rewrite lookup_insert_eq. intros [= <-]. set_solver.
  - rewrite lookup_insert_ne by done. intros [? ?]%IH. set_solver.
Qed.

Lemma index_by_new_elem l e :
  NoDup (map newOffset l) -> e ∈ l -> index_by_new l !! newOffset e = Some e.
Proof.
  intros Hnd He. unfold index_by_new. induction l as [|x l IH] using rev_ind; [set_solver|].
  rewrite map_app in Hnd. cbn in Hnd. apply NoDup_app in Hnd as (Hnd & Hx & _).
  rewrite fold_left_app. cbn. apply elem_of_app in He as [He| ->%list_elem_of_singleton].
  - rewrite lookup_insert_ne; [by apply IH|]. intros E. apply (Hx (newOffset x)); [|set_solver].
    rewrite E. by apply list_elem_of_fmap_2.
  - apply lookup_insert_eq.
Qed.

Lemma convert_entries_spec idx rg updated after :
  convert_entries idx rg = (updated, after) ->
  (forall a c, related updated a c <-> exists e o, e ∈ rg /\ idx !! oldOffset e = Some o /\
     oldOffset o = a /\ newOffset e = c) /\
  map newOffset updated `sublist_of` map newOffset rg /\ map newOffset after = map newOffset rg.
Proof.
  revert updated after. induction rg as [|e rg IH]; intros u r H; cbn in H.
  { injection H as <- <-. split_and!; [|done|done]. intros a c. unfold related. set_solver. }
  destruct (convert_entries idx rg) as [u' r'] eqn:E. destruct (IH _ _ eq_refl) as (H1 & H2 & H3).
  destruct (idx !! oldOffset e) as [o|] eqn:Ho; injection H as <- <-; cbn [map newOffset];
    (split_and!; [|try (by constructor); try (by apply sublist_skip)|by rewrite H3]); intros a c.
  - split.
    + intros (x & [->|Hx]%elem_of_cons & Ha & Hc); [exists e, o; set_solver|].
      destruct (proj1 (H1 a c)) as (e' & o' & ? & ?); [by exists x|]. exists e', o'. set_solver.
    + intros (e' & o' & [->|He']%elem_of_cons & Hi & Ha & Hc).
      * rewrite Ho in Hi. injection Hi as <-. eexists. split; [apply list_elem_of_here|done].
      * destruct (proj2 (H1 a c)) as (x & ? & ?); [by exists e', o'|]. exists x. set_solver.
  - rewrite H1. split; intros (e' & o' & He' & Hi & ?); exists e', o'; [set_solver|].
    apply elem_of_cons in He' as [->|He']; [congruence|done].
Qed.

(** The key of a method in its module. *)
Definition method_key (mi : CMethodInfo) : Z * Z :=
  (m_tkFunction (m_render mi), if m_bIsRejit (m_render mi) then 0 else m_functionId (m_render mi)).

(** One merge, on every branch. *)
Definition merged (old : list COR_IL_MAP) (same : bool) (rg : list COR_IL_MAP) : list COR_IL_MAP * list COR_IL_MAP :=
  match old with
  | [] => (rg, rg)
  | _ => if same then (old, rg) else convert_entries (index_by_new old) rg
  end.

Lemma Merge_run m same rg w (mi : CMethodInfo) :
  w_method w !! m = Some mi ->
  let map_after := merged (m_pCorILMap mi) same rg in
  MergeILInstrumentedCodeMap m same rg w =
    (Ok (snd map_after),
     on_ilMaps (insert (method_key mi) (fst map_after)) (on_method (alter (set_corILMap (fst map_after)) m) w)).
Proof.
  intros Hm map_after. subst map_after. unfold merged, MergeILInstrumentedCodeMap, load_method, bind at 1. rewrite Hm. cbn [of_option].
  assert (forall l, SetILInstrumentationMap m (on_method (alter (set_corILMap l) m) w) =
    (Ok tt, on_ilMaps (insert (method_key mi) l) (on_method (alter (set_corILMap l) m) w))) as Hset.
  { intros l. unfold SetILInstrumentationMap, load_method, bind, modify, method_key. cbn.
    rewrite lookup_alter_eq, Hm. by destruct mi. }
  destruct (m_pCorILMap mi) as [|o old] eqn:E.
  - rewrite bind_bind. cbn [fst snd]. erewrite run_bind by reflexivity. erewrite run_bind by reflexivity.
    by rewrite (run_bind _ _ _ _ _ (Hset _)).
  - destruct same; cbn [fst snd].
    + erewrite run_bind by reflexivity. rewrite <- E.
      unfold SetILInstrumentationMap, load_method, bind, modify, method_key. rewrite Hm. cbn.
      unfold on_method, on_ilMaps. cbn. rewrite (alter_id _ (w_method w)); [done|].
      intros x Hx. rewrite Hm in Hx. injection Hx as <-. by destruct mi.
    + destruct (convert_entries _ rg) as [u r] eqn:Ec. rewrite bind_bind. erewrite run_bind by reflexivity.
      erewrite run_bind by reflexivity. by rewrite (run_bind _ _ _ _ _ (Hset _)).
Qed.

(** C36: [MergeILInstrumentedCodeMap] composes: when the method has a map, whose new
    offsets are distinct, and the caller gives the map of a second rewriting, the
    method ends up with the relational composition of the two, which
    [GetILInstrumentationMap] then returns for it; the entries stay in the order of
    the second map, and of the caller's array only old offsets change. *)
Theorem Merge_composes m w mi rg :
  w_method w !! m = Some mi -> m_pCorILMap mi <> [] -> NoDup (map newOffset (m_pCorILMap mi)) ->
  exists after l w', MergeILInstrumentedCodeMap m false rg w = (Ok after, w') /\
    w_method w' !! m = Some (set_corILMap l mi) /\
    (forall a c, related l a c <-> exists b, related (m_pCorILMap mi) a b /\ related rg b c) /\
    map newOffset l `sublist_of` map newOffset rg /\ map newOffset after = map newOffset rg /\
    GetILInstrumentationMap (m_tkFunction (m_render mi)) (m_functionId (m_render mi)) (m_bIsRejit (m_render mi))
      (Z.of_nat (length l)) w' = (Ok (u32 (Z.of_nat (length l)), l), w') /\
    w_instr w' = w_instr w /\ w_graph w' = w_graph w /\ w_clause w' = w_clause w.
Proof.
  intros Hm Hne Hnd. destruct (convert_entries (index_by_new (m_pCorILMap mi)) rg) as [l after] eqn:E.
  destruct (convert_entries_spec _ _ _ _ E) as (Hrel & Hsub & Hafter).
  assert (merged (m_pCorILMap mi) false rg = (l, after)) as Hmg by (unfold merged; by destruct (m_pCorILMap mi)).
  pose proof (Merge_run m false rg w mi Hm) as Hrun. cbv zeta in Hrun. rewrite Hmg in Hrun.
  exists after, l. eexists. split; [exact Hrun|]. cbn [fst]. split_and!; try done.
  - cbn. by rewrite lookup_alter_eq, Hm.
  - intros a c. rewrite Hrel. split.
    + intros (e & o & He & Ho & Ha & Hc). apply index_by_new_lookup in Ho as [Hin Ho].
      exists (newOffset o). split; [by exists o|]. exists e. by split_and!.
    + intros (b & (o & Hin & Ha & Hb) & (e & He & Hb' & Hc)). exists e, o. split_and!; try done.
      rewrite Hb', <- Hb. by apply index_by_new_elem.
  - unfold GetILInstrumentationMap, bind, gets. cbn. fold (method_key mi). unfold method_key at 1.
    rewrite lookup_insert_eq. unfold ret. do 3 f_equal. apply firstn_all2. lia.
Qed.

Definition merge_world : World := mkWorld ∅ ∅ ∅
  {[ 1%positive := mkMethod None true [mkILMap 0 0 true; mkILMap 3 8 true] (new_render 7 0x06000001 false) ]} ∅.

Lemma Merge_composes_witness : exists after l w',
  MergeILInstrumentedCodeMap 1 false [mkILMap 8 20 true; mkILMap 5 30 true] merge_world = (Ok after, w') /\
  m_pCorILMap <$> w_method w' !! 1%positive = Some l /\ related l 3 20.
Proof.
  destruct (Merge_composes 1 merge_world _ [mkILMap 8 20 true; mkILMap 5 30 true] eq_refl)
    as (after & l & w' & H & Hm & Hr & _).
  - discriminate.
  - apply (bool_decide_unpack _). vm_compute. exact I.
  - exists after, l, w'. split; [exact H|]. split; [by rewrite Hm|]. apply Hr. exists 8.
    split; [exists (mkILMap 3 8 true)|exists (mkILMap 8 20 true)]; (split; [cbn; set_solver|split; reflexivity]).
Defined.

(** a merge whose result is empty is forgotten: when no entry of the second map
    starts at a new offset of the first, the method is left without a map, and the
    next map that is merged is taken as it is, so that offsets of instrumented code
    are reported as offsets of the original code. *)
Theorem Merge_empty_forgets m w mi rg1 rg2 :
  w_method w !! m = Some mi -> m_pCorILMap mi <> [] ->
  (forall e o, e ∈ rg1 -> o ∈ m_pCorILMap mi -> oldOffset e <> newOffset o) ->
  exists w', (MergeILInstrumentedCodeMap m false rg1 ;;; MergeILInstrumentedCodeMap m false rg2) w = (Ok rg2, w') /\
    w_method w' !! m = Some (set_corILMap rg2 mi).
Proof.
  intros Hm Hne Hno. destruct (convert_entries (index_by_new (m_pCorILMap mi)) rg1) as [l after] eqn:E.
  destruct (convert_entries_spec _ _ _ _ E) as (Hrel & _).
  assert (l = []) as ->.
  { destruct l as [|x l]; [done|]. destruct (proj1 (Hrel (oldOffset x) (newOffset x))) as (e & o & He & Ho & _).
    - exists x. split; [apply list_elem_of_here|done].
    - apply index_by_new_lookup in Ho as [Hin Ho]. exfalso. by apply (Hno e o). }
  pose proof (Merge_run m false rg1 w mi Hm) as Hrun. cbv zeta in Hrun. unfold merged in Hrun. rewrite E in Hrun.
  destruct (m_pCorILMap mi) eqn:Ec; [done|]. rewrite (run_bind _ _ _ _ _ Hrun). cbn [fst].
  match goal with |- context [MergeILInstrumentedCodeMap m false rg2 ?w1] =>
    pose proof (Merge_run m false rg2 w1 (set_corILMap [] mi)) as H2 end.
  assert (m_pCorILMap (set_corILMap [] mi) = []) as E0 by (by destruct mi). cbv zeta in H2. rewrite E0 in H2.
  eexists. split; [apply H2|]; cbn; rewrite !lookup_alter_eq, Hm; [done|]. by destruct mi.
Qed.

Lemma Merge_empty_forgets_witness : exists w',
  (MergeILInstrumentedCodeMap 1 false [mkILMap 5 30 true] ;;;
   MergeILInstrumentedCodeMap 1 false [mkILMap 30 40 true]) merge_world = (Ok [mkILMap 30 40 true], w') /\
  m_pCorILMap <$> w_method w' !! 1%positive = Some [mkILMap 30 40 true].
Proof.
  destruct (Merge_empty_forgets 1 merge_world _ [mkILMap 5 30 true] [mkILMap 30 40 true] eq_refl)
    as (w' & H & Hm).
  - discriminate.
  - intros e o ->%list_elem_of_singleton Ho. vm_compute in Ho.
    apply elem_of_cons in Ho as [->|[->|Ho]%elem_of_cons]; [discriminate|discriminate|set_solver].
  - exists w'. split; [exact H|by rewrite Hm].
Defined.
