(* ===== verification/BaselineSpec.v ===== *)
(** What [CreateBaseline] promises: the graph is the disassembly of the new code,
    the instructions that were there are kept for lookups by original offset, and it
    succeeds once. *)
From S2P Require Import Prelude ILOpcodes Instruction CorHeaders Store Chain BranchTargets Retarget Clauses Demo Offsets Graph GraphSpec Codec CodecSpec DecodeSpec LinkSpec Frame ILMap.

(** ** Classes and generations *)

Definition same_classes (w w' : World) : Prop :=
  forall p, m_class <$> w_instr w' !! p = m_class <$> w_instr w !! p.

#[export] Instance same_classes_preorder : PreOrder same_classes.
Proof. split; [done|]. intros w1 w2 w3 H1 H2 p. by rewrite H2, H1. Qed.

Lemma scl_update p f : (forall i, m_class (f i) = m_class i) -> Preserves same_classes (update p f).
Proof.
  intros Hf w q. cbn. rewrite lookup_alter. case_decide as Hq; [subst q|done].
  destruct (w_instr w !! p); cbn; [by rewrite Hf|done].
Qed.

#[export] Instance scl_load p : Preserves same_classes (load p).
Proof. done. Qed.
#[export] Instance scl_load_graph g : Preserves same_classes (load_graph g).
Proof. done. Qed.
#[export] Instance scl_load_method m : Preserves same_classes (load_method m).
Proof. done. Qed.
#[export] Instance scl_update_graph g f : Preserves same_classes (update_graph g f).
Proof. done. Qed.
#[export] Instance scl_update_method m f : Preserves same_classes (update_method m f).
Proof. done. Qed.
#[export] Instance scl_SetIsRemoved p : Preserves same_classes (SetIsRemoved p).
Proof. apply scl_update. by intros []. Qed.
#[export] Instance scl_SetNext p q b : Preserves same_classes (SetNextInstruction p q b).
Proof. apply scl_update. intros []. cbn. by case_match. Qed.
#[export] Instance scl_SetPrev p q b : Preserves same_classes (SetPreviousInstruction p q b).
Proof. apply scl_update. intros []. cbn. by case_match. Qed.
#[export] Instance scl_SetGeneration p v : Preserves same_classes (SetInstructionGeneration p v).
Proof. apply scl_update. by intros []. Qed.
#[export] Instance scl_remove_all_loop n p : Preserves same_classes (remove_all_loop n p).
Proof. revert p. induction n; intros []; cbn [remove_all_loop]; pres. Qed.
#[export] Instance scl_RemoveAll g n : Preserves same_classes (RemoveAll g n).
Proof. unfold RemoveAll, RemoveAllExceptionClauses, GetExceptionSection. pres. Qed.

Lemma same_classes_closed w w' : same_classes w w' -> closed w -> closed w'.
Proof.
  intros H Hcl p c t Hc Ht. unfold class_of in Hc. rewrite H in Hc. destruct (Hcl p c t Hc Ht) as [i Hi].
  specialize (H t). rewrite Hi in H. destruct (w_instr w' !! t); [eauto|done].
Qed.

(** [RemoveAll] changes the ends of the graph's list only, and clauses of methods. *)
Definition inside (gr : CInstructionGraph) : CInstructionGraph := set_last None (set_first None gr).

Record emptied (w w' : World) : Prop := {
  em_graph : forall h, inside <$> w_graph w' !! h = inside <$> w_graph w !! h;
  em_maps : w_ilMaps w' = w_ilMaps w;
  em_method : forall m, set_clauses [] <$> w_method w' !! m = set_clauses [] <$> w_method w !! m
}.

#[export] Instance emptied_preorder : PreOrder emptied.
Proof. split; [by split|]. intros w1 w2 w3 [] []. split; intros; congruence. Qed.

#[export] Instance em_load p : Preserves emptied (load p).
Proof. by split. Qed.
#[export] Instance em_load_graph g : Preserves emptied (load_graph g).
Proof. by split. Qed.
#[export] Instance em_load_method m : Preserves emptied (load_method m).
Proof. by split. Qed.
#[export] Instance em_update p f : Preserves emptied (update p f).
Proof. by split. Qed.
#[export] Instance em_remove_all_loop n p : Preserves emptied (remove_all_loop n p).
Proof.
  revert p. induction n; intros []; cbn [remove_all_loop];
    unfold SetIsRemoved, SetNextInstruction, SetPreviousInstruction; pres.
Qed.
#[export] Instance em_RemoveAll g n : Preserves emptied (RemoveAll g n).
Proof.
  unfold RemoveAll, RemoveAllExceptionClauses, GetExceptionSection. pres.
  - intros w. split; try done. intros h. cbn. rewrite lookup_alter. case_decide as Hh; [subst h|done].
    by destruct (w_graph w !! g) as [[]|].
  - intros w. split; try done. intros n'. cbn. rewrite lookup_alter. case_decide as Hn; [subst n'|done].
    by destruct (w_method w !! p) as [[]|].
Qed.

Lemma graph_eq (f : CInstructionGraph -> CInstructionGraph) (w w' : World) g gr :
  (forall h, f <$> w_graph w' !! h = f <$> w_graph w !! h) -> w_graph w !! g = Some gr ->
  exists gr', w_graph w' !! g = Some gr' /\ f gr' = f gr.
Proof.
  intros H Hgr. specialize (H g). rewrite Hgr in H. destruct (w_graph w' !! g) as [gr'|]; [|done].
  injection H as H. eauto.
Qed.

(** ** The loop over the new instructions *)

Lemma mark_baseline_run l : forall n a w,
  segment (w_instr w) a l None -> NoDup l -> (length l <= n)%nat ->
  exists w', mark_baseline n (first_or l None) w = (Ok tt, w') /\ rest w w' /\ w_graph w' = w_graph w /\
    forall p, w_instr w' !! p =
      (if decide (p ∈ l) then set_generation Generation_Baseline <$> w_instr w !! p else w_instr w !! p).
Proof.
  induction l as [|p l IH]; intros n a w Hs Hnd Hn.
  { exists w. split; [by destruct n|]. split_and!; [done|done|]. intros p. by rewrite decide_False by set_solver. }
  destruct n as [|n]; [cbn in Hn; lia|]. apply NoDup_cons in Hnd as [Hp Hnd].
  destruct Hs as [(i & Hi & Hprev & Hnext) Hs]. cbn [first_or mark_baseline].
  unfold SetInstructionGeneration. erewrite run_bind by apply run_update.
  set (w1 := on_instr (alter (set_generation Generation_Baseline) p) w).
  assert (w_instr w1 !! p = Some (set_generation Generation_Baseline i)) as Hi1 by (cbn; by rewrite lookup_alter_eq, Hi).
  rewrite (run_bind _ _ _ _ _ (run_load _ _ _ Hi1)).
  replace (m_pNextInstruction (set_generation Generation_Baseline i)) with (first_or l None) by (by destruct i).
  destruct (IH n (Some p) w1) as (w2 & Hw2 & Hr & Hg & Hin); [|done|cbn in Hn; lia|].
  - by apply segment_alter_notin.
  - exists w2. split; [done|]. split_and!; [transitivity w1; [by split|done]|by rewrite Hg|].
    intros q. rewrite Hin. cbn [w1 on_instr w_instr]. rewrite lookup_alter. destruct (decide (q = p)) as [->|Hq].
    + rewrite decide_False, (decide_True (P := p = p)), (decide_True (P := p ∈ p :: l)); set_solver.
    + rewrite (decide_False (P := p = q)) by done. apply decide_ext. rewrite elem_of_cons. tauto.
Qed.

Lemma marked_graph_list w w' g l :
  (forall p, w_instr w' !! p =
    (if decide (p ∈ l) then set_generation Generation_Baseline <$> w_instr w !! p else w_instr w !! p)) ->
  (exists gr gr', w_graph w !! g = Some gr /\ w_graph w' !! g = Some gr' /\
     m_pFirstInstruction gr' = m_pFirstInstruction gr /\ m_pLastInstruction gr' = m_pLastInstruction gr) ->
  graph_list w g l -> graph_list w' g l.
Proof.
  intros Hin (gr0 & gr' & Hgr & Hgr' & Ef & El) [(gr & Hgr0 & Hf & Hl) Hs Hnd Ho].
  rewrite Hgr in Hgr0. injection Hgr0 as <-. split; [|..|done|].
  - exists gr'. by rewrite Ef, El.
  - eapply segment_mono; [|done]. intros p a b Hp (i & Hi & Ha & Hb). exists (set_generation Generation_Baseline i).
    rewrite Hin, decide_True, Hi by done. by destruct i.
  - intros p. rewrite Ho. unfold owner. rewrite Hin. case_decide; [|done].
    by destruct (w_instr w !! p) as [[]|].
Qed.

(** ** CreateBaseline *)

(** The instructions [l] are the items, as the baseline. *)
Definition baseline_of (w : World) (l : list ptr) (items : list (Z * CInstruction)) : Prop :=
  length l = length items /\ forall k p it, l !! k = Some p -> items !! k = Some it ->
    exists j, w_instr w !! p = Some j /\ m_opcode j = m_opcode it.2 /\ m_origOffset j = it.1 /\
      m_offset j = it.1 /\ m_instructionGeneration j = Generation_Baseline.

Definition sequence_points (l : list Z) : list COR_IL_MAP := map (fun o => mkILMap o o true) l.

(** The guards of [CreateBaseline]. *)
Record baseline_allowed (w : World) (g m : ptr) (gr : CInstructionGraph) (mi : CMethodInfo) : Prop := {
  ba_graph : w_graph w !! g = Some gr;
  ba_method : m_pMethodInfo gr = Some m;
  ba_info : w_method w !! m = Some mi;
  ba_enabled : m_bIsCreateBaselineEnabled mi = true;
  ba_first : m_pUninstrumentedFirstInstruction gr = None;
  ba_unset : m_bHasBaselineBeenSet gr = false
}.

Section Create.
Context (fuel : nat) (g m : ptr) (code : list Z) (items : list (Z * CInstruction)).
Hypothesis Hbytes : Forall is_byte code.
Hypothesis Hlen : Z.of_nat (length code) < 2 ^ 31.
Hypothesis Hfuel : (length code < fuel)%nat.
Hypothesis Hitems : il_items code = Some items.
Hypothesis Hok : il_ok code = true.

(** From [RemoveAll] to the end of the loop. *)
Lemma baseline_decode w l cs gr :
  graph_list w g l -> closed w -> section_ok w (Some m) cs -> (length l <= fuel)%nat ->
  w_graph w !! g = Some gr -> m_pMethodInfo gr = Some m ->
  exists w' l' gr', (RemoveAll g fuel ;;;
      update_graph g (fun gr => set_orig None None
        (set_uninstrumented (m_pOrigFirstInstruction gr) (m_pOrigLastInstruction gr) gr)) ;;;
      DecodeInstructions fuel g code ;;;
      gr <- load_graph g ;; mark_baseline fuel (m_pOrigFirstInstruction gr)) w = (Ok tt, w') /\
    graph_list w' g l' /\ baseline_of w' l' items /\ w_graph w' !! g = Some gr' /\
    members gr' = members (set_uninstrumented (m_pOrigFirstInstruction gr) (m_pOrigLastInstruction gr) gr) /\
    (forall n, set_clauses [] <$> w_method w' !! n = set_clauses [] <$> w_method w !! n) /\
    m_exceptionClauses <$> w_method w' !! m = Some (Some []).
Proof using All.
  intros Hl Hcl Hsec Hlf Hgr Hm.
  assert (method_of w g = Some m) as Hmo by (unfold method_of; rewrite Hgr; exact Hm).
  destruct (RemoveAll_run w g l cs fuel Hl ltac:(by rewrite Hmo) Hlf) as (w1 & Hw1 & Hl1 & _ & Hmc).
  assert (emptied w w1) as Hem by (eapply preserves_run; [|exact Hw1]; apply _).
  assert (closed w1) as Hcl1.
  { eapply same_classes_closed; [|exact Hcl]. eapply preserves_run; [|exact Hw1]. apply _. }
  rewrite (run_bind _ _ _ _ _ Hw1). erewrite run_bind by apply run_update_graph.
  destruct (graph_eq inside w w1 g gr (em_graph _ _ Hem) Hgr) as (gr1 & Hgr1 & E1).
  set (w2 := on_graph _ w1).
  assert (w_graph w2 !! g = Some (set_orig None None
    (set_uninstrumented (m_pOrigFirstInstruction gr1) (m_pOrigLastInstruction gr1) gr1))) as Hgr2
    by (cbn; by rewrite lookup_alter_eq, Hgr1).
  destruct (DecodeInstructions_run g code items fuel w2 _ Hbytes Hlen Hfuel Hitems Hok Hcl1 Hgr2)
    as (w3 & l' & gr3 & Hw3 & Hl3 & [Hll (om & _ & Hrep)] & _ & Hgr3 & Hof & _).
  { intros q Hq. apply (gl_owned _ _ _ Hl1) in Hq. set_solver. }
  assert (rest w2 w3) as Hr3 by (eapply preserves_run; [|exact Hw3]; apply _).
  rewrite (run_bind _ _ _ _ _ Hw3), (run_bind _ _ _ _ _ (run_load_graph _ _ _ Hgr3)), Hof.
  assert (length l' <= fuel)%nat as Hlf'.
  { pose proof (contiguous_length _ _ _ (disassemble_contiguous _ Hbytes Hlen _ _ _ Hitems)). lia. }
  destruct (mark_baseline_run l' fuel None w3 (gl_segment _ _ _ Hl3) (gl_nodup _ _ _ Hl3) Hlf')
    as (w4 & Hw4 & Hr4 & Hg4 & Hin).
  exists w4, l', gr3. split; [exact Hw4|].
  pose proof (rs_method _ _ Hr3) as Em3. pose proof (rs_method _ _ Hr4) as Em4.
  split_and!.
  - eapply marked_graph_list; [exact Hin| |exact Hl3]. exists gr3, gr3. by rewrite Hg4.
  - split; [done|]. intros k p it Hk Hit. destruct (Hrep k p it Hk Hit) as (j & Hj & Hop & _ & Ho & Hof' & _).
    exists (set_generation Generation_Baseline j).
    rewrite Hin, decide_True, Hj by (by eapply list_elem_of_lookup_2). by destruct j.
  - by rewrite Hg4.
  - destruct (graph_eq members w2 w3 g _ (rs_graph _ _ Hr3) Hgr2) as (gr3' & Hgr3' & E3).
    rewrite Hgr3 in Hgr3'. injection Hgr3' as <-. rewrite E3. destruct gr, gr1. unfold inside in E1. cbn in E1 |- *. congruence.
  - intros n. rewrite Em4, Em3. apply Hem.
  - rewrite Em4, Em3. by apply Hmc.
Qed.

End Create.

(** A baseline is set once. *)
Lemma CreateBaseline_again fuel g w gr m mi code o2b sps :
  w_graph w !! g = Some gr -> m_pMethodInfo gr = Some m -> w_method w !! m = Some mi ->
  m_bHasBaselineBeenSet gr = true -> exists hr, CreateBaseline fuel g code o2b sps w = (Err hr, w).
Proof.
  intros Hgr Hm Hmi Hset. unfold CreateBaseline.
  destruct (0 <? Z.of_nat (length code)); [|by eexists]. cbn [if_false_ret].
  erewrite run_bind by reflexivity. rewrite (run_bind _ _ _ _ _ (run_load_graph _ _ _ Hgr)).
  destruct (bool_decide (m_pUninstrumentedFirstInstruction gr = None)); [|by eexists].
  erewrite run_bind by reflexivity. rewrite Hm. erewrite run_bind by reflexivity.
  erewrite run_bind by (unfold load_method; by rewrite Hmi).
  destruct (m_bIsCreateBaselineEnabled mi); [|by eexists]. erewrite run_bind by reflexivity.
  rewrite Hset. by eexists.
Qed.

Lemma members_fields gr gr' :
  members gr' = members gr -> m_pMethodInfo gr' = m_pMethodInfo gr /\
  m_pUninstrumentedFirstInstruction gr' = m_pUninstrumentedFirstInstruction gr /\
  m_pUninstrumentedLastInstruction gr' = m_pUninstrumentedLastInstruction gr /\
  m_originalToBaselineIlMap gr' = m_originalToBaselineIlMap gr /\
  m_baselineIlMap gr' = m_baselineIlMap gr /\ m_bHasBaselineBeenSet gr' = m_bHasBaselineBeenSet gr.
Proof. destruct gr, gr'. intros [= -> -> -> -> -> ->]. done. Qed.

(** Changes to graphs that are about neither the list nor its instructions. *)
Lemma graph_list_maps w g l f :
  (forall gr, m_pFirstInstruction (f gr) = m_pFirstInstruction gr /\ m_pLastInstruction (f gr) = m_pLastInstruction gr) ->
  graph_list w g l -> graph_list (on_graph (alter f g) w) g l.
Proof.
  intros Hf [(gr & Hgr & H1 & H2) Hs Hnd Ho]. split; [|done..]. exists (f gr). cbn. rewrite lookup_alter_eq, Hgr.
  destruct (Hf gr) as [-> ->]. done.
Qed.

(** The last part of [CreateBaseline], after the instructions. *)
Lemma baseline_maps w g l m mi gr o2b sps :
  graph_list w g l -> w_graph w !! g = Some gr -> w_method w !! m = Some mi ->
  exists w' gr' mi', (
    (match o2b with
     | [] => ret tt
     | _ => update_graph g (fun gr => set_baselineMaps o2b (m_baselineIlMap gr) gr)
     end) ;;;
    match sps with
    | [] => ret tt
    | _ =>
        let map := sequence_points sps in
        update_graph g (fun gr => set_baselineMaps (m_originalToBaselineIlMap gr) map gr) ;;;
        after <- MergeILInstrumentedCodeMap m false map ;;
        update_graph g (fun gr => set_baselineMaps (m_originalToBaselineIlMap gr) after gr)
    end) w = (Ok tt, w') /\
    w_instr w' = w_instr w /\ graph_list w' g l /\ w_graph w' !! g = Some gr' /\
    set_baselineMaps [] [] gr' = set_baselineMaps [] [] gr /\
    m_originalToBaselineIlMap gr' = (match o2b with [] => m_originalToBaselineIlMap gr | _ => o2b end) /\
    w_method w' !! m = Some mi' /\
    mi' = match sps with [] => mi | _ => set_corILMap (fst (merged (m_pCorILMap mi) false (sequence_points sps))) mi end.
Proof.
  intros Hl Hgr Hmi.
  set (w1 := match o2b with [] => w | _ => on_graph (alter (fun gr => set_baselineMaps o2b (m_baselineIlMap gr) gr) g) w end).
  assert (graph_list w1 g l /\ w_instr w1 = w_instr w /\ w_method w1 = w_method w /\ exists gr1, w_graph w1 !! g = Some gr1 /\
    set_baselineMaps [] [] gr1 = set_baselineMaps [] [] gr /\
    m_originalToBaselineIlMap gr1 = (match o2b with [] => m_originalToBaselineIlMap gr | _ => o2b end)) as (Hl1 & Hi1 & Hm1 & gr1 & Hgr1 & E1 & E1').
  { subst w1. destruct o2b as [|x o2b]; [split_and!; try done; by exists gr|].
    split_and!; [apply graph_list_maps; [by intros []|done]|done|done|].
    eexists. cbn. rewrite lookup_alter_eq, Hgr. split; [reflexivity|]. by destruct gr. }
  erewrite run_bind by (instantiate (1 := w1); by destruct o2b).
  destruct sps as [|s sps]; [exists w1, gr1, mi; by rewrite Hm1|].
  erewrite run_bind by apply run_update_graph. set (map := sequence_points (s :: sps)).
  set (w2 := on_graph (alter (fun gr => set_baselineMaps (m_originalToBaselineIlMap gr) map gr) g) w1).
  assert (w_method w2 !! m = Some mi) as Hm2 by (cbn; by rewrite Hm1).
  pose proof (Merge_run m false map w2 mi Hm2) as Hmg. cbv zeta in Hmg. rewrite (run_bind _ _ _ _ _ Hmg).
  rewrite run_update_graph. eexists _, _, _. split; [reflexivity|]. split; [done|]. split.
  { apply graph_list_maps; [by intros []|]. destruct (graph_list_maps w1 g l
      (fun gr => set_baselineMaps (m_originalToBaselineIlMap gr) map gr)) as [A B C D]; [by intros []|done|]. by split. }
  cbn. rewrite !lookup_alter_eq, Hgr1. split; [reflexivity|]. rewrite <- E1, <- E1'.
  split; [by destruct gr1|]. split; [by destruct gr1|]. by rewrite Hm1, Hmi.
Qed.

Lemma bind4_assoc {S A} (m1 m2 m3 : M S unit) (m4 : M S A) (m5 : A -> M S unit) (k : M S unit) s :
  (m1 ;;; m2 ;;; m3 ;;; x <- m4 ;; m5 x ;;; k) s = ((m1 ;;; m2 ;;; m3 ;;; x <- m4 ;; m5 x) ;;; k) s.
Proof. unfold bind. by repeat case_match; simplify_eq. Qed.

(** [CreateBaseline] on well-formed code, when it is allowed, replaces the graph
    by the disassembly of the code, marked as the baseline; what was the original
    code stays reachable as the uninstrumented instructions; the clauses of the
    method are gone, its IL map is the merge of the old one with the sequence points
    and the map of the caller is kept for lookups.  No later call succeeds or
    changes anything. *)
Theorem CreateBaseline_once fuel g m code items w l cs gr mi o2b sps :
  Forall is_byte code -> Z.of_nat (length code) < 2 ^ 31 -> (length code < fuel)%nat ->
  il_items code = Some items -> il_ok code = true ->
  baseline_allowed w g m gr mi -> graph_list w g l -> closed w -> section_ok w (Some m) cs -> (length l <= fuel)%nat ->
  exists w' l' gr' mi', CreateBaseline fuel g code o2b sps w = (Ok tt, w') /\
    graph_list w' g l' /\ baseline_of w' l' items /\ w_graph w' !! g = Some gr' /\ w_method w' !! m = Some mi' /\
    m_pUninstrumentedFirstInstruction gr' = m_pOrigFirstInstruction gr /\
    m_pUninstrumentedLastInstruction gr' = m_pOrigLastInstruction gr /\
    m_originalToBaselineIlMap gr' = (match o2b with [] => m_originalToBaselineIlMap gr | _ => o2b end) /\
    m_exceptionClauses mi' = Some [] /\
    m_pCorILMap mi' = (match sps with [] => m_pCorILMap mi | _ => fst (merged (m_pCorILMap mi) false (sequence_points sps)) end) /\
    forall fuel' code' o2b' sps', exists hr, CreateBaseline fuel' g code' o2b' sps' w' = (Err hr, w').
Proof.
  intros Hbytes Hlen Hfuel Hit Hok [Hgr Hm Hmi Hen Hun Hset] Hl Hcl Hsec Hlf.
  pose proof (head_code _ _ _ _ Hit) as Hne. unfold CreateBaseline.
  assert ((0 <? Z.of_nat (length code)) = true) as -> by (apply Z.ltb_lt; destruct code; [done|cbn; lia]).
  erewrite run_bind by reflexivity. rewrite (run_bind _ _ _ _ _ (run_load_graph _ _ _ Hgr)), Hun.
  rewrite bool_decide_eq_true_2 by done. erewrite run_bind by reflexivity. rewrite Hm.
  erewrite run_bind by reflexivity. erewrite run_bind by (unfold load_method; by rewrite Hmi). rewrite Hen.
  erewrite run_bind by reflexivity. rewrite Hset. erewrite run_bind by reflexivity.
  erewrite run_bind by apply run_update_graph. set (w0 := on_graph _ w).
  assert (w_graph w0 !! g = Some (set_baselineSet true gr)) as Hgr0 by (cbn; by rewrite lookup_alter_eq, Hgr).
  assert (graph_list w0 g l) as Hl0 by (apply graph_list_maps; [by intros []|done]).
  destruct (baseline_decode fuel g m code items Hbytes Hlen Hfuel Hit Hok w0 l cs _ Hl0 Hcl Hsec Hlf Hgr0 ltac:(by destruct gr))
    as (w1 & l' & gr1 & Hw1 & Hl1 & Hb1 & Hgr1 & E1 & Hme & Hcs).
  specialize (Hme m). destruct (w_method w1 !! m) as [mi1|] eqn:Hmi1; [|done]. cbn [w0 on_graph w_method] in Hme.
  rewrite Hmi in Hme. cbn in Hme, Hcs. injection Hcs as Hcs.
  destruct (baseline_maps w1 g l' m mi1 gr1 o2b sps Hl1 Hgr1 Hmi1) as (w2 & gr2 & mi2 & Hw2 & Hi2 & Hl2 & Hgr2 & E2 & E2' & Hmi2 & Emi2).
  match goal with |- context [mark_baseline fuel _ ;;; ?K] => rewrite (bind4_assoc _ _ _ _ (fun gr => mark_baseline fuel (m_pOrigFirstInstruction gr)) K) end.
  rewrite (run_bind _ _ _ _ _ Hw1). unfold sequence_points in Hw2. rewrite Hw2.
  pose proof (members_fields _ _ E1) as (Em & Eu1 & Eu2 & Eo & _ & Es).
  destruct gr2 as [a2 b2 c2 d2 e2 f2 h2 j2 k2 l2 n2], gr1. injection E2 as -> -> -> -> -> -> -> -> ->.
  exists w2, l'. eexists _, mi2. split; [done|]. split; [done|]. rewrite Hgr2, Hmi2. cbn in Em, Eu1, Eu2, Eo, Es, E2' |- *.
  split; [destruct Hb1 as [? Hb1]; split; [done|by rewrite Hi2]|].
  do 2 (split; [reflexivity|]). split_and!.
  - rewrite Eu1. by destruct gr.
  - rewrite Eu2. by destruct gr.
  - rewrite E2', Eo. by destruct o2b, gr.
  - rewrite Emi2. by destruct sps, mi1.
  - assert (m_pCorILMap mi1 = m_pCorILMap mi) as <- by (pose proof (f_equal (fmap m_pCorILMap) Hme) as E; cbn in E; congruence).
    rewrite Emi2. by destruct sps, mi1.
  - intros fuel' code' o2b' sps'. eapply CreateBaseline_again; [exact Hgr2| |exact Hmi2|]; cbn.
    + rewrite Em. by destruct gr.
    + rewrite Es. by destruct gr.
Qed.

(** [demo], whose method may get a baseline. *)
Definition baseline_demo : World := mkWorld (w_instr demo) (w_graph demo) (w_clause demo)
  {[ 1%positive := mkMethod (Some [1%positive]) true [] (new_render 7 0x06000001 false) ]} ∅.

Lemma CreateBaseline_once_witness : exists w' l' items,
  CreateBaseline 14 1 switch_code [] [0; 10] baseline_demo = (Ok tt, w') /\
  il_items switch_code = Some items /\ baseline_of w' l' items /\
  exists hr, CreateBaseline 14 1 switch_code [] [] w' = (Err hr, w').
Proof.
  destruct (il_items switch_code) as [items|] eqn:Hit; [|exfalso; vm_compute in Hit; discriminate Hit].
  destruct (CreateBaseline_once 14 1 1 switch_code items baseline_demo [1; 2; 3; 4]%positive [1%positive]
    (set_last (Some 4%positive) (set_first (Some 1%positive) (new_graph (Some 1%positive))))
    (mkMethod (Some [1%positive]) true [] (new_render 7 0x06000001 false)) [] [0; 10])
    as (w' & l' & gr' & mi' & H & _ & Hb & _ & _ & _ & _ & _ & _ & _ & Hag).
  - exact switch_code_bytes.
  - reflexivity.
  - cbn. lia.
  - exact Hit.
  - vm_compute. reflexivity.
  - split; vm_compute; reflexivity.
  - destruct demo_graph_list as [H1 H2 H3 H4]. by split.
  - exact (proj1 demo_targets).
  - eexists. split; [vm_compute; reflexivity|]. split; [done|]. intros c ->%list_elem_of_singleton. eexists. vm_compute. reflexivity.
  - cbn. lia.
  - exists w', l', items. split; [exact H|]. split; [reflexivity|]. split; [exact Hb|]. apply Hag.
Defined.
