(* ===== verification/CorSig.v ===== *)
(** Compressed integers and tokens in signatures: the inline functions of [cor.h]
    and the constants of [corhdr.h] that they use.  A pointer into a signature is a
    position in a list of bytes; a read past the list is undefined. *)
From S2P Require Import Prelude.

(** [CorTokenType], [TokenFromRid], [RidFromToken] and [TypeFromToken] *)
Definition mdtTypeRef : Z := 0x01000000.
Definition mdtTypeDef : Z := 0x02000000.
Definition mdtMethodDef : Z := 0x06000000.
Definition mdtMemberRef : Z := 0x0a000000.
Definition mdtSignature : Z := 0x11000000.
Definition mdtTypeSpec : Z := 0x1b000000.
Definition mdtMethodSpec : Z := 0x2b000000.
Definition mdtBaseType : Z := 0x72000000.

Definition TokenFromRid (rid tktype : Z) : Z := Z.lor rid tktype.
Definition RidFromToken (tk : Z) : Z := Z.land tk 0x00ffffff.
Definition TypeFromToken (tk : Z) : Z := Z.land tk 0xff000000.

(** [g_tkCorEncodeToken], by the two low bits of an encoded token. *)
Definition g_tkCorEncodeToken (bits : Z) : Z :=
  if bits =? 0 then mdtTypeDef else if bits =? 1 then mdtTypeRef
  else if bits =? 2 then mdtTypeSpec else mdtBaseType.

(** ** Reading *)

(** [CorSigUncompressData(pData, len, pDataOut, pDataLen)]: the value and its size.
    On [META_E_BAD_SIGNATURE] both outputs are 0.  The first byte is read before
    [len] is looked at. *)
Definition CorSigUncompressData (sig : list Z) (pos len : Z) : outcome (Z * Z) :=
  b <~ read_byte sig pos ;;
  if Z.land b 0x80 =? 0 then
    if len <? 1 then Err META_E_BAD_SIGNATURE else Ok (b, 1)
  else if Z.land b 0xC0 =? 0x80 then
    if len <? 2 then Err META_E_BAD_SIGNATURE
    else b1 <~ read_byte sig (pos + 1) ;; Ok (Z.lor (Z.shiftl (Z.land b 0x3f) 8) b1, 2)
  else if Z.land b 0xE0 =? 0xC0 then
    if len <? 4 then Err META_E_BAD_SIGNATURE
    else
      b1 <~ read_byte sig (pos + 1) ;; b2 <~ read_byte sig (pos + 2) ;; b3 <~ read_byte sig (pos + 3) ;;
      Ok (Z.lor (Z.lor (Z.lor (Z.shiftl (Z.land b 0x1f) 24) (Z.shiftl b1 16)) (Z.shiftl b2 8)) b3, 4)
  else Err META_E_BAD_SIGNATURE.

(** [CorSigUncompressData(pData, pDataOut)]: the value and the returned size, which
    is [(ULONG) -1] on bad data. *)
Definition CorSigUncompressData_unbounded (sig : list Z) (pos : Z) : outcome (Z * Z) :=
  match CorSigUncompressData sig pos 0xff with
  | Err _ => Ok (0, u32 (-1))
  | o => o
  end.

(** [CorSigUncompressBigData] and [CorSigUncompressData(pData&)]: the value and the
    advanced position; the four-byte form is not told from invalid data. *)
Definition CorSigUncompressBigData (sig : list Z) (pos : Z) : outcome (Z * Z) :=
  b <~ read_byte sig pos ;;
  if Z.land b 0xC0 =? 0x80 then
    b1 <~ read_byte sig (pos + 1) ;; Ok (Z.lor (Z.shiftl (Z.land b 0x3f) 8) b1, pos + 2)
  else
    b1 <~ read_byte sig (pos + 1) ;; b2 <~ read_byte sig (pos + 2) ;; b3 <~ read_byte sig (pos + 3) ;;
    Ok (Z.lor (Z.lor (Z.lor (Z.shiftl (Z.land b 0x1f) 24) (Z.shiftl b1 16)) (Z.shiftl b2 8)) b3, pos + 4).

Definition CorSigUncompressData_advance (sig : list Z) (pos : Z) : outcome (Z * Z) :=
  b <~ read_byte sig pos ;;
  if Z.land b 0x80 =? 0 then Ok (b, pos + 1) else CorSigUncompressBigData sig pos.

(** [CorSigUncompressedDataSize] *)
Definition CorSigUncompressedDataSize (sig : list Z) (pos : Z) : outcome Z :=
  b <~ read_byte sig pos ;;
  Ok (if Z.land b 0x80 =? 0 then 1 else if Z.land b 0xC0 =? 0x80 then 2 else 4).

(** The common part of the three forms of [CorSigUncompressToken]. *)
Definition decode_token (tk : Z) : Z := TokenFromRid (Z.shiftr tk 2) (g_tkCorEncodeToken (Z.land tk 0x3)).

Definition CorSigUncompressToken (sig : list Z) (pos dwLen : Z) : outcome (Z * Z) :=
  r <~ CorSigUncompressData sig pos dwLen ;; Ok (decode_token (fst r), snd r).

Definition CorSigUncompressToken_unbounded (sig : list Z) (pos : Z) : outcome (Z * Z) :=
  r <~ CorSigUncompressData_unbounded sig pos ;; Ok (decode_token (fst r), snd r).

Definition CorSigUncompressToken_advance (sig : list Z) (pos : Z) : outcome (Z * Z) :=
  r <~ CorSigUncompressData_advance sig pos ;; Ok (decode_token (fst r), snd r).

(** [CorSigUncompressCallingConv(pData, dwLen, data)] *)
Definition CorSigUncompressCallingConv (sig : list Z) (pos dwLen : Z) : outcome Z :=
  if 0 <? dwLen then read_byte sig pos else Err META_E_BAD_SIGNATURE.

(** [SIGN_MASK_ONEBYTE], [SIGN_MASK_TWOBYTE] and [SIGN_MASK_FOURBYTE] *)
Definition SIGN_MASK_ONEBYTE : Z := 0xffffffc0.
Definition SIGN_MASK_TWOBYTE : Z := 0xffffe000.
Definition SIGN_MASK_FOURBYTE : Z := 0xf0000000.

(** [CorSigUncompressSignedInt]: the value and the size; [None] for the value when
    the data is bad and nothing is stored. *)
Definition CorSigUncompressSignedInt (sig : list Z) (pos : Z) : outcome (option Z * Z) :=
  r <~ CorSigUncompressData_unbounded sig pos ;;
  let '(iData, cb) := r in
  if cb =? u32 (-1) then Ok (None, cb)
  else
    let half := Z.shiftr iData 1 in
    let full :=
      if Z.land iData 1 =? 0 then half
      else if cb =? 1 then Z.lor half SIGN_MASK_ONEBYTE
      else if cb =? 2 then Z.lor half SIGN_MASK_TWOBYTE
      else Z.lor half SIGN_MASK_FOURBYTE in
    Ok (Some (s32 full), cb).

(** ** Writing *)

(** [CorSigCompressData]: the bytes that are stored; [None] when the value is too
    big and the returned size is [(ULONG) -1]. *)
Definition CorSigCompressData (iLen : Z) : option (list Z) :=
  if iLen <=? 0x7F then Some [u8 iLen]
  else if iLen <=? 0x3FFF then Some [u8 (Z.lor (Z.shiftr iLen 8) 0x80); u8 (Z.land iLen 0xff)]
  else if iLen <=? 0x1FFFFFFF then
    Some [u8 (Z.lor (Z.shiftr iLen 24) 0xC0); u8 (Z.land (Z.shiftr iLen 16) 0xff);
          u8 (Z.land (Z.shiftr iLen 8) 0xff); u8 (Z.land iLen 0xff)]
  else None.

(** [CorSigCompressToken] *)
Definition CorSigCompressToken (tk : Z) : option (list Z) :=
  let rid := RidFromToken tk in
  let ulTyp := TypeFromToken tk in
  if 0x3FFFFFF <? rid then None
  else
    let rid := Z.shiftl rid 2 in
    CorSigCompressData
      (if ulTyp =? g_tkCorEncodeToken 1 then Z.lor rid 0x1
       else if ulTyp =? g_tkCorEncodeToken 2 then Z.lor rid 0x2
       else if ulTyp =? g_tkCorEncodeToken 3 then Z.lor rid 0x3
       else rid).

(** The value that [CorSigCompressSignedInt] packs: the bits under the mask, moved
    up, and the sign. *)
Definition pack_signed (iData mask isSigned : Z) : Z :=
  Z.lor (u32 (Z.shiftl (Z.land iData (Z.lxor mask 0xffffffff)) 1)) isSigned.

(** [CorSigCompressSignedInt]; [iData] is an [int]. *)
Definition CorSigCompressSignedInt (iData : Z) : option (list Z) :=
  let isSigned := if iData <? 0 then 1 else 0 in
  let u := u32 iData in
  let fits mask := (Z.land u mask =? 0) || (Z.land u mask =? mask) in
  if fits SIGN_MASK_ONEBYTE then Some [u8 (pack_signed u SIGN_MASK_ONEBYTE isSigned)]
  else if fits SIGN_MASK_TWOBYTE then
    let d := pack_signed u SIGN_MASK_TWOBYTE isSigned in
    Some [u8 (Z.lor (Z.shiftr d 8) 0x80); u8 (Z.land d 0xff)]
  else if fits SIGN_MASK_FOURBYTE then
    let d := pack_signed u SIGN_MASK_FOURBYTE isSigned in
    Some [u8 (Z.lor (Z.shiftr d 24) 0xC0); u8 (Z.land (Z.shiftr d 16) 0xff);
          u8 (Z.land (Z.shiftr d 8) 0xff); u8 (Z.land d 0xff)]
  else None.

(** ** Round trips *)

(** What the first byte says. *)
Definition lead_byte_facts (b : Z) : Prop :=
  (b < 128 -> Z.land b 0x80 = 0) /\
  (128 <= b -> Z.land b 0x80 <> 0) /\
  (128 <= b < 192 -> Z.land b 0xC0 = 0x80 /\ Z.land b 0x3f = b - 128) /\
  (192 <= b -> Z.land b 0xC0 <> 0x80) /\
  (192 <= b < 224 -> Z.land b 0xE0 = 0xC0 /\ Z.land b 0x1f = b - 192) /\
  (224 <= b -> Z.land b 0xE0 <> 0xC0).

#[export] Instance lead_byte_facts_dec b : Decision (lead_byte_facts b).
Proof. unfold lead_byte_facts. apply _. Defined.

Lemma lead_byte b : is_byte b -> lead_byte_facts b.
Proof.
  intros Hb. apply (bool_decide_unpack _).
  refine (bytes_forall (fun b => bool_decide (lead_byte_facts b)) _ b Hb). vm_compute. reflexivity.
Qed.

(** The three sizes of a value. *)
Inductive encodes : Z -> list Z -> Prop :=
| enc_1 i : 0 <= i < 2 ^ 7 -> encodes i [i]
| enc_2 i : 0 <= i < 2 ^ 14 -> encodes i [128 + i / 2 ^ 8; i mod 2 ^ 8]
| enc_4 i : 0 <= i < 2 ^ 29 ->
    encodes i [192 + i / 2 ^ 24; (i / 2 ^ 16) mod 2 ^ 8; (i / 2 ^ 8) mod 2 ^ 8; i mod 2 ^ 8].

Lemma land_0xff x : Z.land x 0xff = x mod 2 ^ 8.
Proof. change 0xff with (Z.ones 8). by apply Z.land_ones. Qed.

Lemma lor_high x k : 0 <= x < 2 ^ k -> forall h, 0 <= k -> Z.lor x (h * 2 ^ k) = h * 2 ^ k + x.
Proof.
  intros Hx h Hk. rewrite Z.lor_comm, <- (Z.shiftl_mul_pow2 h k) by done. rewrite lor_shiftl_add by done.
  by rewrite Z.shiftl_mul_pow2.
Qed.

Lemma compress_encodes i :
  0 <= i ->
  match CorSigCompressData i with
  | Some bs => encodes i bs /\ i < 2 ^ 29
  | None => 2 ^ 29 <= i
  end.
Proof.
  intros Hi. unfold CorSigCompressData. rewrite !land_0xff, !Z.shiftr_div_pow2 by done.
  destruct (Z.leb_spec i 0x7F); [|destruct (Z.leb_spec i 0x3FFF); [|destruct (Z.leb_spec i 0x1FFFFFFF); [|lia]]].
  - rewrite u8_small by (unfold is_byte; lia). split; [constructor; lia|lia].
  - assert (0 <= i / 2 ^ 8 < 2 ^ 6) by (Z.to_euclidean_division_equations; lia).
    rewrite (lor_high (i / 2 ^ 8) 7 ltac:(lia) 1 ltac:(done) : Z.lor (i / 2 ^ 8) 0x80 = 128 + i / 2 ^ 8). rewrite !u8_small; [|unfold is_byte; Z.to_euclidean_division_equations; lia..].
    split; [apply enc_2; lia|lia].
  - assert (0 <= i / 2 ^ 24 < 2 ^ 5) by (Z.to_euclidean_division_equations; lia).
    rewrite (lor_high (i / 2 ^ 24) 6 ltac:(lia) 3 ltac:(done) : Z.lor (i / 2 ^ 24) 0xC0 = 192 + i / 2 ^ 24). rewrite !u8_small; [|unfold is_byte; Z.to_euclidean_division_equations; lia..].
    split; [apply enc_4; lia|lia].
Qed.

Lemma encodes_length i bs : encodes i bs -> (1 <= length bs <= 4)%nat.
Proof. destruct 1; cbn; lia. Qed.

Lemma encodes_bytes i bs : encodes i bs -> Forall is_byte bs.
Proof. destruct 1; repeat constructor; unfold is_byte; Z.to_euclidean_division_equations; lia. Qed.

(** Reading the bytes of a form, wherever they are. *)
Lemma read_bytes pre bs post k b :
  bs !! k = Some b -> read_byte (pre ++ bs ++ post) (Z.of_nat (length pre) + Z.of_nat k) = Ok b.
Proof.
  intros Hk. rewrite <- (take_drop_middle bs k b Hk), <- !app_assoc, (app_assoc pre).
  replace (Z.of_nat (length pre) + Z.of_nat k) with (Z.of_nat (length (pre ++ take k bs)))
    by (rewrite length_app, length_take_le; [lia|apply lookup_lt_Some in Hk; lia]).
  apply (read_byte_mid (pre ++ take k bs) b (drop (S k) bs) post).
Qed.

Ltac sig_bytes pre bs post :=
  pose proof (read_bytes pre bs post 0); pose proof (read_bytes pre bs post 1);
  pose proof (read_bytes pre bs post 2); pose proof (read_bytes pre bs post 3).

Lemma uncompress_encodes pre i bs post len :
  encodes i bs -> Z.of_nat (length bs) <= len ->
  CorSigUncompressData (pre ++ bs ++ post) (Z.of_nat (length pre)) len = Ok (i, Z.of_nat (length bs)).
Proof.
  intros He Hlen. pose proof (encodes_bytes _ _ He) as Hb. unfold CorSigUncompressData.
  pose proof (fun k b H => read_bytes pre bs post k b H) as Hr.
  destruct He as [i Hi|i Hi|i Hi]; cbn [length] in *;
    (inversion Hb as [|? ? Hb0 _]; subst; pose proof (lead_byte _ Hb0) as Hl);
    pose proof (Hr 0%nat _ eq_refl) as H0; cbn [Z.of_nat] in H0; rewrite Z.add_0_r in H0; rewrite H0; cbn [obind].
  - rewrite (proj1 Hl) by lia. cbn. by rewrite (proj2 (Z.ltb_ge len 1)) by lia.
  - assert (0 <= i / 2 ^ 8 < 2 ^ 6) by (Z.to_euclidean_division_equations; lia).
    destruct Hl as (_ & H80 & Hm & _). rewrite (proj2 (Z.eqb_neq _ _)) by (apply H80; lia).
    destruct Hm as [-> ->]; [lia|]. rewrite Z.eqb_refl, (proj2 (Z.ltb_ge len 2)) by lia.
    rewrite (Hr 1%nat _ eq_refl : read_byte _ (_ + 1) = _). cbn [obind].
    replace (128 + i / 2 ^ 8 - 128) with (i / 2 ^ 8) by lia.
    rewrite lor_shiftl_add by (done || apply Z.mod_pos_bound; lia). do 2 f_equal. Z.to_euclidean_division_equations; lia.
  - assert (0 <= i / 2 ^ 24 < 2 ^ 5) by (Z.to_euclidean_division_equations; lia).
    destruct Hl as (_ & H80 & _ & HC0 & Hm & _). rewrite (proj2 (Z.eqb_neq _ _)) by (apply H80; lia).
    rewrite (proj2 (Z.eqb_neq _ _)) by (apply HC0; lia). destruct Hm as [-> ->]; [lia|].
    rewrite Z.eqb_refl, (proj2 (Z.ltb_ge len 4)) by lia.
    rewrite (Hr 1%nat _ eq_refl : read_byte _ (_ + 1) = _), (Hr 2%nat _ eq_refl : read_byte _ (_ + 2) = _),
      (Hr 3%nat _ eq_refl : read_byte _ (_ + 3) = _). cbn [obind].
    replace (192 + i / 2 ^ 24 - 192) with (i / 2 ^ 24) by lia.
    pose proof (Z.mod_pos_bound (i / 2 ^ 16) (2 ^ 8) eq_refl). pose proof (Z.mod_pos_bound (i / 2 ^ 8) (2 ^ 8) eq_refl).
    pose proof (Z.mod_pos_bound i (2 ^ 8) eq_refl).
    rewrite <- !Z.lor_assoc, (lor_shiftl_add ((i / 2 ^ 8) mod 2 ^ 8) 8) by lia.
    rewrite (lor_shiftl_add ((i / 2 ^ 16) mod 2 ^ 8) 16) by lia. rewrite lor_shiftl_add by lia.
    do 2 f_equal. Z.to_euclidean_division_equations; lia.
Qed.

(** *** Unsigned integers *)

Lemma uncompress_range sig pos len i n :
  Forall is_byte sig -> CorSigUncompressData sig pos len = Ok (i, n) ->
  0 <= i /\ (n = 1 /\ i < 2 ^ 7 \/ n = 2 /\ i < 2 ^ 14 \/ n = 4 /\ i < 2 ^ 29).
Proof.
  intros Hb. assert (forall p b, read_byte sig p = Ok b -> is_byte b) as Hrb by (intros; by eapply read_byte_is_byte).
  unfold CorSigUncompressData. destruct (read_byte sig pos) as [b| | |] eqn:E0; try done. cbn [obind].
  apply Hrb in E0 as Hb0. destruct (lead_byte b Hb0) as (H1 & H2 & H3 & H4 & H5 & H6). unfold is_byte in Hb0.
  destruct (Z.lt_ge_cases b 128) as [Hlt|Hge].
  { rewrite H1 by done. cbn. destruct (len <? 1); [done|]. intros [= <- <-]. lia. }
  rewrite (proj2 (Z.eqb_neq _ _) (H2 Hge)). destruct (Z.lt_ge_cases b 192) as [Hlt'|Hge'].
  { destruct H3 as [-> ->]; [lia|]. rewrite Z.eqb_refl. destruct (len <? 2); [done|].
    destruct (read_byte sig (pos + 1)) as [b1| | |] eqn:E1; try done. intros [= <- <-].
    apply Hrb in E1. unfold is_byte in E1. rewrite lor_shiftl_add by lia. lia. }
  rewrite (proj2 (Z.eqb_neq _ _) (H4 Hge')). destruct (Z.lt_ge_cases b 224) as [Hlt''|Hge''];
    [|by rewrite (proj2 (Z.eqb_neq _ _) (H6 Hge''))].
  destruct H5 as [-> ->]; [lia|]. rewrite Z.eqb_refl. destruct (len <? 4); [done|].
  destruct (read_byte sig (pos + 1)) as [b1| | |] eqn:E1; try done.
  destruct (read_byte sig (pos + 2)) as [b2| | |] eqn:E2; try done.
  destruct (read_byte sig (pos + 3)) as [b3| | |] eqn:E3; try done. intros [= <- <-].
  apply Hrb in E1, E2, E3. unfold is_byte in E1, E2, E3. rewrite <- !Z.lor_assoc.
  rewrite (lor_shiftl_add b2 8), (lor_shiftl_add b1 16), lor_shiftl_add by lia. lia.
Qed.

(** Compressed integers round-trip: [CorSigCompressData] stores every value up to
    0x1FFFFFFF in one, two or four bytes, which [CorSigUncompressData] reads back
    with their number wherever they are, and refuses the others; no data that can be
    read as the same value is shorter. *)
Theorem CorSigCompressData_roundtrip i :
  0 <= i ->
  match CorSigCompressData i with
  | Some bs => i <= 0x1FFFFFFF /\
      (forall pre post len, Z.of_nat (length bs) <= len ->
         CorSigUncompressData (pre ++ bs ++ post) (Z.of_nat (length pre)) len = Ok (i, Z.of_nat (length bs))) /\
      (forall sig pos len n, Forall is_byte sig -> CorSigUncompressData sig pos len = Ok (i, n) ->
         Z.of_nat (length bs) <= n)
  | None => 0x1FFFFFFF < i
  end.
Proof.
  intros Hi. pose proof (compress_encodes i Hi) as H. destruct (CorSigCompressData i) as [bs|] eqn:E; [|lia].
  destruct H as [He Hlt]. split_and!; [lia|intros; by apply uncompress_encodes|].
  intros sig pos len n Hb Hu. destruct (uncompress_range _ _ _ _ _ Hb Hu) as [_ Hn].
  unfold CorSigCompressData in E. destruct (Z.leb_spec i 0x7F); [injection E as <-; cbn; lia|].
  destruct (Z.leb_spec i 0x3FFF); [injection E as <-; cbn; lia|]. apply encodes_length in He. lia.
Qed.

Lemma CorSigCompressData_roundtrip_witness :
  CorSigUncompressData ([0xFF] ++ [0xC0; 0; 0x40; 0] ++ [0xFF]) 1 4 = Ok (0x4000, 4).
Proof.
  assert (0 <= 0x4000) as H by lia. apply CorSigCompressData_roundtrip in H. cbn in H.
  apply (proj1 (proj2 H) [0xFF] [0xFF] 4). cbn. lia.
Defined.

(** *** Tokens *)

Lemma token_parts tk :
  is_u32 tk -> RidFromToken tk = tk mod 2 ^ 24 /\ TypeFromToken tk = 2 ^ 24 * (tk / 2 ^ 24) /\ 0 <= tk / 2 ^ 24 < 256.
Proof.
  intros Htk. unfold is_u32 in Htk. assert (0 <= tk / 2 ^ 24 < 2 ^ 8) as Hh by (Z.to_euclidean_division_equations; lia).
  pose proof (Z.mod_pos_bound tk (2 ^ 24) eq_refl) as Hr. split_and!; [|unfold TypeFromToken|lia..].
  - unfold RidFromToken. change 0x00ffffff with (Z.ones 24). by apply Z.land_ones.
  - assert (Z.lor (Z.shiftl (tk / 2 ^ 24) 24) (tk mod 2 ^ 24) = tk) as E.
    { rewrite lor_shiftl_add by done. pose proof (Z.div_mod tk (2 ^ 24) ltac:(done)). lia. }
    rewrite <- E at 1. change 0xff000000 with (Z.shiftl (Z.ones 8) 24).
    rewrite Z.land_lor_distr_l, <- Z.shiftl_land, Z.land_ones, (Z.land_comm (tk mod 2 ^ 24)), land_shiftl_low by done.
    rewrite Z.lor_0_r, Z.mod_small, Z.shiftl_mul_pow2 by done. lia.
Qed.

Lemma encodable_token tk : is_u32 tk -> exists c, 0 <= c < 4 /\
  CorSigCompressToken tk = CorSigCompressData (RidFromToken tk * 4 + c) /\
  decode_token (RidFromToken tk * 4 + c) =
    if bool_decide (TypeFromToken tk ∈ [mdtTypeRef; mdtTypeSpec; mdtBaseType]) then tk
    else TokenFromRid (RidFromToken tk) mdtTypeDef.
Proof.
  intros Htk. destruct (token_parts tk Htk) as (Er & Et & Hh). unfold CorSigCompressToken.
  pose proof (Z.mod_pos_bound tk (2 ^ 24) eq_refl) as Hr. rewrite <- Er in Hr.
  rewrite (proj2 (Z.ltb_ge 0x3FFFFFF (RidFromToken tk))) by lia.
  assert (forall c, 0 <= c < 4 -> Z.shiftr (RidFromToken tk * 4 + c) 2 = RidFromToken tk /\
    Z.land (RidFromToken tk * 4 + c) 3 = c) as Hd.
  { intros c Hc. rewrite Z.shiftr_div_pow2 by done. change 3 with (Z.ones 2). rewrite Z.land_ones by done.
    split; [symmetry; apply Z.div_unique with c; lia|symmetry; apply Z.mod_unique with (RidFromToken tk); lia]. }
  assert (forall h, TypeFromToken tk = h * 2 ^ 24 -> TokenFromRid (RidFromToken tk) (h * 2 ^ 24) = tk) as Htok.
  { intros h Hth. unfold TokenFromRid. rewrite lor_high by lia. rewrite Er. rewrite Et in Hth.
    pose proof (Z.div_mod tk (2 ^ 24) ltac:(done)). lia. }
  change (g_tkCorEncodeToken 1) with mdtTypeRef. change (g_tkCorEncodeToken 2) with mdtTypeSpec.
  change (g_tkCorEncodeToken 3) with mdtBaseType. unfold decode_token.
  assert (forall c, 0 <= c < 4 -> Z.lor (Z.shiftl (RidFromToken tk) 2) c = RidFromToken tk * 4 + c) as Hlor
    by (intros c Hc; rewrite lor_shiftl_add; lia).
  destruct (Z.eqb_spec (TypeFromToken tk) mdtTypeRef) as [E|N1]; [exists 1|destruct (Z.eqb_spec (TypeFromToken tk) mdtTypeSpec) as [E|N2];
    [exists 2|destruct (Z.eqb_spec (TypeFromToken tk) mdtBaseType) as [E|N3]; [exists 3|exists 0]]];
    (split; [lia|]); (match goal with |- context [RidFromToken tk * 4 + ?c] => destruct (Hd c ltac:(lia)) as [-> ->] end).
  1-3: rewrite Hlor by lia; split; [done|]; rewrite bool_decide_eq_true_2 by (rewrite E; set_solver).
  - exact (Htok 1 E).
  - exact (Htok 0x1b E).
  - exact (Htok 0x72 E).
  - rewrite Z.shiftl_mul_pow2 by done. split; [f_equal; lia|].
    rewrite bool_decide_eq_false_2 by (rewrite !elem_of_cons, elem_of_nil; tauto). done.
Qed.

(** Tokens of types round-trip: every token is compressed, and what
    [CorSigUncompressToken] reads back is the token for a type reference, a type
    specification and a base type; a token of any other table is read back as the
    type definition with the same row, so only for type definitions it is the token. *)
Theorem CorSigCompressToken_roundtrip tk :
  is_u32 tk -> exists bs, CorSigCompressToken tk = Some bs /\ (length bs <= 4)%nat /\
    forall pre post len, Z.of_nat (length bs) <= len ->
      CorSigUncompressToken (pre ++ bs ++ post) (Z.of_nat (length pre)) len =
        Ok (if bool_decide (TypeFromToken tk ∈ [mdtTypeRef; mdtTypeSpec; mdtBaseType]) then tk
            else TokenFromRid (RidFromToken tk) mdtTypeDef, Z.of_nat (length bs)).
Proof.
  intros Htk. destruct (encodable_token tk Htk) as (c & Hc & -> & Hd).
  destruct (token_parts tk Htk) as (Er & _). pose proof (Z.mod_pos_bound tk (2 ^ 24) eq_refl) as Hr. rewrite <- Er in Hr.
  pose proof (compress_encodes (RidFromToken tk * 4 + c) ltac:(lia)) as He.
  destruct (CorSigCompressData _) as [bs|]; [|lia]. exists bs. split; [done|]. destruct He as [He _].
  split; [pose proof (encodes_length _ _ He); lia|]. intros pre post len Hlen. unfold CorSigUncompressToken.
  rewrite (uncompress_encodes pre _ bs post len He Hlen). cbn [obind fst snd]. by rewrite Hd.
Qed.

Lemma CorSigCompressToken_roundtrip_witness : exists bs,
  CorSigCompressToken 0x01000123 = Some bs /\ CorSigUncompressToken (bs ++ [0x0A]) 0 4 = Ok (0x01000123, 2).
Proof.
  destruct (CorSigCompressToken_roundtrip 0x01000123) as (bs & H & _ & Hr); [unfold is_u32; lia|].
  exists bs. split; [exact H|]. vm_compute in H. injection H as <-. apply (Hr [] [0x0A] 4). cbn. lia.
Defined.

(** *** Signed integers *)

(** A signed integer is packed as a value of one of the three sizes. *)
Lemma land_mask u k : 0 <= k <= 32 -> is_u32 u ->
  Z.land u (2 ^ 32 - 2 ^ k) = 2 ^ k * (u / 2 ^ k) /\ Z.land u (Z.lxor (2 ^ 32 - 2 ^ k) 0xffffffff) = u mod 2 ^ k.
Proof.
  intros Hk Hu. assert (2 ^ 32 = 2 ^ (32 - k) * 2 ^ k) as E32 by (rewrite <- Z.pow_add_r by lia; f_equal; lia).
  assert (0 < 2 ^ k) as Hp by lia.
  assert (2 ^ 32 - 2 ^ k = Z.shiftl (Z.ones (32 - k)) k) as Em.
  { rewrite Z.shiftl_mul_pow2, Z.ones_equiv by lia. rewrite E32. lia. }
  pose proof (Z.mod_pos_bound u (2 ^ k) Hp) as Hr.
  assert (Z.lor (Z.shiftl (u / 2 ^ k) k) (u mod 2 ^ k) = u) as E.
  { rewrite lor_shiftl_add by lia. pose proof (Z.div_mod u (2 ^ k) ltac:(lia)). lia. }
  split.
  - rewrite <- E at 1. rewrite Em, Z.land_lor_distr_l, <- Z.shiftl_land, Z.land_ones by lia.
    rewrite (Z.land_comm (u mod 2 ^ k)), land_shiftl_low, Z.lor_0_r by lia.
    rewrite Z.shiftl_mul_pow2 by lia. rewrite Z.mod_small; [lia|].
    unfold is_u32 in Hu. split; [apply Z.div_pos; lia|]. apply Z.div_lt_upper_bound; lia.
  - assert (Z.lxor (2 ^ 32 - 2 ^ k) 0xffffffff = Z.ones k) as ->; [|apply Z.land_ones; lia].
    rewrite Em. change 0xffffffff with (Z.ones 32).
    assert (Z.ones 32 = Z.lor (Z.shiftl (Z.ones (32 - k)) k) (Z.ones k)) as ->.
    { rewrite lor_shiftl_add by (rewrite ?Z.ones_equiv; lia). rewrite !Z.ones_equiv. lia. }
    apply Z.bits_inj'. intros n Hn. rewrite Z.lxor_spec, Z.lor_spec, (Z.shiftl_spec _ _ _ Hn).
    destruct (Z.lt_ge_cases n k).
    + rewrite (Z.testbit_neg_r _ (n - k)) by lia. rewrite Z.ones_spec_low by lia. done.
    + rewrite (Z.ones_spec_high k) by lia. rewrite orb_false_r. by rewrite xorb_nilpotent.
Qed.

Section Signed.
Context (i k : Z).
Hypothesis Hi : - 2 ^ 31 <= i < 2 ^ 31.
Hypothesis Hk : 0 <= k <= 30.
Notation mask := (2 ^ 32 - 2 ^ k).
Notation sign := (if i <? 0 then 1 else 0).

Lemma sign_u32 : u32 i = i + 2 ^ 32 * sign.
Proof using Hi. unfold u32. destruct (Z.ltb_spec i 0); Z.to_euclidean_division_equations; lia. Qed.

Lemma pow_split : 2 ^ 32 = 2 ^ k * (2 ^ (32 - k)) /\ 0 < 2 ^ k <= 2 ^ 30 /\ 4 <= 2 ^ (32 - k).
Proof using Hk.
  split_and!; [rewrite <- Z.pow_add_r by lia; f_equal; lia|lia|apply Z.pow_le_mono_r; lia|].
  apply (Z.pow_le_mono_r 2 2); lia.
Qed.

Lemma fits_range :
  (Z.land (u32 i) mask =? 0) || (Z.land (u32 i) mask =? mask) = (- 2 ^ k <=? i) && (i <? 2 ^ k).
Proof using Hi Hk.
  destruct pow_split as (E & Hp & H4). rewrite (proj1 (land_mask (u32 i) k ltac:(lia) (u32_range i))).
  pose proof sign_u32 as Hs. pose proof (u32_range i) as Hu. unfold is_u32 in Hu.
  pose proof (Z.div_mod (u32 i) (2 ^ k) ltac:(lia)) as Hd. pose proof (Z.mod_pos_bound (u32 i) (2 ^ k) ltac:(lia)) as Hm.
  set (q := u32 i / 2 ^ k) in *. set (p := 2 ^ k) in *. set (r := 2 ^ (32 - k)) in *.
  assert (0 <= q < r) as Hq by nia.
  apply eq_true_iff_eq. rewrite orb_true_iff, andb_true_iff, !Z.eqb_eq, Z.leb_le, Z.ltb_lt.
  assert (p * q = 0 <-> q = 0) as -> by nia. assert (p * q = 2 ^ 32 - p <-> q = r - 1) as -> by nia.
  destruct (Z.ltb_spec i 0); split.
  - intros [Eq|Eq]; rewrite Eq, ?Z.mul_sub_distr_l, ?Z.mul_0_r in Hd; lia.
  - intros Hr. right. nia.
  - intros [Eq|Eq]; rewrite Eq, ?Z.mul_sub_distr_l, ?Z.mul_0_r in Hd; lia.
  - intros Hr. left. nia.
Qed.

Lemma pack_value : pack_signed (u32 i) mask sign = 2 * (u32 i mod 2 ^ k) + sign.
Proof using Hi Hk.
  unfold pack_signed. destruct pow_split as (E & Hp & H4).
  rewrite (proj2 (land_mask (u32 i) k ltac:(lia) (u32_range i))).
  pose proof (Z.mod_pos_bound (u32 i) (2 ^ k) ltac:(lia)).
  rewrite u32_small by (unfold is_u32; rewrite Z.shiftl_mul_pow2; lia).
  rewrite lor_shiftl_add by (destruct (i <? 0); lia). lia.
Qed.

(** Reading back a packed value of [cb] bytes. *)
Lemma unpack_value : - 2 ^ k <= i < 2 ^ k ->
  let d := 2 * (u32 i mod 2 ^ k) + sign in
  0 <= d < 2 ^ (k + 1) /\ s32 (if Z.land d 1 =? 0 then Z.shiftr d 1 else Z.lor (Z.shiftr d 1) mask) = i.
Proof using Hi Hk.
  intros Hr d. destruct pow_split as (E & Hp & H4). pose proof sign_u32 as Hs.
  pose proof (Z.mod_pos_bound (u32 i) (2 ^ k) ltac:(lia)) as Hm.
  assert (u32 i mod 2 ^ k = i + 2 ^ k * sign) as Eu.
  { destruct (Z.ltb_spec i 0); rewrite Hs; symmetry.
    - apply Z.mod_unique with (2 ^ (32 - k) - 1); nia.
    - apply Z.mod_unique with 0; lia. }
  assert (Z.land d 1 = sign /\ Z.shiftr d 1 = u32 i mod 2 ^ k) as [-> ->].
  { subst d. change 1 with (Z.ones 1) at 2. rewrite Z.land_ones, Z.shiftr_div_pow2 by done.
    destruct (i <? 0); Z.to_euclidean_division_equations; lia. }
  split; [rewrite Z.pow_add_r by lia; subst d; destruct (i <? 0); lia|].
  destruct (Z.ltb_spec i 0); cbn [Z.eqb].
  - replace mask with ((2 ^ (32 - k) - 1) * 2 ^ k) by nia. rewrite lor_high by lia.
    rewrite Eu. replace ((2 ^ (32 - k) - 1) * 2 ^ k + (i + 2 ^ k * 1)) with (i + 2 ^ 32) by nia.
    unfold s32. Z.to_euclidean_division_equations; lia.
  - rewrite Eu, Z.mul_0_r, Z.add_0_r. unfold s32. Z.to_euclidean_division_equations; lia.
Qed.

End Signed.

(** The bytes of a packed value are those of the unsigned form of its size. *)
Lemma signed_bytes d :
  0 <= d ->
  (d < 2 ^ 7 -> encodes d [u8 d]) /\
  (d < 2 ^ 14 -> encodes d [u8 (Z.lor (Z.shiftr d 8) 0x80); u8 (Z.land d 0xff)]) /\
  (d < 2 ^ 29 -> encodes d [u8 (Z.lor (Z.shiftr d 24) 0xC0); u8 (Z.land (Z.shiftr d 16) 0xff);
     u8 (Z.land (Z.shiftr d 8) 0xff); u8 (Z.land d 0xff)]).
Proof.
  intros Hd. rewrite !land_0xff, !Z.shiftr_div_pow2 by done. split_and!; intros H.
  - rewrite u8_small by (unfold is_byte; lia). by constructor.
  - assert (0 <= d / 2 ^ 8 < 2 ^ 6) by (Z.to_euclidean_division_equations; lia).
    rewrite (lor_high (d / 2 ^ 8) 7 ltac:(lia) 1 ltac:(done) : Z.lor (d / 2 ^ 8) 0x80 = 128 + d / 2 ^ 8).
    rewrite !u8_small; [by constructor|unfold is_byte; Z.to_euclidean_division_equations; lia..].
  - assert (0 <= d / 2 ^ 24 < 2 ^ 5) by (Z.to_euclidean_division_equations; lia).
    rewrite (lor_high (d / 2 ^ 24) 6 ltac:(lia) 3 ltac:(done) : Z.lor (d / 2 ^ 24) 0xC0 = 192 + d / 2 ^ 24).
    rewrite !u8_small; [by constructor|unfold is_byte; Z.to_euclidean_division_equations; lia..].
Qed.

Lemma uncompress_signed pre d bs post k i :
  encodes d bs -> - 2 ^ 31 <= i < 2 ^ 31 -> 0 <= k <= 30 -> - 2 ^ k <= i < 2 ^ k ->
  d = 2 * (u32 i mod 2 ^ k) + (if i <? 0 then 1 else 0) ->
  (if Z.of_nat (length bs) =? 1 then SIGN_MASK_ONEBYTE
   else if Z.of_nat (length bs) =? 2 then SIGN_MASK_TWOBYTE else SIGN_MASK_FOURBYTE) = 2 ^ 32 - 2 ^ k ->
  CorSigUncompressSignedInt (pre ++ bs ++ post) (Z.of_nat (length pre)) = Ok (Some i, Z.of_nat (length bs)).
Proof.
  intros He Hi Hk Hr -> Hm. pose proof (encodes_length _ _ He). unfold CorSigUncompressSignedInt, CorSigUncompressData_unbounded.
  rewrite (uncompress_encodes pre _ bs post 0xff He) by lia. cbn [obind].
  destruct (unpack_value i k Hi Hk Hr) as [_ E].
  rewrite (proj2 (Z.eqb_neq (Z.of_nat (length bs)) (u32 (-1)))) by (change (u32 (-1)) with (2 ^ 32 - 1); lia).
  set (d := 2 * _ + _) in *. clearbody d. rewrite <- Hm in E. rewrite <- E.
  destruct (Z.land d 1 =? 0); [done|]. by repeat case_match.
Qed.

(** Signed integers round-trip: [CorSigCompressSignedInt] stores exactly the
    integers from -2^28 to 2^28 - 1, in one, two or four bytes, and
    [CorSigUncompressSignedInt] reads them back with their number. *)
Theorem CorSigCompressSignedInt_roundtrip i :
  - 2 ^ 31 <= i < 2 ^ 31 ->
  match CorSigCompressSignedInt i with
  | Some bs => - 2 ^ 28 <= i < 2 ^ 28 /\ (length bs <= 4)%nat /\ forall pre post,
      CorSigUncompressSignedInt (pre ++ bs ++ post) (Z.of_nat (length pre)) = Ok (Some i, Z.of_nat (length bs))
  | None => ~ - 2 ^ 28 <= i < 2 ^ 28
  end.
Proof.
  intros Hi. unfold CorSigCompressSignedInt.
  change SIGN_MASK_ONEBYTE with (2 ^ 32 - 2 ^ 6). change SIGN_MASK_TWOBYTE with (2 ^ 32 - 2 ^ 13).
  change SIGN_MASK_FOURBYTE with (2 ^ 32 - 2 ^ 28).
  rewrite !fits_range, !pack_value by lia.
  assert (forall k, 0 <= k <= 30 -> (- 2 ^ k <=? i) && (i <? 2 ^ k) = true -> - 2 ^ k <= i < 2 ^ k /\
    let d := 2 * (u32 i mod 2 ^ k) + (if i <? 0 then 1 else 0) in 0 <= d < 2 ^ (k + 1)) as Hd.
  { intros k Hk [H1%Z.leb_le H2%Z.ltb_lt]%andb_prop. split; [done|]. apply unpack_value; lia. }
  destruct ((- 2 ^ 6 <=? i) && (i <? 2 ^ 6)) eqn:E1; [|destruct ((- 2 ^ 13 <=? i) && (i <? 2 ^ 13)) eqn:E2;
    [|destruct ((- 2 ^ 28 <=? i) && (i <? 2 ^ 28)) eqn:E3]].
  - destruct (Hd 6 ltac:(lia) E1) as [Hr Hb]. split_and!; [lia|lia|cbn; lia|]. intros pre post.
    eapply uncompress_signed; [apply signed_bytes; apply Hb|done| |exact Hr|done|done]; lia.
  - destruct (Hd 13 ltac:(lia) E2) as [Hr Hb]. split_and!; [lia|lia|cbn; lia|]. intros pre post.
    eapply uncompress_signed; [apply signed_bytes; apply Hb|done| |exact Hr|done|done]; lia.
  - destruct (Hd 28 ltac:(lia) E3) as [Hr Hb]. split_and!; [lia|lia|cbn; lia|]. intros pre post.
    eapply uncompress_signed; [apply signed_bytes; apply Hb|done| |exact Hr|done|done]; lia.
  - lia.
Qed.

Lemma CorSigCompressSignedInt_roundtrip_witness :
  CorSigUncompressSignedInt ([0x80; 0x01] ++ [7]) 0 = Ok (Some (-8192), 2).
Proof.
  assert (CorSigCompressSignedInt (-8192) = Some [0x80; 0x01]) as E by (vm_compute; reflexivity).
  pose proof (CorSigCompressSignedInt_roundtrip (-8192) ltac:(lia)) as H. rewrite E in H.
  exact (proj2 (proj2 H) [] [7]).
Defined.

(** ** The codecs as an interface

    What the builders and parsers of signatures need from a pair of these
    functions: values in [ok] are stored in one to four bytes and read back with
    their size, wherever they are. *)
Class SigCodec (enc : Z -> option (list Z)) (dec : list Z -> Z -> outcome (Z * Z)) (ok : Z -> Prop) : Prop :=
  sig_codec : forall x, ok x -> exists bs, enc x = Some bs /\ (1 <= length bs <= 4)%nat /\ Forall is_byte bs /\
    forall pre post, dec (pre ++ bs ++ post) (Z.of_nat (length pre)) = Ok (x, Z.of_nat (length bs)).

Definition sig_value (x : Z) : Prop := 0 <= x <= 0x1FFFFFFF.

(** A token that a signature can hold. *)
Definition type_token (tk : Z) : Prop :=
  is_u32 tk /\ TypeFromToken tk ∈ [mdtTypeDef; mdtTypeRef; mdtTypeSpec; mdtBaseType].

#[export] Instance type_token_dec tk : Decision (type_token tk).
Proof. unfold type_token. apply _. Defined.

Lemma uncompress_unbounded pre i bs post :
  encodes i bs ->
  CorSigUncompressData_unbounded (pre ++ bs ++ post) (Z.of_nat (length pre)) = Ok (i, Z.of_nat (length bs)).
Proof.
  intros He. pose proof (encodes_length _ _ He). unfold CorSigUncompressData_unbounded.
  by rewrite (uncompress_encodes pre i bs post 0xff He) by lia.
Qed.

Lemma data_encodes x : sig_value x -> exists bs, CorSigCompressData x = Some bs /\ encodes x bs.
Proof.
  intros [Hx Hx']. pose proof (compress_encodes x Hx) as H. destruct (CorSigCompressData x) as [bs|]; [|lia].
  exists bs. by destruct H.
Qed.

Lemma token_encodes tk :
  type_token tk -> exists v bs, CorSigCompressToken tk = Some bs /\ encodes v bs /\ decode_token v = tk.
Proof.
  intros [Hu Ht]. destruct (encodable_token tk Hu) as (c & Hc & -> & Hd).
  destruct (token_parts tk Hu) as (Er & Et & _). pose proof (Z.mod_pos_bound tk (2 ^ 24) eq_refl) as Hr. rewrite <- Er in Hr.
  destruct (data_encodes (RidFromToken tk * 4 + c)) as (bs & E & He); [unfold sig_value; lia|]. eexists _, bs.
  split_and!; [exact E|exact He|]. rewrite Hd. case_bool_decide as Hb; [done|]. apply elem_of_cons in Ht as [Et'|Ht]; [|done].
  assert (Z.lor (RidFromToken tk) mdtTypeDef = 2 * 2 ^ 24 + RidFromToken tk) as El
    by (change mdtTypeDef with (2 * 2 ^ 24); apply lor_high; lia).
  pose proof (Z.div_mod tk (2 ^ 24) ltac:(done)). unfold TokenFromRid. rewrite El. unfold mdtTypeDef in Et'. lia.
Qed.

#[export] Instance data_codec : SigCodec CorSigCompressData CorSigUncompressData_unbounded sig_value.
Proof.
  intros x (bs & E & He)%data_encodes. exists bs. pose proof (encodes_length _ _ He).
  split; [done|]. split; [lia|]. split; [by eapply encodes_bytes|]. intros. by apply uncompress_unbounded.
Qed.

#[export] Instance token_codec : SigCodec CorSigCompressToken CorSigUncompressToken_unbounded type_token.
Proof.
  intros tk (v & bs & E & He & Hd)%token_encodes. exists bs. pose proof (encodes_length _ _ He).
  split; [done|]. split; [lia|]. split; [by eapply encodes_bytes|]. intros.
  unfold CorSigUncompressToken_unbounded. rewrite (uncompress_unbounded _ v) by done. cbn [obind fst snd]. by rewrite Hd.
Qed.

(** The same with the bounds that a reader passes when the data ends with the list. *)
Definition uncompress_rest (sig : list Z) (pos : Z) := CorSigUncompressData sig pos (Z.of_nat (length sig) - pos).
Definition uncompress_token_rest (sig : list Z) (pos : Z) := CorSigUncompressToken sig pos (Z.of_nat (length sig) - pos).

#[export] Instance rest_codec : SigCodec CorSigCompressData uncompress_rest sig_value.
Proof.
  intros x (bs & E & He)%data_encodes. exists bs. pose proof (encodes_length _ _ He).
  split; [done|]. split; [lia|]. split; [by eapply encodes_bytes|]. intros.
  apply uncompress_encodes; [done|]. rewrite !length_app. lia.
Qed.

#[export] Instance token_rest_codec : SigCodec CorSigCompressToken uncompress_token_rest type_token.
Proof.
  intros tk (v & bs & E & He & Hd)%token_encodes. exists bs. pose proof (encodes_length _ _ He).
  split; [done|]. split; [lia|]. split; [by eapply encodes_bytes|]. intros.
  unfold uncompress_token_rest, CorSigUncompressToken. rewrite (uncompress_encodes _ v) by (done || rewrite !length_app; lia).
  cbn [obind fst snd]. by rewrite Hd.
Qed.
