(* ===== verification/SignatureBuilder.v ===== *)
(** [CSignatureBuilder]: a growing buffer into which signatures are compressed. *)
From S2P Require Import Prelude CorSig.

(** [m_memory] is null or [m_capacity] bytes, [None] for one that was never
    written. *)
Record CSignatureBuilder := mkBuilder {
  m_memory : option (list (option Z));
  m_used : Z;
  m_capacity : Z
}.

Notation B := (M CSignatureBuilder).

(** [CSignatureBuilder::CSignatureBuilder] and [Clear] *)
Definition new_builder : CSignatureBuilder := mkBuilder None 0 0.
Definition Clear : B unit := modify (fun _ => new_builder).

(** [EnsureCapacity]; the arithmetic is on [DWORD]. *)
Definition EnsureCapacity (needed : Z) : B unit :=
  b <- gets id ;;
  if m_capacity b <? needed then
    let newCapacity := u32 (m_capacity b * 2 + needed) in
    let old := default [] (m_memory b) in
    let kept := take (Z.to_nat (Z.min newCapacity (m_capacity b))) old in
    modify (fun b => mkBuilder (Some (kept ++ replicate (Z.to_nat newCapacity - length kept) None)) (m_used b) newCapacity)
  else ret tt.

(** A store of bytes at [m_memory + m_used]. *)
Definition store_used (bs : list (option Z)) : B unit :=
  b <- gets id ;;
  mem <- deref (m_memory b) ;;
  let n := Z.to_nat (m_used b) in
  if bool_decide (n + length bs <= length mem)%nat
  then modify (fun b => mkBuilder (Some (take n mem ++ bs ++ drop (n + length bs) mem)) (m_used b) (m_capacity b))
  else undefined OutOfBoundsWrite.

Definition advance (n : Z) : B unit := modify (fun b => mkBuilder (m_memory b) (u32 (m_used b + n)) (m_capacity b)).

(** [Add], [AddSignedInt] and [AddToken]: what the compression function returns is
    added to [m_used], also when it stores nothing and returns [(ULONG) -1]. *)
Definition add_compressed (bytes : option (list Z)) : B unit :=
  b <- gets id ;;
  EnsureCapacity (u32 (m_used b + 4)) ;;;
  match bytes with
  | Some bs => store_used (map Some bs) ;;; advance (Z.of_nat (length bs))
  | None => advance (u32 (-1))
  end.

Definition Add (x : Z) : B unit := add_compressed (CorSigCompressData x).
Definition AddSignedInt (y : Z) : B unit := add_compressed (CorSigCompressSignedInt y).
Definition AddToken (t : Z) : B unit := add_compressed (CorSigCompressToken t).

Definition AddElementType (x : Z) : B unit :=
  b <- gets id ;;
  EnsureCapacity (u32 (m_used b + 1)) ;;;
  store_used [Some (u8 x)] ;;; advance 1.

(** [AddData], and [AddSignature] with the bytes of a builder other than this one
    (of its own, the source would read the buffer that [EnsureCapacity] freed). *)
Definition AddData (memory : list (option Z)) : B unit :=
  if Z.of_nat (length memory) =? 0 then ret tt
  else
    b <- gets id ;;
    EnsureCapacity (u32 (m_used b + Z.of_nat (length memory))) ;;;
    store_used memory ;;; advance (Z.of_nat (length memory)).

Definition AddSignature (other : CSignatureBuilder) : B unit :=
  AddData (take (Z.to_nat (m_used other)) (default [] (m_memory other))).

(** [GetSize] and [GetCorSignature]: the size, and the bytes that are copied when a
    buffer of [cbBuffer] bytes is given. *)
Definition GetSize : B Z := gets m_used.

Definition GetCorSignature (cbBuffer : option Z) : B (Z * list (option Z)) :=
  b <- gets id ;;
  match cbBuffer with
  | None => ret (m_used b, [])
  | Some cb =>
      if cb <? m_used b then fail E_INVALIDARG
      else ret (m_used b, take (Z.to_nat (m_used b)) (default [] (m_memory b)))
  end.

(** ** The abstract builder: a list of bytes *)

Definition limit : Z := 2 ^ 29.

Record holds (b : CSignatureBuilder) (bs : list Z) : Prop := {
  ho_used : m_used b = Z.of_nat (length bs);
  ho_fits : m_used b <= m_capacity b;
  ho_memory : match m_memory b with
              | None => bs = [] /\ m_capacity b = 0
              | Some mem => Z.of_nat (length mem) = m_capacity b /\ take (length bs) mem = map Some bs
              end
}.

Lemma holds_new : holds new_builder [].
Proof. by split. Qed.

Lemma EnsureCapacity_run b bs n :
  holds b bs -> 0 <= n -> Z.of_nat (length bs) + n < limit ->
  exists b', EnsureCapacity (u32 (m_used b + n)) b = (Ok tt, b') /\
    holds b' bs /\ Z.of_nat (length bs) + n <= m_capacity b'.
Proof.
  intros [Hu Hf Hm] Hn Hl. unfold EnsureCapacity, limit in *. rewrite (run_bind _ _ _ _ _ (eq_refl : gets id b = _)).
  cbn [id]. rewrite (u32_small (m_used b + n)) by (unfold is_u32; lia).
  destruct (Z.ltb_spec (m_capacity b) (m_used b + n)) as [Hlt|Hge]; [|exists b; split; [done|]; split; [done|lia]].
  rewrite u32_small by (unfold is_u32; lia). eexists. split; [reflexivity|]. cbn [m_capacity]. split; [|lia].
  split; cbn [m_used m_capacity m_memory]; [done|lia|]. rewrite Z.min_r by lia.
  destruct (m_memory b) as [mem|]; cbn [default id].
  - destruct Hm as [Hlen Hpre]. unfold id. rewrite firstn_all2 by lia. split.
    + rewrite length_app, length_replicate. lia.
    + rewrite take_app_le; [done|]. lia.
  - destruct Hm as [-> ->]. rewrite take_nil. split; [cbn [length app]; rewrite length_replicate; lia|done].
Qed.

(** The common shape of the operations: make room for [n] more bytes, store, advance. *)
Lemma append_run b bs xs n :
  holds b bs -> 1 <= Z.of_nat (length xs) <= n -> Z.of_nat (length bs) + n < limit ->
  exists b', (EnsureCapacity (u32 (m_used b + n)) ;;; store_used (map Some xs) ;;; advance (Z.of_nat (length xs))) b = (Ok tt, b') /\
    holds b' (bs ++ xs).
Proof.
  intros Hh Hx Hl. destruct (EnsureCapacity_run b bs n Hh ltac:(lia) Hl) as (b1 & E & [Hu Hf Hm] & Hc).
  rewrite (run_bind _ _ _ _ _ E). destruct b1 as [mem u c]. cbn [m_used m_capacity m_memory] in *.
  destruct mem as [mem|]; [|lia]. destruct Hm as [Hlen Hpre].
  unfold store_used. rewrite bind_bind, (run_bind _ _ _ _ _ (eq_refl : gets id _ = _)). cbn [id m_memory m_used deref].
  rewrite bind_bind, (run_bind _ _ _ _ _ (eq_refl : ret mem _ = _)). cbn beta. rewrite Hu, Nat2Z.id, length_map.
  rewrite bool_decide_true by lia. rewrite (run_bind _ _ _ _ _ (eq_refl : modify _ _ = _)). cbn [m_used m_capacity].
  unfold advance, limit in *. eexists. split; [reflexivity|]. rewrite u32_small by (cbn [m_used]; unfold is_u32; lia).
  split; cbn [m_used m_capacity m_memory]; rewrite ?length_app; [lia|lia|].
  rewrite length_map, length_take, length_drop. split; [lia|]. rewrite Hpre, map_app, app_assoc, take_app_le by
    (rewrite length_app, !length_map; lia).
  by rewrite firstn_all2 by (rewrite length_app, !length_map; lia).
Qed.

(** ** Programs of builder calls *)

(** One call on a builder; the argument of [AddSignature] is itself built. *)
Inductive call :=
  | CallAdd (x : Z)
  | CallSigned (y : Z)
  | CallToken (tk : Z)
  | CallElement (x : Z)
  | CallData (bs : list Z)
  | CallSignature (other : CSignatureBuilder).

Definition run_call (c : call) : B unit :=
  match c with
  | CallAdd x => Add x
  | CallSigned y => AddSignedInt y
  | CallToken tk => AddToken tk
  | CallElement x => AddElementType x
  | CallData bs => AddData (map Some bs)
  | CallSignature other => AddSignature other
  end.

Definition run_calls : list call -> B unit := for_each run_call.

(** What each call appends. *)
Inductive appends : call -> list Z -> Prop :=
  | ap_add x bs : CorSigCompressData x = Some bs -> appends (CallAdd x) bs
  | ap_signed y bs : CorSigCompressSignedInt y = Some bs -> appends (CallSigned y) bs
  | ap_token tk bs : CorSigCompressToken tk = Some bs -> appends (CallToken tk) bs
  | ap_element x : appends (CallElement x) [u8 x]
  | ap_data bs : appends (CallData bs) bs
  | ap_signature other bs : holds other bs -> appends (CallSignature other) bs.

Lemma compressed_length c bs :
  CorSigCompressData c = Some bs \/ CorSigCompressSignedInt c = Some bs \/ CorSigCompressToken c = Some bs ->
  (1 <= length bs <= 4)%nat.
Proof.
  assert (forall x bs, CorSigCompressData x = Some bs -> (1 <= length bs <= 4)%nat) as Hd.
  { intros x bs'. unfold CorSigCompressData. repeat case_match; intros [= <-]; cbn; lia. }
  intros [H|[H|H]]; [by eapply Hd| |unfold CorSigCompressToken in H; case_match; [done|by eapply Hd]].
  unfold CorSigCompressSignedInt in H. repeat case_match; simplify_eq; cbn; lia.
Qed.

Lemma add_compressed_run b bs o xs :
  holds b bs -> o = Some xs -> (1 <= length xs <= 4)%nat -> Z.of_nat (length bs) + 4 < limit ->
  exists b', add_compressed o b = (Ok tt, b') /\ holds b' (bs ++ xs).
Proof.
  intros Hh -> Hx Hl. destruct (append_run b bs xs 4 Hh ltac:(lia) Hl) as (b' & E & Hh').
  exists b'. by split; [exact E|].
Qed.

(** The bytes that [AddSignature] finds in the other builder. *)
Lemma holds_bytes b bs : holds b bs -> take (Z.to_nat (m_used b)) (default [] (m_memory b)) = map Some bs.
Proof.
  intros [Hu _ Hm]. rewrite Hu, Nat2Z.id. destruct (m_memory b); [apply Hm|]. destruct Hm as [-> _]. done.
Qed.

Lemma AddData_run b bs xs :
  holds b bs -> Z.of_nat (length bs) + Z.of_nat (length xs) < limit ->
  exists b', AddData (map Some xs) b = (Ok tt, b') /\ holds b' (bs ++ xs).
Proof.
  intros Hh Hl. unfold AddData. rewrite length_map. destruct (Z.eqb_spec (Z.of_nat (length xs)) 0) as [E|E].
  - exists b. assert (xs = []) as -> by (apply nil_length_inv; lia). by rewrite app_nil_r.
  - destruct (append_run b bs xs (Z.of_nat (length xs)) Hh ltac:(lia) Hl) as (b' & Er & Hh'). exists b'. by split; [exact Er|].
Qed.

Lemma run_call_run c b bs xs :
  holds b bs -> appends c xs -> Z.of_nat (length bs) + Z.of_nat (length xs) + 4 < limit ->
  exists b', run_call c b = (Ok tt, b') /\ holds b' (bs ++ xs).
Proof.
  intros Hh Hc Hl. destruct Hc as [x xs E|y xs E|tk xs E|x|xs|o xs Ho]; cbn [run_call].
  1-3: apply add_compressed_run; [done|done| |lia]; eapply compressed_length; by eauto.
  - destruct (append_run b bs [u8 x] 1 Hh ltac:(cbn; lia) ltac:(cbn in Hl; lia)) as (b' & Er & Hh'). exists b'. by split; [exact Er|].
  - apply AddData_run; [done|lia].
  - unfold AddSignature. rewrite (holds_bytes o xs Ho). apply AddData_run; [done|lia].
Qed.

Lemma run_calls_run cs xss :
  Forall2 appends cs xss -> forall b bs,
  holds b bs -> Z.of_nat (length bs) + Z.of_nat (length (concat xss)) + 4 < limit ->
  exists b', run_calls cs b = (Ok tt, b') /\ holds b' (bs ++ concat xss).
Proof.
  induction 1 as [|c xs cs xss Hc _ IH]; intros b bs Hh Hl; cbn [run_calls for_each concat] in *.
  - exists b. by rewrite app_nil_r.
  - rewrite length_app in Hl. destruct (run_call_run c b bs xs Hh Hc ltac:(lia)) as (b1 & E1 & H1).
    destruct (IH b1 (bs ++ xs) H1 ltac:(rewrite length_app; lia)) as (b2 & E2 & H2). exists b2.
    rewrite (run_bind _ _ _ _ _ E1). by rewrite app_assoc.
Qed.

(** C38: a new signature builder on which any sequence of Add, AddSignedInt, AddToken,
    AddElementType, AddData and AddSignature calls is made, each with a value that
    has an encoding and half a gigabyte at most in all, returns S_OK from every call;
    GetCorSignature then gives back the concatenation of the encodings and nothing
    else when the caller's buffer is large enough and E_INVALIDARG when it is not,
    whatever growing of the buffer happened in between. *)
Theorem SignatureBuilder_refines cs xss cb :
  Forall2 appends cs xss ->
  Z.of_nat (length (concat xss)) + 4 < limit ->
  exists b, run_calls cs new_builder = (Ok tt, b) /\
    GetSize b = (Ok (Z.of_nat (length (concat xss))), b) /\
    GetCorSignature (Some cb) b =
      (if cb <? Z.of_nat (length (concat xss)) then Err E_INVALIDARG
       else Ok (Z.of_nat (length (concat xss)), map Some (concat xss)), b).
Proof.
  intros Hc Hl. destruct (run_calls_run cs xss Hc new_builder [] holds_new Hl) as (b & E & Hh). exists b.
  cbn [app] in Hh. split; [done|]. pose proof (holds_bytes _ _ Hh) as Hb. destruct Hh as [Hu _ _].
  split; [unfold GetSize, gets; by rewrite Hu|]. unfold GetCorSignature.
  rewrite (run_bind _ _ _ _ _ (eq_refl : gets id b = _)). cbn [id]. rewrite Hb, Hu. by case_match.
Qed.

Lemma SignatureBuilder_refines_witness : exists b,
  run_calls [CallElement 0x07; CallAdd 0x80; CallToken 0x01000002; CallSigned (-3); CallData [1; 2]] new_builder = (Ok tt, b) /\
  GetCorSignature (Some 8) b = (Ok (7, map Some [0x07; 0x80; 0x80; 0x09; 0x7b; 1; 2]), b).
Proof.
  destruct (SignatureBuilder_refines
    [CallElement 0x07; CallAdd 0x80; CallToken 0x01000002; CallSigned (-3); CallData [1; 2]]
    [[0x07]; [0x80; 0x80]; [0x09]; [0x7b]; [1; 2]] 8) as (b & E & _ & G).
  - repeat constructor.
  - reflexivity.
  - exists b. exact (conj E G).
Defined.

(** What is lost when a value has no encoding. *)
Lemma add_dropped b bs x :
  holds b (bs ++ [x]) -> Z.of_nat (length bs) + 5 < limit ->
  exists b', add_compressed None b = (Ok tt, b') /\ holds b' bs.
Proof.
  intros Hh Hl. destruct (EnsureCapacity_run b _ 4 Hh ltac:(lia) ltac:(rewrite length_app; cbn; lia)) as (b1 & E & [Hu Hf Hm] & Hc).
  unfold add_compressed. rewrite (run_bind _ _ _ _ _ (eq_refl : gets id b = _)). cbn [id].
  rewrite (run_bind _ _ _ _ _ E). eexists. split; [reflexivity|]. rewrite length_app in *. cbn [length] in *.
  assert (u32 (m_used b1 + u32 (-1)) = Z.of_nat (length bs)) as Eu.
  { rewrite Hu. change (u32 (-1)) with (2 ^ 32 - 1). unfold u32, limit in *.
    replace (Z.of_nat (length bs + 1) + (2 ^ 32 - 1)) with (Z.of_nat (length bs) + 1 * 2 ^ 32) by lia.
    rewrite Z_mod_plus_full. apply Z.mod_small. lia. }
  split; cbn [m_used m_capacity m_memory]; [done|lia|]. destruct (m_memory b1) as [mem|]; [|lia]. destruct Hm as [Hlen Hpre].
  split; [done|]. apply (f_equal (take (length bs))) in Hpre. rewrite take_take, Nat.min_l in Hpre by lia.
  rewrite Hpre, map_app, take_app_le by (rewrite length_map; lia). by rewrite firstn_all2 by (rewrite length_map; lia).
Qed.

(** Add of a value above 0x1FFFFFFF, which no compressed form can hold, returns
    S_OK and removes the last byte of the signature built so far: the (ULONG) -1 that
    CorSigCompressData returns is added to the size. *)
Theorem Add_too_large_drops b bs last x :
  holds b (bs ++ [last]) -> Z.of_nat (length bs) + 5 < limit -> 0x1FFFFFFF < x ->
  exists b', Add x b = (Ok tt, b') /\ holds b' bs.
Proof.
  intros Hh Hl Hx. unfold Add. assert (CorSigCompressData x = None) as ->; [|by eapply add_dropped].
  unfold CorSigCompressData. by rewrite !(proj2 (Z.leb_gt _ _)) by lia.
Qed.

Lemma Add_too_large_drops_witness : exists b,
  (AddElementType 0x1f ;;; Add 0x20000000) new_builder = (Ok tt, b) /\ holds b [].
Proof.
  destruct (run_call_run (CallElement 0x1f) new_builder [] [0x1f] holds_new (ap_element 0x1f) eq_refl) as (b1 & E1 & H1).
  destruct (Add_too_large_drops b1 [] 0x1f 0x20000000 H1 eq_refl eq_refl) as (b & E & Hh). exists b.
  split; [|exact Hh]. rewrite (run_bind _ _ _ _ _ E1). exact E.
Defined.
