(* ===== verification/Types.v ===== *)
(** [CType] and its subclasses: the types of signatures, and [AddToSignature], which
    writes a type into a signature builder. *)
From S2P Require Import Prelude CorSig SignatureBuilder.

(** [CorElementType] and [CorCallingConvention] *)
Definition ELEMENT_TYPE_VOID : Z := 0x01.
Definition ELEMENT_TYPE_STRING : Z := 0x0e.
Definition ELEMENT_TYPE_PTR : Z := 0x0f.
Definition ELEMENT_TYPE_BYREF : Z := 0x10.
Definition ELEMENT_TYPE_VALUETYPE : Z := 0x11.
Definition ELEMENT_TYPE_CLASS : Z := 0x12.
Definition ELEMENT_TYPE_VAR : Z := 0x13.
Definition ELEMENT_TYPE_ARRAY : Z := 0x14.
Definition ELEMENT_TYPE_GENERICINST : Z := 0x15.
Definition ELEMENT_TYPE_TYPEDBYREF : Z := 0x16.
Definition ELEMENT_TYPE_I : Z := 0x18.
Definition ELEMENT_TYPE_U : Z := 0x19.
Definition ELEMENT_TYPE_FNPTR : Z := 0x1b.
Definition ELEMENT_TYPE_OBJECT : Z := 0x1c.
Definition ELEMENT_TYPE_SZARRAY : Z := 0x1d.
Definition ELEMENT_TYPE_MVAR : Z := 0x1e.
Definition ELEMENT_TYPE_CMOD_REQD : Z := 0x1f.
Definition ELEMENT_TYPE_CMOD_OPT : Z := 0x20.
Definition ELEMENT_TYPE_SENTINEL : Z := 0x41.
Definition ELEMENT_TYPE_PINNED : Z := 0x45.

Definition IMAGE_CEE_CS_CALLCONV_FIELD : Z := 0x6.
Definition IMAGE_CEE_CS_CALLCONV_LOCAL_SIG : Z := 0x7.
Definition IMAGE_CEE_CS_CALLCONV_PROPERTY : Z := 0x8.
Definition IMAGE_CEE_CS_CALLCONV_GENERICINST : Z := 0xa.
Definition IMAGE_CEE_CS_CALLCONV_MAX : Z := 0xc.
Definition IMAGE_CEE_CS_CALLCONV_GENERIC : Z := 0x10.
Definition IMAGE_CEE_CS_CALLCONV_HASTHIS : Z := 0x20.

(** [CModifierType]: its own modifiers are never set. *)
Record CModifierType := mkModifier { mod_type : Z; mod_token : Z }.

(** The members of the base class. *)
Record TypeBase := mkBase {
  m_type : Z;
  m_isSentinel : bool;
  m_isPinned : bool;
  m_modifiers : list CModifierType
}.

(** [CType::CType] *)
Definition new_base (type : Z) : TypeBase := mkBase type false false [].

(** [CType] and its subclasses, each with the members it adds.  The owning module of
    a token type is left out. *)
Inductive CType :=
  | CSimpleType (b : TypeBase)
  | CTokenType (b : TypeBase) (m_token : Z)
  | CCompositeType (b : TypeBase) (m_relatedType : CType)
  | CArrayType (b : TypeBase) (m_relatedType : CType) (m_rank : Z) (m_counts m_bounds : list Z)
  | CGenericParameterType (b : TypeBase) (m_position : Z)
  | CGenericInstance (b : TypeBase) (m_relatedType : CType) (m_genericParameters : list CType)
  | CFunctionType (b : TypeBase) (m_callingConvention : Z) (m_pReturnType : CType)
      (m_parameters : list CType) (m_dwGenericParameterCount : Z).

Definition base (t : CType) : TypeBase :=
  match t with
  | CSimpleType b | CTokenType b _ | CCompositeType b _ | CArrayType b _ _ _ _
  | CGenericParameterType b _ | CGenericInstance b _ _ | CFunctionType b _ _ _ _ => b
  end.

Definition map_base (f : TypeBase -> TypeBase) (t : CType) : CType :=
  match t with
  | CSimpleType b => CSimpleType (f b)
  | CTokenType b tk => CTokenType (f b) tk
  | CCompositeType b r => CCompositeType (f b) r
  | CArrayType b r rank counts bounds => CArrayType (f b) r rank counts bounds
  | CGenericParameterType b p => CGenericParameterType (f b) p
  | CGenericInstance b r ps => CGenericInstance (f b) r ps
  | CFunctionType b c r ps g => CFunctionType (f b) c r ps g
  end.

(** [SetIsPinned], [SetIsSentinel] and [SetModifers] *)
Definition SetIsPinned (isPinned : bool) : CType -> CType :=
  map_base (fun b => mkBase (m_type b) (m_isSentinel b) isPinned (m_modifiers b)).
Definition SetIsSentinel (isSentinel : bool) : CType -> CType :=
  map_base (fun b => mkBase (m_type b) isSentinel (m_isPinned b) (m_modifiers b)).
Definition SetModifers (modifiers : list CModifierType) : CType -> CType :=
  map_base (fun b => mkBase (m_type b) (m_isSentinel b) (m_isPinned b) modifiers).

(** [IsPrimitive] and [IsArray] *)
Definition IsPrimitive (t : CType) : bool :=
  let e := m_type (base t) in (e <=? ELEMENT_TYPE_STRING) || (e =? ELEMENT_TYPE_I) || (e =? ELEMENT_TYPE_U).
Definition IsArray (t : CType) : bool :=
  let e := m_type (base t) in (e =? ELEMENT_TYPE_ARRAY) || (e =? ELEMENT_TYPE_SZARRAY).

(** ** Writing *)

(** [CModifierType::AddToSignature], and [CType::AddToSignature] of the base class. *)
Definition modifier_AddToSignature (m : CModifierType) : B unit :=
  AddElementType (mod_type m) ;;; AddToken (mod_token m).

Definition base_AddToSignature (b : TypeBase) : B unit :=
  (if m_isSentinel b then AddElementType ELEMENT_TYPE_SENTINEL else ret tt) ;;;
  (if m_isPinned b then AddElementType ELEMENT_TYPE_PINNED else ret tt) ;;;
  for_each modifier_AddToSignature (m_modifiers b) ;;;
  AddElementType (m_type b).

(** The overrides of [AddToSignature] in the subclasses; [add] is the virtual call on
    the types they hold. *)
Section Overrides.

Context (add : CType -> B unit).

Definition token_AddToSignature (b : TypeBase) (m_token : Z) : B unit := base_AddToSignature b ;;; AddToken m_token.

Definition composite_AddToSignature (b : TypeBase) (m_relatedType : CType) : B unit :=
  base_AddToSignature b ;;; add m_relatedType.

Definition array_AddToSignature (b : TypeBase) (m_relatedType : CType) (m_rank : Z) (m_counts m_bounds : list Z) : B unit :=
  composite_AddToSignature b m_relatedType ;;;
  Add m_rank ;;;
  Add (u32 (Z.of_nat (length m_counts))) ;;;
  for_each Add m_counts ;;;
  Add (u32 (Z.of_nat (length m_bounds))) ;;;
  for_each Add m_bounds.

Definition var_AddToSignature (b : TypeBase) (m_position : Z) : B unit := base_AddToSignature b ;;; Add m_position.

Definition instance_AddToSignature (b : TypeBase) (m_relatedType : CType) (m_genericParameters : list CType) : B unit :=
  composite_AddToSignature b m_relatedType ;;;
  Add (u32 (Z.of_nat (length m_genericParameters))) ;;;
  for_each add m_genericParameters.

(** The convention is added as the first byte of the member in memory. *)
Definition function_AddToSignature (b : TypeBase) (m_callingConvention : Z) (m_pReturnType : CType)
    (m_parameters : list CType) (m_dwGenericParameterCount : Z) : B unit :=
  base_AddToSignature b ;;;
  AddData [Some (u8 m_callingConvention)] ;;;
  (if Z.land m_callingConvention IMAGE_CEE_CS_CALLCONV_GENERIC =? 0 then ret tt
   else Add m_dwGenericParameterCount) ;;;
  Add (u32 (Z.of_nat (length m_parameters))) ;;;
  add m_pReturnType ;;;
  for_each add m_parameters.

End Overrides.

(** The virtual method. *)
Fixpoint AddToSignature (t : CType) : B unit :=
  match t with
  | CSimpleType b => base_AddToSignature b
  | CTokenType b tk => token_AddToSignature b tk
  | CCompositeType b r => composite_AddToSignature AddToSignature b r
  | CArrayType b r rank counts bounds => array_AddToSignature AddToSignature b r rank counts bounds
  | CGenericParameterType b p => var_AddToSignature b p
  | CGenericInstance b r ps => instance_AddToSignature AddToSignature b r ps
  | CFunctionType b conv r ps gen => function_AddToSignature AddToSignature b conv r ps gen
  end.

(** ** The grammar of type signatures (ECMA-335 II.23.2)

    [TypeSig t bs]: [bs] is the signature of the well-formed type [t]. *)

Inductive DataSig : Z -> list Z -> Prop :=
  | data_sig x bs : sig_value x -> CorSigCompressData x = Some bs -> DataSig x bs.

Inductive TokenSig : Z -> list Z -> Prop :=
  | token_sig tk bs : type_token tk -> CorSigCompressToken tk = Some bs -> TokenSig tk bs.

(** Signatures of a sequence, and of a counted sequence. *)
Inductive SeqSig {A} (R : A -> list Z -> Prop) : list A -> list Z -> Prop :=
  | seq_nil : SeqSig R [] []
  | seq_cons x xs bs bss : R x bs -> SeqSig R xs bss -> SeqSig R (x :: xs) (bs ++ bss).

Inductive CountedSig {A} (R : A -> list Z -> Prop) : list A -> list Z -> Prop :=
  | counted xs nb bss : DataSig (Z.of_nat (length xs)) nb -> SeqSig R xs bss -> CountedSig R xs (nb ++ bss).

Definition cmods : list Z := [ELEMENT_TYPE_CMOD_REQD; ELEMENT_TYPE_CMOD_OPT].

Inductive ModifierSig : CModifierType -> list Z -> Prop :=
  | modifier_sig m bs : mod_type m ∈ cmods -> TokenSig (mod_token m) bs -> ModifierSig m (mod_type m :: bs).

Definition flag (b : bool) (x : Z) : list Z := if b then [x] else [].

Inductive BaseSig : TypeBase -> list Z -> Prop :=
  | base_sig b ms : SeqSig ModifierSig (m_modifiers b) ms ->
      BaseSig b (flag (m_isSentinel b) ELEMENT_TYPE_SENTINEL ++ flag (m_isPinned b) ELEMENT_TYPE_PINNED ++ ms ++ [m_type b]).

Definition simple_elements : list Z :=
  [0x01; 0x02; 0x03; 0x04; 0x05; 0x06; 0x07; 0x08; 0x09; 0x0a; 0x0b; 0x0c; 0x0d; 0x18; 0x19; 0x0e; 0x1c].

Inductive TypeSig : CType -> list Z -> Prop :=
  | ts_simple b bb : m_type b ∈ ELEMENT_TYPE_TYPEDBYREF :: simple_elements -> BaseSig b bb -> TypeSig (CSimpleType b) bb
  | ts_token b bb tk bs : m_type b ∈ [ELEMENT_TYPE_CLASS; ELEMENT_TYPE_VALUETYPE] -> BaseSig b bb ->
      TokenSig tk bs -> TypeSig (CTokenType b tk) (bb ++ bs)
  | ts_composite b bb r bs : m_type b ∈ [ELEMENT_TYPE_PTR; ELEMENT_TYPE_BYREF; ELEMENT_TYPE_SZARRAY] -> BaseSig b bb ->
      TypeSig r bs -> TypeSig (CCompositeType b r) (bb ++ bs)
  | ts_array b bb r bs rank rb counts cb bounds ob : m_type b = ELEMENT_TYPE_ARRAY -> BaseSig b bb ->
      TypeSig r bs -> DataSig rank rb -> CountedSig DataSig counts cb -> CountedSig DataSig bounds ob ->
      TypeSig (CArrayType b r rank counts bounds) (bb ++ bs ++ rb ++ cb ++ ob)
  | ts_var b bb p bs : m_type b ∈ [ELEMENT_TYPE_VAR; ELEMENT_TYPE_MVAR] -> BaseSig b bb ->
      DataSig p bs -> TypeSig (CGenericParameterType b p) (bb ++ bs)
  | ts_inst b bb r bs ps nb pb : m_type b = ELEMENT_TYPE_GENERICINST -> BaseSig b bb ->
      TypeSig r bs -> DataSig (Z.of_nat (length ps)) nb -> TypesSig ps pb ->
      TypeSig (CGenericInstance b r ps) (bb ++ bs ++ nb ++ pb)
  | ts_fnptr b bb mb : m_type b = ELEMENT_TYPE_FNPTR -> BaseSig b bb -> forall conv r ps gen,
      MethodSig conv gen r ps mb -> TypeSig (CFunctionType b conv r ps gen) (bb ++ mb)
with TypesSig : list CType -> list Z -> Prop :=
  | tss_nil : TypesSig [] []
  | tss_cons t ts bs bss : TypeSig t bs -> TypesSig ts bss -> TypesSig (t :: ts) (bs ++ bss)
(** A method signature: the calling convention, the number of generic parameters
    when it is generic, the number of parameters, the types. *)
with MethodSig : Z -> Z -> CType -> list CType -> list Z -> Prop :=
  | ms_intro conv gen r ps gb nb bs pb :
      0 <= conv < 0x80 ->
      conv ∉ [IMAGE_CEE_CS_CALLCONV_MAX; IMAGE_CEE_CS_CALLCONV_FIELD; IMAGE_CEE_CS_CALLCONV_GENERICINST;
              IMAGE_CEE_CS_CALLCONV_LOCAL_SIG; IMAGE_CEE_CS_CALLCONV_PROPERTY] ->
      (if Z.land conv IMAGE_CEE_CS_CALLCONV_GENERIC =? 0 then gen = 0 /\ gb = [] else DataSig gen gb) ->
      DataSig (Z.of_nat (length ps)) nb -> TypeSig r bs -> TypesSig ps pb ->
      MethodSig conv gen r ps (conv :: gb ++ nb ++ bs ++ pb).

Scheme TypeSig_mind := Minimality for TypeSig Sort Prop
  with TypesSig_mind := Minimality for TypesSig Sort Prop
  with MethodSig_mind := Minimality for MethodSig Sort Prop.
Combined Scheme sig_ind from TypeSig_mind, TypesSig_mind, MethodSig_mind.

(** ** [AddToSignature] writes the signature *)

(** [m] appends [bs] to a builder that has room. *)
Definition writes (m : B unit) (bs : list Z) : Prop :=
  forall b pre, holds b pre -> Z.of_nat (length pre) + Z.of_nat (length bs) + 4 < limit ->
  exists b', m b = (Ok tt, b') /\ holds b' (pre ++ bs).

Lemma writes_ret : writes (ret tt) [].
Proof. intros b pre Hh _. exists b. by rewrite app_nil_r. Qed.

Lemma writes_bind m1 m2 bs1 bs2 : writes m1 bs1 -> writes m2 bs2 -> writes (m1 ;;; m2) (bs1 ++ bs2).
Proof.
  intros H1 H2 b pre Hh Hl. rewrite length_app in Hl. destruct (H1 b pre Hh) as (b1 & E1 & Hh1); [lia|].
  destruct (H2 b1 _ Hh1) as (b2 & E2 & Hh2); [rewrite length_app; lia|]. exists b2.
  rewrite (run_bind _ _ _ _ _ E1). by rewrite app_assoc.
Qed.

Lemma writes_call c bs : appends c bs -> writes (run_call c) bs.
Proof. intros Hc b pre Hh Hl. by apply run_call_run. Qed.

Lemma writes_each {A} (f : A -> B unit) R xs bs :
  (forall x bs, R x bs -> writes (f x) bs) -> SeqSig R xs bs -> writes (for_each f xs) bs.
Proof. intros Hf. induction 1; [apply writes_ret|]. apply writes_bind; [by apply Hf|done]. Qed.

Lemma writes_element x : is_byte x -> writes (AddElementType x) [x].
Proof. intros Hx. rewrite <- (u8_small x) at 2 by done. apply (writes_call (CallElement x)). constructor. Qed.

Lemma writes_data x bs : DataSig x bs -> writes (Add x) bs.
Proof. intros [x' bs' _ E]. apply (writes_call (CallAdd x')). by constructor. Qed.

Lemma writes_token tk bs : TokenSig tk bs -> writes (AddToken tk) bs.
Proof. intros [tk' bs' _ E]. apply (writes_call (CallToken tk')). by constructor. Qed.

(** The count of a vector. *)
Lemma count_u32 n bs : DataSig (Z.of_nat n) bs -> u32 (Z.of_nat n) = Z.of_nat n.
Proof. inversion_clear 1 as [? ? Hx _]. apply u32_small. unfold sig_value, is_u32 in *. lia. Qed.

Lemma writes_count n bs : DataSig (Z.of_nat n) bs -> writes (Add (u32 (Z.of_nat n))) bs.
Proof. intros H. rewrite (count_u32 _ _ H). by apply writes_data. Qed.

Lemma writes_counted {A} (f : A -> B unit) R xs bs k rest :
  (forall x bs, R x bs -> writes (f x) bs) -> CountedSig R xs bs -> writes k rest ->
  writes (Add (u32 (Z.of_nat (length xs))) ;;; for_each f xs ;;; k) (bs ++ rest).
Proof.
  intros Hf [xs' nb bss Hn Hs] Hk. rewrite <- app_assoc. apply writes_bind; [by apply writes_count|].
  apply writes_bind; [by eapply writes_each|done].
Qed.

Lemma in_bytes x l : x ∈ l -> bool_decide (Forall is_byte l) = true -> is_byte x.
Proof. intros Hx Hl%bool_decide_eq_true. rewrite Forall_forall in Hl. by apply Hl. Qed.

Lemma writes_base b bs : is_byte (m_type b) -> BaseSig b bs -> writes (base_AddToSignature b) bs.
Proof.
  intros Hb Hs. revert Hb. destruct Hs as [b' ms Hm]. intros Hb. unfold base_AddToSignature. apply writes_bind; [|apply writes_bind; [|apply writes_bind]].
  - destruct (m_isSentinel b'); [by apply writes_element|apply writes_ret].
  - destruct (m_isPinned b'); [by apply writes_element|apply writes_ret].
  - eapply writes_each; [|exact Hm]. intros m mb [m' bs' He Ht]. apply (writes_bind _ _ [_]); [|by apply writes_token].
    apply writes_element. by apply (in_bytes _ _ He).
  - by apply writes_element.
Qed.

Lemma writes_types :
  (forall t bs, TypeSig t bs -> writes (AddToSignature t) bs) /\
  (forall ts bs, TypesSig ts bs -> writes (for_each AddToSignature ts) bs) /\
  (forall conv gen r ps bs, MethodSig conv gen r ps bs -> forall b bb, m_type b = ELEMENT_TYPE_FNPTR -> BaseSig b bb ->
     writes (AddToSignature (CFunctionType b conv r ps gen)) (bb ++ bs)).
Proof.
  apply sig_ind; cbn [AddToSignature for_each].
  - intros b bb Hb Hs. apply writes_base; [by apply (in_bytes _ _ Hb)|done].
  - intros b bb tk bs Hb Hs Ht. apply writes_bind; [|by apply writes_token].
    apply writes_base; [by apply (in_bytes _ _ Hb)|done].
  - intros b bb r bs Hb Hs _ Hr. apply writes_bind; [|done]. apply writes_base; [by apply (in_bytes _ _ Hb)|done].
  - intros b bb r bs rank rb counts cb bounds ob Hb Hs _ Hr Hrank Hc Ho.
    rewrite app_assoc. apply writes_bind; [apply writes_bind; [apply writes_base; [by rewrite Hb|done]|done]|].
    apply writes_bind; [by apply writes_data|]. eapply writes_counted; [apply writes_data|done|].
    destruct Ho as [xs nb bss Hn Ho]. apply writes_bind; [by apply writes_count|by eapply writes_each; [apply writes_data|]].
  - intros b bb p bs Hb Hs Hp. apply writes_bind; [|by apply writes_data].
    apply writes_base; [by apply (in_bytes _ _ Hb)|done].
  - intros b bb r bs ps nb pb Hb Hs _ Hr Hn _ Hp. rewrite app_assoc.
    apply writes_bind; [apply writes_bind; [apply writes_base; [by rewrite Hb|done]|done]|]. apply writes_bind; [by apply writes_count|done].
  - intros b bb mb Hb Hs conv r ps gen _ Hm. by apply Hm.
  - apply writes_ret.
  - intros t ts bs bss _ Ht _ Hts. by apply writes_bind.
  - intros conv gen r ps gb nb bs pb Hc _ Hg Hn _ Hr _ Hp b bb Hb Hs.
    apply writes_bind; [apply writes_base; [by rewrite Hb|done]|].
    rewrite (u8_small conv) by (unfold is_byte; lia). apply (writes_bind _ _ [conv]).
    { apply (writes_call (CallData [conv])). constructor. }
    apply writes_bind; [case_match; [destruct Hg as [_ ->]; apply writes_ret|by apply writes_data]|].
    apply writes_bind; [by apply writes_count|]. by apply writes_bind.
Qed.

(** AddToSignature of a well-formed type, whatever its nesting, appends exactly its
    ECMA-335 signature to the builder: sentinel, pinned and modifier prefixes, element
    type, then the parts of the kind of type, in that order. *)
Theorem AddToSignature_writes t bs b pre :
  TypeSig t bs -> holds b pre -> Z.of_nat (length pre) + Z.of_nat (length bs) + 4 < limit ->
  exists b', AddToSignature t b = (Ok tt, b') /\ holds b' (pre ++ bs).
Proof. intros Ht. by apply (proj1 writes_types). Qed.

(** A pinned, modified reference to a generic instance over an array, a variable and a
    function pointer. *)
Definition sample_array : CType := CArrayType (new_base ELEMENT_TYPE_ARRAY) (CSimpleType (new_base 0x08)) 2 [3; 300] [0].
Definition sample_var : CType := CGenericParameterType (new_base ELEMENT_TYPE_MVAR) 1.
Definition sample_function : CType :=
  CFunctionType (new_base ELEMENT_TYPE_FNPTR) 0x10 (CSimpleType (new_base ELEMENT_TYPE_VOID)) [CSimpleType (new_base 0x0e)] 1.
Definition sample_instance : CType :=
  CGenericInstance (new_base ELEMENT_TYPE_GENERICINST) (CTokenType (new_base ELEMENT_TYPE_CLASS) 0x02000003)
    [sample_array; sample_var; sample_function].
Definition sample_type : CType :=
  CCompositeType (mkBase ELEMENT_TYPE_BYREF false true [mkModifier ELEMENT_TYPE_CMOD_OPT 0x01000005]) sample_instance.

Definition sample_bytes : list Z :=
  [0x45; 0x20; 0x15; 0x10; 0x15; 0x12; 0x0c; 3; 0x14; 0x08; 2; 2; 3; 0x81; 0x2c; 1; 0; 0x1e; 1; 0x1b; 0x10; 1; 1; 1; 0x0e].

Lemma base_plain e : BaseSig (new_base e) [e].
Proof. exact (base_sig (new_base e) [] (seq_nil _)). Qed.

Lemma data_byte x : 0 <= x < 128 -> DataSig x [x].
Proof.
  intros Hx. constructor; [unfold sig_value; lia|]. unfold CorSigCompressData. rewrite (proj2 (Z.leb_le _ _)) by lia.
  by rewrite u8_small by (unfold is_byte; lia).
Qed.

Lemma simple_plain e : e ∈ ELEMENT_TYPE_TYPEDBYREF :: simple_elements -> TypeSig (CSimpleType (new_base e)) [e].
Proof. intros He. exact (ts_simple (new_base e) [e] He (base_plain e)). Qed.

Lemma data_seq x xs bs bss : DataSig x bs -> SeqSig DataSig xs bss -> SeqSig DataSig (x :: xs) (bs ++ bss).
Proof. apply seq_cons. Qed.

Lemma sample_sig : TypeSig sample_type sample_bytes.
Proof.
  assert (DataSig 300 [0x81; 0x2c]) as H300 by (constructor; [done|reflexivity]).
  assert (TokenSig 0x01000005 [0x15]) as Ht1 by (constructor; [split; [done|set_solver]|reflexivity]).
  assert (TokenSig 0x02000003 [0x0c]) as Ht2 by (constructor; [split; [done|set_solver]|reflexivity]).
  pose proof (data_byte 0 ltac:(done)) as H0. pose proof (data_byte 1 ltac:(done)) as H1.
  pose proof (data_byte 2 ltac:(done)) as H2. pose proof (data_byte 3 ltac:(done)) as H3.
  assert (TypeSig sample_array [0x14; 0x08; 2; 2; 3; 0x81; 0x2c; 1; 0]) as Harr.
  { apply (ts_array (new_base ELEMENT_TYPE_ARRAY) [0x14] _ [0x08] 2 [2] [3; 300] [2; 3; 0x81; 0x2c] [0] [1; 0]); try done.
    - apply base_plain.
    - apply simple_plain. set_solver.
    - apply (counted _ [3; 300] [2] [3; 0x81; 0x2c]); [done|].
      apply (data_seq 3 [300] [3]); [done|]. apply (data_seq 300 [] [0x81; 0x2c] []); [done|constructor].
    - apply (counted _ [0] [1] [0]); [done|]. apply (data_seq 0 [] [0] []); [done|constructor]. }
  assert (TypeSig sample_var [0x1e; 1]) as Hvar.
  { apply (ts_var (new_base ELEMENT_TYPE_MVAR) [0x1e] 1 [1]); [set_solver|apply base_plain|done]. }
  assert (TypeSig sample_function [0x1b; 0x10; 1; 1; 1; 0x0e]) as Hfn.
  { apply (ts_fnptr (new_base ELEMENT_TYPE_FNPTR) [0x1b] [0x10; 1; 1; 1; 0x0e]); [done|apply base_plain|].
    apply (ms_intro 0x10 1 _ _ [1] [1] [1] [0x0e]); try done; [vm_compute; set_solver|apply simple_plain; set_solver|].
    apply (tss_cons _ [] [0x0e] []); [apply simple_plain; set_solver|constructor]. }
  apply (ts_composite _ [0x45; 0x20; 0x15; 0x10] sample_instance (drop 4 sample_bytes)); [set_solver| |].
  - apply (base_sig (base sample_type) [0x20; 0x15]). apply (seq_cons _ _ [] [0x20; 0x15] []); [|constructor].
    apply (modifier_sig (mkModifier ELEMENT_TYPE_CMOD_OPT 0x01000005) [0x15]); [set_solver|done].
  - apply (ts_inst (new_base ELEMENT_TYPE_GENERICINST) [0x15] _ [0x12; 0x0c] _ [3] (drop 8 sample_bytes)); try done.
    + apply base_plain.
    + apply (ts_token (new_base ELEMENT_TYPE_CLASS) [0x12] _ [0x0c]); [set_solver|apply base_plain|done].
    + apply (tss_cons _ _ [0x14; 0x08; 2; 2; 3; 0x81; 0x2c; 1; 0]); [done|]. apply (tss_cons _ _ [0x1e; 1]); [done|].
      apply (tss_cons _ [] [0x1b; 0x10; 1; 1; 1; 0x0e] []); [done|constructor].
Qed.

Lemma AddToSignature_writes_witness : exists b,
  AddToSignature sample_type new_builder = (Ok tt, b) /\ holds b sample_bytes.
Proof.
  destruct (AddToSignature_writes sample_type sample_bytes new_builder [] sample_sig holds_new eq_refl) as (b & E & Hh).
  exists b. exact (conj E Hh).
Defined.
