(* ===== verification/SigParser.v ===== *)
(** [SigParser]: a cursor over the bytes of a signature.  The methods that consume
    never leave the signature, except those that decode a compressed integer when
    nothing is left; what a signature builder wrote is read back. *)
From S2P Require Import Prelude CorSig SignatureBuilder Types.

(** [m_ptr] is a position in the signature the parser was made for. *)
Record SigParser := mkParser { m_ptr : Z; m_dwLen : Z }.

Notation P := (M SigParser).

Definition IMAGE_CEE_CS_CALLCONV_MASK : Z := 0x0f.

Section Parser.

Context (sig : list Z).

(** [SkipBytes]: the comparison with [m_dwLen] only logs. *)
Definition SkipBytes (cb : Z) : P unit := modify (fun p => mkParser (m_ptr p + cb) (u32 (m_dwLen p - cb))).

(** [*m_ptr], when something is left. *)
Definition first_byte : P Z :=
  p <- gets id ;;
  if 0 <? m_dwLen p then lift (read_byte sig (m_ptr p)) else fail META_E_BAD_SIGNATURE.

Definition GetData : P Z :=
  p <- gets id ;;
  r <- lift (CorSigUncompressData sig (m_ptr p) (m_dwLen p)) ;;
  SkipBytes (snd r) ;;; ret (fst r).

Definition PeekData : P Z :=
  p <- gets id ;;
  r <- lift (CorSigUncompressData sig (m_ptr p) (m_dwLen p)) ;;
  ret (fst r).

Definition GetByte : P Z := b <- first_byte ;; SkipBytes 1 ;;; ret b.
Definition PeekByte : P Z := first_byte.
Definition GetElemType : P Z := b <- first_byte ;; SkipBytes 1 ;;; ret b.
Definition PeekElemType : P Z := first_byte.

Definition PeekCallingConvInfo : P Z :=
  p <- gets id ;; lift (CorSigUncompressCallingConv sig (m_ptr p) (m_dwLen p)).

Definition GetCallingConvInfo : P Z :=
  p <- gets id ;;
  c <- lift (CorSigUncompressCallingConv sig (m_ptr p) (m_dwLen p)) ;;
  SkipBytes 1 ;;; ret c.

Definition GetCallingConv : P Z := info <- GetCallingConvInfo ;; ret (Z.land IMAGE_CEE_CS_CALLCONV_MASK info).

Definition AtSentinel : P bool :=
  p <- gets id ;;
  if 0 <? m_dwLen p then b <- lift (read_byte sig (m_ptr p)) ;; ret (b =? ELEMENT_TYPE_SENTINEL) else ret false.

Definition GetToken : P Z :=
  p <- gets id ;;
  r <- lift (CorSigUncompressToken sig (m_ptr p) (m_dwLen p)) ;;
  SkipBytes (snd r) ;;; ret (fst r).

(** ** The calls as a step relation *)

Inductive parser_op := OpData | OpPeekData | OpByte | OpPeekByte | OpElem | OpPeekElem
  | OpConv | OpConvInfo | OpPeekConvInfo | OpToken | OpSentinel.

Definition run_op (op : parser_op) : P Z :=
  match op with
  | OpData => GetData | OpPeekData => PeekData
  | OpByte => GetByte | OpPeekByte => PeekByte
  | OpElem => GetElemType | OpPeekElem => PeekElemType
  | OpConv => GetCallingConv | OpConvInfo => GetCallingConvInfo | OpPeekConvInfo => PeekCallingConvInfo
  | OpToken => GetToken
  | OpSentinel => b <- AtSentinel ;; ret (Z.b2z b)
  end.

(** The calls that decode a compressed integer. *)
Definition decodes (op : parser_op) : bool :=
  match op with OpData | OpPeekData | OpToken => true | _ => false end.

(** A caller goes on after a value and after a failure. *)
Inductive parser_step : SigParser -> SigParser -> Prop :=
  | ps_ok op p x p' : run_op op p = (Ok x, p') -> parser_step p p'
  | ps_err op p hr p' : run_op op p = (Err hr, p') -> parser_step p p'.

Definition parser_start : SigParser := mkParser 0 (Z.of_nat (length sig)).

Definition inside (p : SigParser) : Prop :=
  0 <= m_ptr p /\ 0 <= m_dwLen p /\ m_ptr p + m_dwLen p = Z.of_nat (length sig).

Context (Hlen : Z.of_nat (length sig) < 2 ^ 32).

Lemma read_inside pos : 0 <= pos < Z.of_nat (length sig) -> exists b, read_byte sig pos = Ok b.
Proof.
  intros Hp. destruct (lookup_lt_is_Some_2 sig (Z.to_nat pos)) as [b Hb]; [lia|]. exists b.
  pose proof (read_byte_mid (take (Z.to_nat pos) sig) b [] (drop (S (Z.to_nat pos)) sig)) as H.
  cbn [app] in H. rewrite take_drop_middle in H by done.
  rewrite length_take_le, Z2Nat.id in H by (lia || apply lookup_lt_Some in Hb; lia). done.
Qed.

Lemma uncompress_inside pos len :
  0 <= pos -> 1 <= len -> pos + len = Z.of_nat (length sig) ->
  (exists i n, CorSigUncompressData sig pos len = Ok (i, n) /\ 1 <= n <= len) \/
  CorSigUncompressData sig pos len = Err META_E_BAD_SIGNATURE.
Proof using Type.
  intros H0 H1 Hl. assert (forall k, 0 <= k < len -> exists b, read_byte sig (pos + k) = Ok b) as Hr
    by (intros; apply read_inside; lia).
  unfold CorSigUncompressData. destruct (Hr 0) as [b E]; [lia|]. rewrite Z.add_0_r in E. rewrite E. cbn [obind].
  destruct (Z.land b 0x80 =? 0); [|destruct (Z.land b 0xC0 =? 0x80); [|destruct (Z.land b 0xE0 =? 0xC0); [|by right]]].
  - rewrite (proj2 (Z.ltb_ge len 1)) by lia. left. eexists _, _. split; [done|lia].
  - destruct (Z.ltb_spec len 2); [by right|]. left. destruct (Hr 1) as [? ->]; [lia|]. eexists _, _. split; [done|lia].
  - destruct (Z.ltb_spec len 4); [by right|]. left. destruct (Hr 1) as [? ->]; [lia|].
    destruct (Hr 2) as [? ->]; [lia|]. destruct (Hr 3) as [? ->]; [lia|]. eexists _, _. split; [done|lia].
Qed.

(** What one call does from inside the signature. *)
Lemma run_op_inside op p :
  inside p -> (1 <= m_dwLen p \/ decodes op = false) ->
  exists r p', run_op op p = (r, p') /\ inside p' /\ m_ptr p <= m_ptr p' /\
    ((exists x, r = Ok x) \/ r = Err META_E_BAD_SIGNATURE /\ p' = p).
Proof using Hlen.
  intros Hi Hop. destruct p as [pos len]. unfold inside in *. cbn [m_ptr m_dwLen] in *. destruct Hi as (H0 & H1 & Hl).
  assert (1 <= len -> exists b, read_byte sig pos = Ok b) as Hr by (intros; apply read_inside; lia).
  pose proof (fun H => uncompress_inside pos len H0 H Hl) as Hu.
  destruct op; unfold run_op, GetData, PeekData, GetByte, PeekByte, GetElemType, PeekElemType, first_byte,
    GetCallingConv, GetCallingConvInfo, PeekCallingConvInfo, AtSentinel, GetToken,
    CorSigUncompressToken, CorSigUncompressCallingConv, SkipBytes, bind, gets, lift, ret, fail, modify, id in *;
    cbn [m_ptr m_dwLen decodes] in *.
  all: first
    [ destruct Hop as [Hop|?]; [|done];
      destruct (Hu Hop) as [(i & n & -> & Hn)| ->]; cbn [obind fst snd];
      eexists _, _; (split; [reflexivity|]); cbn [m_ptr m_dwLen]; rewrite ?u32_small by (unfold is_u32; lia);
      (split_and!; [lia..|by (left; eexists) + by right])
    | destruct (Z.ltb_spec 0 len) as [Hp|Hp];
      [destruct Hr as [b ->]; [lia|]|]; eexists _, _; (split; [reflexivity|]);
      cbn [m_ptr m_dwLen]; rewrite ?u32_small by (unfold is_u32; lia);
      (split_and!; [lia..|by (left; eexists) + by right]) ].
Qed.

Lemma run_op_end op p :
  inside p -> m_dwLen p = 0 -> decodes op = true -> fst (run_op op p) = Undef OutOfBoundsRead.
Proof using Type.
  intros (H0 & _ & Hl) Hz Hd. destruct p as [pos len]. cbn [m_ptr m_dwLen] in *. subst len.
  assert (read_byte sig pos = Undef OutOfBoundsRead) as E.
  { unfold read_byte, read_at. by rewrite decide_False by lia. }
  destruct op; try done; unfold run_op, GetData, PeekData, GetToken, CorSigUncompressToken, CorSigUncompressData, bind, gets, lift, id;
    cbn [m_ptr m_dwLen]; by rewrite E.
Qed.

End Parser.

(** C39: a signature parser stays inside its signature: after any sequence of calls,
    failed ones included, the position and the remaining length add up to the length
    of the signature; no call reads outside it, except that GetData, PeekData and
    GetToken read the byte behind it when nothing is left. *)
Theorem SigParser_stays_inside sig p op :
  Z.of_nat (length sig) < 2 ^ 32 ->
  rtc (parser_step sig) (parser_start sig) p ->
  inside sig p /\
  ((exists u, fst (run_op sig op p) = Undef u) <-> m_dwLen p = 0 /\ decodes op = true) /\
  fst (run_op sig op p) <> NoFuel.
Proof.
  intros Hlen Hr. assert (inside sig p) as Hi.
  { apply (rtc_ind_r (fun p => inside sig p) (parser_start sig)) in Hr; [done|unfold inside, parser_start; cbn; lia|].
    intros p1 p2 _ Hs Hi. destruct Hs as [op' p1 x p2 E|op' p1 hr p2 E].
    all: destruct (decide (m_dwLen p1 = 0 /\ decodes op' = true)) as [[Hz Hd]|Hn];
      [pose proof (run_op_end sig op' p1 Hi Hz Hd) as H; by rewrite E in H|].
    all: destruct (run_op_inside sig Hlen op' p1 Hi) as (r & p' & E' & Hi' & _);
      [destruct Hi as (_ & ? & _); destruct (decodes op'); [left|by right]; destruct (decide (m_dwLen p1 = 0)); naive_solver lia|].
    all: rewrite E in E'; by injection E' as <- <-. }
  split; [done|]. destruct (decide (m_dwLen p = 0 /\ decodes op = true)) as [[Hz Hd]|Hn].
  - rewrite (run_op_end sig op p Hi Hz Hd). split; [|done]. split; [done|by eexists].
  - destruct (run_op_inside sig Hlen op p Hi) as (r & p' & E' & _ & _ & Ho).
    { destruct Hi as (_ & ? & _). destruct (decodes op); [left|by right]. destruct (decide (m_dwLen p = 0)); naive_solver lia. }
    rewrite E'. cbn [fst]. destruct Ho as [[x ->]|[-> _]]; split; try done; by split; [intros [? ?]|].
Qed.

Lemma SigParser_stays_inside_witness : inside [0x0f; 0x08] (mkParser 1 1).
Proof.
  eapply (SigParser_stays_inside [0x0f; 0x08] (mkParser 1 1) OpByte); [reflexivity|].
  eapply rtc_l; [apply (ps_ok _ OpElem _ 0x0f); reflexivity|apply rtc_refl].
Defined.

(** ** Reading what a builder wrote *)

(** The call that reads back what a builder call wrote, and the value it returns. *)
Inductive reads_back : call -> parser_op -> Z -> Prop :=
  | rb_add x : sig_value x -> reads_back (CallAdd x) OpData x
  | rb_token tk : type_token tk -> reads_back (CallToken tk) OpToken tk
  | rb_element x : is_byte x -> reads_back (CallElement x) OpElem x.

Fixpoint run_ops (sig : list Z) (ops : list parser_op) : P (list Z) :=
  match ops with
  | [] => ret []
  | op :: ops => x <- run_op sig op ;; xs <- run_ops sig ops ;; ret (x :: xs)
  end.

(** The parser before the last [n] bytes. *)
Definition parser_at (sig : list Z) (n : nat) : SigParser := mkParser (Z.of_nat (length sig) - Z.of_nat n) (Z.of_nat n).

Lemma skip_at sig pre bs post :
  sig = pre ++ bs ++ post -> Z.of_nat (length sig) < 2 ^ 32 ->
  SkipBytes (Z.of_nat (length bs)) (parser_at sig (length (bs ++ post))) = (Ok tt, parser_at sig (length post)).
Proof.
  intros -> Hl. unfold SkipBytes, modify, parser_at. cbn [m_ptr m_dwLen]. rewrite !length_app in *.
  rewrite u32_small by (unfold is_u32; lia). do 2 f_equal; lia.
Qed.

Lemma read_back_run c op x pre :
  reads_back c op x -> exists bs, appends c bs /\ (1 <= length bs <= 4)%nat /\ forall post sig,
  sig = pre ++ bs ++ post -> Z.of_nat (length sig) < 2 ^ 32 ->
  run_op sig op (parser_at sig (length (bs ++ post))) = (Ok x, parser_at sig (length post)).
Proof.
  assert (forall (pre bs post sig : list Z), sig = pre ++ bs ++ post ->
    Z.of_nat (length sig) - Z.of_nat (length (bs ++ post)) = Z.of_nat (length pre) /\
    Z.of_nat (length (bs ++ post)) = Z.of_nat (length sig) - Z.of_nat (length pre)) as Hpos
    by (intros ? ? ? ? ->; rewrite !length_app; lia).
  intros [y Hy|tk Ht|y Hy].
  - destruct (rest_codec y Hy) as (bs & E & Hlen & _ & Hd). exists bs. split; [by constructor|]. split; [done|].
    intros post sig Es Hl. cbn [run_op]. unfold GetData. rewrite (run_bind _ _ _ _ _ (eq_refl : gets id _ = _)).
    unfold id. cbn [parser_at m_ptr m_dwLen]. destruct (Hpos pre bs post sig Es) as [-> ->].
    rewrite Es at 1 2. rewrite (Hd pre post : CorSigUncompressData _ _ (Z.of_nat (length (pre ++ bs ++ post)) - _) = _).
    rewrite (run_bind _ _ _ _ _ (eq_refl : lift (Ok _) _ = _)). cbn [fst snd].
    by rewrite (run_bind _ _ _ _ _ (skip_at sig pre bs post Es Hl)).
  - destruct (token_rest_codec tk Ht) as (bs & E & Hlen & _ & Hd). exists bs. split; [by constructor|]. split; [done|].
    intros post sig Es Hl. cbn [run_op]. unfold GetToken. rewrite (run_bind _ _ _ _ _ (eq_refl : gets id _ = _)).
    unfold id. cbn [parser_at m_ptr m_dwLen]. destruct (Hpos pre bs post sig Es) as [-> ->].
    rewrite Es at 1 2. rewrite (Hd pre post : CorSigUncompressToken _ _ (Z.of_nat (length (pre ++ bs ++ post)) - _) = _).
    rewrite (run_bind _ _ _ _ _ (eq_refl : lift (Ok _) _ = _)). cbn [fst snd].
    by rewrite (run_bind _ _ _ _ _ (skip_at sig pre bs post Es Hl)).
  - exists [y]. split; [rewrite <- (u8_small y) at 2 by done; constructor|]. split; [cbn; lia|].
    intros post sig Es Hl. cbn [run_op]. unfold GetElemType, first_byte. rewrite bind_bind, (run_bind _ _ _ _ _ (eq_refl : gets id _ = _)).
    unfold id. cbn [parser_at m_ptr m_dwLen]. destruct (Hpos pre [y] post sig Es) as [-> _].
    rewrite (proj2 (Z.ltb_lt _ _)) by (cbn; lia). rewrite Es at 1.
    rewrite (read_byte_mid pre y [] post : read_byte (pre ++ [y] ++ post) _ = _).
    rewrite (run_bind _ _ _ _ _ (eq_refl : lift (Ok _) _ = _)).
    by rewrite (run_bind _ _ _ _ _ (skip_at sig pre [y] post Es Hl)).
Qed.

Lemma read_all_run cs ops xs :
  Forall3 reads_back cs ops xs -> exists bss, Forall2 appends cs bss /\
  (length (concat bss) <= 4 * length cs)%nat /\ forall pre sig,
  sig = pre ++ concat bss -> Z.of_nat (length sig) < 2 ^ 32 ->
  run_ops sig ops (parser_at sig (length (concat bss))) = (Ok xs, parser_at sig 0).
Proof.
  induction 1 as [|c op x cs ops xs Hc _ IH]; [exists []; by split_and!|].
  destruct IH as (bss & Ha & Hlen & Hr). destruct (read_back_run c op x [] Hc) as (bs & Hb & Hbl & _). exists (bs :: bss).
  split; [by constructor|]. cbn [concat length]. split; [rewrite length_app; lia|]. intros pre sig Es Hl. cbn [run_ops].
  destruct (read_back_run c op x pre Hc) as (bs' & Hb' & _ & Hrun).
  assert (bs' = bs) as -> by (destruct Hc; inversion Hb; inversion Hb'; congruence).
  rewrite (run_bind _ _ _ _ _ (Hrun (concat bss) sig Es Hl)).
  rewrite (run_bind _ _ _ _ _ (Hr (pre ++ bs) sig ltac:(by rewrite <- app_assoc) Hl)). done.
Qed.

(** A parser over the signature that a builder gives back after any sequence of
    Add, AddToken and AddElementType calls with values that have an encoding returns,
    called in the same order, the values that were added, and has nothing left at the
    end. *)
Theorem SigParser_reads_builder cs ops xs :
  Forall3 reads_back cs ops xs -> 4 * Z.of_nat (length cs) + 4 < limit ->
  exists b sig, run_calls cs new_builder = (Ok tt, b) /\
    GetCorSignature (Some (m_used b)) b = (Ok (Z.of_nat (length sig), map Some sig), b) /\
    run_ops sig ops (parser_start sig) = (Ok xs, mkParser (Z.of_nat (length sig)) 0).
Proof.
  intros Hc Hl. destruct (read_all_run cs ops xs Hc) as (bss & Ha & Hlen & Hr).
  destruct (run_calls_run cs bss Ha new_builder [] holds_new ltac:(cbn; lia)) as (b & E & Hh). cbn [app] in Hh.
  exists b, (concat bss). split; [done|]. pose proof (holds_bytes _ _ Hh) as Hb. destruct Hh as [Hu _ _]. split.
  - unfold GetCorSignature. rewrite (run_bind _ _ _ _ _ (eq_refl : gets id b = _)). cbn [id].
    rewrite Z.ltb_irrefl, Hb. unfold ret. by rewrite Hu.
  - specialize (Hr [] (concat bss) eq_refl). unfold parser_at in Hr. rewrite Z.sub_diag, Z.sub_0_r in Hr.
    apply Hr. unfold limit in Hl. lia.
Qed.

Lemma SigParser_reads_builder_witness : exists b sig,
  run_calls [CallElement 0x1d; CallToken 0x01000023; CallAdd 0x4000] new_builder = (Ok tt, b) /\
  run_ops sig [OpElem; OpToken; OpData] (parser_start sig) = (Ok [0x1d; 0x01000023; 0x4000], mkParser (Z.of_nat (length sig)) 0).
Proof.
  destruct (SigParser_reads_builder [CallElement 0x1d; CallToken 0x01000023; CallAdd 0x4000]
    [OpElem; OpToken; OpData] [0x1d; 0x01000023; 0x4000]) as (b & sig & E & _ & H).
  - repeat constructor; done.
  - reflexivity.
  - exists b, sig. exact (conj E H).
Defined.
