(* ===== verification/Enumerator.v ===== *)
(** [CEnumerator]: the COM enumerator over a copied array that the engine's APIs give
    out (of types, of locals, of exception clauses).  Draining it one item at a time
    is what the engine's own loops do. *)
From S2P Require Import Prelude.

Section Enumerator.

Context {A : Type}.

Record CEnumerator := mkEnumerator {
  m_members : list A;
  m_dwLength : Z;
  m_dwCurrentIndex : Z
}.

Notation E := (M CEnumerator).

(** [CEnumerator::CEnumerator], of which the array is null, and [Initialize] with a
    vector. *)
Definition new_enumerator : CEnumerator := mkEnumerator [] 0 0.

Definition Initialize (members : list A) : E unit :=
  modify (fun e => mkEnumerator members (u32 (Z.of_nat (length members))) (m_dwCurrentIndex e)).

(** The loop of [Next] from index [i], for at most [n] more items: [rgelt[i]] is
    taken from [m_members[i + m_dwCurrentIndex]] and [m_dwCurrentIndex] is advanced. *)
Fixpoint next_loop (n : nat) (i : Z) : E (list A) :=
  match n with
  | O => ret []
  | S n =>
      e <- gets id ;;
      if u32 (i + m_dwCurrentIndex e) <? m_dwLength e then
        x <- lift (of_option OutOfBoundsRead (m_members e !! Z.to_nat (u32 (i + m_dwCurrentIndex e)))) ;;
        modify (fun e => mkEnumerator (m_members e) (m_dwLength e) (u32 (m_dwCurrentIndex e + 1))) ;;;
        xs <- next_loop n (i + 1) ;;
        ret (x :: xs)
      else ret []
  end.

(** [Next]: the items, with the count that [*pceltFetched] gets, and whether the
    result is [S_OK] or [S_FALSE]. *)
Definition Next (celt : Z) : E (list A * HRESULT) :=
  dwOrigCurrIndex <- gets m_dwCurrentIndex ;;
  xs <- next_loop (Z.to_nat celt) 0 ;;
  cur <- gets m_dwCurrentIndex ;;
  ret (xs, if celt =? u32 (cur - dwOrigCurrIndex) then S_OK else S_FALSE).

Definition Skip (celt : Z) : E HRESULT :=
  modify (fun e => mkEnumerator (m_members e) (m_dwLength e) (u32 (m_dwCurrentIndex e + celt))) ;;;
  e <- gets id ;;
  if m_dwLength e <=? m_dwCurrentIndex e then
    modify (fun e => mkEnumerator (m_members e) (m_dwLength e) (m_dwLength e)) ;;; ret S_FALSE
  else ret S_OK.

Definition Reset_ : E unit := modify (fun e => mkEnumerator (m_members e) (m_dwLength e) 0).

Definition GetCount : E Z := gets m_dwLength.

(** The loop [while (S_OK == (hr = p->Next(1, &x, &n)))] of the clients. *)
Fixpoint drain (fuel : nat) : E (list A) :=
  match fuel with
  | O => out_of_fuel
  | S fuel =>
      r <- Next 1 ;;
      match snd r with
      | S_OK => x <- deref (head (fst r)) ;; xs <- drain fuel ;; ret (x :: xs)
      | _ => ret []
      end
  end.

(** The whole of a collection, through an enumerator that is made for it. *)
Definition enumerate (l : list A) : outcome (list A) := fst ((Initialize l ;;; drain (S (length l))) new_enumerator).

(** ** What the calls do *)

(** An enumerator over [l] that stands at [k]. *)
Definition stands (l : list A) (k : nat) : CEnumerator := mkEnumerator l (Z.of_nat (length l)) (Z.of_nat k).

Definition small (l : list A) : Prop := Z.of_nat (length l) < 2 ^ 31.

(** Every other item of a list, [n] of them at most. *)
Fixpoint stride (n : nat) (l : list A) : list A :=
  match n, l with
  | S n, x :: l => x :: stride n (drop 1 l)
  | _, _ => []
  end.

Lemma next_loop_run l n i c :
  small l -> (c + 2 * i <= length l + 1)%nat ->
  next_loop n (Z.of_nat i) (stands l (c + i)) =
    (Ok (stride n (drop (c + 2 * i) l)), stands l (c + i + length (stride n (drop (c + 2 * i) l)))).
Proof.
  intros Hs. unfold small in Hs. revert i. induction n as [|n IH]; intros i Hi; cbn [next_loop].
  - cbn. by rewrite Nat.add_0_r.
  - rewrite (run_bind _ _ _ _ _ (eq_refl : gets id _ = _)). unfold id. cbn [stands m_members m_dwLength m_dwCurrentIndex].
    rewrite u32_small by (unfold is_u32; lia). replace (Z.to_nat (Z.of_nat i + Z.of_nat (c + i))) with (c + 2 * i)%nat by lia.
    destruct (Z.ltb_spec (Z.of_nat i + Z.of_nat (c + i)) (Z.of_nat (length l))) as [Hlt|Hge].
    + destruct (lookup_lt_is_Some_2 l (c + 2 * i)) as [x Hx]; [lia|]. rewrite Hx.
      rewrite (run_bind _ _ _ _ _ (eq_refl : lift (Ok x) _ = _)), (run_bind _ _ _ _ _ (eq_refl : modify _ _ = _)).
      cbn [stands m_members m_dwLength m_dwCurrentIndex]. rewrite u32_small by (unfold is_u32; lia).
      specialize (IH (S i) ltac:(lia)). unfold stands in *. replace (Z.of_nat (c + i) + 1) with (Z.of_nat (c + S i)) by lia.
      replace (Z.of_nat i + 1) with (Z.of_nat (S i)) by lia. rewrite (run_bind _ _ _ _ _ IH).
      rewrite (drop_S l x _ Hx). cbn [stride]. rewrite drop_drop. replace (S (c + 2 * i) + 1)%nat with (c + 2 * S i)%nat by lia.
      unfold ret. do 2 f_equal. cbn [length]. f_equal. lia.
    + rewrite drop_ge by lia. cbn. by rewrite Nat.add_0_r.
Qed.

Lemma stride_length n l : (length (stride n l) <= n)%nat /\ (length (stride n l) <= length l)%nat.
Proof.
  revert l. induction n as [|n IH]; intros [|x l]; cbn; try lia. destruct (IH (drop 1 l)) as [H1 H2].
  rewrite length_drop in H2. lia.
Qed.

Lemma Next_run l k celt :
  small l -> (k <= length l)%nat -> is_u32 celt ->
  Next celt (stands l k) =
    let xs := stride (Z.to_nat celt) (drop k l) in
    (Ok (xs, if decide (length xs = Z.to_nat celt) then S_OK else S_FALSE), stands l (k + length xs)).
Proof.
  intros Hs Hk Hc. unfold Next. rewrite (run_bind _ _ _ _ _ (eq_refl : gets m_dwCurrentIndex _ = _)).
  pose proof (next_loop_run l (Z.to_nat celt) 0 k Hs ltac:(lia)) as H. rewrite !Nat.add_0_r in H. cbn [Nat.mul] in H.
  rewrite (run_bind _ _ _ _ _ H). clear H. cbn zeta.
  rewrite (run_bind _ _ _ _ _ (eq_refl : gets m_dwCurrentIndex _ = _)). cbn [stands m_dwCurrentIndex].
  set (xs := stride _ _). destruct (stride_length (Z.to_nat celt) (drop k l)) as [H1 H2]. fold xs in H1, H2.
  rewrite length_drop in H2. unfold small, is_u32 in *. rewrite u32_small by (unfold is_u32; lia). unfold ret. do 2 f_equal.
  destruct (Z.eqb_spec celt (Z.of_nat (k + length xs) - Z.of_nat k)); case_decide; (reflexivity || lia).
Qed.

Lemma drain_run l k fuel :
  small l -> (k <= length l)%nat -> (length l - k < fuel)%nat ->
  drain fuel (stands l k) = (Ok (drop k l), stands l (length l)).
Proof.
  intros Hs. revert k. induction fuel as [|fuel IH]; intros k Hk Hf; [lia|]. cbn [drain].
  rewrite (run_bind _ _ _ _ _ (Next_run l k 1 Hs Hk ltac:(done))). change (Z.to_nat 1) with 1%nat. cbn zeta.
  destruct (drop k l) as [|x m] eqn:Ed.
  - cbn. apply (f_equal length) in Ed. rewrite length_drop in Ed. cbn in Ed. by replace (k + 0)%nat with (length l) by lia.
  - assert (l !! k = Some x) as Hx by (rewrite <- (Nat.add_0_r k), <- lookup_drop, Ed; done).
    apply lookup_lt_Some in Hx as Hlt. rewrite (drop_S l x k Hx) in Ed. injection Ed as Ed. subst m.
    cbn [stride length fst snd head]. rewrite decide_True by done. rewrite (run_bind _ _ _ _ _ (eq_refl : deref (Some x) _ = _)).
    replace (k + 1)%nat with (S k) by lia. by rewrite (run_bind _ _ _ _ _ (IH (S k) ltac:(lia) ltac:(lia))).
Qed.

Lemma Initialize_stands l : small l -> Initialize l new_enumerator = (Ok tt, stands l 0).
Proof. intros Hs. unfold small in Hs. unfold Initialize, modify, stands. by rewrite u32_small by (unfold is_u32; lia). Qed.

Lemma enumerate_all l : small l -> enumerate l = Ok l.
Proof.
  intros Hs. unfold enumerate. rewrite (run_bind _ _ _ _ _ (Initialize_stands l Hs)). by rewrite (drain_run l 0 _ Hs) by lia.
Qed.

End Enumerator.

Arguments CEnumerator : clear implicits.

(** Next with room for more than one item skips: both the loop's index and the
    current index advance, so that it returns the items at k, k + 2, k + 4 and so on,
    and moves the position by the number returned, to items it has passed or already
    given out. *)
Theorem Next_strides {A} (l : list A) k celt :
  small l -> (k <= length l)%nat -> is_u32 celt ->
  exists xs, Next celt (stands l k) =
      (Ok (xs, if decide (length xs = Z.to_nat celt) then S_OK else S_FALSE), stands l (k + length xs)) /\
    length xs = Nat.min (Z.to_nat celt) (Nat.div2 (S (length l - k))) /\
    forall j, (j < length xs)%nat -> xs !! j = l !! (k + 2 * j)%nat.
Proof.
  intros Hs Hk Hc. eexists. split; [by apply Next_run|]. generalize (Z.to_nat celt) as n. clear Hs Hc. intros n.
  rewrite <- length_drop. assert (forall j, l !! (k + 2 * j)%nat = drop k l !! (2 * j)%nat) as Hj
    by (intros; by rewrite lookup_drop). setoid_rewrite Hj. clear Hj. generalize (drop k l) as m. clear.
  induction n as [|n IH]; intros [|x m]; [split; [done|cbn; lia]..|]. cbn [stride].
  destruct (IH (drop 1 m)) as [Hl Hn]. split.
  - cbn [length]. rewrite Hl. destruct m; cbn [drop length Nat.div2]; [cbn; lia|]. by rewrite Nat.sub_0_r || done.
  - intros [|j] Hj; [done|]. cbn [length] in Hj. replace (2 * S j)%nat with (S (S (2 * j))) by lia.
    change (stride n (drop 1 m) !! j = m !! S (2 * j)%nat).
    rewrite (Hn j) by lia. by rewrite lookup_drop.
Qed.

Lemma Next_strides_witness : exists xs, Next 2 (stands [1; 2; 3; 4] 0) = (Ok (xs, S_OK), stands [1; 2; 3; 4] 2) /\ xs = [1; 3].
Proof.
  destruct (Next_strides [1; 2; 3; 4] 0 2 eq_refl ltac:(cbn; lia) ltac:(done)) as (xs & E & Hl & Hn). exists xs.
  change (length xs = 2%nat) in Hl. rewrite Hl in E. split; [exact E|].
  destruct xs as [|x [|y [|]]]; try done. pose proof (Hn 0%nat ltac:(cbn; lia)) as H0. pose proof (Hn 1%nat ltac:(cbn; lia)) as H1.
  cbn in H0, H1. congruence.
Defined.
