(* ===== verification/TypeCreator.v ===== *)
(** [CTypeCreator]: the parser of type, method and local variable signatures.  The
    offsets are [DWORD]s that wrap around, as in the source, and the recursion and the
    loops run on fuel; [fuel >= cbBuffer] is enough for well-formed signatures. *)
From S2P Require Import Prelude CorSig Types Enumerator.

(** [FromCorElement] and [FromToken] *)
Definition FromCorElement (type : Z) : outcome CType :=
  if bool_decide (type ∈ simple_elements) then Ok (CSimpleType (new_base type)) else Err E_NOTIMPL.

Definition FromToken (type token : Z) : outcome CType :=
  if bool_decide (type ∉ [ELEMENT_TYPE_CLASS; ELEMENT_TYPE_VALUETYPE]) then Err E_INVALIDARG
  else Ok (CTokenType (new_base type) token).

Section Parsing.

(** The memory that the signature pointers point into. *)
Context (sig : list Z).

(** The functions below keep one local offset, [currentSize] or [cbRead], into the
    signature that starts at position [at_]; the offset is the state. *)
Notation C := (M Z).

(** [currentSize += CorSigUncompressData(&currentSignature[currentSize], &x)], and the
    same for a token. *)
Definition next_data (at_ : Z) : C Z :=
  currentSize <- gets id ;;
  r <- lift (CorSigUncompressData_unbounded sig (at_ + currentSize)) ;;
  modify (fun currentSize => u32 (currentSize + snd r)) ;;;
  ret (fst r).

Definition next_token (at_ : Z) : C Z :=
  currentSize <- gets id ;;
  r <- lift (CorSigUncompressToken_unbounded sig (at_ + currentSize)) ;;
  modify (fun currentSize => u32 (currentSize + snd r)) ;;;
  ret (fst r).

(** A call [F(cbBuffer - currentSize, &currentSignature[currentSize], ..., &newSize)]
    followed by [currentSize += newSize]. *)
Definition nested {A} (F : Z -> Z -> outcome (A * Z)) (cbBuffer at_ : Z) : C A :=
  currentSize <- gets id ;;
  r <- lift (F (u32 (cbBuffer - currentSize)) (at_ + currentSize)) ;;
  modify (fun currentSize => u32 (currentSize + snd r)) ;;;
  ret (fst r).

(** [IfFailRet(cbBuffer > currentSize ? S_OK : E_UNEXPECTED)], and with [>=]. *)
Definition more_left (cbBuffer : Z) : C unit :=
  currentSize <- gets id ;; if_false_ret (currentSize <? cbBuffer) E_UNEXPECTED.
Definition not_past (cbBuffer : Z) : C unit :=
  currentSize <- gets id ;; if_false_ret (currentSize <=? cbBuffer) E_UNEXPECTED.

(** [for (ULONG i = 0; i < n; i++) xs.push_back(item)] *)
Fixpoint collect {A} (fuel : nat) (n : Z) (item : C A) : C (list A) :=
  match fuel with
  | O => if n <=? 0 then ret [] else out_of_fuel
  | S fuel =>
      if n <=? 0 then ret []
      else x <- item ;; xs <- collect fuel (n - 1) item ;; ret (x :: xs)
  end.

(** The result of a function with its offset, from where the offset starts. *)
Definition with_size {A} (m : C A) (start : Z) : outcome (A * Z) :=
  match m start with
  | (Ok a, currentSize) => Ok (a, currentSize)
  | (Err hr, _) => Err hr
  | (Undef u, _) => Undef u
  | (NoFuel, _) => NoFuel
  end.

(** The functions that [FromSignature] and they themselves call, over [rec], which
    stands for [FromSignature]. *)
Section Body.

Context (fuel : nat) (rec : Z -> Z -> outcome (CType * Z)).

(** [ParseTypeSequence] *)
Definition parse_types (cTypes cbBuffer at_ : Z) : outcome (list CType * Z) :=
  with_size (collect fuel cTypes (t <- nested rec cbBuffer at_ ;; not_past cbBuffer ;;; ret t)) 0.

(** [ParseMethodSignature]: the calling convention, the return type, the parameters
    and the number of generic type parameters. *)
Definition parse_method (cbSignature at_ : Z) : outcome (Z * CType * list CType * Z * Z) :=
  with_size (
    callingConvention <- next_data at_ ;;
    if bool_decide (callingConvention ∈ [IMAGE_CEE_CS_CALLCONV_MAX; IMAGE_CEE_CS_CALLCONV_FIELD;
         IMAGE_CEE_CS_CALLCONV_GENERICINST; IMAGE_CEE_CS_CALLCONV_LOCAL_SIG; IMAGE_CEE_CS_CALLCONV_PROPERTY])
    then fail E_UNEXPECTED
    else
      more_left cbSignature ;;;
      cGenericTypeParameters <-
        (if Z.land callingConvention IMAGE_CEE_CS_CALLCONV_GENERIC =? IMAGE_CEE_CS_CALLCONV_GENERIC
         then n <- next_data at_ ;; more_left cbSignature ;;; ret n
         else ret 0) ;;
      cParameterTypes <- next_data at_ ;;
      more_left cbSignature ;;;
      returnType <- nested rec cbSignature at_ ;;
      not_past cbSignature ;;;
      parameterTypes <- nested (parse_types cParameterTypes) cbSignature at_ ;;
      not_past cbSignature ;;;
      ret (callingConvention, returnType, parameterTypes, cGenericTypeParameters)) 0.

(** The loop that reads custom modifiers, from the element type that was read last. *)
Fixpoint more_modifiers (fuel : nat) (at_ : Z) : C (list CModifierType) :=
  match fuel with
  | O => out_of_fuel
  | S fuel =>
      currentSize <- gets id ;;
      e <- lift (read_byte sig (at_ + currentSize)) ;;
      if bool_decide (e ∈ cmods) then
        modify (fun currentSize => u32 (currentSize + 1)) ;;;
        tokenInner <- next_token at_ ;;
        ms <- more_modifiers fuel at_ ;;
        ret (mkModifier e tokenInner :: ms)
      else ret []
  end.

(** The larger cases of the [switch] of [FromSignature]. *)
Definition parse_fnptr (cbBuffer at_ : Z) : C CType :=
  r <- nested parse_method cbBuffer at_ ;;
  let '(convention, returnType, types, genericCount) := r in
  parameterTypes <- lift (enumerate types) ;;
  ret (CFunctionType (new_base ELEMENT_TYPE_FNPTR) convention returnType parameterTypes genericCount).

Definition parse_array (cbBuffer at_ : Z) : C CType :=
  relatedType <- nested rec cbBuffer at_ ;;
  more_left cbBuffer ;;;
  rank <- next_data at_ ;;
  sizeCount <- next_data at_ ;;
  counts <- collect fuel sizeCount (next_data at_) ;;
  boundsCount <- next_data at_ ;;
  bounds <- collect fuel boundsCount (next_data at_) ;;
  ret (CArrayType (new_base ELEMENT_TYPE_ARRAY) relatedType rank counts bounds).

Definition parse_instance (cbBuffer at_ : Z) : C CType :=
  relatedType <- nested rec cbBuffer at_ ;;
  more_left cbBuffer ;;;
  argumentCount <- next_data at_ ;;
  parameters <- collect fuel argumentCount (t <- nested rec cbBuffer at_ ;; not_past cbBuffer ;;; ret t) ;;
  ret (CGenericInstance (new_base ELEMENT_TYPE_GENERICINST) relatedType parameters).

Definition parse_modified (sigElement cbBuffer at_ : Z) : C CType :=
  token <- next_token at_ ;;
  ms <- more_modifiers fuel at_ ;;
  createdType <- nested rec cbBuffer at_ ;;
  ret (SetModifers (mkModifier sigElement token :: ms) createdType).

(** The [switch], on the first byte. *)
Definition signature_switch (sigElement cbBuffer at_ : Z) : C CType :=
  if bool_decide (sigElement ∈ ELEMENT_TYPE_TYPEDBYREF :: simple_elements) then
    ret (CSimpleType (new_base sigElement))
  else if bool_decide (sigElement ∈ [ELEMENT_TYPE_CLASS; ELEMENT_TYPE_VALUETYPE]) then
    tokenValue <- next_token at_ ;;
    lift (FromToken sigElement tokenValue)
  else if bool_decide (sigElement ∈ [ELEMENT_TYPE_PTR; ELEMENT_TYPE_BYREF; ELEMENT_TYPE_SZARRAY]) then
    relatedType <- nested rec cbBuffer at_ ;;
    ret (CCompositeType (new_base sigElement) relatedType)
  else if sigElement =? ELEMENT_TYPE_FNPTR then parse_fnptr cbBuffer at_
  else if sigElement =? ELEMENT_TYPE_ARRAY then parse_array cbBuffer at_
  else if bool_decide (sigElement ∈ [ELEMENT_TYPE_MVAR; ELEMENT_TYPE_VAR]) then
    position <- next_data at_ ;;
    ret (CGenericParameterType (new_base sigElement) position)
  else if sigElement =? ELEMENT_TYPE_GENERICINST then parse_instance cbBuffer at_
  else if sigElement =? ELEMENT_TYPE_PINNED then
    createdType <- nested rec cbBuffer at_ ;; ret (SetIsPinned true createdType)
  else if sigElement =? ELEMENT_TYPE_SENTINEL then
    createdType <- nested rec cbBuffer at_ ;; ret (SetIsSentinel true createdType)
  else if bool_decide (sigElement ∈ cmods) then parse_modified sigElement cbBuffer at_
  else fail E_NOTIMPL.

Definition from_signature (cbBuffer at_ : Z) : outcome (CType * Z) :=
  if cbBuffer =? 0 then Err E_INVALIDARG
  else
    sigElement <~ read_byte sig at_ ;;
    with_size (signature_switch sigElement cbBuffer at_) 1.

End Body.

(** [FromSignature]: the type and the number of bytes it takes. *)
Fixpoint FromSignature (fuel : nat) (cbBuffer at_ : Z) : outcome (CType * Z) :=
  match fuel with
  | O => NoFuel
  | S fuel => from_signature fuel (FromSignature fuel) cbBuffer at_
  end.

Definition ParseTypeSequence (fuel : nat) : Z -> Z -> Z -> outcome (list CType * Z) :=
  parse_types fuel (FromSignature fuel).
Definition ParseMethodSignature (fuel : nat) : Z -> Z -> outcome (Z * CType * list CType * Z * Z) :=
  parse_method fuel (FromSignature fuel).

(** [ParseLocalVarSignature]: the types of the locals. *)
Definition ParseLocalVarSignature (fuel : nat) (cbSignature at_ : Z) : outcome (list CType * Z) :=
  with_size (
    callingConvention <- next_data at_ ;;
    if negb (callingConvention =? IMAGE_CEE_CS_CALLCONV_LOCAL_SIG) then fail E_UNEXPECTED
    else
      more_left cbSignature ;;;
      cLocals <- next_data at_ ;;
      not_past cbSignature ;;;
      types <- nested (ParseTypeSequence fuel cLocals) cbSignature at_ ;;
      not_past cbSignature ;;;
      ret types) 0.

End Parsing.

Example parse_sample :
  FromSignature ([7; 7] ++ sample_bytes ++ [7]) 30 40 2 = Ok (sample_type, 25).
Proof. vm_compute. reflexivity. Qed.
