(* ===== verification/TypeSpec.v ===== *)
(** Parsing the signatures that [AddToSignature] writes. *)
From S2P Require Import Prelude CorSig SignatureBuilder Types Enumerator TypeCreator.

(** [bs] stands at position [pos]. *)
Definition sits (sig : list Z) (pos : Z) (bs : list Z) : Prop :=
  exists pre post, sig = pre ++ bs ++ post /\ pos = Z.of_nat (length pre).

Lemma sits_app sig pos bs1 bs2 :
  sits sig pos (bs1 ++ bs2) -> sits sig pos bs1 /\ sits sig (pos + Z.of_nat (length bs1)) bs2.
Proof.
  intros (pre & post & -> & ->). split.
  - exists pre, (bs2 ++ post). by rewrite <- app_assoc.
  - exists (pre ++ bs1), post. rewrite <- !app_assoc, length_app. split; [done|lia].
Qed.

Lemma sits_head sig pos b bs : sits sig pos (b :: bs) -> read_byte sig pos = Ok b.
Proof. intros (pre & post & -> & ->). apply read_byte_mid. Qed.

Section Parsing.

Context (sig : list Z).

(** [F], given at least [bs], reads [x] from it; [m], given that [bs] is left before
    [cb], reads [x] from it and moves the offset past it. *)
Definition parses {A} (F : Z -> Z -> outcome (A * Z)) (bs : list Z) (x : A) : Prop :=
  forall c p, Z.of_nat (length bs) <= c < 2 ^ 32 -> sits sig p bs -> F c p = Ok (x, Z.of_nat (length bs)).

Definition reads {A} (cb at_ : Z) (m : M Z A) (bs : list Z) (x : A) : Prop :=
  forall cur, 0 <= cur -> cur + Z.of_nat (length bs) <= cb < 2 ^ 32 -> sits sig (at_ + cur) bs ->
  m cur = (Ok x, cur + Z.of_nat (length bs)).

Lemma reads_ret {A} cb at_ (x : A) : reads cb at_ (ret x) [] x.
Proof. intros cur H0 _ _. cbn. by rewrite Z.add_0_r. Qed.

Lemma reads_bind {A B} cb at_ (m : M Z A) (f : A -> M Z B) bs1 bs2 x y :
  reads cb at_ m bs1 x -> reads cb at_ (f x) bs2 y -> reads cb at_ (bind m f) (bs1 ++ bs2) y.
Proof.
  intros H1 H2 cur H0 Hl (Hs1 & Hs2)%sits_app. rewrite length_app in *.
  rewrite (run_bind _ _ _ _ _ (H1 cur H0 ltac:(lia) Hs1)). rewrite H2; [f_equal; lia|lia|lia|].
  by rewrite Z.add_assoc.
Qed.

Lemma reads_last {A B} cb at_ (m : M Z A) (f : A -> B) bs x :
  reads cb at_ m bs x -> reads cb at_ (y <- m ;; ret (f y)) bs (f x).
Proof. intros H. rewrite <- (app_nil_r bs). eapply reads_bind; [exact H|apply reads_ret]. Qed.

Lemma reads_ext {A} cb at_ (m m' : M Z A) bs x : (forall cur, m cur = m' cur) -> reads cb at_ m' bs x -> reads cb at_ m bs x.
Proof. intros He H cur H0 Hl Hs. rewrite He. by apply H. Qed.

Lemma reads_not_past {A} cb at_ (k : M Z A) bs x : reads cb at_ k bs x -> reads cb at_ (not_past cb ;;; k) bs x.
Proof.
  intros H cur H0 Hl Hs. assert (not_past cb cur = (Ok tt, cur)) as E.
  { unfold not_past, bind, gets, id, if_false_ret. by rewrite (proj2 (Z.leb_le _ _)) by lia. }
  rewrite (run_bind _ _ _ _ _ E). by apply H.
Qed.

Lemma reads_more_left {A} cb at_ (k : M Z A) bs x :
  (1 <= length bs)%nat -> reads cb at_ k bs x -> reads cb at_ (more_left cb ;;; k) bs x.
Proof.
  intros H1 H cur H0 Hl Hs. assert (more_left cb cur = (Ok tt, cur)) as E.
  { unfold more_left, bind, gets, id, if_false_ret. by rewrite (proj2 (Z.ltb_lt _ _)) by lia. }
  rewrite (run_bind _ _ _ _ _ E). by apply H.
Qed.

Lemma reads_data cb at_ x bs : DataSig x bs -> reads cb at_ (next_data sig at_) bs x.
Proof.
  intros [x' bs' Hx E] cur H0 Hl (pre & post & Hsig & Hp). unfold next_data. rewrite (run_bind _ _ _ _ _ (eq_refl : gets id _ = _)).
  unfold id. destruct (data_codec x' Hx) as (b & Eb & _ & _ & Hd). rewrite E in Eb. injection Eb as <-.
  rewrite Hp, Hsig, Hd. unfold bind, lift, modify, ret. cbn. by rewrite u32_small by (unfold is_u32; lia).
Qed.

Lemma reads_token cb at_ x bs : TokenSig x bs -> reads cb at_ (next_token sig at_) bs x.
Proof.
  intros [x' bs' Hx E] cur H0 Hl (pre & post & Hsig & Hp). unfold next_token. rewrite (run_bind _ _ _ _ _ (eq_refl : gets id _ = _)).
  unfold id. destruct (token_codec x' Hx) as (b & Eb & _ & _ & Hd). rewrite E in Eb. injection Eb as <-.
  rewrite Hp, Hsig, Hd. unfold bind, lift, modify, ret. cbn. by rewrite u32_small by (unfold is_u32; lia).
Qed.

Lemma reads_nested {A} cb at_ (F : Z -> Z -> outcome (A * Z)) bs x :
  parses F bs x -> reads cb at_ (nested F cb at_) bs x.
Proof.
  intros H cur H0 Hl Hs. unfold nested. rewrite (run_bind _ _ _ _ _ (eq_refl : gets id _ = _)). unfold id.
  rewrite (u32_small (cb - cur)) by (unfold is_u32; lia). rewrite H by (done || lia).
  unfold bind, lift, modify, ret. cbn. by rewrite u32_small by (unfold is_u32; lia).
Qed.

Lemma parses_with_size {A} (m : Z -> Z -> M Z A) bs x :
  (forall cb at_, reads cb at_ (m cb at_) bs x) -> parses (fun cb at_ => with_size (m cb at_) 0) bs x.
Proof. intros H c p Hl Hs. unfold with_size. rewrite H; [done|lia|lia|by rewrite Z.add_0_r]. Qed.

Lemma reads_collect {A} cb at_ (item : M Z A) R xs bs fuel :
  (forall x b, R x b -> reads cb at_ item b x) -> SeqSig R xs bs -> (length xs <= fuel)%nat ->
  reads cb at_ (collect fuel (Z.of_nat (length xs)) item) bs xs.
Proof.
  intros Hi Hs. revert fuel. induction Hs as [|x xs b bss Hx _ IH]; intros fuel Hf.
  - destruct fuel; apply reads_ret.
  - destruct fuel as [|fuel]; cbn [length] in Hf; [lia|]. cbn [collect].
    rewrite (proj2 (Z.leb_gt _ _)) by (cbn [length]; lia).
    replace (Z.of_nat (length (x :: xs)) - 1) with (Z.of_nat (length xs)) by (cbn [length]; lia).
    eapply reads_bind; [by apply Hi|]. apply reads_last. apply IH. lia.
Qed.

End Parsing.

(** ** Lengths *)

Lemma data_length x bs : DataSig x bs -> (1 <= length bs <= 4)%nat.
Proof. intros [x' bs' Hx E]. apply (compressed_length x'). by left. Qed.

Lemma token_length tk bs : TokenSig tk bs -> (1 <= length bs <= 4)%nat.
Proof. intros [x' bs' Hx E]. apply (compressed_length x'). by right; right. Qed.

Lemma seq_length {A} (R : A -> list Z -> Prop) xs bs :
  (forall x b, R x b -> (1 <= length b)%nat) -> SeqSig R xs bs -> (length xs <= length bs)%nat.
Proof. intros HR. induction 1 as [|x xs b bss Hx _ IH]; [done|]. apply HR in Hx. rewrite length_app. cbn. lia. Qed.

Lemma seq_mono {A} (R R' : A -> list Z -> Prop) xs bs :
  (forall x b, R x b -> (length b <= length bs)%nat -> R' x b) -> SeqSig R xs bs -> SeqSig R' xs bs.
Proof.
  intros HR Hs. induction Hs as [|x xs b bss Hx _ IH]; constructor.
  - apply HR; [done|]. rewrite length_app. lia.
  - apply IH. intros y b' Hy Hb. apply HR; [done|]. rewrite length_app. lia.
Qed.

Lemma base_length b bb : BaseSig b bb -> (1 <= length bb)%nat.
Proof. intros [b' ms _]. rewrite !length_app. cbn. lia. Qed.

(** ** The switch *)

(** Decide the tests of the switch on a known element. *)
Ltac element_case :=
  unfold signature_switch;
  repeat match goal with
  | |- context [bool_decide ?P] => let v := eval vm_compute in (bool_decide P) in change (bool_decide P) with v
  | |- context [Z.eqb ?x ?y] => let v := eval vm_compute in (Z.eqb x y) in change (Z.eqb x y) with v
  end; cbv iota; unfold parse_fnptr, parse_array, parse_instance, parse_modified.

Section Types.

Context (sig : list Z).

(** [FromSignature] reads [t] from [bs] on every fuel that is not smaller. *)
Definition parsed (t : CType) (bs : list Z) : Prop :=
  (1 <= length bs)%nat /\ forall fuel, (length bs <= fuel)%nat -> parses sig (FromSignature sig fuel) bs t.

Lemma parsed_element e bs t :
  (forall fuel cb at_, (length bs <= fuel)%nat ->
     reads sig cb at_ (signature_switch sig fuel (FromSignature sig fuel) e cb at_) bs t) ->
  parsed t (e :: bs).
Proof.
  intros H. split; [cbn; lia|]. intros [|fuel] Hf c p Hl Hs; cbn [length] in *; [lia|].
  cbn [FromSignature]. unfold from_signature. rewrite (proj2 (Z.eqb_neq _ _)) by lia.
  rewrite (sits_head _ _ _ _ Hs). cbn [obind]. unfold with_size.
  rewrite (H fuel c p ltac:(lia) 1) by (lia || apply (sits_app sig p [e] bs Hs)). do 2 f_equal. lia.
Qed.

Lemma reads_parsed cb at_ fuel t bs :
  parsed t bs -> (length bs <= fuel)%nat -> reads sig cb at_ (nested (FromSignature sig fuel) cb at_) bs t.
Proof. intros [_ Ht] Hf. apply reads_nested. by apply Ht. Qed.

(** *** Prefixes *)

Lemma modifiers_run fuel at_ ms mb e rest cur :
  SeqSig ModifierSig ms mb -> e ∉ cmods -> (length ms < fuel)%nat -> 0 <= cur ->
  cur + Z.of_nat (length mb) + 1 < 2 ^ 32 -> sits sig (at_ + cur) (mb ++ e :: rest) ->
  more_modifiers sig fuel at_ cur = (Ok ms, cur + Z.of_nat (length mb)).
Proof.
  intros Hm He. revert fuel cur. induction Hm as [|m ms b bss Hx _ IH]; intros fuel cur Hf H0 Hl Hs.
  - destruct fuel as [|fuel]; [lia|]. cbn [more_modifiers]. rewrite (run_bind _ _ _ _ _ (eq_refl : gets id _ = _)). unfold id.
    rewrite (sits_head _ _ _ _ Hs), (run_bind _ _ _ _ _ (eq_refl : lift (Ok e) _ = _)). rewrite bool_decide_false by done.
    cbn. by rewrite Z.add_0_r.
  - destruct fuel as [|fuel]; cbn [length] in Hf; [lia|]. cbn [more_modifiers].
    rewrite (run_bind _ _ _ _ _ (eq_refl : gets id _ = _)). unfold id. destruct Hx as [m tb Hc Ht].
    rewrite <- app_assoc in Hs. cbn [app] in Hs. rewrite (sits_head _ _ _ _ Hs), (run_bind _ _ _ _ _ (eq_refl : lift (Ok _) _ = _)).
    rewrite bool_decide_true by done. rewrite (run_bind _ _ _ _ _ (eq_refl : modify _ _ = _)).
    rewrite length_app in *. cbn [length] in *. rewrite u32_small by (unfold is_u32; lia).
    apply (sits_app sig _ [mod_type m]) in Hs as [_ Hs]. cbn [length] in Hs. apply sits_app in Hs as [Hs1 Hs2].
    rewrite (run_bind _ _ _ _ _ (reads_token sig (2 ^ 32 - 1) at_ _ _ Ht (cur + 1) ltac:(lia) ltac:(lia) ltac:(by rewrite Z.add_assoc))).
    rewrite (run_bind _ _ _ _ _ (IH fuel (cur + 1 + Z.of_nat (length tb)) ltac:(lia) ltac:(lia) ltac:(lia)
      ltac:(by rewrite !Z.add_assoc))). unfold ret. destruct m. f_equal. lia.
Qed.

Lemma parsed_modifiers ms mb e bs t :
  SeqSig ModifierSig ms mb -> e ∉ cmods -> m_modifiers (base t) = [] -> parsed t (e :: bs) ->
  parsed (SetModifers ms t) (mb ++ e :: bs).
Proof.
  intros Hm He Ht Hp. destruct Hm as [|m ms b bss [m' tb Hc Htk] Hm].
  { replace (SetModifers [] t) with t; [done|]. destruct t as [[? ? ? ?]|[? ? ? ?]|[? ? ? ?]|[? ? ? ?]|[? ? ? ?]|[? ? ? ?]|[? ? ? ?]];
      cbn in Ht; by subst. }
  rewrite <- app_assoc. cbn [app]. apply parsed_element. intros fuel cb at_ Hf. rewrite !length_app in Hf. cbn [length] in Hf.
  assert (forall cur, 0 <= cur -> cur + Z.of_nat (length (bss ++ e :: bs)) <= cb < 2 ^ 32 ->
    sits sig (at_ + cur) (bss ++ e :: bs) ->
    (ms <- more_modifiers sig fuel at_ ;; createdType <- nested (FromSignature sig fuel) cb at_ ;;
     ret (SetModifers (m' :: ms) createdType)) cur =
    (Ok (SetModifers (m' :: ms) t), cur + Z.of_nat (length (bss ++ e :: bs)))) as Hrest.
  { intros cur H0 Hl Hs. rewrite length_app in *. cbn [length] in *.
    pose proof (seq_length ModifierSig ms bss (fun x b H => ltac:(destruct H; cbn; lia)) Hm) as Hlm.
    rewrite (run_bind _ _ _ _ _ (modifiers_run fuel at_ ms bss e bs cur Hm He ltac:(lia) H0 ltac:(lia) Hs)).
    apply sits_app in Hs as [_ Hs]. rewrite <- Z.add_assoc in Hs.
    pose proof (reads_last sig cb at_ _ (SetModifers (m' :: ms)) _ _ (reads_parsed cb at_ fuel t (e :: bs) Hp ltac:(cbn; lia))) as Hr.
    rewrite Hr; [f_equal; cbn [length]; lia|lia|cbn [length]; lia|done]. }
  unfold cmods in Hc. destruct m' as [mt tk]. cbn [mod_type mod_token] in *. apply elem_of_cons in Hc as [->|Hc%list_elem_of_singleton]; [|subst mt].
  all: element_case; eapply reads_bind; [by apply reads_token|]; exact Hrest.
Qed.

Lemma parsed_pinned t bs : parsed t bs -> parsed (SetIsPinned true t) (ELEMENT_TYPE_PINNED :: bs).
Proof.
  intros Hp. apply parsed_element. intros fuel cb at_ Hf. element_case. apply (reads_last _ _ _ _ (SetIsPinned true)).
  by apply reads_parsed.
Qed.

Lemma parsed_sentinel t bs : parsed t bs -> parsed (SetIsSentinel true t) (ELEMENT_TYPE_SENTINEL :: bs).
Proof.
  intros Hp. apply parsed_element. intros fuel cb at_ Hf. element_case. apply (reads_last _ _ _ _ (SetIsSentinel true)).
  by apply reads_parsed.
Qed.

(** A type without prefixes, and the same type with those of its base. *)
Definition plain (t : CType) : CType := map_base (fun b => new_base (m_type b)) t.

Lemma parsed_base t bb bs :
  BaseSig (base t) bb -> m_type (base t) ∉ cmods -> parsed (plain t) (m_type (base t) :: bs) -> parsed t (bb ++ bs).
Proof.
  intros Hb He [Hl Hp]. inversion Hb as [b ms Hm Eb Ebb]. subst b bb.
  rewrite <- !app_assoc. cbn [app].
  pose proof (parsed_modifiers _ _ _ _ (plain t) Hm He ltac:(by destruct t) (conj Hl Hp)) as H1.
  assert (parsed (if m_isPinned (base t) then SetIsPinned true (SetModifers (m_modifiers (base t)) (plain t))
      else SetModifers (m_modifiers (base t)) (plain t))
    (flag (m_isPinned (base t)) ELEMENT_TYPE_PINNED ++ ms ++ m_type (base t) :: bs)) as H2
    by (destruct (m_isPinned (base t)); [by apply parsed_pinned|done]).
  apply parsed_sentinel in H2 as H3. destruct t as [[? [] [] ?]|[? [] [] ?]|[? [] [] ?]|[? [] [] ?]|[? [] [] ?]|[? [] [] ?]|[? [] [] ?]];
    (exact H3 || exact H2).
Qed.

(** *** All types *)

Lemma cmod_dec x l : x ∈ l -> bool_decide (Forall (fun y => y ∉ cmods) l) = true -> x ∉ cmods.
Proof. intros Hx Hl%bool_decide_eq_true. rewrite Forall_forall in Hl. by apply Hl. Qed.

Lemma reads_counted {A B} cb at_ fuel (item : M Z A) (R : A -> list Z -> Prop) xs bs (k : list A -> M Z B) rest y :
  (forall x b, R x b -> (1 <= length b)%nat) ->
  (forall x b, R x b -> (length b <= length bs)%nat -> reads sig cb at_ item b x) ->
  CountedSig R xs bs -> (length bs <= fuel)%nat -> reads sig cb at_ (k xs) rest y ->
  reads sig cb at_ (n <- next_data sig at_ ;; xs <- collect fuel n item ;; k xs) (bs ++ rest) y.
Proof.
  intros Hl Hi Hc Hf Hk. inversion Hc as [xs' nb bss Hn Hs]. subst xs' bs. rewrite <- app_assoc. eapply reads_bind; [by apply reads_data|].
  rewrite length_app in *. pose proof (seq_length R xs bss Hl Hs).
  eapply reads_bind; [|exact Hk]. eapply reads_collect; [intros ? ? H'; exact H'| |lia].
  eapply seq_mono; [|exact Hs]. intros x b Hx Hb. apply Hi; [done|lia].
Qed.

Lemma parsed_types_seq cb at_ fuel ts bs :
  SeqSig parsed ts bs -> (length bs <= fuel)%nat ->
  reads sig cb at_ (collect fuel (Z.of_nat (length ts)) (t <- nested (FromSignature sig fuel) cb at_ ;; not_past cb ;;; ret t)) bs ts.
Proof.
  intros Hs Hf. pose proof (seq_length parsed ts bs (fun x b H => proj1 H) Hs).
  eapply reads_collect; [intros ? ? H'; exact H'| |lia]. eapply seq_mono; [|exact Hs].
  intros t b Ht Hb. rewrite <- (app_nil_r b). eapply reads_bind; [apply reads_parsed; [done|lia]|].
  apply reads_not_past, reads_ret.
Qed.

Lemma generic_bit conv :
  Z.land conv IMAGE_CEE_CS_CALLCONV_GENERIC = 0 \/ Z.land conv IMAGE_CEE_CS_CALLCONV_GENERIC = IMAGE_CEE_CS_CALLCONV_GENERIC.
Proof.
  destruct (Z.testbit conv 4) eqn:E; [right|left]; apply Z.bits_inj'; intros n Hn; rewrite Z.land_spec;
    change IMAGE_CEE_CS_CALLCONV_GENERIC with (2 ^ 4); rewrite Z.pow2_bits_eqb by done;
    destruct (Z.eqb_spec 4 n) as [<-|]; rewrite ?E, ?andb_true_r, ?andb_false_r, ?Z.bits_0; done.
Qed.

Lemma parses_method fuel mb :
  forall conv gen r ps gb nb bs pb, mb = conv :: gb ++ nb ++ bs ++ pb ->
  0 <= conv < 0x80 ->
  conv ∉ [IMAGE_CEE_CS_CALLCONV_MAX; IMAGE_CEE_CS_CALLCONV_FIELD; IMAGE_CEE_CS_CALLCONV_GENERICINST;
          IMAGE_CEE_CS_CALLCONV_LOCAL_SIG; IMAGE_CEE_CS_CALLCONV_PROPERTY] ->
  (if Z.land conv IMAGE_CEE_CS_CALLCONV_GENERIC =? 0 then gen = 0 /\ gb = [] else DataSig gen gb) ->
  DataSig (Z.of_nat (length ps)) nb -> parsed r bs -> SeqSig parsed ps pb -> (length mb <= fuel)%nat ->
  parses sig (ParseMethodSignature sig fuel) mb (conv, r, ps, gen).
Proof.
  intros conv gen r ps gb nb bs pb -> Hc Hn Hg Hnum Hr Hps Hf. cbn [length] in Hf. rewrite !length_app in Hf.
  pose proof (data_length _ _ Hnum). apply parses_with_size. intros cb at_.
  apply (reads_bind _ _ _ _ _ [conv] _ conv); [apply reads_data, data_byte; lia|]. rewrite bool_decide_false by done.
  apply reads_more_left; [rewrite !length_app; lia|].
  match goal with |- reads _ _ _ (bind _ ?k) _ _ => set (rest := k) end.
  apply (reads_ext _ _ _ _ (if Z.land conv IMAGE_CEE_CS_CALLCONV_GENERIC =? 0 then rest 0
    else n <- next_data sig at_ ;; more_left cb ;;; rest n)).
  { intros cur. destruct (generic_bit conv) as [-> | ->]; [done|]. cbn. rewrite bind_bind.
    clearbody rest. unfold bind. destruct (next_data sig at_ cur) as [[] c]; try done. by destruct (more_left cb c) as [[] ?]. }
  assert (reads sig cb at_ (rest gen) (nb ++ bs ++ pb) (conv, r, ps, gen)) as Hrest.
  { subst rest.
  eapply reads_bind; [by apply reads_data|]. apply reads_more_left; [rewrite !length_app; destruct Hr; lia|].
  eapply reads_bind; [apply reads_parsed; [done|lia]|]. apply reads_not_past.
  rewrite <- (app_nil_r pb). eapply reads_bind; [|apply reads_not_past, reads_ret].
  apply reads_nested, parses_with_size. intros. apply parsed_types_seq; [done|lia]. }
  case_match; [by destruct Hg as [-> ->]|]. eapply reads_bind; [by apply reads_data|].
  apply reads_more_left; [rewrite !length_app; lia|done].
Qed.

Lemma parsed_types :
  (forall t bs, TypeSig t bs -> parsed t bs) /\
  (forall ts bs, TypesSig ts bs -> SeqSig parsed ts bs) /\
  (forall conv gen r ps mb, MethodSig conv gen r ps mb -> small ps /\
     forall fuel, (length mb <= fuel)%nat -> parses sig (ParseMethodSignature sig fuel) mb (conv, r, ps, gen)).
Proof.
  apply sig_ind.
  - intros b bb Hb Hs. rewrite <- (app_nil_r bb). apply parsed_base; [done|by apply (cmod_dec _ _ Hb)|].
    apply parsed_element. intros. cbn [base]. unfold signature_switch. rewrite bool_decide_true by done. apply reads_ret.
  - intros b bb tk bs Hb Hs Ht. apply parsed_base; [done|by apply (cmod_dec _ _ Hb)|].
    apply parsed_element. intros fuel cb at_ Hf. cbn [base plain map_base]. set_unfold in Hb. destruct Hb as [->|[->|[]]]; element_case.
    all: rewrite <- (app_nil_r bs); eapply reads_bind; [by apply reads_token|apply reads_ret].
  - intros b bb r bs Hb Hs _ Hr. apply parsed_base; [done|by apply (cmod_dec _ _ Hb)|].
    apply parsed_element. intros fuel cb at_ Hf. cbn [base plain map_base]. set_unfold in Hb. destruct Hb as [->|[->|[->|[]]]]; element_case.
    all: apply (reads_last _ _ _ _ (CCompositeType _)); by apply reads_parsed.
  - intros b bb r bs rank rb counts cb bounds ob Hb Hs _ Hr Hrank Hc Ho. apply parsed_base; [done|by apply (cmod_dec _ [m_type b]); [set_solver|rewrite Hb]|].
    apply parsed_element. intros fuel c at_ Hf. cbn [base plain map_base]. rewrite Hb. element_case.
    rewrite !length_app in Hf. pose proof (data_length _ _ Hrank).
    eapply reads_bind; [apply reads_parsed; [done|lia]|]. apply reads_more_left; [rewrite !length_app; lia|].
    eapply reads_bind; [by apply reads_data|].
    assert (forall x b, DataSig x b -> (1 <= length b)%nat) as Hd by (intros x d Hx; apply data_length in Hx; lia).
    eapply reads_counted; [exact Hd|intros; by apply reads_data|exact Hc|lia|].
    rewrite <- (app_nil_r ob). eapply reads_counted; [exact Hd|intros; by apply reads_data|exact Ho|lia|]. apply reads_ret.
  - intros b bb p bs Hb Hs Hp. apply parsed_base; [done|by apply (cmod_dec _ _ Hb)|].
    apply parsed_element. intros fuel cb at_ Hf. cbn [base plain map_base]. set_unfold in Hb. destruct Hb as [->|[->|[]]]; element_case.
    all: apply (reads_last _ _ _ _ (CGenericParameterType _)); by apply reads_data.
  - intros b bb r bs ps nb pb Hb Hs _ Hr Hn _ Hp. apply parsed_base; [done|by apply (cmod_dec _ [m_type b]); [set_solver|rewrite Hb]|].
    apply parsed_element. intros fuel c at_ Hf. cbn [base plain map_base]. rewrite Hb. element_case.
    rewrite !length_app in Hf. pose proof (data_length _ _ Hn).
    eapply reads_bind; [apply reads_parsed; [done|lia]|]. apply reads_more_left; [rewrite !length_app; lia|].
    eapply reads_bind; [by apply reads_data|]. apply (reads_last _ _ _ _ (CGenericInstance _ r)).
    apply parsed_types_seq; [done|lia].
  - intros b bb mb Hb Hs conv r ps gen _ Hm. apply parsed_base; [done|by apply (cmod_dec _ [m_type b]); [set_solver|rewrite Hb]|].
    apply parsed_element. intros fuel c at_ Hf. cbn [base plain map_base]. rewrite Hb. element_case.
    destruct Hm as [Hps Hr]. rewrite <- (app_nil_r mb). eapply reads_bind; [by apply reads_nested, Hr|].
    cbv beta iota. rewrite (enumerate_all ps Hps). apply reads_ret.
  - constructor.
  - intros t ts bs bss _ Ht _ Hts. by constructor.
  - intros conv gen r ps gb nb bs pb Hc Hn Hg Hnum _ Hr _ Hps. split.
    + inversion Hnum as [? ? Hx _]. unfold sig_value in Hx. unfold small. lia.
    + intros fuel Hf. by apply (parses_method fuel _ conv gen r ps gb nb bs pb).
Qed.
End Types.

(** What [GetCorSignature] gives back. *)
Lemma GetCorSignature_run b bs :
  holds b bs -> GetCorSignature (Some (m_used b)) b = (Ok (Z.of_nat (length bs), map Some bs), b).
Proof.
  intros Hh. unfold GetCorSignature. rewrite (run_bind _ _ _ _ _ (eq_refl : gets id b = _)). change (id b) with b.
  rewrite Z.ltb_irrefl, (holds_bytes _ _ Hh). by destruct Hh as [-> _ _].
Qed.

(** C37: a well-formed type, of any nesting, with sentinel, pinned and modifier
    prefixes, is written by AddToSignature and read back by FromSignature unchanged,
    whatever surrounds the signature, with the exact number of bytes it takes; the
    parser terminates, in no more recursive calls than the signature has bytes. *)
Theorem TypeCreator_roundtrip t bs pre post cb fuel :
  TypeSig t bs -> Z.of_nat (length bs) + 4 < limit ->
  Z.of_nat (length bs) <= cb < 2 ^ 32 -> (length bs <= fuel)%nat ->
  exists b, AddToSignature t new_builder = (Ok tt, b) /\
    GetCorSignature (Some (m_used b)) b = (Ok (Z.of_nat (length bs), map Some bs), b) /\
    FromSignature (pre ++ bs ++ post) fuel cb (Z.of_nat (length pre)) = Ok (t, Z.of_nat (length bs)).
Proof.
  intros Ht Hl Hcb Hf. destruct (proj1 writes_types t bs Ht new_builder [] holds_new ltac:(cbn; lia)) as (b & E & Hh).
  exists b. split; [done|]. split; [by apply GetCorSignature_run|].
  destruct (proj1 (parsed_types (pre ++ bs ++ post)) t bs Ht) as [_ Hp]. apply Hp; [done|done|]. by exists pre, post.
Qed.

Lemma TypeCreator_roundtrip_witness :
  FromSignature ([0xff] ++ sample_bytes ++ [0]) 25 25 1 = Ok (sample_type, 25).
Proof.
  destruct (TypeCreator_roundtrip sample_type sample_bytes [0xff] [0] 25 25 sample_sig eq_refl ltac:(done) ltac:(done))
    as (b & _ & _ & H). exact H.
Defined.

(** ParseMethodSignature of a well-formed method signature returns its calling
    convention, return type, parameter types, number of generic parameters and size,
    and it terminates. *)
Theorem ParseMethodSignature_reads conv gen r ps mb pre post cb fuel :
  MethodSig conv gen r ps mb -> Z.of_nat (length mb) <= cb < 2 ^ 32 -> (length mb <= fuel)%nat ->
  ParseMethodSignature (pre ++ mb ++ post) fuel cb (Z.of_nat (length pre)) = Ok (conv, r, ps, gen, Z.of_nat (length mb)).
Proof.
  intros Hm Hcb Hf. destruct (proj2 (proj2 (parsed_types (pre ++ mb ++ post))) conv gen r ps mb Hm) as [_ Hr].
  apply Hr; [done|done|]. by exists pre, post.
Qed.

Lemma ParseMethodSignature_reads_witness :
  ParseMethodSignature [0x20; 1; 1; 0x1c] 4 4 0 =
    Ok (IMAGE_CEE_CS_CALLCONV_HASTHIS, CSimpleType (new_base ELEMENT_TYPE_VOID), [CSimpleType (new_base ELEMENT_TYPE_OBJECT)], 0, 4).
Proof.
  apply (ParseMethodSignature_reads _ _ _ _ [0x20; 1; 1; 0x1c] [] []); [|done|done].
  apply (ms_intro 0x20 0 _ [_] [] [1] [1] [0x1c]); try done.
  - vm_compute. set_solver.
  - apply simple_plain. set_solver.
  - apply (tss_cons _ [] [0x1c] []); [apply simple_plain; set_solver|constructor].
Defined.

Lemma modifiers_loop fuel : exists c, more_modifiers [0x1f; 0xff] fuel 0 0 = (NoFuel, c).
Proof.
  induction fuel as [|fuel [c IH]]; [by eexists|]. exists c. cbn [more_modifiers].
  rewrite (run_bind _ _ _ _ _ (eq_refl : gets id _ = _)). unfold id.
  rewrite (run_bind _ _ _ _ _ (eq_refl : lift (read_byte [0x1f; 0xff] 0) _ = (Ok 0x1f, 0))).
  rewrite bool_decide_true by set_solver. rewrite (run_bind _ _ _ _ _ (eq_refl : modify (fun c => u32 (c + 1)) 0 = (Ok tt, 1))).
  rewrite (run_bind _ _ _ _ _ (eq_refl : next_token [0x1f; 0xff] 0 1 = (Ok mdtTypeDef, 0))).
  unfold bind. by rewrite IH.
Qed.

(** On the two bytes 1F FF, a custom modifier whose token is not valid compressed
    data, FromSignature never returns: the size (ULONG) -1 of the failed token moves
    the offset back to the modifier, which is read again, for ever. *)
Theorem FromSignature_diverges fuel : FromSignature [0x1f; 0xff] fuel 2 0 = NoFuel.
Proof.
  destruct fuel as [|fuel]; [done|]. cbn [FromSignature]. unfold from_signature.
  change (read_byte [0x1f; 0xff] 0) with (@Ok Z 0x1f). cbn [Z.eqb obind]. unfold with_size. element_case.
  rewrite (run_bind _ _ _ _ _ (eq_refl : next_token [0x1f; 0xff] 0 1 = (Ok mdtTypeDef, 0))).
  destruct (modifiers_loop fuel) as [c E]. unfold bind. by rewrite E.
Qed.

(** FromSignature does not pass the size of the buffer to the decoders of compressed
    data: on a buffer that ends after the element type of a class, value type, type
    variable or modifier it reads the byte behind the buffer. *)
Theorem FromSignature_reads_past pre e fuel :
  e ∈ [ELEMENT_TYPE_CLASS; ELEMENT_TYPE_VALUETYPE; ELEMENT_TYPE_VAR; ELEMENT_TYPE_MVAR;
       ELEMENT_TYPE_CMOD_REQD; ELEMENT_TYPE_CMOD_OPT] ->
  FromSignature (pre ++ [e]) (S fuel) 1 (Z.of_nat (length pre)) = Undef OutOfBoundsRead.
Proof.
  intros He. cbn [FromSignature]. unfold from_signature. cbn [Z.eqb].
  assert (read_byte (pre ++ [e]) (Z.of_nat (length pre)) = Ok e) as -> by apply (read_byte_mid pre e [] []).
  assert (read_byte (pre ++ [e]) (Z.of_nat (length pre) + 1) = Undef OutOfBoundsRead) as Er.
  { unfold read_byte, read_at. by rewrite decide_False by (rewrite length_app; cbn; lia). }
  assert (forall c, next_data (pre ++ [e]) (Z.of_nat (length pre)) 1 = c -> c = (Undef OutOfBoundsRead, 1)) as Hd.
  { intros c <-. unfold next_data, CorSigUncompressData_unbounded, CorSigUncompressData, bind, gets, lift, id. by rewrite Er. }
  assert (forall c, next_token (pre ++ [e]) (Z.of_nat (length pre)) 1 = c -> c = (Undef OutOfBoundsRead, 1)) as Ht.
  { intros c <-. unfold next_token, CorSigUncompressToken_unbounded, CorSigUncompressData_unbounded, CorSigUncompressData,
      bind, gets, lift, id. by rewrite Er. }
  cbn [obind]. specialize (Hd _ eq_refl). specialize (Ht _ eq_refl). set_unfold in He.
  destruct He as [->|[->|[->|[->|[->|[->|[]]]]]]]; unfold with_size; element_case; unfold bind; rewrite ?Hd, ?Ht; done.
Qed.

Lemma FromSignature_reads_past_witness : FromSignature ([0x45] ++ [0x13]) 1 1 1 = Undef OutOfBoundsRead.
Proof. apply (FromSignature_reads_past [0x45] 0x13 0). set_solver. Defined.
