(* ===== verification/LocalVars.v ===== *)
(** [CLocalVariableCollection]: the local variables of a method, to which an
    instrumentation method adds its own before the signature is written back. *)
From S2P Require Import Prelude CorSig SignatureBuilder Types Enumerator TypeCreator TypeSpec.

Definition mdTokenNil : Z := 0.

Section LocalVars.

(** The metadata of the module: [IMetaDataImport::GetSigFromToken] and
    [IMetaDataEmit::GetTokenFromSig]. *)
Context {Metadata : Type}.
Context (GetSigFromToken : Metadata -> Z -> outcome (list Z)).
Context (GetTokenFromSig : list Z -> Metadata -> outcome Z * Metadata).

(** The members of the collection, the [LocalVarSigTok] of the (initialised) header of
    the owning method, and the metadata. *)
Record CLocalVariableCollection := mkLocals {
  m_originalLocalsCount : Z;
  m_initialized : bool;
  m_typesToAdd : list CType;
  m_replacementSig : list Z;
  m_bReadOnly : bool;
  method_LocalVarSigTok : Z;
  module_metadata : Metadata
}.

Notation L := (M CLocalVariableCollection).

Definition new_collection (readOnly : bool) (tk : Z) (md : Metadata) : CLocalVariableCollection :=
  mkLocals 0 false [] [] readOnly tk md.

(** [GetOriginalSignatureInfo]: the types of the replacement signature or of the one in
    the metadata, and [S_OK], or an empty enumerator and [S_FALSE]. *)
Definition GetOriginalSignatureInfo (fuel : nat) : L (list CType * HRESULT) :=
  c <- gets id ;;
  rgbOrigSig <-
    (if bool_decide (m_replacementSig c = []) then
       if method_LocalVarSigTok c =? mdTokenNil then ret []
       else lift (GetSigFromToken (module_metadata c) (method_LocalVarSigTok c))
     else ret (m_replacementSig c)) ;;
  if 2 <=? Z.of_nat (length rgbOrigSig) then
    r <- lift (ParseLocalVarSignature rgbOrigSig fuel (u32 (Z.of_nat (length rgbOrigSig))) 0) ;;
    ret (fst r, S_OK)
  else ret ([], S_FALSE).

Definition Initialize (fuel : nat) : L HRESULT :=
  c <- gets id ;;
  if m_initialized c then ret S_FALSE
  else
    r <- GetOriginalSignatureInfo fuel ;;
    modify (fun c => mkLocals
      (if decide (snd r = S_OK) then u32 (Z.of_nat (length (fst r))) else m_originalLocalsCount c)
      true (m_typesToAdd c) (m_replacementSig c) (m_bReadOnly c) (method_LocalVarSigTok c) (module_metadata c)) ;;;
    ret (snd r).

Definition ReplaceSignature (fuel : nat) (pSignature : list Z) : L unit :=
  c <- gets id ;;
  if m_bReadOnly c then fail E_FAIL
  else if m_initialized c then fail E_FAIL
  else if Z.of_nat (length pSignature) <? 2 then fail E_INVALIDARG
  else
    b <- lift (read_byte pSignature 0) ;;
    if Z.land b IMAGE_CEE_CS_CALLCONV_LOCAL_SIG =? 0 then fail E_INVALIDARG
    else
      modify (fun c => mkLocals (m_originalLocalsCount c) (m_initialized c) (m_typesToAdd c) pSignature
        (m_bReadOnly c) (method_LocalVarSigTok c) (module_metadata c)) ;;;
      Initialize fuel ;;; ret tt.

Definition GetCount (fuel : nat) : L Z :=
  Initialize fuel ;;;
  c <- gets id ;;
  ret (u32 (m_originalLocalsCount c + Z.of_nat (length (m_typesToAdd c)))).

Definition AddLocal (fuel : nat) (pType : CType) : L Z :=
  Initialize fuel ;;;
  c <- gets id ;;
  if m_bReadOnly c then fail E_FAIL
  else
    modify (fun c => mkLocals (m_originalLocalsCount c) (m_initialized c) (m_typesToAdd c ++ [pType])
      (m_replacementSig c) (m_bReadOnly c) (method_LocalVarSigTok c) (module_metadata c)) ;;;
    c <- gets id ;;
    ret (u32 (m_originalLocalsCount c + Z.of_nat (length (m_typesToAdd c)) - 1)).

(** A computation on a signature builder of its own. *)
Definition with_builder {A} (m : B A) (b : CSignatureBuilder) : L (A * CSignatureBuilder) := fun c =>
  match m b with
  | (Ok a, b') => (Ok (a, b'), c)
  | (Err hr, _) => (Err hr, c)
  | (Undef u, _) => (Undef u, c)
  | (NoFuel, _) => (NoFuel, c)
  end.

(** [GetCorSignature]: the builder; the locals of the original signature are parsed
    again and written before the added ones. *)
Definition GetCorSignature (fuel : nat) : L CSignatureBuilder :=
  Initialize fuel ;;;
  c <- gets id ;;
  p <- with_builder (Add IMAGE_CEE_CS_CALLCONV_LOCAL_SIG ;;;
                     Add (u32 (m_originalLocalsCount c + Z.of_nat (length (m_typesToAdd c))))) new_builder ;;
  q <- (if 0 <? m_originalLocalsCount c then
          r <- GetOriginalSignatureInfo fuel ;;
          match snd r with
          | S_OK =>
              types <- lift (enumerate (fst r)) ;;
              with_builder (for_each AddToSignature types) (snd p)
          | _ => ret (tt, snd p)
          end
        else ret (tt, snd p)) ;;
  s <- with_builder (for_each AddToSignature (m_typesToAdd c)) (snd q) ;;
  ret (snd s).

(** [CommitSignature]; [SetLocalVarSigToken] stores into the header of the method. *)
Definition CommitSignature (fuel : nat) : L HRESULT :=
  c <- gets id ;;
  if negb (m_initialized c) || (bool_decide (m_typesToAdd c = []) && bool_decide (m_replacementSig c = [])) then ret S_FALSE
  else if m_bReadOnly c then fail E_FAIL
  else
    signatureBuilder <- GetCorSignature fuel ;;
    newSigToken <- (fun c =>
      match mapM id (take (Z.to_nat (m_used signatureBuilder)) (default [] (m_memory signatureBuilder))) with
      | None => (Undef UninitRead, c)
      | Some bytes =>
          let '(r, md) := GetTokenFromSig bytes (module_metadata c) in
          (r, mkLocals (m_originalLocalsCount c) (m_initialized c) (m_typesToAdd c) (m_replacementSig c)
                (m_bReadOnly c) (method_LocalVarSigTok c) md)
      end) ;;
    modify (fun c => mkLocals 0 false [] [] (m_bReadOnly c) newSigToken (module_metadata c)) ;;;
    ret S_OK.

End LocalVars.

Arguments CLocalVariableCollection : clear implicits.

(** ** Reading, adding and committing *)

(** The signature of a list of locals. *)
Inductive LocalsSig : list CType -> list Z -> Prop :=
  | locals_sig ts nb pb : DataSig (Z.of_nat (length ts)) nb -> TypesSig ts pb ->
      LocalsSig ts (IMAGE_CEE_CS_CALLCONV_LOCAL_SIG :: nb ++ pb).

Lemma parses_locals sig fuel ts bs :
  LocalsSig ts bs -> (length bs <= fuel)%nat -> parses sig (ParseLocalVarSignature sig fuel) bs ts.
Proof.
  intros [ts' nb pb Hn Ht] Hf. cbn [length] in Hf. rewrite length_app in Hf. pose proof (data_length _ _ Hn).
  apply parses_with_size. intros cb at_.
  apply (reads_bind _ _ _ _ _ [IMAGE_CEE_CS_CALLCONV_LOCAL_SIG] _ IMAGE_CEE_CS_CALLCONV_LOCAL_SIG); [by apply reads_data, data_byte|].
  cbn [Z.eqb negb IMAGE_CEE_CS_CALLCONV_LOCAL_SIG]. apply reads_more_left; [rewrite length_app; lia|].
  eapply reads_bind; [by apply reads_data|]. apply reads_not_past. rewrite <- (app_nil_r pb).
  eapply reads_bind; [|apply reads_not_past, reads_ret]. apply reads_nested, parses_with_size. intros.
  apply parsed_types_seq; [by apply parsed_types|lia].
Qed.

(** What the engine relies on in the metadata: a signature that is emitted gets a
    token, which is not nil and denotes it. *)
Class MetadataLaws {Metadata} (import : Metadata -> Z -> outcome (list Z))
    (emit : list Z -> Metadata -> outcome Z * Metadata) : Prop :=
  emit_import : forall bytes md, exists tk md', emit bytes md = (Ok tk, md') /\ tk <> mdTokenNil /\ import md' tk = Ok bytes.

Section Spec.

Context {Metadata : Type} (GetSigFromToken : Metadata -> Z -> outcome (list Z)).
Context (GetTokenFromSig : list Z -> Metadata -> outcome Z * Metadata).
Context `{!MetadataLaws GetSigFromToken GetTokenFromSig}.
Context (fuel : nat).

Notation Locals := (CLocalVariableCollection Metadata).
Notation initialize := (Initialize GetSigFromToken fuel).
Notation original_info := (GetOriginalSignatureInfo GetSigFromToken fuel).

(** [ts] are the locals of the method in the metadata. *)
Definition denotes (md : Metadata) (tk : Z) (ts : list CType) : Prop :=
  tk = mdTokenNil /\ ts = [] \/
  tk <> mdTokenNil /\ exists bs, GetSigFromToken md tk = Ok bs /\ LocalsSig ts bs /\ (length bs <= fuel)%nat /\
    Z.of_nat (length bs) < 2 ^ 29.

Record over (c : Locals) (ts added : list CType) : Prop := {
  ov_denotes : denotes (module_metadata c) (method_LocalVarSigTok c) ts;
  ov_added : m_typesToAdd c = added;
  ov_replacement : m_replacementSig c = [];
  ov_readonly : m_bReadOnly c = false;
  ov_count : m_initialized c = true -> m_originalLocalsCount c = Z.of_nat (length ts);
  ov_zero : m_initialized c = false -> m_originalLocalsCount c = 0
}.

Lemma types_length ts bs : TypesSig ts bs -> (length ts <= length bs)%nat.
Proof.
  intros Ht. apply (seq_length (parsed [])); [by intros ? ? [? _]|]. by apply parsed_types.
Qed.

Lemma locals_length ts bs : LocalsSig ts bs -> (2 + length ts <= length bs)%nat.
Proof.
  intros [ts' nb pb Hn Ht]. apply data_length in Hn. apply types_length in Ht. cbn. rewrite length_app. lia.
Qed.

Lemma denotes_length md tk ts : denotes md tk ts -> Z.of_nat (length ts) < 2 ^ 29.
Proof.
  intros [[_ ->]|(_ & bs & _ & Hl & _ & Hb)]; [done|]. apply locals_length in Hl. lia.
Qed.

Lemma original_run c ts added :
  over c ts added -> exists hr, original_info c = (Ok (ts, hr), c) /\ (hr = S_OK \/ hr = S_FALSE /\ ts = []).
Proof using Type.
  intros [Hd _ Hr _ _ _]. unfold GetOriginalSignatureInfo. rewrite (run_bind _ _ _ _ _ (eq_refl : gets id c = _)).
  change (id c) with c. rewrite bool_decide_true by done. destruct Hd as [[-> ->]|(Htk & bs & Hsig & Hl & Hf & Hb)].
  - exists S_FALSE. split; [done|by right].
  - exists S_OK. rewrite (proj2 (Z.eqb_neq _ _)), Hsig by done. rewrite (run_bind _ _ _ _ _ (eq_refl : lift (Ok bs) c = _)).
    pose proof (locals_length _ _ Hl). rewrite (proj2 (Z.leb_le _ _)) by lia. rewrite u32_small by (unfold is_u32; lia).
    rewrite (parses_locals bs fuel ts bs Hl Hf) by (lia || (exists [], []; by rewrite app_nil_r)).
    split; [done|by left].
Qed.

Lemma locals_Initialize_run c ts added :
  over c ts added -> exists hr c', initialize c = (Ok hr, c') /\ over c' ts added /\ m_initialized c' = true /\
    module_metadata c' = module_metadata c /\ method_LocalVarSigTok c' = method_LocalVarSigTok c.
Proof using Type.
  intros Ho. unfold Initialize. rewrite (run_bind _ _ _ _ _ (eq_refl : gets id c = _)). change (id c) with c.
  destruct (m_initialized c) eqn:Ei; [by exists S_FALSE, c|]. destruct (original_run c ts added Ho) as (hr & E & Hhr).
  rewrite (run_bind _ _ _ _ _ E). cbn [fst snd]. eexists hr, _. split; [reflexivity|].
  pose proof (denotes_length _ _ _ (ov_denotes _ _ _ Ho)). pose proof (ov_zero _ _ _ Ho Ei) as Hz. destruct Ho. split; [|done].
  split; cbn; try done. intros _. destruct Hhr as [-> | [-> ->]]; cbn; [|done].
  by rewrite u32_small by (unfold is_u32; lia).
Qed.

(** The calls [AddLocal(t)] for each type, with the indexes they give. *)
Fixpoint AddLocals (ts : list CType) : M Locals (list Z) :=
  match ts with
  | [] => ret []
  | t :: ts => i <- AddLocal GetSigFromToken fuel t ;; js <- AddLocals ts ;; ret (i :: js)
  end.

Lemma AddLocal_run c ts added t :
  over c ts added -> Z.of_nat (length added) < 2 ^ 29 ->
  exists c', AddLocal GetSigFromToken fuel t c = (Ok (Z.of_nat (length ts + length added)), c') /\
    over c' ts (added ++ [t]) /\ m_initialized c' = true /\
    module_metadata c' = module_metadata c.
Proof using Type.
  intros Ho Hl. destruct (locals_Initialize_run c ts added Ho) as (hr & c1 & E & Ho1 & Hi & Hmd & Htk). unfold AddLocal.
  rewrite (run_bind _ _ _ _ _ E), (run_bind _ _ _ _ _ (eq_refl : gets id c1 = _)). change (id c1) with c1.
  rewrite (ov_readonly _ _ _ Ho1). eexists. split; [|split].
  - unfold bind, modify, gets, ret. cbn. rewrite (ov_count _ _ _ Ho1 Hi), (ov_added _ _ _ Ho1), length_app. cbn [length].
    pose proof (denotes_length _ _ _ (ov_denotes _ _ _ Ho)). rewrite u32_small by (unfold is_u32; lia).
    do 3 f_equal. lia.
  - destruct Ho1. split; cbn; (done || congruence).
  - by split.
Qed.

Lemma AddLocals_run news c ts added :
  over c ts added -> Z.of_nat (length added + length news) < 2 ^ 29 ->
  exists c', AddLocals news c = (Ok (map Z.of_nat (seq (length ts + length added) (length news))), c') /\
    over c' ts (added ++ news) /\ (news <> [] -> m_initialized c' = true) /\ module_metadata c' = module_metadata c.
Proof using Type.
  revert c added. induction news as [|t news IH]; intros c added Ho Hl; cbn [AddLocals length seq map] in *.
  - exists c. by rewrite app_nil_r.
  - destruct (AddLocal_run c ts added t Ho ltac:(lia)) as (c1 & E1 & Ho1 & Hi1 & Hm1).
    destruct (IH c1 (added ++ [t]) Ho1 ltac:(rewrite length_app; cbn; lia)) as (c2 & E2 & Ho2 & Hi2 & Hm2).
    exists c2. rewrite (run_bind _ _ _ _ _ E1), (run_bind _ _ _ _ _ E2). rewrite <- app_assoc in Ho2. cbn [app] in Ho2.
    rewrite length_app in *. cbn [length] in *. replace (length ts + (length added + 1))%nat with (S (length ts + length added)) by lia.
    split; [done|]. split; [done|]. split; [|congruence]. intros _. destruct news; [|by apply Hi2].
    cbn in E2. injection E2 as <-. done.
Qed.

Lemma with_builder_run (m : B unit) bs b pre (c : Locals) :
  writes m bs -> holds b pre -> Z.of_nat (length pre) + Z.of_nat (length bs) + 4 < limit ->
  exists b', with_builder m b c = (Ok (tt, b'), c) /\ holds b' (pre ++ bs).
Proof. intros Hw Hh Hl. destruct (Hw b pre Hh Hl) as (b' & E & Hh'). exists b'. unfold with_builder. by rewrite E. Qed.

Lemma types_app ts1 bs1 ts2 bs2 : TypesSig ts1 bs1 -> TypesSig ts2 bs2 -> TypesSig (ts1 ++ ts2) (bs1 ++ bs2).
Proof. induction 1; [done|]. intros H2. rewrite <- app_assoc. constructor; auto. Qed.

(** The signature that is built: original locals first, then the added ones. *)
Lemma GetCorSignature_builds c ts added pb ab :
  over c ts added -> TypesSig ts pb -> TypesSig added ab ->
  Z.of_nat (length pb + length ab) + 16 < limit ->
  exists b c' bs, GetCorSignature GetSigFromToken fuel c = (Ok b, c') /\ holds b bs /\
    LocalsSig (ts ++ added) bs /\ (length bs <= length pb + length ab + 5)%nat /\
    over c' ts added /\ module_metadata c' = module_metadata c.
Proof using Type.
  intros Ho Hp Ha Hl. destruct (locals_Initialize_run c ts added Ho) as (hr & c1 & E1 & Ho1 & Hi & Hmd & _).
  pose proof (types_length _ _ Hp). pose proof (types_length _ _ Ha). unfold limit in Hl.
  destruct (data_encodes (Z.of_nat (length (ts ++ added)))) as (nb & En & Hn); [rewrite length_app; unfold sig_value; lia|].
  apply encodes_length in Hn. assert (DataSig (Z.of_nat (length (ts ++ added))) nb) as Hnum
    by (constructor; [rewrite length_app; unfold sig_value; lia|done]).
  destruct (with_builder_run _ ([IMAGE_CEE_CS_CALLCONV_LOCAL_SIG] ++ nb) new_builder [] c1
    (writes_bind _ _ _ _ (writes_data _ _ (data_byte IMAGE_CEE_CS_CALLCONV_LOCAL_SIG ltac:(done))) (writes_count _ _ Hnum))
    holds_new ltac:(rewrite length_app; cbn; unfold limit; lia)) as (b1 & B1 & H1). cbn [app] in H1.
  destruct (original_run c1 ts added Ho1) as (ohr & EO & Hohr).
  destruct (with_builder_run _ pb b1 _ c1 (proj1 (proj2 writes_types) ts pb Hp) H1) as (b2 & B2 & H2);
    [cbn [length]; unfold limit; lia|].
  assert (exists b2, (if 0 <? Z.of_nat (length ts) then
      r <- original_info ;;
      match snd r with
      | S_OK => types <- lift (enumerate (fst r)) ;;
          with_builder (for_each AddToSignature types) b1
      | _ => ret (tt, b1)
      end else ret (tt, b1)) c1 = (Ok (tt, b2), c1) /\ holds b2 ((IMAGE_CEE_CS_CALLCONV_LOCAL_SIG :: nb) ++ pb)) as (b2' & B2' & H2').
  { destruct (Z.ltb_spec 0 (Z.of_nat (length ts))) as [Hpos|Hz].
    - exists b2. split; [|done]. rewrite (run_bind _ _ _ _ _ EO). destruct Hohr as [-> | [_ ->]]; [|cbn in Hpos; lia].
      cbn [fst snd]. assert (small ts) as Hs by (unfold small; lia).
      rewrite (enumerate_all ts Hs). exact B2.
    - exists b1. split; [done|]. assert (ts = []) as -> by (apply nil_length_inv; lia). inversion Hp. by rewrite app_nil_r. }
  destruct (with_builder_run _ ab b2' _ c1 (proj1 (proj2 writes_types) added ab Ha) H2') as (b3 & B3 & H3);
    [rewrite length_app; cbn [length]; unfold limit; lia|].
  exists b3, c1, ((IMAGE_CEE_CS_CALLCONV_LOCAL_SIG :: nb) ++ pb ++ ab). split; [|split; [by rewrite app_assoc|]].
  - unfold GetCorSignature. rewrite (run_bind _ _ _ _ _ E1), (run_bind _ _ _ _ _ (eq_refl : gets id c1 = _)). change (id c1) with c1.
    rewrite (ov_count _ _ _ Ho1 Hi), (ov_added _ _ _ Ho1). rewrite length_app, Nat2Z.inj_add in B1.
    rewrite (run_bind _ _ _ _ _ B1). cbn [snd]. rewrite (run_bind _ _ _ _ _ B2'). cbn [snd]. by rewrite (run_bind _ _ _ _ _ B3).
  - split; [constructor; [done|by apply types_app]|]. split; [|done]. cbn [app length]. rewrite !length_app. lia.
Qed.

Lemma bytes_known (bs : list Z) : mapM (@id (option Z)) (map Some bs) = Some bs.
Proof. induction bs as [|b bs IH]; [done|]. cbn. by rewrite IH. Qed.

Lemma Commit_run c ts added pb ab :
  over c ts added -> m_initialized c = true -> added <> [] -> TypesSig ts pb -> TypesSig added ab ->
  Z.of_nat (length pb + length ab) + 16 < limit -> (length pb + length ab + 5 <= fuel)%nat ->
  exists tk md, CommitSignature GetSigFromToken GetTokenFromSig fuel c = (Ok S_OK, new_collection false tk md) /\
    denotes md tk (ts ++ added).
Proof using Type*.
  intros Ho Hi Hne Hp Ha Hl Hf. destruct (GetCorSignature_builds c ts added pb ab Ho Hp Ha Hl) as (b & c1 & bs & E & Hh & Hls & Hbl & Ho1 & _).
  unfold CommitSignature. rewrite (run_bind _ _ _ _ _ (eq_refl : gets id c = _)). change (id c) with c.
  rewrite Hi, (ov_added _ _ _ Ho), (bool_decide_false (added = [])), (ov_readonly _ _ _ Ho) by done. cbn [negb orb andb].
  rewrite (run_bind _ _ _ _ _ E). rewrite (holds_bytes _ _ Hh), bytes_known.
  destruct (emit_import bs (module_metadata c1)) as (tk & md & Ee & Htk & Himp). exists tk, md. unfold bind. rewrite Ee.
  cbn. unfold modify, ret, new_collection. cbn. rewrite (ov_readonly _ _ _ Ho1). split; [done|]. right. split; [done|].
  exists bs. unfold limit in Hl. split; [done|]. split; [done|]. lia.
Qed.

(** Adding locals and committing: from a method with locals [ts] (or no local
    signature), adding a non-empty list of well-formed types gives them the indexes
    that follow those of [ts], CommitSignature emits a signature whose token the method
    then has, the collection is as new, and parsing the method's signature again gives
    the locals [ts] followed by the added ones, all unchanged. *)
Theorem CommitSignature_adds md tk ts pb news nbs :
  denotes md tk ts -> TypesSig ts pb -> TypesSig news nbs -> news <> [] ->
  Z.of_nat (length pb + length nbs) + 16 < limit -> (length pb + length nbs + 5 <= fuel)%nat ->
  exists tk' md' c, AddLocals news (new_collection false tk md) = (Ok (map Z.of_nat (seq (length ts) (length news))), c) /\
    CommitSignature GetSigFromToken GetTokenFromSig fuel c = (Ok S_OK, new_collection false tk' md') /\
    denotes md' tk' (ts ++ news) /\
    original_info (new_collection false tk' md') = (Ok (ts ++ news, S_OK), new_collection false tk' md').
Proof using Type*.
  intros Hd Hp Hn Hne Hl Hf. pose proof (types_length _ _ Hn). assert (over (new_collection false tk md) ts []) as Ho by by split.
  destruct (AddLocals_run news _ ts [] Ho) as (c & Ea & Hoc & Hi & _); [unfold limit in Hl; cbn; lia|]. cbn [app] in Hoc.
  rewrite Nat.add_0_r in Ea. destruct (Commit_run c ts news pb nbs Hoc (Hi Hne) Hne Hp Hn Hl Hf) as (tk' & md' & Ec & Hd').
  exists tk', md', c. split; [done|]. split; [done|]. split; [done|].
  destruct (original_run (new_collection false tk' md') (ts ++ news) []) as (hr & E & Hhr); [by split|].
  rewrite E. destruct Hhr as [-> | [_ Hnil]]; [done|]. by apply app_eq_nil in Hnil as [_ ->].
Qed.

End Spec.

(** Metadata as the list of emitted signatures. *)
Definition toy_import (md : list (list Z)) (tk : Z) : outcome (list Z) :=
  match md !! Z.to_nat (tk - 1) with Some bs => Ok bs | None => Err E_FAIL end.
Definition toy_emit (bytes : list Z) (md : list (list Z)) : outcome Z * list (list Z) :=
  (Ok (Z.of_nat (length md) + 1), md ++ [bytes]).

#[export] Instance toy_laws : MetadataLaws toy_import toy_emit.
Proof.
  intros bytes md. eexists _, _. split; [reflexivity|]. split; [unfold mdTokenNil; lia|]. unfold toy_import.
  replace (Z.to_nat (Z.of_nat (length md) + 1 - 1)) with (length md) by lia. by rewrite list_lookup_middle.
Qed.

Lemma CommitSignature_adds_witness : exists tk md c,
  AddLocals toy_import 40 [sample_type; CSimpleType (new_base 0x1c)] (new_collection false 1 [[7; 1; 8]]) = (Ok [1; 2], c) /\
  CommitSignature toy_import toy_emit 40 c = (Ok S_OK, new_collection false tk md) /\
  denotes toy_import 40 md tk [CSimpleType (new_base 8); sample_type; CSimpleType (new_base 0x1c)].
Proof.
  assert (TypesSig [CSimpleType (new_base 8)] [8]) as H8 by (apply (tss_cons _ [] [8] []); [apply simple_plain; set_solver|constructor]).
  assert (TypesSig [sample_type; CSimpleType (new_base 0x1c)] (sample_bytes ++ [0x1c] ++ [])) as Hn.
  { apply tss_cons; [apply sample_sig|]. apply tss_cons; [apply simple_plain; set_solver|constructor]. }
  destruct (CommitSignature_adds toy_import toy_emit 40 [[7; 1; 8]] 1 [CSimpleType (new_base 8)] [8]
    [sample_type; CSimpleType (new_base 0x1c)] (sample_bytes ++ [0x1c] ++ [])) as (tk & md & c & E1 & E2 & Hd & _).
  - right. split; [done|]. exists [7; 1; 8]. split; [done|]. split; [|cbn; lia].
    apply (locals_sig [CSimpleType (new_base 8)] [1] [8]); [by apply data_byte|exact H8].
  - exact H8.
  - exact Hn.
  - done.
  - reflexivity.
  - cbn. lia.
  - exists tk, md, c. exact (conj E1 (conj E2 Hd)).
Defined.
