(* ===== verification/MaxStack.v ===== *)
(** [CInstructionGraph::CalculateMaxStack] and what it asks of an instruction:
    [CInstruction::GetStackImpact], [GetSignatureInfoFromCallToken] and
    [IsFirstInstructionInCatchOrFilter]. *)
From S2P Require Import Prelude ILOpcodes Instruction Store Chain BranchTargets Clauses CorSig Types Enumerator TypeCreator.

(** The calls on [IMetaDataImport] of the module, as functions of the token: the
    signature of a member reference, of a method, of a stand-alone signature token,
    and the method of a method specification. *)
Record MetaDataImport := mkImport {
  GetMemberRefProps : Z -> outcome (list Z);
  GetMemberProps : Z -> outcome (list Z);
  GetSigFromToken : Z -> outcome (list Z);
  GetMethodSpecProps : Z -> outcome Z
}.

(** The [DWORD] row entry of an opcode with a variable number of slots. *)
Definition VarSlots : Z := u32 (-1).

Section MaxStack.

Context (import : MetaDataImport) (fuel : nat).

(** [CInstruction::GetSignatureInfoFromCallToken]: calling convention, number of
    parameters and element type of the return type. *)
Definition call_signature (callToken : Z) : outcome (list Z) :=
  callToken <~ (if TypeFromToken callToken =? mdtMethodSpec then GetMethodSpecProps import callToken else Ok callToken) ;;
  if TypeFromToken callToken =? mdtMemberRef then GetMemberRefProps import callToken
  else if TypeFromToken callToken =? mdtMethodDef then GetMemberProps import callToken
  else if TypeFromToken callToken =? mdtSignature then GetSigFromToken import callToken
  else Undef NullDeref.

Definition signature_info (sig : list Z) : outcome (Z * Z * Z) :=
  r <~ CorSigUncompressData_unbounded sig 0 ;;
  let callConv := fst r in
  let pSig := snd r in
  if (callConv =? IMAGE_CEE_CS_CALLCONV_MAX) || (callConv =? IMAGE_CEE_CS_CALLCONV_FIELD) then Err E_UNEXPECTED
  else
    pSig <~ (if IsFlagSet callConv IMAGE_CEE_CS_CALLCONV_GENERIC
             then r <~ CorSigUncompressData_unbounded sig pSig ;; Ok (pSig + snd r) else Ok pSig) ;;
    p <~ CorSigUncompressData_unbounded sig pSig ;;
    t <~ CorSigUncompressData_unbounded sig (pSig + snd p) ;;
    Ok (callConv, fst p, fst t).

Definition GetSignatureInfoFromCallToken (i : CInstruction) : outcome (Z * Z * Z) :=
  r <~ opinfo (m_opcode i) ;;
  if bool_decide (ILOpcodes.m_type r <> ILOperandType_Token) then Err E_FAIL
  else
    bytes <~ GetOperandValue 4 i ;;
    sig <~ call_signature (le_val bytes) ;;
    signature_info sig.

(** The signature blob that [CMethodInfo::InitializeCorAttributes] stores in [m_pSig]:
    the tests are on [m_tkFunction], also in the call for the method of a method
    specification. *)
Fixpoint InitializeCorAttributes (fuel : nat) (m_tkFunction tkFunction : Z) : outcome (list Z) :=
  match fuel with
  | O => NoFuel
  | S fuel =>
      if TypeFromToken m_tkFunction =? mdtMethodDef then GetMemberProps import tkFunction
      else if TypeFromToken m_tkFunction =? mdtMemberRef then GetMemberRefProps import tkFunction
      else tkMethodDef <~ GetMethodSpecProps import tkFunction ;; InitializeCorAttributes fuel m_tkFunction tkMethodDef
  end.

(** [CMethodInfo::GetReturnType], with [InitializeMethodSignature]; what they store is
    a function of the metadata. *)
Definition GetReturnType (m : ptr) : W CType :=
  mi <- load_method m ;;
  let tk := m_tkFunction (m_render mi) in
  sig <- lift (InitializeCorAttributes fuel tk tk) ;;
  r <- lift (ParseMethodSignature sig fuel (u32 (Z.of_nat (length sig))) 0) ;;
  ret (snd (fst (fst (fst r)))).

(** [CInstruction::GetStackImpact]. *)
Definition GetStackImpact (method : option ptr) (currStackDepth : Z) (i : CInstruction) : W Z :=
  m <- if_null_ret method E_POINTER ;;
  if (m_opcode i =? Cee_Leave) || (m_opcode i =? Cee_Leave_S) then ret (s32 (- currStackDepth))
  else
    r <- lift (opinfo (m_opcode i)) ;;
    push <- (if m_pushSlots r =? VarSlots then
               s <- lift (GetSignatureInfoFromCallToken i) ;;
               ret (if snd s =? ELEMENT_TYPE_VOID then 0 else 1)
             else ret (m_pushSlots r)) ;;
    pop <- (if m_popSlots r =? VarSlots then
              if bool_decide (m_opcode i ∈ [Cee_Call; Cee_Calli; Cee_Callvirt; Cee_Newobj]) then
                s <- lift (GetSignatureInfoFromCallToken i) ;;
                let '(callConv, parameterCount, _) := s in
                ret (if IsFlagSet callConv IMAGE_CEE_CS_CALLCONV_HASTHIS && negb (m_opcode i =? Cee_Newobj)
                     then parameterCount + 1 else parameterCount)
              else if m_opcode i =? Cee_Ret then
                t <- GetReturnType m ;;
                ret (if m_type (base t) =? ELEMENT_TYPE_VOID then 0 else 1)
              else ret 0
            else ret (m_popSlots r)) ;;
    ret (s32 (push - pop)).

(** [CInstructionGraph::IsFirstInstructionInCatchOrFilter] over the clauses that the
    enumerator gives. *)
Definition starts_handler (c : CExceptionClause) (p : ptr) : bool :=
  ((m_clauseFlags c =? COR_ILEXCEPTION_CLAUSE_NONE) || (m_clauseFlags c =? COR_ILEXCEPTION_CLAUSE_FILTER)) &&
    bool_decide (m_pHandlerFirstInstruction c = Some p) ||
  (m_clauseFlags c =? COR_ILEXCEPTION_CLAUSE_FILTER) && bool_decide (m_pFilterFirstInstruction c = Some p).

Fixpoint any_handler (cs : list ptr) (p : ptr) : W bool :=
  match cs with
  | [] => ret false
  | c :: cs => cl <- load_clause c ;; if starts_handler cl p then ret true else any_handler cs p
  end.

Definition IsFirstInstructionInCatchOrFilter (method : option ptr) (p : ptr) : W bool :=
  m <- deref method ;;
  clauses <- GetExceptionSection m ;;
  cs <- lift (enumerate clauses) ;;
  any_handler cs p.

(** [insertOrUpdateStackDepthMap] *)
Definition insertOrUpdate (stackDepth : Z) (offset : Z) (map : gmap Z Z) : gmap Z Z :=
  match map !! offset with
  | Some d => if d <? stackDepth then <[offset := stackDepth]> map else map
  | None => <[offset := stackDepth]> map
  end.

(** The offsets of the targets of a switch, from index [i]. *)
Fixpoint switch_offsets (p : ptr) (i : Z) (count : nat) : W (list Z) :=
  match count with
  | O => ret []
  | S count => o <- Switch_GetBranchOffset fuel p i ;; os <- switch_offsets p (i + 1) count ;; ret (o :: os)
  end.

(** The offsets whose depth an instruction updates. *)
Definition target_offsets (p : ptr) (i : CInstruction) : W (list Z) :=
  isBranch <- lift (GetIsBranchInternal i) ;;
  b <- (if isBranch : bool then o <- GetTargetOffset fuel p ;; ret [o] else ret []) ;;
  s <- (if GetIsSwitchInternal i then n <- Switch_GetBranchCount p ;; switch_offsets p 0 (Z.to_nat n) else ret []) ;;
  ret (b ++ s).

(** The depth at an instruction: the one that the map has for its offset, when it is
    larger, and 1 at the start of a catch handler or a filter. *)
Definition depth_at (method : option ptr) (p : ptr) (stackDepth maxStackDepth : Z) (map : gmap Z Z) : W (Z * Z) :=
  stackDepth <- (if bool_decide (map = ∅) then ret stackDepth
                 else o <- GetOffset fuel p ;;
                      ret (match map !! o with Some d => if stackDepth <? d then d else stackDepth | None => stackDepth end)) ;;
  isFirst <- IsFirstInstructionInCatchOrFilter method p ;;
  ret (if isFirst : bool then (1, if maxStackDepth <? 1 then 1 else maxStackDepth) else (stackDepth, maxStackDepth)).

(** The loop of [CalculateMaxStack]. *)
Fixpoint max_stack_loop (n : nat) (method : option ptr) (pInstr : option ptr) (stackDepth maxStackDepth : Z) (map : gmap Z Z) : W Z :=
  match pInstr with
  | None => ret maxStackDepth
  | Some p =>
      match n with
      | O => out_of_fuel
      | S n =>
          i <- load p ;;
          d <- depth_at method p stackDepth maxStackDepth map ;;
          let '(stackDepth, maxStackDepth) := d in
          stackImpact <- GetStackImpact method stackDepth i ;;
          let stackDepth := u32 (stackDepth + stackImpact) in
          os <- target_offsets p i ;;
          let map := foldl (fun map o => insertOrUpdate stackDepth o map) map os in
          max_stack_loop n method (m_pNextInstruction i) stackDepth
            (if maxStackDepth <? stackDepth then stackDepth else maxStackDepth) map
      end
  end.

Definition CalculateMaxStack (g : ptr) : W Z :=
  gr <- load_graph g ;; max_stack_loop fuel (m_pMethodInfo gr) (m_pFirstInstruction gr) 0 0 ∅.

End MaxStack.
