(* ===== verification/MaxStackSpec.v ===== *)
(** [CalculateMaxStack] bounds every stack depth that the code can have. *)
From S2P Require Import Prelude ILOpcodes Instruction Store Chain Demo Offsets BranchTargets Retarget Clauses Codec CodecSpec Enumerator Types MaxStack.

(** ** The depth map *)

Lemma insertOrUpdate_lookup s o μ o' :
  insertOrUpdate s o μ !! o' =
    if decide (o' = o) then Some (match μ !! o with Some d => Z.max d s | None => s end) else μ !! o'.
Proof.
  unfold insertOrUpdate. destruct (decide (o' = o)) as [->|Hne].
  - destruct (μ !! o) as [d|] eqn:E; [|by rewrite lookup_insert_eq].
    destruct (Z.ltb_spec d s); [rewrite lookup_insert_eq; f_equal; lia|rewrite E; f_equal; lia].
  - destruct (μ !! o) as [d|]; [destruct (d <? s); [|done]|]; by rewrite lookup_insert_ne.
Qed.

Notation updates s os μ := (foldl (fun map o => insertOrUpdate s o map) μ os).

Lemma updates_keeps s os μ o v : μ !! o = Some v -> exists v', updates s os μ !! o = Some v' /\ v <= v'.
Proof.
  revert μ v. induction os as [|x os IH]; intros μ v Hv; cbn; [exists v; split; [done|lia]|].
  destruct (IH (insertOrUpdate s x μ) (if decide (o = x) then Z.max v s else v)) as (v' & E & Hle).
  - rewrite insertOrUpdate_lookup. case_decide; [subst; by rewrite Hv|done].
  - exists v'. split; [done|]. case_decide; lia.
Qed.

Lemma updates_reaches s os μ o : o ∈ os -> exists v', updates s os μ !! o = Some v' /\ s <= v'.
Proof.
  revert μ. induction os as [|x os IH]; intros μ; [set_solver|]. intros [->|Ho]%elem_of_cons; cbn; [|by apply IH].
  destruct (updates_keeps s os (insertOrUpdate s x μ) x (match μ !! x with Some d => Z.max d s | None => s end)) as (v' & E & Hle).
  - rewrite insertOrUpdate_lookup. by rewrite decide_True.
  - exists v'. split; [done|]. destruct (μ !! x); lia.
Qed.

Lemma updates_bounded (P : Z -> Prop) s os μ :
  P s -> (forall o v, μ !! o = Some v -> P v) -> forall o v, updates s os μ !! o = Some v -> P v.
Proof.
  intros Hs. revert μ. induction os as [|x os IH]; intros μ Hμ; cbn; [done|]. apply IH. intros o v.
  rewrite insertOrUpdate_lookup. case_decide; [|apply Hμ]. intros [= <-]. destruct (μ !! x) as [d|] eqn:E; [|done].
  apply Hμ in E. destruct (Z.max_spec d s) as [[_ ->]|[_ ->]]; done.
Qed.

(** ** One instruction *)

(** Whether a clause of the section starts a catch handler or a filter at [p]. *)
Definition handler_at (w : World) (cs : list ptr) (p : ptr) : bool :=
  existsb (fun c => match w_clause w !! c with Some cl => starts_handler cl p | None => false end) cs.

Lemma settled_any_handler w cs p :
  (forall c, c ∈ cs -> is_Some (w_clause w !! c)) -> settled w (any_handler cs p) (handler_at w cs p).
Proof.
  induction cs as [|c cs IH]; intros Hcs; cbn [any_handler handler_at existsb]; [apply settled_ret|].
  destruct (Hcs c (list_elem_of_here _ _)) as [cl Hcl].
  eapply settled_bind.
  { intros w1 H1. exists w1. split; [|done]. unfold load_clause. by rewrite (of_clause _ _ H1), Hcl. }
  rewrite Hcl. destruct (starts_handler cl p); [apply settled_ret|]. apply IH. intros d Hd. apply Hcs. set_solver.
Qed.

Lemma settled_IsFirst w m cs p :
  section_ok w (Some m) cs -> small cs ->
  settled w (IsFirstInstructionInCatchOrFilter (Some m) p) (handler_at w cs p).
Proof.
  intros (mi & Hm & Hc & Hcs) Hs. unfold IsFirstInstructionInCatchOrFilter. cbn [deref]. sstep.
  eapply settled_bind.
  { intros w1 H1. exists w1. split; [|done]. apply run_GetExceptionSection. exists mi.
    rewrite (of_method _ _ H1), (of_clause _ _ H1). done. }
  rewrite (enumerate_all cs Hs). sstep. by apply settled_any_handler.
Qed.

Section Instructions.

Context (fuel : nat) (w : World) (offs : ptr -> option Z).
Hypothesis Hoffs : offsets_ok fuel offs w.

Lemma settled_switch_offsets p i ds ts : forall todo done os,
  w_instr w !! p = Some i -> m_class i = CSwitch ds ts -> ts = done ++ todo ->
  Forall2 (fun t o => t ≫= offs = Some o) todo os ->
  settled w (switch_offsets fuel p (Z.of_nat (length done)) (length todo)) os.
Proof using Hoffs.
  induction todo as [|t todo IH]; intros done os Hi Hc Hts Hos; inversion Hos as [|? o ? os' Ho Hos']; subst;
    cbn [switch_offsets length]; [apply settled_ret|].
  destruct t as [t|]; [|done]. eapply (settled_bind _ _ _ o).
  - unfold Switch_GetBranchOffset. sstep. rewrite Hc.
    rewrite (switch_target_lookup _ (length done) (Some t)) by (by rewrite list_lookup_middle). sstep. by apply Hoffs.
  - eapply (settled_bind _ _ _ os'); [|apply settled_ret].
    replace (Z.of_nat (length done) + 1) with (Z.of_nat (length (done ++ [Some t]))) by (rewrite length_app; cbn; lia).
    apply IH; [done..| |done]. by rewrite <- app_assoc.
Qed.

(** The targets of an instruction all have offsets. *)
Lemma settled_target_offsets p i os :
  w_instr w !! p = Some i -> kind_ok i -> Z.of_nat (length (refs (m_class i))) < 2 ^ 32 ->
  Forall2 (fun t o => t ≫= offs = Some o) (refs (m_class i)) os ->
  settled w (target_offsets fuel p i) os.
Proof using Hoffs.
  intros Hi (r & Hr & Hk) Hlen Hos. unfold target_offsets, GetIsBranchInternal, GetIsSwitchInternal. rewrite Hr. cbn [obind].
  sstep. destruct (m_class i) as [| |d t orig|ds ts] eqn:Hc; cbn [refs] in *.
  1,2: destruct Hk as [-> Hk]; inversion Hos; subst; rewrite (proj2 (Z.eqb_neq _ _)) by done; sstep; sstep; apply settled_ret.
  - rewrite Hk. assert (m_opcode i =? Cee_Switch = false) as ->.
    { apply Z.eqb_neq. intros E. rewrite E in Hr. vm_compute in Hr. injection Hr as <-. by vm_compute in Hk. }
    inversion Hos as [|? o ? ? Ho Hnil]; subst. inversion Hnil; subst. destruct t as [t|]; [|done].
    eapply (settled_bind _ _ _ [o]).
    + eapply (settled_bind _ _ _ o); [|apply settled_ret]. unfold GetTargetOffset. sstep. rewrite Hc. by apply Hoffs.
    + sstep. apply settled_ret.
  - assert (IsFlagSet (m_flags r) ILOpcodeFlag_Branch = false) as -> by (rewrite Hk in Hr; vm_compute in Hr; injection Hr as <-; done).
    rewrite Hk, Z.eqb_refl. sstep. eapply (settled_bind _ _ _ os); [|apply settled_ret].
    eapply settled_bind; [by eapply settled_Switch_GetBranchCount|]. rewrite Nat2Z.id.
    by apply (settled_switch_offsets p i ds ts ts [] os).
Qed.

End Instructions.

(** ** Depths that the code can have *)

(** What [GetStackImpact] says of the instruction at [p]: it changes the depth by [n],
    or empties the stack ([None]). *)
Definition has_effect (import : MetaDataImport) (fuel : nat) (w : World) (m p : ptr) (e : option Z) : Prop :=
  (exists i, w_instr w !! p = Some i /\ kind_ok i /\ forall depth,
     settled w (GetStackImpact import fuel (Some m) depth i) (s32 (match e with Some n => n | None => - depth end))) /\
  match e with Some n => - 2 ^ 30 <= n <= 1 | None => True end.

(** The depth behind instruction [k] when it is [d k] before it. *)
Definition after (effects : list (option Z)) (d : nat -> Z) (k : nat) : Z :=
  match effects !! k with Some (Some n) => d k + n | _ => 0 end.

(** [d] is an assignment of stack depths to the instructions of [l] as ECMA-335
    III.1.7.5 requires it: no instruction underflows; a catch handler or filter starts
    with the exception object; elsewhere the depth is accounted for by an empty stack,
    by the instruction before, or by a branch from an earlier instruction. *)
Record valid_depths (w : World) (cs l : list ptr) (effects : list (option Z)) (d : nat -> Z) : Prop := {
  vd_nonneg : forall k, 0 <= d k;
  vd_underflow : forall k, 0 <= after effects d k;
  vd_handler : forall k p, l !! k = Some p -> handler_at w cs p = true -> d k <= 1;
  vd_accounted : forall k p, l !! k = Some p -> handler_at w cs p = false ->
    d k <= 0 \/ (exists j, k = S j /\ d k <= after effects d j) \/
    (exists j q i, (j < k)%nat /\ l !! j = Some q /\ w_instr w !! q = Some i /\ Some p ∈ refs (m_class i) /\
       d k <= after effects d j)
}.

Section Loop.

Context (import : MetaDataImport) (fuel : nat) (w : World) (m : ptr) (all : list ptr) (ss : list Z) (cs : list ptr).
Context (effects : list (option Z)) (d : nat -> Z).
Hypothesis Hoffs : offsets_ok fuel (offset_in 0 all ss) w.
Hypothesis Hall : forall p, p ∈ all -> is_Some (offset_in 0 all ss p).
Hypothesis Hsection : section_ok w (Some m) cs.
Hypothesis Hsmall : small cs.
Hypothesis Heff : Forall2 (has_effect import fuel w m) all effects.
Hypothesis Htargets : forall p i, p ∈ all -> w_instr w !! p = Some i ->
  Z.of_nat (length (refs (m_class i))) < 2 ^ 32 /\ Forall (fun t => exists q, t = Some q /\ q ∈ all) (refs (m_class i)).
Hypothesis Hd : valid_depths w cs all effects d.
Hypothesis Hcount : Z.of_nat (length all) < 2 ^ 30.

Let offs := offset_in 0 all ss.

(** What holds of the variables of the loop before instruction [k]. *)
Record loop_inv (k : nat) (stackDepth maxStackDepth : Z) (μ : gmap Z Z) : Prop := {
  li_depth : 0 <= stackDepth <= Z.of_nat k + 1;
  li_max : 0 <= maxStackDepth;
  li_before : forall j, k = S j -> after effects d j <= stackDepth;
  li_covered : forall j, (j < k)%nat -> d j <= maxStackDepth /\ after effects d j <= maxStackDepth;
  li_map : forall o v, μ !! o = Some v -> 0 <= v <= Z.of_nat k + 1;
  li_jumps : forall j q i t, (j < k)%nat -> all !! j = Some q -> w_instr w !! q = Some i -> Some t ∈ refs (m_class i) ->
    exists o v, offs t = Some o /\ μ !! o = Some v /\ after effects d j <= v
}.

(** The depth at instruction [k]. *)
Lemma depth_at_run k p stackDepth maxStackDepth μ :
  all !! k = Some p -> loop_inv k stackDepth maxStackDepth μ ->
  exists s mx, settled w (depth_at fuel (Some m) p stackDepth maxStackDepth μ) (s, mx) /\
    d k <= s /\ 0 <= s <= Z.of_nat k + 1 /\ maxStackDepth <= mx /\ d k <= mx.
Proof using Hoffs Hall Hsection Hsmall Hd.
  intros Hp [Hs Hm Hb Hc Hμ Hj]. destruct (Hall p (list_elem_of_lookup_2 _ _ _ Hp)) as [o Ho].
  set (s1 := match μ !! o with Some v => if stackDepth <? v then v else stackDepth | None => stackDepth end).
  assert (stackDepth <= s1 /\ 0 <= s1 <= Z.of_nat k + 1 /\ forall v, μ !! o = Some v -> v <= s1) as (Hs1 & Hr1 & Hv1).
  { unfold s1. destruct (μ !! o) as [v|] eqn:Ev; [|split_and!; [lia|lia|lia|done]]. apply Hμ in Ev.
    destruct (Z.ltb_spec stackDepth v); split_and!; try lia; intros ? [= <-]; lia. }
  exists (if handler_at w cs p then 1 else s1),
    (if handler_at w cs p then (if maxStackDepth <? 1 then 1 else maxStackDepth) else maxStackDepth). split.
  { unfold depth_at. eapply (settled_bind _ _ _ s1).
    - case_bool_decide as E; [unfold s1; rewrite E, lookup_empty; apply settled_ret|].
      eapply settled_bind; [by apply Hoffs|apply settled_ret].
    - eapply settled_bind; [by apply (settled_IsFirst w m cs)|]. destruct (handler_at w cs p); apply settled_ret. }
  destruct (handler_at w cs p) eqn:Eh.
  - pose proof (vd_handler _ _ _ _ _ Hd k p Hp Eh). destruct (Z.ltb_spec maxStackDepth 1); lia.
  - destruct (vd_accounted _ _ _ _ _ Hd k p Hp Eh) as [Hz|[(j & -> & Hle)|(j & q & i & Hjk & Hq & Hi & Hin & Hle)]].
    + lia.
    + specialize (Hb j eq_refl). destruct (Hc j ltac:(lia)). lia.
    + destruct (Hj j q i p Hjk Hq Hi Hin) as (o' & v & Ho' & Hv & Hle'). unfold offs in Ho'. rewrite Ho in Ho'. injection Ho' as <-.
      specialize (Hv1 v Hv). destruct (Hc j Hjk). lia.
Qed.

Lemma s32_small z : - 2 ^ 31 <= z < 2 ^ 31 -> s32 z = z.
Proof. intros Hz. unfold s32. rewrite Z.mod_small by lia. lia. Qed.

Lemma loop_step k p i stackDepth maxStackDepth μ e :
  all !! k = Some p -> w_instr w !! p = Some i -> loop_inv k stackDepth maxStackDepth μ ->
  has_effect import fuel w m p e -> effects !! k = Some e ->
  exists s mx μ', settled w
    (d <- depth_at fuel (Some m) p stackDepth maxStackDepth μ ;;
     let '(stackDepth, maxStackDepth) := d in
     stackImpact <- GetStackImpact import fuel (Some m) stackDepth i ;;
     let stackDepth := u32 (stackDepth + stackImpact) in
     os <- target_offsets fuel p i ;;
     ret (stackDepth, if maxStackDepth <? stackDepth then stackDepth else maxStackDepth, updates stackDepth os μ)) (s, mx, μ') /\
    loop_inv (S k) s mx μ'.
Proof using All.
  intros Hp Hi Hinv [(i' & Hi' & Hkind & Himp) Hbound] He. rewrite Hi in Hi'. injection Hi' as <-.
  assert (p ∈ all) as Hpin by by eapply list_elem_of_lookup_2.
  destruct (depth_at_run k p _ _ _ Hp Hinv) as (s1 & mx1 & Hdep & Hds & Hsr & Hmx & Hdm). destruct Hinv as [_ Hm _ Hc Hμ Hj].
  pose proof (vd_nonneg _ _ _ _ _ Hd k). pose proof (vd_underflow _ _ _ _ _ Hd k) as Huf. unfold after in Huf. rewrite He in Huf.
  pose proof (lookup_lt_Some _ _ _ Hp).
  set (n := match e with Some n => n | None => - s1 end). set (s2 := s1 + n).
  assert (after effects d k <= s2 /\ 0 <= s2 <= Z.of_nat (S k) + 1 /\ u32 (s1 + s32 n) = s2) as (Ha & Hs2 & Hu).
  { unfold after. rewrite He. unfold s2, n. destruct e as [n'|].
    - rewrite s32_small by lia. rewrite u32_small by (unfold is_u32; lia). lia.
    - rewrite s32_small by lia. rewrite u32_small by (unfold is_u32; lia). lia. }
  destruct (Htargets p i Hpin Hi) as [Hlen Htin].
  assert (exists os, Forall2 (fun t o => t ≫= offs = Some o) (refs (m_class i)) os) as [os Hos].
  { clear -Htin Hall. induction Htin as [|t ts (q & -> & Hq) _ [os IH]]; [by exists []|].
    destruct (Hall q Hq) as [o Ho]. exists (o :: os). by constructor. }
  exists s2, (if mx1 <? s2 then s2 else mx1), (updates s2 os μ). split.
  { eapply settled_bind; [exact Hdep|]. cbv beta iota. eapply settled_bind; [apply Himp|]. cbv beta zeta. fold n. rewrite Hu.
    eapply settled_bind; [by apply (settled_target_offsets fuel w offs Hoffs p i os)|]. apply settled_ret. }
  assert (mx1 <= (if mx1 <? s2 then s2 else mx1) /\ s2 <= (if mx1 <? s2 then s2 else mx1)) as [Hm1 Hm2]
    by (destruct (Z.ltb_spec mx1 s2); lia).
  split.
  - lia.
  - lia.
  - intros j [= <-]. lia.
  - intros j Hjk. destruct (decide (j = k)) as [->|]; [lia|]. destruct (Hc j ltac:(lia)). lia.
  - apply updates_bounded; [lia|]. intros o v Hv. apply Hμ in Hv. lia.
  - intros j q i' t Hjk Hq Hi' Hin. destruct (decide (j = k)) as [->|].
    + rewrite Hp in Hq. injection Hq as <-. rewrite Hi in Hi'. injection Hi' as <-.
      apply list_elem_of_lookup_1 in Hin as [x Hx]. destruct (Forall2_lookup_l _ _ _ _ _ Hos Hx) as (o & Ho & Hto).
      destruct (updates_reaches s2 os μ o (list_elem_of_lookup_2 _ _ _ Ho)) as (v & Hv & Hle). exists o, v. cbn in Hto.
      split; [done|]. split; [done|lia].
    + destruct (Hj j q i' t ltac:(lia) Hq Hi' Hin) as (o & v & Ho & Hv & Hle).
      destruct (updates_keeps s2 os μ o v Hv) as (v' & Hv' & Hle'). exists o, v'. split; [done|]. split; [done|lia].
Qed.

Lemma max_stack_loop_run rest : forall done_ n stackDepth maxStackDepth μ a,
  all = done_ ++ rest -> segment (w_instr w) a rest None -> loop_inv (length done_) stackDepth maxStackDepth μ ->
  (length rest <= n)%nat ->
  exists v, settled w (max_stack_loop import fuel n (Some m) (first_or rest None) stackDepth maxStackDepth μ) v /\
    forall j, (j < length all)%nat -> d j <= v /\ after effects d j <= v.
Proof using All.
  induction rest as [|p rest IH]; intros done_ n stackDepth maxStackDepth μ a Hsplit Hseg Hinv Hn; cbn [first_or].
  - rewrite app_nil_r in Hsplit. exists maxStackDepth. split; [destruct n; apply settled_ret|]. intros j Hj. apply (li_covered _ _ _ _ Hinv). by rewrite <- Hsplit.
  - destruct n as [|n]; cbn [length] in Hn; [lia|]. assert (all !! length done_ = Some p) as Hp
      by (rewrite Hsplit; by apply list_lookup_middle).
    destruct (Forall2_lookup_l _ _ _ _ _ Heff Hp) as (e & He & Hpe). pose proof Hpe as [(i & Hi & _) _].
    destruct (loop_step _ p i _ _ _ e Hp Hi Hinv Hpe He) as (s & mx & μ' & Hstep & Hinv').
    destruct Hseg as [Hnode Hseg]. destruct (node_lookup _ _ _ _ _ Hnode Hi) as [_ Hnext].
    destruct (IH (done_ ++ [p]) n s mx μ' (Some p)) as (v & Hv & Hall'); [by rewrite <- app_assoc|done| |lia|].
    { rewrite length_app. cbn [length]. by rewrite Nat.add_1_r. }
    exists v. split; [|done]. cbn [max_stack_loop]. sstep. rewrite Hnext.
    intros w1 H1. destruct (Hstep w1 H1) as (w2 & Hw2 & H2). destruct (Hv w2 H2) as (w3 & Hw3 & H3). exists w3. split; [|done].
    revert Hw2. unfold bind, ret. destruct (depth_at fuel (Some m) p stackDepth maxStackDepth μ w1) as [[[s' mx']| | |] w1']; try done.
    destruct (GetStackImpact import fuel (Some m) s' i w1') as [[n'| | |] w1'']; try done.
    destruct (target_offsets fuel p i w1'') as [[os| | |] w1''']; try done. intros [= <- <- <- <-]. exact Hw3.
Qed.

End Loop.

Lemma offset_in_total m l : forall ss off p, sized m l ss -> p ∈ l -> is_Some (offset_in off l ss p).
Proof.
  induction l as [|q l IH]; intros ss off p Hs Hp; [set_solver|]. destruct (sized_cons _ _ _ _ Hs) as (i & s & ss' & -> & _ & _ & Hs').
  cbn [offset_in]. case_decide; [by eexists|]. apply IH; [done|]. set_solver.
Qed.

Record code_ready (w : World) (g m : ptr) (l : list ptr) (ss : list Z) (cs : list ptr) : Prop := {
  cr_chain : graph_chain w g l;
  cr_method : m_pMethodInfo <$> w_graph w !! g = Some (Some m);
  cr_sized : sized (w_instr w) l ss;
  cr_placed : placed (w_instr w) 0 l ss;
  cr_pos : Forall (fun s => 0 <= s) ss;
  cr_sum : sum_sizes ss < 2 ^ 32;
  cr_section : section_ok w (Some m) cs;
  cr_small : small cs;
  cr_targets : forall p i, p ∈ l -> w_instr w !! p = Some i -> Z.of_nat (length (refs (m_class i))) < 2 ^ 32 /\
    Forall (fun t => exists q, t = Some q /\ q ∈ l) (refs (m_class i));
  cr_count : Z.of_nat (length l) < 2 ^ 30
}.

Lemma CalculateMaxStack_run import fuel w g m l ss cs effects d :
  code_ready w g m l ss cs -> Forall2 (has_effect import fuel w m) l effects ->
  valid_depths w cs l effects d -> (length l <= fuel)%nat ->
  exists v, settled w (CalculateMaxStack import fuel g) v /\
    forall k, (k < length l)%nat -> d k <= v /\ after effects d k <= v.
Proof.
  intros [Hl Hg Hss Hp Hpos Hsum Hsec Hsmall Ht Hn] Heff Hd Hf.
  destruct (gc_graph _ _ _ Hl) as (gr & Hg' & Hfirst). rewrite Hg' in Hg. injection Hg as Hm.
  destruct (max_stack_loop_run import fuel w m l ss cs effects d
    (up_to_date_offsets fuel w g l ss Hl Hss Hp Hf Hpos Hsum)) with (rest := l) (done_ := @nil ptr) (n := fuel)
    (stackDepth := 0) (maxStackDepth := 0) (μ := ∅ : gmap Z Z) (a := @None ptr) as (v & Hv & Hall); try done.
  - intros p Hpl. by apply offset_in_total with (1 := Hss).
  - apply Hl.
  - split; try done; try lia; try (intros; cbn in *; lia).
  - exists v. split; [|done]. intros w1 H1. unfold CalculateMaxStack. pose proof (of_graph _ _ H1 g) as E. rewrite Hg' in E.
    destruct (w_graph w1 !! g) as [gr1|] eqn:Hg1; [|done]. injection E as E.
    assert (m_pFirstInstruction gr1 = m_pFirstInstruction gr /\ m_pMethodInfo gr1 = m_pMethodInfo gr) as [Ef Em]
      by (destruct gr, gr1; injection E; intros; subst; done).
    rewrite (run_bind _ _ _ _ _ (run_load_graph _ _ _ Hg1)), Ef, Em, Hfirst, Hm. by apply Hv.
Qed.


(** The method  [ldc.i4.0; brtrue.s L; nop; L: ret]  of a static method without
    parameters that returns nothing. *)
Definition stack_demo : World := mkWorld
  (list_to_map
    [(1%positive, demo_node Cee_Ldc_I4_0 CNone (Some 1) None (Some 2) None);
     (2, set_offset 1 (demo_node 0x2D (CBranch 4 (Some 4) (Some 4)) (Some 1) (Some 1) (Some 3) None));
     (3, set_offset 3 (demo_node Cee_Nop CNone (Some 1) (Some 2) (Some 4) None));
     (4, set_offset 4 (demo_node Cee_Ret CNone (Some 1) (Some 3) None (Some {[2]})))])%positive
  (w_graph demo) ∅
  {[ 1%positive := mkMethod (Some []) false [] (new_render 7 0x06000001 false) ]} ∅.

Definition void_import : MetaDataImport := mkImport (fun _ => Err E_FAIL) (fun _ => Ok [0; 0; 1]) (fun _ => Err E_FAIL) (fun _ => Err E_FAIL).

Lemma has_effect_compute w p i n :
  w_instr w !! p = Some i -> kind_ok i -> - 2 ^ 30 <= n <= 1 ->
  (forall w1, w_method w1 = w_method w -> forall depth, GetStackImpact void_import 8 (Some 1%positive) depth i w1 = (Ok (s32 n), w1)) ->
  has_effect void_import 8 w 1 p (Some n).
Proof.
  intros Hi Hk Hn H. split; [|done]. exists i. split; [done|]. split; [done|]. intros depth w1 H1. exists w1. split; [|done].
  apply H. apply (of_method _ _ H1).
Qed.

Lemma stack_demo_graph : graph_chain stack_demo 1 [1; 2; 3; 4]%positive.
Proof.
  apply graph_list_chain. split.
  - eexists. split; [vm_compute; reflexivity|]. done.
  - repeat (apply segment_cons; [apply node_check; vm_compute; reflexivity|]). exact I.
  - apply (bool_decide_unpack _). vm_compute. exact I.
  - apply owned_check; vm_compute; reflexivity.
Qed.

Lemma stack_demo_effects :
  Forall2 (has_effect void_import 8 stack_demo 1) [1; 2; 3; 4]%positive [Some 1; Some (-1); Some 0; Some 0].
Proof.
  repeat apply Forall2_cons_2; [..|apply Forall2_nil_2].
  all: eapply has_effect_compute; [vm_compute; reflexivity|eexists; split; [vm_compute; reflexivity|done]|done|].
  all: intros [w_i w_g w_c w_m w_l] Hm depth; cbn in Hm; subst w_m; vm_compute; reflexivity.
Qed.

Lemma stack_demo_ready : code_ready stack_demo 1 1 [1; 2; 3; 4]%positive [1; 2; 1; 1] [].
Proof.
  split.
  - exact stack_demo_graph.
  - vm_compute. reflexivity.
  - repeat apply Forall2_cons_2; [..|apply Forall2_nil_2]; eexists; (split; [vm_compute; reflexivity|vm_compute; reflexivity]).
  - repeat split; vm_compute; reflexivity.
  - repeat constructor; done.
  - reflexivity.
  - eexists. split; [vm_compute; reflexivity|]. split; [reflexivity|]. intros c Hc. by apply not_elem_of_nil in Hc.
  - reflexivity.
  - intros p i Hp Hi. assert (Forall (fun p => from_option (fun i => refs (m_class i)) [] (w_instr stack_demo !! p) ∈ [[]; [Some 4%positive]])
      [1; 2; 3; 4]%positive) as Hr by (apply (bool_decide_unpack _); vm_compute; exact I).
    rewrite Forall_forall in Hr. specialize (Hr p Hp). rewrite Hi in Hr. cbn in Hr.
    apply elem_of_cons in Hr as [E|E%list_elem_of_singleton]; rewrite E; (split; [reflexivity|]); repeat constructor.
    exists 4%positive. split; [reflexivity|set_solver].
  - done.
Qed.

Lemma stack_demo_depths :
  valid_depths stack_demo [] [1; 2; 3; 4]%positive [Some 1; Some (-1); Some 0; Some 0] (fun k => if decide (k = 1%nat) then 1 else 0).
Proof.
  split.
  - intros k. case_decide; lia.
  - intros [|[|[|[|k]]]]; vm_compute; done.
  - intros k p _ [=].
  - intros [|[|k]] p Hk _; [left; vm_compute; done| |left; vm_compute; done]. right. left. exists 0%nat. split; [done|]. vm_compute. done.
Qed.

