(* ===== verification/MethodBody.v ===== *)
(** Method bodies: the part of [CMethodInfo] (and [CModuleInfo::GetMethodIl]) that
    reads the body of a method into a graph and a section of exception clauses, and
    renders the two as the new body. *)
From S2P Require Import Prelude ILOpcodes Instruction CorHeaders Store BranchTargets Clauses Graph Codec Exceptions ILMap CorSig LocalVars MaxStack.

(** ** The original body *)

(** [CModuleInfo::GetMethodIl]: the first body that the profiler API gives for a
    token is kept. *)
Definition GetMethodIl (GetILFunctionBody : Z -> outcome (list Z)) (tkFunction : Z) : M (gmap Z (list Z)) (list Z) :=
  m_methodTokenToCachedILMap <- gets id ;;
  match m_methodTokenToCachedILMap !! tkFunction with
  | None =>
      body <- lift (GetILFunctionBody tkFunction) ;;
      modify (insert tkFunction body) ;;;
      ret body
  | Some body => ret body
  end.

(** ** Members of the method *)

Definition on_header (f : COR_ILMETHOD_FAT -> COR_ILMETHOD_FAT) (r : MethodRender) : MethodRender :=
  let '(mkRender a b c d h e i j k l n o q) := r in mkRender a b c d (f h) e i j k l n o q.
Definition set_header (x : COR_ILMETHOD_FAT) (r : MethodRender) : MethodRender :=
  let '(mkRender a b c d _ _ i j k l n o q) := r in mkRender a b c d x true i j k l n o q.
Definition set_instructionGraph (x : option ptr) (r : MethodRender) : MethodRender :=
  let '(mkRender a b c _ h e i j k l n o q) := r in mkRender a b c x h e i j k l n o q.
Definition set_ILStream (x : list Z) (r : MethodRender) : MethodRender :=
  let '(mkRender a b c d h e _ j k l n o q) := r in mkRender a b c d h e x j k l n o q.
Definition set_intermediate (x : list (option Z)) (r : MethodRender) : MethodRender :=
  let '(mkRender a b c d h e i _ k l n o q) := r in mkRender a b c d h e i x k l n o q.
Definition set_final (x : list (option Z)) (r : MethodRender) : MethodRender :=
  let '(mkRender a b c d h e i j _ l n o q) := r in mkRender a b c d h e i j x l n o q.
Definition set_userBuffer (x : option Z) (r : MethodRender) : MethodRender :=
  let '(mkRender a b c d h e i j k _ n o q) := r in mkRender a b c d h e i j k x n o q.
Definition set_instrumented (x : bool) (r : MethodRender) : MethodRender :=
  let '(mkRender a b c d h e i j k l _ o q) := r in mkRender a b c d h e i j k l x o q.
Definition set_codeGenFlags (x : Z) (r : MethodRender) : MethodRender :=
  let '(mkRender a b c d h e i j k l n o _) := r in mkRender a b c d h e i j k l n o x.

Definition update_render (m : ptr) (f : MethodRender -> MethodRender) : W unit :=
  update_method m (fun mi => set_render (f (m_render mi)) mi).

Definition load_render (m : ptr) : W MethodRender := mi <- load_method m ;; ret (m_render mi).

(** [FAT_HEADER_SIZE] and [sizeof(IMAGE_COR_ILMETHOD_SECT_EH_FAT)], which has room for
    one clause. *)
Definition FAT_HEADER_SIZE : Z := 0xC.
Definition sizeof_SECT_EH_FAT : Z := 4 + sizeof_CLAUSE_FAT.

(** Assignments to members of the header. *)
Definition header_SetMaxStack (v : Z) (h : COR_ILMETHOD_FAT) : COR_ILMETHOD_FAT :=
  let '(mkFat f s _ c t) := h in mkFat f s (u16 v) c t.
Definition header_SetCodeSize (v : Z) (h : COR_ILMETHOD_FAT) : COR_ILMETHOD_FAT :=
  let '(mkFat f s ms _ t) := h in mkFat f s ms (u32 v) t.
Definition header_OrFlags (v : Z) (h : COR_ILMETHOD_FAT) : COR_ILMETHOD_FAT :=
  let '(mkFat f s ms c t) := h in mkFat (Z.lor f v) s ms c t.
Definition header_SetLocalVarSigTok (v : Z) (h : COR_ILMETHOD_FAT) : COR_ILMETHOD_FAT :=
  let '(mkFat f s ms c _) := h in mkFat f s ms c v.

Section MethodBody.

Context (import : MetaDataImport) (fuel : nat).

(** ** Reading *)

(** [CMethodInfo::InitializeHeader] on what [GetMethodIl] returns, which it passes on. *)
Definition InitializeHeader (il : outcome (list Z)) (m : ptr) : W (list Z) :=
  pMethodHeader <- lift il ;;
  r <- load_render m ;;
  if m_bIsHeaderInitialized r then ret pMethodHeader
  else
    b <- lift (read_byte pMethodHeader 0) ;;
    h <- (if Tiny_IsTiny b
          then ret (mkFat (Z.lor CorILMethod_FatFormat CorILMethod_InitLocals) (sizeof_FAT / 4) 8 (Tiny_GetCodeSize b) 0)
          else lift (read_fat_header pMethodHeader 0)) ;;
    update_render m (set_header (header_OrFlags CorILMethod_InitLocals h)) ;;;
    ret pMethodHeader.

(** The position of the code and its size: the fat header is taken to be 12 bytes. *)
Definition code_range (pMethodHeader : list Z) (newCorHeader : COR_ILMETHOD_FAT) : outcome (Z * Z) :=
  b <~ read_byte pMethodHeader 0 ;;
  if Tiny_IsTiny b then Ok (sizeof_TINY, CodeSize newCorHeader)
  else h <~ read_fat_header pMethodHeader 0 ;; Ok (sizeof_FAT, CodeSize h).

(** [CMethodInfo::InitializeInstructionsAndExceptions] *)
Definition InitializeInstructionsAndExceptions (il : outcome (list Z)) (m : ptr) : W unit :=
  r <- load_render m ;;
  match m_pInstructionGraph r with
  | Some _ => ret tt
  | None =>
      g <- alloc_graph (new_graph (Some m)) ;;
      update_render m (set_instructionGraph (Some g)) ;;;
      pMethodHeader <- InitializeHeader il m ;;
      r <- load_render m ;;
      range <- lift (code_range pMethodHeader (m_newCorHeader r)) ;;
      code <- lift (of_option OutOfBoundsRead (read_at pMethodHeader (fst range) (Z.to_nat (snd range)))) ;;
      DecodeInstructions fuel g code ;;;
      update_method m (set_clauses []) ;;;
      Exceptions.Initialize g fuel m pMethodHeader ;;;
      ExpandBranches g fuel
  end.

(** [CMethodInfo::GetInstructions] *)
Definition GetInstructions (il : outcome (list Z)) (m : ptr) : W ptr :=
  r <- load_render m ;;
  (if bool_decide (m_pInstructionGraph r = None) then InitializeInstructionsAndExceptions il m else ret tt) ;;;
  r <- load_render m ;;
  deref (m_pInstructionGraph r).

(** ** Rendering *)

(** A store into the new method. *)
Definition store_rendered (m : ptr) (pos : Z) (bs : list (option Z)) : W unit :=
  r <- load_render m ;;
  buf <- lift (of_option OutOfBoundsWrite (write_at (m_pIntermediateRenderedMethod r) pos bs)) ;;
  update_render m (set_intermediate buf).

(** [DataSize] of the section that [CreateExceptionHeader] made. *)
Definition sect_DataSize (sect : list (option Z)) : outcome Z :=
  match mapM id (take 3 (drop 1 sect)) with
  | Some bs => Ok (le_val bs)
  | None => Undef UninitRead
  end.

(** [CMethodInfo::CreateILFunctionBody].  The fields of the header are set one by one
    in the rendered method. *)
Definition CreateILFunctionBody (m : ptr) : W unit :=
  mi <- load_method m ;;
  let r := m_render mi in
  if_false_ret (bool_decide (m_pIntermediateRenderedMethod r = [])) E_FAIL ;;;
  let il := m_pILStream r in
  let cbNewMethodSize := u32 (Size (m_newCorHeader r) * 4 + u32 (Z.of_nat (length il))) in
  let nNewDelta := Z.land (4 - Z.land cbNewMethodSize 3) 3 in
  deref (m_exceptionClauses mi) ;;;
  pSectEh <- CreateExceptionHeader fuel m ;;
  cbSehExtra <- (match pSectEh with
                 | None => ret sizeof_SECT_EH_FAT
                 | Some sect => d <- lift (sect_DataSize sect) ;; ret (u32 (sizeof_SECT_EH_FAT + d))
                 end) ;;
  let cbNewMethodSizeWithoutHeader := u32 (cbNewMethodSize - FAT_HEADER_SIZE) in
  let cbNewMethodSize := u32 (cbNewMethodSize + nNewDelta + cbSehExtra) in
  update_render m (set_intermediate (replicate (Z.to_nat cbNewMethodSize) (Some 0))) ;;;
  let h := m_newCorHeader r in
  store_rendered m 0 (written (fat_header_bytes h)) ;;;
  g <- deref (m_pInstructionGraph r) ;;
  maxStack <- CalculateMaxStack import fuel g ;;
  let h := header_SetCodeSize cbNewMethodSizeWithoutHeader (header_SetMaxStack maxStack h) in
  let h := match pSectEh with None => h | Some _ => header_OrFlags CorILMethod_MoreSects h end in
  store_rendered m 0 (written (fat_header_bytes h)) ;;;
  (if 0 <? cbNewMethodSizeWithoutHeader then
     src <- lift (of_option OutOfBoundsRead (read_at il 0 (Z.to_nat cbNewMethodSizeWithoutHeader))) ;;
     store_rendered m FAT_HEADER_SIZE (written src)
   else ret tt) ;;;
  match pSectEh with
  | None => ret tt
  | Some sect =>
      if Z.of_nat (length sect) <? cbSehExtra then undefined OutOfBoundsRead
      else store_rendered m (FAT_HEADER_SIZE + cbNewMethodSizeWithoutHeader + nNewDelta) (take (Z.to_nat cbSehExtra) sect)
  end.

End MethodBody.

(** ** The whole step

    The local variables of a method are an object of their own, which reads and sets the
    token in the header of the method; they exist once they were asked for.  The header
    of a method that has a graph was initialised with it. *)

Section Apply.

Context (import : MetaDataImport) (fuel : nat).
Context {Metadata : Type}.
Context (GetSigFromToken : Metadata -> Z -> outcome (list Z)).
Context (GetTokenFromSig : list Z -> Metadata -> outcome Z * Metadata).

Definition State : Type := World * option (CLocalVariableCollection Metadata).

Definition in_world {A} (x : W A) : M State A := fun s =>
  let '(r, w) := x (fst s) in (r, (w, snd s)).

Definition set_token (tk : Z) (c : CLocalVariableCollection Metadata) : CLocalVariableCollection Metadata :=
  let '(mkLocals a b d e f _ md) := c in mkLocals a b d e f tk md.

(** [m_localVariables->CommitSignature()], unless there are no local variables. *)
Definition commit_locals (m : ptr) : M State unit := fun s =>
  match snd s with
  | None => (Ok tt, s)
  | Some c =>
      match load_render m (fst s) with
      | (Ok r, w) =>
          let '(o, c) := CommitSignature GetSigFromToken GetTokenFromSig fuel
            (set_token (LocalVarSigTok (m_newCorHeader r)) c) in
          let f := on_header (header_SetLocalVarSigTok (method_LocalVarSigTok c)) in
          (_ <~ o ;; Ok tt, (snd (update_render m f w), Some c))
      | (Err hr, _) => (Err hr, s)
      | (Undef u, _) => (Undef u, s)
      | (NoFuel, _) => (NoFuel, s)
      end
  end.

(** [CMethodInfo::ApplyIntermediateMethodInstrumentation] *)
Definition ApplyIntermediateMethodInstrumentation (il : outcome (list Z)) (m : ptr) : M State unit :=
  g <- in_world (GetInstructions fuel il m) ;;
  encoded <- in_world (EncodeIL fuel g) ;;
  in_world (update_render m (set_ILStream (fst encoded))) ;;;
  if_false_ret (Z.of_nat (length (snd encoded)) <? 2 ^ 32) E_BOUNDS ;;;
  in_world (MergeILInstrumentedCodeMap m false (snd encoded)) ;;;
  commit_locals m ;;;
  in_world (CreateILFunctionBody import fuel m) ;;;
  in_world (update_render m (set_instrumented true)).

End Apply.
