(* ===== verification/Factory.v ===== *)
(** [CInstructionFactory] ([InstructionFactory.cpp]): the creation of instructions by
    instrumentation methods, and the decoding of a blob of IL into a graph of its own. *)
From S2P Require Import Prelude ILOpcodes Instruction Store Chain BranchTargets Retarget Clauses Offsets Graph GraphSpec BackLinks Codec CodecSpec DecodeSpec LinkSpec RoundTrip EditInvariant.

(** ** Creation *)

Definition CreateInstruction (opcode : Z) : W ptr := alloc (new_instruction opcode true CNone).

(** The instruction with the operand [bs], [cb] bytes. *)
Definition create_operand (opcode cb : Z) (bs : list Z) : W ptr :=
  i <- lift (new_COperandInstruction_bytes opcode true cb bs) ;; alloc i.

Definition CreateByteOperandInstruction (opcode operand : Z) : W ptr :=
  create_operand opcode 1 (le_bytes 1 (u8 operand)).
Definition CreateUShortOperandInstruction (opcode operand : Z) : W ptr :=
  create_operand opcode 2 (le_bytes 2 (u16 operand)).
Definition CreateIntOperandInstruction (opcode operand : Z) : W ptr :=
  create_operand opcode 4 (le_bytes 4 (u32 operand)).
Definition CreateLongOperandInstruction (opcode operand : Z) : W ptr :=
  create_operand opcode 8 (le_bytes 8 (operand mod 2 ^ 64)).

(** A [float] and a [double] are their bits. *)
Definition CreateFloatOperandInstruction (opcode operand : Z) : W ptr :=
  create_operand opcode 4 (le_bytes 4 (u32 operand)).
Definition CreateDoubleOperandInstruction (opcode operand : Z) : W ptr :=
  create_operand opcode 8 (le_bytes 8 (operand mod 2 ^ 64)).
Definition CreateTokenOperandInstruction (opcode operand : Z) : W ptr :=
  create_operand opcode 4 (le_bytes 4 (u32 operand)).

(** The target of a branch may be set later. *)
Definition CreateBranchInstruction (opcode : Z) (pBranchTarget : option ptr) : W ptr :=
  p <- alloc (new_instruction opcode true (CBranch 0 None None)) ;;
  (match pBranchTarget with
   | Some t => Branch_SetBranchTarget p t
   | None => ret tt
   end) ;;;
  ret p.

(** The loop over the targets: a null one is dereferenced. *)
Fixpoint create_cases (p : ptr) (i : nat) (ppBranchTargets : list (option ptr)) : W unit :=
  match ppBranchTargets with
  | [] => ret tt
  | t :: ts =>
      t <- deref t ;;
      Switch_SetBranchTarget p (Z.of_nat i) t ;;;
      create_cases p (S i) ts
  end.

Definition CreateSwitchInstruction (opcode : Z) (ppBranchTargets : list (option ptr)) : W ptr :=
  p <- alloc (new_instruction opcode true (CSwitch [] (replicate (length ppBranchTargets) None))) ;;
  create_cases p 0 ppBranchTargets ;;;
  ret p.

Definition CreateLoadConstInstruction (value : Z) : W ptr := alloc (new_CLoadConstInstruction value).
Definition CreateLoadLocalInstruction (index : Z) : W ptr := alloc (new_CLoadLocalInstruction index).
Definition CreateLoadLocalAddressInstruction (index : Z) : W ptr := alloc (new_CLoadLocalAddrInstruction index).
Definition CreateStoreLocalInstruction (index : Z) : W ptr := alloc (new_CStoreLocalInstruction index).
Definition CreateLoadArgInstruction (index : Z) : W ptr := alloc (new_CLoadArgInstruction index).
Definition CreateLoadArgAddressInstruction (index : Z) : W ptr := alloc (new_CLoadArgAddrInstruction index).

(** The loop of [DecodeInstructionByteStream] that makes the instructions new. *)
Fixpoint mark_new_loop (n : nat) (pCurrInstruction : option ptr) : W unit :=
  match pCurrInstruction with
  | None => ret tt
  | Some p =>
      match n with
      | O => out_of_fuel
      | S n' =>
          SetOriginalOffset p 0 ;;;
          SetInstructionGeneration p Generation_New ;;;
          i <- load p ;;
          mark_new_loop n' (m_pNextInstruction i)
      end
  end.

Definition DecodeInstructionByteStream (fuel : nat) (instructionBytes : option (list Z)) : W ptr :=
  code <- if_null_ret instructionBytes E_POINTER ;;
  g <- alloc_graph (new_graph None) ;;
  DecodeInstructions fuel g code ;;;
  gr <- load_graph g ;;
  mark_new_loop fuel (m_pFirstInstruction gr) ;;;
  ret g.

(** ** What is created may be inserted *)

(** An instruction that may be created: detached, without targets, and complete. *)
Record creatable (i : CInstruction) : Prop := {
  cr_graph : m_pGraph i = None;
  cr_next : m_pNextInstruction i = None;
  cr_prev : m_pPreviousInstruction i = None;
  cr_info : m_branchInfo i = None;
  cr_kind : kind_ok i;
  cr_refs : forall t, Some t ∉ refs (m_class i)
}.

Lemma new_creatable op b c :
  kind_ok (new_instruction op b c) -> (forall t, Some t ∉ refs c) -> creatable (new_instruction op b c).
Proof. by split. Qed.

(** An operand of the size the opcode asks for: the created instruction has it. *)
Lemma create_operand_run op bs r n w :
  opinfo op = Ok r -> operand_type_size (m_type r) = Some n -> length bs = n -> 0 <= op < 0x123 ->
  IsFlagSet (m_flags r) ILOpcodeFlag_Branch = false ->
  let i := new_instruction op true (COperand (value_write bs value_uninit)) in
  create_operand op (Z.of_nat n) bs w = alloc i w /\ creatable i /\ complete i /\ GetOperandValue (Z.of_nat n) i = Ok bs.
Proof.
  intros Hr Hn Hl Hop Hbr i. destruct (row_facts _ _ Hr) as (_ & _ & Hlen & Hty & _).
  assert (op <> Cee_Switch) as Hsw by (intros E; apply Hty in E; by rewrite E in Hn).
  specialize (Hlen Hsw). rewrite Hn in Hlen. cbn in Hlen.
  assert (GetOperandValue (Z.of_nat n) i = Ok bs) as Hv.
  { unfold GetOperandValue, i. cbn. rewrite Hr. cbn. rewrite Hlen, Z.ltb_irrefl, Hn. by apply value_read_write. }
  split_and!; [| | |done].
  - unfold create_operand, new_COperandInstruction_bytes. rewrite Hr. cbn [obind]. rewrite Hlen, Z.eqb_refl. cbn [negb].
    unfold SetOperandValue, new_instruction. cbn [m_class m_opcode]. unfold SetOperandValue_union. rewrite Hr. cbn [obind].
    rewrite Hlen, Z.eqb_refl, Hn. cbn [negb].
    assert (read_at bs 0 n = Some bs) as -> by (rewrite <- Hl, <- (app_nil_r bs) at 1; apply read_at_here).
    reflexivity.
  - apply new_creatable; [|intros t; apply not_elem_of_nil]. by exists r.
  - split; [done|]. exists r. split; [done|]. right. exists bs. rewrite Hlen. by rewrite Hl.
Qed.

Lemma alloc_insertable w l i :
  creatable i -> complete i -> insertable (alloc i w).2 l (fresh (dom (w_instr w))).
Proof. intros [] ?. by apply create_insertable. Qed.

(** ** Creation as steps of a session *)

Lemma create_legal w l i : creatable i -> legal w l (ECreate i).
Proof. by intros []. Qed.

Lemma kept_detached w w' n : kept w w' -> detached w n -> detached w' n.
Proof. intros Hk [H1 H2]. split; [by rewrite (kept_owner _ _ _ Hk)|by eapply kept_node]. Qed.

(** What an instruction is, apart from its links. *)
Definition shape (i : CInstruction) := (m_opcode i, m_class i).
Definition shape_at (w : World) (q : ptr) := shape <$> w_instr w !! q.

Lemma class_of_shape w q op c : shape_at w q = Some (op, c) -> class_of w q = Some c.
Proof. unfold shape_at, class_of. destruct (w_instr w !! q); [|done]. by intros [= _ <-]. Qed.

Lemma kept_shape w w' q : kept w w' -> class_of w' q = class_of w q -> shape_at w' q = shape_at w q.
Proof.
  intros Hk. unfold class_of, shape_at. pose proof (kp_instr _ _ Hk q) as E.
  destruct (w_instr w' !! q), (w_instr w !! q); try done. injection E as (Ho & _)%shell_fields.
  cbn. intros [= Hc]. unfold shape. by rewrite Ho, Hc.
Qed.

Lemma alloc_shape i w q : q <> fresh (dom (w_instr w)) -> shape_at (alloc i w).2 q = shape_at w q.
Proof. intros Hq. unfold shape_at. cbn. by rewrite lookup_insert_ne. Qed.

Lemma alloc_shape_eq i w : shape_at (alloc i w).2 (fresh (dom (w_instr w))) = Some (shape i).
Proof. unfold shape_at. cbn. by rewrite lookup_insert_eq. Qed.

Section Create.
Context (w : World) (g : ptr) (l cs : list ptr).
Hypothesis He : editable w g l cs.

Notation new := (fresh (dom (w_instr w))).

Lemma fresh_notin : new ∉ l.
Proof using He.
  intros H. destruct (graph_list_elem _ _ _ _ (ed_list _ _ _ _ He) H) as (i & Hi & _).
  assert (w_instr w !! new = None) by (apply not_elem_of_dom, is_fresh). congruence.
Qed.

(** Creating an instruction that is complete. *)
Lemma create_session i :
  creatable i -> editable (alloc i w).2 g l cs /\ edit_step g (w, l) ((alloc i w).2, l).
Proof using He.
  intros Hc. pose proof (create_legal w l i Hc) as Hl. split.
  - destruct (edit_run _ _ _ _ He _ Hl) as (w' & Hw' & He'). cbn in Hw'. by injection Hw' as <-.
  - exact (step g (ECreate i) w l _ Hl eq_refl).
Qed.

Lemma CreateInstruction_session op r :
  opinfo op = Ok r -> m_operandLength r = 0 -> IsFlagSet (m_flags r) ILOpcodeFlag_Branch = false ->
  op <> Cee_Switch -> 0 <= op < 0x123 ->
  exists w', CreateInstruction op w = (Ok new, w') /\ editable w' g l cs /\ insertable w' l new /\
    shape_at w' new = Some (op, CNone) /\ (forall q, q <> new -> shape_at w' q = shape_at w q) /\
    edit_step g (w, l) (w', l).
Proof using He.
  intros Hr Hlen Hbr Hsw Hop. set (i := new_instruction op true CNone).
  assert (creatable i) as Hc by (apply new_creatable; [by exists r|intros t; apply not_elem_of_nil]).
  destruct (create_session i Hc) as [He' Hst]. exists (alloc i w).2. split_and!; try done.
  - apply alloc_insertable; [done|]. split; [done|]. by exists r.
  - apply alloc_shape_eq.
  - intros q. apply alloc_shape.
Qed.

Lemma create_operand_session op bs r n :
  opinfo op = Ok r -> operand_type_size (m_type r) = Some n -> length bs = n -> 0 <= op < 0x123 ->
  IsFlagSet (m_flags r) ILOpcodeFlag_Branch = false ->
  exists w', create_operand op (Z.of_nat n) bs w = (Ok new, w') /\ editable w' g l cs /\ insertable w' l new /\
    shape_at w' new = Some (op, COperand (value_write bs value_uninit)) /\
    (forall q, q <> new -> shape_at w' q = shape_at w q) /\ edit_step g (w, l) (w', l).
Proof using He.
  intros Hr Hn Hl Hop Hbr. destruct (create_operand_run op bs r n w) as (E & Hc & Hcp & _); [done..|].
  set (i := new_instruction op true _) in *. destruct (create_session i Hc) as [He' Hst].
  exists (alloc i w).2. split_and!; try done.
  - by apply alloc_insertable.
  - apply alloc_shape_eq.
  - intros q. apply alloc_shape.
Qed.

(** Creating a branch to an instruction of the graph. *)
Lemma CreateBranchInstruction_session op r t :
  opinfo op = Ok r -> IsFlagSet (m_flags r) ILOpcodeFlag_Branch = true -> 0 <= op < 0x123 -> t ∈ l ->
  exists w' o, CreateBranchInstruction op (Some t) w = (Ok new, w') /\ editable w' g l cs /\ insertable w' l new /\
    shape_at w' new = Some (op, CBranch 0 (Some t) o) /\ (forall q, q <> new -> shape_at w' q = shape_at w q) /\
    rtc (edit_step g) (w, l) (w', l).
Proof using He.
  intros Hr Hbr Hop Ht. set (i := new_instruction op true (CBranch 0 None None)).
  assert (creatable i) as Hc by (apply new_creatable; [by exists r|intros t' [=]%list_elem_of_singleton]).
  destruct (create_session i Hc) as [He1 Hst1]. set (w1 := (alloc i w).2) in *.
  assert (class_of w1 new = Some (CBranch 0 None None)) as Hcl by (apply (class_of_shape _ _ op), alloc_shape_eq).
  destruct (graph_list_elem _ _ _ _ (ed_list _ _ _ _ He1) Ht) as (it & Hit & _).
  assert (legal w1 l (ESetBranchTarget new t)) as Hleg by (split_and!; [by eexists _, _, _|by eexists|done]).
  destruct (edit_run _ _ _ _ He1 _ Hleg) as (w2 & Hw2 & He2).
  destruct (Branch_SetBranchTarget_code_ok w1 new 0 None None t (ed_code _ _ _ _ He1) Hcl (mk_is_Some _ _ Hit))
    as (w2' & o & Hw2' & Hk & Hcn & Hq & Hc2).
  change (Branch_SetBranchTarget new t w1 = (Ok tt, w2)) in Hw2. assert (w2' = w2) as -> by congruence.
  assert (shape_at w2 new = Some (op, CBranch 0 (Some t) o)) as Hsn.
  { pose proof (kp_instr _ _ Hk new) as E. unfold class_of, shape_at in *.
    destruct (w_instr w2 !! new) as [j|]; [|done]. injection Hcn as Hcn. cbn in E |- *.
    unfold w1 in E. cbn in E. rewrite lookup_insert_eq in E. injection E as (Ho & _)%shell_fields.
    unfold shape. by rewrite Hcn, Ho. }
  exists w2, o. split_and!; [|done| |done| |].
  - unfold CreateBranchInstruction. rewrite (run_bind _ _ _ _ _ (eq_refl : alloc i w = (Ok new, w1))).
    by rewrite (run_bind _ _ _ _ _ Hw2).
  - split.
    + eapply kept_detached; [exact Hk|]. split.
      * unfold owner, w1. cbn. by rewrite lookup_insert_eq.
      * exists i. unfold w1. cbn. by rewrite lookup_insert_eq.
    + intros j Hj. unfold shape_at in Hsn. rewrite Hj in Hsn. injection Hsn as Ho Hcj. split; [lia|].
      exists r. rewrite Ho, Hcj. split; [done|by eexists].
    + intros t' (c & Hc' & Hin). rewrite Hcn in Hc'. injection Hc' as <-.
      apply list_elem_of_singleton in Hin as [= ->]. by right.
  - intros q Hqn. transitivity (shape_at w1 q); [|by apply alloc_shape]. apply kept_shape; [done|by apply Hq].
  - eapply rtc_l; [exact Hst1|]. apply rtc_once. exact (step g (ESetBranchTarget new t) _ l _ Hleg Hw2).
Qed.

(** The cases of a switch are set one after the other. *)
Lemma create_cases_session p op : p ∉ l -> forall todo done_ts w1,
  editable w1 g l cs -> Forall (fun t => t ∈ l) todo ->
  shape_at w1 p = Some (op, CSwitch [] (map Some done_ts ++ replicate (length todo) None)) ->
  exists w2, create_cases p (length done_ts) (map Some todo) w1 = (Ok tt, w2) /\ editable w2 g l cs /\ kept w1 w2 /\
    shape_at w2 p = Some (op, CSwitch [] (map Some (done_ts ++ todo))) /\
    (forall q, q <> p -> shape_at w2 q = shape_at w1 q) /\ rtc (edit_step g) (w1, l) (w2, l).
Proof using Type.
  intros Hp. induction todo as [|t todo IH]; intros done_ts w1 He1 Hin Hs.
  { exists w1. rewrite app_nil_r in *. by split_and!. }
  inversion Hin as [|?? Ht Hin']; subst. pose proof (class_of_shape _ _ _ _ Hs) as Hc.
  destruct (fill_case done_ts (length todo) t) as [Hx Hins].
  destruct (graph_list_elem _ _ _ _ (ed_list _ _ _ _ He1) Ht) as (it & Hit & _).
  assert (legal w1 l (ESetCase p (length done_ts) t)) as Hleg
    by (split_and!; [by eexists _, _|by eexists|done]).
  destruct (edit_run _ _ _ _ He1 _ Hleg) as (w2 & Hw2 & He2).
  change (Switch_SetBranchTarget p (Z.of_nat (length done_ts)) t w1 = (Ok tt, w2)) in Hw2.
  destruct (Switch_SetBranchTarget_code_ok _ _ _ _ _ t (ed_code _ _ _ _ He1) Hc Hx (mk_is_Some _ _ Hit))
    as (w2' & Hw2' & Hk & Hcn & Hq & _). assert (w2' = w2) as -> by congruence.
  cbn [length] in Hcn. rewrite Hins in Hcn.
  assert (shape_at w2 p = Some (op, CSwitch [] (map Some (done_ts ++ [t]) ++ replicate (length todo) None))) as Hs2.
  { pose proof (kp_instr _ _ Hk p) as E. unfold class_of, shape_at in *.
    destruct (w_instr w2 !! p) as [j|], (w_instr w1 !! p) as [j1|]; try done. injection Hcn as Hcn.
    injection E as (Ho & _)%shell_fields. cbn in *. unfold shape in *. congruence. }
  destruct (IH (done_ts ++ [t]) w2 He2 Hin' Hs2) as (w3 & Hw3 & He3 & Hk3 & Hs3 & Hq3 & Hst).
  exists w3. rewrite <- app_assoc in Hs3. split_and!; [|done|by transitivity w2|done| |].
  - cbn [map create_cases deref]. rewrite (run_bind _ _ _ _ _ (eq_refl : ret t w1 = _)), (run_bind _ _ _ _ _ Hw2).
    by rewrite length_app, Nat.add_1_r in Hw3.
  - intros q Hqp. rewrite Hq3 by done. apply kept_shape; [done|by apply Hq].
  - eapply rtc_l; [|exact Hst]. exact (step g (ESetCase p (length done_ts) t) _ l _ Hleg Hw2).
Qed.

Lemma CreateSwitchInstruction_session ts :
  Forall (fun t => t ∈ l) ts ->
  exists w', CreateSwitchInstruction Cee_Switch (map Some ts) w = (Ok new, w') /\ editable w' g l cs /\
    insertable w' l new /\ shape_at w' new = Some (Cee_Switch, CSwitch [] (map Some ts)) /\
    (forall q, q <> new -> shape_at w' q = shape_at w q) /\ rtc (edit_step g) (w, l) (w', l).
Proof using He.
  intros Hts. set (i := new_instruction Cee_Switch true (CSwitch [] (replicate (length (map Some ts)) None))).
  assert (creatable i) as Hc.
  { apply new_creatable; [|by intros t' ?%elem_of_replicate_inv]. eexists. split; [vm_compute; reflexivity|done]. }
  destruct (create_session i Hc) as [He1 Hst1]. set (w1 := (alloc i w).2) in *.
  destruct (create_cases_session new Cee_Switch fresh_notin ts [] w1 He1 Hts) as (w2 & Hw2 & He2 & Hk & Hs2 & Hq & Hst).
  { unfold w1. rewrite alloc_shape_eq. unfold i, shape. cbn. by rewrite length_map. }
  exists w2. split_and!; [|done| |done| |].
  - unfold CreateSwitchInstruction. rewrite (run_bind _ _ _ _ _ (eq_refl : alloc i w = (Ok new, w1))).
    by rewrite (run_bind _ _ _ _ _ Hw2).
  - split.
    + eapply kept_detached; [exact Hk|]. split.
      * unfold owner, w1. cbn. by rewrite lookup_insert_eq.
      * exists i. unfold w1. cbn. by rewrite lookup_insert_eq.
    + intros j Hj. unfold shape_at in Hs2. rewrite Hj in Hs2. injection Hs2 as Ho Hcj. split; [rewrite Ho; unfold Cee_Switch; lia|].
      rewrite Ho, Hcj. eexists. split; [vm_compute; reflexivity|]. apply Forall_forall. intros x (y & -> & _)%list_elem_of_fmap. done.
    + intros t' (c & Hc' & Hin). rewrite (class_of_shape _ _ _ _ Hs2) in Hc'. injection Hc' as <-.
      apply list_elem_of_fmap in Hin as (y & [= ->] & Hy). right. rewrite Forall_forall in Hts. by apply Hts.
  - intros q Hqn. rewrite Hq by done. by apply alloc_shape.
  - eapply rtc_l; [exact Hst1|done].
Qed.

End Create.

(** ** Decoding a blob *)

(** What the loop of [DecodeInstructionByteStream] does to an instruction. *)
Definition mark_new (i : CInstruction) : CInstruction := set_generation Generation_New (set_origOffset 0 i).

Lemma mark_new_idemp i : mark_new (mark_new i) = mark_new i.
Proof. by destruct i. Qed.

Lemma node_mark m p q a b : node m p a b -> node (alter mark_new q m) p a b.
Proof. apply node_keep. by intros []. Qed.

Lemma mark_new_loop_run : forall l n w a,
  segment (w_instr w) a l None -> (length l <= n)%nat ->
  exists w', mark_new_loop n (first_or l None) w = (Ok tt, w') /\
    (forall q, w_instr w' !! q = if decide (q ∈ l) then mark_new <$> w_instr w !! q else w_instr w !! q) /\
    w_graph w' = w_graph w.
Proof.
  induction l as [|p l IH]; intros n w a Hs Hn.
  { exists w. split; [by destruct n|]. split; [|done]. intros q. by rewrite decide_False by apply not_elem_of_nil. }
  destruct n as [|n]; [cbn in Hn; lia|]. cbn [first_or mark_new_loop]. destruct Hs as [Hnode Hs].
  pose proof Hnode as (i & Hi & _ & Hnx).
  unfold SetOriginalOffset, SetInstructionGeneration. erewrite run_bind by apply run_update. erewrite run_bind by apply run_update.
  set (w1 := on_instr (alter (set_generation Generation_New) p) (on_instr (alter (set_origOffset 0) p) w)).
  assert (w_instr w1 = alter mark_new p (w_instr w)) as E.
  { apply map_eq. intros q. cbn. rewrite !lookup_alter. repeat case_decide; try done. by destruct (w_instr w !! p) as [[]|]. }
  assert (w_instr w1 !! p = Some (mark_new i)) as Hi1 by (by rewrite E, lookup_alter_eq, Hi).
  rewrite (run_bind _ _ _ _ _ (run_load _ _ _ Hi1)).
  assert (m_pNextInstruction (mark_new i) = first_or l None) as -> by (by destruct i).
  destruct (IH n w1 (Some p)) as (w' & Hw' & Hq & Hg); [|cbn in Hn; lia|].
  { rewrite E. eapply segment_mono; [|exact Hs]. intros q x y _. apply node_mark. }
  exists w'. split; [done|]. split; [|by rewrite Hg]. intros q. rewrite Hq, E, lookup_alter.
  destruct (decide (q ∈ p :: l)) as [Hin|Hin]; [|apply not_elem_of_cons in Hin as [??]; by rewrite !decide_False by (done || congruence)].
  case_decide as H1; case_decide as H2; try done.
  - subst. destruct (w_instr w !! q); cbn; [by rewrite mark_new_idemp|done].
  - by subst.
  - set_solver.
Qed.

Lemma encode_marked offs o i : encode_instr offs (set_offset o (mark_new i)) = encode_instr offs (set_offset o i).
Proof. by destruct i. Qed.

Lemma il_map_all_new offs w : forall l pending,
  Forall (fun p => GetIsNew <$> w_instr w !! p = Some true) l -> il_map offs w pending l = [].
Proof.
  induction l as [|p l IH]; intros pending H; [done|]. inversion H as [|?? Hp Hl]; subst. cbn [il_map].
  destruct (w_instr w !! p) as [i|]; [|done]. cbn in Hp. injection Hp as ->. by apply IH.
Qed.

Lemma decoded_blob_run code items fuel w :
  Forall is_byte code -> Z.of_nat (length code) < 2 ^ 31 -> (length code < fuel)%nat ->
  il_items code = Some items -> il_ok code = true -> closed w ->
  (forall q h, owner (w_instr w) q = Some (Some h) -> is_Some (w_graph w !! h)) ->
  exists g w1 l, DecodeInstructionByteStream fuel (Some code) w = (Ok g, w1) /\ w_graph w !! g = None /\
    graph_list w1 g l /\ length l = length items /\
    Forall (fun p => exists i, w_instr w1 !! p = Some i /\ GetIsNew i = true /\ m_origOffset i = 0) l /\
    encodes w1 l (map (item_bytes code) items) /\ switch_not_last w1 l.
Proof.
  intros Hbytes Hlen Hfuel Hit Hok Hcl Hown. unfold DecodeInstructionByteStream. cbn [if_null_ret].
  rewrite (run_bind _ _ _ _ _ (eq_refl : ret code w = _)).
  set (g := fresh (dom (w_graph w))).
  assert (w_graph w !! g = None) as Hg by apply not_elem_of_dom, is_fresh.
  set (w0 := on_graph (insert g (new_graph None)) w).
  rewrite (run_bind _ _ _ _ _ (eq_refl : alloc_graph (new_graph None) w = (Ok g, w0))).
  destruct (DecodeInstructions_run g code items fuel w0 (new_graph None)) as (w1 & l & gr & Hw1 & Hl & Hrep & _); try done.
  { cbn. by rewrite lookup_insert_eq. }
  { intros q Hq. destruct (Hown q g Hq) as [x Hx]. congruence. }
  rewrite (run_bind _ _ _ _ _ Hw1).
  destruct (gl_graph _ _ _ Hl) as (gr1 & Hgr1 & Hfirst & Hlast).
  rewrite (run_bind _ _ _ _ _ (run_load_graph _ _ _ Hgr1)), Hfirst.
  pose proof (disassemble_contiguous _ Hbytes Hlen _ _ _ Hit) as Hcont.
  pose proof (contiguous_length _ _ _ Hcont) as Hil.
  destruct (mark_new_loop_run l fuel w1 None (gl_segment _ _ _ Hl)) as (w2 & Hw2 & Hq & Hg2).
  { rewrite (proj1 Hrep). lia. }
  erewrite run_bind by exact Hw2. exists g, w2, l.
  assert (forall p, p ∈ l -> exists i, w_instr w1 !! p = Some i /\ w_instr w2 !! p = Some (mark_new i)) as Hin.
  { intros p Hp. destruct (graph_list_elem _ _ _ _ Hl Hp) as (i & Hi & _). exists i. rewrite Hq, decide_True, Hi by done. done. }
  pose proof (represents_encodes code items w1 l Hlen Hcont Hrep (gl_nodup _ _ _ Hl)) as Henc.
  split_and!; [done..| | | | |].
  - split; [by exists gr1; rewrite Hg2| |by apply Hl|].
    + eapply segment_mono; [|apply Hl]. intros p a b Hp (i & Hi & Ha & Hb).
      exists (mark_new i). rewrite Hq, decide_True, Hi by done. by destruct i.
    + intros p. rewrite (gl_owned _ _ _ Hl p). unfold owner. rewrite Hq. case_decide; [|done].
      by destruct (w_instr w1 !! p) as [[]|].
  - apply Hrep.
  - apply Forall_forall. intros p Hp. destruct (Hin p Hp) as (i & _ & Hi). exists (mark_new i). by destruct i.
  - unfold encodes in *. cbv zeta in *.
    apply Forall2_from_lookup; [by eapply Forall2_length|]. intros k p bs Hp Hb.
    destruct (Forall2_lookup_lr _ _ _ _ _ _ Henc Hp Hb) as (i & o & Hi & Ho & He).
    destruct (Hin p) as (i' & Hi' & Hi2); [by eapply list_elem_of_lookup_2|].
    assert (i' = i) as -> by congruence. exists (mark_new i), o. by rewrite encode_marked.
  - intros p j Hp Hj. destruct (Hin p) as (i & Hi & Hi2); [rewrite last_lookup in Hp; by eapply list_elem_of_lookup_2|].
    rewrite Hi2 in Hj. injection Hj as <-.
    replace (m_opcode (mark_new i)) with (m_opcode i) by by destruct i.
    by eapply (represents_switch_not_last code items w1 l Hlen Hcont Hrep (gl_nodup _ _ _ Hl)).
Qed.

(** C16: [DecodeInstructionByteStream] decodes a blob of well-formed IL into a graph of its
    own: every instruction of it is new and has the original offset 0, and [EncodeIL] gives
    the bytes of the blob back, with no entry in the IL map.  Without bytes it fails. *)
Theorem DecodeInstructionByteStream_roundtrip code items fuel w :
  Forall is_byte code -> Z.of_nat (length code) < 2 ^ 31 -> (length code < fuel)%nat ->
  il_items code = Some items -> il_ok code = true -> closed w ->
  (forall q h, owner (w_instr w) q = Some (Some h) -> is_Some (w_graph w !! h)) ->
  fst (DecodeInstructionByteStream fuel None w) = Err E_POINTER /\
  exists g w1 l, DecodeInstructionByteStream fuel (Some code) w = (Ok g, w1) /\ w_graph w !! g = None /\
    graph_list w1 g l /\ length l = length items /\
    Forall (fun p => exists i, w_instr w1 !! p = Some i /\ GetIsNew i = true /\ m_origOffset i = 0) l /\
    exists w2, EncodeIL fuel g w1 = (Ok (code, []), w2).
Proof.
  intros Hbytes Hlen Hfuel Hit Hok Hcl Hown. split; [done|].
  destruct (decoded_blob_run code items fuel w) as (g & w1 & l & Hw1 & Hg & Hl & Hll & Hnew & Henc & Hsw); try done.
  exists g, w1, l. split_and!; [done..|].
  pose proof (disassemble_contiguous _ Hbytes Hlen _ _ _ Hit) as Hcont.
  pose proof (contiguous_concat _ _ _ Hcont) as Hcat. rewrite drop_0 in Hcat.
  pose proof (contiguous_length _ _ _ Hcont).
  destruct (EncodeIL_run w1 g l _ fuel Hl Henc Hsw) as (w2 & Hw2 & _); [by rewrite Hcat|lia|lia|].
  exists w2. rewrite Hw2, Hcat, il_map_all_new; [done|]. eapply Forall_impl; [exact Hnew|].
  intros p (i & -> & Hi & _). cbn. by rewrite Hi.
Qed.

Lemma DecodeInstructionByteStream_roundtrip_witness : exists g w1 w2,
  DecodeInstructionByteStream 14 (Some switch_code) empty_world = (Ok g, w1) /\
  EncodeIL 14 g w1 = (Ok (switch_code, []), w2).
Proof.
  destruct (il_items switch_code) as [items|] eqn:Hit; [|exfalso; vm_compute in Hit; discriminate Hit].
  destruct (DecodeInstructionByteStream_roundtrip switch_code items 14 empty_world)
    as (_ & g & w1 & l & H & _ & _ & _ & _ & w2 & H2).
  - exact switch_code_bytes.
  - reflexivity.
  - cbn. lia.
  - exact Hit.
  - vm_compute. reflexivity.
  - apply empty_world_ok.
  - intros q h. unfold owner. cbn. rewrite lookup_empty. discriminate.
  - exists g, w1, w2. split; [exact H|exact H2].
Defined.
