(* ===== verification/SingleRet.v ===== *)
(** [CSingleRetDefaultInstrumentation] ([SingleRetDefaultInstrumentation.cpp]): every [ret]
    of a method but those behind a tail call becomes a branch to one new [ret] at the end. *)
From stdpp Require Import functions.
From S2P Require Import Prelude ILOpcodes Instruction CorHeaders Store Chain BranchTargets Retarget Clauses Demo Graph GraphSpec BackLinks Codec CodecSpec DecodeSpec LinkSpec CorSig SignatureBuilder Types TypeCreator LocalVars MaxStack MethodBody EditInvariant Lifecycle Factory.

(** ** The definitions *)

(** The first loop of [GetReplaceableRets]: all [ret]s. *)
Fixpoint rets_loop (n : nat) (pInstruction : option ptr) (retInstructions : list ptr) : W (list ptr) :=
  match pInstruction with
  | None => ret retInstructions
  | Some p =>
      match n with
      | O => out_of_fuel
      | S n' =>
          i <- load p ;;
          let retInstructions := if m_opcode i =? Cee_Ret then retInstructions ++ [p] else retInstructions in
          next <- attempt (GetNextInstruction p) ;;
          rets_loop n' next retInstructions
      end
  end.

(** The test of the second loop: [tail.] and a call, and perhaps [pop], precede. *)
Definition behind_tail_call (pCurrRet : ptr) : W bool :=
  pPrevInstruction <- attempt (GetPreviousInstruction pCurrRet) ;;
  match pPrevInstruction with
  | None => ret false
  | Some q =>
      i <- load q ;;
      pPrevInstruction <- (if m_opcode i =? Cee_Pop then attempt (GetPreviousInstruction q) else ret (Some q)) ;;
      match pPrevInstruction with
      | None => ret false
      | Some c =>
          i <- load c ;;
          if GetIsCallInstruction i then
            pPreviousPreviousInstruction <- attempt (GetPreviousInstruction c) ;;
            match pPreviousPreviousInstruction with
            | None => ret false
            | Some t => i <- load t ;; ret (m_opcode i =? Cee_Tailcall)
            end
          else ret false
      end
  end.

(** The second loop: the iterator is the index [iter]; [erased - 1] does not exist when the
    first element was erased. *)
Fixpoint erase_loop (n : nat) (retInstructions : list ptr) (iter : nat) : W (list ptr) :=
  match retInstructions !! iter with
  | None => ret retInstructions
  | Some p =>
      match n with
      | O => out_of_fuel
      | S n' =>
          b <- behind_tail_call p ;;
          if (b : bool) then
            match iter with
            | O => undefined BadIterator
            | S _ => erase_loop n' (delete iter retInstructions) iter
            end
          else erase_loop n' retInstructions (S iter)
      end
  end.

Definition GetReplaceableRets (fuel : nat) (g : ptr) : W (list ptr) :=
  gr <- load_graph g ;;
  retInstructions <- rets_loop fuel (m_pFirstInstruction gr) [] ;;
  erase_loop fuel retInstructions 0.

(** One round of the last loop: the branch, then the store before it. *)
Definition replace_ret (g : ptr) (bStoreRetVal : bool) (slot : Z) (pBranchTarget pCurrRet : ptr) : W unit :=
  pNewBranch <- CreateBranchInstruction Cee_Br (Some pBranchTarget) ;;
  Replace g (Some pCurrRet) (Some pNewBranch) ;;;
  if bStoreRetVal then
    pStoreLocal <- CreateUShortOperandInstruction Cee_Stloc slot ;;
    InsertBeforeAndRetargetOffsets g (Some pNewBranch) (Some pStoreLocal)
  else ret tt.

Section Apply.

Context (import : MetaDataImport) (fuel : nat).
Context {Metadata : Type}.
Context (GetSig : Metadata -> Z -> outcome (list Z)).
Context (module_md : Metadata).

Notation St := (State (Metadata := Metadata)).

(** [CMethodInfo::GetLocalVariables], which creates the collection, and a call on it. *)
Definition with_locals {A} (m : ptr) (x : M (CLocalVariableCollection Metadata) A) : M St A := fun s =>
  match load_render m (fst s) with
  | (Ok r, w) =>
      let tk := LocalVarSigTok (m_newCorHeader r) in
      let c := match snd s with Some c => set_token tk c | None => new_collection false tk module_md end in
      let '(o, c') := x c in (o, (w, Some c'))
  | (Err hr, _) => (Err hr, s)
  | (Undef u, _) => (Undef u, s)
  | (NoFuel, _) => (NoFuel, s)
  end.

(** [ApplySingleRetDefaultInstrumentation]: the member [m_pJumpTarget]. *)
Definition ApplySingleRetDefaultInstrumentation (g : ptr) : M St (option ptr) :=
  gr <- in_world (load_graph g) ;;
  m <- if_null_ret (m_pMethodInfo gr) E_FAIL ;;
  retInstructions <- in_world (GetReplaceableRets fuel g) ;;
  if (length retInstructions <=? 1)%nat then ret None
  else
    pNewRet <- in_world (CreateInstruction Cee_Ret) ;;
    gr <- in_world (load_graph g) ;;
    in_world (InsertAfter g (m_pLastInstruction gr) (Some pNewRet)) ;;;
    pRetType <- in_world (GetReturnType import fuel m) ;;
    let elementType := m_type (base pRetType) in
    let bStoreRetVal := negb (elementType =? ELEMENT_TYPE_VOID) && negb (elementType =? ELEMENT_TYPE_BYREF) in
    target <- (if bStoreRetVal then
                 slot <- with_locals m (AddLocal GetSig fuel pRetType) ;;
                 pNewLoad <- in_world (CreateUShortOperandInstruction Cee_Ldloc slot) ;;
                 in_world (InsertBeforeAndRetargetOffsets g (Some pNewRet) (Some pNewLoad)) ;;;
                 ret (pNewLoad, slot)
               else ret (pNewRet, 0)) ;;
    in_world (for_each (replace_ret g bStoreRetVal (snd target) (fst target)) retInstructions) ;;;
    ret (Some (fst target)).

End Apply.

(** ** Which rets *)

Definition opcode_at (w : World) (p : ptr) : Z := default 0 (m_opcode <$> w_instr w !! p).

(** The opcodes before a [ret], from the last one on, of a tail call. *)
Definition tail_call (ops : list Z) : bool :=
  match (match ops with o :: rest => if o =? Cee_Pop then rest else ops | [] => [] end) with
  | c :: t :: _ => ((c =? Cee_Call) || (c =? Cee_Calli) || (c =? Cee_Callvirt)) && (t =? Cee_Tailcall)
  | _ => false
  end.

(** The elements before [p]. *)
Fixpoint before (p : ptr) (l : list ptr) : list ptr :=
  match l with
  | [] => []
  | x :: l' => if decide (x = p) then [] else x :: before p l'
  end.

Definition is_tail (w : World) (l : list ptr) (p : ptr) : bool :=
  tail_call (map (opcode_at w) (rev (before p l))).

Definition rets (w : World) (l : list ptr) : list ptr := filter (fun p => opcode_at w p = Cee_Ret) l.

(** The specification of [GetReplaceableRets]. *)
Definition replaceable (w : World) (l : list ptr) : list ptr :=
  filter (fun p => is_tail w l p = false) (rets w l).

Lemma before_split p l1 l2 : p ∉ l1 -> before p (l1 ++ p :: l2) = l1.
Proof.
  induction l1 as [|x l1 IH]; intros Hp; cbn; [by rewrite decide_True|].
  apply not_elem_of_cons in Hp as [? ?]. rewrite decide_False by done. by rewrite IH.
Qed.

Lemma opcode_at_lookup w p i : w_instr w !! p = Some i -> opcode_at w p = m_opcode i.
Proof. unfold opcode_at. by intros ->. Qed.

Section Scan.
Context (w : World) (l : list ptr).
Hypothesis Hs : segment (w_instr w) None l None.

(** The previous instruction, on the reversed prefix. *)
Lemma run_prev pre p post :
  l = rev pre ++ p :: post ->
  attempt (GetPreviousInstruction p) w = (Ok (head pre), w) /\ exists i, w_instr w !! p = Some i /\ opcode_at w p = m_opcode i.
Proof using Hs.
  intros El. pose proof Hs as Hs'. rewrite El in Hs'.
  destruct (segment_mid _ _ _ _ _ _ Hs') as (i & Hi & Hp & _). split; [|exists i; split; [done|by apply opcode_at_lookup]].
  unfold attempt, GetPreviousInstruction. rewrite (run_bind _ _ _ _ _ (run_load _ _ _ Hi)), Hp.
  destruct pre as [|q pre]; [done|]. cbn [rev]. by rewrite last_or_rcons.
Qed.

Lemma behind_tail_call_run pre p post :
  l = rev pre ++ p :: post -> behind_tail_call p w = (Ok (tail_call (map (opcode_at w) pre)), w).
Proof using Hs.
  intros El. destruct (run_prev pre p post El) as [E _]. unfold behind_tail_call. rewrite (run_bind _ _ _ _ _ E).
  destruct pre as [|q pre]; [done|]. cbn [head].
  assert (l = rev pre ++ q :: p :: post) as El2 by (rewrite El; cbn [rev]; by rewrite <- app_assoc).
  destruct (run_prev pre q _ El2) as (Eq & iq & Hiq & Hoq). rewrite (run_bind _ _ _ _ _ (run_load _ _ _ Hiq)), <- Hoq.
  assert (forall c cs post', l = rev cs ++ c :: post' ->
    (i <- load c ;; if GetIsCallInstruction i then
       o <- attempt (GetPreviousInstruction c) ;;
       match o with None => ret false | Some t => i <- load t ;; ret (m_opcode i =? Cee_Tailcall) end
     else ret false) w = (Ok (match map (opcode_at w) (c :: cs) with
       | c :: t :: _ => ((c =? Cee_Call) || (c =? Cee_Calli) || (c =? Cee_Callvirt)) && (t =? Cee_Tailcall)
       | _ => false end), w)) as Hcall.
  { intros c cs post' Ec. destruct (run_prev cs c _ Ec) as (Epc & ic & Hic & Hoc).
    rewrite (run_bind _ _ _ _ _ (run_load _ _ _ Hic)). unfold GetIsCallInstruction. rewrite <- Hoc.
    destruct ((_ =? Cee_Call) || _ || _) eqn:Ecall; cbn [map]; rewrite ?Ecall; [|by destruct cs].
    rewrite (run_bind _ _ _ _ _ Epc). destruct cs as [|t cs]; [done|]. cbn [head map].
    assert (l = rev cs ++ t :: c :: post') as Et by (rewrite Ec; cbn [rev]; by rewrite <- app_assoc).
    destruct (run_prev cs t _ Et) as (_ & it & Hit & Hot). by rewrite (run_bind _ _ _ _ _ (run_load _ _ _ Hit)), Hot. }
  unfold tail_call. cbn [map]. destruct (opcode_at w q =? Cee_Pop).
  - rewrite (run_bind _ _ _ _ _ Eq). destruct pre as [|c pre]; [done|]. cbn [head].
    apply (Hcall c pre (q :: p :: post)). rewrite El2. cbn [rev]. by rewrite <- app_assoc.
  - rewrite (run_bind _ _ _ _ _ (eq_refl : ret (Some q) w = _)). by apply (Hcall q pre (p :: post)).
Qed.

Lemma rets_loop_run : forall k a acc n, segment (w_instr w) a k None -> (length k <= n)%nat ->
  rets_loop n (first_or k None) acc w = (Ok (acc ++ rets w k), w).
Proof using Type.
  induction k as [|p k IH]; intros a acc n Hk Hn.
  { rewrite app_nil_r. by destruct n. }
  destruct n as [|n]; [cbn in Hn; lia|]. destruct Hk as [(i & Hi & Hp & Hx) Hk]. cbn [first_or rets_loop].
  rewrite (run_bind _ _ _ _ _ (run_load _ _ _ Hi)).
  assert (attempt (GetNextInstruction p) w = (Ok (first_or k None), w)) as E.
  { unfold attempt, GetNextInstruction. rewrite (run_bind _ _ _ _ _ (run_load _ _ _ Hi)), Hx. by destruct k. }
  rewrite (run_bind _ _ _ _ _ E). rewrite (IH (Some p)) by (done || (cbn in Hn; lia)).
  unfold rets. rewrite filter_cons, (opcode_at_lookup _ _ _ Hi).
  destruct (Z.eqb_spec (m_opcode i) Cee_Ret); [rewrite decide_True by done|by rewrite decide_False by done].
  by rewrite <- app_assoc.
Qed.

Hypothesis Hnd : NoDup l.

Lemma behind_tail_call_at p : p ∈ l -> behind_tail_call p w = (Ok (is_tail w l p), w).
Proof using All.
  intros Hp. destruct (nodup_split _ _ Hnd Hp) as (l1 & l2 & El & Hp1 & _).
  unfold is_tail. rewrite El at 1. rewrite before_split by done. apply (behind_tail_call_run _ _ l2).
  by rewrite rev_involutive.
Qed.

Lemma erase_loop_run : forall todo done_rs n, (forall p, p ∈ todo -> p ∈ l) -> (length todo <= n)%nat ->
  done_rs <> [] \/ (forall p, head todo = Some p -> is_tail w l p = false) ->
  erase_loop n (done_rs ++ todo) (length done_rs) w = (Ok (done_rs ++ filter (fun p => is_tail w l p = false) todo), w).
Proof using All.
  induction todo as [|p todo IH]; intros done_rs n Hin Hn Hne.
  { rewrite filter_nil, !app_nil_r. assert (done_rs !! length done_rs = None) as E by by apply lookup_ge_None_2.
    destruct n; cbn [erase_loop]; by rewrite E. }
  destruct n as [|n]; [cbn in Hn; lia|]. cbn [erase_loop].
  rewrite lookup_app_r, Nat.sub_diag by lia. cbn [lookup list_lookup].
  rewrite (run_bind _ _ _ _ _ (behind_tail_call_at p (Hin p ltac:(set_solver)))).
  rewrite filter_cons. destruct (is_tail w l p) eqn:Et.
  - destruct Hne as [Hne|Hne]; [|by specialize (Hne p eq_refl); congruence].
    rewrite decide_False by done. destruct (length done_rs) as [|k] eqn:Ek; [by destruct done_rs|]. rewrite <- Ek.
    rewrite delete_middle. apply IH; [set_solver|cbn in Hn; lia|by left].
  - rewrite decide_True by done.
    replace (done_rs ++ p :: todo) with ((done_rs ++ [p]) ++ todo) by (by rewrite <- app_assoc).
    replace (S (length done_rs)) with (length (done_rs ++ [p])) by (rewrite length_app; cbn; lia).
    rewrite IH; [by rewrite <- app_assoc|set_solver|cbn in Hn; lia|left; by destruct done_rs].
Qed.

End Scan.

Lemma rets_elem w l p : p ∈ rets w l <-> opcode_at w p = Cee_Ret /\ p ∈ l.
Proof. unfold rets. by rewrite list_elem_of_filter. Qed.

Lemma GetReplaceableRets_run w g l fuel :
  graph_list w g l -> (length l <= fuel)%nat -> (forall p, head (rets w l) = Some p -> is_tail w l p = false) ->
  GetReplaceableRets fuel g w = (Ok (replaceable w l), w).
Proof.
  intros Hl Hf Hh. destruct (gl_graph _ _ _ Hl) as (gr & Hgr & Hfirst & _). unfold GetReplaceableRets.
  rewrite (run_bind _ _ _ _ _ (run_load_graph _ _ _ Hgr)), Hfirst.
  rewrite (run_bind _ _ _ _ _ (rets_loop_run w l None [] fuel (gl_segment _ _ _ Hl) Hf)).
  apply (erase_loop_run w l (gl_segment _ _ _ Hl) (gl_nodup _ _ _ Hl) _ []); [|etransitivity; [apply length_filter|done]|by right].
  intros p [_ ?]%rets_elem. done.
Qed.

(** The first [ret] is behind a tail call: the iterator is moved before the beginning. *)
Lemma GetReplaceableRets_undefined w g l fuel p :
  graph_list w g l -> (length l <= fuel)%nat -> head (rets w l) = Some p -> is_tail w l p = true ->
  GetReplaceableRets fuel g w = (Undef BadIterator, w).
Proof.
  intros Hl Hf Hh Ht. destruct (gl_graph _ _ _ Hl) as (gr & Hgr & Hfirst & _). unfold GetReplaceableRets.
  rewrite (run_bind _ _ _ _ _ (run_load_graph _ _ _ Hgr)), Hfirst.
  rewrite (run_bind _ _ _ _ _ (rets_loop_run w l None [] fuel (gl_segment _ _ _ Hl) Hf)). cbn [app].
  destruct (rets w l) as [|p' rs] eqn:Er; [done|]. injection Hh as ->.
  assert (p ∈ l) as Hp by (apply (rets_elem w l); rewrite Er; set_solver).
  destruct fuel as [|fuel]; [destruct l; [by apply elem_of_nil in Hp|cbn in Hf; lia]|].
  cbn [erase_loop lookup list_lookup].
  rewrite (run_bind _ _ _ _ _ (behind_tail_call_at w l (gl_segment _ _ _ Hl) (gl_nodup _ _ _ Hl) p Hp)), Ht. done.
Qed.

(** ** Redirected targets *)

(** [c'] is [c] with the targets mapped by [f]. *)
Definition redirects (f : ptr -> ptr) (c c' : InstrClass) : Prop :=
  match c, c' with
  | CNone, CNone => True
  | COperand v, COperand v' => v' = v
  | CBranch d t _, CBranch d' t' _ => d' = d /\ t' = f <$> t
  | CSwitch ds ts, CSwitch ds' ts' => ds' = ds /\ ts' = map (fmap f) ts
  | _, _ => False
  end.

Definition subst_ptr (o n t : ptr) : ptr := if decide (t = o) then n else t.

Lemma redirects_id c : redirects id c c.
Proof.
  destruct c as [| |d t o|ds ts]; cbn; try done; (split; [done|]).
  - by destruct t.
  - induction ts as [|t ts IH]; [done|]. cbn. rewrite <- IH. by destruct t.
Qed.

Lemma redirects_comp f h c1 c2 c3 : redirects f c1 c2 -> redirects h c2 c3 -> redirects (h ∘ f) c1 c3.
Proof.
  destruct c1, c2, c3; cbn; try done; try congruence.
  - intros [-> ->] [-> ->]. split; [done|]. by rewrite option_fmap_compose.
  - intros [-> ->] [-> ->]. split; [done|]. rewrite map_map. apply map_ext. intros t. by rewrite option_fmap_compose.
Qed.

Lemma redirects_ext f h c c' : (forall t, Some t ∈ refs c -> f t = h t) -> redirects f c c' -> redirects h c c'.
Proof.
  destruct c as [| |d t o|ds ts], c'; cbn; try done; intros E [-> ->]; (split; [done|]).
  - destruct t as [t|]; [|done]. cbn. rewrite (E t); [done|]. by apply list_elem_of_singleton.
  - apply map_ext_in. intros t Ht%list_elem_of_In. destruct t as [t|]; [|done]. cbn. by rewrite (E t).
Qed.

Lemma moved_redirects o n w w' q op c :
  moved o n w w' -> q <> n -> shape_at w q = Some (op, c) ->
  exists c', shape_at w' q = Some (op, c') /\ redirects (subst_ptr o n) c c'.
Proof.
  intros Hm Hq Hs. unfold shape_at in *. destruct (w_instr w !! q) as [i|] eqn:Hi; [|done]. injection Hs as <- <-.
  destruct (moved_class _ _ _ _ _ _ Hm Hi) as (i' & gen & Hi' & Ho & Hc). rewrite Hi'.
  exists (m_class i'). unfold shape. cbn. rewrite Ho. split; [done|]. rewrite Hc.
  destruct (m_class i) as [| |d t orig|ds ts]; cbn; try done.
  - rewrite (decide_False (P := q = n)) by done. unfold subst_ptr.
    destruct (decide (t = Some o)) as [->|Ht]; cbn; [by rewrite decide_True|]. split; [done|].
    destruct t as [t|]; [|done]. cbn. rewrite decide_False by congruence. done.
  - split; [done|]. apply map_ext. intros [t|]; [|done]. unfold subst_target, subst_ptr. cbn.
    destruct (decide (t = o)) as [->|]; [by rewrite decide_True|by rewrite decide_False by congruence].
Qed.

(** ** Expanded sequences

    Every instruction [p] has become the sequence [f p], and [tail] was appended. *)
Definition expanded (f : ptr -> list ptr) (l tail : list ptr) : list ptr := concat (map f l) ++ tail.

(** Where a target goes. *)
Definition entry (f : ptr -> list ptr) (t : ptr) : ptr := hd t (f t).

Lemma expanded_at (f : ptr -> list ptr) l r tail :
  NoDup l -> r ∈ l -> f r = [r] -> NoDup (expanded f l tail) ->
  exists l1 l2, expanded f l tail = l1 ++ r :: l2 /\ r ∉ l1 /\ r ∉ l2 /\
    forall x, expanded (<[r := x]> f) l tail = l1 ++ x ++ l2.
Proof.
  intros Hnd Hr Hf Hex. destruct (nodup_split _ _ Hnd Hr) as (a & b & -> & Ha & Hb).
  unfold expanded in *. rewrite map_app, concat_app in Hex |- *. cbn [map concat] in *. rewrite Hf in *.
  exists (concat (map f a)), (concat (map f b) ++ tail).
  assert (concat (map f a) ++ [r] ++ concat (map f b) = concat (map f a) ++ r :: concat (map f b)) as E by done.
  rewrite <- app_assoc in Hex |- *. cbn [app] in *. split; [done|].
  apply NoDup_app in Hex as (_ & H1 & H2). apply NoDup_cons in H2 as [H2 _].
  split; [intros H; apply (H1 r H); set_solver|]. split; [done|]. intros x.
  assert (forall k, r ∉ k -> map (<[r := x]> f) k = map f k) as Hk.
  { intros k Hrk. apply map_ext_in. intros y Hy%list_elem_of_In. rewrite fn_lookup_insert_ne; [done|]. by intros ->. }
  rewrite map_app, concat_app. cbn [map concat]. rewrite fn_lookup_insert, !Hk by done. by rewrite <- !app_assoc.
Qed.

(** ** One round *)

Definition ushort_operand (v : Z) : InstrClass := COperand (value_write (le_bytes 2 (u16 v)) value_uninit).

(** What a [ret] becomes: the branch to [jump], behind the store of the result if there is one. *)
Definition replacement (store : bool) (slot : Z) (jump : ptr) (w : World) (x : list ptr) : Prop :=
  exists b o, shape_at w b = Some (Cee_Br, CBranch 0 (Some jump) o) /\
  if store then exists s, x = [s; b] /\ shape_at w s = Some (Cee_Stloc, ushort_operand slot) else x = [b].

Lemma CreateUShort_session w g l cs op v r :
  editable w g l cs -> opinfo op = Ok r -> operand_type_size (ILOpcodes.m_type r) = Some 2%nat -> 0 <= op < 0x123 ->
  IsFlagSet (m_flags r) ILOpcodeFlag_Branch = false ->
  let n := fresh (dom (w_instr w)) in
  exists w', CreateUShortOperandInstruction op v w = (Ok n, w') /\ editable w' g l cs /\ insertable w' l n /\
    shape_at w' n = Some (op, ushort_operand v) /\ forall q, q <> n -> shape_at w' q = shape_at w q.
Proof.
  intros He Hr Hn Hop Hbr n.
  destruct (create_operand_session w g l cs He op (le_bytes 2 (u16 v)) r 2%nat Hr Hn (length_le_bytes _ _) Hop Hbr)
    as (w' & Hw' & He' & Hin & Hs & Hq & _).
  exists w'. by split_and!.
Qed.

Section Round.
Context (w : World) (g : ptr) (lw cs : list ptr) (store : bool) (slot : Z) (jump r : ptr).
Hypothesis He : editable w g lw cs.
Hypothesis Hr : r ∈ lw.
Hypothesis Hj : jump ∈ lw.
Hypothesis Hjr : jump <> r.

(** The other instructions of the sequence, whose targets are in it. *)
Definition others_redirected (w' : World) (f : ptr -> ptr) : Prop :=
  forall q op c, q ∈ lw -> shape_at w q = Some (op, c) ->
    exists c', shape_at w' q = Some (op, c') /\ redirects f c c'.

Lemma replace_branch_run l1 l2 :
  lw = l1 ++ r :: l2 -> r ∉ l1 ->
  exists w2 b o, (pNewBranch <- CreateBranchInstruction Cee_Br (Some jump) ;;
      Replace g (Some r) (Some pNewBranch) ;;; ret pNewBranch) w = (Ok b, w2) /\
    editable w2 g (l1 ++ b :: l2) cs /\ shape_at w2 b = Some (Cee_Br, CBranch 0 (Some jump) o) /\ b ∉ lw /\
    others_redirected w2 (subst_ptr r b).
Proof using All.
  intros El Hr1.
  destruct (CreateBranchInstruction_session w g lw cs He Cee_Br _ jump (eq_refl : opinfo Cee_Br = Ok _) eq_refl ltac:(unfold Cee_Br; lia) Hj)
    as (w1 & o & Hw1 & He1 & Hin1 & Hs1 & Hq1 & _).
  pose proof (fresh_notin w g lw cs He) as Hb. set (b := fresh (dom (w_instr w))) in *.
  assert (~ targets w1 b r) as Hbr.
  { intros (c & Hc & Ht). rewrite (class_of_shape _ _ _ _ Hs1) in Hc. injection Hc as <-.
    apply list_elem_of_singleton in Ht. congruence. }
  destruct (replace_edit w1 g lw cs He1 r b Hr Hin1 Hbr) as (w2 & Hw2 & He2 & Hm).
  rewrite El, replace_in_split in He2 by done.
  assert (exists i, w_instr w1 !! b = Some i /\ shape i = (Cee_Br, CBranch 0 (Some jump) o)) as (i & Hi & Hsi).
  { unfold shape_at in Hs1. destruct (w_instr w1 !! b) as [i|]; [|done]. exists i. split; [done|]. cbn in Hs1. congruence. }
  destruct (moved_class _ _ _ _ _ _ Hm Hi) as (i2 & gen & Hi2 & Ho2 & Hc2). injection Hsi as Hop Hcl.
  rewrite Hcl, retarget_class_id in Hc2 by (intros [= ?]%list_elem_of_singleton; congruence).
  exists w2, b, o. split_and!; [|done| |done|].
  - rewrite (run_bind _ _ _ _ _ Hw1). by rewrite (run_bind _ _ _ _ _ Hw2).
  - unfold shape_at. rewrite Hi2. cbn. unfold shape. by rewrite Ho2, Hc2, Hop.
  - intros q op c Hq Hs. assert (q <> b) as Hqb by (intros E; by rewrite E in Hq).
    rewrite <- Hq1 in Hs by done. by eapply moved_redirects.
Qed.

Lemma replace_ret_run l1 l2 :
  lw = l1 ++ r :: l2 -> r ∉ l1 ->
  exists w' x n, replace_ret g store slot jump r w = (Ok tt, w') /\ editable w' g (l1 ++ x ++ l2) cs /\
    replacement store slot jump w' x /\ head x = Some n /\ n ∉ lw /\ others_redirected w' (subst_ptr r n).
Proof using All.
  intros El Hr1. destruct (replace_branch_run l1 l2 El Hr1) as (w2 & b & o & Hw2 & He2 & Hsb & Hb & Hoth).
  unfold replace_ret. assert (forall (k : ptr -> W unit) w' o', (p <- (pNewBranch <- CreateBranchInstruction Cee_Br (Some jump) ;;
      Replace g (Some r) (Some pNewBranch) ;;; ret pNewBranch) ;; k p) w = (o', w') ->
    (pNewBranch <- CreateBranchInstruction Cee_Br (Some jump) ;; Replace g (Some r) (Some pNewBranch) ;;; k pNewBranch) w = (o', w')) as Hassoc.
  { intros k w' o'. rewrite bind_bind. intros <-. unfold bind, ret. by repeat case_match. }
  destruct store.
  - destruct (CreateUShort_session w2 g _ cs Cee_Stloc slot _ He2 (eq_refl : opinfo Cee_Stloc = Ok _) eq_refl ltac:(unfold Cee_Stloc; lia) eq_refl)
      as (w3 & Hw3 & He3 & Hin3 & Hs3 & Hq3).
    pose proof (fresh_notin w2 g _ cs He2) as Hsn. set (s := fresh (dom (w_instr w2))) in *.
    assert (b ∈ l1 ++ b :: l2) as Hbl by set_solver.
    destruct (insert_retarget_edit w3 g _ cs He3 b s Hbl Hin3) as (w4 & Hw4 & He4 & Hm).
    assert (b ∉ l1) as Hb1 by (rewrite El in Hb; set_solver). rewrite insert_before_split in He4 by done.
    assert (b <> s) as Hbs by (intros ->; done).
    assert (s ∉ lw) as Hs.
    { intros Hs. destruct (graph_list_elem _ _ _ _ (ed_list _ _ _ _ He) Hs) as (i & Hi & _).
      destruct (Hoth s (m_opcode i) (m_class i) Hs) as (c' & Hc' & _); [unfold shape_at; by rewrite Hi|].
      assert (w_instr w2 !! s = None) as E by (apply not_elem_of_dom, is_fresh). unfold shape_at in Hc'. by rewrite E in Hc'. }
    assert (shape_at w3 b = Some (Cee_Br, CBranch 0 (Some jump) o)) as Hsb3 by (by rewrite Hq3).
    destruct (moved_redirects _ _ _ _ b _ _ Hm Hbs Hsb3) as (c4 & Hsb4 & Hc4).
    assert (shape_at w4 s = Some (Cee_Stloc, ushort_operand slot)) as Hss4.
    { unfold shape_at in Hs3 |- *. destruct (w_instr w3 !! s) as [i|] eqn:Hi; [|done]. cbn in Hs3. injection Hs3 as Hop Hcl.
      destruct (moved_class _ _ _ _ _ _ Hm Hi) as (i' & gen & -> & Ho & Hc). cbn. unfold shape. by rewrite Ho, Hc, Hop, Hcl. }
    destruct c4 as [| |d4 t4 o4|]; try done. destruct Hc4 as [-> ->]. cbn [fmap option_fmap option_map] in Hsb4.
    unfold subst_ptr in Hsb4. rewrite decide_False in Hsb4 by (intros ->; done).
    exists w4, [s; b], s. split_and!; [|exact He4|exists b, o4; split; [done|by exists s]|done..|].
    + rewrite <- (Hassoc (fun p => p' <- CreateUShortOperandInstruction Cee_Stloc slot ;;
        InsertBeforeAndRetargetOffsets g (Some p) (Some p')) w4 (Ok tt)); [done|].
      rewrite (run_bind _ _ _ _ _ Hw2), (run_bind _ _ _ _ _ Hw3). exact Hw4.
    + intros q op c Hq Hsq. destruct (Hoth q op c Hq Hsq) as (c2 & Hc2 & Hr2).
      assert (q <> s) as Hqs by (intros E; by rewrite E in Hq).
      rewrite <- (Hq3 q Hqs) in Hc2. destruct (moved_redirects _ _ _ _ q _ _ Hm Hqs Hc2) as (c3 & Hc3 & Hr3).
      exists c3. split; [done|]. eapply redirects_ext; [|exact (redirects_comp _ _ _ _ _ Hr2 Hr3)].
      intros t Ht. assert (t ∈ lw) as Htl.
      { apply (ed_live _ _ _ _ He q); [done|]. exists c. split; [by eapply class_of_shape|done]. }
      cbn. unfold subst_ptr. destruct (decide (t = r)) as [->|Htr]; [by rewrite decide_True|].
      rewrite decide_False; [done|]. by intros ->.
  - exists w2, [b], b. split_and!; [|done|by exists b, o|done..].
    by rewrite <- (Hassoc (fun _ => ret tt) w2 (Ok tt)); [|rewrite (run_bind _ _ _ _ _ Hw2)].
Qed.

End Round.

(** ** All rounds *)

(** The first instruction of a replacement is in the sequence, and is not a [ret]. *)
Lemma replacement_head store slot jump w x t :
  replacement store slot jump w x -> hd t x ∈ x /\
  exists op c, shape_at w (hd t x) = Some (op, c) /\ op <> Cee_Ret.
Proof.
  intros (b & o & Hb & Hx). destruct store.
  - destruct Hx as (s & -> & Hs). split; [set_solver|]. by eexists _, _.
  - subst x. split; [set_solver|]. by eexists _, _.
Qed.

Section Rounds.
Context (g : ptr) (l cs tail : list ptr) (w0 : World) (store : bool) (slot : Z) (jump : ptr).
Context (shape_of : ptr -> option (Z * InstrClass)).
Hypothesis Hnd : NoDup l.
Hypothesis Hlive : forall p op c t, p ∈ l -> shape_at w0 p = Some (op, c) -> Some t ∈ refs c -> t ∈ l.
Hypothesis Hjump : jump ∈ tail.
Hypothesis Htail : forall p, p ∈ tail -> exists op c, shape_of p = Some (op, c) /\ (c = CNone \/ exists v, c = COperand v).

(** The instructions [done_rs] have been replaced: [f p] is what has become of [p]. *)
Record rounds (w : World) (done_rs : list ptr) (f : ptr -> list ptr) : Prop := {
  rd_edit : editable w g (expanded f l tail) cs;
  rd_todo : forall p, p ∈ l -> p ∉ done_rs -> f p = [p] /\ forall op c, shape_at w0 p = Some (op, c) ->
    exists c', shape_at w p = Some (op, c') /\ redirects (entry f) c c';
  rd_done : forall p, p ∈ l -> p ∈ done_rs -> replacement store slot jump w (f p);
  rd_tail : forall p, p ∈ tail -> shape_at w p = shape_of p
}.

Lemma expanded_elem f p q : p ∈ l -> q ∈ f p -> q ∈ expanded f l tail.
Proof using Type.
  intros Hp Hq. apply elem_of_app. left. apply list_elem_of_In, in_concat. exists (f p).
  split; [apply in_map|]; by apply list_elem_of_In.
Qed.

Lemma entry_elem w done_rs f t :
  rounds w done_rs f -> t ∈ l -> entry f t ∈ expanded f l tail.
Proof using All.
  intros H Ht. apply (expanded_elem f t); [done|]. unfold entry. destruct (decide (t ∈ done_rs)) as [Hd|Hd].
  - apply (replacement_head store slot jump w), (rd_done _ _ _ H t Ht Hd).
  - rewrite (proj1 (rd_todo _ _ _ H t Ht Hd)). set_solver.
Qed.

Lemma round w done_rs f r c0 :
  rounds w done_rs f -> r ∈ l -> r ∉ done_rs -> shape_at w0 r = Some (Cee_Ret, c0) ->
  exists w' x, replace_ret g store slot jump r w = (Ok tt, w') /\ rounds w' (r :: done_rs) (<[r := x]> f).
Proof using All.
  intros H Hr Hrd Hret. pose proof (rd_edit _ _ _ H) as He. pose proof (gl_nodup _ _ _ (ed_list _ _ _ _ He)) as Hex.
  destruct (rd_todo _ _ _ H r Hr Hrd) as [Hfr Hsr]. destruct (Hsr _ _ Hret) as (cr & Hcr & _).
  assert (r ∈ expanded f l tail) as Hrx by (apply (expanded_elem f r); [done|rewrite Hfr; set_solver]).
  assert (jump ∈ expanded f l tail) as Hjx by (apply elem_of_app; by right).
  assert (jump <> r) as Hjr.
  { intros ->. pose proof Hex as (_ & Hdis & _)%NoDup_app. apply (Hdis r); [|done].
    apply list_elem_of_In, in_concat. exists [r]. split; [rewrite <- Hfr; apply in_map; by apply list_elem_of_In|by left]. }
  destruct (expanded_at f l r tail Hnd Hr Hfr Hex) as (l1 & l2 & El & Hr1 & _ & Hupd).
  destruct (replace_ret_run w g _ cs store slot jump r He Hrx Hjx Hjr l1 l2 El Hr1)
    as (w' & x & n & Hw' & He' & Hrep & Hx & Hn & Hoth).
  exists w', x. split; [done|].
  assert (forall t, t ∈ l -> t <> r -> entry f t <> r) as Hne.
  { intros t Ht Htr E. unfold entry in E. destruct (decide (t ∈ done_rs)) as [Hd|Hd].
    - destruct (replacement_head _ _ _ w (f t) t (rd_done _ _ _ H t Ht Hd)) as (_ & op & c & Hs & Hop). congruence.
    - rewrite (proj1 (rd_todo _ _ _ H t Ht Hd)) in E. done. }
  split.
  - by rewrite Hupd.
  - intros p Hp [Hpr Hpd]%not_elem_of_cons. rewrite fn_lookup_insert_ne by done.
    destruct (rd_todo _ _ _ H p Hp Hpd) as [Hfp Hsp]. split; [done|]. intros op c Hs.
    destruct (Hsp op c Hs) as (c1 & Hs1 & Hr1').
    destruct (Hoth p op c1) as (c2 & Hs2 & Hr2); [apply (expanded_elem f p); [done|rewrite Hfp; set_solver]|done|].
    exists c2. split; [done|]. eapply redirects_ext; [|exact (redirects_comp _ _ _ _ _ Hr1' Hr2)].
    intros t Ht. pose proof (Hlive p op c t Hp Hs Ht) as Htl. cbn. unfold subst_ptr.
    destruct (decide (t = r)) as [->|Htr].
    + unfold entry. rewrite fn_lookup_insert, Hfr. cbn. rewrite decide_True by done. destruct x as [|y x]; [done|]. by injection Hx as ->.
    + rewrite decide_False by by apply Hne. unfold entry. by rewrite fn_lookup_insert_ne.
  - intros p Hp Hpd. destruct (decide (p = r)) as [->|Hpr]; [by rewrite fn_lookup_insert|].
    rewrite fn_lookup_insert_ne by done. apply elem_of_cons in Hpd as [|Hpd]; [done|].
    destruct (rd_done _ _ _ H p Hp Hpd) as (b & o & Hb & Hbx).
    assert (b ∈ f p) as Hbf by (destruct store; [destruct Hbx as (s & -> & _)|rewrite Hbx]; set_solver).
    destruct (Hoth b _ _ (expanded_elem f p b Hp Hbf) Hb) as ([| |d t o'|] & Hb' & Hrb); try done.
    destruct Hrb as [-> ->]. cbn in Hb'. unfold subst_ptr in Hb'. rewrite decide_False in Hb' by done.
    exists b, o'. split; [done|]. destruct store; [|done]. destruct Hbx as (s & Hfs & Hs). exists s. split; [done|].
    destruct (Hoth s _ _ (expanded_elem f p s Hp ltac:(rewrite Hfs; set_solver)) Hs) as (c' & Hs' & Hrs).
    rewrite Hs'. unfold ushort_operand in *. destruct c'; try done. cbn in Hrs. by subst.
  - intros p Hp. pose proof (rd_tail _ _ _ H p Hp) as Hs. destruct (Htail p Hp) as (op & c & Ho & Hc). rewrite Ho in *.
    destruct (Hoth p op c) as (c' & Hs' & Hrc); [apply elem_of_app; by right|done|]. rewrite Hs'.
    destruct Hc as [->|[v ->]]; destruct c'; try done. cbn in Hrc. by subst.
Qed.

Lemma rounds_run : forall rs w done_rs f,
  rounds w done_rs f -> NoDup (rs ++ done_rs) -> (forall r, r ∈ rs -> r ∈ l /\ exists c, shape_at w0 r = Some (Cee_Ret, c)) ->
  exists w' f', for_each (replace_ret g store slot jump) rs w = (Ok tt, w') /\ rounds w' (rev rs ++ done_rs) f'.
Proof using All.
  induction rs as [|r rs IH]; intros w done_rs f H Hnd' Hrs; [by exists w, f|].
  cbn [app] in Hnd'. apply NoDup_cons in Hnd' as [Hr Hnd']. destruct (Hrs r) as (Hrl & c & Hc); [set_solver|].
  destruct (round w done_rs f r c H Hrl) as (w1 & x & Hw1 & H1); [set_solver|done|].
  destruct (IH w1 (r :: done_rs) (<[r := x]> f) H1) as (w2 & f2 & Hw2 & H2).
  - rewrite <- Permutation_middle. by apply NoDup_cons.
  - intros q Hq. apply Hrs. set_solver.
  - exists w2, f2. cbn [for_each rev]. rewrite (run_bind _ _ _ _ _ Hw1). split; [done|].
    by rewrite <- app_assoc.
Qed.

End Rounds.

(** ** The new end of the method *)

Lemma run_in_world {Metadata A B} (x : W A) (k : A -> M (State (Metadata := Metadata)) B) w ls a w' :
  x w = (Ok a, w') -> bind (in_world x) k (w, ls) = k a (w', ls).
Proof. intros H. unfold bind, in_world. cbn. by rewrite H. Qed.

Lemma GetReturnType_frame import fuel m w w' t :
  w_method w' = w_method w -> GetReturnType import fuel m w = (Ok t, w) -> GetReturnType import fuel m w' = (Ok t, w').
Proof.
  intros E. unfold GetReturnType, load_method, bind, lift, ret. rewrite E.
  destruct (w_method w !! m) as [mi|]; [|done]. cbn [of_option].
  set (tk := m_tkFunction _). destruct (InitializeCorAttributes import fuel tk tk) as [sig| | |]; try done.
  destruct (ParseMethodSignature sig fuel _ 0) as [r| | |]; try done. by intros [= ->].
Qed.

Lemma same_code_shape w w' q : same_code w w' -> shape_at w' q = shape_at w q.
Proof.
  intros [H _ _]. specialize (H q). unfold shape_at.
  destruct (w_instr w' !! q), (w_instr w !! q); try done. injection H. unfold shape. cbn. congruence.
Qed.

Lemma insert_after_last (o n : ptr) l : o ∉ l -> insert_after o n (l ++ [o]) = l ++ [o; n].
Proof. intros Ho. by rewrite insert_after_split. Qed.

(** The new [ret] is appended. *)
Lemma append_ret_run w g l cs :
  editable w g l cs -> l <> [] ->
  exists w1 w2 n, CreateInstruction Cee_Ret w = (Ok n, w1) /\
    (gr <- load_graph g ;; InsertAfter g (m_pLastInstruction gr) (Some n)) w1 = (Ok tt, w2) /\
    editable w2 g (l ++ [n]) cs /\ n ∉ l /\ w_method w2 = w_method w /\ shape_at w2 n = Some (Cee_Ret, CNone) /\
    forall q, q <> n -> shape_at w2 q = shape_at w q.
Proof.
  intros He Hne.
  destruct (CreateInstruction_session w g l cs He Cee_Ret _ (eq_refl : opinfo Cee_Ret = Ok _) eq_refl eq_refl) as
    (w1 & Hw1 & He1 & Hin1 & Hs1 & Hq1 & _); [done|unfold Cee_Ret; lia|].
  pose proof (fresh_notin w g l cs He) as Hn. set (n := fresh _) in *.
  destruct l as [|o l _] using rev_ind; [done|].
  destruct (gl_graph _ _ _ (ed_list _ _ _ _ He1)) as (gr & Hgr & _ & Hlast). rewrite last_or_rcons in Hlast.
  assert (o ∈ l ++ [o]) as Ho by set_solver.
  destruct (InsertAfter_run w1 g _ o n (ed_list _ _ _ _ He1) Ho (in_detached _ _ _ Hin1)) as (w2 & Hw2 & _ & Hrl & _).
  destruct (edit_run w1 g _ cs He1 (EInsertAfter o n) (conj Ho Hin1)) as (w2' & Hw2' & He2).
  change (InsertAfter g (Some o) (Some n) w1 = (Ok tt, w2')) in Hw2'. assert (w2' = w2) as -> by congruence.
  cbn [edited] in He2. rewrite insert_after_last in He2.
  2: { pose proof (gl_nodup _ _ _ (ed_list _ _ _ _ He)) as (_ & Hd & _)%NoDup_app. intros H. apply (Hd o H). set_solver. }
  pose proof (relinked_same_code _ _ _ Hrl) as Hsc.
  exists w1, w2, n. split_and!; [done| |by rewrite <- app_assoc|done| | |].
  - rewrite (run_bind _ _ _ _ _ (run_load_graph _ _ _ Hgr)). by rewrite Hlast.
  - rewrite (rl_method _ _ _ Hrl). unfold CreateInstruction in Hw1. by injection Hw1 as <-.
  - by rewrite (same_code_shape _ _ _ Hsc).
  - intros q Hq. rewrite (same_code_shape _ _ _ Hsc). by apply Hq1.
Qed.

(** The load of the result is put before it. *)
Lemma load_slot_run w g l n cs slot :
  editable w g (l ++ [n]) cs -> n ∉ l -> shape_at w n = Some (Cee_Ret, CNone) -> (forall p t, p ∈ l -> targets w p t -> t <> n) ->
  exists w1 w2 ld, CreateUShortOperandInstruction Cee_Ldloc slot w = (Ok ld, w1) /\
    InsertBeforeAndRetargetOffsets g (Some n) (Some ld) w1 = (Ok tt, w2) /\
    editable w2 g (l ++ [ld; n]) cs /\ ld ∉ l /\ ld <> n /\ shape_at w2 ld = Some (Cee_Ldloc, ushort_operand slot) /\
    shape_at w2 n = Some (Cee_Ret, CNone) /\
    forall p op c, p ∈ l -> shape_at w p = Some (op, c) -> exists c', shape_at w2 p = Some (op, c') /\ redirects id c c'.
Proof.
  intros He Hn Hsn Hnt.
  destruct (CreateUShort_session w g _ cs Cee_Ldloc slot _ He (eq_refl : opinfo Cee_Ldloc = Ok _) eq_refl ltac:(unfold Cee_Ldloc; lia) eq_refl)
    as (w1 & Hw1 & He1 & Hin1 & Hs1 & Hq1).
  pose proof (fresh_notin w g _ cs He) as Hld. set (ld := fresh _) in *.
  assert (n ∈ l ++ [n]) as Hnl by set_solver.
  destruct (insert_retarget_edit w1 g _ cs He1 n ld Hnl Hin1) as (w2 & Hw2 & He2 & Hm).
  rewrite insert_before_split in He2 by done.
  assert (ld <> n) as Hne by (intros ->; done). assert (ld ∉ l) as Hll by set_solver.
  exists w1, w2, ld. split_and!; [done..| | |].
  - unfold shape_at in Hs1 |- *. destruct (w_instr w1 !! ld) as [i|] eqn:Hi; [|done]. cbn in Hs1. injection Hs1 as Hop Hcl.
    destruct (moved_class _ _ _ _ _ _ Hm Hi) as (i' & gen & -> & Ho & Hc). cbn. unfold shape. by rewrite Ho, Hc, Hop, Hcl.
  - rewrite <- (Hq1 n) in Hsn by done. destruct (moved_redirects _ _ _ _ n _ _ Hm ltac:(done) Hsn) as (c' & -> & Hc).
    by destruct c'.
  - intros p op c Hp Hs. assert (p <> ld) as Hpl by (intros ->; done). rewrite <- (Hq1 p Hpl) in Hs.
    destruct (moved_redirects _ _ _ _ p _ _ Hm Hpl Hs) as (c' & Hs' & Hc). exists c'. split; [done|].
    eapply redirects_ext; [|exact Hc]. intros t Ht. unfold subst_ptr. rewrite decide_False; [done|].
    apply (Hnt p); [done|]. exists c. split; [|done]. rewrite (Hq1 p Hpl) in Hs. by eapply class_of_shape.
Qed.

(** ** The instrumentation *)

(** Whether the result is stored, and the local variables the method has. *)
Definition stores (t : CType) : bool :=
  negb (m_type (base t) =? ELEMENT_TYPE_VOID) && negb (m_type (base t) =? ELEMENT_TYPE_BYREF).

Definition locals_of {Metadata} (md : Metadata) (r : MethodRender) (ls : option (CLocalVariableCollection Metadata)) :
    CLocalVariableCollection Metadata :=
  match ls with
  | Some c => set_token (LocalVarSigTok (m_newCorHeader r)) c
  | None => new_collection false (LocalVarSigTok (m_newCorHeader r)) md
  end.

(** The graph after the instrumentation: [f p] has replaced [p], [tail] was appended. *)
Record rewritten (w w' : World) (l : list ptr) (store : bool) (slot : Z) (f : ptr -> list ptr) (tail : list ptr)
    (jump n : ptr) : Prop := {
  rw_tail : tail = (if store then [jump; n] else [n]);
  rw_jump : if store then shape_at w' jump = Some (Cee_Ldloc, ushort_operand slot) else jump = n;
  rw_ret : shape_at w' n = Some (Cee_Ret, CNone);
  rw_replaced : forall p, p ∈ replaceable w l -> replacement store slot jump w' (f p);
  rw_kept : forall p, p ∈ l -> p ∉ replaceable w l -> f p = [p] /\ forall op c, shape_at w p = Some (op, c) ->
    exists c', shape_at w' p = Some (op, c') /\ redirects (entry f) c c'
}.

Lemma replaceable_elem w l p : p ∈ replaceable w l <-> opcode_at w p = Cee_Ret /\ p ∈ l /\ is_tail w l p = false.
Proof. unfold replaceable. rewrite list_elem_of_filter, rets_elem. tauto. Qed.

Lemma replaceable_NoDup w l : NoDup l -> NoDup (replaceable w l).
Proof. intros H. by apply NoDup_filter, NoDup_filter. Qed.

Lemma shape_opcode w p op c : shape_at w p = Some (op, c) -> opcode_at w p = op.
Proof. unfold shape_at, opcode_at. destruct (w_instr w !! p); [|done]. by intros [= <- _]. Qed.

(** Only the appended [ret] and those behind tail calls are left. *)
Lemma rewritten_single_ret w w' g l cs store slot f tail jump n p :
  graph_list w g l -> editable w' g (expanded f l tail) cs -> rewritten w w' l store slot f tail jump n ->
  p ∈ expanded f l tail -> opcode_at w' p = Cee_Ret -> p = n \/ (p ∈ l /\ is_tail w l p = true).
Proof.
  intros Hl _ [-> Hjump Hret Hrep Hkept] Hp Hop. apply elem_of_app in Hp as [Hp|Hp].
  - apply list_elem_of_In, in_concat in Hp as (x & Hx & Hpx%list_elem_of_In).
    apply in_map_iff in Hx as (q & <- & Hq%list_elem_of_In). right.
    destruct (decide (q ∈ replaceable w l)) as [Hr|Hr].
    + destruct (Hrep q Hr) as (b & o & Hb%shape_opcode & Hx). destruct store.
      * destruct Hx as (s & E & Hs%shape_opcode). rewrite E in Hpx. apply elem_of_cons in Hpx as [->|Hpx]; [by rewrite Hs in Hop|].
        apply list_elem_of_singleton in Hpx as ->. by rewrite Hb in Hop.
      * rewrite Hx in Hpx. apply list_elem_of_singleton in Hpx as ->. by rewrite Hb in Hop.
    + destruct (Hkept q Hq Hr) as [E Hs]. rewrite E in Hpx. apply list_elem_of_singleton in Hpx as ->. split; [done|].
      destruct (graph_list_elem _ _ _ _ Hl Hq) as (i & Hi & _).
      destruct (Hs (m_opcode i) (m_class i)) as (c' & Hc'%shape_opcode & _); [unfold shape_at; by rewrite Hi|].
      destruct (is_tail w l q) eqn:E2; [done|]. destruct Hr. apply replaceable_elem. split_and!; [|done|done].
      rewrite (opcode_at_lookup _ _ _ Hi). congruence.
  - destruct store; [|apply list_elem_of_singleton in Hp; by left].
    apply elem_of_cons in Hp as [->|Hp]; [apply shape_opcode in Hjump; by rewrite Hjump in Hop|].
    apply list_elem_of_singleton in Hp. by left.
Qed.

Section Instrument.
Context (import : MetaDataImport) (fuel : nat) {Metadata : Type} (GetSig : Metadata -> Z -> outcome (list Z)) (md : Metadata).
Context (w : World) (g m : ptr) (l cs : list ptr) (mi : CMethodInfo) (t : CType).
Context (ls : option (CLocalVariableCollection Metadata)) (ts added : list CType).
Hypothesis He : editable w g l cs.
Hypothesis Hm : method_of w g = Some m.
Hypothesis Hmi : w_method w !! m = Some mi.
Hypothesis Hf : (length l <= fuel)%nat.
Hypothesis Hhead : forall p, head (rets w l) = Some p -> is_tail w l p = false.
Hypothesis Ht : GetReturnType import fuel m w = (Ok t, w).
Hypothesis Hover : over GetSig fuel (locals_of md (m_render mi) ls) ts added.
Hypothesis Hadded : Z.of_nat (length added) < 2 ^ 29.

Notation apply := (ApplySingleRetDefaultInstrumentation import fuel GetSig md g).
Notation slot := (Z.of_nat (length ts + length added)).

Lemma apply_few : (length (replaceable w l) <= 1)%nat -> apply (w, ls) = (Ok None, (w, ls)).
Proof using He Hm Hf Hhead.
  intros Hn. destruct (gl_graph _ _ _ (ed_list _ _ _ _ He)) as (gr & Hgr & _).
  unfold ApplySingleRetDefaultInstrumentation. rewrite (run_in_world _ _ _ _ _ _ (run_load_graph _ _ _ Hgr)).
  assert (m_pMethodInfo gr = Some m) as -> by (unfold method_of in Hm; by rewrite Hgr in Hm).
  cbn [if_null_ret]. rewrite (run_bind _ _ _ _ _ (eq_refl : ret m (w, ls) = _)).
  rewrite (run_in_world _ _ _ _ _ _ (GetReplaceableRets_run _ _ _ _ (ed_list _ _ _ _ He) Hf Hhead)).
  by rewrite (proj2 (Nat.leb_le _ _) Hn).
Qed.

(** The state before the rounds. *)
Lemma prepared w2 tail jump n :
  editable w2 g (l ++ tail) cs -> n ∉ l -> tail = (if stores t then [jump; n] else [n]) ->
  (if stores t then shape_at w2 jump = Some (Cee_Ldloc, ushort_operand slot) else jump = n) ->
  shape_at w2 n = Some (Cee_Ret, CNone) ->
  (forall p op c, p ∈ l -> shape_at w p = Some (op, c) -> exists c', shape_at w2 p = Some (op, c') /\ redirects id c c') ->
  exists w' f, for_each (replace_ret g (stores t) slot jump) (replaceable w l) w2 = (Ok tt, w') /\
    editable w' g (expanded f l tail) cs /\ rewritten w w' l (stores t) slot f tail jump n.
Proof using All.
  intros He2 Hn -> Hjump Hret Hsh. pose proof (gl_nodup _ _ _ (ed_list _ _ _ _ He)) as Hnd.
  set (tail := if stores t then [jump; n] else [n]) in *.
  set (sh := fun p : ptr => shape_at w2 p).
  assert (forall p, p ∈ tail -> exists op c, sh p = Some (op, c) /\ (c = CNone \/ exists v, c = COperand v)) as Htail.
  { intros p Hp. unfold tail in Hp. destruct (stores t).
    - apply elem_of_cons in Hp as [Hp|Hp%list_elem_of_singleton]; subst p; eexists _, _; (split; [done|]); eauto.
    - apply list_elem_of_singleton in Hp as ->. eexists _, _. split; [done|by left]. }
  assert (jump ∈ tail) as Hjt by (unfold tail; destruct (stores t); [set_solver|subst jump; set_solver]).
  assert (rounds g l cs tail w (stores t) slot jump sh w2 [] (fun p => [p])) as H0.
  { split; [|intros p Hp _; split; [done|intros op c Hs; exact (Hsh p op c Hp Hs)]|intros p _ Hp; by apply elem_of_nil in Hp|done].
    unfold expanded. replace (concat (map (fun p => [p]) l)) with l; [done|]. clear. induction l as [|x k IH]; cbn; congruence. }
  destruct (rounds_run g l cs tail w (stores t) slot jump sh Hnd) with (rs := replaceable w l) (w := w2) (done_rs := @nil ptr)
    (f := fun p : ptr => [p]) as (w' & f & Hw' & Hr); [|done|done|done| | |].
  - intros p op c x Hp Hs Hx. apply (ed_live _ _ _ _ He p); [done|]. exists c. split; [by eapply class_of_shape|done].
  - rewrite app_nil_r. by apply replaceable_NoDup.
  - intros r (Ho & Hrl & _)%replaceable_elem. split; [done|].
    destruct (graph_list_elem _ _ _ _ (ed_list _ _ _ _ He) Hrl) as (i & Hi & _). exists (m_class i).
    unfold shape_at. rewrite Hi. cbn. unfold shape. rewrite <- (opcode_at_lookup _ _ _ Hi). by rewrite Ho.
  - rewrite app_nil_r in Hr. exists w', f. split; [done|]. split; [apply Hr|].
    assert (forall p, p ∈ rev (replaceable w l) <-> p ∈ replaceable w l) as Hrev
      by (intros p; rewrite !list_elem_of_In; symmetry; apply in_rev).
    split; [done| | | |].
    + destruct (stores t); [|done]. rewrite <- Hjump. by apply (rd_tail _ _ _ _ _ _ _ _ _ _ _ _ Hr).
    + rewrite <- Hret. apply (rd_tail _ _ _ _ _ _ _ _ _ _ _ _ Hr). unfold tail. destruct (stores t); set_solver.
    + intros p Hp. apply (rd_done _ _ _ _ _ _ _ _ _ _ _ _ Hr); [by apply replaceable_elem in Hp as (_ & ? & _)|by apply Hrev].
    + intros p Hp Hnp. apply (rd_todo _ _ _ _ _ _ _ _ _ _ _ _ Hr); [done|by rewrite Hrev].
Qed.

Lemma AddLocal_with w2 :
  w_method w2 = w_method w -> exists ls', with_locals md m (AddLocal GetSig fuel t) (w2, ls) = (Ok slot, (w2, ls')).
Proof using Hmi Hover Hadded.
  intros E. destruct (AddLocal_run GetSig fuel _ ts added t Hover Hadded) as (c' & Hc' & _).
  unfold with_locals, load_render, load_method. cbn [fst snd]. unfold bind. rewrite E, Hmi. cbn [of_option ret].
  change (match ls with Some c => _ | None => _ end) with (locals_of md (m_render mi) ls). rewrite Hc'. by eexists.
Qed.

Lemma apply_many : (2 <= length (replaceable w l))%nat ->
  exists w' ls' f tail jump n, apply (w, ls) = (Ok (Some jump), (w', ls')) /\
    editable w' g (expanded f l tail) cs /\ rewritten w w' l (stores t) slot f tail jump n.
Proof using All.
  intros Hn. destruct (gl_graph _ _ _ (ed_list _ _ _ _ He)) as (gr & Hgr & _).
  assert (l <> []) as Hne by (intros ->; cbn in Hn; lia).
  destruct (append_ret_run w g l cs He Hne) as (w1 & w2 & n & Hw1 & Hw2 & He2 & Hnl & Hm2 & Hs2 & Hq2).
  assert (forall p, p ∈ l -> shape_at w2 p = shape_at w p) as Hsh by (intros p Hp; apply Hq2; by intros ->).
  unfold ApplySingleRetDefaultInstrumentation. rewrite (run_in_world _ _ _ _ _ _ (run_load_graph _ _ _ Hgr)).
  assert (m_pMethodInfo gr = Some m) as -> by (unfold method_of in Hm; by rewrite Hgr in Hm).
  cbn [if_null_ret]. rewrite (run_bind _ _ _ _ _ (eq_refl : ret m (w, ls) = _)).
  rewrite (run_in_world _ _ _ _ _ _ (GetReplaceableRets_run _ _ _ _ (ed_list _ _ _ _ He) Hf Hhead)).
  rewrite (proj2 (Nat.leb_gt _ _)) by lia. rewrite (run_in_world _ _ _ _ _ _ Hw1).
  destruct (w_graph w1 !! g) as [gr1|] eqn:Hgr1; [|by unfold load_graph, bind in Hw2; rewrite Hgr1 in Hw2].
  rewrite (run_bind _ _ _ _ _ (run_load_graph _ _ _ Hgr1)) in Hw2.
  rewrite (run_in_world _ _ _ _ _ _ (run_load_graph _ _ _ Hgr1)), (run_in_world _ _ _ _ _ _ Hw2).
  rewrite (run_in_world _ _ _ _ _ _ (GetReturnType_frame _ _ _ _ _ _ Hm2 Ht)).
  change (negb _ && negb _) with (stores t). destruct (stores t) eqn:Est.
  - destruct (AddLocal_with w2 Hm2) as (ls' & Hls). rewrite bind_bind, (run_bind _ _ _ _ _ Hls).
    destruct (load_slot_run w2 g l n cs slot He2 Hnl Hs2) as (w3 & w4 & ld & Hw3 & Hw4 & He4 & Hldl & Hldn & Hsl & Hsn & Hsp).
    { intros p x Hp (c & Hc & Hx) ->. apply Hnl, (ed_live _ _ _ _ He p); [done|]. exists c. split; [|done].
      specialize (Hsh p Hp). unfold shape_at, class_of in *. destruct (w_instr w2 !! p), (w_instr w !! p); try done.
      cbn in *. injection Hsh. congruence. }
    rewrite bind_bind, (run_in_world _ _ _ _ _ _ Hw3), bind_bind, (run_in_world _ _ _ _ _ _ Hw4).
    rewrite (run_bind _ _ _ _ _ (eq_refl : ret (ld, slot) (w4, ls') = _)). cbn [fst snd].
    destruct (prepared w4 [ld; n] ld n He4 Hnl) as (w5 & f & Hw5 & He5 & Hrw); rewrite ?Est; try done.
    { intros p op c Hp Hs. rewrite <- (Hsh p Hp) in Hs. by eapply Hsp. }
    rewrite Est in *. exists w5, ls', f, [ld; n], ld, n. split_and!; [|done..].
    by rewrite (run_in_world _ _ _ _ _ _ Hw5).
  - rewrite (run_bind _ _ _ _ _ (eq_refl : ret (n, 0) (w2, ls) = _)). cbn [fst snd].
    destruct (prepared w2 [n] n n He2 Hnl) as (w5 & f & Hw5 & He5 & Hrw); rewrite ?Est; try done.
    { intros p op c Hp Hs. exists c. rewrite (Hsh p Hp). split; [done|apply redirects_id]. }
    rewrite Est in *. exists w5, ls, f, [n], n, n. split_and!; [|done..].
    change (replace_ret g false 0 n) with (replace_ret g false slot n). by rewrite (run_in_world _ _ _ _ _ _ Hw5).
Qed.

End Instrument.

(** C7: the default instrumentation leaves one [ret].  When at most one [ret] of the method is
    not behind a tail call, nothing changes.  Otherwise a [ret] is appended, behind a load of
    a new local variable unless the method returns nothing or a reference; every [ret] that
    is not behind a tail call becomes a branch there, behind a store into that variable;
    whatever targeted such a [ret] targets its replacement; every other instruction keeps
    its opcode, its operand and its place; the graph stays consistent, so that it can be edited
    further and encoded; and the only [ret]s left are the appended one and those behind tail
    calls. *)
Theorem ApplySingleRet_leaves_one_ret import fuel {Metadata} (GetSig : Metadata -> Z -> outcome (list Z)) md
    w g m l cs mi t ls ts added :
  editable w g l cs -> method_of w g = Some m -> w_method w !! m = Some mi -> (length l <= fuel)%nat ->
  (forall p, head (rets w l) = Some p -> is_tail w l p = false) ->
  GetReturnType import fuel m w = (Ok t, w) ->
  over GetSig fuel (locals_of md (m_render mi) ls) ts added -> Z.of_nat (length added) < 2 ^ 29 ->
  ((length (replaceable w l) <= 1)%nat ->
     ApplySingleRetDefaultInstrumentation import fuel GetSig md g (w, ls) = (Ok None, (w, ls))) /\
  ((2 <= length (replaceable w l))%nat -> exists w' ls' f tail jump n,
     ApplySingleRetDefaultInstrumentation import fuel GetSig md g (w, ls) = (Ok (Some jump), (w', ls')) /\
     editable w' g (expanded f l tail) cs /\
     rewritten w w' l (stores t) (Z.of_nat (length ts + length added)) f tail jump n /\
     forall p, p ∈ expanded f l tail -> opcode_at w' p = Cee_Ret -> p = n \/ (p ∈ l /\ is_tail w l p = true)).
Proof.
  intros He Hm Hmi Hf Hh Ht Ho Ha. split; [by eapply apply_few|]. intros Hn.
  destruct (apply_many import fuel GetSig md w g m l cs mi t ls ts added He Hm Hmi Hf Hh Ht Ho Ha Hn)
    as (w' & ls' & f & tail & jump & n & Hw' & He' & Hrw).
  exists w', ls', f, tail, jump, n. split_and!; [done..|].
  intros p. by apply (rewritten_single_ret w w' g l cs (stores t) (Z.of_nat (length ts + length added)) f tail jump n p (ed_list _ _ _ _ He)).
Qed.

(** ** A method with two [ret]s: [ldarg.0; brtrue.s L; ldc.i4.0; ret; L: ldc.i4.1; ret] *)

Definition two_rets : list Z := [0x02; 0x2D; 0x02; 0x16; 0x2A; 0x17; 0x2A].

Definition two_rets_start : World := mkWorld ∅ {[1%positive := new_graph (Some 1%positive)]} ∅
  {[1%positive := mkMethod (Some []) false [] (new_render 7 0x06000001 false)]} ∅.

Definition two_rets_world : World := (DecodeInstructions 8 1 two_rets two_rets_start).2.

Definition int_method : MetaDataImport :=
  mkImport (fun _ => Err E_FAIL) (fun _ => Ok [0; 1; 8; 8]) (fun _ => Err E_FAIL) (fun _ => Err E_FAIL).

Lemma segment_unique m : forall l l' a a', segment m a l None -> segment m a' l' None ->
  first_or l None = first_or l' None -> l = l'.
Proof.
  induction l as [|p l IH]; intros [|p' l'] a a' H H' E; try done. injection E as <-.
  destruct H as [(i & Hi & _ & Hn) H], H' as [(i' & Hi' & _ & Hn') H']. f_equal.
  eapply IH; [done..|]. congruence.
Qed.

Lemma two_rets_code_ok : code_ok two_rets_start.
Proof.
  split; unfold closed, backs_ok, targets, back, class_of; cbn.
  - intros p c t. by rewrite lookup_empty.
  - intros o q. rewrite !lookup_empty. cbn. set_solver.
  - intros q i. by rewrite lookup_empty.
Qed.

Lemma two_rets_editable : editable two_rets_world 1%positive [1; 2; 3; 4; 5; 6]%positive [].
Proof.
  destruct (il_items two_rets) as [items|] eqn:Hit; [|exfalso; vm_compute in Hit; discriminate Hit].
  destruct (decode_editable 1%positive two_rets items 8 two_rets_start (new_graph (Some 1%positive)))
    as (w1 & l & Hw1 & _ & He).
  - repeat constructor; done.
  - reflexivity.
  - cbn. lia.
  - exact Hit.
  - vm_compute. reflexivity.
  - exact two_rets_code_ok.
  - reflexivity.
  - intros q. unfold owner. cbn. by rewrite lookup_empty.
  - eexists. split; [vm_compute; reflexivity|]. split; [reflexivity|]. intros c Hc. by apply elem_of_nil in Hc.
  - assert (w1 = two_rets_world) as -> by (unfold two_rets_world; by rewrite Hw1).
    assert (l = [1; 2; 3; 4; 5; 6]%positive) as <-; [|done].
    apply (segment_unique (w_instr two_rets_world) _ _ None None (gl_segment _ _ _ (ed_list _ _ _ _ He))).
    + repeat (apply segment_cons; [apply node_check; vm_compute; reflexivity|]). exact I.
    + destruct (gl_graph _ _ _ (ed_list _ _ _ _ He)) as (gr & Hgr & <- & _).
      assert (m_pFirstInstruction <$> w_graph two_rets_world !! 1%positive = Some (Some 1%positive)) as E
        by (vm_compute; reflexivity). rewrite Hgr in E. by injection E.
Qed.

Lemma two_rets_first : head (rets two_rets_world [1; 2; 3; 4; 5; 6]%positive) = Some 4%positive.
Proof. vm_compute. reflexivity. Qed.

Lemma ApplySingleRet_leaves_one_ret_witness : exists w' ls' f tail jump n,
  ApplySingleRetDefaultInstrumentation (Metadata := unit) int_method 10 (fun _ _ => Err E_FAIL) tt 1 (two_rets_world, None) =
    (Ok (Some jump), (w', ls')) /\
  editable w' 1 (expanded f [1; 2; 3; 4; 5; 6]%positive tail) [] /\
  rewritten two_rets_world w' [1; 2; 3; 4; 5; 6]%positive true 0 f tail jump n.
Proof.
  destruct (ApplySingleRet_leaves_one_ret int_method 10 (Metadata := unit) (fun _ _ => Err E_FAIL) tt two_rets_world 1 1
    [1; 2; 3; 4; 5; 6]%positive [] (mkMethod (Some []) false [] (new_render 7 0x06000001 false))
    (CSimpleType (mkBase 8 false false [])) None [] [] two_rets_editable) as [_ H].
  - vm_compute. reflexivity.
  - vm_compute. reflexivity.
  - cbn. lia.
  - intros p Hp. rewrite two_rets_first in Hp. injection Hp as <-. vm_compute. reflexivity.
  - apply (GetReturnType_frame _ _ _ two_rets_start); vm_compute; reflexivity.
  - split; try done. left. by split.
  - cbn. lia.
  - destruct H as (w' & ls' & f & tail & jump & n & H1 & H2 & H3 & _); [vm_compute; lia|].
    exists w', ls', f, tail, jump, n. split; [exact H1|]. split; [exact H2|exact H3].
Defined.
