(* ===== verification/MethodBodySpec.v ===== *)
(** What the rendered method body says: its header, its code and its clauses are those
    of the method. *)
From S2P Require Import Prelude ILOpcodes Instruction CorHeaders Store Chain BranchTargets Clauses Demo Offsets Graph Codec CodecSpec Lookups Exceptions ExceptionSpec ILMap Types Enumerator MaxStack MaxStackSpec MethodBody.

(** ** Members of the method *)

(** The world in which the method [m] holds [r]. *)
Definition with_render (m : ptr) (r : MethodRender) (w : World) : World := on_method (alter (set_render r) m) w.

Lemma run_load_render m mi w : w_method w !! m = Some mi -> load_render m w = (Ok (m_render mi), w).
Proof. intros H. unfold load_render, load_method, bind. by rewrite H. Qed.

Lemma run_update_render m mi f w :
  w_method w !! m = Some mi -> update_render m f w = (Ok tt, with_render m (f (m_render mi)) w).
Proof.
  intros H. unfold update_render, update_method, modify, with_render, on_method. do 2 f_equal.
  apply map_eq. intros n. destruct (decide (n = m)) as [->|Hn]; [|by rewrite !lookup_alter_ne].
  by rewrite !lookup_alter_eq, H.
Qed.

Lemma with_render_lookup m r mi w : w_method w !! m = Some mi -> w_method (with_render m r w) !! m = Some (set_render r mi).
Proof. intros H. cbn. by rewrite lookup_alter_eq, H. Qed.

Lemma set_render_twice r r' mi : set_render r (set_render r' mi) = set_render r mi.
Proof. by destruct mi. Qed.

Lemma set_intermediate_twice b b' r : set_intermediate b (set_intermediate b' r) = set_intermediate b r.
Proof. by destruct r. Qed.

Lemma m_render_set r mi : m_render (set_render r mi) = r.
Proof. by destruct mi. Qed.

Lemma with_render_twice m r r' w : with_render m r (with_render m r' w) = with_render m r w.
Proof.
  unfold with_render, on_method. cbn. f_equal. apply map_eq. intros n.
  destruct (decide (n = m)) as [->|Hn]; [|by rewrite !lookup_alter_ne]. rewrite !lookup_alter_eq.
  destruct (w_method w !! m); cbn; [|done]. by rewrite set_render_twice.
Qed.

Lemma only_flag_with_render m r w w1 : only_flag w w1 -> only_flag (with_render m r w) (with_render m r w1).
Proof. intros [Hi Hg Hc Hm]. split; cbn; try done. by rewrite Hm. Qed.

(** A computation that may only refresh offsets keeps the rendered method. *)
Lemma only_flag_method w w1 m mi : only_flag w w1 -> w_method w !! m = Some mi -> w_method w1 !! m = Some mi.
Proof. intros H Hm. by rewrite (of_method _ _ H). Qed.

Lemma run_store_rendered m r mi w pre old post pos bs :
  w_method w !! m = Some mi -> pos = Z.of_nat (length pre) -> length old = length bs ->
  store_rendered m pos bs (with_render m (set_intermediate (pre ++ old ++ post) r) w) =
    (Ok tt, with_render m (set_intermediate (pre ++ bs ++ post) r) w).
Proof.
  intros Hm Hp Hl. pose proof (with_render_lookup m (set_intermediate (pre ++ old ++ post) r) mi w Hm) as Hm'.
  unfold store_rendered. rewrite (run_bind _ _ _ _ _ (run_load_render _ _ _ Hm')), m_render_set.
  assert (m_pIntermediateRenderedMethod (set_intermediate (pre ++ old ++ post) r) = pre ++ old ++ post) as -> by by destruct r.
  rewrite write_at_app by done. erewrite run_bind by reflexivity.
  by rewrite (run_update_render _ _ _ _ Hm'), m_render_set, set_intermediate_twice, with_render_twice.
Qed.

(** ** The shape of the new body *)

(** Everything after the header: the code, the padding and the section, or 28 zeros. *)
Definition pad_of (n : nat) : nat := Z.to_nat (Z.land (4 - Z.land (12 + Z.of_nat n) 3) 3).

Definition tail_raw (il : list Z) (cs : list ptr) (ss : list Z) (ds : list desc) : raw :=
  written il ++ replicate (pad_of (length il)) (Some 0) ++
  match cs with [] => replicate 28 (Some 0) | _ => section_raw ss ds end.

(** The header of the new body. *)
Definition final_header (h : COR_ILMETHOD_FAT) (cs : list ptr) (size maxStack : Z) : COR_ILMETHOD_FAT :=
  mkFat (match cs with [] => Flags h | _ => Z.lor (Flags h) CorILMethod_MoreSects end) 3 (u16 maxStack) size (LocalVarSigTok h).

Definition body_raw h il cs ss ds maxStack : raw :=
  written (fat_header_bytes (final_header h cs (Z.of_nat (length il)) maxStack)) ++ tail_raw il cs ss ds.

Lemma length_section_raw ss ds : length (section_raw ss ds) = (28 + 24 * length ds)%nat.
Proof.
  unfold section_raw, written. rewrite !length_app, length_map, sect_header_len, length_replicate.
  assert (length (concat (map (desc_raw ss) ds)) = 24 * length ds)%nat as ->; [|lia].
  induction ds as [|d ds IH]; cbn [map concat length]; [lia|]. rewrite length_app, IH. unfold desc_raw, clause_raw, written.
  rewrite length_app, length_map. destruct (desc_token ss d); cbn; lia.
Qed.

Lemma pad_of_spec n : (pad_of n < 4)%nat /\ (Z.of_nat (12 + n + pad_of n)) mod 4 = 0 /\
  Z.of_nat (pad_of n) = Z.land (4 - Z.land (12 + Z.of_nat n) 3) 3.
Proof.
  unfold pad_of. change 3 with (Z.ones 2). rewrite !Z.land_ones by lia. zlia.
Qed.

Lemma sect_DataSize_run ss ds : 24 * Z.of_nat (length ds) < 2 ^ 24 ->
  sect_DataSize (section_raw ss ds) = Ok (24 * Z.of_nat (length ds)).
Proof.
  intros Hn. unfold sect_DataSize, section_raw, eh_sect_header, written. rewrite map_app, <- app_assoc.
  cbn [map le_bytes app drop take]. cbn [mapM id mret mbind option_bind option_ret].
  set (x := 24 * _) in *. change (Ok (le_val (le_bytes 3 x)) = Ok x).
  rewrite le_val_le_bytes. f_equal. apply Z.mod_small. lia.
Qed.

Lemma with_render_same m mi w : w_method w !! m = Some mi -> with_render m (m_render mi) w = w.
Proof.
  intros Hm. destruct w as [a b c d e]. unfold with_render, on_method. cbn in *. f_equal. apply map_eq. intros n.
  destruct (decide (n = m)) as [->|Hn]; [|by rewrite lookup_alter_ne]. rewrite lookup_alter_eq, Hm. by destruct mi.
Qed.

(** The same for a buffer that is known in the world of the store. *)
Lemma store_rendered_step m r mi w pre old post pos bs :
  w_method w !! m = Some mi -> m_render mi = set_intermediate (pre ++ old ++ post) r ->
  pos = Z.of_nat (length pre) -> length old = length bs ->
  store_rendered m pos bs w = (Ok tt, with_render m (set_intermediate (pre ++ bs ++ post) r) w).
Proof.
  intros Hm Hr Hp Hl. rewrite <- (with_render_same m mi w Hm) at 1. rewrite Hr. by eapply run_store_rendered.
Qed.

Lemma MoreSects_facts f : 0 <= f < 2 ^ 12 -> Z.land f 7 = 3 ->
  0 <= Z.lor f 8 < 2 ^ 12 /\ Z.land (Z.lor f 8) 7 = 3 /\ Z.land (Z.lor f 8) 8 <> 0.
Proof.
  intros Hf H7. set (P f := negb (Z.land f 7 =? 3) || ((0 <=? Z.lor f 8) && (Z.lor f 8 <? 2 ^ 12) &&
    (Z.land (Z.lor f 8) 7 =? 3) && negb (Z.land (Z.lor f 8) 8 =? 0))).
  assert (P f = true) as H by (apply (range_forall (2 ^ 12) P); [vm_compute; reflexivity|done]).
  unfold P in H. rewrite H7 in H. cbn [Z.eqb Pos.eqb negb orb] in H.
  rewrite !andb_true_iff, negb_true_iff, Z.ltb_lt, Z.leb_le, Z.eqb_eq, Z.eqb_neq in H. tauto.
Qed.

Lemma not_tiny f : 0 <= f < 2 ^ 12 -> Z.land f 7 = 3 -> Tiny_IsTiny (f mod 256) = false.
Proof.
  intros Hf H7. set (P f := negb (Z.land f 7 =? 3) || negb (Tiny_IsTiny (f mod 256))).
  assert (P f = true) as H by (apply (range_forall (2 ^ 12) P); [vm_compute; reflexivity|done]).
  unfold P in H. rewrite H7 in H. by apply negb_true_iff in H.
Qed.

(** ** The run *)

Record renderable (fuel : nat) (w : World) (g m : ptr) (mi : CMethodInfo) (l : list ptr) (ss : list Z)
    (cs : list ptr) (ds : list desc) : Prop := {
  rd_graph : up_to_date fuel w g l ss;
  rd_method : w_method w !! m = Some mi;
  rd_clauses : m_exceptionClauses mi = Some cs;
  rd_instructions : m_pInstructionGraph (m_render mi) = Some g;
  rd_size : Size (m_newCorHeader (m_render mi)) = 3;
  rd_header : header_ok (m_newCorHeader (m_render mi));
  rd_fat : Fat_IsFat (m_newCorHeader (m_render mi)) = true;
  rd_first : m_pIntermediateRenderedMethod (m_render mi) = [];
  rd_code : Z.of_nat (length (m_pILStream (m_render mi))) < 2 ^ 31;
  rd_few : 24 * Z.of_nat (length cs) < 2 ^ 24;
  rd_ok : Forall (desc_ok l) ds;
  rd_descs : Forall2 (fun c d => w_clause w !! c = Some (d_cl d)) cs ds
}.

Section Run.

Context (import : MetaDataImport) (fuel : nat) (w : World) (g m : ptr) (mi : CMethodInfo).
Context (l : list ptr) (ss : list Z) (cs : list ptr) (ds : list desc) (v : Z).
Hypothesis Hrd : renderable fuel w g m mi l ss cs ds.

Let r := m_render mi.
Let h := m_newCorHeader r.
Let il := m_pILStream r.

(** The result of [CalculateMaxStack] does not depend on the new buffer. *)
Hypothesis Hmax : forall buf, settled (with_render m (set_intermediate buf r) w) (CalculateMaxStack import fuel g) v.

Let extra : Z := match cs with [] => 28 | _ => 28 + 24 * Z.of_nat (length cs) end.

Let sect : option raw := match cs with [] => None | _ => Some (section_raw ss ds) end.

Lemma extra_run w1 :
  (match sect with
   | None => ret sizeof_SECT_EH_FAT
   | Some sect => d <- lift (sect_DataSize sect) ;; ret (u32 (sizeof_SECT_EH_FAT + d))
   end : W Z) w1 = (Ok extra, w1).
Proof using Hrd.
  destruct Hrd as [_ _ _ _ _ _ _ _ _ Hfew _ Hds]. pose proof (Forall2_length _ _ _ Hds) as Hlen. rewrite Hlen in Hfew.
  unfold sect, extra. rewrite Hlen. destruct cs as [|c cs']; [done|]. rewrite sect_DataSize_run by done.
  rewrite (run_bind _ _ _ _ _ (eq_refl : lift (Ok _) w1 = _)). unfold sizeof_SECT_EH_FAT, sizeof_CLAUSE_FAT.
  by rewrite u32_small by (unfold is_u32; lia).
Qed.

Lemma length_header hd : length (written (fat_header_bytes hd)) = 12%nat.
Proof. reflexivity. Qed.

Lemma extra_range : 0 <= extra < 2 ^ 25.
Proof using Hrd. unfold extra. pose proof (rd_few _ _ _ _ _ _ _ _ _ Hrd). destruct cs; lia. Qed.

(** The section is copied as it is. *)
Lemma section_take s : sect = Some s -> Z.of_nat (length s) = extra.
Proof using Hrd.
  pose proof (Forall2_length _ _ _ (rd_descs _ _ _ _ _ _ _ _ _ Hrd)) as Hlen. unfold sect, extra.
  destruct cs as [|c cs']; [done|]. intros [= <-]. rewrite length_section_raw, Hlen. lia.
Qed.

(** The stores after [CalculateMaxStack], into a buffer that starts with a header. *)
Lemma stores_run w2 mi2 hd :
  let n := Z.of_nat (length il) in
  w_method w2 !! m = Some mi2 ->
  m_render mi2 = set_intermediate (written (fat_header_bytes hd) ++
    replicate (length il + pad_of (length il) + Z.to_nat extra) (Some 0)) r ->
  (store_rendered m 0 (written (fat_header_bytes (final_header h cs n v))) ;;;
   (if 0 <? n then
      src <- lift (of_option OutOfBoundsRead (read_at il 0 (Z.to_nat n))) ;;
      store_rendered m FAT_HEADER_SIZE (written src)
    else ret tt) ;;;
   match sect with
   | None => ret tt
   | Some sect =>
       if Z.of_nat (length sect) <? extra then undefined OutOfBoundsRead
       else store_rendered m (FAT_HEADER_SIZE + n + Z.of_nat (pad_of (length il))) (take (Z.to_nat extra) sect)
   end) w2 = (Ok tt, with_render m (set_intermediate (body_raw h il cs ss ds v) r) w2).
Proof using Hrd.
  intros n Hm2 Hr2. rewrite !replicate_add in Hr2. set (hd' := fat_header_bytes (final_header h cs n v)).
  erewrite run_bind by (apply (store_rendered_step m r mi2 w2 [] _ _ 0 _ Hm2 Hr2); [done|reflexivity]).
  cbn [app]. set (w3 := with_render m _ w2). pose proof (with_render_lookup m _ mi2 w2 Hm2 : w_method w3 !! m = _) as Hm3.
  set (mi3 := set_render _ mi2) in Hm3.
  assert ((if 0 <? n then
      src <- lift (of_option OutOfBoundsRead (read_at il 0 (Z.to_nat n))) ;;
      store_rendered m FAT_HEADER_SIZE (written src)
    else ret tt) w3 = (Ok tt, with_render m (set_intermediate (written hd' ++ written il ++
      replicate (pad_of (length il)) (Some 0) ++ replicate (Z.to_nat extra) (Some 0)) r) w2)) as Hil.
  { destruct (Z.ltb_spec 0 n) as [Hn|Hn].
    - assert (read_at il 0 (Z.to_nat n) = Some il) as ->.
      { unfold n. rewrite Nat2Z.id. rewrite <- (app_nil_r il) at 1. apply read_at_here. }
      erewrite run_bind by reflexivity.
      erewrite (store_rendered_step m r mi3 w3 (written hd') (replicate (length il) (Some 0)) _ FAT_HEADER_SIZE (written il) Hm3).
      + unfold w3. by rewrite with_render_twice.
      + unfold mi3. rewrite m_render_set. f_equal. unfold hd'. by rewrite <- !app_assoc.
      + reflexivity.
      + unfold written. by rewrite length_replicate, length_map.
    - unfold w3, ret, hd'. assert (il = []) as -> by (apply nil_length_inv; unfold n in Hn; lia). done. }
  rewrite (run_bind _ _ _ _ _ Hil). set (w4 := with_render m _ w2).
  pose proof (with_render_lookup m _ mi2 w2 Hm2 : w_method w4 !! m = _) as Hm4.
  unfold body_raw, tail_raw. pose proof section_take as Hst. destruct sect as [s|] eqn:Es.
  - specialize (Hst s eq_refl). rewrite Hst, Z.ltb_irrefl, <- Hst, Nat2Z.id, take_ge by lia.
    erewrite (store_rendered_step m r _ w4 (written hd' ++ written il ++ replicate (pad_of (length il)) (Some 0))
      (replicate (Z.to_nat extra) (Some 0)) [] _ s Hm4).
    + unfold w4. rewrite with_render_twice. do 3 f_equal. rewrite app_nil_r, <- !app_assoc. unfold sect in Es.
      destruct cs; [done|]. by injection Es as ->.
    + rewrite m_render_set. f_equal. by rewrite app_nil_r, <- !app_assoc.
    + rewrite !length_app. unfold written. rewrite !length_map, length_replicate. unfold FAT_HEADER_SIZE, n.
      change (length hd') with 12%nat. lia.
    + rewrite length_replicate. lia.
  - unfold ret, w4. do 3 f_equal. unfold sect, extra in *. by destruct cs.
Qed.

Lemma CreateILFunctionBody_run : exists w',
  CreateILFunctionBody import fuel m w = (Ok tt, w') /\
  only_flag (with_render m (set_intermediate (body_raw h il cs ss ds v) r) w) w'.
Proof using Hrd Hmax.
  destruct Hrd as [Hud Hm Hcs Hg Hsz Hh _ Hnew Hil Hfew Hok Hds]. fold r in Hg, Hsz, Hh, Hnew, Hil. fold h in Hsz, Hh. fold il in Hil.
  pose proof extra_range as Hex. pose proof (pad_of_spec (length il)) as (Hp4 & _ & Hpad).
  destruct (CreateExceptionHeader_run fuel w g l ss m cs ds Hud (ex_intro _ mi (conj Hm Hcs)) Hfew Hok Hds w (reflexivity w))
    as (w1 & Hw1 & H1). change (match cs with [] => None | _ => _ end) with sect in Hw1.
  pose proof (only_flag_method _ _ _ _ H1 Hm) as Hm1.
  set (b0 := replicate (12 + (length il + pad_of (length il) + Z.to_nat extra)) (Some 0 : option Z)).
  set (b1 := written (fat_header_bytes h) ++ replicate (length il + pad_of (length il) + Z.to_nat extra) (Some 0)).
  destruct (Hmax b1 _ (only_flag_with_render m (set_intermediate b1 r) w w1 H1)) as (w2 & Hw2 & H2).
  pose proof (only_flag_method _ _ _ _ H2 (with_render_lookup m _ mi w Hm)) as Hm2.
  exists (with_render m (set_intermediate (body_raw h il cs ss ds v) r) w2). split; cycle 1.
  { apply (only_flag_with_render m (set_intermediate (body_raw h il cs ss ds v) r)) in H2. by rewrite with_render_twice in H2. }
  unfold CreateILFunctionBody. assert (load_method m w = (Ok mi, w)) as E by (unfold load_method; by rewrite Hm).
  rewrite (run_bind _ _ _ _ _ E). fold r h il. rewrite Hnew, Hcs, Hg, bool_decide_true by done.
  cbn [if_false_ret deref]. do 2 erewrite run_bind by reflexivity. rewrite (run_bind _ _ _ _ _ Hw1).
  rewrite (run_bind _ _ _ _ _ (extra_run w1)). rewrite Hsz.
  replace (u32 (3 * 4 + u32 (Z.of_nat (length il)))) with (12 + Z.of_nat (length il)) by (rewrite !u32_small; unfold is_u32; rewrite ?u32_small; unfold is_u32; lia).
  rewrite <- Hpad. unfold FAT_HEADER_SIZE.
  rewrite !(u32_small (12 + Z.of_nat (length il) - 0xC)) by (unfold is_u32; lia).
  rewrite (u32_small (_ + _ + extra)) by (unfold is_u32; lia).
  replace (12 + Z.of_nat (length il) - 0xC) with (Z.of_nat (length il)) by lia.
  replace (Z.to_nat (12 + Z.of_nat (length il) + Z.of_nat (pad_of (length il)) + extra))
    with (12 + (length il + pad_of (length il) + Z.to_nat extra))%nat by lia. fold b0.
  rewrite (run_bind _ _ _ _ _ (run_update_render m mi _ w1 Hm1)). fold r.
  assert (store_rendered m 0 (written (fat_header_bytes h)) (with_render m (set_intermediate b0 r) w1) =
    (Ok tt, with_render m (set_intermediate b1 r) w1)) as Hs0.
  { unfold b0. rewrite replicate_add. by apply (run_store_rendered m r mi w1 [] _ _ 0 _ Hm1). }
  rewrite (run_bind _ _ _ _ _ Hs0). erewrite run_bind by reflexivity. rewrite (run_bind _ _ _ _ _ Hw2).
  pose proof (stores_run w2 _ h Hm2 (m_render_set _ _)) as Hst. cbv zeta in Hst. unfold FAT_HEADER_SIZE in Hst.
  replace (match sect with None => _ | Some _ => header_OrFlags CorILMethod_MoreSects _ end)
    with (final_header h cs (Z.of_nat (length il)) v); [exact Hst|].
  unfold final_header, sect. destruct h as [fl sz ms cz tk]. cbn in Hsz. subst sz. cbn [header_SetCodeSize header_SetMaxStack].
  rewrite u32_small by (unfold is_u32; lia). by destruct cs.
Qed.

End Run.

(** ** Reading the new body *)

Lemma final_header_ok h cs size v :
  header_ok h -> Fat_IsFat h = true -> 0 <= size < 2 ^ 31 ->
  header_ok (final_header h cs size v) /\ Z.land (Flags (final_header h cs size v)) 7 = 3 /\
  (cs <> [] -> Fat_HasSEH (final_header h cs size v) = true).
Proof.
  intros (Hf & _ & _ & Ht) Hfat%Z.eqb_eq Hs. destruct (MoreSects_facts (Flags h) Hf Hfat) as (H1 & H2 & H3).
  pose proof (Z.mod_pos_bound v (2 ^ 16)). unfold header_ok, final_header, Fat_HasSEH, u16, is_u32. cbn [Flags MaxStack CodeSize LocalVarSigTok].
  change CorILMethod_MoreSects with 8.
  destruct cs as [|c cs]; split_and!; try done; try (unfold is_u32 in *; lia); intros _; by apply negb_true_iff, Z.eqb_neq.
Qed.

Section Reading.

Context (h : COR_ILMETHOD_FAT) (il : list Z) (cs : list ptr) (ss : list Z) (ds : list desc) (v : Z).
Hypothesis Hh : header_ok h.
Hypothesis Hfat : Fat_IsFat h = true.
Hypothesis Hil : Z.of_nat (length il) < 2 ^ 31.

Let h' := final_header h cs (Z.of_nat (length il)) v.
Let sect_pos : nat := (12 + length il + pad_of (length il))%nat.

(** The parts of the bytes that a rendered body may hold. *)
Lemma fills_body bs : fills (body_raw h il cs ss ds v) bs ->
  exists rest, bs = (fat_header_bytes h' ++ il ++ replicate (pad_of (length il)) 0) ++ rest /\
    fills (match cs with [] => replicate 28 (Some 0) | _ => section_raw ss ds end) rest.
Proof using.
  intros (b1 & b2 & -> & ->%fills_written & H)%fills_app. apply fills_app in H as (b3 & b4 & -> & ->%fills_written & H).
  apply fills_app in H as (b5 & b6 & -> & H5 & H6). exists b6. split; [|done].
  assert (written (replicate (pad_of (length il)) 0) = replicate (pad_of (length il)) (Some 0)) as E by apply fmap_replicate.
  rewrite <- E in H5. apply fills_written in H5 as ->. by rewrite <- !app_assoc.
Qed.

Let pre := fat_header_bytes h' ++ il ++ replicate (pad_of (length il)) 0.

Lemma pre_length : length pre = sect_pos.
Proof using. unfold pre, sect_pos. rewrite !length_app, length_replicate. change (length (fat_header_bytes h')) with 12%nat. lia. Qed.

Lemma read_header rest : read_fat_header (pre ++ rest) 0 = Ok h' /\
  (exists b, read_byte (pre ++ rest) 0 = Ok b /\ Tiny_IsTiny b = false) /\
  read_at (pre ++ rest) 12 (length il) = Some il.
Proof using Hh Hfat Hil.
  destruct (final_header_ok h cs (Z.of_nat (length il)) v Hh Hfat ltac:(lia)) as (Hok & H7 & _). fold h' in Hok, H7.
  unfold pre. rewrite <- !app_assoc. split; [|split].
  - apply read_fat_header_bytes; [apply read_at_here|done|]. change (Size h') with 3. lia.
  - eexists. split; [apply (read_byte_mid [])|]. rewrite <- (not_tiny (Flags h')) by (done || apply Hok).
    f_equal. change (Size h') with 3. Z.to_euclidean_division_equations. lia.
  - rewrite read_at_app_r by done. apply read_at_here.
Qed.

Lemma sect_at rest : DecoderInit (pre ++ rest) 0 =
  if Fat_HasSEH h' then
    k <~ Sect_Kind (pre ++ rest) (Z.of_nat sect_pos) ;;
    if k =? CorILMethod_Sect_EHTable then
      n <~ Sect_Next (pre ++ rest) (Z.of_nat sect_pos) ;; Ok (12, Some (Z.of_nat sect_pos), n)
    else Ok (12, None, Some (Z.of_nat sect_pos))
  else Ok (12, None, None).
Proof using Hh Hfat Hil.
  unfold DecoderInit. rewrite (proj1 (read_header rest)). cbn [obind]. unfold Fat_GetSect.
  assert (Fat_GetCode 0 h' = 12) as -> by done. destruct (Fat_HasSEH h'); cbn [negb]; [|done].
  assert (Align (12 + CodeSize h') = Z.of_nat sect_pos) as ->; [|done].
  change (CodeSize h') with (Z.of_nat (length il)). destruct (pad_of_spec (length il)) as (Hp & Hm & _).
  unfold Align, sect_pos. zlia.
Qed.

(** Reading a section that is not there: nothing, or 28 zeros. *)
Lemma Initialize_none fuel g m' rest w :
  cs = [] -> fills (replicate 28 (Some 0)) rest -> Exceptions.Initialize g fuel m' (pre ++ rest) w = (Ok tt, w).
Proof using Hh Hfat Hil.
  intros Hcs Hrest. unfold Exceptions.Initialize. destruct (read_header rest) as (Hhd & (b & Hb & Htiny) & _).
  rewrite Hb, (run_bind _ _ _ _ _ (eq_refl : lift (Ok b) w = _)), Htiny, Hhd, (run_bind _ _ _ _ _ (eq_refl : lift (Ok _) w = _)).
  pose proof (sect_at rest) as Hdec. destruct (Fat_HasSEH h'); cbn [negb]; [|done].
  assert (Sect_Kind (pre ++ rest) (Z.of_nat sect_pos) = Ok 0) as Hk.
  { assert (replicate 28 (Some 0) = written (replicate 28 0)) as E by reflexivity. rewrite E in Hrest.
    apply fills_written in Hrest as ->. unfold Sect_Kind, Sect_kindByte.
    by rewrite <- pre_length, (read_byte_mid _ 0 (replicate 27 0) []). }
  rewrite Hk in Hdec. cbn [obind Z.eqb CorILMethod_Sect_EHTable] in Hdec. rewrite Hdec.
  rewrite (run_bind _ _ _ _ _ (eq_refl : lift (Ok _) w = _)). cbn [fst snd]. by destruct fuel.
Qed.

(** Reading the section of some clauses. *)
Lemma Initialize_some fuel g l m' rest w cs0 :
  cs <> [] -> fills (section_raw ss ds) rest -> (0 < fuel)%nat -> 24 * Z.of_nat (length ds) < 2 ^ 24 ->
  up_to_date fuel w g l ss -> Forall (desc_ok l) ds -> section_of w m' cs0 ->
  exists w2 cs', Exceptions.Initialize g fuel m' (pre ++ rest) w = (Ok tt, w2) /\ section_of w2 m' (cs0 ++ cs') /\
    Forall2 (fun c d => w_clause w2 !! c = Some (d_cl d)) cs' ds.
Proof using Hh Hfat Hil.
  intros Hcs Hrest Hfuel Hn Hud Hok Hsec. unfold Exceptions.Initialize. destruct (read_header rest) as (Hhd & (b & Hb & Htiny) & _).
  rewrite Hb, (run_bind _ _ _ _ _ (eq_refl : lift (Ok b) w = _)), Htiny, Hhd, (run_bind _ _ _ _ _ (eq_refl : lift (Ok _) w = _)).
  pose proof (sect_at rest) as Hdec.
  destruct (final_header_ok h cs (Z.of_nat (length il)) v Hh Hfat ltac:(lia)) as (_ & _ & Hseh). fold h' in Hseh.
  rewrite Hseh in * by done. cbn [negb].
  apply fills_app in Hrest as (b1 & b2 & -> & ->%fills_written & Hb2). apply fills_app in Hb2 as (b3 & b4 & -> & Hb3 & _).
  destruct (sect_header_facts pre (length ds) (b3 ++ b4) Hn) as (Hf & Hmore & _).
  assert (Sect_Kind (pre ++ eh_sect_header (length ds) ++ b3 ++ b4) (Z.of_nat (length pre)) = Ok 1) as Hk.
  { unfold Sect_Kind. assert (Sect_kindByte (pre ++ eh_sect_header (length ds) ++ b3 ++ b4) (Z.of_nat (length pre)) = Ok 0x41) as ->;
      [apply (read_byte_mid pre _ (le_bytes 3 (24 * Z.of_nat (length ds))))|done]. }
  rewrite <- pre_length, Hk in Hdec. unfold Sect_Next in Hdec. rewrite Hmore in Hdec.
  cbn [obind negb Z.eqb Pos.eqb CorILMethod_Sect_EHTable] in Hdec. rewrite Hdec.
  rewrite (run_bind _ _ _ _ _ (eq_refl : lift (Ok _) w = _)). cbn [fst snd]. rewrite (app_assoc _ b3 b4).
  destruct (init_sections_run fuel w g l ss m' ds b3 pre b4 cs0) as (w2 & cs' & Hw2 & Hs2 & Hc2 & _); try done.
  by exists w2, cs'.
Qed.

End Reading.

(** C2: the body that [CreateILFunctionBody] renders can be read back: whatever is in
    the bytes that it leaves unwritten, its header is the fat header of the method with
    the new code size and the depth (16 bits of it) that [CalculateMaxStack] gave, the
    code behind it is the instruction stream, and [CExceptionSection::Initialize] finds
    the section wherever the padding put it and reads the same clauses in the same order,
    also when a method that had clauses has none left. *)
Theorem CreateILFunctionBody_roundtrip import fuel w g m mi l ss cs ds v :
  renderable fuel w g m mi l ss cs ds -> (0 < fuel)%nat ->
  (forall buf, settled (with_render m (set_intermediate buf (m_render mi)) w) (CalculateMaxStack import fuel g) v) ->
  let h := m_newCorHeader (m_render mi) in let il := m_pILStream (m_render mi) in
  exists r w', CreateILFunctionBody import fuel m w = (Ok tt, w') /\
    m_pIntermediateRenderedMethod <$> (m_render <$> w_method w' !! m) = Some r /\
    forall bs, fills r bs ->
      (exists b, read_byte bs 0 = Ok b /\ Tiny_IsTiny b = false) /\
      read_fat_header bs 0 = Ok (final_header h cs (Z.of_nat (length il)) v) /\
      read_at bs 12 (length il) = Some il /\
      forall m' cs0, section_of w' m' cs0 -> exists w2 cs',
        Exceptions.Initialize g fuel m' bs w' = (Ok tt, w2) /\ section_of w2 m' (cs0 ++ cs') /\
        Forall2 (fun c' c => w_clause w2 !! c' = w_clause w !! c) cs' cs.
Proof.
  intros Hrd Hfuel Hmax h il. destruct (CreateILFunctionBody_run import fuel w g m mi l ss cs ds v Hrd Hmax) as (w' & Hw' & H1).
  pose proof Hrd as [Hud Hm _ _ _ Hh Hfat _ Hil Hfew Hok Hds]. fold h in Hh, Hfat. fold il in Hil.
  exists (body_raw h il cs ss ds v), w'. split; [done|]. split.
  { rewrite (of_method _ _ H1). cbn. rewrite lookup_alter_eq, Hm. cbn. rewrite m_render_set. by destruct (m_render mi). }
  intros bs (rest & -> & Hrest)%fills_body. destruct (read_header h il cs v Hh Hfat Hil rest) as (Hhd & (b & Hb & Htiny) & Hcode).
  split_and!; [by exists b|done|done|]. intros m' cs0 Hsec. pose proof (Forall2_length _ _ _ Hds) as Hlen. destruct cs as [|c cs1] eqn:Ecs.
  - exists w', []. rewrite app_nil_r. split_and!; [by eapply Initialize_none|done|constructor].
  - destruct (Initialize_some h il (c :: cs1) ss ds v Hh Hfat Hil fuel g l m' rest w' cs0) as (w2 & cs' & Hw2 & Hs2 & Hc2); try done.
    + by rewrite <- Hlen.
    + apply (up_to_date_flag _ _ _ _ _ _ H1). by apply (up_to_date_frame fuel w).
    + exists w2, cs'. split_and!; [done..|]. by eapply clauses_agree.
Qed.

(** The method [ldc.i4.0; brtrue.s L; nop; L: ret] with a finally clause. *)
Definition body_desc : desc :=
  mkDesc (mkClause COR_ILEXCEPTION_CLAUSE_FINALLY (Some 1%positive) (Some 2%positive)
    (Some 3%positive) (Some 3%positive) None mdTokenNil) 0 1 2 2 None.

Definition body_render : MethodRender :=
  mkRender 7 0x06000001 false (Some 1%positive) (mkFat 0x13 3 8 5 0) true [0x16; 0x2D; 0x01; 0x00; 0x2A] [] [] None false false 0.

Definition body_demo : World := mkWorld (w_instr stack_demo) (w_graph stack_demo) {[ 1%positive := d_cl body_desc ]}
  {[ 1%positive := mkMethod (Some [1%positive]) false [] body_render ]} ∅.

Lemma body_demo_ready buf : code_ready (with_render 1 (set_intermediate buf body_render) body_demo) 1 1
  [1; 2; 3; 4]%positive [1; 2; 1; 1] [1%positive].
Proof.
  destruct stack_demo_ready. split; try done.
  - destruct stack_demo_graph. by split.
  - eexists. split; [vm_compute; reflexivity|]. split; [reflexivity|]. intros c ->%list_elem_of_singleton. by eexists.
Qed.

Lemma body_demo_max buf :
  settled (with_render 1 (set_intermediate buf body_render) body_demo) (CalculateMaxStack void_import 8 1) 1.
Proof.
  destruct (CalculateMaxStack_run void_import 8 _ 1 1 _ _ _ [Some 1; Some (-1); Some 0; Some 0]
    (fun k => if decide (k = 1%nat) then 1 else 0) (body_demo_ready buf)) as (v & Hv & _).
  - repeat apply Forall2_cons_2; [..|apply Forall2_nil_2].
    all: split; [|done]; eexists; split; [vm_compute; reflexivity|]; split; [eexists; split; [vm_compute; reflexivity|done]|].
    all: intros depth w1 H1; exists w1; split; [|done]; pose proof (of_method _ _ H1) as Hm; clear H1.
    all: destruct w1 as [w_i w_g w_c w_m w_l]; cbn in Hm; subst w_m; vm_compute; reflexivity.
  - by destruct stack_demo_depths.
  - cbn. lia.
  - destruct (Hv _ (reflexivity _)) as (w' & E & _). vm_compute in E. injection E as Ev _. by rewrite Ev.
Qed.

Lemma body_demo_renderable :
  renderable 8 body_demo 1 1 (mkMethod (Some [1%positive]) false [] body_render) [1; 2; 3; 4]%positive [1; 2; 1; 1]
    [1%positive] [body_desc].
Proof.
  destruct stack_demo_ready. split; try done.
  - split; try done; [destruct stack_demo_graph; by split|cbn; lia|repeat constructor].
  - repeat constructor; cbn; try (eexists; split; reflexivity); try done; unfold is_u32; cbn; lia.
  - repeat constructor.
Qed.

Lemma CreateILFunctionBody_roundtrip_witness : exists r w', CreateILFunctionBody void_import 8 1 body_demo = (Ok tt, w') /\
  read_fat_header (map (default 0xCC) r) 0 = Ok (mkFat 0x1B 3 1 5 0) /\
  exists w2 cs', Exceptions.Initialize 1 8 1 (map (default 0xCC) r) w' = (Ok tt, w2) /\
    Forall2 (fun c' c => w_clause w2 !! c' = w_clause body_demo !! c) cs' [1%positive].
Proof.
  destruct (CreateILFunctionBody_roundtrip void_import 8 body_demo 1 1 _ _ _ _ _ 1 body_demo_renderable ltac:(lia) body_demo_max)
    as (r & w' & Hw' & Hr & Hall).
  exists r, w'. split; [exact Hw'|]. assert (fills r (map (default 0xCC) r)) as Hf.
  { vm_compute in Hw'. injection Hw' as <-. vm_compute in Hr. injection Hr as <-. split; vm_compute.
    - repeat constructor; congruence.
    - repeat constructor. }
  destruct (Hall _ Hf) as (_ & Hh & _ & Hi). split; [exact Hh|].
  destruct (Hi 1%positive [1%positive]) as (w2 & cs' & H2 & _ & Hc).
  - vm_compute in Hw'. injection Hw' as <-. eexists. split; vm_compute; reflexivity.
  - exists w2, cs'. split; [exact H2|exact Hc].
Defined.
