(* ===== verification/Delivery.v ===== *)
(** One instrumentation pass: the instrumentation methods are asked in order of their
    priority and edit the method, the raw profiler sees the intermediate body, and the
    final body is given to the runtime ([CProfilerManager::JITCompilationStarted] and
    [GetReJITParameters], [CMethodInfo::ApplyFinalInstrumentation]). *)
From S2P Require Import Prelude ILOpcodes Instruction CorHeaders Store BranchTargets Clauses Graph Codec Exceptions ILMap LocalVars MaxStack MethodBody.

(** ** What the engine does, in order *)

(** A method body is bytes, or a buffer of the user that the engine does not read. *)
Inductive Body :=
  | Rendered (bytes : list (option Z))
  | UserBuffer (address : Z).

(** The calls on [ICorProfilerInfo] for a method that is jitted, and on
    [ICorProfilerFunctionControl] for one that is rejitted. *)
Inductive RuntimeCall :=
  | Alloc (cbMethodBody : Z)
  | SetILFunctionBody (pFunction : Body)
  | SetILInstrumentedCodeMap (functionId : Z) (map : list COR_IL_MAP)
  | Control_SetILFunctionBody (cbMethodBody : Z) (pMethodBody : Body)
  | Control_SetCodegenFlags (flags : Z)
  | Control_SetILInstrumentedCodeMap (map : list COR_IL_MAP).

Inductive Event :=
  | ShouldInstrument (classId : Z)
  | BeforeInstrument (classId : Z)
  | Instrument (classId : Z)
  | RawCallback
  | Runtime (c : RuntimeCall)
  | InstrumentationComplete (classId : Z).

Section Delivery.

Context (import : MetaDataImport) (fuel : nat).
Context {Metadata : Type}.
Context (GetSigFromToken : Metadata -> Z -> outcome (list Z)).
Context (GetTokenFromSig : list Z -> Metadata -> outcome Z * Metadata).

(** What the instrumentation methods and the raw profiler work on: the objects of the
    method, and the members [m_instrumentedMethods] and [m_methodTokenToRejitCountMap]
    of its module. *)
Record Session := mkSession {
  ss_state : State (Metadata := Metadata);
  m_instrumentedMethods : gset Z;
  m_methodTokenToRejitCountMap : gmap Z Z
}.

Notation S_ := (M Session).

Definition in_state {A} (x : M State A) : S_ A := fun s =>
  let '(r, st) := x (ss_state s) in (r, mkSession st (m_instrumentedMethods s) (m_methodTokenToRejitCountMap s)).

Definition in_method {A} (x : W A) : S_ A := in_state (in_world x).

(** [CModuleInfo::SetMethodIsTransformed], [IncrementMethodRejitCount] and
    [GetMethodRejitCount] *)
Definition SetMethodIsTransformed (methodDef : Z) (isInstrumented : bool) : S_ unit := modify (fun s =>
  mkSession (ss_state s)
    (if isInstrumented then {[ methodDef ]} ∪ m_instrumentedMethods s else m_instrumentedMethods s ∖ {[ methodDef ]})
    (m_methodTokenToRejitCountMap s)).

Definition IncrementMethodRejitCount (token : Z) : S_ unit := modify (fun s =>
  mkSession (ss_state s) (m_instrumentedMethods s)
    (match m_methodTokenToRejitCountMap s !! token with
     | None => <[token := 1]> (m_methodTokenToRejitCountMap s)
     | Some n => <[token := u32 (n + 1)]> (m_methodTokenToRejitCountMap s)
     end)).

Definition GetMethodRejitCount (token : Z) : S_ Z :=
  gets (fun s => default 0 (m_methodTokenToRejitCountMap s !! token)).

(** ** The raw profiler's side *)

(** [CMethodInfo::GetIntermediateRenderedFunctionBody] *)
Definition GetIntermediateRenderedFunctionBody (m : ptr) : W (list (option Z)) :=
  r <- load_render m ;;
  if negb (m_bIsInstrumented r) || bool_decide (m_pIntermediateRenderedMethod r = []) then fail E_FAIL
  else ret (m_pIntermediateRenderedMethod r).

(** [CMethodInfo::SetFinalRenderedFunctionBody] on a buffer, given by its address and
    its bytes, or a null pointer. *)
Definition SetFinalRenderedFunctionBody (m : ptr) (pMethodHeader : option (Z * list (option Z))) (cbMethodSize : Z) : S_ unit :=
  buffer <- if_null_ret pMethodHeader E_POINTER ;;
  in_method (update_render m (set_instrumented true)) ;;;
  r <- in_method (load_render m) ;;
  if 0 <? cbMethodSize then
    if_false_ret (bool_decide (m_pFinalRenderedMethod r = [])) E_FAIL ;;;
    SetMethodIsTransformed (m_tkFunction r) true ;;;
    (if Z.of_nat (length (snd buffer)) <? cbMethodSize then undefined OutOfBoundsRead else ret tt) ;;;
    in_method (update_render m (set_final (take (Z.to_nat cbMethodSize) (snd buffer))))
  else
    SetMethodIsTransformed (m_tkFunction r) true ;;;
    in_method (update_render m (set_userBuffer (Some (fst buffer)))).

(** [CCorProfilerFunctionInfoWrapper]: what a raw profiler may ask for during a rejit. *)
Definition Wrapper_SetCodegenFlags (m : ptr) (flags : Z) : S_ unit :=
  in_method (update_render m (fun r => set_codeGenFlags (Z.lor (m_dwRejitCodeGenFlags r) flags) r)).
Definition Wrapper_SetILFunctionBody (m : ptr) (cbNewILMethodHeader : Z) (pbNewILMethodHeader : option (Z * list (option Z))) : S_ unit :=
  SetFinalRenderedFunctionBody m pbNewILMethodHeader cbNewILMethodHeader.
Definition Wrapper_SetILInstrumentedCodeMap (m : ptr) (rgILMapEntries : list COR_IL_MAP) : S_ unit :=
  in_method (MergeILInstrumentedCodeMap m false rgILMapEntries) ;;; ret tt.

(** ** Delivery *)

(** [CMethodInfo::GetFinalInstrumentation] *)
Definition GetFinalInstrumentation (r : MethodRender) : Z * Body :=
  match m_pFinalRenderedMethod r with
  | [] =>
      match m_userDefinedBuffer r with
      | None => (u32 (Z.of_nat (length (m_pIntermediateRenderedMethod r))), Rendered (m_pIntermediateRenderedMethod r))
      | Some a => (0, UserBuffer a)
      end
  | final => (u32 (Z.of_nat (length final)), Rendered final)
  end.

(** The answer of the runtime to a call, given what happened before.  A failing [Alloc]
    is one that returns a null pointer, to which [memcpy_s] does not copy. *)
Context (respond : list Event -> RuntimeCall -> outcome unit).

Record Engine := mkEngine { en_session : Session; en_events : list Event }.

Notation E_ := (M Engine).

Definition in_session {A} (x : S_ A) : E_ A := fun e =>
  let '(r, s) := x (en_session e) in (r, mkEngine s (en_events e)).

Definition happens (ev : Event) : E_ unit := modify (fun e => mkEngine (en_session e) (en_events e ++ [ev])).

Definition call (c : RuntimeCall) : E_ unit := fun e =>
  (respond (en_events e) c, mkEngine (en_session e) (en_events e ++ [Runtime c])).

(** The last entry of the map that a rejitted method is given. *)
Definition rejit_entry (rejitCount : Z) : COR_IL_MAP := mkILMap 0xfeefee rejitCount true.

(** [CMethodInfo::ApplyFinalInstrumentation] *)
Definition ApplyFinalInstrumentation (m : ptr) : E_ unit :=
  mi <- in_session (in_method (load_method m)) ;;
  let r := m_render mi in
  let '(cbMethodBody, pMethodBody) := GetFinalInstrumentation r in
  if_false_ret (m_bIsInstrumented r) E_FAIL ;;;
  if negb (m_bIsRejit r) then
    (if 0 <? cbMethodBody then call (Alloc cbMethodBody) else ret tt) ;;;
    call (SetILFunctionBody pMethodBody) ;;;
    in_session (SetMethodIsTransformed (m_tkFunction r) true) ;;;
    match m_pCorILMap mi with
    | [] => ret tt
    | map => call (SetILInstrumentedCodeMap (m_functionId r) map)
    end
  else
    if_false_ret (m_pFunctionControl r) E_FAIL ;;;
    call (Control_SetILFunctionBody cbMethodBody pMethodBody) ;;;
    in_session (SetMethodIsTransformed (m_tkFunction r) true) ;;;
    call (Control_SetCodegenFlags (m_dwRejitCodeGenFlags r)) ;;;
    rejitCount <- in_session (GetMethodRejitCount (m_tkFunction r)) ;;
    attempt (call (Control_SetILInstrumentedCodeMap
      (if rejitCount =? 0 then m_pCorILMap mi else m_pCorILMap mi ++ [rejit_entry rejitCount]))) ;;;
    ret tt.

(** ** The pass *)

(** An instrumentation method: its class id, its priority, the event flags that it asked
    for, and its callbacks ([true] for a rejit).  Of [ShouldInstrumentMethod] the
    [HRESULT] is only logged, so the answer counts. *)
Record InstrumentationMethod := mkInstrumentationMethod {
  m_classGuid : Z;
  m_priority : Z;
  im_flags : Z;
  ShouldInstrumentMethod : bool -> Session -> bool * Session;
  BeforeInstrumentMethod : bool -> S_ unit;
  InstrumentMethod : bool -> S_ unit;
  OnInstrumentationComplete : bool -> S_ unit
}.

(** [CProfilerManager::AddInstrumentationMethod]: the position in
    [m_instrumentationMethods]. *)
Fixpoint add_by_priority (im : InstrumentationMethod) (ims : list InstrumentationMethod) : list InstrumentationMethod :=
  match ims with
  | [] => [im]
  | x :: ims' => if m_priority im <? m_priority x then im :: ims else x :: add_by_priority im ims'
  end.

(** [CProfilerManager::CalculateEventMask] *)
Definition CalculateEventMask (m_dwEventMask dwAdditionalFlags : Z) (ims : list InstrumentationMethod) : Z :=
  foldl (fun result im => Z.lor result (im_flags im)) (Z.lor m_dwEventMask dwAdditionalFlags) ims.

(** [CProfilerManager::CallShouldInstrumentOnInstrumentationMethods] *)
Fixpoint CallShouldInstrument (isRejit : bool) (ims : list InstrumentationMethod) : E_ (list InstrumentationMethod) :=
  match ims with
  | [] => ret []
  | im :: ims =>
      happens (ShouldInstrument (m_classGuid im)) ;;;
      bShouldInstrument <- in_session (fun s => let '(b, s) := ShouldInstrumentMethod im isRejit s in (Ok b, s)) ;;
      pToInstrument <- CallShouldInstrument isRejit ims ;;
      ret (if bShouldInstrument : bool then im :: pToInstrument else pToInstrument)
  end.

(** [CProfilerManager::CallBeforeInstrumentMethodOnInstrumentationMethods], with
    [CMethodInfo::DisableCreateBaseline]. *)
Definition DisableCreateBaseline (m : ptr) : W unit :=
  update_method m (fun mi => mkMethod (m_exceptionClauses mi) false (m_pCorILMap mi) (m_render mi)).

Definition CallBeforeInstrumentMethod (m : ptr) (isRejit : bool) (toInstrument : list InstrumentationMethod) : E_ unit :=
  for_each (fun im => happens (BeforeInstrument (m_classGuid im)) ;;; in_session (BeforeInstrumentMethod im isRejit)) toInstrument ;;;
  in_session (in_method (DisableCreateBaseline m)).

(** [CProfilerManager::CallInstrumentOnInstrumentationMethods] (without the dump of the
    names that a log flag asks for); [il] is the body that [GetMethodIl] gives. *)
Definition CallInstrument (il : outcome (list Z)) (m : ptr) (isRejit : bool) (toInstrument : list InstrumentationMethod) : E_ unit :=
  for_each (fun im => happens (Instrument (m_classGuid im)) ;;; in_session (InstrumentMethod im isRejit)) toInstrument ;;;
  match toInstrument with
  | [] => ret tt
  | _ => in_session (in_state (ApplyIntermediateMethodInstrumentation import fuel GetSigFromToken GetTokenFromSig il m))
  end.

(** [CProfilerManager::CallOnInstrumentationComplete]: the [HRESULT] of the last one. *)
Fixpoint CallOnInstrumentationComplete (isRejit : bool) (ims : list InstrumentationMethod) : E_ unit :=
  match ims with
  | [] => ret tt
  | im :: ims =>
      happens (InstrumentationComplete (m_classGuid im)) ;;;
      attempt (in_session (OnInstrumentationComplete im isRejit)) ;;;
      CallOnInstrumentationComplete isRejit ims
  end.

(** [SendEventToRawProfilerCallback]: the [HRESULT] of the raw profiler, when there is
    one, is only logged. *)
Definition SendEventToRawProfilerCallback (raw : option (S_ unit)) : E_ unit :=
  match raw with
  | None => ret tt
  | Some callback => happens RawCallback ;;; attempt (in_session callback) ;;; ret tt
  end.

(** The pass over a method of a module that is not dynamic: the body of
    [JITCompilationStarted] ([isRejit] not set) and of [GetReJITParameters]. *)
Definition instrument_pass (ims : list InstrumentationMethod) (raw : option (S_ unit)) (il : outcome (list Z))
    (m : ptr) (isRejit : bool) : E_ unit :=
  toInstrument <- CallShouldInstrument isRejit ims ;;
  CallBeforeInstrumentMethod m isRejit toInstrument ;;;
  CallInstrument il m isRejit toInstrument ;;;
  SendEventToRawProfilerCallback raw ;;;
  r <- in_session (in_method (load_render m)) ;;
  if m_bIsInstrumented r then
    ApplyFinalInstrumentation m ;;;
    attempt (CallOnInstrumentationComplete isRejit ims) ;;; ret tt
  else ret tt.

End Delivery.
