(* ===== verification/DeliverySpec.v ===== *)
(** What an instrumentation pass promises: the order of its callbacks, that nothing
    reaches the runtime unless everybody agreed, what the runtime is given, and the
    order of the instrumentation methods. *)
From stdpp Require Import sorting.
From S2P Require Import Prelude ILOpcodes Instruction CorHeaders Store BranchTargets Clauses Graph Codec Exceptions ILMap LocalVars MaxStack MethodBody MethodBodySpec Delivery.

Arguments Session : clear implicits.
Arguments Engine : clear implicits.
Arguments InstrumentationMethod : clear implicits.

Section Spec.

Context {Metadata : Type}.

Notation Engine := (Engine Metadata).
Notation Session := (Session Metadata).

(** ** Logs

    From [e], the computation [x] logs [evs] when it returns, and a prefix of [evs]
    whatever happens. *)
Definition logs {A} (e : Engine) (x : M Engine A) (evs : list Event) : Prop :=
  forall o e', x e = (o, e') -> exists evs', en_events e' = en_events e ++ evs' /\ evs' `prefix_of` evs /\
    forall a, o = Ok a -> evs' = evs.

Lemma logs_bind {A B} e (x : M Engine A) (f : A -> M Engine B) evs1 evs2 :
  logs e x evs1 -> (forall a e1, x e = (Ok a, e1) -> logs e1 (f a) evs2) -> logs e (bind x f) (evs1 ++ evs2).
Proof.
  intros Hx Hf o e' H. unfold bind in H. destruct (x e) as [o1 e1] eqn:E. destruct (Hx _ _ E) as (l1 & El & Hp & Ho).
  destruct o1 as [a| | |]; [|injection H as <- <-; exists l1; split_and!; [done|by apply prefix_app_r|done]..].
  destruct (Hf a e1 eq_refl o e' H) as (l2 & El2 & Hp2 & Ho2). exists (evs1 ++ l2).
  rewrite El2, El, (Ho a eq_refl), app_assoc. split_and!; [done|by apply prefix_app|].
  intros b Hb. by rewrite (Ho2 b Hb).
Qed.

Lemma logs_silent {A} e (x : M Engine A) : (forall o e', x e = (o, e') -> en_events e' = en_events e) -> logs e x [].
Proof. intros H o e' E. exists []. rewrite app_nil_r. split_and!; [by eapply H|done|done]. Qed.

Lemma logs_ret {A} e (a : A) : logs e (ret a) [].
Proof. apply logs_silent. by intros o e' [= <- <-]. Qed.

Lemma logs_fail {A} e hr : logs e (fail hr : M Engine A) [].
Proof. apply logs_silent. by intros o e' [= <- <-]. Qed.

Lemma logs_session {A} e (x : M Session A) : logs e (in_session x) [].
Proof. apply logs_silent. intros o e'. unfold in_session. destruct (x _). by intros [= <- <-]. Qed.

Lemma logs_happens e ev : logs e (happens ev) [ev].
Proof. intros o e' [= <- <-]. exists [ev]. by split_and!. Qed.

Lemma logs_call respond e c : logs e (call respond c) [Runtime c].
Proof. intros o e' [= <- <-]. exists [Runtime c]. by split_and!. Qed.

(** A dropped [HRESULT]. *)
Lemma logs_attempt {A} e (x : M Engine A) evs :
  (forall hr e', x e = (Err hr, e') -> en_events e' = en_events e ++ evs) -> logs e x evs -> logs e (attempt x) evs.
Proof.
  intros Herr Hx o e' H. unfold attempt in H. destruct (x e) as [o1 e1] eqn:E. destruct (Hx _ _ E) as (l & El & Hp & Ho).
  destruct o1 as [a|hr| |]; injection H as <- <-; [exists l; split_and!; [done|done|by intros; apply (Ho a)]| |exists l; by split_and!..].
  specialize (Herr hr e1 eq_refl). exists evs. by split_and!.
Qed.

Lemma logs_attempt_session {A} e (x : M Session A) : logs e (attempt (in_session x)) [].
Proof.
  apply logs_attempt; [|apply logs_session]. intros hr e'. unfold in_session. destruct (x _). intros [= -> <-]. by rewrite app_nil_r.
Qed.

Lemma logs_attempt_call respond e c : logs e (attempt (call respond c)) [Runtime c].
Proof. apply logs_attempt; [|apply logs_call]. unfold call. by intros hr e' [= _ <-]. Qed.

Lemma logs_eq {A} e (x : M Engine A) evs evs' : evs = evs' -> logs e x evs -> logs e x evs'.
Proof. by intros ->. Qed.

Lemma logs_for_each {A} (f : A -> M Engine unit) (ev : A -> list Event) l :
  (forall x e, logs e (f x) (ev x)) -> forall e, logs e (for_each f l) (concat (map ev l)).
Proof.
  intros Hf. induction l as [|x l IH]; intros e; cbn [for_each map concat]; [apply logs_ret|].
  apply logs_bind; [done|]. intros a e1 _. apply IH.
Qed.

Lemma concat_single {A} (f : A -> Event) l : concat (map (fun x => [f x]) l) = map f l.
Proof. induction l; cbn; congruence. Qed.

(** ** The edits *)

Section Pass.

Context (import : MetaDataImport) (fuel : nat).
Context (GetSigFromToken : Metadata -> Z -> outcome (list Z)).
Context (GetTokenFromSig : list Z -> Metadata -> outcome Z * Metadata).
Context (respond : list Event -> RuntimeCall -> outcome unit).

Notation InstrumentationMethod := (InstrumentationMethod Metadata).

Definition ids (ev : Z -> Event) (ims : list InstrumentationMethod) : list Event := map (fun im => ev (m_classGuid im)) ims.

Lemma logs_CallShould isRejit ims : forall e, logs e (CallShouldInstrument isRejit ims) (ids ShouldInstrument ims).
Proof.
  induction ims as [|im ims IH]; intros e; cbn [CallShouldInstrument ids map]; [apply logs_ret|].
  apply (logs_bind _ _ _ [_]); [apply logs_happens|]. intros _ e1 _. apply (logs_bind _ _ _ []); [apply logs_session|].
  intros b e2 _. eapply logs_eq; [apply app_nil_r|]. apply logs_bind; [apply IH|]. intros. apply logs_ret.
Qed.

(** Those that said yes, in the order in which they were asked. *)
Lemma CallShould_sublist isRejit ims : forall (e : Engine) sel e1,
  CallShouldInstrument isRejit ims e = (Ok sel, e1) -> sel `sublist_of` ims.
Proof.
  induction ims as [|im ims IH]; intros e sel e1 H; cbn [CallShouldInstrument] in H; [by injection H as <-|].
  apply bind_Ok in H as ([] & e2 & _ & H). apply bind_Ok in H as (b & e3 & _ & H). apply bind_Ok in H as (l & e4 & Hl & H).
  apply IH in Hl. injection H as <- <-. destruct b; by constructor.
Qed.

Lemma logs_CallBefore m isRejit sel e : logs e (CallBeforeInstrumentMethod m isRejit sel) (ids BeforeInstrument sel).
Proof.
  unfold CallBeforeInstrumentMethod. eapply logs_eq; [apply app_nil_r|]. apply logs_bind; [|intros; apply logs_session].
  unfold ids. rewrite <- concat_single. apply logs_for_each. intros im e1.
  apply (logs_bind _ _ _ [_]); [apply logs_happens|]. intros. apply logs_session.
Qed.

Lemma logs_CallInstrument il m isRejit sel e :
  logs e (CallInstrument import fuel GetSigFromToken GetTokenFromSig il m isRejit sel) (ids Instrument sel).
Proof.
  unfold CallInstrument. eapply logs_eq; [apply app_nil_r|]. apply logs_bind.
  - unfold ids. rewrite <- concat_single. apply logs_for_each. intros im e1.
    apply (logs_bind _ _ _ [_]); [apply logs_happens|]. intros. apply logs_session.
  - intros _ e1 _. destruct sel; [apply logs_ret|apply logs_session].
Qed.

Definition raw_events (raw : option (M Session unit)) : list Event :=
  match raw with None => [] | Some _ => [RawCallback] end.

Lemma logs_raw raw e : logs e (SendEventToRawProfilerCallback raw) (raw_events raw).
Proof.
  unfold SendEventToRawProfilerCallback. destruct raw as [x|]; [|apply logs_ret].
  apply (logs_bind _ _ _ [_]); [apply logs_happens|]. intros _ e1 _.
  apply (logs_bind _ _ _ [] []); [apply logs_attempt_session|]. intros. apply logs_ret.
Qed.

Lemma logs_Complete isRejit ims : forall e, logs e (CallOnInstrumentationComplete isRejit ims) (ids InstrumentationComplete ims).
Proof.
  induction ims as [|im ims IH]; intros e; cbn [CallOnInstrumentationComplete ids map]; [apply logs_ret|].
  apply (logs_bind _ _ _ [_]); [apply logs_happens|]. intros _ e1 _. apply (logs_bind _ _ _ []); [apply logs_attempt_session|].
  intros _ e2 _. apply IH.
Qed.

Lemma Complete_never_fails isRejit ims : forall (e : Engine) hr e', CallOnInstrumentationComplete isRejit ims e <> (Err hr, e').
Proof.
  induction ims as [|im ims IH]; intros e hr e'; cbn [CallOnInstrumentationComplete]; [done|].
  unfold bind at 1, happens, modify. unfold bind at 1, attempt. destruct (in_session _ _) as [[a|hr1|u|] e1]; try done; apply IH.
Qed.

(** ** The delivery *)

(** The body that counts: what the raw profiler gave, as bytes or as a buffer, or else
    what was rendered. *)
Definition final_body (r : MethodRender) : Body :=
  if decide (m_pFinalRenderedMethod r = []) then from_option UserBuffer (Rendered (m_pIntermediateRenderedMethod r)) (m_userDefinedBuffer r)
  else Rendered (m_pFinalRenderedMethod r).

Definition body_size (b : Body) : Z :=
  match b with Rendered bs => u32 (Z.of_nat (length bs)) | UserBuffer _ => 0 end.

(** The calls on the runtime for a method: the body before the map, and, for a rejit,
    the entry that tells which rejit it was. *)
Definition deliveries (mi : CMethodInfo) (rejitCount : Z) : list RuntimeCall :=
  let r := m_render mi in let b := final_body r in
  if m_bIsRejit r then
    [Control_SetILFunctionBody (body_size b) b; Control_SetCodegenFlags (m_dwRejitCodeGenFlags r);
     Control_SetILInstrumentedCodeMap (if rejitCount =? 0 then m_pCorILMap mi else m_pCorILMap mi ++ [rejit_entry rejitCount])]
  else
    (if 0 <? body_size b then [Alloc (body_size b)] else []) ++ [SetILFunctionBody b] ++
    (if decide (m_pCorILMap mi = []) then [] else [SetILInstrumentedCodeMap (m_functionId r) (m_pCorILMap mi)]).

Lemma GetFinalInstrumentation_eq r : GetFinalInstrumentation r = (body_size (final_body r), final_body r).
Proof.
  unfold GetFinalInstrumentation, final_body. destruct (m_pFinalRenderedMethod r); [rewrite decide_True by done|rewrite decide_False by done; done].
  by destruct (m_userDefinedBuffer r).
Qed.

(** The method record that the session holds, and its number of rejits. *)
Definition method_of (s : Session) (m : ptr) : option CMethodInfo := w_method (fst (ss_state s)) !! m.
Definition rejits (s : Session) (tk : Z) : Z := default 0 (m_methodTokenToRejitCountMap s !! tk).

Lemma in_method_read {A} (x : W A) (a : A) (e : Engine) :
  x (fst (ss_state (en_session e))) = (Ok a, fst (ss_state (en_session e))) -> in_session (in_method x) e = (Ok a, e).
Proof.
  intros H. unfold in_session, in_method, in_state, in_world. destruct e as [[[w l] t c] ev]. cbn in *. by rewrite H.
Qed.

(** Marking the method as transformed is not an event. *)
Lemma logs_marked tk {A} e (k : M Engine A) evs :
  (forall e1, en_session e1 = mkSession (ss_state (en_session e)) ({[ tk ]} ∪ m_instrumentedMethods (en_session e))
     (m_methodTokenToRejitCountMap (en_session e)) -> logs e1 k evs) ->
  logs e (in_session (SetMethodIsTransformed tk true) ;;; k) evs.
Proof.
  intros H. apply (logs_bind _ _ _ []); [apply logs_session|]. intros a e1 [= _ <-]. by apply H.
Qed.

Lemma call_session (e : Engine) c a e1 : call respond c e = (a, e1) -> en_session e1 = en_session e.
Proof. by intros [= _ <-]. Qed.

Lemma logs_Apply m e mi : method_of (en_session e) m = Some mi ->
  logs e (ApplyFinalInstrumentation respond m)
    (if m_bIsInstrumented (m_render mi) && (negb (m_bIsRejit (m_render mi)) || m_pFunctionControl (m_render mi))
     then map Runtime (deliveries mi (rejits (en_session e) (m_tkFunction (m_render mi)))) else []).
Proof.
  intros Hm. unfold ApplyFinalInstrumentation.
  assert (in_session (in_method (load_method m)) e = (Ok mi, e)) as E.
  { apply in_method_read. unfold load_method, method_of in *. by rewrite Hm. }
  apply (logs_bind _ _ _ []); [apply logs_session|]. intros mi' e1 H. rewrite E in H. injection H as <- <-.
  rewrite GetFinalInstrumentation_eq. unfold deliveries. set (r := m_render mi). set (b := final_body r).
  destruct (m_bIsInstrumented r); [|apply (logs_bind _ _ _ []); [apply logs_fail|by intros a e2 [=]]].
  apply (logs_bind _ _ _ []); [apply logs_ret|]. intros _ e0 [= _ <-]. destruct (m_bIsRejit r); cbn [negb andb orb].
  - destruct (m_pFunctionControl r); [|apply (logs_bind _ _ _ []); [apply logs_fail|by intros a e2 [=]]].
    apply (logs_bind _ _ _ []); [apply logs_ret|]. intros _ e0 [= _ <-]. cbn [map].
    apply (logs_bind _ _ _ [_]); [apply logs_call|]. intros ? e1 H1%call_session. apply logs_marked. intros e2 H2.
    apply (logs_bind _ _ _ [_]); [apply logs_call|]. intros ? e3 H3%call_session.
    apply (logs_bind _ _ _ []); [apply logs_session|]. intros n e4 H4.
    assert (n = rejits (en_session e) (m_tkFunction r)) as ->.
    { unfold in_session, GetMethodRejitCount, gets in H4. rewrite H3, H2, H1 in H4. by injection H4 as <-. }
    apply (logs_bind _ _ _ [_] []); [apply logs_attempt_call|]. intros. apply logs_ret.
  - rewrite map_app. apply logs_bind.
    { destruct (0 <? body_size b); [apply logs_call|apply logs_ret]. }
    intros ? e1 H1. cbn [map app]. apply (logs_bind _ _ _ [_]); [apply logs_call|]. intros ? e2 H2.
    apply logs_marked. intros e3 _. destruct (m_pCorILMap mi); [rewrite decide_True by done; apply logs_ret|].
    rewrite decide_False by done. apply logs_call.
Qed.

(** ** The pass *)

(** Everything up to the raw profiler. *)
Definition edit_phase (ims : list InstrumentationMethod) (raw : option (M Session unit)) (il : outcome (list Z))
    (m : ptr) (isRejit : bool) : M Engine unit :=
  toInstrument <- CallShouldInstrument isRejit ims ;;
  CallBeforeInstrumentMethod m isRejit toInstrument ;;;
  CallInstrument import fuel GetSigFromToken GetTokenFromSig il m isRejit toInstrument ;;;
  SendEventToRawProfilerCallback raw.

Definition edit_events (ims sel : list InstrumentationMethod) (raw : option (M Session unit)) : list Event :=
  ids ShouldInstrument ims ++ ids BeforeInstrument sel ++ ids Instrument sel ++ raw_events raw.

Definition finish (ims : list InstrumentationMethod) (m : ptr) (isRejit : bool) : M Engine unit :=
  r <- in_session (in_method (load_render m)) ;;
  if m_bIsInstrumented r then
    ApplyFinalInstrumentation respond m ;;;
    attempt (CallOnInstrumentationComplete isRejit ims) ;;; ret tt
  else ret tt.

Notation pass ims raw il m isRejit :=
  (instrument_pass import fuel GetSigFromToken GetTokenFromSig respond ims raw il m isRejit).

Lemma pass_phases ims raw il m isRejit e :
  pass ims raw il m isRejit e = (edit_phase ims raw il m isRejit ;;; finish ims m isRejit) e.
Proof.
  unfold instrument_pass, edit_phase, finish, bind. destruct (CallShouldInstrument _ _ e) as [[sel| | |] e1]; [|done..].
  destruct (CallBeforeInstrumentMethod _ _ _ e1) as [[[]| | |] e2]; [|done..].
  by destruct (CallInstrument _ _ _ _ _ _ _ _ e2) as [[[]| | |] e3].
Qed.

Lemma edit_phase_logs ims raw il m isRejit e : exists sel, sel `sublist_of` ims /\
  logs e (edit_phase ims raw il m isRejit) (edit_events ims sel raw).
Proof.
  unfold edit_phase. destruct (CallShouldInstrument isRejit ims e) as [o e1] eqn:E.
  assert (forall sel, (o = Ok sel \/ (forall a, o <> Ok a)) -> logs e (edit_phase ims raw il m isRejit) (edit_events ims sel raw)) as H.
  { intros sel Hsel. unfold edit_phase, edit_events. apply logs_bind; [apply logs_CallShould|]. intros sel' e1' E'. rewrite E in E'.
    injection E' as -> <-. destruct Hsel as [[= <-]|Hn]; [|by destruct (Hn sel')].
    apply logs_bind; [apply logs_CallBefore|]. intros. apply logs_bind; [apply logs_CallInstrument|]. intros. apply logs_raw. }
  destruct o as [sel| | |]; [exists sel; split; [by eapply CallShould_sublist|by apply H; left]|exists []..].
  all: split; [apply sublist_nil_l|by apply H; right].
Qed.

(** What happens behind the edits, for the method that they left. *)
Definition delivery_events (ims : list InstrumentationMethod) (mi : CMethodInfo) (rejitCount : Z) : list Event :=
  if m_bIsInstrumented (m_render mi) then map Runtime (deliveries mi rejitCount) ++ ids InstrumentationComplete ims else [].

Lemma logs_never {A} e (x : M Engine A) evs : (forall a e', x e <> (Ok a, e')) -> logs e x [] -> logs e x evs.
Proof.
  intros Hn H o e' E. destruct (H o e' E) as (l & El & Hp & _). apply prefix_nil_inv in Hp as ->.
  exists []. split_and!; [done|apply prefix_nil|]. intros a ->. by apply Hn in E.
Qed.

Lemma logs_finish ims m isRejit e mi : method_of (en_session e) m = Some mi ->
  logs e (finish ims m isRejit) (delivery_events ims mi (rejits (en_session e) (m_tkFunction (m_render mi)))).
Proof.
  intros Hm. unfold finish, delivery_events.
  assert (in_session (in_method (load_render m)) e = (Ok (m_render mi), e)) as E.
  { apply in_method_read. by apply run_load_render. }
  apply (logs_bind _ _ _ []); [apply logs_session|]. intros r e1 H. rewrite E in H. injection H as <- <-.
  pose proof (logs_Apply m e mi Hm) as HA. destruct (m_bIsInstrumented (m_render mi)) eqn:Ei; [|apply logs_ret]. cbn [andb] in HA.
  destruct (negb (m_bIsRejit (m_render mi)) || m_pFunctionControl (m_render mi)) eqn:Ec.
  - apply logs_bind; [done|]. intros _ e1 _. eapply logs_eq; [apply app_nil_r|]. apply logs_bind; [|intros; apply logs_ret].
    apply logs_attempt; [|apply logs_Complete]. intros hr e2 H. by apply Complete_never_fails in H.
  - apply orb_false_iff in Ec as [Er%negb_false_iff Ec]. apply logs_never.
    + intros a e' H. apply bind_Ok in H as (x & e1 & H & _). unfold ApplyFinalInstrumentation in H.
      assert (in_session (in_method (load_method m)) e = (Ok mi, e)) as Em.
      { apply in_method_read. unfold load_method, method_of in *. by rewrite Hm. }
      rewrite (run_bind _ _ _ _ _ Em), GetFinalInstrumentation_eq, Ei, Er, Ec in H. discriminate.
    + apply (logs_bind _ _ _ [] []); [done|]. intros a e1 H. exfalso. revert H. unfold ApplyFinalInstrumentation.
      assert (in_session (in_method (load_method m)) e = (Ok mi, e)) as Em.
      { apply in_method_read. unfold load_method, method_of in *. by rewrite Hm. }
      rewrite (run_bind _ _ _ _ _ Em), GetFinalInstrumentation_eq, Ei, Er, Ec. discriminate.
Qed.

(** C8: the order of an instrumentation pass, on every outcome: all instrumentation
    methods are asked first, then those that said yes ([sel], in the same order) may
    replace the body, then they instrument, then the raw profiler is called, and only
    when all of this succeeded does the runtime hear of the method: it gets the body
    before the map, of the method as it is then, and at last everybody is told.  A pass
    that stops early has done a prefix of this. *)
Theorem instrument_pass_order ims raw il m isRejit e o e' :
  pass ims raw il m isRejit e = (o, e') ->
  exists sel evs, sel `sublist_of` ims /\ en_events e' = en_events e ++ evs /\
    ((evs `prefix_of` edit_events ims sel raw /\ (forall a, o <> Ok a)) \/
     exists e1 mi, edit_phase ims raw il m isRejit e = (Ok tt, e1) /\ method_of (en_session e1) m = Some mi /\
       let full := edit_events ims sel raw ++ delivery_events ims mi (rejits (en_session e1) (m_tkFunction (m_render mi))) in
       edit_events ims sel raw `prefix_of` evs /\ evs `prefix_of` full /\ (o = Ok tt -> evs = full)).
Proof.
  rewrite pass_phases. intros H. destruct (edit_phase_logs ims raw il m isRejit e) as (sel & Hsel & Hlogs).
  unfold bind in H. destruct (edit_phase ims raw il m isRejit e) as [o1 e1] eqn:E. destruct (Hlogs _ _ E) as (l1 & El1 & Hp1 & Ho1).
  destruct o1 as [[]| | |]; [|injection H as <- <-; exists sel, l1; (split; [done|split; [done|left; by split]])..].
  specialize (Ho1 tt eq_refl) as ->. destruct (method_of (en_session e1) m) as [mi|] eqn:Hm.
  - destruct (logs_finish ims m isRejit e1 mi Hm _ _ H) as (l2 & El2 & Hp2 & Ho2).
    exists sel, (edit_events ims sel raw ++ l2). split; [done|]. split; [by rewrite El2, El1, app_assoc|right].
    exists e1, mi. split; [done|]. split; [done|]. cbv zeta. split_and!; [by apply prefix_app_r|by apply prefix_app|]. intros ->. by rewrite (Ho2 tt).
  - exists sel, (edit_events ims sel raw). unfold finish in H.
    assert (in_session (in_method (load_render m)) e1 = (Undef NullDeref, e1)) as Eu.
    { unfold in_session, in_method, in_state, in_world, load_render, load_method, bind. unfold method_of in Hm.
      destruct e1 as [[[w lo] t c] ev]. cbn in *. by rewrite Hm. }
    unfold bind in H. rewrite Eu in H. injection H as <- <-. split; [done|]. split; [done|left]. by split.
Qed.

(** *** Failures *)

(** [x] only fails with the answer of the runtime to the last call that it makes. *)
Definition refused {A} (e : Engine) (x : M Engine A) : Prop := forall hr e', x e = (Err hr, e') ->
  exists pre c, en_events e' = en_events e ++ pre ++ [Runtime c] /\ respond (en_events e ++ pre) c = Err hr.

Lemma refused_bind {A B} e (x : M Engine A) (f : A -> M Engine B) :
  refused e x -> (forall a e1, x e = (Ok a, e1) -> refused e1 (f a) /\ exists l, en_events e1 = en_events e ++ l) ->
  refused e (bind x f).
Proof.
  intros Hx Hf hr e' H. unfold bind in H. destruct (x e) as [o e1] eqn:E. destruct o as [a|hr1| |]; try discriminate.
  - destruct (Hf a e1 eq_refl) as (Hr & l & El). destruct (Hr hr e' H) as (pre & c & Ee & Hc). rewrite El in Ee, Hc.
    exists (l ++ pre), c. by rewrite Ee, <- !app_assoc in *.
  - injection H as -> ->. by apply Hx.
Qed.

Lemma refused_never {A} e (x : M Engine A) : (forall hr e', x e <> (Err hr, e')) -> refused e x.
Proof. intros H hr e' E. by apply H in E. Qed.

Lemma refused_call (e : Engine) c : refused e (call respond c).
Proof. intros hr e' [= H <-]. exists [], c. by rewrite app_nil_r. Qed.

Lemma refused_attempt {A} e (x : M Engine A) : refused e (attempt x).
Proof. apply refused_never. intros hr e'. unfold attempt. by destruct (x e) as [[] ?]. Qed.

Lemma call_appends (e : Engine) c a e1 : call respond c e = (a, e1) -> exists l, en_events e1 = en_events e ++ l.
Proof. intros [= _ <-]. by eexists. Qed.

Lemma attempt_appends (e : Engine) c a e1 : attempt (call respond c) e = (Ok a, e1) -> exists l, en_events e1 = en_events e ++ l.
Proof. unfold attempt, call. destruct (respond _ c); intros [= _ <-]; by eexists. Qed.

Lemma same_appends (e e1 : Engine) : en_events e1 = en_events e -> exists l, en_events e1 = en_events e ++ l.
Proof. intros ->. exists []. by rewrite app_nil_r. Qed.

Lemma refused_marked tk {A} e (k : M Engine A) :
  (forall e1, refused e1 k) -> refused e (in_session (SetMethodIsTransformed tk true) ;;; k).
Proof.
  intros H. apply refused_bind; [by apply refused_never|]. intros a e1 [= _ <-]. split; [apply H|by apply same_appends].
Qed.

Lemma Apply_fails m e mi hr e' : method_of (en_session e) m = Some mi ->
  ApplyFinalInstrumentation respond m e = (Err hr, e') ->
  en_events e' = en_events e \/ exists pre c, en_events e' = en_events e ++ pre ++ [Runtime c] /\ respond (en_events e ++ pre) c = Err hr.
Proof.
  intros Hm. unfold ApplyFinalInstrumentation.
  assert (in_session (in_method (load_method m)) e = (Ok mi, e)) as E.
  { apply in_method_read. unfold load_method, method_of in *. by rewrite Hm. }
  rewrite (run_bind _ _ _ _ _ E), GetFinalInstrumentation_eq. set (r := m_render mi). set (b := final_body r).
  destruct (m_bIsInstrumented r); [|intros [= _ <-]; by left]. erewrite run_bind by reflexivity.
  destruct (m_bIsRejit r); cbn [negb].
  - destruct (m_pFunctionControl r); [|intros [= _ <-]; by left]. erewrite run_bind by reflexivity. intros H. right. revert hr e' H.
    apply refused_bind; [apply refused_call|]. intros ? e1 H1. split; [|by eapply call_appends].
    apply refused_marked. intros e2. apply refused_bind; [apply refused_call|]. intros ? e3 H3. split; [|by eapply call_appends].
    apply refused_bind; [by apply refused_never|]. intros n e4 [= _ <-]. split; [|by apply same_appends].
    apply refused_bind; [apply refused_attempt|]. intros x e4 H4. split; [by apply refused_never|by eapply attempt_appends].
  - intros H. right. revert hr e' H. apply refused_bind.
    { destruct (0 <? body_size b); [apply refused_call|by apply refused_never]. }
    intros ? e1 H1. split; cycle 1.
    { destruct (0 <? body_size b); [by eapply call_appends|injection H1 as _ <-; by apply same_appends]. }
    apply refused_bind; [apply refused_call|]. intros ? e2 H2. split; [|by eapply call_appends].
    apply refused_marked. intros e3. destruct (m_pCorILMap mi); [by apply refused_never|apply refused_call].
Qed.

Lemma no_runtime ims sel raw c : Runtime c ∉ edit_events ims sel raw.
Proof.
  unfold edit_events, ids. rewrite !not_elem_of_app. split_and!; try (intros (im & [=] & _)%list_elem_of_fmap).
  destruct raw; cbn; set_solver.
Qed.

(** C9: a pass fails closed: when it returns a failing [HRESULT], either the runtime was
    not called at all, so that the method runs as it was, or the [HRESULT] is the
    answer of the runtime to the last call that was made. *)
Theorem instrument_pass_fails_closed ims raw il m isRejit e hr e' :
  pass ims raw il m isRejit e = (Err hr, e') ->
  exists evs, en_events e' = en_events e ++ evs /\
    ((forall c, Runtime c ∉ evs) \/
     exists pre c, evs = pre ++ [Runtime c] /\ respond (en_events e ++ pre) c = Err hr).
Proof.
  rewrite pass_phases. intros H. destruct (edit_phase_logs ims raw il m isRejit e) as (sel & _ & Hlogs).
  unfold bind in H. destruct (edit_phase ims raw il m isRejit e) as [o1 e1] eqn:E. destruct (Hlogs _ _ E) as (l1 & El1 & Hp1 & Ho1).
  assert (forall c, Runtime c ∉ l1) as Hno.
  { intros c Hc. destruct Hp1 as [k Hk]. apply (no_runtime ims sel raw c). rewrite Hk. set_solver. }
  destruct o1 as [[]|hr1| |]; try discriminate; [|injection H as <- <-; exists l1; split; [done|by left]].
  unfold finish in H. unfold bind at 1 in H. destruct (in_session (in_method (load_render m)) e1) as [o e2] eqn:E2.
  unfold in_session, in_method, in_state, in_world, load_render, load_method, bind in E2. destruct e1 as [[[w lo] t c] ev]. cbn in *.
  destruct (w_method w !! m) as [mi|] eqn:Hm; cbn in E2; injection E2 as <- <-; [|discriminate].
  destruct (m_bIsInstrumented (m_render mi)); [|discriminate]. unfold bind at 1 in H.
  destruct (ApplyFinalInstrumentation respond m _) as [o3 e3] eqn:E3. destruct o3 as [[]|hr3| |]; try discriminate.
  - unfold bind, attempt in H. destruct (CallOnInstrumentationComplete isRejit ims e3) as [[] ?]; discriminate.
  - injection H as -> ->. apply (Apply_fails m _ mi) in E3; [|exact Hm]. cbn in E3. rewrite El1 in E3.
    destruct E3 as [E3|(pre & k & E3 & Hk)]; [exists l1; split; [done|by left]|].
    exists (l1 ++ pre ++ [Runtime k]). rewrite E3, <- !app_assoc. split; [done|right].
    exists (l1 ++ pre), k. by rewrite <- !app_assoc in *.
Qed.

End Pass.

(** ** Priorities *)

Notation InstrumentationMethod := (InstrumentationMethod Metadata).

(** [a] is called before [b]: its priority is smaller, or they are equal and it was
    loaded earlier. *)
Definition loaded_before (loaded : list InstrumentationMethod) (a b : InstrumentationMethod) : Prop :=
  m_priority a < m_priority b \/
  (m_priority a = m_priority b /\ exists l1 l2 l3, loaded = l1 ++ a :: l2 ++ b :: l3).

Lemma StronglySorted_mono {A} (R R' : A -> A -> Prop) l :
  (forall a b, R a b -> R' a b) -> StronglySorted R l -> StronglySorted R' l.
Proof. intros H. induction 1; constructor; [done|]. eapply Forall_impl; [done|]. cbn. auto. Qed.

Lemma add_by_priority_split (im : InstrumentationMethod) ims : exists l1 l2, ims = l1 ++ l2 /\ add_by_priority im ims = l1 ++ im :: l2 /\
  Forall (fun x => m_priority x <= m_priority im) l1 /\ (forall x, head l2 = Some x -> m_priority im < m_priority x).
Proof.
  induction ims as [|x ims (l1 & l2 & E & E' & H1 & H2)]; cbn [add_by_priority]; [by exists [], []|].
  destruct (Z.ltb_spec (m_priority im) (m_priority x)).
  - exists [], (x :: ims). split_and!; try done. by intros ? [= <-].
  - exists (x :: l1), l2. rewrite E', E. split_and!; try done. constructor; [lia|done].
Qed.

(** The order of the instrumentation methods: however they are added, those that
    were loaded are called by ascending priority, and by the order in which they were
    added when their priorities agree. *)
Theorem add_by_priority_orders (loaded : list InstrumentationMethod) :
  foldl (fun ims im => add_by_priority im ims) [] loaded ≡ₚ loaded /\
  StronglySorted (loaded_before loaded) (foldl (fun ims im => add_by_priority im ims) [] loaded).
Proof.
  induction loaded as [|im loaded [IHp IHs]] using rev_ind; [split; [done|constructor]|].
  rewrite foldl_app. cbn [foldl]. set (ims := foldl _ _ loaded) in *.
  destruct (add_by_priority_split im ims) as (l1 & l2 & E & -> & H1 & H2). rewrite E in IHp, IHs.
  split; [by rewrite <- IHp, <- Permutation_middle, Permutation_cons_append|].
  assert (forall a b, loaded_before loaded a b -> loaded_before (loaded ++ [im]) a b) as Hmono.
  { intros a b [Hl|(Hq & k1 & k2 & k3 & ->)]; [by left|right]. split; [done|]. exists k1, k2, (k3 ++ [im]). rewrite <- app_assoc. cbn. by rewrite <- app_assoc. }
  apply StronglySorted_app in IHs as (H12 & Hs1 & Hs2). apply StronglySorted_app. split_and!.
  - intros a b Ha [->|Hb]%elem_of_cons; [|by apply Hmono, H12].
    rewrite Forall_forall in H1. specialize (H1 a Ha). destruct (Z.lt_ge_cases (m_priority a) (m_priority im)); [by left|right].
    split; [lia|]. assert (a ∈ loaded) as (k1 & k2 & ->)%list_elem_of_split by (rewrite <- IHp; set_solver).
    exists k1, k2, []. by rewrite <- app_assoc.
  - by eapply StronglySorted_mono.
  - constructor; [by eapply StronglySorted_mono|]. apply Forall_forall. intros b Hb. left. destruct l2 as [|x l2]; [set_solver|].
    specialize (H2 x eq_refl). apply elem_of_cons in Hb as [->|Hb]; [done|].
    apply StronglySorted_cons in Hs2 as [Hs2 _]. rewrite Forall_forall in Hs2. destruct (Hs2 b Hb) as [|[]]; lia.
Qed.

End Spec.

(** ** A pass over  [ret]  *)

Definition pass_im (classId priority : Z) (yes : bool) : InstrumentationMethod unit :=
  mkInstrumentationMethod classId priority 0 (fun _ s => (yes, s)) (fun _ => ret tt) (fun _ => ret tt) (fun _ => ret tt).

Definition pass_engine : Engine unit := mkEngine
  (mkSession (mkWorld ∅ ∅ ∅ {[ 1%positive := mkMethod None true [] (new_render 7 0x06000001 false) ]} ∅, None) ∅ ∅) [].

Definition void_import : MetaDataImport :=
  mkImport (fun _ => Err E_FAIL) (fun _ => Ok [0; 0; 1]) (fun _ => Err E_FAIL) (fun _ => Err E_FAIL).

(** The tiny body of one [ret], two instrumentation methods of which the second wants
    to instrument, and a raw profiler that does nothing. *)
Definition pass_demo (respond : list Event -> RuntimeCall -> outcome unit) : outcome unit * Engine unit :=
  instrument_pass void_import 4 (fun _ _ => Err E_FAIL) (fun _ md => (Err E_FAIL, md)) respond
    [pass_im 10 1 false; pass_im 20 2 true] (Some (ret tt)) (Ok [0x06; 0x2A]) 1 false pass_engine.

Definition pass_body : list (option Z) :=
  map Some ([0x13; 0x30; 0; 0; 1; 0; 0; 0; 0; 0; 0; 0; 0x2A; 0; 0; 0] ++ replicate 28 0).

Example pass_demo_events : en_events (snd (pass_demo (fun _ _ => Ok tt))) =
  [ShouldInstrument 10; ShouldInstrument 20; BeforeInstrument 20; Instrument 20; RawCallback;
   Runtime (Alloc 44); Runtime (SetILFunctionBody (Rendered pass_body));
   Runtime (SetILInstrumentedCodeMap 7 [mkILMap 0 0 true]);
   InstrumentationComplete 10; InstrumentationComplete 20].
Proof. vm_compute. reflexivity. Qed.

Lemma instrument_pass_order_witness : exists sel evs,
  sel `sublist_of` [pass_im 10 1 false; pass_im 20 2 true] /\
  en_events (snd (pass_demo (fun _ _ => Ok tt))) = [] ++ evs.
Proof.
  destruct (instrument_pass_order void_import 4 (fun _ _ => Err E_FAIL) (fun _ md => (Err E_FAIL, md)) (fun _ _ => Ok tt)
    [pass_im 10 1 false; pass_im 20 2 true] (Some (ret tt)) (Ok [0x06; 0x2A]) 1 false pass_engine
    (fst (pass_demo (fun _ _ => Ok tt))) (snd (pass_demo (fun _ _ => Ok tt))) (surjective_pairing _)) as (sel & evs & Hs & He & _).
  exists sel, evs. split; [exact Hs|exact He].
Defined.

Lemma instrument_pass_fails_closed_witness : exists evs,
  en_events (snd (pass_demo (fun _ _ => Err E_FAIL))) = [] ++ evs /\ ((forall c, Runtime c ∉ evs) \/ exists pre c, evs = pre ++ [Runtime c]).
Proof.
  destruct (instrument_pass_fails_closed void_import 4 (fun _ _ => Err E_FAIL) (fun _ md => (Err E_FAIL, md)) (fun _ _ => Err E_FAIL)
    [pass_im 10 1 false; pass_im 20 2 true] (Some (ret tt)) (Ok [0x06; 0x2A]) 1 false pass_engine E_FAIL
    (snd (pass_demo (fun _ _ => Err E_FAIL)))) as (evs & He & H).
  - vm_compute. reflexivity.
  - exists evs. split; [exact He|]. destruct H as [H|(pre & c & H & _)]; [left; exact H|right; exists pre, c; exact H].
Defined.
