(* ===== verification/Rejit.v ===== *)
(** Inline sites and rejit requests: [CInlineSiteMap] and [CModuleInfo::RequestRejit]. *)
From S2P Require Import Prelude.

(** ** The map *)

(** [CInlineSite] *)
Record CInlineSite := mkSite { m_inlineeToken : Z; m_inlineSiteToken : Z; m_moduleID : Z }.

#[export] Instance CInlineSite_eq_dec : EqDecision CInlineSite.
Proof. solve_decision. Defined.

(** [TInlineSiteMap], [TModulesToInlineSitesMap] and [TInlineeToModulesMap]; the inner
    maps are shared by nobody else. *)
Notation TInlineSiteMap := (gmap Z CInlineSite).
Notation TModulesToInlineSitesMap := (gmap Z TInlineSiteMap).
Notation TInlineeToModulesMap := (gmap Z TModulesToInlineSitesMap).

(** [CInlineSiteMap::AddInlineSite] for a site in the module [moduleID]. *)
Definition AddInlineSite (inlinee inlineSite moduleID : Z) (m_inlineSiteMap : TInlineeToModulesMap) : TInlineeToModulesMap :=
  let pModuleToInlineSitesMap := default ∅ (m_inlineSiteMap !! inlinee) in
  let pSitesMap := default ∅ (pModuleToInlineSitesMap !! moduleID) in
  let pSitesMap :=
    match pSitesMap !! inlineSite with
    | None => <[inlineSite := mkSite inlinee inlineSite moduleID]> pSitesMap
    | Some _ => pSitesMap
    end in
  <[inlinee := <[moduleID := pSitesMap]> pModuleToInlineSitesMap]> m_inlineSiteMap.

(** [CInlineSiteMap::FindInlineSites]: what is appended to the two vectors.  The order
    of an [unordered_map] is not specified; this is one. *)
Definition FindInlineSites (inlinee : Z) (m_inlineSiteMap : TInlineeToModulesMap) : list (Z * Z) :=
  match m_inlineSiteMap !! inlinee with
  | None => []
  | Some pModulesToSites =>
      concat (map (fun moduleInlineSitesPair =>
        map (fun pSitePair => (m_moduleID (snd pSitePair), m_inlineSiteToken (snd pSitePair)))
          (map_to_list (snd moduleInlineSitesPair))) (map_to_list pModulesToSites))
  end.

(** The members of [CModuleInfo] that this uses; the map exists once a site was added. *)
Record CModuleInfo := mkModule { module_id : Z; m_pInlineSiteMap : option TInlineeToModulesMap }.

(** [CModuleInfo::GetInlineSiteMap] followed by [AddInlineSite]: what [JITInlining] does
    when inlining is allowed. *)
Definition record_inline_site (inlinee inlineSite siteModule : Z) (module : CModuleInfo) : CModuleInfo :=
  mkModule (module_id module) (Some (AddInlineSite inlinee inlineSite siteModule (default ∅ (m_pInlineSiteMap module)))).

(** [CModuleInfo::AddInlineSitesForRejit] *)
Definition AddInlineSitesForRejit (methodToken : Z) (module : CModuleInfo) (methods : list (Z * Z)) : list (Z * Z) :=
  match m_pInlineSiteMap module with
  | None => methods
  | Some map => methods ++ FindInlineSites methodToken map
  end.

(** [CModuleInfo::RequestRejit]: the module ids and method tokens that are given to
    [ICorProfilerInfo4::RequestReJIT]. *)
Definition RequestRejit (methodToken : Z) (module : CModuleInfo) : list (Z * Z) :=
  AddInlineSitesForRejit methodToken module [(module_id module, methodToken)].

(** ** What is requested *)

(** The map that [JITInlining] builds from a sequence of inlinings (the inlinee, the
    site, the module of the site). *)
Definition recorded (inlinings : list (Z * Z * Z)) (id : Z) : CModuleInfo :=
  foldl (fun module i => record_inline_site (fst (fst i)) (snd (fst i)) (snd i) module) (mkModule id None) inlinings.

(** The site that the three levels of the map give. *)
Definition site_at (m : TInlineeToModulesMap) (inlinee moduleID inlineSite : Z) : option CInlineSite :=
  mods ← m !! inlinee; sites ← mods !! moduleID; sites !! inlineSite.

Lemma site_at_add m a s d inlinee moduleID inlineSite :
  site_at (AddInlineSite a s d m) inlinee moduleID inlineSite =
    if decide (inlinee = a /\ moduleID = d /\ inlineSite = s)
    then Some (default (mkSite a s d) (site_at m a d s)) else site_at m inlinee moduleID inlineSite.
Proof.
  unfold site_at, AddInlineSite. destruct (decide (inlinee = a)) as [->|Ha]; [|rewrite decide_False by tauto; by rewrite lookup_insert_ne].
  rewrite lookup_insert_eq. cbn [mbind option_bind]. destruct (decide (moduleID = d)) as [->|Hd]; cycle 1.
  { rewrite decide_False by tauto. rewrite lookup_insert_ne by done. by destruct (m !! a). }
  rewrite lookup_insert_eq. cbn [mbind option_bind].
  assert (default ∅ (default ∅ (m !! a) !! d) !! inlineSite = (m !! a ≫= fun mods => mods !! d ≫= fun sites => sites !! inlineSite)) as E.
  { destruct (m !! a) as [mods|]; cbn; [|done]. by destruct (mods !! d). }
  destruct (decide (inlineSite = s)) as [->|Hs].
  - rewrite decide_True by done. rewrite <- E. destruct (_ !! s) eqn:Es; [by rewrite Es|by rewrite lookup_insert_eq].
  - rewrite decide_False by tauto. rewrite <- E. destruct (_ !! s); [done|by rewrite lookup_insert_ne].
Qed.

(** Every site of the map is stored under its own tokens. *)
Definition wf (m : TInlineeToModulesMap) : Prop :=
  forall a d s c, site_at m a d s = Some c -> c = mkSite a s d.

Lemma wf_add m a s d : wf m -> wf (AddInlineSite a s d m).
Proof.
  intros Hm a' d' s' c. rewrite site_at_add. case_decide as H; [|apply Hm]. destruct H as (-> & -> & ->). intros [= <-].
  destruct (site_at m a d s) as [c|] eqn:E; cbn; [by apply Hm|done].
Qed.

Lemma FindInlineSites_elem a m p : wf m ->
  p ∈ FindInlineSites a m <-> is_Some (site_at m a (fst p) (snd p)).
Proof.
  intros Hm. unfold FindInlineSites, site_at. unfold wf, site_at in Hm. specialize (Hm a).
  destruct (m !! a) as [mods|]; cbn in *; [|split; [set_solver|by intros []]]. rewrite list_elem_of_In, in_concat. split.
  - intros (l & (x & <- & Hx%list_elem_of_In)%in_map_iff & (y & <- & Hy%list_elem_of_In)%in_map_iff).
    destruct x as [d sites]. destruct y as [s c]. apply elem_of_map_to_list in Hx, Hy. cbn in *.
    pose proof (Hm d s c) as E. rewrite Hx in E. specialize (E Hy) as ->. cbn. rewrite Hx. cbn. by rewrite Hy.
  - destruct p as [d s]. cbn. intros [c Hc]. destruct (mods !! d) as [sites|] eqn:Hd; [|done]. cbn in Hc.
    pose proof (Hm d s c) as E. rewrite Hd in E. specialize (E Hc) as ->.
    eexists. split; [apply in_map_iff; exists (d, sites); split; [reflexivity|by apply list_elem_of_In, elem_of_map_to_list]|].
    apply in_map_iff. exists (s, mkSite a s d). split; [done|]. by apply list_elem_of_In, elem_of_map_to_list.
Qed.

Lemma sites_NoDup a (l : list (Z * TInlineSiteMap)) :
  NoDup l.*1 -> (forall d sites, (d, sites) ∈ l -> forall s c, sites !! s = Some c -> c = mkSite a s d) ->
  NoDup (concat (map (fun x => map (fun y => (m_moduleID (snd y), m_inlineSiteToken (snd y))) (map_to_list (snd x))) l)).
Proof.
  induction l as [|[d sites] l IH]; intros Hnd Hl; cbn [map concat fmap list_fmap fst snd] in *; [constructor|].
  apply NoDup_cons in Hnd as [Hd Hnd]. apply NoDup_app. split_and!.
  - apply NoDup_fmap_2_strong; [|apply NoDup_map_to_list]. intros [s c] [s' c'] H H' E.
    apply elem_of_map_to_list in H, H'. rewrite (Hl d sites ltac:(by apply list_elem_of_here) _ _ H), (Hl d sites ltac:(by apply list_elem_of_here) _ _ H') in E |- *.
    by injection E as ->.
  - intros p Hp Hq. apply list_elem_of_fmap in Hp as ([s c] & -> & Hs%elem_of_map_to_list).
    rewrite (Hl d sites ltac:(by apply list_elem_of_here) _ _ Hs) in Hq. cbn in Hq.
    apply list_elem_of_In, in_concat in Hq as (k & ([d' sites'] & <- & Hx%list_elem_of_In)%in_map_iff & Hk%list_elem_of_In).
    apply list_elem_of_fmap in Hk as ([s' c'] & E & Hs'%elem_of_map_to_list). cbn in E.
    rewrite (Hl d' sites' ltac:(by apply list_elem_of_further) _ _ Hs') in E. injection E as -> ->. apply Hd. apply list_elem_of_fmap. by exists (d', sites').
  - apply IH; [done|]. intros d' sites' Hd'. apply Hl. by apply list_elem_of_further.
Qed.

Lemma FindInlineSites_NoDup a m : wf m -> NoDup (FindInlineSites a m).
Proof.
  intros Hm. unfold FindInlineSites. destruct (m !! a) as [mods|] eqn:Ha; [|constructor].
  apply (sites_NoDup a); [apply NoDup_fst_map_to_list|]. intros d sites Hd%elem_of_map_to_list s c Hs.
  apply (Hm a d s c). unfold site_at. by rewrite Ha; cbn; rewrite Hd.
Qed.

Lemma recorded_spec inlinings id : module_id (recorded inlinings id) = id /\
  wf (default ∅ (m_pInlineSiteMap (recorded inlinings id))) /\
  forall a d s, is_Some (site_at (default ∅ (m_pInlineSiteMap (recorded inlinings id))) a d s) <-> (a, s, d) ∈ inlinings.
Proof.
  unfold recorded. induction inlinings as [|[[a s] d] l (IHi & IHw & IHs)] using rev_ind; cbn.
  - split_and!; [done|by intros|]. intros a d s. split; [by intros []|set_solver].
  - rewrite foldl_app. cbn [foldl]. set (module := foldl _ _ l) in *. cbn [record_inline_site module_id m_pInlineSiteMap default from_option fst snd Datatypes.id].
    split_and!; [done|by apply wf_add|]. intros a' d' s'. rewrite site_at_add. case_decide as H.
    + destruct H as (-> & -> & ->). split; [set_solver|by eexists].
    + rewrite IHs, elem_of_app, list_elem_of_singleton. naive_solver.
Qed.


(** When A is inlined into B and B into C, a rejit of A is not requested for C. *)
Lemma RequestRejit_not_recursive :
  RequestRejit 1 (recorded [(1, 2, 7); (2, 3, 7)] 7) = [(7, 1); (7, 2)].
Proof. vm_compute. reflexivity. Qed.
