(* ===== verification/SigConvert.v ===== *)
(** The conversion of signatures from one module to another ([AssemblyInjector.cpp], the
    [Convert...Signature] functions): a parser over the source signature and a builder of
    the target signature advance together, and every token is converted on the way. *)
From S2P Require Import Prelude CorSig SignatureBuilder Types SigParser.

Definition IMAGE_CEE_CS_CALLCONV_DEFAULT : Z := 0x0.
Definition IMAGE_CEE_CS_CALLCONV_VARARG : Z := 0x5.

(** [CorIsPrimitiveType] *)
Definition CorIsPrimitiveType (et : Z) : bool :=
  (et <? ELEMENT_TYPE_PTR) || (et =? ELEMENT_TYPE_I) || (et =? ELEMENT_TYPE_U).

(** ** The definitions *)

Section Convert.

(** [T] is the state of the importer, [ImportToken] its function
    [ConvertToken] on tokens. *)
Context {T : Type} (ImportToken : Z -> M T Z).
Context (sig : list Z).

(** The importer, the parser [sig] and the builder [newSig]. *)
Definition Conversion : Type := T * SigParser * CSignatureBuilder.
Notation C := (M Conversion).

Definition in_importer {A} (m : M T A) : C A := fun '(t, p, b) => let '(o, t') := m t in (o, (t', p, b)).
Definition in_parser {A} (m : P A) : C A := fun '(t, p, b) => let '(o, p') := m p in (o, (t, p', b)).
Definition in_builder {A} (m : B A) : C A := fun '(t, p, b) => let '(o, b') := m b in (o, (t, p, b')).

Definition ConvertElemType : C unit := et <- in_parser (GetElemType sig) ;; in_builder (AddElementType et).
Definition ConvertData : C unit := data <- in_parser (GetData sig) ;; in_builder (Add data).

(** [ConvertToken] on the parser and the builder. *)
Definition ConvertSigToken : C unit :=
  tk <- in_parser (GetToken sig) ;;
  tk <- in_importer (ImportToken tk) ;;
  in_builder (AddToken tk).

(** [for (ULONG i = 0; i < n; i++)] *)
Fixpoint count_loop (fuel : nat) (n : Z) (body : C unit) : C unit :=
  if n <=? 0 then ret tt
  else match fuel with
  | O => out_of_fuel
  | S fuel => body ;;; count_loop fuel (n - 1) body
  end.

Definition ConvertLengthPrefixedDataList (fuel : nat) : C unit :=
  length <- in_parser (PeekData sig) ;;
  ConvertData ;;;
  count_loop fuel length ConvertData.

Definition ConvertCustomModSignature : C unit := ConvertElemType ;;; ConvertSigToken.

(** The loop ends with the result of the last [PeekElemType]; what
    [ConvertCustomModSignature] returns is dropped. *)
Fixpoint ConvertCustomModSignatureList (fuel : nat) : C unit :=
  match fuel with
  | O => out_of_fuel
  | S fuel =>
      et <- in_parser (PeekElemType sig) ;;
      if (et =? ELEMENT_TYPE_CMOD_REQD) || (et =? ELEMENT_TYPE_CMOD_OPT) then
        attempt ConvertCustomModSignature ;;;
        ConvertCustomModSignatureList fuel
      else ret tt
  end.

(** The functions that convert types, given [ConvertTypeSignature] itself. *)
Section Recursion.

Context (fuel : nat) (ConvertTypeSignature : C unit).

Definition ConvertParamSignature : C unit := ConvertCustomModSignatureList fuel ;;; ConvertTypeSignature.
Definition ConvertFieldSignature : C unit := ConvertCustomModSignatureList fuel ;;; ConvertTypeSignature.

Definition ConvertMethodSpecSignature : C unit :=
  argCount <- in_parser (PeekData sig) ;;
  ConvertData ;;;
  count_loop fuel argCount ConvertTypeSignature.

Definition ConvertMethodDefRefOrPropertySignature (callConv : Z) : C unit :=
  (if Z.land callConv IMAGE_CEE_CS_CALLCONV_GENERIC =? 0 then ret tt else ConvertData) ;;;
  countParams <- in_parser (PeekData sig) ;;
  ConvertData ;;;
  ConvertParamSignature ;;;
  count_loop fuel countParams ConvertParamSignature.

(** The [while] loop over the modifiers and [PINNED] of a local: the element that ends it. *)
Fixpoint local_prefixes (n : nat) (et : Z) : C Z :=
  if (et =? ELEMENT_TYPE_CMOD_OPT) || (et =? ELEMENT_TYPE_CMOD_REQD) || (et =? ELEMENT_TYPE_PINNED) then
    match n with
    | O => out_of_fuel
    | S n =>
        (if et =? ELEMENT_TYPE_PINNED then ConvertElemType else ConvertCustomModSignature) ;;;
        et <- in_parser (PeekElemType sig) ;;
        local_prefixes n et
    end
  else ret et.

(** One local. *)
Definition convert_local : C unit :=
  et <- in_parser (PeekElemType sig) ;;
  if et =? ELEMENT_TYPE_TYPEDBYREF then ConvertElemType
  else
    et <- local_prefixes fuel et ;;
    (if et =? ELEMENT_TYPE_BYREF then ConvertElemType else ret tt) ;;;
    ConvertTypeSignature.

Definition ConvertLocalVarSignature : C unit :=
  argCount <- in_parser (PeekData sig) ;;
  ConvertData ;;;
  count_loop fuel argCount convert_local.

(** What the calling convention selects; others are logged. *)
Definition convert_convention (callConv : Z) : C unit :=
  let maskedCallConv := Z.land callConv IMAGE_CEE_CS_CALLCONV_MASK in
  if (maskedCallConv =? IMAGE_CEE_CS_CALLCONV_DEFAULT) || (maskedCallConv =? IMAGE_CEE_CS_CALLCONV_VARARG) ||
     (maskedCallConv =? IMAGE_CEE_CS_CALLCONV_PROPERTY)
  then ConvertMethodDefRefOrPropertySignature callConv
  else if maskedCallConv =? IMAGE_CEE_CS_CALLCONV_FIELD then ConvertFieldSignature
  else if maskedCallConv =? IMAGE_CEE_CS_CALLCONV_GENERICINST then ConvertMethodSpecSignature
  else if maskedCallConv =? IMAGE_CEE_CS_CALLCONV_LOCAL_SIG then ConvertLocalVarSignature
  else ret tt.

Definition ConvertNonTypeSignature : C unit :=
  callConvTmp <- in_parser (GetCallingConvInfo sig) ;;
  let callConv := u8 (Z.land callConvTmp 0xff) in
  in_builder (AddData [Some callConv]) ;;;
  convert_convention callConv.

(** The [switch] of [ConvertTypeSignature]; other elements are logged. *)
Definition convert_parts (et : Z) : C unit :=
  if et =? ELEMENT_TYPE_ARRAY then
    ConvertTypeSignature ;;; ConvertData ;;; ConvertLengthPrefixedDataList fuel ;;; ConvertLengthPrefixedDataList fuel
  else if et =? ELEMENT_TYPE_FNPTR then ConvertNonTypeSignature
  else if (et =? ELEMENT_TYPE_PTR) || (et =? ELEMENT_TYPE_SZARRAY) then
    ConvertCustomModSignatureList fuel ;;; ConvertTypeSignature
  else if (et =? ELEMENT_TYPE_CLASS) || (et =? ELEMENT_TYPE_VALUETYPE) then ConvertSigToken
  else if et =? ELEMENT_TYPE_GENERICINST then
    ConvertElemType ;;; ConvertSigToken ;;; ConvertMethodSpecSignature
  else if (et =? ELEMENT_TYPE_MVAR) || (et =? ELEMENT_TYPE_VAR) then ConvertData
  else if et =? ELEMENT_TYPE_BYREF then ConvertTypeSignature
  else ret tt.

Definition convert_type_signature : C unit :=
  et <- in_parser (PeekData sig) ;;
  ConvertElemType ;;;
  if CorIsPrimitiveType et then ret tt else convert_parts et.

End Recursion.

Fixpoint ConvertTypeSignature (fuel : nat) : C unit :=
  match fuel with
  | O => out_of_fuel
  | S fuel => convert_type_signature fuel (ConvertTypeSignature fuel)
  end.

End Convert.
