(* ===== verification/SigConvertSpec.v ===== *)
(** What the conversion of signatures does: on a well-formed signature it writes the
    signature of the type whose tokens are converted, in the order in which they stand. *)
From S2P Require Import Prelude CorSig SignatureBuilder Types SigParser TypeSpec SigConvert.

(** ** The reference: the conversion of the tokens of a type *)

Definition traverse {S A B} (f : A -> M S B) : list A -> M S (list B) :=
  fix go l := match l with
  | [] => ret []
  | x :: l => y <- f x ;; ys <- go l ;; ret (y :: ys)
  end.

Section Reference.

Context {T : Type} (ImportToken : Z -> M T Z).

Definition convert_modifier (m : CModifierType) : M T CModifierType :=
  tk <- ImportToken (mod_token m) ;; ret (mkModifier (mod_type m) tk).

Definition convert_base (b : TypeBase) : M T TypeBase :=
  ms <- traverse convert_modifier (m_modifiers b) ;;
  ret (mkBase (m_type b) (m_isSentinel b) (m_isPinned b) ms).

Fixpoint convert_type (t : CType) : M T CType :=
  b <- convert_base (base t) ;;
  match t with
  | CSimpleType _ => ret (CSimpleType b)
  | CTokenType _ tk => tk <- ImportToken tk ;; ret (CTokenType b tk)
  | CCompositeType _ r => r <- convert_type r ;; ret (CCompositeType b r)
  | CArrayType _ r rank counts bounds => r <- convert_type r ;; ret (CArrayType b r rank counts bounds)
  | CGenericParameterType _ p => ret (CGenericParameterType b p)
  | CGenericInstance _ r ps => r <- convert_type r ;; ps <- traverse convert_type ps ;; ret (CGenericInstance b r ps)
  | CFunctionType _ conv r ps gen =>
      r <- convert_type r ;; ps <- traverse convert_type ps ;; ret (CFunctionType b conv r ps gen)
  end.

End Reference.

(** Where prefixes may stand: nowhere, custom modifiers only, or as in a local. *)
Inductive mode := Plain | Mods | Local.

Definition base_ok (m : mode) (b : TypeBase) : bool :=
  negb (m_isSentinel b) &&
  match m with
  | Plain => negb (m_isPinned b) && bool_decide (length (m_modifiers b) = 0%nat)
  | Mods => negb (m_isPinned b)
  | Local => true
  end.

(** The conventions under which what follows is converted as a method or property. *)
Definition method_conventions : list Z :=
  [IMAGE_CEE_CS_CALLCONV_DEFAULT; IMAGE_CEE_CS_CALLCONV_VARARG; IMAGE_CEE_CS_CALLCONV_PROPERTY].

(** The types whose signatures are converted: custom modifiers stand where ECMA-335 has
    them, there is no sentinel, and function pointers are managed. *)
Fixpoint convertible (m : mode) (t : CType) : bool :=
  base_ok m (base t) &&
  match t with
  | CSimpleType _ | CTokenType _ _ | CGenericParameterType _ _ => true
  | CCompositeType b r => convertible (if m_type b =? ELEMENT_TYPE_BYREF then Plain else Mods) r
  | CArrayType _ r _ _ _ => convertible Plain r
  | CGenericInstance _ r ps =>
      match r with CTokenType b _ => base_ok Plain b | _ => false end && forallb (convertible Plain) ps
  | CFunctionType _ conv r ps _ =>
      bool_decide (Z.land conv IMAGE_CEE_CS_CALLCONV_MASK ∈ method_conventions) &&
      convertible Mods r && forallb (convertible Mods) ps
  end.

(** ** Running the parser and the builder together *)

Section Run.

Context {T : Type} (ImportToken : Z -> M T Z) (sig : list Z).
Context (Hlen : Z.of_nat (length sig) < 2 ^ 32).

Notation C := (M (Conversion (T := T))).

Lemma parser_op_run c op x bs pre post :
  reads_back c op x -> appends c bs -> sig = pre ++ bs ++ post ->
  run_op sig op (parser_at sig (length (bs ++ post))) = (Ok x, parser_at sig (length post)).
Proof.
  intros Hr Ha Hs. destruct (read_back_run c op x pre Hr) as (bs' & Ha' & _ & H).
  assert (bs' = bs) as -> by (destruct Hr; inversion Ha; inversion Ha'; congruence). by apply H.
Qed.

Lemma GetData_at x bs pre post : DataSig x bs -> sig = pre ++ bs ++ post ->
  GetData sig (parser_at sig (length (bs ++ post))) = (Ok x, parser_at sig (length post)).
Proof. intros [x' bs' Hx E]. apply (parser_op_run (CallAdd x') OpData); by constructor. Qed.

Lemma GetToken_at tk bs pre post : TokenSig tk bs -> sig = pre ++ bs ++ post ->
  GetToken sig (parser_at sig (length (bs ++ post))) = (Ok tk, parser_at sig (length post)).
Proof. intros [x' bs' Hx E]. apply (parser_op_run (CallToken x') OpToken); by constructor. Qed.

Lemma GetElemType_at e pre post : is_byte e -> sig = pre ++ [e] ++ post ->
  GetElemType sig (parser_at sig (length ([e] ++ post))) = (Ok e, parser_at sig (length post)).
Proof.
  intros He Hs. apply (parser_op_run (CallElement e) OpElem e [e] pre post); [by constructor| |done].
  rewrite <- (u8_small e) at 2 by done. constructor.
Qed.

(** A look ahead finds what a read returns. *)
Lemma PeekData_at x bs pre post : DataSig x bs -> sig = pre ++ bs ++ post ->
  PeekData sig (parser_at sig (length (bs ++ post))) = (Ok x, parser_at sig (length (bs ++ post))).
Proof.
  intros Hd Hs. pose proof (GetData_at x bs pre post Hd Hs) as H. unfold GetData, PeekData, bind, gets, lift, ret in *.
  destruct (CorSigUncompressData _ _ _) as [[i n]| | |]; try done. cbn in *. by injection H as [= ->].
Qed.

Lemma PeekElemType_at e bs pre post : is_byte e -> sig = pre ++ (e :: bs) ++ post ->
  PeekElemType sig (parser_at sig (length ((e :: bs) ++ post))) = (Ok e, parser_at sig (length ((e :: bs) ++ post))).
Proof.
  intros He Hs. pose proof (GetElemType_at e pre (bs ++ post) He Hs) as H.
  change ([e] ++ bs ++ post) with ((e :: bs) ++ post) in H.
  unfold GetElemType, PeekElemType, first_byte, bind, gets, lift, ret, fail in *. cbn in *.
  destruct (0 <? Z.of_nat (S _)); [|done]. unfold read_byte in *. destruct (read_at _ _ _); [|done]. cbn in *. by injection H as [= ->].
Qed.

Lemma GetCallingConvInfo_at e pre post : is_byte e -> sig = pre ++ [e] ++ post ->
  GetCallingConvInfo sig (parser_at sig (length ([e] ++ post))) = (Ok e, parser_at sig (length post)).
Proof.
  intros He Hs. rewrite <- (GetElemType_at e pre post He Hs). unfold GetCallingConvInfo, GetElemType, first_byte, CorSigUncompressCallingConv.
  unfold bind, gets, lift, ret, fail. cbn. by destruct (0 <? Z.of_nat (S _)).
Qed.

(** [m] consumes [bs], appends [bs'] and takes the importer from [t] to [t']. *)
Definition converts (m : C unit) (t : T) (bs bs' : list Z) (t' : T) : Prop :=
  forall pre post b out, sig = pre ++ bs ++ post -> holds b out ->
  Z.of_nat (length out) + Z.of_nat (length bs') + 4 < limit ->
  exists b', m (t, parser_at sig (length (bs ++ post)), b) = (Ok tt, (t', parser_at sig (length post), b')) /\
    holds b' (out ++ bs').

Lemma converts_ret t : converts (ret tt) t [] [] t.
Proof. intros pre post b out _ Hh _. exists b. by rewrite app_nil_r. Qed.

Lemma converts_bind m1 m2 t1 t2 t3 bs1 bs2 bs1' bs2' :
  converts m1 t1 bs1 bs1' t2 -> converts m2 t2 bs2 bs2' t3 -> converts (m1 ;;; m2) t1 (bs1 ++ bs2) (bs1' ++ bs2') t3.
Proof.
  intros H1 H2 pre post b out Hs Hh Hl. rewrite length_app in Hl. rewrite <- app_assoc in Hs |- *.
  destruct (H1 pre (bs2 ++ post) b out Hs Hh) as (b1 & E1 & Hh1); [lia|].
  destruct (H2 (pre ++ bs1) post b1 (out ++ bs1')) as (b2 & E2 & Hh2); [by rewrite <- app_assoc|exact Hh1|rewrite length_app; lia|].
  exists b2. rewrite (run_bind _ _ _ _ _ E1). by rewrite app_assoc.
Qed.

Lemma converts_last m1 m2 t1 t2 t3 bs bs' :
  converts m1 t1 bs bs' t2 -> converts m2 t2 [] [] t3 -> converts (m1 ;;; m2) t1 bs bs' t3.
Proof. intros H1 H2. rewrite <- (app_nil_r bs), <- (app_nil_r bs'). by eapply converts_bind. Qed.

Lemma converts_first m1 m2 t1 t2 t3 bs bs' :
  converts m1 t1 [] [] t2 -> converts m2 t2 bs bs' t3 -> converts (m1 ;;; m2) t1 bs bs' t3.
Proof. intros H1 H2. apply (converts_bind _ _ _ _ _ [] bs [] bs' H1 H2). Qed.

(** A read followed by a write. *)
Lemma converts_move {A} (r : P A) (w : A -> B unit) t x bs bs' :
  (forall pre post, sig = pre ++ bs ++ post ->
     r (parser_at sig (length (bs ++ post))) = (Ok x, parser_at sig (length post))) ->
  writes (w x) bs' -> converts (y <- in_parser r ;; in_builder (w y)) t bs bs' t.
Proof.
  intros Hr Hw pre post b out Hs Hh Hl. destruct (Hw b out Hh Hl) as (b' & E & Hh'). exists b'.
  split; [|done]. unfold bind, in_parser, in_builder. by rewrite (Hr _ _ Hs), E.
Qed.

Lemma converts_elem t e : is_byte e -> converts (ConvertElemType sig) t [e] [e] t.
Proof. intros He. apply (converts_move _ AddElementType _ e); [intros; by eapply GetElemType_at|by apply writes_element]. Qed.

Lemma converts_data t x bs : DataSig x bs -> converts (ConvertData sig) t bs bs t.
Proof. intros Hd. apply (converts_move _ Add _ x); [intros; by eapply GetData_at|by apply writes_data]. Qed.

Lemma converts_token t tk bs tk' bs' t' :
  TokenSig tk bs -> ImportToken tk t = (Ok tk', t') -> TokenSig tk' bs' ->
  converts (ConvertSigToken ImportToken sig) t bs bs' t'.
Proof.
  intros Ht Hi Ht' pre post b out Hs Hh Hl. destruct (writes_token _ _ Ht' b out Hh Hl) as (b' & E & Hh'). exists b'.
  split; [|done]. unfold ConvertSigToken, bind, in_parser, in_importer, in_builder. by rewrite (GetToken_at _ _ _ _ Ht Hs), Hi, E.
Qed.

Lemma converts_peek {A} (r : P A) (k : A -> C unit) t x bs bs' t' :
  (forall pre post, sig = pre ++ bs ++ post ->
     r (parser_at sig (length (bs ++ post))) = (Ok x, parser_at sig (length (bs ++ post)))) ->
  converts (k x) t bs bs' t' -> converts (y <- in_parser r ;; k y) t bs bs' t'.
Proof.
  intros Hr Hk pre post b out Hs Hh Hl. destruct (Hk pre post b out Hs Hh Hl) as (b' & E & Hh'). exists b'.
  split; [|done]. unfold bind, in_parser. by rewrite (Hr _ _ Hs), E.
Qed.

Lemma converts_peek_data (k : Z -> C unit) t x nb rest bs' t' :
  DataSig x nb -> converts (k x) t (nb ++ rest) bs' t' -> converts (n <- in_parser (PeekData sig) ;; k n) t (nb ++ rest) bs' t'.
Proof.
  intros Hd. apply converts_peek. intros pre post Hs. rewrite <- app_assoc in Hs |- *. by eapply PeekData_at.
Qed.

Lemma converts_peek_elem (k : Z -> C unit) t e bs bs' t' :
  is_byte e -> converts (k e) t (e :: bs) bs' t' -> converts (et <- in_parser (PeekElemType sig) ;; k et) t (e :: bs) bs' t'.
Proof. intros He. apply converts_peek. intros pre post Hs. by eapply PeekElemType_at. Qed.

End Run.

(** ** Types *)

Section Types.

Context {T : Type} (ImportToken : Z -> M T Z).
Context (import_type_token : forall tk t tk' t', type_token tk -> ImportToken tk t = (Ok tk', t') -> type_token tk').
Context (sig : list Z) (Hlen : Z.of_nat (length sig) < 2 ^ 32).

Notation C := (M (Conversion (T := T))).
Notation converts := (converts sig).
Notation convert_type := (convert_type ImportToken).
Notation ConvertTypeSignature := (ConvertTypeSignature ImportToken sig).

Lemma token_image tk bs t tk' t' :
  TokenSig tk bs -> ImportToken tk t = (Ok tk', t') -> exists bs', TokenSig tk' bs' /\ (length bs' <= 4)%nat.
Proof.
  intros [x bs' Hx _] Hi. apply import_type_token in Hi as Ht; [|done].
  destruct (token_rest_codec _ Ht) as (b & E & Hl & _). exists b. split; [by constructor|lia].
Qed.

Lemma converts_ext (m m' : C unit) t bs bs' t' : (forall s, m s = m' s) -> converts m' t bs bs' t' -> converts m t bs bs' t'.
Proof. intros He H pre post b out Hs Hh Hl. rewrite He. by apply (H pre). Qed.

Lemma converts_attempt (m k : C unit) t1 t2 t3 bs1 bs2 bs1' bs2' :
  converts m t1 bs1 bs1' t2 -> converts k t2 bs2 bs2' t3 -> converts (attempt m ;;; k) t1 (bs1 ++ bs2) (bs1' ++ bs2') t3.
Proof.
  intros H1 H2. eapply (converts_ext _ ((attempt m ;;; ret tt) ;;; k)); [intros s; by rewrite bind_bind|].
  eapply converts_bind; [|done]. intros pre post b out Hs Hh Hl. destruct (H1 pre post b out Hs Hh Hl) as (b' & E & Hh').
  exists b'. split; [|done]. unfold bind, attempt. by rewrite E.
Qed.

(** [n] conversions in a row. *)
Inductive each (m : C unit) : nat -> T -> list Z -> list Z -> T -> Prop :=
  | each_nil t : each m 0 t [] [] t
  | each_cons n t1 t2 t3 bs bs' rest rest' :
      converts m t1 bs bs' t2 -> each m n t2 rest rest' t3 -> each m (S n) t1 (bs ++ rest) (bs' ++ rest') t3.

Lemma converts_count m n t bs bs' t' : each m n t bs bs' t' -> forall fuel, (n <= fuel)%nat ->
  converts (count_loop fuel (Z.of_nat n) m) t bs bs' t'.
Proof.
  induction 1 as [t|n t1 t2 t3 bs bs' rest rest' Hm _ IH]; intros fuel Hf.
  - destruct fuel; apply converts_ret.
  - destruct fuel as [|fuel]; [lia|]. cbn [count_loop]. rewrite (proj2 (Z.leb_gt _ _)) by lia.
    eapply converts_bind; [done|]. replace (Z.of_nat (S n) - 1) with (Z.of_nat n) by lia. apply IH. lia.
Qed.

Lemma converts_counted (m : C unit) n nb t bs bs' t' fuel :
  DataSig (Z.of_nat n) nb -> each m n t bs bs' t' -> (n <= fuel)%nat ->
  converts (k <- in_parser (PeekData sig) ;; ConvertData sig ;;; count_loop fuel k m) t (nb ++ bs) (nb ++ bs') t'.
Proof.
  intros Hn He Hf. eapply converts_peek_data; [done|exact Hn|].
  eapply converts_bind; [by eapply converts_data|]. by apply converts_count.
Qed.

Lemma converts_data_list xs cb (t : T) fuel :
  CountedSig DataSig xs cb -> (length cb <= fuel)%nat -> converts (ConvertLengthPrefixedDataList sig fuel) t cb cb t.
Proof.
  intros [xs' nb bss Hn Hs] Hf. rewrite length_app in Hf.
  pose proof (seq_length DataSig xs' bss (fun x b H => proj1 (data_length x b H)) Hs).
  unfold ConvertLengthPrefixedDataList. eapply converts_counted; [done| |lia].
  clear Hn Hf H. induction Hs; [constructor|]. eapply each_cons; [by eapply converts_data|done].
Qed.

(** *** Prefixes *)

Lemma cmods_test e : (e =? ELEMENT_TYPE_CMOD_REQD) || (e =? ELEMENT_TYPE_CMOD_OPT) = bool_decide (e ∈ cmods).
Proof.
  unfold cmods. destruct (Z.eqb_spec e ELEMENT_TYPE_CMOD_REQD), (Z.eqb_spec e ELEMENT_TYPE_CMOD_OPT); symmetry;
    [apply bool_decide_eq_true; set_solver..|apply bool_decide_eq_false; set_solver].
Qed.

(** A modifier and its image. *)
Lemma converts_modifier m mb t m' t' :
  ModifierSig m mb -> convert_modifier ImportToken m t = (Ok m', t') ->
  exists mb', ModifierSig m' mb' /\ (length mb' <= 4 * length mb)%nat /\
    converts (ConvertCustomModSignature ImportToken sig) t mb mb' t'.
Proof.
  intros [[mt tk] bs Hc Ht] Hm. cbn [mod_type mod_token] in *. unfold convert_modifier in Hm.
  apply bind_Ok in Hm as (tk' & t1 & Hi & [= <- <-]). cbn [mod_type mod_token] in *.
  destruct (token_image _ _ _ _ _ Ht Hi) as (bs' & Ht' & Hl). exists (mt :: bs'). split_and!; [by apply (modifier_sig (mkModifier mt tk'))| |].
  - pose proof (token_length _ _ Ht). cbn [length]. lia.
  - apply (converts_bind _ _ _ _ t _ [mt] bs [mt] bs'); [apply converts_elem; [done|by apply (in_bytes _ _ Hc)]|].
    by eapply converts_token.
Qed.

Lemma converts_modifiers ms mb : SeqSig ModifierSig ms mb -> forall t ms' t1,
  traverse (convert_modifier ImportToken) ms t = (Ok ms', t1) ->
  exists mb', SeqSig ModifierSig ms' mb' /\ (length mb' <= 4 * length mb)%nat /\
    (forall k fuel e bs bs' t2, e ∉ cmods -> is_byte e -> (length ms < fuel)%nat -> converts k t1 (e :: bs) bs' t2 ->
       converts (ConvertCustomModSignatureList ImportToken sig fuel ;;; k) t (mb ++ e :: bs) (mb' ++ bs') t2) /\
    (forall k n e bs bs' t2, e ∉ cmods -> e <> ELEMENT_TYPE_PINNED -> is_byte e -> (length ms <= n)%nat ->
       converts (k e) t1 (e :: bs) bs' t2 ->
       converts (et <- in_parser (PeekElemType sig) ;; et <- local_prefixes ImportToken sig n et ;; k et) t (mb ++ e :: bs) (mb' ++ bs') t2).
Proof.
  induction 1 as [|m ms b bss Hm _ IH]; intros t ms' t1 Ht; cbn [traverse] in Ht.
  - injection Ht as <- <-. exists []. split; [constructor|]. split; [done|]. split.
    + intros k fuel e bs bs' t2 He Hb Hf Hk. destruct fuel as [|fuel]; cbn [length] in Hf; [lia|]. cbn [ConvertCustomModSignatureList app].
      eapply converts_ext; [intros s; apply bind_bind|]. apply converts_peek_elem; [done|done|].
      rewrite cmods_test, bool_decide_false by done. done.
    + intros k n e bs bs' t2 He Hp Hb _ Hk. cbn [app]. apply converts_peek_elem; [done|done|].
      assert (local_prefixes ImportToken sig n e = ret e) as E.
      { destruct n; cbn [local_prefixes]; rewrite (orb_comm (e =? ELEMENT_TYPE_CMOD_OPT)), cmods_test, bool_decide_false by done;
          by rewrite (proj2 (Z.eqb_neq _ _)). }
      rewrite E. exact Hk.
  - apply bind_Ok in Ht as (m' & tm & Hm' & Ht). apply bind_Ok in Ht as (ms1 & t2 & Hms & [= <- <-]).
    destruct (converts_modifier _ _ _ _ _ Hm Hm') as (b' & Hs' & Hl' & Hc).
    destruct (IH _ _ _ Hms) as (bss' & Hss & Hls & Hk1 & Hk2). exists (b' ++ bss'). rewrite !length_app.
    split; [by constructor|]. split; [lia|]. destruct Hm as [[mt tk] tb Hmt Htk]. cbn [mod_type mod_token] in *.
    pose proof (in_bytes _ _ Hmt eq_refl) as Hby. split.
    + intros k fuel e bs bs' t3 He Hb Hf Hk. destruct fuel as [|fuel]; cbn [length] in Hf; [lia|]. cbn [ConvertCustomModSignatureList].
      rewrite <- !app_assoc. eapply converts_ext; [intros s; apply bind_bind|]. cbn [app]. apply converts_peek_elem; [done|done|].
      rewrite cmods_test, bool_decide_true by done. eapply converts_ext; [intros s; apply bind_bind|].
      apply (converts_attempt _ _ _ tm _ (mt :: tb) (bss ++ e :: bs)); [exact Hc|]. apply Hk1; [done|done|lia|done].
    + intros k n e bs bs' t3 He Hp Hb Hf Hk. destruct n as [|n]; cbn [length] in Hf; [lia|].
      rewrite <- !app_assoc. cbn [app]. apply converts_peek_elem; [done|done|]. cbn [local_prefixes].
      rewrite (orb_comm (mt =? ELEMENT_TYPE_CMOD_OPT)), cmods_test, bool_decide_true by done. cbn [orb].
      assert (mt =? ELEMENT_TYPE_PINNED = false) as -> by (unfold cmods in Hmt; set_unfold in Hmt; destruct Hmt as [->|[->|[]]]; done).
      eapply converts_ext; [intros s; apply bind_bind|].
      apply (converts_bind _ _ _ _ tm _ (mt :: tb) (bss ++ e :: bs)); [exact Hc|].
      eapply converts_ext; [intros s; apply bind_bind|]. apply Hk2; [done|done|done|lia|done].
Qed.

(** *** Types with their prefixes *)

(** The conversion of a type where prefixes stand as [m] says. *)
Definition typ (m : mode) (fuel : nat) : C unit :=
  match m with
  | Plain => ConvertTypeSignature fuel
  | Mods => ConvertParamSignature ImportToken sig fuel (ConvertTypeSignature fuel)
  | Local => convert_local ImportToken sig fuel (ConvertTypeSignature fuel)
  end.

(** The elements that may follow the prefixes. *)
Definition element (e : Z) : Prop := is_byte e /\ e ∉ cmods /\ e <> ELEMENT_TYPE_PINNED.

Lemma converts_base m b bb s b' s1 :
  base_ok m b = true -> BaseSig b bb -> element (m_type b) -> convert_base ImportToken b s = (Ok b', s1) ->
  m_type b' = m_type b /\
  exists bb', BaseSig b' bb' /\ (length bb' <= 4 * length bb)%nat /\
    forall body body' s2 fuel, (length (bb ++ body) <= fuel)%nat ->
    converts (ConvertTypeSignature fuel) s1 (m_type b :: body) (m_type b :: body') s2 ->
    (m_type b = ELEMENT_TYPE_BYREF -> converts (ConvertTypeSignature fuel) s1 body body' s2) ->
    (m_type b = ELEMENT_TYPE_TYPEDBYREF -> body = [] /\ body' = [] /\ s2 = s1) ->
    converts (typ m fuel) s (bb ++ body) (bb' ++ body') s2.
Proof.
  intros Hok Hb (He & Hec & Hep) Hcb. unfold convert_base in Hcb.
  apply bind_Ok in Hcb as (ms' & t1 & Hms & [= <- <-]). split; [done|].
  destruct Hb as [b ms Hms0]. cbn [m_type].
  destruct (converts_modifiers _ _ Hms0 _ _ _ Hms) as (mb' & Hs' & Hl & Hk1 & Hk2).
  pose proof (seq_length ModifierSig _ _ (fun x b H => ltac:(destruct H; cbn; lia)) Hms0) as Hlm.
  unfold base_ok in Hok. destruct (m_isSentinel b) eqn:Es; [done|]. cbn [negb andb flag app] in *.
  exists (flag (m_isPinned b) ELEMENT_TYPE_PINNED ++ mb' ++ [m_type b]).
  split; [exact (base_sig (mkBase (m_type b) false (m_isPinned b) ms') mb' Hs')|].
  split; [rewrite !length_app; cbn [length]; lia|]. intros body body' s2 fuel Hf Hc Hr Ht.
  rewrite !length_app in Hf. cbn [length] in Hf. rewrite <- !app_assoc. cbn [app]. destruct m; cbn [typ].
  - apply andb_true_iff in Hok as [Hp Hm0%bool_decide_eq_true]. destruct (m_isPinned b); [done|]. cbn [flag app].
    destruct (m_modifiers b); [|done]. inversion Hms0; subst. cbn [traverse] in Hms. injection Hms as <- <-. inversion Hs'; subst. exact Hc.
  - destruct (m_isPinned b); [done|]. cbn [flag app]. apply Hk1; [done|done|lia|done].
  - set (k := fun et : Z => (if et =? ELEMENT_TYPE_BYREF then ConvertElemType sig else ret tt) ;;; ConvertTypeSignature fuel).
    assert (converts (k (m_type b)) t1 (m_type b :: body) (m_type b :: body') s2) as Hk.
    { subst k. cbn beta. destruct (Z.eqb_spec (m_type b) ELEMENT_TYPE_BYREF) as [E|E].
      - apply (converts_bind _ _ _ _ t1 _ [m_type b] body [m_type b] body'); [by apply converts_elem|by apply Hr].
      - eapply converts_first; [apply converts_ret|exact Hc]. }
    assert (forall e0 rest rest', is_byte e0 -> e0 <> ELEMENT_TYPE_TYPEDBYREF ->
      converts (et <- in_parser (PeekElemType sig) ;; et <- local_prefixes ImportToken sig fuel et ;; k et) s (e0 :: rest) rest' s2 ->
      converts (convert_local ImportToken sig fuel (ConvertTypeSignature fuel)) s (e0 :: rest) rest' s2) as Hloc.
    { intros e0 rest rest' He0 Hn H pre post b0 out Hs Hh Hlo. destruct (H pre post b0 out Hs Hh Hlo) as (b1 & E & Hh1). exists b1.
      split; [|done]. rewrite <- E. unfold convert_local, bind, in_parser. rewrite (PeekElemType_at sig Hlen e0 rest pre post He0 Hs).
      by rewrite (proj2 (Z.eqb_neq _ _)). }
    destruct (m_isPinned b); cbn [flag app].
    + apply Hloc; [done|done|]. apply converts_peek_elem; [done|done|]. destruct fuel as [|fuel']; [lia|]. cbn [local_prefixes].
      cbn [orb]. eapply converts_ext; [intros ?; apply bind_bind|].
      apply (converts_bind _ _ _ _ s _ [ELEMENT_TYPE_PINNED] _ [ELEMENT_TYPE_PINNED]); [by apply converts_elem|].
      eapply converts_ext; [intros ?; apply bind_bind|]. apply (Hk2 k fuel'); [done|done|done|lia|done].
    + destruct Hms0 as [|md mds mb0 mbs [[mt tk] tb Hmt _] _].
      * cbn [traverse] in Hms. injection Hms as <- <-. inversion Hs'; subst. cbn [app] in *.
        destruct (decide (m_type b = ELEMENT_TYPE_TYPEDBYREF)) as [E|E].
        -- destruct (Ht E) as (-> & -> & ->). apply converts_peek_elem; [done|done|]. rewrite E. by apply converts_elem.
        -- apply Hloc; [done|done|]. apply (Hk2 k fuel); [done|done|done|lia|done].
      * cbn [mod_type app] in *. apply Hloc; [by apply (in_bytes _ _ Hmt)| |].
        { unfold cmods in Hmt. set_unfold in Hmt. by destruct Hmt as [->|[->|[]]]. }
        apply (Hk2 k fuel); [done|done|done|lia|done].
Qed.
(** *** The switch *)

(** The parts behind an element below 0x80, which is one byte of compressed data. *)
Lemma converts_switch e t body body' t' fuel :
  0 <= e < 128 ->
  converts (if CorIsPrimitiveType e then ret tt else convert_parts ImportToken sig fuel (ConvertTypeSignature fuel) e) t body body' t' ->
  converts (ConvertTypeSignature (S fuel)) t (e :: body) (e :: body') t'.
Proof.
  intros He H. cbn [SigConvert.ConvertTypeSignature]. unfold convert_type_signature.
  apply (converts_peek_data sig Hlen _ t e [e] body); [by apply data_byte|].
  apply (converts_bind _ _ _ _ t _ [e] body [e] body'); [apply converts_elem; [done|unfold is_byte; lia]|done].
Qed.

Definition method_sig (conv gen : Z) (n : nat) (gb nb : list Z) : Prop :=
  0 <= conv < 0x80 /\ Z.land conv IMAGE_CEE_CS_CALLCONV_MASK ∈ method_conventions /\
  (if Z.land conv IMAGE_CEE_CS_CALLCONV_GENERIC =? 0 then gen = 0 /\ gb = [] else DataSig gen gb) /\
  DataSig (Z.of_nat n) nb.

Lemma methods_test c : c ∈ method_conventions ->
  (c =? IMAGE_CEE_CS_CALLCONV_DEFAULT) || (c =? IMAGE_CEE_CS_CALLCONV_VARARG) || (c =? IMAGE_CEE_CS_CALLCONV_PROPERTY) = true.
Proof. unfold method_conventions. intros H. set_unfold in H. by destruct H as [->|[->|[->|[]]]]. Qed.

Lemma converts_convention conv t bs bs' t' fuel self :
  is_byte conv -> converts (convert_convention ImportToken sig fuel self conv) t bs bs' t' ->
  converts (ConvertNonTypeSignature ImportToken sig fuel self) t (conv :: bs) (conv :: bs') t'.
Proof.
  intros Hb H pre post b out Hs Hh Hl. cbn [length] in Hl.
  destruct (writes_call (CallData [conv]) [conv] (ap_data _) b out Hh) as (b1 & E1 & Hh1); [cbn [length]; lia|].
  destruct (H (pre ++ [conv]) post b1 (out ++ [conv])) as (b2 & E2 & Hh2); [by rewrite <- app_assoc|done|rewrite length_app; cbn [length]; lia|].
  exists b2. rewrite <- app_assoc in Hh2. split; [|exact Hh2].
  unfold ConvertNonTypeSignature, bind at 1, in_parser. rewrite (GetCallingConvInfo_at sig Hlen conv pre (bs ++ post) Hb Hs : _ (parser_at sig (length ((conv :: bs) ++ post))) = _).
  assert (u8 (Z.land conv 0xff) = conv) as ->.
  { change 0xff with (Z.ones 8). rewrite Z.land_ones by done. rewrite Z.mod_small by done. by apply u8_small. }
  unfold bind, in_builder. by rewrite (E1 : AddData [Some conv] b = _).
Qed.

(** Behind the convention: the count of generic parameters, the count, the return type and
    the parameters. *)
Lemma converts_method conv gen n gb nb t1 t2 t3 rb rb' pb pb' fuel :
  method_sig conv gen n gb nb -> converts (typ Mods fuel) t1 rb rb' t2 -> each (typ Mods fuel) n t2 pb pb' t3 -> (n <= fuel)%nat ->
  converts (ConvertNonTypeSignature ImportToken sig fuel (ConvertTypeSignature fuel)) t1
    (conv :: gb ++ nb ++ rb ++ pb) (conv :: gb ++ nb ++ rb' ++ pb') t3.
Proof.
  intros (Hc & Hm & Hg & Hn) Hr Hp Hf. apply converts_convention; [unfold is_byte; lia|]. unfold convert_convention.
  rewrite (methods_test _ Hm). unfold ConvertMethodDefRefOrPropertySignature.
  assert (converts (n <- in_parser (PeekData sig) ;; ConvertData sig ;;; typ Mods fuel ;;; count_loop fuel n (typ Mods fuel))
    t1 (nb ++ rb ++ pb) (nb ++ rb' ++ pb') t3) as H.
  { eapply converts_peek_data; [done|exact Hn|]. eapply converts_bind; [by eapply converts_data|].
    eapply converts_bind; [done|]. by apply converts_count. }
  case_match; [by destruct Hg as [-> ->]; eapply (converts_first _ _ _ _ t1); [apply converts_ret|]|].
  eapply converts_bind; [by eapply converts_data|exact H].
Qed.

(** *** All types *)

Definition type_converts (t : CType) (bs : list Z) : Prop :=
  forall m, convertible m t = true -> forall s t' s', convert_type t s = (Ok t', s') ->
  exists bs', TypeSig t' bs' /\ (length bs' <= 4 * length bs)%nat /\
    forall fuel, (length bs <= fuel)%nat -> converts (typ m fuel) s bs bs' s'.

Definition types_convert (ts : list CType) (bs : list Z) : Prop :=
  forall m, forallb (convertible m) ts = true -> forall s ts' s', traverse convert_type ts s = (Ok ts', s') ->
  exists bs', TypesSig ts' bs' /\ length ts' = length ts /\ (length bs' <= 4 * length bs)%nat /\
    (length ts <= length bs)%nat /\ forall fuel, (length bs <= fuel)%nat -> each (typ m fuel) (length ts) s bs bs' s'.

(** The bytes of a type, behind those of its base: [parts] is the rest of the constructor. *)
Lemma type_converts_parts t bb body (parts : TypeBase -> T -> outcome CType * T) :
  BaseSig (base t) bb -> element (m_type (base t)) -> m_type (base t) < 128 ->
  (forall s, convert_type t s = (b <- convert_base ImportToken (base t) ;; parts b) s) ->
  (forall b s1 t' s2, m_type b = m_type (base t) -> parts b s1 = (Ok t', s2) ->
     exists body', (forall bb', BaseSig b bb' -> TypeSig t' (bb' ++ body')) /\ (length body' <= 4 * length body)%nat /\
     (forall fuel, (length body <= fuel)%nat ->
        converts (if CorIsPrimitiveType (m_type b) then ret tt
                  else convert_parts ImportToken sig fuel (ConvertTypeSignature fuel) (m_type b)) s1 body body' s2) /\
     (m_type b = ELEMENT_TYPE_BYREF -> forall fuel, (length body <= fuel)%nat -> converts (ConvertTypeSignature fuel) s1 body body' s2) /\
     (m_type b = ELEMENT_TYPE_TYPEDBYREF -> body = [] /\ body' = [] /\ s2 = s1)) ->
  forall m, base_ok m (base t) = true -> forall s t' s', convert_type t s = (Ok t', s') ->
  exists bs', TypeSig t' bs' /\ (length bs' <= 4 * length (bb ++ body))%nat /\
    forall fuel, (length (bb ++ body) <= fuel)%nat -> converts (typ m fuel) s (bb ++ body) bs' s'.
Proof.
  intros Hb He H128 Heq Hparts m Hok s t' s' Ht. rewrite Heq in Ht. apply bind_Ok in Ht as (b' & s1 & Hcb & Hp).
  destruct (converts_base m _ bb s b' s1 Hok Hb He Hcb) as (Em & bb' & Hb' & Hlb & Hc).
  destruct (Hparts b' s1 t' s' Em Hp) as (body' & Ht' & Hl' & Hsw & Hby & Hty). rewrite Em in *.
  exists (bb' ++ body'). rewrite !length_app. split; [by apply Ht'|]. split; [lia|]. intros fuel Hf.
  pose proof (base_length _ _ Hb). apply Hc; [by rewrite length_app| |intros E; apply (Hby E); lia|done].
  destruct fuel as [|fuel]; [lia|]. apply converts_switch; [unfold element, is_byte in He; lia|]. apply Hsw. lia.
Qed.

Lemma element_in x l : x ∈ l -> bool_decide (Forall (fun y => element y /\ y < 128) l) = true -> element x /\ x < 128.
Proof. intros Hx Hl%bool_decide_eq_true. rewrite Forall_forall in Hl. by apply Hl. Qed.

#[local] Instance element_dec e : Decision (element e).
Proof. unfold element. apply _. Defined.

Ltac known_element := repeat match goal with
  | |- context [Z.eqb ?x ?y] => let v := eval vm_compute in (Z.eqb x y) in change (Z.eqb x y) with v
  | |- context [CorIsPrimitiveType ?x] => let v := eval vm_compute in (CorIsPrimitiveType x) in change (CorIsPrimitiveType x) with v
  end; cbv iota; cbn [orb].

(** The element of a base whose elements are listed. *)
Ltac with_element Hb := destruct (element_in _ _ Hb eq_refl) as [He H128].

Lemma simple_converts b bb : m_type b ∈ ELEMENT_TYPE_TYPEDBYREF :: simple_elements -> BaseSig b bb -> type_converts (CSimpleType b) bb.
Proof.
  intros Hb Hs m Hm. with_element Hb. cbn [convertible] in Hm. rewrite andb_true_r in Hm.
  rewrite <- (app_nil_r bb). apply (type_converts_parts (CSimpleType b) bb [] (fun b => ret (CSimpleType b))); [done..| |done].
  intros b' s1 t' s2 Em [= <- <-]. exists []. cbn [base] in Em. split; [intros bb' Hbb; rewrite app_nil_r; apply ts_simple; [by rewrite Em|done]|].
  split; [done|]. split; [|split; [intros E; rewrite Em in E; rewrite E in Hb; by vm_compute in Hb; set_solver|done]].
  intros fuel _. case_match; [apply converts_ret|]. unfold convert_parts.
  unfold simple_elements in Hb. set_unfold in Hb. rewrite Em.
  repeat (destruct Hb as [Hb|Hb]; [rewrite Hb; known_element; apply converts_ret|]); done.
Qed.

Lemma token_converts b bb tk bs :
  m_type b ∈ [ELEMENT_TYPE_CLASS; ELEMENT_TYPE_VALUETYPE] -> BaseSig b bb -> TokenSig tk bs -> type_converts (CTokenType b tk) (bb ++ bs).
Proof.
  intros Hb Hs Htk m Hm. with_element Hb. cbn [convertible] in Hm. rewrite andb_true_r in Hm.
  apply (type_converts_parts (CTokenType b tk) bb bs (fun b => tk <- ImportToken tk ;; ret (CTokenType b tk))); [done..| |done].
  intros b' s1 t' s2 Em Hp. apply bind_Ok in Hp as (tk' & s3 & Hi & [= <- <-]). cbn [base] in Em.
  destruct (token_image _ _ _ _ _ Htk Hi) as (bs' & Htk' & Hl). exists bs'.
  split; [intros bb' Hbb; apply ts_token; [by rewrite Em|done|done]|]. pose proof (token_length _ _ Htk). split; [lia|].
  set_unfold in Hb. rewrite Em. destruct Hb as [->|[->|[]]]; known_element;
    (split; [intros fuel _; unfold convert_parts; known_element; by eapply converts_token|by split]).
Qed.

Lemma composite_converts b bb r bs :
  m_type b ∈ [ELEMENT_TYPE_PTR; ELEMENT_TYPE_BYREF; ELEMENT_TYPE_SZARRAY] -> BaseSig b bb -> type_converts r bs ->
  type_converts (CCompositeType b r) (bb ++ bs).
Proof.
  intros Hb Hs Hr m Hm. with_element Hb. cbn [convertible base] in Hm. apply andb_true_iff in Hm as [Hm Hcr].
  apply (type_converts_parts (CCompositeType b r) bb bs (fun b => r <- convert_type r ;; ret (CCompositeType b r))); [done..| |done].
  intros b' s1 t' s2 Em Hp. apply bind_Ok in Hp as (r' & s3 & Hi & [= <- <-]). cbn [base] in Em.
  destruct (Hr _ Hcr _ _ _ Hi) as (bs' & Hr' & Hl & Hc). exists bs'.
  split; [intros bb' Hbb; apply ts_composite; [by rewrite Em|done|done]|]. split; [done|].
  set_unfold in Hb. rewrite Em. destruct Hb as [E|[E|[E|[]]]]; rewrite E in *;
    match type of Hc with context [Z.eqb ?x ?y] => let v := eval vm_compute in (Z.eqb x y) in change (Z.eqb x y) with v in Hc end;
    known_element; (split; [intros fuel Hf; unfold convert_parts; known_element; by apply Hc|]).
  1,3: by split.
  split; [intros _ fuel Hf; by apply Hc|done].
Qed.

Lemma array_converts b bb r bs rank rb counts cb bounds ob :
  m_type b = ELEMENT_TYPE_ARRAY -> BaseSig b bb -> type_converts r bs -> DataSig rank rb ->
  CountedSig DataSig counts cb -> CountedSig DataSig bounds ob ->
  type_converts (CArrayType b r rank counts bounds) (bb ++ bs ++ rb ++ cb ++ ob).
Proof.
  intros Hb Hs Hr Hrank Hcb Hob m Hm. cbn [convertible base] in Hm. apply andb_true_iff in Hm as [Hm Hcr].
  assert (element (m_type b) /\ m_type b < 128) as [He H128] by (rewrite Hb; apply (element_in _ [ELEMENT_TYPE_ARRAY]); [set_solver|done]).
  apply (type_converts_parts (CArrayType b r rank counts bounds) bb (bs ++ rb ++ cb ++ ob)
    (fun b => r <- convert_type r ;; ret (CArrayType b r rank counts bounds))); [done..| |done].
  intros b' s1 t' s2 Em Hp. apply bind_Ok in Hp as (r' & s3 & Hi & [= <- <-]). cbn [base] in Em.
  destruct (Hr _ Hcr _ _ _ Hi) as (bs' & Hr' & Hl & Hc). exists (bs' ++ rb ++ cb ++ ob).
  split; [intros bb' Hbb; apply ts_array; [by rewrite Em|done..]|]. rewrite !length_app. split; [lia|]. rewrite Em, Hb. known_element.
  split; [|by split]. intros fuel Hf. unfold convert_parts. known_element.
  eapply converts_bind; [apply Hc; lia|]. eapply converts_bind; [by eapply converts_data|].
  eapply converts_bind; (eapply converts_data_list; [eassumption|lia]).
Qed.

Lemma var_converts b bb p bs :
  m_type b ∈ [ELEMENT_TYPE_VAR; ELEMENT_TYPE_MVAR] -> BaseSig b bb -> DataSig p bs -> type_converts (CGenericParameterType b p) (bb ++ bs).
Proof.
  intros Hb Hs Hd m Hm. with_element Hb. cbn [convertible] in Hm. rewrite andb_true_r in Hm.
  apply (type_converts_parts (CGenericParameterType b p) bb bs (fun b => ret (CGenericParameterType b p))); [done..| |done].
  intros b' s1 t' s2 Em [= <- <-]. cbn [base] in Em. exists bs.
  split; [intros bb' Hbb; apply ts_var; [by rewrite Em|done|done]|]. split; [lia|].
  set_unfold in Hb. rewrite Em. destruct Hb as [->|[->|[]]]; known_element;
    (split; [intros fuel _; unfold convert_parts; known_element; by eapply converts_data|by split]).
Qed.

(** The open type of an instance. *)
Lemma open_type r bs :
  TypeSig r bs -> match r with CTokenType b _ => base_ok Plain b | _ => false end = true -> forall s r' s',
  convert_type r s = (Ok r', s') ->
  exists bs', TypeSig r' bs' /\ (length bs' <= 4 * length bs)%nat /\
    converts (ConvertElemType sig ;;; ConvertSigToken ImportToken sig) s bs bs' s'.
Proof.
  intros Hs Hr s r' s' Hi. destruct r as [|b tk| | | | |]; try done. inversion Hs as [|b0 bb tk0 tb Hb Hbb Htk| | | | |]; subst.
  cbn [SigConvertSpec.convert_type base] in Hi. apply bind_Ok in Hi as (b' & s1 & Hcb & Hi). apply bind_Ok in Hi as (tk' & s2 & Hi & [= <- <-]).
  with_element Hb. unfold base_ok in Hr. apply andb_true_iff in Hr as [Hse Hr]. apply andb_true_iff in Hr as [Hpi Hmo%bool_decide_eq_true].
  destruct b as [e se pi mo]. cbn [m_type m_isSentinel m_isPinned m_modifiers] in *. destruct se, pi, mo; try done.
  unfold convert_base in Hcb. cbn in Hcb. injection Hcb as <- <-. inversion Hbb as [? ms Hms]; subst. cbn [m_modifiers] in Hms. inversion Hms; subst.
  cbn [flag app m_type m_isSentinel m_isPinned]. destruct (token_image _ _ _ _ _ Htk Hi) as (tb' & Htk' & Hl). exists (e :: tb').
  split; [apply (ts_token (mkBase e false false []) [e]); [done|apply (base_sig (mkBase e false false []) [] (seq_nil _))|done]|].
  pose proof (token_length _ _ Htk). cbn [length]. split; [lia|].
  apply (converts_bind sig _ _ s s s2 [e] tb [e] tb'); [apply converts_elem; [done|apply He]|by eapply converts_token].
Qed.

Lemma instance_converts b bb r bs ps nb pb :
  m_type b = ELEMENT_TYPE_GENERICINST -> BaseSig b bb -> TypeSig r bs -> DataSig (Z.of_nat (length ps)) nb -> types_convert ps pb ->
  type_converts (CGenericInstance b r ps) (bb ++ bs ++ nb ++ pb).
Proof.
  intros Hb Hs Hr Hn Hps m Hm. cbn [convertible base] in Hm. apply andb_true_iff in Hm as [Hm [Hcr Hcp]%andb_true_iff].
  assert (element (m_type b) /\ m_type b < 128) as [He H128] by (rewrite Hb; apply (element_in _ [ELEMENT_TYPE_GENERICINST]); [set_solver|done]).
  apply (type_converts_parts (CGenericInstance b r ps) bb (bs ++ nb ++ pb)
    (fun b => r <- convert_type r ;; ps <- traverse convert_type ps ;; ret (CGenericInstance b r ps))); [done..| |done].
  intros b' s1 t' s2 Em Hp. apply bind_Ok in Hp as (r' & s3 & Hi & Hp). apply bind_Ok in Hp as (ps' & s4 & Hip & [= <- <-]). cbn [base] in Em.
  destruct (open_type _ _ Hr Hcr _ _ _ Hi) as (bs' & Hr' & Hl & Hc).
  destruct (Hps _ Hcp _ _ _ Hip) as (pb' & Hps' & Hlen' & Hlp & Hle & Hcps). exists (bs' ++ nb ++ pb').
  split; [intros bb' Hbb; apply ts_inst; [by rewrite Em|done|done|by rewrite Hlen'|done]|]. rewrite !length_app. split; [lia|].
  rewrite Em, Hb. known_element. split; [|by split]. intros fuel Hf. unfold convert_parts. known_element.
  eapply converts_ext; [intros st; symmetry; apply bind_bind|]. eapply converts_bind; [exact Hc|].
  unfold ConvertMethodSpecSignature. eapply converts_counted; [exact Hn|apply (Hcps fuel); lia|lia].
Qed.

(** A method signature of given counts; the exclusions of [MethodSig] are on the convention
    alone. *)
Definition method_converts (conv gen : Z) (r : CType) (ps : list CType) (mb : list Z) : Prop :=
  Z.land conv IMAGE_CEE_CS_CALLCONV_MASK ∈ method_conventions ->
  convertible Mods r = true -> forallb (convertible Mods) ps = true ->
  forall s r' s1 ps' s2, convert_type r s = (Ok r', s1) -> traverse convert_type ps s1 = (Ok ps', s2) ->
  exists mb', MethodSig conv gen r' ps' mb' /\ (length mb' <= 4 * length mb)%nat /\
    forall fuel, (length mb <= fuel)%nat ->
    converts (ConvertNonTypeSignature ImportToken sig fuel (ConvertTypeSignature fuel)) s mb mb' s2.

(** The parts of a method signature, converted. *)
Lemma method_parts conv gen r ps gb nb rb pb :
  method_sig conv gen (length ps) gb nb -> type_converts r rb -> types_convert ps pb ->
  convertible Mods r = true -> forallb (convertible Mods) ps = true ->
  forall s r' s1 ps' s2, convert_type r s = (Ok r', s1) -> traverse convert_type ps s1 = (Ok ps', s2) ->
  exists rb' pb', TypeSig r' rb' /\ TypesSig ps' pb' /\ length ps' = length ps /\
    (length (conv :: gb ++ nb ++ rb' ++ pb') <= 4 * length (conv :: gb ++ nb ++ rb ++ pb))%nat /\
    forall fuel, (length (conv :: gb ++ nb ++ rb ++ pb) <= fuel)%nat ->
    converts (ConvertNonTypeSignature ImportToken sig fuel (ConvertTypeSignature fuel)) s
      (conv :: gb ++ nb ++ rb ++ pb) (conv :: gb ++ nb ++ rb' ++ pb') s2.
Proof.
  intros Hm Hr Hps Hcr Hcp s r' s1 ps' s2 Ei Eip.
  destruct (Hr _ Hcr _ _ _ Ei) as (rb' & Hr' & Hl & Hc).
  destruct (Hps _ Hcp _ _ _ Eip) as (pb' & Hps' & Hlen' & Hlp & Hle & Hcps). exists rb', pb'.
  split_and!; [done..| |]; cbn [length]; rewrite !length_app; [lia|]. intros fuel Hf.
  eapply converts_method; [exact Hm|apply Hc; lia|apply Hcps; lia|lia].
Qed.

Lemma function_converts b bb mb conv r ps gen :
  m_type b = ELEMENT_TYPE_FNPTR -> BaseSig b bb -> method_converts conv gen r ps mb -> type_converts (CFunctionType b conv r ps gen) (bb ++ mb).
Proof.
  intros Hb Hs Hmc m Hm. cbn [convertible base] in Hm.
  apply andb_true_iff in Hm as [Hm [[Hcv%bool_decide_eq_true Hcr]%andb_true_iff Hcp]%andb_true_iff].
  assert (element (m_type b) /\ m_type b < 128) as [He H128] by (rewrite Hb; apply (element_in _ [ELEMENT_TYPE_FNPTR]); [set_solver|done]).
  apply (type_converts_parts (CFunctionType b conv r ps gen) bb mb
    (fun b => r <- convert_type r ;; ps <- traverse convert_type ps ;; ret (CFunctionType b conv r ps gen))); [done..| |done].
  intros b' s1 t' s2 Em Hp. apply bind_Ok in Hp as (r' & s3 & Hi & Hp). apply bind_Ok in Hp as (ps' & s4 & Hip & [= <- <-]). cbn [base] in Em.
  destruct (Hmc Hcv Hcr Hcp _ _ _ _ _ Hi Hip) as (mb' & Hm' & Hl & Hc). exists mb'.
  split; [intros bb' Hbb; apply ts_fnptr; [by rewrite Em|done|done]|]. split; [done|].
  rewrite Em, Hb. known_element. split; [|by split]. intros fuel Hf. unfold convert_parts. known_element. by apply Hc.
Qed.

Lemma all_convert :
  (forall t bs, TypeSig t bs -> type_converts t bs) /\
  (forall ts bs, TypesSig ts bs -> types_convert ts bs) /\
  (forall conv gen r ps mb, MethodSig conv gen r ps mb -> method_converts conv gen r ps mb).
Proof.
  apply sig_ind.
  - apply simple_converts.
  - apply token_converts.
  - intros b bb r bs Hb Hs _ Hr. by apply composite_converts.
  - intros b bb r bs rank rb counts cb bounds ob Hb Hs _ Hr. by apply array_converts.
  - apply var_converts.
  - intros b bb r bs ps nb pb Hb Hs Hr _ Hn _ Hps. by apply instance_converts.
  - intros b bb mb Hb Hs conv r ps gen _ Hm. by apply function_converts.
  - intros m _ s ts' s' [= <- <-]. exists []. split_and!; [constructor|done|done|done|]. intros fuel _. constructor.
  - intros t ts bs bss Hs Ht _ Hts m [Hm Hms]%andb_true_iff s ts' s' Hi.
    apply bind_Ok in Hi as (t' & s1 & Hi & Hi2). apply bind_Ok in Hi2 as (ts1 & s2 & Hi2 & [= <- <-]).
    destruct (Ht m Hm _ _ _ Hi) as (bs' & Ht' & Hl & Hc). destruct (Hts m Hms _ _ _ Hi2) as (bss' & Hts' & Hln & Hls & Hle & Hcs).
    exists (bs' ++ bss'). rewrite !length_app. cbn [length]. pose proof (proj1 (proj1 (parsed_types []) _ _ Hs)).
    split_and!; [by constructor|lia|lia|lia|]. intros fuel Hf. econstructor; [apply Hc; lia|apply Hcs; lia].
  - intros conv gen r ps gb nb bs pb Hcv Hne Hg Hn _ Hr _ Hps Hm Hcr Hcp s r' s1 ps' s2 Hi Hip.
    destruct (method_parts conv gen r ps gb nb bs pb) with (s := s) (r' := r') (s1 := s1) (ps' := ps') (s2 := s2)
      as (rb' & pb' & Hr' & Hps' & Hln & Hl & Hc); [exact (conj Hcv (conj Hm (conj Hg Hn)))|done..|].
    exists (conv :: gb ++ nb ++ rb' ++ pb'). split; [|by split]. constructor; try done. by rewrite Hln.
Qed.

End Types.

(** ** Signatures *)

(** The signatures that are not types. *)
Inductive Signature :=
  | SigMethod (conv gen : Z) (r : CType) (ps : list CType)
  | SigField (conv : Z) (t : CType)
  | SigMethodSpec (conv : Z) (ts : list CType)
  | SigLocals (conv : Z) (ts : list CType).

Definition convert_signature {T} (ImportToken : Z -> M T Z) (s : Signature) : M T Signature :=
  match s with
  | SigMethod conv gen r ps =>
      r <- convert_type ImportToken r ;; ps <- traverse (convert_type ImportToken) ps ;; ret (SigMethod conv gen r ps)
  | SigField conv t => t <- convert_type ImportToken t ;; ret (SigField conv t)
  | SigMethodSpec conv ts => ts <- traverse (convert_type ImportToken) ts ;; ret (SigMethodSpec conv ts)
  | SigLocals conv ts => ts <- traverse (convert_type ImportToken) ts ;; ret (SigLocals conv ts)
  end.

Definition signature_convertible (s : Signature) : bool :=
  match s with
  | SigMethod _ _ r ps => convertible Mods r && forallb (convertible Mods) ps
  | SigField _ t => convertible Mods t
  | SigMethodSpec _ ts => forallb (convertible Plain) ts
  | SigLocals _ ts => forallb (convertible Local) ts
  end.

(** A convention whose low bits are [k]. *)
Definition convention (conv k : Z) : Prop := 0 <= conv < 0x80 /\ Z.land conv IMAGE_CEE_CS_CALLCONV_MASK = k.

Inductive NonTypeSig : Signature -> list Z -> Prop :=
  | nts_method conv gen r ps gb nb rb pb : method_sig conv gen (length ps) gb nb -> TypeSig r rb -> TypesSig ps pb ->
      NonTypeSig (SigMethod conv gen r ps) (conv :: gb ++ nb ++ rb ++ pb)
  | nts_field conv t bs : convention conv IMAGE_CEE_CS_CALLCONV_FIELD -> TypeSig t bs -> NonTypeSig (SigField conv t) (conv :: bs)
  | nts_spec conv ts nb bs : convention conv IMAGE_CEE_CS_CALLCONV_GENERICINST -> DataSig (Z.of_nat (length ts)) nb -> TypesSig ts bs ->
      NonTypeSig (SigMethodSpec conv ts) (conv :: nb ++ bs)
  | nts_locals conv ts nb bs : convention conv IMAGE_CEE_CS_CALLCONV_LOCAL_SIG -> DataSig (Z.of_nat (length ts)) nb -> TypesSig ts bs ->
      NonTypeSig (SigLocals conv ts) (conv :: nb ++ bs).

Section Signatures.

Context {T : Type} (ImportToken : Z -> M T Z).
Context (import_type_token : forall tk t tk' t', type_token tk -> ImportToken tk t = (Ok tk', t') -> type_token tk').

Lemma signature_converts sig s bs t s' t' :
  Z.of_nat (length sig) < 2 ^ 32 -> NonTypeSig s bs -> signature_convertible s = true -> convert_signature ImportToken s t = (Ok s', t') ->
  exists bs', NonTypeSig s' bs' /\ (length bs' <= 4 * length bs)%nat /\
    forall fuel, (length bs <= fuel)%nat ->
    converts sig (ConvertNonTypeSignature ImportToken sig fuel (ConvertTypeSignature ImportToken sig fuel)) t bs bs' t'.
Proof.
  intros Hlen Hs Hc Hi. pose proof (all_convert ImportToken import_type_token sig Hlen) as (Htype & Htypes & _).
  destruct Hs as [conv gen r ps gb nb rb pb Hm Hr Hps|conv ty bs [Hcv Hk] Ht|conv ts nb bs [Hcv Hk] Hn Hts|conv ts nb bs [Hcv Hk] Hn Hts];
    cbn [signature_convertible convert_signature] in *.
  - apply andb_true_iff in Hc as [Hcr Hcp]. apply bind_Ok in Hi as (r' & t1 & Hi & Hip). apply bind_Ok in Hip as (ps' & t2 & Hip & [= <- <-]).
    destruct (method_parts ImportToken sig Hlen conv gen r ps gb nb rb pb Hm (Htype _ _ Hr) (Htypes _ _ Hps) Hcr Hcp _ _ _ _ _ Hi Hip)
      as (rb' & pb' & Hr' & Hps' & Hln & Hl & Hcs). eexists. split; [|by split]. by constructor; [rewrite Hln|..].
  - apply bind_Ok in Hi as (ty' & t1 & Hi & [= <- <-]). destruct (Htype _ _ Ht Mods Hc _ _ _ Hi) as (bs' & Ht' & Hl & Hcs).
    exists (conv :: bs'). split; [by constructor|]. cbn [length]. split; [lia|]. intros fuel Hf.
    apply converts_convention; [done|unfold is_byte; lia|]. unfold convert_convention. rewrite Hk. cbn. apply Hcs. lia.
  - apply bind_Ok in Hi as (ts' & t1 & Hi & [= <- <-]). destruct (Htypes _ _ Hts Plain Hc _ _ _ Hi) as (bs' & Hts' & Hln & Hl & Hle & Hcs).
    exists (conv :: nb ++ bs'). split; [by constructor; [|rewrite Hln|]|]. cbn [length]. rewrite !length_app. split; [lia|]. intros fuel Hf.
    apply converts_convention; [done|unfold is_byte; lia|]. unfold convert_convention. rewrite Hk. cbn.
    eapply converts_counted; [done|exact Hn|apply (Hcs fuel); lia|lia].
  - apply bind_Ok in Hi as (ts' & t1 & Hi & [= <- <-]). destruct (Htypes _ _ Hts Local Hc _ _ _ Hi) as (bs' & Hts' & Hln & Hl & Hle & Hcs).
    exists (conv :: nb ++ bs'). split; [by constructor; [|rewrite Hln|]|]. cbn [length]. rewrite !length_app. split; [lia|]. intros fuel Hf.
    apply converts_convention; [done|unfold is_byte; lia|]. unfold convert_convention. rewrite Hk. cbn.
    eapply converts_counted; [done|exact Hn|apply (Hcs fuel); lia|lia].
Qed.

(** From a new parser and a new builder. *)
Lemma converts_new sig (m : M (Conversion (T := T)) unit) (t : T) bs' t' :
  converts sig m t sig bs' t' -> (length bs' <= 4 * length sig)%nat -> 4 * Z.of_nat (length sig) + 4 < limit ->
  exists b, m (t, parser_start sig, new_builder) = (Ok tt, (t', mkParser (Z.of_nat (length sig)) 0, b)) /\ holds b bs'.
Proof.
  intros H Hl Hlim. destruct (H [] [] new_builder []) as (b & E & Hh); [by rewrite app_nil_r|apply holds_new|cbn; lia|].
  exists b. split; [|done]. rewrite app_nil_r in E. unfold parser_at in E. cbn [length] in E.
  by rewrite Z.sub_diag, Z.sub_0_r in E.
Qed.

Lemma ConvertTypeSignature_run sig ty t ty' t' :
  TypeSig ty sig -> convertible Plain ty = true -> convert_type ImportToken ty t = (Ok ty', t') -> 4 * Z.of_nat (length sig) + 4 < limit ->
  exists bs', TypeSig ty' bs' /\ forall fuel, (length sig <= fuel)%nat ->
    exists b, ConvertTypeSignature ImportToken sig fuel (t, parser_start sig, new_builder) =
      (Ok tt, (t', mkParser (Z.of_nat (length sig)) 0, b)) /\ holds b bs'.
Proof.
  intros Ht Hc Hi Hl. assert (Z.of_nat (length sig) < 2 ^ 32) as Hlen by (unfold limit in Hl; lia).
  destruct (proj1 (all_convert ImportToken import_type_token sig Hlen) _ _ Ht Plain Hc _ _ _ Hi) as (bs' & Ht' & Hls & Hcs).
  exists bs'. split; [done|]. intros fuel Hf. by apply converts_new; [apply Hcs|..].
Qed.

End Signatures.

(** C25: signatures are carried over to another module faithfully.  From the signature of a
    method, property, field, method instance or local variables, of any nesting, in which
    modifiers stand where ECMA-335 has them and function pointers are managed,
    [ConvertNonTypeSignature] writes the signature that the reference conversion describes,
    which replaces every token by its image, in the order in which they stand, and keeps
    everything else.  It reads the signature to its end, runs the importer exactly as the
    reference does, and terminates. *)
Theorem ConvertNonTypeSignature_refines {T} (ImportToken : Z -> M T Z) sig s t s' t' :
  (forall tk t tk' t', type_token tk -> ImportToken tk t = (Ok tk', t') -> type_token tk') ->
  NonTypeSig s sig -> signature_convertible s = true -> convert_signature ImportToken s t = (Ok s', t') ->
  4 * Z.of_nat (length sig) + 4 < limit ->
  exists bs', NonTypeSig s' bs' /\ forall fuel, (length sig <= fuel)%nat ->
    exists b, ConvertNonTypeSignature ImportToken sig fuel (ConvertTypeSignature ImportToken sig fuel) (t, parser_start sig, new_builder) =
      (Ok tt, (t', mkParser (Z.of_nat (length sig)) 0, b)) /\ holds b bs'.
Proof.
  intros Himp Hs Hc Hi Hl. assert (Z.of_nat (length sig) < 2 ^ 32) as Hlen by (unfold limit in Hl; lia).
  destruct (signature_converts ImportToken Himp sig s sig t s' t' Hlen Hs Hc Hi) as (bs' & Hs' & Hls & Hcs).
  exists bs'. split; [done|]. intros fuel Hf. by apply converts_new; [apply Hcs|..].
Qed.

(** An importer that counts its calls and gives every type the next row. *)
Definition next_row (tk : Z) : M Z Z := fun n => if decide (type_token (tk + 1)) then (Ok (tk + 1), n + 1) else (Err E_FAIL, n).

(** [pinned class& , int modopt(T)[]] as locals. *)
Definition demo_class : CType := CTokenType (new_base ELEMENT_TYPE_CLASS) 0x02000003.
Definition demo_pinned : CType := CCompositeType (mkBase ELEMENT_TYPE_BYREF false true []) demo_class.
Definition demo_elem : CType := CSimpleType (mkBase 0x08 false false [mkModifier ELEMENT_TYPE_CMOD_OPT 0x01000005]).
Definition demo_array : CType := CCompositeType (new_base ELEMENT_TYPE_SZARRAY) demo_elem.
Definition demo_locals : Signature := SigLocals 0x07 [demo_pinned; demo_array].
Definition demo_locals_sig : list Z := [0x07; 0x02; 0x45; 0x10; 0x12; 0x0c; 0x1d; 0x20; 0x15; 0x08].

Lemma demo_locals_wf : NonTypeSig demo_locals demo_locals_sig.
Proof.
  assert (TokenSig 0x01000005 [0x15]) as Ht1 by (constructor; [split; [done|set_solver]|reflexivity]).
  assert (TokenSig 0x02000003 [0x0c]) as Ht2 by (constructor; [split; [done|set_solver]|reflexivity]).
  apply (nts_locals 0x07 [demo_pinned; demo_array] [0x02] (drop 2 demo_locals_sig)); [done|by apply data_byte|].
  apply (tss_cons _ _ [0x45; 0x10; 0x12; 0x0c] [0x1d; 0x20; 0x15; 0x08]); [|apply (tss_cons demo_array [] [0x1d; 0x20; 0x15; 0x08] []); [|constructor]].
  - apply (ts_composite (mkBase ELEMENT_TYPE_BYREF false true []) [0x45; 0x10] demo_class [0x12; 0x0c]); [set_solver|by apply (base_sig (mkBase ELEMENT_TYPE_BYREF false true []) []); constructor|].
    apply (ts_token (new_base ELEMENT_TYPE_CLASS) [0x12] _ [0x0c]); [set_solver|apply base_plain|done].
  - apply (ts_composite (new_base ELEMENT_TYPE_SZARRAY) [0x1d] demo_elem [0x20; 0x15; 0x08]); [set_solver|apply base_plain|].
    apply ts_simple; [set_solver|]. apply (base_sig (base demo_elem) [0x20; 0x15]).
    apply (seq_cons _ _ [] [0x20; 0x15] []); [|constructor].
    apply (modifier_sig (mkModifier ELEMENT_TYPE_CMOD_OPT 0x01000005) [0x15]); [set_solver|done].
Qed.

Lemma ConvertNonTypeSignature_refines_witness : exists bs' b,
  ConvertNonTypeSignature next_row demo_locals_sig 10 (ConvertTypeSignature next_row demo_locals_sig 10)
    (0, parser_start demo_locals_sig, new_builder) = (Ok tt, (2, mkParser 10 0, b)) /\ holds b bs'.
Proof.
  destruct (ConvertNonTypeSignature_refines next_row demo_locals_sig demo_locals 0
    (SigLocals 0x07 [CCompositeType (mkBase ELEMENT_TYPE_BYREF false true []) (CTokenType (new_base ELEMENT_TYPE_CLASS) 0x02000004);
      CCompositeType (new_base ELEMENT_TYPE_SZARRAY) (CSimpleType (mkBase 0x08 false false [mkModifier ELEMENT_TYPE_CMOD_OPT 0x01000006]))]) 2)
    as (bs' & _ & H).
  - intros tk t tk' t' _. unfold next_row. destruct (decide (type_token (tk + 1))); [|done]. by intros [= <- <-].
  - apply demo_locals_wf.
  - reflexivity.
  - vm_compute. reflexivity.
  - reflexivity.
  - destruct (H 10%nat) as (b & E & Hh); [vm_compute; reflexivity|]. exists bs', b. exact (conj E Hh).
Defined.

(** ** What is not carried over *)

(** The signature that is built, and what is left of the source. *)
Definition converted (ImportToken : Z -> M Z Z) (sig : list Z) : outcome unit * Z * list (option Z) :=
  let '(o, (_, p, b)) := ConvertNonTypeSignature ImportToken sig 20 (ConvertTypeSignature ImportToken sig 20) (0, parser_start sig, new_builder) in
  (o, m_dwLen p, take (Z.to_nat (m_used b)) (default [] (m_memory b))).

(** [void f(int, ..., string)] at a call: the sentinel is taken for a parameter, and the last
    parameter is lost. *)
Lemma vararg_truncated :
  converted next_row [0x05; 0x02; 0x01; 0x08; 0x41; 0x0e] = (Ok tt, 1, map Some [0x05; 0x02; 0x01; 0x08; 0x41]).
Proof. reflexivity. Qed.

(** A local of the type of an unmanaged function pointer ([stdcall], without parameters, to
    [void]) followed by an [int]: the parameters of the pointer are taken for locals. *)
Lemma unmanaged_pointer_truncated :
  converted next_row [0x07; 0x02; 0x1b; 0x02; 0x00; 0x01; 0x08] = (Ok tt, 2, map Some [0x07; 0x02; 0x1b; 0x02; 0x00]).
Proof. reflexivity. Qed.

(** A field [int modopt(T)] whose modifier cannot be imported: the failure is dropped, and
    the modifier stays without its token. *)
Lemma modifier_failure_dropped :
  converted (fun _ => fail E_NOTIMPL) [0x06; 0x20; 0x15; 0x08] = (Ok tt, 0, map Some [0x06; 0x20; 0x08]).
Proof. reflexivity. Qed.
