(* ===== verification/InjectCode.v ===== *)
(** The conversion of method bodies from one module to another ([AssemblyInjector.cpp]):
    [ConvertILCode] and the part of [ImportMethodDef] that copies header, code and exception
    sections into a new method body. *)
From S2P Require Import Prelude ILOpcodes CorSig CorHeaders Clauses.

(** The operand classes of [opcode.def]. *)
Inductive OPCLSA :=
| opclsaInlineNone
| opclsaShortInlineI | opclsaInlineI | opclsaInlineI8 | opclsaShortInlineR | opclsaInlineR
| opclsaShortInlineVar | opclsaInlineVar
| opclsaShortInlineBrTarget | opclsaInlineBrTarget | opclsaInlineSwitch
| opclsaInlineRVA
| opclsaInlineMethod | opclsaInlineType | opclsaInlineSig | opclsaInlineField | opclsaInlineString | opclsaInlineTok.

Definition MAX_MSIL_OPCODE : Z := 0x22 + 0x100.

Section Code.

(** [T] is the state of the importer and [ImportToken tk] its call [ConvertToken(tk, &tk)];
    [g_opcodeInlineValues] is the table that [opcode.def] of the SDK fills; [image] is the
    mapped source module. *)
Context {T : Type} (ImportToken : Z -> M T Z).
Context (g_opcodeInlineValues : Z -> OPCLSA).
Context (image : list Z).

(** The importer and the memory at [pTargetCode]. *)
Definition Body : Type := T * list (option Z).
Notation C := (M Body).

Definition importing {A} (m : M T A) : C A := fun '(t, buf) => let '(o, t') := m t in (o, (t', buf)).

(** Stores and reads behind [pTargetCode]. *)
Definition put (pos : Z) (bs : list Z) : C unit := fun '(t, buf) =>
  match write_at buf pos (map Some bs) with
  | Some buf' => (Ok tt, (t, buf'))
  | None => (Undef OutOfBoundsWrite, (t, buf))
  end.

Definition fetch (pos : Z) (n : nat) : C (list Z) := fun '(t, buf) =>
  if decide (0 <= pos /\ pos + Z.of_nat n <= Z.of_nat (length buf)) then
    (of_option UninitRead (mapM id (take n (drop (Z.to_nat pos) buf))), (t, buf))
  else (Undef OutOfBoundsRead, (t, buf)).

(** Reads of the source image. *)
Definition source (pos : Z) (n : nat) : C (list Z) := lift (of_option OutOfBoundsRead (read_at image pos n)).

(** ** [ConvertILCode] *)

Section IL.

(** The positions of [pSourceILCode] in the image and of [pTargetILCode] behind
    [pTargetCode]. *)
Context (src dst bufferSize : Z).

Definition copy_bytes (cursor : Z) (n : nat) : C unit := bs <- source (src + cursor) n ;; put (dst + cursor) bs.

(** [memcpy_s(pTargetILCode + cursor, (bufferSize - cursor), pSourceILCode + cursor, n)]:
    when [n] is too large the constraint handler ends the process. *)
Definition memcpy_s (cursor n : Z) : C unit :=
  if u32 (bufferSize - cursor) <? n then undefined OutOfBoundsWrite else copy_bytes cursor (Z.to_nat n).

(** [if (cursor + n > bufferSize) return E_FAIL;] *)
Definition room (cursor n : Z) : C unit := if bufferSize <? u32 (cursor + n) then fail E_FAIL else ret tt.

(** The [switch] on the kind of the operand: the cursor behind it. *)
Definition convert_operand (inlineValueKind : OPCLSA) (cursor : Z) : C Z :=
  match inlineValueKind with
  | opclsaInlineNone => ret cursor
  | opclsaShortInlineI | opclsaShortInlineVar | opclsaShortInlineBrTarget =>
      room cursor 1 ;;; copy_bytes cursor 1 ;;; ret (u32 (cursor + 1))
  | opclsaInlineVar => room cursor 2 ;;; copy_bytes cursor 2 ;;; ret (u32 (cursor + 2))
  | opclsaInlineRVA | opclsaInlineSig => fail E_NOTIMPL
  | opclsaInlineI | opclsaShortInlineR | opclsaInlineBrTarget =>
      room cursor 4 ;;; memcpy_s cursor 4 ;;; ret (u32 (cursor + 4))
  | opclsaInlineI8 | opclsaInlineR => room cursor 8 ;;; memcpy_s cursor 8 ;;; ret (u32 (cursor + 8))
  | opclsaInlineSwitch =>
      room cursor 4 ;;;
      bs <- source (src + cursor) 4 ;;
      let numCases := le_val bs in
      memcpy_s cursor 4 ;;;
      let cursor := u32 (cursor + 4) in
      room cursor (u32 (4 * numCases)) ;;;
      memcpy_s cursor (u32 (4 * numCases)) ;;;
      ret (u32 (cursor + u32 (4 * numCases)))
  | opclsaInlineMethod | opclsaInlineType | opclsaInlineField | opclsaInlineTok | opclsaInlineString =>
      room cursor 4 ;;;
      bs <- source (src + cursor) 4 ;;
      tk <- importing (ImportToken (le_val bs)) ;;
      put (dst + cursor) (le_bytes 4 tk) ;;;
      ret (u32 (cursor + 4))
  end.

(** The opcode at [cursor], copied, and the cursor behind it. *)
Definition convert_opcode (cursor : Z) : C (Z * Z) :=
  b <- source (src + cursor) 1 ;;
  copy_bytes cursor 1 ;;;
  let cursor := u32 (cursor + 1) in
  if le_val b =? 0xFE then
    if bufferSize <=? cursor then fail E_FAIL
    else
      b <- source (src + cursor) 1 ;;
      copy_bytes cursor 1 ;;;
      ret (le_val b + 256, u32 (cursor + 1))
  else ret (le_val b, cursor).

Fixpoint il_loop (fuel : nat) (cursor : Z) : C unit :=
  if cursor <? bufferSize then
    match fuel with
    | O => out_of_fuel
    | S fuel =>
        oc <- convert_opcode cursor ;;
        let '(opCode, cursor) := oc in
        if MAX_MSIL_OPCODE <? opCode then fail E_FAIL
        else
          cursor <- convert_operand (g_opcodeInlineValues opCode) cursor ;;
          il_loop fuel cursor
    end
  else ret tt.

Definition ConvertILCode (fuel : nat) : C unit := il_loop fuel 0.

End IL.

(** ** The body of a method *)

(** The fields of a fat header that are read. *)
Definition sizeof_SECT_SMALL : Z := 2.
Definition sizeof_SECT_FAT : Z := 4.

(** One clause of [size] bytes whose token is at [size - 4]: the [Flags] are the first
    [flagBytes] bytes.  The fields are copied, and the last one is converted under the test of
    the source. *)
Definition convert_clause (size : Z) (flagBytes : nat) (src dst : Z) : C unit :=
  bs <- source src (Z.to_nat (size - 4)) ;;
  put dst bs ;;;
  classToken <- source (src + (size - 4)) 4 ;;
  if Z.land (le_val (take flagBytes bs)) COR_ILEXCEPTION_CLAUSE_FILTER =? 0
  then put (dst + (size - 4)) classToken
  else
    tk <- importing (ImportToken (le_val classToken)) ;;
    put (dst + (size - 4)) (le_bytes 4 tk).

Fixpoint convert_clauses (size : Z) (flagBytes : nat) (n : nat) (src dst : Z) : C unit :=
  match n with
  | O => ret tt
  | S n =>
      convert_clause size flagBytes src dst ;;;
      convert_clauses size flagBytes n (src + size) (dst + size)
  end.

(** What [ImportMethodDef] finds at the RVA: the sizes of header and code, the address of the
    exception section with its size, and the size of the whole body. *)
Record layout := mkLayout {
  isTinyHeader : bool;
  headerSize : Z;
  ilCodeSize : Z;
  ehSection : option (Z * bool * Z);
  totalCodeBlobSize : Z
}.

Definition read_layout (ulCodeRVA : Z) : C layout :=
  b <- source ulCodeRVA 1 ;;
  if Tiny_IsTiny (le_val b) then
    let ilCodeSize := Tiny_GetCodeSize (le_val b) in
    ret (mkLayout true sizeof_TINY ilCodeSize None (u32 (ilCodeSize + sizeof_TINY)))
  else
    h <- lift (read_fat_header image ulCodeRVA) ;;
    let ilCodeSize := CodeSize h in
    let headerSize := Size h * 4 in
    if Z.land (Flags h) CorILMethod_MoreSects =? 0
    then ret (mkLayout false headerSize ilCodeSize None (u32 (ilCodeSize + headerSize)))
    else
      let ehClauseHeaderRVA := u32 (Z.land (u32 (ulCodeRVA + headerSize + ilCodeSize - 1)) (Z.lnot 3) + 4) in
      kind <- source ehClauseHeaderRVA 1 ;;
      let fat := negb (Z.land (le_val kind) CorILMethod_Sect_FatFormat =? 0) in
      size <- source (ehClauseHeaderRVA + 1) (if fat then 3 else 1) ;;
      ret (mkLayout false headerSize ilCodeSize (Some (ehClauseHeaderRVA, fat, le_val size))
             (u32 (u32 (ehClauseHeaderRVA - ulCodeRVA) + le_val size))).

(** The section: its header, then its clauses.  The number of clauses is computed with a
    64-bit [size_t] and stored in an [int]. *)
Definition convert_section (ulCodeRVA : Z) (eh : Z * bool * Z) : C unit :=
  let '(ehClauseHeaderRVA, fat, dataSize) := eh in
  let target := u32 (ehClauseHeaderRVA - ulCodeRVA) in
  let header := if fat then sizeof_SECT_FAT else sizeof_SECT_SMALL in
  let size := if fat then sizeof_CLAUSE_FAT else sizeof_CLAUSE_SMALL in
  bs <- source ehClauseHeaderRVA (Z.to_nat header) ;;
  put target bs ;;;
  let numClauses := s32 ((dataSize - 4) mod 2 ^ 64 / size) in
  convert_clauses size (if fat then 4 else 2) (Z.to_nat numClauses) (ehClauseHeaderRVA + header) (target + header).

(** The body at [ulCodeRVA], converted into a new block of memory, which the allocator of the
    runtime gives. *)
Definition convert_body (ImportLocalVarSig : Z -> M T Z) (fuel : nat) (ulCodeRVA : Z) : M T (list (option Z)) := fun t =>
  match (l <- read_layout ulCodeRVA ;;
         modify (fun '(t, _) => (t, replicate (Z.to_nat (totalCodeBlobSize l)) None)) ;;;
         h <- source ulCodeRVA (Z.to_nat (headerSize l)) ;;
         put 0 h ;;;
         (if isTinyHeader l then ret tt
          else
            tk <- fetch 8 4 ;;
            tk <- importing (ImportLocalVarSig (le_val tk)) ;;
            put 8 (le_bytes 4 tk)) ;;;
         ConvertILCode (ulCodeRVA + headerSize l) (headerSize l) (ilCodeSize l) fuel ;;;
         (match ehSection l with Some eh => convert_section ulCodeRVA eh | None => ret tt end)) (t, []) with
  | (Ok _, (t, buf)) => (Ok buf, t)
  | (Err hr, (t, _)) => (Err hr, t)
  | (Undef u, (t, _)) => (Undef u, t)
  | (NoFuel, (t, _)) => (NoFuel, t)
  end.

End Code.
