(* ===== verification/InjectCodeSpec.v ===== *)
(** What [ConvertILCode] does to well-formed IL: tokens are replaced, nothing moves. *)
From S2P Require Import Prelude ILOpcodes Instruction Store Clauses Offsets Codec DecodeSpec RoundTrip InjectCode.

(** The type of operand of a class; [None] for those that are not converted. *)
Definition operand_type (c : OPCLSA) : option ILOperandType :=
  match c with
  | opclsaInlineNone => Some ILOperandType_None
  | opclsaShortInlineI | opclsaShortInlineVar | opclsaShortInlineBrTarget => Some ILOperandType_Byte
  | opclsaInlineI | opclsaInlineBrTarget => Some ILOperandType_Int
  | opclsaInlineI8 => Some ILOperandType_Long
  | opclsaShortInlineR => Some ILOperandType_Single
  | opclsaInlineR => Some ILOperandType_Double
  | opclsaInlineVar => Some ILOperandType_UShort
  | opclsaInlineSwitch => Some ILOperandType_Switch
  | opclsaInlineMethod | opclsaInlineType | opclsaInlineField | opclsaInlineString | opclsaInlineTok => Some ILOperandType_Token
  | opclsaInlineSig | opclsaInlineRVA => None
  end.

(** The opcodes of ECMA-335 other than [calli]. *)
Definition convertible_opcode (op : Z) (r : ILOpcodeInfo) : Prop :=
  0 <= op < 0x123 /\ op <> Cee_Calli /\ opinfo op = Ok r /\ IsFlagSet (m_flags r) ILOpcodeFlag_Unused = false.

(** The row of the prefix byte is unused. *)
Lemma convertible_not_prefix op r : convertible_opcode op r -> op <> 0xFE.
Proof. intros (_ & _ & Hr & Hu) ->. vm_compute in Hr. injection Hr as <-. done. Qed.

(** [opcode.def] of the SDK and the table of the engine describe the same instructions. *)
Class OpcodeTable (g : Z -> OPCLSA) : Prop := {
  table_agrees op r : convertible_opcode op r -> operand_type (g op) = Some (m_type r);
  table_calli : g Cee_Calli = opclsaInlineSig
}.

(** An instruction: its opcode and the bytes of its operand. *)
Definition instr : Type := Z * list Z.
Definition instr_bytes (x : instr) : list Z := opcode_bytes x.1 ++ x.2.

Record instr_ok (x : instr) (r : ILOpcodeInfo) : Prop := {
  io_opcode : convertible_opcode x.1 r;
  io_operand :
    if decide (m_type r = ILOperandType_Switch)
    then exists n rest, x.2 = le_bytes 4 (Z.of_nat n) ++ rest /\ length rest = (4 * n)%nat
    else Z.of_nat (length x.2) = m_operandLength r
}.

(** The instruction at an item of a disassembly. *)
Definition item_instr (code : list Z) (it : Z * CInstruction) : instr :=
  (m_opcode it.2, drop (length (opcode_bytes (m_opcode it.2))) (item_bytes code it)).

Definition convertible_item (it : Z * CInstruction) : Prop :=
  m_opcode it.2 <> Cee_Calli /\ forall r, opinfo (m_opcode it.2) = Ok r -> IsFlagSet (m_flags r) ILOpcodeFlag_Unused = false.

(** The operand a decoded instruction keeps has the length of its row. *)
Lemma payload_length op r c pl : opinfo op = Ok r -> class_matches op r c ->
  class_payload (m_operandLength r) c = Ok pl ->
  if decide (m_type r = ILOperandType_Switch)
  then exists n rest, pl = le_bytes 4 (Z.of_nat n) ++ rest /\ length rest = (4 * n)%nat
  else Z.of_nat (length pl) = m_operandLength r.
Proof.
  intros Hr Hm Hpl. destruct (row_facts _ _ Hr) as (_ & _ & Hol & Hsw & _ & Hbr).
  destruct c as [|v|d t o|ds ts]; cbn in Hm, Hpl.
  - destruct Hm as [_ Ht]. rewrite decide_False by congruence. injection Hpl as <-.
    rewrite Hol by (intros E; apply Hsw in E; congruence). by rewrite Ht.
  - destruct Hm as (_ & [k Hk] & Hv). assert (m_type r <> ILOperandType_Switch) as E by (intros E; by rewrite E in Hk).
    rewrite decide_False by done. assert (op <> Cee_Switch) as E' by tauto. rewrite (Hol E') in *. rewrite Hk in *. cbn in *.
    rewrite Nat2Z.id in Hpl. apply value_read_length in Hpl; [lia|]. rewrite Hv. destruct (m_type r); cbn in Hk; (discriminate Hk || (injection Hk as <-; lia)).
  - destruct Hm as (Hf & _). destruct (Hbr Hf) as (_ & E & Hl). rewrite decide_False by tauto.
    injection Hpl as <-. rewrite length_le_bytes, Hl. by destruct (IsShortBranch op).
  - destruct Hm as (E & _). rewrite decide_True by tauto. injection Hpl as <-. exists (length ds), (concat (map (le_bytes 4) ds)).
    split; [done|]. clear. induction ds as [|d ds IH]; [done|]. cbn [map concat length]. rewrite length_app, length_le_bytes. lia.
Qed.

Lemma item_instr_ok code o i : decoded_item code o i -> convertible_item (o, i) ->
  (exists r, instr_ok (item_instr code (o, i)) r) /\ instr_bytes (item_instr code (o, i)) = item_bytes code (o, i).
Proof.
  intros Hd [Hcalli Hu]. destruct (decoded_bytes _ _ _ Hd) as (r & pl & Hr & Hpl & Hb).
  unfold item_instr, instr_bytes. cbn [fst snd] in *. rewrite Hb, drop_app_length. split; [|done].
  exists r. destruct Hd as (r' & c & Hr' & Hi & Hm & _ & Hop). rewrite Hr in Hr'. injection Hr' as <-.
  split; cbn [fst snd].
  - split_and!; [apply Hop..|done|done|by apply Hu].
  - eapply payload_length; [exact Hr|exact Hm|]. by rewrite Hi in Hpl.
Qed.

Lemma contiguous_Forall code items : forall pos, contiguous code pos items -> Forall (fun it => decoded_item code it.1 it.2) items.
Proof.
  induction items as [|[o i] items IH]; intros pos Hc; [done|]. destruct Hc as (-> & Hd & s & _ & Hrest).
  constructor; [done|]. destruct items; [constructor|by eapply IH].
Qed.

(** The instructions of well-formed IL, and that they make up the code. *)
Lemma items_instrs code items : Forall is_byte code -> Z.of_nat (length code) < 2 ^ 31 ->
  il_items code = Some items -> Forall convertible_item items ->
  Forall (fun x => exists r, instr_ok x r) (map (item_instr code) items) /\
  concat (map instr_bytes (map (item_instr code) items)) = code.
Proof.
  intros Hb Hl Hi Hc. assert (contiguous code 0 items) as Hcont by (by eapply disassemble_contiguous).
  pose proof (contiguous_Forall _ _ _ Hcont) as Hd. assert (forall it, it ∈ items ->
    (exists r, instr_ok (item_instr code it) r) /\ instr_bytes (item_instr code it) = item_bytes code it) as H.
  { intros [o i] Hin. apply item_instr_ok; [|by eapply Forall_forall in Hc].
    rewrite Forall_forall in Hd. by apply (Hd (o, i)). }
  split.
  - apply Forall_fmap, Forall_forall. intros it Hin. by apply H.
  - assert (map instr_bytes (map (item_instr code) items) = map (item_bytes code) items) as ->.
    { rewrite map_map. apply map_ext_in. intros it Hin%list_elem_of_In. by apply H. }
    rewrite (contiguous_concat _ _ _ Hcont). done.
Qed.

Section Spec.

Context {T : Type} (ImportToken : Z -> M T Z) (g : Z -> OPCLSA) `{!OpcodeTable g}.

(** The reference: the token of an instruction that has one is converted. *)
Definition convert_instr (x : instr) : M T instr :=
  r <- lift (opinfo x.1) ;;
  if decide (m_type r = ILOperandType_Token)
  then tk <- ImportToken (le_val x.2) ;; ret (x.1, le_bytes 4 tk)
  else ret x.

Fixpoint convert_instrs (xs : list instr) : M T (list instr) :=
  match xs with
  | [] => ret []
  | x :: xs => y <- convert_instr x ;; ys <- convert_instrs xs ;; ret (y :: ys)
  end.

Lemma convert_instr_shape x r t y t' : instr_ok x r -> convert_instr x t = (Ok y, t') ->
  y.1 = x.1 /\ length y.2 = length x.2.
Proof.
  intros [(_ & _ & Hr & _) Hlen] H. unfold convert_instr in H. rewrite Hr in H.
  rewrite (run_bind _ _ _ r t) in H by done. destruct (row_facts _ _ Hr) as (_ & _ & Hol & Hsw & _ & _).
  case_decide as E; [|by injection H as <- _]. rewrite decide_False in Hlen by congruence.
  rewrite Hol, E in Hlen by (intros E'; apply Hsw in E'; congruence).
  unfold bind in H. destruct (ImportToken _ _) as [[] ?]; try done. injection H as <- _. cbn in *. split; [done|lia].
Qed.

Lemma convert_instrs_shape xs : forall t ys t',
  Forall (fun x => exists r, instr_ok x r) xs -> convert_instrs xs t = (Ok ys, t') ->
  Forall2 (fun x y => y.1 = x.1 /\ length y.2 = length x.2) xs ys.
Proof.
  induction xs as [|x xs IH]; intros t ys t' Hok H.
  - injection H as <- _. constructor.
  - apply Forall_cons in Hok as [(r & Hx) Hok]. cbn [convert_instrs] in H. unfold bind at 1 in H.
    destruct (convert_instr x t) as [[y| | |] t1] eqn:Hy; try done.
    unfold bind at 1 in H. destruct (convert_instrs xs t1) as [[ys'| | |] t2] eqn:Hys; try done.
    injection H as <- _. constructor; [by eapply convert_instr_shape|by eapply IH].
Qed.

Context (ipre ipost : list Z) (bpre bpost : list (option Z)) (code : list Z).

Notation image := (ipre ++ code ++ ipost).
Notation src := (Z.of_nat (length ipre)).
Notation dst := (Z.of_nat (length bpre)).
Notation bufferSize := (Z.of_nat (length code)).

Context (Hsize : bufferSize < 2 ^ 31).

Notation C := (M (Body (T := T))).

(** The memory after [done] bytes, with [old] left before [bpost]. *)
Definition memory (done : list Z) (old : list (option Z)) : list (option Z) := bpre ++ map Some done ++ old ++ bpost.

(** [m] at the cursor behind [ca] reads [bs], writes [bs'] and moves the cursor behind. *)
Definition moves {A} (m : Z -> C A) (t : T) (bs bs' : list Z) (f : Z -> A) (t' : T) : Prop :=
  forall (ca cb done : list Z) (old1 old2 : list (option Z)), code = ca ++ bs ++ cb -> length done = length ca -> length old1 = length bs ->
  m (Z.of_nat (length ca)) (t, memory done (old1 ++ old2)) =
    (Ok (f (Z.of_nat (length ca + length bs))), (t', memory (done ++ bs') old2)).

Lemma put_run (ca bs done : list Z) (old1 old2 : list (option Z)) (t : T) :
  length done = length ca -> length old1 = length bs ->
  put (dst + Z.of_nat (length ca)) bs (t, memory done (old1 ++ old2)) = (Ok tt, (t, memory (done ++ bs) old2)).
Proof.
  intros Hd Ho. unfold put, memory. rewrite <- app_assoc, (app_assoc bpre).
  rewrite write_at_app; [|rewrite length_app, length_map; lia|by rewrite length_map].
  do 2 f_equal. by rewrite map_app, <- !app_assoc.
Qed.

Lemma source_run ca bs cb (s : Body (T := T)) :
  code = ca ++ bs ++ cb -> source image (src + Z.of_nat (length ca)) (length bs) s = (Ok bs, s).
Proof.
  intros ->. unfold source, lift. rewrite read_at_app_r by lia.
  replace (src + Z.of_nat (length ca) - src) with (Z.of_nat (length ca)) by lia.
  rewrite <- !app_assoc. rewrite read_at_app_r by lia. by rewrite Z.sub_diag, read_at_here.
Qed.

Lemma room_run ca bs cb (s : Body (T := T)) :
  code = ca ++ bs ++ cb ->
  room bufferSize (Z.of_nat (length ca)) (Z.of_nat (length bs)) s = (Ok tt, s).
Proof.
  intros Hc. assert (Z.of_nat (length ca) + Z.of_nat (length bs) <= bufferSize) by (rewrite Hc, !length_app; lia).
  unfold room. rewrite u32_small by (unfold is_u32; lia). by rewrite (proj2 (Z.ltb_ge _ _)) by lia.
Qed.

Lemma copy_moves bs t : moves (fun c => copy_bytes image src dst c (length bs)) t bs bs (fun _ => tt) t.
Proof.
  intros ca cb done old1 old2 Hc Hd Ho. unfold copy_bytes. rewrite (run_bind _ _ _ _ _ (source_run _ _ _ _ Hc)).
  by rewrite put_run.
Qed.

Lemma memcpy_moves bs t :
  moves (fun c => memcpy_s image src dst bufferSize c (Z.of_nat (length bs))) t bs bs (fun _ => tt) t.
Proof.
  intros ca cb done old1 old2 Hc Hd Ho. assert (Z.of_nat (length ca) + Z.of_nat (length bs) <= bufferSize) by (rewrite Hc, !length_app; lia).
  unfold memcpy_s. rewrite u32_small by (unfold is_u32; lia). rewrite (proj2 (Z.ltb_ge _ _)) by lia. rewrite Nat2Z.id.
  exact (copy_moves bs t ca cb done old1 old2 Hc Hd Ho).
Qed.

Lemma moves_room bs m t t' bs' f : moves (A := unit) m t bs bs' f t' ->
  moves (fun c => room bufferSize c (Z.of_nat (length bs)) ;;; m c ;;; ret (u32 (c + Z.of_nat (length bs)))) t bs bs' id t'.
Proof.
  intros Hm ca cb done old1 old2 Hc Hd Ho. rewrite (run_bind _ _ _ _ _ (room_run _ _ _ _ Hc)).
  rewrite (run_bind _ _ _ _ _ (Hm _ _ _ _ _ Hc Hd Ho)). unfold ret, id. do 2 f_equal.
  assert (Z.of_nat (length ca) + Z.of_nat (length bs) <= bufferSize) by (rewrite Hc, !length_app; lia).
  rewrite u32_small by (unfold is_u32; lia). lia.
Qed.

Lemma opcode_moves op t : 0 <= op < 0x123 -> op <> 0xFE ->
  moves (convert_opcode image src dst bufferSize) t (opcode_bytes op) (opcode_bytes op) (pair op) t.
Proof.
  intros Hop Hfe ca cb done old1 old2 Hc Hd Ho. unfold convert_opcode.
  assert (Z.of_nat (length ca) + Z.of_nat (length (opcode_bytes op)) <= bufferSize) by (rewrite Hc, !length_app; lia).
  unfold opcode_bytes in *. destruct (Z.leb_spec 0x100 op) as [H2|H1].
  - assert (code = ca ++ [0xFE] ++ ([u8 op] ++ cb)) as Hc1 by done.
    assert (code = (ca ++ [0xFE]) ++ [u8 op] ++ cb) as Hc2 by (by rewrite Hc, <- app_assoc).
    destruct old1 as [|o1 [|o2 [|]]]; try done. 
    erewrite run_bind by apply (source_run ca [0xFE] _ _ Hc1).
    erewrite run_bind by apply (copy_moves [0xFE] t ca _ done [o1] (o2 :: old2) Hc1 Hd eq_refl).
    change (le_val [0xFE] =? 0xFE) with true. cbv iota. change (Z.of_nat (length [0xFE; u8 op])) with 2 in *.
    rewrite u32_small by (unfold is_u32; lia).
    rewrite (proj2 (Z.leb_gt _ _)) by lia.
    replace (Z.of_nat (length ca) + 1) with (Z.of_nat (length (ca ++ [0xFE]))) by (rewrite length_app; cbn; lia).
    erewrite run_bind by apply (source_run (ca ++ [0xFE]) [u8 op] _ _ Hc2).
    assert (length (done ++ [0xFE]) = length (ca ++ [0xFE])) as Hd2 by (rewrite !length_app; cbn; lia).
    erewrite run_bind by apply (copy_moves [u8 op] t (ca ++ [0xFE]) _ (done ++ [0xFE]) [o2] old2 Hc2 Hd2 eq_refl).
    unfold ret. rewrite <- app_assoc. cbn [le_val app]. rewrite length_app. cbn [length].
    rewrite u32_small by (unfold is_u32; lia).
    rewrite Z.mul_0_r, Z.add_0_r. do 3 f_equal; [zlia|lia].
  - destruct old1 as [|o1 [|]]; try done. unfold u8 in *. rewrite (Z.mod_small op) in * by lia.
    erewrite run_bind by apply (source_run ca [op] _ _ Hc).
    erewrite run_bind by apply (copy_moves [op] t ca _ done [o1] old2 Hc Hd eq_refl).
    cbn [le_val length] in *. rewrite (proj2 (Z.eqb_neq _ _)) by lia.
    unfold ret. rewrite u32_small by (unfold is_u32; lia). do 3 f_equal; lia.
Qed.

(** Operands that hold no token are copied. *)
Lemma operand_moves op bs r t : instr_ok (op, bs) r -> m_type r <> ILOperandType_Token ->
  moves (convert_operand ImportToken image src dst bufferSize (g op)) t bs bs id t.
Proof.
  intros [Hop Hlen] Htok. cbn [fst snd] in *. pose proof (table_agrees _ _ Hop) as Hg.
  destruct Hop as (_ & _ & Hr & _). destruct (row_facts _ _ Hr) as (_ & _ & Hol & Hsw & _ & _).
  destruct (decide (m_type r = ILOperandType_Switch)) as [E|E].
  - rewrite E in Hg. destruct (g op); try discriminate Hg. destruct Hlen as (n & rest & -> & Hrest).
    intros ca cb done old1 old2 Hc Hd Ho. rewrite length_app, length_le_bytes in *.
    set (nb := le_bytes 4 (Z.of_nat n)) in *.
    assert (code = ca ++ nb ++ (rest ++ cb)) as Hc1 by (by rewrite Hc, <- app_assoc).
    assert (code = (ca ++ nb) ++ rest ++ cb) as Hc2 by (by rewrite Hc, <- !app_assoc).
    assert (length nb = 4%nat) as Hnb by apply length_le_bytes.
    assert (Z.of_nat (length ca) + 4 + 4 * Z.of_nat n <= bufferSize) by (rewrite Hc, !length_app, Hnb; lia).
    assert (le_val nb = Z.of_nat n) as Hv by (unfold nb; rewrite le_val_le_bytes; apply Z.mod_small; lia).
    rewrite <- (take_drop 4 old1). rewrite <- app_assoc.
    assert (length (take 4 old1) = length nb) as Ho1 by (rewrite length_take; lia).
    assert (length (drop 4 old1) = length rest) as Ho2 by (rewrite length_drop; lia).
    unfold convert_operand.
    erewrite run_bind by apply (room_run ca nb _ _ Hc1).
    erewrite run_bind by (rewrite <- Hnb; apply (source_run ca nb _ _ Hc1)).
    erewrite run_bind by apply (memcpy_moves nb t ca _ done _ _ Hc1 Hd Ho1).
    rewrite Hv. rewrite !(u32_small (4 * Z.of_nat n)) by (unfold is_u32; lia).
    rewrite !(u32_small (Z.of_nat (length ca) + 4)) by (unfold is_u32; lia).
    replace (4 * Z.of_nat n) with (Z.of_nat (length rest)) by lia.
    replace (Z.of_nat (length ca) + 4) with (Z.of_nat (length (ca ++ nb))) by (rewrite length_app; lia).
    assert (length (done ++ nb) = length (ca ++ nb)) as Hd2 by (rewrite !length_app; lia).
    erewrite run_bind by apply (room_run (ca ++ nb) rest _ _ Hc2).
    erewrite run_bind by apply (memcpy_moves rest t (ca ++ nb) _ (done ++ nb) _ _ Hc2 Hd2 Ho2).
    unfold ret, id. rewrite <- app_assoc. rewrite u32_small by (rewrite length_app; unfold is_u32; lia).
    do 2 f_equal. rewrite length_app. lia.
  - rewrite Hol in Hlen by (intros E'; by apply E, Hsw).
    destruct (m_type r); try done; destruct (g op); try discriminate Hg; cbn in Hlen;
      lazymatch type of Hlen with _ = Z.of_nat ?k => assert (length bs = k) as Hk by lia | _ => assert (length bs = 0%nat) as Hk by lia end;
      unfold convert_operand; try (pose proof (moves_room bs _ t t bs _ (copy_moves bs t)) as H; rewrite Hk in H; exact H);
      try (pose proof (moves_room bs _ t t bs _ (memcpy_moves bs t)) as H; rewrite Hk in H; exact H).
    destruct bs; [|done]. intros ca cb done old1 old2 Hc Hd Ho. destruct old1; [|done].
    unfold ret, id. rewrite app_nil_r, Nat.add_0_r. done.
Qed.

(** [o'] is what the reference result [o] asks for: the same state of the importer and, when it
    succeeds, the memory that [f] describes; the same failure otherwise. *)
Definition agrees {A B} (o : outcome A * T) (o' : outcome B * Body (T := T)) (f : A -> B * list (option Z)) : Prop :=
  match o with
  | (Ok a, t) => o' = (Ok (f a).1, (t, (f a).2))
  | (Err hr, t) => exists buf, o' = (Err hr, (t, buf))
  | (Undef u, t) => exists buf, o' = (Undef u, (t, buf))
  | (NoFuel, t) => exists buf, o' = (NoFuel, (t, buf))
  end.

Lemma agrees_bind {A B A' B'} (m : M T A) (k : A -> M T A') (m' : C B) (k' : B -> C B') t s f f' :
  agrees (m t) (m' s) f ->
  (forall a t', m t = (Ok a, t') -> agrees (k a t') (k' (f a).1 (t', (f a).2)) f') ->
  agrees (bind m k t) (bind m' k' s) f'.
Proof.
  unfold agrees at 1, bind. destruct (m t) as [[a|hr|u|] t']; cbn.
  - intros -> H. by apply H.
  - intros [buf ->] _. by exists buf.
  - intros [buf ->] _. by exists buf.
  - intros [buf ->] _. by exists buf.
Qed.

Lemma agrees_ret {A A' B} (m : M T A) (h : A -> A') t (o : outcome B * Body) f f' :
  agrees (m t) o f -> (forall a, f' (h a) = f a) -> agrees ((a <- m ;; ret (h a)) t) o f'.
Proof. unfold agrees, bind, ret. destruct (m t) as [[] ?]; cbn; [|by eauto..]. by intros -> ->. Qed.

(** One instruction, behind its opcode. *)
Lemma operand_agrees op bs r ca cb done old1 old2 t : instr_ok (op, bs) r ->
  code = ca ++ bs ++ cb -> length done = length ca -> length old1 = length bs ->
  agrees (convert_instr (op, bs) t)
    (convert_operand ImportToken image src dst bufferSize (g op) (Z.of_nat (length ca)) (t, memory done (old1 ++ old2)))
    (fun y => (Z.of_nat (length ca + length bs), memory (done ++ y.2) old2)).
Proof.
  intros Hok Hc Hd Ho. unfold convert_instr. cbn [fst snd].
  assert (opinfo op = Ok r) as Hr by apply Hok. rewrite Hr. rewrite (run_bind _ _ _ r t) by done.
  destruct (decide (m_type r = ILOperandType_Token)) as [E|E].
  2: { cbn. exact (operand_moves op bs r t Hok E ca cb done old1 old2 Hc Hd Ho). }
  destruct Hok as [Hop Hlen]. cbn [fst snd] in *. pose proof (table_agrees _ _ Hop) as Hg.
  destruct (row_facts _ _ Hr) as (_ & _ & Hol & Hsw & _ & _). rewrite E in *.
  rewrite decide_False in Hlen by done. rewrite Hol in Hlen by (intros E'; by apply Hsw in E').
  assert (length bs = 4%nat) as Hk by (cbn in Hlen; lia).
  assert (Z.of_nat (length ca) + 4 <= bufferSize) by (rewrite Hc, !length_app; lia).
  assert (convert_operand ImportToken image src dst bufferSize (g op) (Z.of_nat (length ca)) =
    convert_operand ImportToken image src dst bufferSize opclsaInlineTok (Z.of_nat (length ca))) as -> by (by destruct (g op)).
  cbn [convert_operand]. change 4 with (Z.of_nat 4). rewrite <- Hk.
  rewrite (run_bind _ _ _ _ _ (room_run ca bs cb (t, memory done (old1 ++ old2)) Hc)).
  rewrite (run_bind _ _ _ _ _ (source_run ca bs cb (t, memory done (old1 ++ old2)) Hc)).
  apply (agrees_bind _ _ _ _ _ _ (fun tk => (tk, memory done (old1 ++ old2)))).
  - unfold agrees, importing. destruct (ImportToken (le_val bs) t) as [[]]; by eauto.
  - intros tk t' _. cbn [fst snd]. rewrite Hk. unfold ret, agrees. cbn [fst snd].
    rewrite (run_bind _ _ _ _ _ (put_run ca (le_bytes 4 tk) done old1 old2 t' Hd ltac:(rewrite length_le_bytes; lia))).
    rewrite u32_small by (unfold is_u32; lia). do 2 f_equal. lia.
Qed.

(** The loop, behind the instructions of [ca]. *)
Lemma il_loop_agrees xs : forall fuel ca done old t, Forall (fun x => exists r, instr_ok x r) xs ->
  code = ca ++ concat (map instr_bytes xs) -> length done = length ca -> length old = length (concat (map instr_bytes xs)) ->
  (length xs <= fuel)%nat ->
  agrees (convert_instrs xs t) (il_loop ImportToken g image src dst bufferSize fuel (Z.of_nat (length ca)) (t, memory done old))
    (fun ys => (tt, memory (done ++ concat (map instr_bytes ys)) [])).
Proof.
  induction xs as [|[op bs] xs IH]; intros fuel ca done old t Hok Hc Hd Ho Hf.
  - cbn in Hc, Ho. rewrite app_nil_r in Hc. destruct old; [|done].
    assert ((Z.of_nat (length ca) <? bufferSize) = false) as Hend by (apply Z.ltb_ge; rewrite Hc; lia).
    cbn [convert_instrs map concat]. unfold ret, agrees. rewrite app_nil_r. destruct fuel; cbn [il_loop]; by rewrite Hend.
  - apply Forall_cons in Hok as [(r & Hx) Hok]. destruct fuel as [|fuel]; [cbn in Hf; lia|].
    cbn [map concat] in Hc, Ho. change (instr_bytes (op, bs)) with (opcode_bytes op ++ bs) in Hc, Ho.
    set (ob := opcode_bytes op) in *. set (tl := concat (map instr_bytes xs)) in *.
    assert (code = ca ++ ob ++ (bs ++ tl)) as Hc1 by (by rewrite Hc, <- !app_assoc).
    assert (code = (ca ++ ob) ++ bs ++ tl) as Hc2 by (by rewrite Hc, <- !app_assoc).
    assert (code = (ca ++ ob ++ bs) ++ tl) as Hc3 by (by rewrite Hc, <- !app_assoc).
    rewrite !length_app in Ho.
    assert (0 < length ob)%nat by (unfold ob, opcode_bytes; destruct (0x100 <=? op); cbn; lia).
    cbn [il_loop convert_instrs]. rewrite (proj2 (Z.ltb_lt _ _)) by (rewrite Hc, !length_app; lia).
    destruct Hx as [Hop Hlen] eqn:Ex. clear Ex. assert (instr_ok (op, bs) r) as Hx' by done.
    pose proof (convertible_not_prefix _ _ Hop) as Hfe. destruct Hop as (Hop & _). cbn [fst] in Hop, Hfe.
    rewrite <- (take_drop (length ob) old), <- (take_drop (length bs) (drop (length ob) old)).
    assert (length (take (length ob) old) = length ob) as Ho1 by (rewrite length_take; lia).
    rewrite (run_bind _ _ _ _ _ (opcode_moves op t Hop Hfe ca _ done (take (length ob) old)
      (take (length bs) (drop (length ob) old) ++ drop (length bs) (drop (length ob) old)) Hc1 Hd Ho1)).
    rewrite (proj2 (Z.ltb_ge _ _)) by (unfold MAX_MSIL_OPCODE; lia). rewrite <- length_app.
    eapply agrees_bind.
    + eapply operand_agrees; [exact Hx'|exact Hc2|rewrite !length_app; lia|rewrite length_take, length_drop; lia].
    + intros y t' Hy. cbn [fst snd]. destruct (convert_instr_shape _ _ _ _ _ Hx' Hy) as [Ey Ly]. cbn [fst snd] in Ey, Ly.
      rewrite <- length_app, <- !app_assoc. eapply agrees_ret.
      * apply IH; [done|exact Hc3|rewrite !length_app; lia|rewrite !length_drop; fold tl; lia|cbn [length] in Hf; lia].
      * intros ys. cbn [map concat]. unfold instr_bytes at 1. rewrite Ey. fold ob. by rewrite <- !app_assoc.
Qed.

End Spec.

(** C26: on IL that disassembles and has no [calli], [ConvertILCode] is equivalent to converting
    the tokens of the disassembled instructions one after the other: it terminates, makes the
    same calls to the importer and fails with it; when it succeeds the target buffer, and
    nothing around it, holds the same instructions in the same places, each with its own opcode
    and an operand of the same length, the tokens replaced. *)
Theorem ConvertILCode_replaces_tokens {T} (ImportToken : Z -> M T Z) (g : Z -> OPCLSA) (Hg : OpcodeTable g)
    code items ipre ipost bpre bpost old fuel t :
  Forall is_byte code -> Z.of_nat (length code) < 2 ^ 31 -> il_items code = Some items -> Forall convertible_item items ->
  length old = length code -> (length items <= fuel)%nat ->
  let xs := map (item_instr code) items in
  agrees (convert_instrs ImportToken xs t)
    (ConvertILCode ImportToken g (ipre ++ code ++ ipost) (Z.of_nat (length ipre)) (Z.of_nat (length bpre))
      (Z.of_nat (length code)) fuel (t, bpre ++ old ++ bpost))
    (fun ys => (tt, bpre ++ map Some (concat (map instr_bytes ys)) ++ bpost)) /\
  (forall ys t', convert_instrs ImportToken xs t = (Ok ys, t') ->
    Forall2 (fun x y => y.1 = x.1 /\ length y.2 = length x.2) xs ys).
Proof.
  intros Hb Hl Hi Hc Ho Hf xs. destruct (items_instrs _ _ Hb Hl Hi Hc) as [Hok Hcat]. fold xs in Hok, Hcat.
  split; [|by intros; eapply convert_instrs_shape]. unfold ConvertILCode.
  apply (il_loop_agrees ImportToken g ipre ipost bpre bpost code Hl xs fuel [] [] old t Hok);
    [by rewrite Hcat|done|by rewrite Hcat|unfold xs; by rewrite length_map].
Qed.

(** A table that agrees: the operand class of a type. *)
Definition class_of_type (ty : ILOperandType) : OPCLSA :=
  match ty with
  | ILOperandType_None => opclsaInlineNone
  | ILOperandType_Byte => opclsaShortInlineI
  | ILOperandType_Int => opclsaInlineI
  | ILOperandType_UShort => opclsaInlineVar
  | ILOperandType_Long => opclsaInlineI8
  | ILOperandType_Single => opclsaShortInlineR
  | ILOperandType_Double => opclsaInlineR
  | ILOperandType_Token => opclsaInlineTok
  | ILOperandType_Switch => opclsaInlineSwitch
  end.

Definition demo_table (op : Z) : OPCLSA :=
  if op =? Cee_Calli then opclsaInlineSig
  else match opinfo op with Ok r => class_of_type (m_type r) | _ => opclsaInlineNone end.

Lemma demo_table_ok : OpcodeTable demo_table.
Proof.
  constructor; [|done]. intros op r (_ & Hc & Hr & _). unfold demo_table.
  rewrite (proj2 (Z.eqb_neq _ _) Hc), Hr. by destruct (m_type r).
Defined.

(** [ldarg.0; call 0x06000001; ldc.i4.s 1; brtrue.s +0; ret] *)
Definition demo_code : list Z := [0x02; 0x28; 0x01; 0x00; 0x00; 0x06; 0x1F; 0x01; 0x2D; 0x00; 0x2A].
Definition demo_items : list (Z * CInstruction) := match il_items demo_code with Some items => items | None => [] end.

(** An importer that numbers the tokens it gives out. *)
Definition demo_import (tk : Z) : M Z Z := fun n => (Ok (tk + n), n + 1).

Lemma demo_items_ok : Forall convertible_item demo_items.
Proof.
  apply (bool_decide_unpack (Forall (fun it => m_opcode it.2 <> Cee_Calli /\
    match opinfo (m_opcode it.2) with Ok r => IsFlagSet (m_flags r) ILOpcodeFlag_Unused = false | _ => True end) demo_items) I) ||
  (repeat constructor; try done; intros r Hr; vm_compute in Hr; injection Hr as <-; done).
Defined.

Lemma ConvertILCode_replaces_tokens_witness :
  ConvertILCode demo_import demo_table ([0x2E] ++ demo_code ++ []) 1 0 11 5 (7, replicate 11 None) =
    (Ok tt, (8, map Some [0x02; 0x28; 0x08; 0x00; 0x00; 0x06; 0x1F; 0x01; 0x2D; 0x00; 0x2A])).
Proof.
  destruct (ConvertILCode_replaces_tokens demo_import demo_table demo_table_ok demo_code demo_items [0x2E] [] [] []
    (replicate 11 None) 5 7) as [H _].
  - repeat constructor; done.
  - done.
  - reflexivity.
  - exact demo_items_ok.
  - done.
  - apply le_n.
  - exact H.
Defined.

(** [calli] is refused: what was written up to it stays. *)
Lemma ConvertILCode_calli {T} (ImportToken : Z -> M T Z) (g : Z -> OPCLSA) (Hg : OpcodeTable g) t sig :
  ConvertILCode ImportToken g [0x29; sig; 0; 0; 0x11] 0 0 5 1 (t, replicate 5 None) =
    (Err E_NOTIMPL, (t, [Some 0x29; None; None; None; None])).
Proof.
  unfold ConvertILCode. cbn [il_loop]. change (0 <? 5) with true. cbv iota.
  assert (convert_opcode [0x29; sig; 0; 0; 0x11] 0 0 5 0 (t, replicate 5 None) = (Ok (Cee_Calli, 1), (t, Some 0x29 :: replicate 4 None)))
    as Hop by reflexivity.
  rewrite (run_bind _ _ _ _ _ Hop). change (MAX_MSIL_OPCODE <? Cee_Calli) with false. cbv iota.
  by rewrite table_calli.
Qed.

(** ** Exception sections

    The test on the filter flag is the wrong way round: of a clause that is not a filter the class
    token is copied as it is, without a call to the importer. *)
Lemma convert_clause_keeps_class_token {T} (ImportToken : Z -> M T Z) ipre ipost bpre bpost fields class old1 old2 flagBytes t :
  length class = 4%nat -> length old1 = length fields -> length old2 = length class ->
  Z.of_nat (length (fields ++ class)) < 2 ^ 31 ->
  Z.land (le_val (take flagBytes fields)) COR_ILEXCEPTION_CLAUSE_FILTER = 0 ->
  convert_clause ImportToken (ipre ++ (fields ++ class) ++ ipost) (Z.of_nat (length (fields ++ class))) flagBytes
    (Z.of_nat (length ipre)) (Z.of_nat (length bpre)) (t, bpre ++ (old1 ++ old2) ++ bpost) =
    (Ok tt, (t, bpre ++ map Some (fields ++ class) ++ bpost)).
Proof.
  intros Hc H1 H2 Hl Hf. unfold convert_clause. set (clause := fields ++ class) in *.
  replace (Z.of_nat (length clause) - 4) with (Z.of_nat (length fields)) by (unfold clause; rewrite length_app; lia).
  rewrite Nat2Z.id. assert (clause = fields ++ class ++ []) as Hcl by (by rewrite app_nil_r).
  pose proof (source_run ipre ipost clause Hl [] fields (class ++ []) (t, bpre ++ (old1 ++ old2) ++ bpost) Hcl) as R1.
  pose proof (put_run bpre bpost clause [] fields [] old1 old2 t eq_refl H1) as W1.
  pose proof (source_run ipre ipost clause Hl fields class [] (t, memory bpre bpost fields old2) Hcl) as R2.
  pose proof (put_run bpre bpost clause fields class fields old2 [] t eq_refl H2) as W2.
  unfold memory in *. cbn [map app length] in *. rewrite Z.add_0_r, ?app_nil_r in *. rewrite Hc in R2.
  rewrite (run_bind _ _ _ _ _ R1), (run_bind _ _ _ _ _ W1), (run_bind _ _ _ _ _ R2), Hf, Z.eqb_refl. exact W2.
Qed.

(** The header of a small section has four bytes, of which the type [IMAGE_COR_ILMETHOD_SECT_SMALL]
    declares two: the clauses are taken two bytes early, and the last two bytes of the section,
    here half of the class token 0x01000002, are never written. *)
Lemma small_section_truncated {T} (ImportToken : Z -> M T Z) t :
  let sec := [0x01; 0x10; 0; 0] ++ [0; 0; 0x01; 0x00; 0x05; 0x06; 0x00; 0x03; 0x02; 0x00; 0x00; 0x01] in
  convert_section ImportToken sec 0 (0, false, 16) (t, replicate 16 None) =
    (Ok tt, (t, map Some (take 14 sec) ++ [None; None])).
Proof. reflexivity. Qed.
