(* ===== verification/Inject.v ===== *)
(** Copying one module into another ([AssemblyInjector.cpp], [AssemblyInjector.h]): the functions
    that import the rows of each metadata table, their caches, and [ConvertToken], which chooses
    among them. *)
From Stdlib Require Import Ascii.
From S2P Require Import Prelude CorSig SigParser SignatureBuilder CorHeaders Clauses SigConvert InjectCode.

(** [CorTokenType] of [corhdr.h]; the nil token of a table is its type. *)
Definition mdtFieldDef : Z := 0x04000000.
Definition mdtParamDef : Z := 0x08000000.
Definition mdtCustomAttribute : Z := 0x0c000000.
Definition mdtEvent : Z := 0x14000000.
Definition mdtProperty : Z := 0x17000000.
Definition mdtModuleRef : Z := 0x1a000000.
Definition mdtAssembly : Z := 0x20000000.
Definition mdtAssemblyRef : Z := 0x23000000.
Definition mdtGenericParam : Z := 0x2a000000.
Definition mdtString : Z := 0x70000000.

(** The attributes that are tested. *)
Definition tdVisibilityMask : Z := 0x7.
Definition tdNestedPublic : Z := 0x2.
Definition tdExplicitLayout : Z := 0x10.
Definition mdPinvokeImpl : Z := 0x2000.
Definition fdReservedMask : Z := 0x9500.
Definition fdRTSpecialName : Z := 0x0400.
Definition fdHasFieldMarshal : Z := 0x1000.
Definition fdHasFieldRVA : Z := 0x0100.
Definition IsTdNested (flags : Z) : bool := tdNestedPublic <=? Z.land flags tdVisibilityMask.

(** ** The source module

    [IMetaDataImport2] of the source is only read: its answers are data.  An enumeration is the
    list of tokens that it gives with [S_OK], and the failure that ends it, if there is one. *)
Definition enumeration (A : Type) : Type := list A * option HRESULT.

(** A signature: where it is, which is the key of the cache of signatures, and its bytes. *)
Record SourceSig := mkSourceSig { sigPtr : Z; sigBytes : list Z }.

Record TypeDefProps := mkTypeDefProps { td_name : string; td_flags : Z; td_extends : Z }.
Record FieldProps := mkFieldProps {
  fp_class : Z; fp_name : string; fp_attr : Z; fp_sig : SourceSig; fp_cplus : Z; fp_value : list Z }.
Record MethodProps := mkMethodProps {
  mp_class : Z; mp_name : string; mp_attr : Z; mp_sig : SourceSig; mp_rva : Z; mp_implFlags : Z }.
Record PropertyProps := mkPropertyProps {
  pp_class : Z; pp_name : string; pp_flags : Z; pp_sig : SourceSig; pp_cplus : Z; pp_value : list Z;
  pp_setter : Z; pp_getter : Z; pp_otherMethods : Z }.
Record EventProps := mkEventProps {
  ep_class : Z; ep_name : string; ep_flags : Z; ep_type : Z;
  ep_addOn : Z; ep_removeOn : Z; ep_fire : Z; ep_otherMethods : Z }.
Record ParamProps := mkParamProps {
  par_method : Z; par_sequence : Z; par_name : string; par_attr : Z; par_cplus : Z; par_value : list Z }.
Record GenericParamProps := mkGenericParamProps {
  gp_seq : Z; gp_flags : Z; gp_owner : Z; gp_reserved : Z; gp_name : string }.

Record SourceImport := mkSource {
  EnumTypeDefs : enumeration Z;
  EnumCustomAttributes : enumeration Z;
  GetTypeDefProps : Z -> outcome TypeDefProps;
  EnumInterfaceImpls : Z -> outcome (list Z);  (* [] also when opening gives S_FALSE *)
  GetInterfaceImplProps : Z -> outcome Z;
  GetNestedClassProps : Z -> outcome Z;
  EnumFields : Z -> enumeration Z;
  EnumMethods : Z -> enumeration Z;
  EnumProperties : Z -> enumeration Z;
  EnumEvents : Z -> enumeration Z;
  EnumMethodImpls : Z -> enumeration (Z * Z);
  EnumGenericParams : Z -> enumeration Z;
  GetClassLayout : Z -> outcome (Z * list (Z * Z) * Z);
  GetTypeRefProps : Z -> outcome (Z * string);
  GetAssemblyRefProps : Z -> outcome string;
  GetFieldProps : Z -> outcome FieldProps;
  GetFieldMarshal : Z -> outcome (list Z);
  GetMethodProps : Z -> outcome MethodProps;
  EnumParams : Z -> enumeration Z;
  GetPinvokeMap : Z -> outcome (Z * string * Z);
  GetSigFromToken : Z -> outcome SourceSig;
  GetMemberRefProps : Z -> outcome (Z * string * SourceSig);
  GetUserString : Z -> outcome (list Z);
  GetPropertyProps : Z -> outcome PropertyProps;
  GetEventProps : Z -> outcome EventProps;
  GetCustomAttributeProps : Z -> outcome (Z * Z * list Z);
  GetParamProps : Z -> outcome ParamProps;
  GetModuleRefProps : Z -> outcome string;
  GetTypeSpecFromToken : Z -> outcome SourceSig;
  GetGenericParamProps : Z -> outcome GenericParamProps;
  EnumGenericParamConstraints : Z -> outcome (list Z);
  GetGenericParamConstraintProps : Z -> outcome Z;
  GetMethodSpecProps : Z -> outcome (Z * SourceSig)
}.

(** ** The target module

    The calls to [IMetaDataImport2], [IMetaDataAssemblyImport] and [IMetaDataEmit2] of the target
    and to the profiler, by the type of their results.  A search gives [None] for
    [CLDB_E_RECORD_NOTFOUND]; [FindTypeRef] then leaves the nil token in its out parameter. *)
Inductive TargetCall : Type -> Type :=
| FindTypeDefByName (szTypeDef : string) (tkEnclosingClass : Z) : TargetCall (option Z)
| DefineTypeDef (szTypeDef : string) (flags extends : Z) (implements : list Z) : TargetCall Z
| DefineNestedType (szTypeDef : string) (flags extends : Z) (implements : list Z) (enclosing : Z) : TargetCall Z
| SetClassLayout (td packSize : Z) (fieldOffsets : list (Z * Z)) (classSize : Z) : TargetCall unit
| FindTypeRef (scope : Z) (szName : string) : TargetCall (option Z)
| DefineTypeRefByName (scope : Z) (szName : string) : TargetCall Z
| EnumAssemblyRefs : TargetCall (enumeration Z)
| GetAssemblyFromScope : TargetCall Z
| GetAssemblyProps (assembly : Z) : TargetCall string
| DefineField (td : Z) (szName : string) (attr : Z) (sig : list Z) (cplus : Z) (value : list Z) : TargetCall Z
| SetFieldMarshal (field : Z) (nativeType : list Z) : TargetCall unit
| FindMethod (td : Z) (szName : string) (sig : list Z) : TargetCall (option Z)
| DefineMethod (td : Z) (szName : string) (attr : Z) (sig : list Z) (rva implFlags : Z) : TargetCall Z
| DefinePinvokeMap (method flags : Z) (szImportName : string) (dll : Z) : TargetCall unit
| SetILFunctionBody (method : Z) (body : list (option Z)) : TargetCall unit
| GetTokenFromSig (sig : list Z) : TargetCall Z
| FindMemberRef (declaring : Z) (szName : string) (sig : list Z) : TargetCall (option Z)
| DefineMemberRef (declaring : Z) (szName : string) (sig : list Z) : TargetCall Z
| DefineUserString (s : list Z) : TargetCall Z
| DefineProperty (td : Z) (szName : string) (flags : Z) (sig : list Z) (cplus : Z) (value : list Z) (getter setter : Z) : TargetCall Z
| DefineEvent (td : Z) (szName : string) (flags type addOn removeOn fire : Z) : TargetCall Z
| DefineCustomAttribute (obj type : Z) (blob : list Z) : TargetCall Z
| DefineMethodImpl (td body decl : Z) : TargetCall unit
| DefineParam (method sequence : Z) (szName : string) (attr cplus : Z) (value : list Z) : TargetCall Z
| EnumModuleRefs : TargetCall (enumeration Z)
| GetTargetModuleRefProps (moduleRef : Z) : TargetCall string
| DefineModuleRef (szName : string) : TargetCall Z
| GetTokenFromTypeSpec (sig : list Z) : TargetCall Z
| DefineGenericParam (owner seq flags : Z) (szName : string) (reserved : Z) (constraints : list Z) : TargetCall Z
| DefineMethodSpec (parent : Z) (sig : list Z) : TargetCall Z.

(** ** The injector *)

(** The token maps of the class. *)
Inductive TokenMap :=
| m_typeDefMap | m_typeRefMap | m_assemblyRefMap | m_fieldDefMap | m_methodDefMap | m_memberRefMap
| m_stringMap | m_propertyMap | m_eventMap | m_customAttributeMap | m_moduleRefMap | m_typeSpecMap
| m_genericParamMap | m_methodSpecMap.

#[export] Instance TokenMap_eq_dec : EqDecision TokenMap.
Proof. solve_decision. Defined.

(** The functions that import one row. *)
Inductive ImportFunction :=
| fnTypeDef | fnTypeRef | fnAssemblyRef | fnFieldDef | fnMethodDef | fnMemberRef | fnString
| fnProperty | fnEvent | fnCustomAttribute | fnParam | fnModuleRef | fnTypeSpec | fnGenericParam | fnMethodSpec.

Section Injector.

(** [Tg] is the state of the runtime and [target] what it does; [source_import] is
    [m_pSourceImport], [image] the mapped source module, [g_opcodeInlineValues] the table that
    [opcode.def] fills. *)
Context {Tg : Type} (target : forall A, TargetCall A -> M Tg A).
Context (source_import : SourceImport) (image : list Z) (g_opcodeInlineValues : Z -> OPCLSA).

Record Injector := mkInjector {
  m_tokenMaps : TokenMap -> gmap Z Z;
  m_sigToConvertedSigMap : gmap Z CSignatureBuilder;
  m_target : Tg
}.

Notation I := (M Injector).

Definition no_tokens : TokenMap -> gmap Z Z := fun _ => ∅.

(** [AssemblyInjector::AssemblyInjector] *)
Definition new_injector (tg : Tg) : Injector := mkInjector no_tokens ∅ tg.

Definition call_target {A} (c : TargetCall A) : I A := fun s =>
  let '(o, tg) := target A c (m_target s) in (o, mkInjector (m_tokenMaps s) (m_sigToConvertedSigMap s) tg).

Definition cached (m : TokenMap) (tk : Z) : I (option Z) := gets (fun s => m_tokenMaps s m !! tk).

Definition remember (m : TokenMap) (tk tk' : Z) : I unit := modify (fun s =>
  mkInjector (fun m' => if decide (m' = m) then <[tk := tk']> (m_tokenMaps s m) else m_tokenMaps s m')
    (m_sigToConvertedSigMap s) (m_target s)).

(** [IfFalseRet(tk != mdTokenNil && tk != nil, E_FAIL)] *)
Definition not_nil (tk nil : Z) : I unit := if_false_ret (negb (tk =? mdTokenNil) && negb (tk =? nil)) E_FAIL.

Definition for_enum {A} (f : A -> I unit) (e : enumeration A) : I unit :=
  for_each f (fst e) ;;; match snd e with Some hr => fail hr | None => ret tt end.

Definition ignore {A} (m : I A) : I unit := m ;;; ret tt.

(** The results of a loop that fills an array. *)
Fixpoint collect_each {A B} (f : A -> I B) (l : list A) : I (list B) :=
  match l with
  | [] => ret []
  | x :: l => y <- f x ;; ys <- collect_each f l ;; ret (y :: ys)
  end.

(** ** The functions, given those they call *)

Section Calls.

Context (fuel : nat) (Import : ImportFunction -> Z -> I Z).

(** [ConvertToken(sourceToken, pTargetToken)] *)
Definition ConvertToken (sourceToken : Z) : I Z :=
  let t := TypeFromToken sourceToken in
  if t =? mdtTypeDef then Import fnTypeDef sourceToken
  else if t =? mdtTypeRef then Import fnTypeRef sourceToken
  else if t =? mdtFieldDef then Import fnFieldDef sourceToken
  else if t =? mdtMethodDef then Import fnMethodDef sourceToken
  else if t =? mdtMemberRef then Import fnMemberRef sourceToken
  else if t =? mdtString then Import fnString sourceToken
  else if t =? mdtAssembly then call_target GetAssemblyFromScope
  else if t =? mdtAssemblyRef then Import fnAssemblyRef sourceToken
  else if t =? mdtModuleRef then Import fnModuleRef sourceToken
  else if t =? mdtTypeSpec then Import fnTypeSpec sourceToken
  else if t =? mdtMethodSpec then Import fnMethodSpec sourceToken
  else fail E_NOTIMPL.

(** [GetCorSignaturePtr] and [GetSize] of a converted signature. *)
Definition signature_bytes (b : CSignatureBuilder) : outcome (list Z) :=
  of_option UninitRead (mapM id (take (Z.to_nat (m_used b)) (default [] (m_memory b)))).

(** A conversion with a parser of the signature and a new builder. *)
Definition convert_new (convert : M (Conversion (T := Injector)) unit) (sig : SourceSig) : I CSignatureBuilder := fun s =>
  let '(o, (s, _, b)) := convert (s, parser_start (sigBytes sig), new_builder) in
  (obind o (fun _ => Ok b), s).

Definition convert_cached (convert : list Z -> M (Conversion (T := Injector)) unit) (sig : SourceSig) : I (list Z) :=
  o <- gets (fun s => m_sigToConvertedSigMap s !! sigPtr sig) ;;
  b <- match o with
       | Some b => ret b
       | None =>
           b <- convert_new (convert (sigBytes sig)) sig ;;
           modify (fun s => mkInjector (m_tokenMaps s) (<[sigPtr sig := b]> (m_sigToConvertedSigMap s)) (m_target s)) ;;;
           ret b
       end ;;
  lift (signature_bytes b).

Definition ConvertNonTypeSignatureCached : SourceSig -> I (list Z) :=
  convert_cached (fun sig => ConvertNonTypeSignature ConvertToken sig fuel (ConvertTypeSignature ConvertToken sig fuel)).

Definition ConvertTypeSignatureCached : SourceSig -> I (list Z) :=
  convert_cached (fun sig => ConvertTypeSignature ConvertToken sig fuel).

(** *** Types *)

(** The converted interfaces, of which nothing is given to the runtime when there are none. *)
Definition import_interfaces (sourceTypeDef : Z) : I (list Z) :=
  impls <- lift (EnumInterfaceImpls source_import sourceTypeDef) ;;
  collect_each (fun impl => tk <- lift (GetInterfaceImplProps source_import impl) ;; ConvertToken tk) impls.

(** The search for a class to merge with. *)
Definition merge_target (szTypeDef : string) (enclosing : Z) : I (option Z) :=
  match szTypeDef with
  | String "_"%char name => call_target (FindTypeDefByName name enclosing)
  | _ => ret None
  end.

Definition define_type (sourceTypeDef : Z) (p : TypeDefProps) (targetExtends : Z) (implements : list Z) : I Z :=
  if negb (IsTdNested (td_flags p)) then
    found <- merge_target (td_name p) mdTokenNil ;;
    match found with
    | Some td => ret td
    | None => call_target (DefineTypeDef (td_name p) (td_flags p) targetExtends implements)
    end
  else
    sourceEnclosingTypeDef <- lift (GetNestedClassProps source_import sourceTypeDef) ;;
    targetEnclosingTypeDef <- ConvertToken sourceEnclosingTypeDef ;;
    found <- merge_target (td_name p) targetEnclosingTypeDef ;;
    match found with
    | Some td => ret td
    | None => call_target (DefineNestedType (td_name p) (td_flags p) targetExtends implements targetEnclosingTypeDef)
    end.

Definition ImportMethodImpl (sourceImplementationClass sourceImplementationMethod sourceDeclarationMethod : Z) : I unit :=
  targetImplementationClass <- ConvertToken sourceImplementationClass ;;
  targetImplementationMethod <- ConvertToken sourceImplementationMethod ;;
  targetDeclarationMethod <- ConvertToken sourceDeclarationMethod ;;
  call_target (DefineMethodImpl targetImplementationClass targetImplementationMethod targetDeclarationMethod).

Definition import_layout (sourceTypeDef targetTypeDef : Z) : I unit :=
  l <- lift (GetClassLayout source_import sourceTypeDef) ;;
  let '(packSize, fields, classSize) := l in
  fieldOffsets <- collect_each (fun f => tk <- Import fnFieldDef (fst f) ;; ret (tk, snd f)) fields ;;
  call_target (SetClassLayout targetTypeDef packSize fieldOffsets classSize).

(** What follows once the type is in the cache. *)
Definition import_members (sourceTypeDef : Z) (p : TypeDefProps) (targetTypeDef : Z) : I unit :=
  for_enum (fun tk => ignore (Import fnFieldDef tk)) (EnumFields source_import sourceTypeDef) ;;;
  for_enum (fun tk => ignore (Import fnMethodDef tk)) (EnumMethods source_import sourceTypeDef) ;;;
  for_enum (fun tk => ignore (Import fnProperty tk)) (EnumProperties source_import sourceTypeDef) ;;;
  for_enum (fun tk => ignore (Import fnEvent tk)) (EnumEvents source_import sourceTypeDef) ;;;
  for_enum (fun '(impl, decl) => ImportMethodImpl sourceTypeDef impl decl) (EnumMethodImpls source_import sourceTypeDef) ;;;
  (if Z.land (td_flags p) tdExplicitLayout =? 0 then ret tt else import_layout sourceTypeDef targetTypeDef) ;;;
  for_enum (fun tk => ignore (Import fnGenericParam tk)) (EnumGenericParams source_import sourceTypeDef).

Definition ImportTypeDef (sourceTypeDef : Z) : I Z :=
  not_nil sourceTypeDef mdtTypeDef ;;;
  found <- cached m_typeDefMap sourceTypeDef ;;
  match found with
  | Some tk => ret tk
  | None =>
      p <- lift (GetTypeDefProps source_import sourceTypeDef) ;;
      targetExtends <- ConvertToken (td_extends p) ;;
      implements <- import_interfaces sourceTypeDef ;;
      targetTypeDef <- define_type sourceTypeDef p targetExtends implements ;;
      remember m_typeDefMap sourceTypeDef targetTypeDef ;;;
      import_members sourceTypeDef p targetTypeDef ;;;
      ret targetTypeDef
  end.

Definition ImportTypeRef (sourceTypeRef : Z) : I Z :=
  not_nil sourceTypeRef mdtTypeRef ;;;
  found <- cached m_typeRefMap sourceTypeRef ;;
  match found with
  | Some tk => ret tk
  | None =>
      p <- lift (GetTypeRefProps source_import sourceTypeRef) ;;
      let '(tkResolutionScope, szName) := p in
      if TypeFromToken tkResolutionScope =? mdtModuleRef then fail E_NOTIMPL
      else
        scope <- ConvertToken tkResolutionScope ;;
        tk <- (if ((TypeFromToken scope =? mdtAssembly) && (TypeFromToken tkResolutionScope =? mdtAssemblyRef))
                  || (TypeFromToken scope =? mdtTypeDef)
               then
                 found <- call_target (FindTypeDefByName szName (if TypeFromToken scope =? mdtTypeDef then scope else mdTokenNil)) ;;
                 match found with Some td => ret td | None => fail CLDB_E_RECORD_NOTFOUND end
               else
                 found <- call_target (FindTypeRef scope szName) ;;
                 let tk := default mdtTypeRef found in
                 if (tk =? mdtTypeRef) || (tk =? mdTokenNil)
                 then call_target (DefineTypeRefByName scope szName)
                 else ret tk) ;;
        remember m_typeRefMap sourceTypeRef tk ;;;
        ret tk
  end.

(** The first reference of the target with this name; its name is asked of the source. *)
Fixpoint find_assembly_ref (szName : string) (refs : list Z) (last : option HRESULT) : I (option Z) :=
  match refs with
  | [] => match last with Some hr => fail hr | None => ret None end
  | cur :: refs =>
      szNameTarget <- lift (GetAssemblyRefProps source_import cur) ;;
      if String.eqb szName szNameTarget then ret (Some cur) else find_assembly_ref szName refs last
  end.

Definition contract_assemblies : list string :=
  ["System.Runtime"; "System.Collections"; "System.Console"; "System.Reflection"]%string.

Definition ImportAssemblyRef (sourceAssemblyRef : Z) : I Z :=
  not_nil sourceAssemblyRef mdtAssemblyRef ;;;
  found <- cached m_assemblyRefMap sourceAssemblyRef ;;
  match found with
  | Some tk => ret tk
  | None =>
      szName <- lift (GetAssemblyRefProps source_import sourceAssemblyRef) ;;
      refs <- call_target EnumAssemblyRefs ;;
      existing <- find_assembly_ref szName (fst refs) (snd refs) ;;
      match existing with
      | Some cur => remember m_assemblyRefMap sourceAssemblyRef cur ;;; ret cur
      | None =>
          targetAssembly <- call_target GetAssemblyFromScope ;;
          szNameTarget <- call_target (GetAssemblyProps targetAssembly) ;;
          if String.eqb szName szNameTarget
             || (String.eqb "mscorlib" szNameTarget && existsb (String.eqb szName) contract_assemblies)
          then remember m_assemblyRefMap sourceAssemblyRef targetAssembly ;;; ret targetAssembly
          else fail E_NOTIMPL
      end
  end.

(** *** Members *)

Definition ImportFieldDef (sourceFieldDef : Z) : I Z :=
  not_nil sourceFieldDef mdtFieldDef ;;;
  found <- cached m_fieldDefMap sourceFieldDef ;;
  match found with
  | Some tk => ret tk
  | None =>
      p <- lift (GetFieldProps source_import sourceFieldDef) ;;
      targetTypeDef <- Import fnTypeDef (fp_class p) ;;
      sig <- ConvertNonTypeSignatureCached (fp_sig p) ;;
      tk <- call_target (DefineField targetTypeDef (fp_name p)
              (Z.land (fp_attr p) (Z.lnot (Z.land fdReservedMask (Z.lnot (Z.lor fdHasFieldRVA fdRTSpecialName)))))
              sig (fp_cplus p) (fp_value p)) ;;
      remember m_fieldDefMap sourceFieldDef tk ;;;
      (if Z.land (fp_attr p) fdHasFieldMarshal =? 0 then ret tt
       else
         nativeType <- lift (GetFieldMarshal source_import sourceFieldDef) ;;
         call_target (SetFieldMarshal tk nativeType)) ;;;
      ret tk
  end.

Definition ImportLocalVarSig (sourceLocalVarSig : Z) : I Z :=
  if (sourceLocalVarSig =? mdTokenNil) || (sourceLocalVarSig =? mdtSignature) then ret sourceLocalVarSig
  else
    sig <- lift (GetSigFromToken source_import sourceLocalVarSig) ;;
    sig <- ConvertNonTypeSignatureCached sig ;;
    call_target (GetTokenFromSig sig).

Definition define_method (targetTypeDef : Z) (p : MethodProps) (sig : list Z) : I Z :=
  found <- call_target (FindMethod targetTypeDef (mp_name p) sig) ;;
  match found with
  | None => call_target (DefineMethod targetTypeDef (mp_name p) (mp_attr p) sig 0 (mp_implFlags p))
  | Some tk => ret tk
  end.

Definition import_pinvoke (sourceMethodDef targetMethodDef : Z) : I unit :=
  m <- lift (GetPinvokeMap source_import sourceMethodDef) ;;
  let '(dwMappingFlags, szImportName, sourceImportDll) := m in
  targetImportDll <- Import fnModuleRef sourceImportDll ;;
  call_target (DefinePinvokeMap targetMethodDef dwMappingFlags szImportName targetImportDll).

Definition import_body (ulCodeRVA targetMethodDef : Z) : I unit :=
  body <- convert_body ConvertToken g_opcodeInlineValues image ImportLocalVarSig fuel ulCodeRVA ;;
  call_target (SetILFunctionBody targetMethodDef body).

Definition ImportMethodDef (sourceMethodDef : Z) : I Z :=
  not_nil sourceMethodDef mdtMethodDef ;;;
  found <- cached m_methodDefMap sourceMethodDef ;;
  match found with
  | Some tk => ret tk
  | None =>
      p <- lift (GetMethodProps source_import sourceMethodDef) ;;
      targetTypeDef <- Import fnTypeDef (mp_class p) ;;
      sig <- ConvertNonTypeSignatureCached (mp_sig p) ;;
      tk <- define_method targetTypeDef p sig ;;
      remember m_methodDefMap sourceMethodDef tk ;;;
      for_enum (fun param => ignore (Import fnParam param)) (EnumParams source_import sourceMethodDef) ;;;
      (if Z.land (mp_attr p) mdPinvokeImpl =? 0 then ret tt else import_pinvoke sourceMethodDef tk) ;;;
      for_enum (fun gp => ignore (Import fnGenericParam gp)) (EnumGenericParams source_import sourceMethodDef) ;;;
      (if mp_rva p =? 0 then ret tt else import_body (mp_rva p) tk) ;;;
      ret tk
  end.

Definition ImportMemberRef (sourceMemberRef : Z) : I Z :=
  not_nil sourceMemberRef mdtMemberRef ;;;
  found <- cached m_memberRefMap sourceMemberRef ;;
  match found with
  | Some tk => ret tk
  | None =>
      p <- lift (GetMemberRefProps source_import sourceMemberRef) ;;
      let '(declaringType, szName, sig) := p in
      sig <- ConvertNonTypeSignatureCached sig ;;
      targetDeclaringType <- ConvertToken declaringType ;;
      existing <- call_target (FindMemberRef targetDeclaringType szName sig) ;;
      tk <- (match existing with
             | Some tk => ret tk
             | None => call_target (DefineMemberRef targetDeclaringType szName sig)
             end) ;;
      remember m_memberRefMap sourceMemberRef tk ;;;
      ret tk
  end.

Definition ImportString (sourceString : Z) : I Z :=
  not_nil sourceString mdtString ;;;
  found <- cached m_stringMap sourceString ;;
  match found with
  | Some tk => ret tk
  | None =>
      s <- lift (GetUserString source_import sourceString) ;;
      tk <- call_target (DefineUserString s) ;;
      remember m_stringMap sourceString tk ;;;
      ret tk
  end.

Definition ImportProperty (sourceProperty : Z) : I Z :=
  not_nil sourceProperty mdtProperty ;;;
  found <- cached m_propertyMap sourceProperty ;;
  match found with
  | Some tk => ret tk
  | None =>
      p <- lift (GetPropertyProps source_import sourceProperty) ;;
      if 0 <? pp_otherMethods p then fail E_NOTIMPL
      else
        sig <- ConvertNonTypeSignatureCached (pp_sig p) ;;
        targetClass <- Import fnTypeDef (pp_class p) ;;
        mdTargetGetter <- Import fnMethodDef (pp_getter p) ;;
        mdTargetSetter <- Import fnMethodDef (pp_setter p) ;;
        tk <- call_target (DefineProperty targetClass (pp_name p) (pp_flags p) sig (pp_cplus p) (pp_value p)
                mdTargetGetter mdTargetSetter) ;;
        remember m_propertyMap sourceProperty tk ;;;
        ret tk
  end.

Definition ImportEvent (sourceEvent : Z) : I Z :=
  not_nil sourceEvent mdtEvent ;;;
  found <- cached m_eventMap sourceEvent ;;
  match found with
  | Some tk => ret tk
  | None =>
      p <- lift (GetEventProps source_import sourceEvent) ;;
      if 0 <? ep_otherMethods p then fail E_NOTIMPL
      else
        targetClass <- Import fnTypeDef (ep_class p) ;;
        targetEventType <- ConvertToken (ep_type p) ;;
        mdTargetAddOn <- Import fnMethodDef (ep_addOn p) ;;
        mdTargetRemoveOn <- Import fnMethodDef (ep_removeOn p) ;;
        mdTargetFire <- Import fnMethodDef (ep_fire p) ;;
        tk <- call_target (DefineEvent targetClass (ep_name p) (ep_flags p) targetEventType
                mdTargetAddOn mdTargetRemoveOn mdTargetFire) ;;
        remember m_eventMap sourceEvent tk ;;;
        ret tk
  end.

(** The cache of the attributes is that of the events. *)
Definition ImportCustomAttribute (sourceCustomAttribute : Z) : I Z :=
  not_nil sourceCustomAttribute mdtCustomAttribute ;;;
  found <- cached m_eventMap sourceCustomAttribute ;;
  match found with
  | Some tk => ret tk
  | None =>
      p <- lift (GetCustomAttributeProps source_import sourceCustomAttribute) ;;
      let '(sourceObj, sourceType, blob) := p in
      targetObj <- ConvertToken sourceObj ;;
      targetType <- ConvertToken sourceType ;;
      tk <- call_target (DefineCustomAttribute targetObj targetType blob) ;;
      remember m_eventMap sourceCustomAttribute tk ;;;
      ret tk
  end.

(** Parameters are not cached. *)
Definition ImportParam (sourceParam : Z) : I Z :=
  not_nil sourceParam mdtParamDef ;;;
  p <- lift (GetParamProps source_import sourceParam) ;;
  targetMethod <- Import fnMethodDef (par_method p) ;;
  call_target (DefineParam targetMethod (par_sequence p) (par_name p) (par_attr p) (par_cplus p) (par_value p)).

(** The first module reference of the target with this name. *)
Fixpoint find_module_ref (szName : string) (refs : list Z) (last : option HRESULT) : I (option Z) :=
  match refs with
  | [] => match last with Some hr => fail hr | None => ret None end
  | cur :: refs =>
      szTarget <- call_target (GetTargetModuleRefProps cur) ;;
      if String.eqb szName szTarget then ret (Some cur) else find_module_ref szName refs last
  end.

Definition ImportModuleRef (sourceModuleRef : Z) : I Z :=
  not_nil sourceModuleRef mdtModuleRef ;;;
  found <- cached m_moduleRefMap sourceModuleRef ;;
  match found with
  | Some tk => ret tk
  | None =>
      szName <- lift (GetModuleRefProps source_import sourceModuleRef) ;;
      refs <- call_target EnumModuleRefs ;;
      existing <- find_module_ref szName (fst refs) (snd refs) ;;
      tk <- (match existing with Some tk => ret tk | None => call_target (DefineModuleRef szName) end) ;;
      remember m_moduleRefMap sourceModuleRef tk ;;;
      ret tk
  end.

Definition ImportTypeSpec (sourceTypeSpec : Z) : I Z :=
  not_nil sourceTypeSpec mdtTypeSpec ;;;
  found <- cached m_typeSpecMap sourceTypeSpec ;;
  match found with
  | Some tk => ret tk
  | None =>
      sig <- lift (GetTypeSpecFromToken source_import sourceTypeSpec) ;;
      sig <- ConvertTypeSignatureCached sig ;;
      tk <- call_target (GetTokenFromTypeSpec sig) ;;
      remember m_typeSpecMap sourceTypeSpec tk ;;;
      ret tk
  end.

Definition MAX_SUPPORTED_GENERIC_CONSTRAINTS : nat := 1000.

Definition import_constraints (sourceGenericParam : Z) : I (list Z) :=
  constraints <- lift (EnumGenericParamConstraints source_import sourceGenericParam) ;;
  collect_each (fun c => tk <- lift (GetGenericParamConstraintProps source_import c) ;; ConvertToken tk)
    (take MAX_SUPPORTED_GENERIC_CONSTRAINTS constraints).

Definition ImportGenericParam (sourceGenericParam : Z) : I Z :=
  not_nil sourceGenericParam mdtGenericParam ;;;
  found <- cached m_genericParamMap sourceGenericParam ;;
  match found with
  | Some tk => ret tk
  | None =>
      p <- lift (GetGenericParamProps source_import sourceGenericParam) ;;
      constraints <- import_constraints sourceGenericParam ;;
      targetOwner <- ConvertToken (gp_owner p) ;;
      tk <- call_target (DefineGenericParam targetOwner (gp_seq p) (gp_flags p) (gp_name p) (gp_reserved p) constraints) ;;
      remember m_genericParamMap sourceGenericParam tk ;;;
      ret tk
  end.

Definition ImportMethodSpec (sourceMethodSpec : Z) : I Z :=
  not_nil sourceMethodSpec mdtMethodSpec ;;;
  found <- cached m_methodSpecMap sourceMethodSpec ;;
  match found with
  | Some tk => ret tk
  | None =>
      p <- lift (GetMethodSpecProps source_import sourceMethodSpec) ;;
      let '(sourceParent, sig) := p in
      targetParent <- ConvertToken sourceParent ;;
      sig <- ConvertNonTypeSignatureCached sig ;;
      tk <- call_target (DefineMethodSpec targetParent sig) ;;
      remember m_methodSpecMap sourceMethodSpec tk ;;;
      ret tk
  end.

Definition import_row (f : ImportFunction) : Z -> I Z :=
  match f with
  | fnTypeDef => ImportTypeDef
  | fnTypeRef => ImportTypeRef
  | fnAssemblyRef => ImportAssemblyRef
  | fnFieldDef => ImportFieldDef
  | fnMethodDef => ImportMethodDef
  | fnMemberRef => ImportMemberRef
  | fnString => ImportString
  | fnProperty => ImportProperty
  | fnEvent => ImportEvent
  | fnCustomAttribute => ImportCustomAttribute
  | fnParam => ImportParam
  | fnModuleRef => ImportModuleRef
  | fnTypeSpec => ImportTypeSpec
  | fnGenericParam => ImportGenericParam
  | fnMethodSpec => ImportMethodSpec
  end.

End Calls.

(** The functions call each other without a bound: [fuel] bounds the depth of the calls. *)
Fixpoint import (fuel : nat) (f : ImportFunction) (tk : Z) : I Z :=
  match fuel with
  | O => out_of_fuel
  | S fuel => import_row fuel (import fuel) f tk
  end.

(** [ImportAll]; [pointers] says that no pointer of the constructor was null. *)
Definition ImportAll (fuel : nat) (pointers importCustomAttributes : bool) : I HRESULT :=
  if_false_ret pointers E_FAIL ;;;
  for_enum (fun tk => ignore (import fuel fnTypeDef tk)) (EnumTypeDefs source_import) ;;;
  (if importCustomAttributes
   then for_enum (fun tk => ignore (import fuel fnCustomAttribute tk)) (EnumCustomAttributes source_import)
   else ret tt) ;;;
  ret S_FALSE.

End Injector.
