(* ===== verification/InjectSpec.v ===== *)
(** What the injector guarantees: its caches only grow, a token that has been imported is not
    imported again, and a module whose import succeeds is imported completely. *)
From S2P Require Import Prelude CorSig SigParser SignatureBuilder CorHeaders Clauses SigConvert InjectCode Inject.

(** ** Computations that return

    [Keeps R m]: when [m] succeeds or fails with an [HRESULT], the state it leaves is related by
    [R] to the state it found. *)
Definition returned {A} (o : outcome A) : Prop := match o with Ok _ | Err _ => True | _ => False end.

Class Keeps {S A : Type} (R : S -> S -> Prop) (m : M S A) : Prop :=
  keeps : forall s o s', m s = (o, s') -> returned o -> R s s'.

Section Keeps.
Context {S : Type} (R : S -> S -> Prop) `{!PreOrder R}.

#[export] Instance keeps_ret {A} (a : A) : Keeps R (ret a).
Proof. intros s o s' [= _ <-] _. reflexivity. Qed.

#[export] Instance keeps_fail {A} hr : Keeps R (@fail S A hr).
Proof. intros s o s' [= _ <-] _. reflexivity. Qed.

#[export] Instance keeps_undefined {A} u : Keeps R (@undefined S A u).
Proof. intros s o s' [= <- _] []. Qed.

#[export] Instance keeps_out_of_fuel {A} : Keeps R (@out_of_fuel S A).
Proof. intros s o s' [= <- _] []. Qed.

#[export] Instance keeps_lift {A} (x : outcome A) : Keeps R (lift x).
Proof. intros s o s' [= _ <-] _. reflexivity. Qed.

#[export] Instance keeps_gets {A} (f : S -> A) : Keeps R (gets f).
Proof. intros s o s' [= _ <-] _. reflexivity. Qed.

#[export] Instance keeps_bind {A B} (m : M S A) (f : A -> M S B) :
  Keeps R m -> (forall a, Keeps R (f a)) -> Keeps R (bind m f).
Proof.
  intros Hm Hf s o s' H Ho. unfold bind in H. destruct (m s) as [[a|hr|u|] s1] eqn:E.
  - etransitivity; [by eapply Hm|by eapply Hf].
  - injection H as <- <-. by eapply Hm.
  - by injection H as <- <-.
  - by injection H as <- <-.
Qed.

#[export] Instance keeps_attempt {A} (m : M S A) : Keeps R m -> Keeps R (attempt m).
Proof.
  intros Hm s o s' H Ho. unfold attempt in H. destruct (m s) as [[a|hr|u|] s1] eqn:E; injection H as <- <-; try done;
    by eapply Hm.
Qed.

#[export] Instance keeps_if_false_ret b hr : Keeps R (if_false_ret b hr).
Proof. destruct b; apply _. Qed.

#[export] Instance keeps_deref {A} (o : option A) : Keeps R (deref o).
Proof. destruct o; apply _. Qed.

#[export] Instance keeps_for_each {A} (f : A -> M S unit) l : (forall x, Keeps R (f x)) -> Keeps R (for_each f l).
Proof. intros Hf. induction l as [|x l IH]; cbn; apply _. Qed.

#[export] Instance keeps_pair {A B C} (f : A -> B -> M S C) (x : A * B) :
  (forall a b, Keeps R (f a b)) -> Keeps R (let '(a, b) := x in f a b).
Proof. destruct x. auto. Qed.

Lemma keeps_modify f : (forall s, R s (f s)) -> Keeps R (modify f).
Proof. intros Hf s o s' [= _ <-] _. apply Hf. Qed.

End Keeps.

#[export] Existing Instances keeps_ret keeps_fail keeps_undefined keeps_out_of_fuel keeps_lift keeps_gets
  keeps_bind keeps_attempt keeps_if_false_ret keeps_deref keeps_for_each keeps_pair.

Ltac keep := repeat first
  [ solve [typeclasses eauto]
  | apply keeps_bind; [typeclasses eauto | |intros ?]
  | progress cbv zeta
  | case_match ].

(** ** Conversions keep what the importer keeps *)

Section Conversions.

Context {T : Type} (R : T -> T -> Prop) `{!PreOrder R}.
Context (ImportToken : Z -> M T Z) (HImport : forall tk, Keeps R (ImportToken tk)).

(** On the state of a signature conversion, and of a body. *)
Definition conv_rel (s s' : Conversion (T := T)) : Prop := R (fst (fst s)) (fst (fst s')).
Definition body_rel (s s' : Body (T := T)) : Prop := R (fst s) (fst s').

#[export] Instance conv_rel_preorder : PreOrder conv_rel.
Proof. split; [intros s; unfold conv_rel; reflexivity|intros s1 s2 s3 H1 H2; unfold conv_rel in *; by etransitivity]. Qed.

#[export] Instance body_rel_preorder : PreOrder body_rel.
Proof. split; [intros s; unfold body_rel; reflexivity|intros s1 s2 s3 H1 H2; unfold body_rel in *; by etransitivity]. Qed.

#[export] Instance keeps_in_importer {A} (m : M T A) : Keeps R m -> Keeps conv_rel (in_importer m).
Proof.
  intros Hm [[t p] b] o s' H Ho. unfold in_importer in H. destruct (m t) as [o' t'] eqn:E. injection H as <- <-. by eapply Hm.
Qed.

#[export] Instance keeps_in_parser {A} (m : M SigParser A) : Keeps conv_rel (in_parser m).
Proof. intros [[t p] b] o s' H Ho. unfold in_parser in H. destruct (m p). injection H as <- <-. unfold conv_rel. cbn. reflexivity. Qed.

#[export] Instance keeps_in_builder {A} (m : M CSignatureBuilder A) : Keeps conv_rel (in_builder m).
Proof. intros [[t p] b] o s' H Ho. unfold in_builder in H. destruct (m b). injection H as <- <-. unfold conv_rel. cbn. reflexivity. Qed.

Section Signature.
Context (sig : list Z).

#[export] Instance keeps_ConvertElemType : Keeps conv_rel (ConvertElemType (T := T) sig).
Proof. unfold ConvertElemType. apply _. Qed.

#[export] Instance keeps_ConvertData : Keeps conv_rel (ConvertData (T := T) sig).
Proof. unfold ConvertData. apply _. Qed.

#[export] Instance keeps_ConvertSigToken : Keeps conv_rel (ConvertSigToken ImportToken sig).
Proof. unfold ConvertSigToken. apply _. Qed.

#[export] Instance keeps_count_loop fuel n m : Keeps conv_rel m -> Keeps conv_rel (count_loop (T := T) fuel n m).
Proof. intros Hm. revert n. induction fuel; intros n; cbn; keep. Qed.

#[export] Instance keeps_ConvertLengthPrefixedDataList fuel : Keeps conv_rel (ConvertLengthPrefixedDataList (T := T) sig fuel).
Proof. unfold ConvertLengthPrefixedDataList. keep. Qed.

#[export] Instance keeps_ConvertCustomModSignatureList fuel : Keeps conv_rel (ConvertCustomModSignatureList ImportToken sig fuel).
Proof. induction fuel; cbn; [apply _|]. unfold ConvertCustomModSignature. keep. Qed.

Context (fuel : nat) (rec : M (Conversion (T := T)) unit) (Hrec : Keeps conv_rel rec).

#[export] Instance keeps_local_prefixes n et : Keeps conv_rel (local_prefixes ImportToken sig n et).
Proof. revert et. induction n; intros et; cbn; unfold ConvertCustomModSignature; keep. Qed.

#[export] Instance keeps_ConvertNonTypeSignature : Keeps conv_rel (ConvertNonTypeSignature ImportToken sig fuel rec).
Proof.
  unfold ConvertNonTypeSignature, convert_convention, ConvertMethodDefRefOrPropertySignature, ConvertFieldSignature,
    ConvertMethodSpecSignature, ConvertLocalVarSignature, convert_local, ConvertParamSignature.
  keep; apply keeps_count_loop; keep.
Qed.

#[export] Instance keeps_convert_type_signature : Keeps conv_rel (convert_type_signature ImportToken sig fuel rec).
Proof. unfold convert_type_signature, convert_parts, ConvertMethodSpecSignature. keep. Qed.

End Signature.

#[export] Instance keeps_ConvertTypeSignature sig fuel : Keeps conv_rel (ConvertTypeSignature ImportToken sig fuel).
Proof. induction fuel; cbn; apply _. Qed.

Section Code.
Context (g : Z -> OPCLSA) (image : list Z).

#[export] Instance keeps_importing {A} (m : M T A) : Keeps R m -> Keeps body_rel (importing m).
Proof.
  intros Hm [t b] o s' H Ho. unfold importing in H. destruct (m t) as [o' t'] eqn:E. injection H as <- <-. by eapply Hm.
Qed.

#[export] Instance keeps_put pos bs : Keeps body_rel (put (T := T) pos bs).
Proof. intros [t b] o s' H Ho. unfold put in H. destruct (write_at _ _ _); injection H as <- <-; unfold body_rel; cbn; reflexivity. Qed.

#[export] Instance keeps_fetch pos n : Keeps body_rel (fetch (T := T) pos n).
Proof. intros [t b] o s' H Ho. unfold fetch in H. case_decide; injection H as <- <-; unfold body_rel; cbn; reflexivity. Qed.

#[export] Instance keeps_source pos n : Keeps body_rel (source (T := T) image pos n).
Proof. unfold source. apply _. Qed.

#[export] Instance keeps_convert_operand src dst size k cursor :
  Keeps body_rel (convert_operand ImportToken image src dst size k cursor).
Proof. unfold convert_operand, room, memcpy_s, copy_bytes. keep. Qed.

#[export] Instance keeps_il_loop src dst size fuel cursor :
  Keeps body_rel (il_loop ImportToken g image src dst size fuel cursor).
Proof. revert cursor. induction fuel; intros cursor; cbn; unfold convert_opcode, copy_bytes; keep. Qed.

#[export] Instance keeps_convert_clauses size k n src dst : Keeps body_rel (convert_clauses ImportToken image size k n src dst).
Proof. revert src dst. induction n; intros src dst; cbn; unfold convert_clause; keep. Qed.

#[export] Instance keeps_read_layout rva : Keeps body_rel (read_layout (T := T) image rva).
Proof. unfold read_layout. keep. Qed.

#[export] Instance keeps_convert_body ImportLocalVarSig fuel rva :
  (forall tk, Keeps R (ImportLocalVarSig tk)) -> Keeps R (convert_body ImportToken g image ImportLocalVarSig fuel rva).
Proof.
  intros Hl t o t' H Ho. unfold convert_body in H.
  match type of H with match ?m (t, []) with _ => _ end = _ => assert (Keeps body_rel m) as Hk end.
  { unfold ConvertILCode, convert_section. keep; apply keeps_modify; intros []; unfold body_rel; cbn; reflexivity. }
  match type of H with match ?m (t, []) with _ => _ end = _ => destruct (m (t, [])) as [o1 [t1 b1]] eqn:E end.
  specialize (Hk _ _ _ E). destruct o1; injection H as <- <-; by apply Hk.
Qed.

End Code.

End Conversions.

(** ** What the functions do besides their caches *)

Section Helpers.

Context {Tg : Type} (target : forall A, TargetCall A -> M Tg A).
Context (source_import : SourceImport) (image : list Z) (g : Z -> OPCLSA).

Notation State := (Injector (Tg := Tg)).
Notation I := (M State).

(** A preorder that looks neither at the cache of signatures nor into the runtime. *)
Class Ambient (R : State -> State -> Prop) : Prop := {
  ambient_preorder :: PreOrder R;
  ambient_call A (c : TargetCall A) : Keeps R (call_target target c);
  ambient_signature s sigs : R s (mkInjector (m_tokenMaps s) sigs (m_target s))
}.

Context (R : State -> State -> Prop) `{!Ambient R}.
Context (fuel : nat) (Import : ImportFunction -> Z -> I Z) (HImport : forall f k, Keeps R (Import f k)).

#[local] Existing Instance ambient_call.

#[export] Instance keeps_cached m k : Keeps R (cached (Tg := Tg) m k).
Proof. unfold cached. apply _. Qed.

#[export] Instance keeps_collect_each {A B} (f : A -> I B) l : (forall x, Keeps R (f x)) -> Keeps R (collect_each f l).
Proof. intros Hf. induction l; cbn; apply _. Qed.

#[export] Instance keeps_for_enum {A} (f : A -> I unit) e : (forall x, Keeps R (f x)) -> Keeps R (for_enum f e).
Proof. intros Hf. unfold for_enum. keep. Qed.

#[export] Instance keeps_ignore {A} (m : I A) : Keeps R m -> Keeps R (ignore m).
Proof. intros Hm. unfold ignore. apply _. Qed.

#[export] Instance keeps_not_nil tk nil : Keeps R (not_nil (Tg := Tg) tk nil).
Proof. unfold not_nil. apply _. Qed.

#[export] Instance keeps_ConvertToken tk : Keeps R (ConvertToken target Import tk).
Proof. unfold ConvertToken. keep. Qed.

#[export] Instance keeps_convert_cached convert sig :
  (forall bs, Keeps (conv_rel R) (convert bs)) -> Keeps R (convert_cached (Tg := Tg) convert sig).
Proof.
  intros Hc. unfold convert_cached.
  assert (Keeps R (convert_new (convert (sigBytes sig)) sig)).
  { intros s o s' H Ho. unfold convert_new in H.
    destruct (convert (sigBytes sig) (s, parser_start (sigBytes sig), new_builder)) as [o1 [[s1 p1] b1]] eqn:E.
    injection H as <- <-. apply (Hc _ _ _ _ E). by destruct o1. }
  keep. apply keeps_modify. intros s. apply ambient_signature.
Qed.

#[export] Instance keeps_ConvertNonTypeSignatureCached sig : Keeps R (ConvertNonTypeSignatureCached target fuel Import sig).
Proof. unfold ConvertNonTypeSignatureCached. apply _. Qed.

#[export] Instance keeps_ConvertTypeSignatureCached sig : Keeps R (ConvertTypeSignatureCached target fuel Import sig).
Proof. unfold ConvertTypeSignatureCached. apply _. Qed.

#[export] Instance keeps_import_interfaces td : Keeps R (import_interfaces target source_import Import td).
Proof. unfold import_interfaces. keep. Qed.

#[export] Instance keeps_merge_target name td : Keeps R (merge_target target name td).
Proof. unfold merge_target. keep. Qed.

#[export] Instance keeps_define_type td p ext impls : Keeps R (define_type target source_import Import td p ext impls).
Proof. unfold define_type. keep. Qed.

#[export] Instance keeps_ImportMethodImpl a b c : Keeps R (ImportMethodImpl target Import a b c).
Proof. unfold ImportMethodImpl. apply _. Qed.

#[export] Instance keeps_import_members td p td' : Keeps R (import_members target source_import Import td p td').
Proof. unfold import_members, import_layout. keep. Qed.

#[export] Instance keeps_find_assembly_ref name refs last : Keeps R (find_assembly_ref source_import (Tg := Tg) name refs last).
Proof. induction refs; cbn; keep. Qed.

#[export] Instance keeps_find_module_ref name refs last : Keeps R (find_module_ref target name refs last).
Proof. induction refs; cbn; keep. Qed.

#[export] Instance keeps_ImportLocalVarSig tk : Keeps R (ImportLocalVarSig target source_import fuel Import tk).
Proof. unfold ImportLocalVarSig. keep. Qed.

#[export] Instance keeps_define_method td p sig : Keeps R (define_method target td p sig).
Proof. unfold define_method. keep. Qed.

#[export] Instance keeps_import_pinvoke td p : Keeps R (import_pinvoke target source_import Import td p).
Proof. unfold import_pinvoke. keep. Qed.

#[export] Instance keeps_import_body rva p : Keeps R (import_body target source_import image g fuel Import rva p).
Proof. unfold import_body. keep. Qed.

#[export] Instance keeps_import_constraints gp : Keeps R (import_constraints target source_import Import gp).
Proof. unfold import_constraints. keep. Qed.

End Helpers.

(** ** The caches *)

(** The cache of each function, but for parameters. *)
Definition cache_of (f : ImportFunction) : option TokenMap :=
  match f with
  | fnTypeDef => Some m_typeDefMap
  | fnTypeRef => Some m_typeRefMap
  | fnAssemblyRef => Some m_assemblyRefMap
  | fnFieldDef => Some m_fieldDefMap
  | fnMethodDef => Some m_methodDefMap
  | fnMemberRef => Some m_memberRefMap
  | fnString => Some m_stringMap
  | fnProperty => Some m_propertyMap
  | fnEvent => Some m_eventMap
  | fnCustomAttribute => Some m_eventMap
  | fnParam => None
  | fnModuleRef => Some m_moduleRefMap
  | fnTypeSpec => Some m_typeSpecMap
  | fnGenericParam => Some m_genericParamMap
  | fnMethodSpec => Some m_methodSpecMap
  end.

(** The nil token that each function refuses. *)
Definition nil_of (f : ImportFunction) : Z :=
  match f with
  | fnTypeDef => mdtTypeDef
  | fnTypeRef => mdtTypeRef
  | fnAssemblyRef => mdtAssemblyRef
  | fnFieldDef => mdtFieldDef
  | fnMethodDef => mdtMethodDef
  | fnMemberRef => mdtMemberRef
  | fnString => mdtString
  | fnProperty => mdtProperty
  | fnEvent => mdtEvent
  | fnCustomAttribute => mdtCustomAttribute
  | fnParam => mdtParamDef
  | fnModuleRef => mdtModuleRef
  | fnTypeSpec => mdtTypeSpec
  | fnGenericParam => mdtGenericParam
  | fnMethodSpec => mdtMethodSpec
  end.

Section Rows.

Context {Tg : Type} (target : forall A, TargetCall A -> M Tg A).
Context (source_import : SourceImport) (image : list Z) (g : Z -> OPCLSA).

Notation State := (Injector (Tg := Tg)).
Notation I := (M State).
Notation import := (import target source_import image g).

(** The states of the runtime that calls of the injector lead to. *)
Inductive evolves (tg : Tg) : Tg -> Prop :=
| ev_refl : evolves tg tg
| ev_call A (c : TargetCall A) tg' : evolves tg tg' -> evolves tg (snd (target A c tg')).

#[export] Instance evolves_preorder : PreOrder evolves.
Proof. split; [constructor|]. intros x y z Hxy Hyz. induction Hyz; [done|by constructor]. Qed.

Definition in_cache (s : State) (m : TokenMap) (k : Z) : Prop := is_Some (m_tokenMaps s m !! k).

(** What the import of a type or method must have imported before it is done. *)
Definition members (m : TokenMap) (k : Z) : list (TokenMap * Z) :=
  match m with
  | m_typeDefMap =>
      map (pair m_fieldDefMap) (fst (EnumFields source_import k)) ++
      map (pair m_methodDefMap) (fst (EnumMethods source_import k)) ++
      map (pair m_propertyMap) (fst (EnumProperties source_import k)) ++
      map (pair m_eventMap) (fst (EnumEvents source_import k)) ++
      map (pair m_genericParamMap) (fst (EnumGenericParams source_import k))
  | m_methodDefMap => map (pair m_genericParamMap) (fst (EnumGenericParams source_import k))
  | _ => []
  end.

Definition complete (s : State) (m : TokenMap) (k : Z) : Prop :=
  Forall (fun x => in_cache s (fst x) (snd x)) (members m k).

(** [s'] is later than [s]. *)
Record steps (s s' : State) : Prop := {
  st_keys : forall m k, in_cache s m k -> in_cache s' m k;
  st_target : evolves (m_target s) (m_target s')
}.

#[export] Instance steps_preorder : PreOrder steps.
Proof.
  split; [intros s; split; [done|reflexivity]|].
  intros s1 s2 s3 [K1 T1] [K2 T2]. split; [auto|by etransitivity].
Qed.

(** Between [s] and [s'] an import of this row failed. *)
Definition gave_up (s s' : State) (m : TokenMap) (k : Z) : Prop :=
  exists f fuel s1 hr s2, cache_of f = Some m /\ steps s s1 /\ import fuel f k s1 = (Err hr, s2) /\ steps s2 s'.

(** Cached tokens stay what they are, except that of [ex], and what is new is complete. *)
Record imports_except (ex : option (TokenMap * Z)) (s s' : State) : Prop := {
  ix_steps : steps s s';
  ix_values : forall m k v, Some (m, k) <> ex -> m_tokenMaps s m !! k = Some v -> m_tokenMaps s' m !! k = Some v;
  ix_new : forall m k, Some (m, k) <> ex -> m_tokenMaps s m !! k = None -> in_cache s' m k ->
    complete s' m k \/ gave_up s s' m k
}.

Notation imports := (imports_except None).

Lemma complete_later s s' m k : steps s s' -> complete s m k -> complete s' m k.
Proof. intros [K _] H. eapply Forall_impl; [exact H|]. intros x. apply K. Qed.

Lemma gave_up_later s1 s2 s3 s4 m k : steps s1 s2 -> gave_up s2 s3 m k -> steps s3 s4 -> gave_up s1 s4 m k.
Proof.
  intros H1 (f & n & a & hr & b & Hf & Ha & Hi & Hb) H2. exists f, n, a, hr, b.
  split_and!; [done|by etransitivity|done|by etransitivity].
Qed.

#[export] Instance imports_preorder ex : PreOrder (imports_except ex).
Proof.
  split.
  - intros s. split; [reflexivity|done|]. intros m k _ E [v E']. congruence.
  - intros s1 s2 s3 [S1 V1 N1] [S2 V2 N2]. split; [by etransitivity|auto|].
    intros m k Hex E Hin. destruct (m_tokenMaps s2 m !! k) as [v|] eqn:E2.
    + destruct (N1 m k Hex E) as [Hc|Hg]; [by exists v|left; by eapply complete_later|].
      right. eapply gave_up_later; [reflexivity|exact Hg|done].
    + destruct (N2 m k Hex E2 Hin) as [Hc|Hg]; [by left|]. right. eapply gave_up_later; [exact S1|exact Hg|reflexivity].
Qed.

(** States with the same caches. *)
Lemma imports_same ex s s' : m_tokenMaps s' = m_tokenMaps s -> evolves (m_target s) (m_target s') -> imports_except ex s s'.
Proof.
  intros E T. split; [split; [|done]|..]; unfold in_cache; rewrite E; [done|done|]. intros m k _ E' [v Hv]. congruence.
Qed.

#[export] Instance keeps_call_target ex {A} (c : TargetCall A) : Keeps (imports_except ex) (call_target target c).
Proof.
  intros s o s' H _. unfold call_target in H. destruct (target A c (m_target s)) as [o' tg] eqn:E. injection H as _ <-.
  apply imports_same; [done|]. cbn. replace tg with (snd (target A c (m_target s))) by (by rewrite E). apply ev_call, ev_refl.
Qed.

#[export] Instance keeps_remember m k v : Keeps (imports_except (Some (m, k))) (remember (Tg := Tg) m k v).
Proof.
  intros s o s' H _. injection H as _ <-. split; [split|..]; unfold in_cache; cbn; [|reflexivity|..].
  - intros m' k' Hin. case_decide; [subst m'|done]. destruct (decide (k' = k)) as [->|]; [by rewrite lookup_insert_eq|by rewrite lookup_insert_ne].
  - intros m' k' v' Hex Hv. case_decide; [subst m'|done]. rewrite lookup_insert_ne; [done|]. congruence.
  - intros m' k' Hex E [v' Hv]. exfalso. case_decide; [subst m'|congruence]. rewrite lookup_insert_ne in Hv; congruence.
Qed.

(** What keeps all cached tokens keeps them with an exception. *)
Lemma keeps_weaken ex {A} (m : I A) : Keeps imports m -> Keeps (imports_except ex) m.
Proof. intros Hm s o s' H Ho. destruct (Hm _ _ _ H Ho) as [S V N]. split; [done|..]; intros; [by apply V|by apply N]. Qed.

#[export] Instance imports_ambient ex : Ambient target (imports_except ex).
Proof. split; [apply _|apply _|]. intros s sigs. by apply imports_same. Qed.

(** *** How a function ends *)

(** On success the result is in the cache, and nothing changes it afterwards. *)
Class Ends (m : TokenMap) (k : Z) (body : I Z) : Prop :=
  ends : forall s v s', body s = (Ok v, s') -> m_tokenMaps s' m !! k = Some v.

Class Returns {A} (v : A) (body : I A) : Prop :=
  returns : forall s v' s', body s = (Ok v', s') -> v' = v.

#[export] Instance returns_ret {A} (v : A) : Returns v (ret v).
Proof. intros s v' s' [= -> _]. done. Qed.

#[export] Instance returns_bind {A B} (v : B) (x : I A) (f : A -> I B) : (forall a, Returns v (f a)) -> Returns v (bind x f).
Proof. intros Hf s v' s' (a & s1 & _ & H)%bind_Ok. by eapply Hf. Qed.

#[export] Instance ends_fail m k hr : Ends m k (fail hr).
Proof. intros s v s' H. discriminate H. Qed.

Lemma ends_bind m k {A} (x : I A) (f : A -> I Z) : (forall a, Ends m k (f a)) -> Ends m k (bind x f).
Proof. intros Hf s v s' (a & s1 & _ & H)%bind_Ok. by eapply Hf. Qed.

Lemma ends_remember m k v (rest : I Z) : Keeps imports rest -> Returns v rest -> Ends m k (remember m k v ;;; rest).
Proof.
  intros Hk Hr s v' s' ([] & s1 & [= <-] & H)%bind_Ok. pose proof (Hr _ _ _ H) as ->.
  apply (ix_values _ _ _ (Hk _ _ _ H Logic.I)); [done|]. cbn. rewrite decide_True by done. apply lookup_insert_eq.
Qed.

(** On success these rows have been imported. *)
Class Completes {A} (l : list (TokenMap * Z)) (body : I A) : Prop :=
  completes : forall s v s', body s = (Ok v, s') -> Forall (fun x => in_cache s' (fst x) (snd x)) l.

Lemma completes_nil {A} (m : I A) : Completes [] m.
Proof. by intros s v s' _. Qed.

Lemma completes_bind l {A B} (x : I A) (f : A -> I B) : (forall a, Completes l (f a)) -> Completes l (bind x f).
Proof. intros Hf s v s' (a & s1 & _ & H)%bind_Ok. by eapply Hf. Qed.

Lemma completes_first l {A B} (x : I A) (f : A -> I B) :
  Completes l x -> (forall a, Keeps imports (f a)) -> Completes l (bind x f).
Proof.
  intros Hx Hf s v s' (a & s1 & H1 & H)%bind_Ok. eapply Forall_impl; [by eapply Hx|]. intros y. apply st_keys. eapply ix_steps. by eapply Hf.
Qed.

Lemma completes_app l1 l2 {A B} (x : I A) (f : A -> I B) :
  Completes l1 x -> (forall a, Completes l2 (f a)) -> (forall a, Keeps imports (f a)) -> Completes (l1 ++ l2) (bind x f).
Proof.
  intros H1 H2 Hf s v s' H. apply Forall_app. split; [by eapply (completes_first l1 x f)|by eapply (completes_bind l2 x f)].
Qed.

(** *** One function *)

(** The guard, the look into the cache and the rest. *)
Definition row (m : TokenMap) (k nil : Z) (body : I Z) : I Z :=
  not_nil k nil ;;;
  found <- cached m k ;;
  match found with Some tk => ret tk | None => body end.

Lemma row_run m k nil body s : row m k nil body s =
  if negb (k =? mdTokenNil) && negb (k =? nil)
  then match m_tokenMaps s m !! k with Some tk => (Ok tk, s) | None => body s end
  else (Err E_FAIL, s).
Proof. unfold row, not_nil, if_false_ret. destruct (_ && _); [|done]. cbn. unfold bind, cached, gets. cbn. by destruct (_ !! _). Qed.

Lemma row_stores m k nil body s v s' : Ends m k body -> row m k nil body s = (Ok v, s') -> m_tokenMaps s' m !! k = Some v.
Proof.
  intros He. rewrite row_run. destruct (_ && _); [|done]. destruct (m_tokenMaps s m !! k) eqn:E; [|apply He].
  by intros [= -> ->].
Qed.

Lemma row_keeps f fuel m k nil body :
  cache_of f = Some m -> (forall s, import fuel f k s = row m k nil body s) ->
  Keeps (imports_except (Some (m, k))) body -> Completes (members m k) body -> Keeps imports (row m k nil body).
Proof.
  intros Hf Hrow Hb Hc s o s' H Ho. pose proof H as Hcall. rewrite <- Hrow in Hcall.
  rewrite row_run in H. destruct (_ && _); [|injection H as <- <-; reflexivity].
  destruct (m_tokenMaps s m !! k) eqn:E; [injection H as <- <-; reflexivity|].
  destruct (Hb _ _ _ H Ho) as [S V N]. split; [done|..].
  - intros m' k' v' _ Hv. apply V; [congruence|done].
  - intros m' k' _ E' Hin. destruct (decide ((m', k') = (m, k))) as [[= -> ->]|Hne]; [|apply N; [congruence|done..]].
    destruct o as [v|hr|u|]; [left; by eapply Hc| |done..]. right. exists f, fuel, s, hr, s'. split_and!; [done|reflexivity|done|reflexivity].
Qed.

(** *** All functions *)

Section Step.

Context (fuel : nat).
Context (HK : forall f k, Keeps imports (import fuel f k)).
Context (HS : forall f k m s v s', cache_of f = Some m -> import fuel f k s = (Ok v, s') -> m_tokenMaps s' m !! k = Some v).

#[local] Instance rec_keeps ex f k : Keeps (imports_except ex) (import fuel f k).
Proof. apply keeps_weaken, HK. Qed.

Lemma enum_completes f m e : cache_of f = Some m ->
  Completes (map (pair m) (fst e)) (for_enum (fun tk => ignore (import fuel f tk)) e).
Proof.
  intros Hf. unfold for_enum. apply completes_first; [|intros []; keep].
  destruct e as [l e]. cbn [fst]. clear e. induction l as [|x l IH]; [apply completes_nil|].
  change (for_each ?h (x :: l)) with (bind (h x) (fun _ => for_each h l)).
  change (map (pair m) (x :: l)) with ([(m, x)] ++ map (pair m) l).
  apply completes_app; [|intros _; exact IH|intros _; apply _].
  intros s v s' (a & s1 & H & [= _ <-])%bind_Ok. constructor; [|constructor]. exists a. by eapply HS.
Qed.

Lemma members_complete td p td' : Completes (members m_typeDefMap td) (import_members target source_import (import fuel) td p td').
Proof.
  unfold import_members, members. repeat (apply completes_app; [by apply enum_completes| |intros _; keep]; intros _).
  do 2 (apply completes_bind; intros _). by apply enum_completes.
Qed.

(** Every function but [ImportParam] is a [row]. *)
Ltac ending := repeat first
  [ apply ends_fail
  | apply ends_remember; [keep|typeclasses eauto]
  | apply ends_bind; intros ?
  | case_match ].

Lemma import_is_row f k m : cache_of f = Some m ->
  exists body, import (S fuel) f k = row m k (nil_of f) body /\
    Ends m k body /\ Keeps (imports_except (Some (m, k))) body /\ Completes (members m k) body.
Proof.
  destruct f; intros [= <-]; eexists; (split; [reflexivity|]; split; [ending|]; split; [keep|try apply completes_nil]).
  - do 5 (apply completes_bind; intros ?). apply completes_first; [apply members_complete|intros ?; keep].
  - do 5 (apply completes_bind; intros ?). do 2 (apply completes_bind; intros ?).
    apply completes_first; [by apply (enum_completes fnGenericParam)|intros ?; keep].
Qed.

Lemma step_keeps f k : Keeps imports (import (S fuel) f k).
Proof.
  destruct (cache_of f) as [m|] eqn:Hf.
  - destruct (import_is_row f k m Hf) as (body & E & _ & Hk & Hc). rewrite E.
    apply (row_keeps f (S fuel)); [done|intros s; by rewrite E|done..].
  - destruct f; try discriminate Hf. cbn [import import_row Inject.import]. unfold ImportParam. keep.
Qed.

Lemma step_stores f k m s v s' : cache_of f = Some m -> import (S fuel) f k s = (Ok v, s') -> m_tokenMaps s' m !! k = Some v.
Proof. intros Hf. destruct (import_is_row f k m Hf) as (body & -> & He & _). by apply row_stores. Qed.

End Step.

Lemma import_ok fuel :
  (forall f k, Keeps imports (import fuel f k)) /\
  (forall f k m s v s', cache_of f = Some m -> import fuel f k s = (Ok v, s') -> m_tokenMaps s' m !! k = Some v).
Proof.
  induction fuel as [|fuel [HK HS]]; [split; [apply _|done]|].
  split; [intros; by apply step_keeps|intros *; by apply step_stores].
Qed.

#[export] Instance import_keeps fuel f k : Keeps imports (import fuel f k).
Proof. apply import_ok. Qed.

Lemma import_stores fuel f k m s v s' : cache_of f = Some m -> import fuel f k s = (Ok v, s') -> m_tokenMaps s' m !! k = Some v.
Proof. apply import_ok. Qed.

(** A row that is in its cache is not imported again. *)
Lemma import_cached fuel f k m v s : cache_of f = Some m -> k <> mdTokenNil -> k <> nil_of f ->
  m_tokenMaps s m !! k = Some v -> import (S fuel) f k s = (Ok v, s).
Proof.
  intros Hf H0 Hn Hv. destruct (import_ok fuel) as [HK HS]. destruct (import_is_row fuel HK HS f k m Hf) as (body & -> & _).
  rewrite row_run, Hv. by rewrite (proj2 (Z.eqb_neq _ _) H0), (proj2 (Z.eqb_neq _ _) Hn).
Qed.

Lemma import_not_nil fuel f k m v s s' : cache_of f = Some m -> import fuel f k s = (Ok v, s') -> k <> mdTokenNil /\ k <> nil_of f.
Proof.
  intros Hf H. destruct fuel as [|fuel]; [done|]. destruct (import_ok fuel) as [HK HS].
  destruct (import_is_row fuel HK HS f k m Hf) as (body & E & _). rewrite E, row_run in H.
  destruct (negb (k =? mdTokenNil) && _) eqn:Hn; [|done]. apply andb_true_iff in Hn as [H1%negb_true_iff H2%negb_true_iff].
  by rewrite Z.eqb_neq in H1, H2.
Qed.

(** Later imports, whether they succeed or fail. *)
Definition import_more (later : list (nat * ImportFunction * Z)) : I unit :=
  for_each (fun x => ignore (attempt (import (fst (fst x)) (snd (fst x)) (snd x)))) later.

#[export] Instance import_more_keeps later : Keeps imports (import_more later).
Proof. unfold import_more. keep. Qed.

Lemma for_enum_stores fuel f m e s s' : cache_of f = Some m ->
  for_enum (fun tk => ignore (import fuel f tk)) e s = (Ok tt, s') -> forall k, k ∈ fst e -> in_cache s' m k.
Proof.
  intros Hf H k Hk. destruct (import_ok fuel) as [HK HS].
  pose proof (enum_completes fuel HK HS f m e Hf _ _ _ H) as Ha. rewrite Forall_map, Forall_forall in Ha. by apply Ha.
Qed.

End Rows.
