(* ===== verification/InjectAll.v ===== *)
(** [ImportAll]: what has been imported when it succeeds, that nothing is imported twice once it
    is cached, and the modules on which it does not return. *)
From S2P Require Import Prelude CorSig SigParser SignatureBuilder Types TypeSpec CorHeaders Clauses SigConvert SigConvertSpec InjectCode Inject InjectSpec.

(** C23: a row that has been imported, a type, member, reference, string or signature, keeps its
    token: after any further imports, whether they succeed or fail, importing it again gives the
    same token, with one step of fuel, and leaves the injector and the target module as they are. *)
Theorem import_once {Tg} (target : forall A, TargetCall A -> M Tg A) source_import image g fuel f k m v s s1 later s2 n :
  cache_of f = Some m -> import target source_import image g fuel f k s = (Ok v, s1) ->
  import_more target source_import image g later s1 = (Ok tt, s2) ->
  import target source_import image g (S n) f k s2 = (Ok v, s2).
Proof.
  intros Hf H Hl. destruct (import_not_nil _ _ _ _ _ _ _ _ _ _ _ Hf H) as [H0 Hn].
  apply (import_cached _ _ _ _ _ _ _ m); [done..|].
  assert (imports_except target source_import image g None s1 s2) as Hk by (by eapply import_more_keeps).
  apply (ix_values _ _ _ _ _ _ _ Hk); [done|]. by eapply import_stores.
Qed.


(** ** Types that implement an interface at themselves *)

Section Stops.

Context {T : Type} (ImportToken : Z -> M T Z) (sig : list Z).
Context (Hlen : Z.of_nat (length sig) < 2 ^ 32).

Notation C := (M (Conversion (T := T))).

(** [m] never gets to the end of [bs], with [n] bytes written before. *)
Definition stops (n : Z) (m : C unit) (t : T) (bs : list Z) : Prop :=
  forall pre post b out, sig = pre ++ bs ++ post -> holds b out -> Z.of_nat (length out) + n < limit ->
  exists p b', m (t, parser_at sig (length (bs ++ post)), b) = (NoFuel, (t, p, b')).

Lemma stops_out_of_fuel n t bs : stops n out_of_fuel t bs.
Proof. intros pre post b out _ _ _. unfold out_of_fuel. eauto. Qed.

Lemma stops_first n m k t bs : stops n m t bs -> stops n (m ;;; k) t bs.
Proof. intros H pre post b out Hs Hh Hl. destruct (H pre post b out Hs Hh Hl) as (p & b' & E). exists p, b'. unfold bind. by rewrite E. Qed.

Lemma stops_bind n1 n2 m1 m2 t bs1 bs1' bs2 : converts sig m1 t bs1 bs1' t -> (length bs1' <= n1)%nat ->
  stops n2 m2 t bs2 -> 0 <= n2 -> stops (Z.of_nat n1 + n2 + 4) (m1 ;;; m2) t (bs1 ++ bs2).
Proof.
  intros H1 Hn H2 H0 pre post b out Hs Hh Hl. rewrite <- app_assoc in Hs |- *.
  destruct (H1 pre (bs2 ++ post) b out Hs Hh ltac:(lia)) as (b1 & E1 & Hh1).
  destruct (H2 (pre ++ bs1) post b1 (out ++ bs1')) as (p & b2 & E2); [by rewrite <- app_assoc|done|rewrite length_app; lia|].
  exists p, b2. by rewrite (run_bind _ _ _ _ _ E1).
Qed.

Lemma stops_peek n (k : Z -> C unit) t x nb rest : DataSig x nb -> stops n (k x) t (nb ++ rest) ->
  stops n (y <- in_parser (PeekData sig) ;; k y) t (nb ++ rest).
Proof.
  intros Hd Hk pre post b out Hs Hh Hl. destruct (Hk pre post b out Hs Hh Hl) as (p & b' & E). exists p, b'.
  rewrite <- app_assoc in *. unfold bind, in_parser. by rewrite (PeekData_at sig Hlen _ _ _ _ Hd Hs).
Qed.

Lemma stops_token n t tk bs : TokenSig tk bs -> ImportToken tk t = (NoFuel, t) -> stops n (ConvertSigToken ImportToken sig) t bs.
Proof.
  intros Ht Hi pre post b out Hs Hh Hl. unfold ConvertSigToken, bind, in_parser, in_importer.
  rewrite (GetToken_at sig Hlen _ _ _ _ Ht Hs), Hi. eauto.
Qed.

(** A class token whose import does not return. *)
Lemma stops_class fuel t td tb : TokenSig td tb -> ImportToken td t = (NoFuel, t) ->
  stops 5 (ConvertTypeSignature ImportToken sig fuel) t (ELEMENT_TYPE_CLASS :: tb).
Proof.
  intros Ht Hi. destruct fuel as [|fuel]; [apply stops_out_of_fuel|]. cbn [ConvertTypeSignature]. unfold convert_type_signature.
  change (ELEMENT_TYPE_CLASS :: tb) with ([ELEMENT_TYPE_CLASS] ++ tb).
  apply (stops_peek _ _ _ ELEMENT_TYPE_CLASS); [by apply data_byte|].
  apply (stops_bind 1 0 _ _ _ _ [ELEMENT_TYPE_CLASS]); [by apply converts_elem|cbn; lia| |lia].
  cbn. by eapply stops_token.
Qed.

(** [itf<td>] *)
Definition instance_bytes (ib tb : list Z) : list Z :=
  [ELEMENT_TYPE_GENERICINST] ++ [ELEMENT_TYPE_CLASS] ++ ib ++ [1] ++ (ELEMENT_TYPE_CLASS :: tb).

Lemma stops_instance fuel t itf ib itf' td tb : TokenSig itf ib -> ImportToken itf t = (Ok itf', t) -> type_token itf' ->
  TokenSig td tb -> ImportToken td t = (NoFuel, t) ->
  stops 40 (ConvertTypeSignature ImportToken sig fuel) t (instance_bytes ib tb).
Proof.
  intros Hi Ei Hi' Ht Et. destruct fuel as [|fuel]; [apply stops_out_of_fuel|]. cbn [ConvertTypeSignature].
  unfold convert_type_signature, instance_bytes.
  destruct (token_rest_codec _ Hi') as (ib' & Eb & Hl & _).
  apply (stops_peek _ _ _ ELEMENT_TYPE_GENERICINST); [by apply data_byte|].
  apply (stops_bind 1 35 _ _ _ _ [ELEMENT_TYPE_GENERICINST]); [by apply converts_elem|cbn; lia| |lia]. cbn [CorIsPrimitiveType convert_parts].
  change (stops 35 (ConvertElemType sig ;;; ConvertSigToken ImportToken sig ;;;
    ConvertMethodSpecSignature sig fuel (ConvertTypeSignature ImportToken sig fuel)) t
    ([ELEMENT_TYPE_CLASS] ++ ib ++ [1] ++ (ELEMENT_TYPE_CLASS :: tb))).
  apply (stops_bind 1 30 _ _ _ _ [ELEMENT_TYPE_CLASS]); [by apply converts_elem|cbn; lia| |lia].
  apply (stops_bind 8 18 _ _ _ _ ib'); [by apply (converts_token ImportToken sig Hlen _ _ _ _ _ _ Hi Ei)|lia| |lia].
  unfold ConvertMethodSpecSignature. apply (stops_peek _ _ _ 1); [by apply data_byte|].
  apply (stops_bind 1 13 _ _ _ _ [1]); [by apply (converts_data sig Hlen _ 1), data_byte|cbn; lia| |lia].
  destruct fuel as [|fuel]; [apply stops_out_of_fuel|]. cbn [count_loop Z.leb Z.compare].
  apply stops_first. intros pre post b out Hs Hh Hlim. eapply (stops_class (S fuel)); [done..|lia].
Qed.

Lemma instance_stuck fuel t itf ib itf' td tb : sig = instance_bytes ib tb -> TokenSig itf ib -> ImportToken itf t = (Ok itf', t) ->
  type_token itf' -> TokenSig td tb -> ImportToken td t = (NoFuel, t) ->
  exists p b, ConvertTypeSignature ImportToken sig fuel (t, parser_start sig, new_builder) = (NoFuel, (t, p, b)).
Proof.
  intros Hs Hi Ei Hi' Ht Et.
  destruct (stops_instance fuel t itf ib itf' td tb Hi Ei Hi' Ht Et [] [] new_builder []) as (p & b & E);
    [by rewrite app_nil_r|apply holds_new|done|].
  exists p, b. rewrite app_nil_r, <- Hs in E. unfold parser_at in E. by rewrite Z.sub_diag in E.
Qed.

End Stops.

(** The type [td], whose base class and whose interface [itf] have been imported, implements
    [itf<td>], which the type specification [spec] describes. *)
Record implements_itself (source_import : SourceImport) {Tg} (s : Injector (Tg := Tg)) (td : Z) : Prop := {
  ii_table : TypeFromToken td = mdtTypeDef /\ td <> mdtTypeDef;
  ii_new : m_tokenMaps s m_typeDefMap !! td = None;
  ii_base : exists p base, GetTypeDefProps source_import td = Ok p /\ TypeFromToken (td_extends p) = mdtTypeRef /\
    td_extends p <> mdtTypeRef /\ m_tokenMaps s m_typeRefMap !! td_extends p = Some base;
  ii_interface : exists impl impls spec sig itf itf' ib tb,
    EnumInterfaceImpls source_import td = Ok (impl :: impls) /\ GetInterfaceImplProps source_import impl = Ok spec /\
    (TypeFromToken spec = mdtTypeSpec /\ spec <> mdtTypeSpec /\ m_tokenMaps s m_typeSpecMap !! spec = None) /\
    GetTypeSpecFromToken source_import spec = Ok sig /\ sigBytes sig = instance_bytes ib tb /\
    m_sigToConvertedSigMap s !! sigPtr sig = None /\
    (TokenSig itf ib /\ TypeFromToken itf = mdtTypeRef /\ itf <> mdtTypeRef) /\
    (m_tokenMaps s m_typeRefMap !! itf = Some itf' /\ type_token itf') /\ TokenSig td tb
}.

Lemma ConvertToken_table {Tg} (target : forall A, TargetCall A -> M Tg A) Import tk :
  (TypeFromToken tk = mdtTypeDef -> ConvertToken target Import tk = Import fnTypeDef tk) /\
  (TypeFromToken tk = mdtTypeRef -> ConvertToken target Import tk = Import fnTypeRef tk) /\
  (TypeFromToken tk = mdtTypeSpec -> ConvertToken target Import tk = Import fnTypeSpec tk).
Proof. unfold ConvertToken. split_and!; by intros ->. Qed.

Lemma table_not_nil tk : TypeFromToken tk <> 0 -> tk <> mdTokenNil.
Proof. intros H ->. by apply H. Qed.

Lemma run_NoFuel {S A B} (m : M S A) (f : A -> M S B) s s' : m s = (NoFuel, s') -> bind m f s = (NoFuel, s').
Proof. unfold bind. by intros ->. Qed.

(** A row that is not in its cache. *)
Lemma row_new {Tg} m k nil (body : M (Injector (Tg := Tg)) Z) s :
  k <> mdTokenNil -> k <> nil -> m_tokenMaps s m !! k = None -> row m k nil body s = body s.
Proof. intros H0 Hn Hv. rewrite row_run, Hv. by rewrite (proj2 (Z.eqb_neq _ _) H0), (proj2 (Z.eqb_neq _ _) Hn). Qed.

Lemma run_lift {S A B} (o : outcome A) (f : A -> M S B) s a : o = Ok a -> bind (lift o) f s = f a s.
Proof. by intros ->. Qed.

(** C24: the caches do not end every recursion: a type is put into the cache only after its
    interfaces have been converted, so the import of a type that implements a generic interface
    at itself, as [struct X : IEquatable<X>], calls itself without end.  No depth of calls is
    enough, whatever the rest of the module and the target are. *)
Theorem ImportTypeDef_diverges {Tg} (target : forall A, TargetCall A -> M Tg A) source_import image g s td :
  implements_itself source_import s td -> forall fuel, import target source_import image g fuel fnTypeDef td s = (NoFuel, s).
Proof.
  intros [[Ht Hn] Hnew (p & base & Hp & Hpt & Hpn & Hpc) (impl & impls & spec & sig & itf & itf' & ib & tb & Hi & Hip & (Hst & Hsn & Hsc) &
    Hsig & Hbs & Hsg & (Hitf & Hit & Hin) & (Hic & Hitk) & Htd)] fuel.
  set (imp := import target source_import image g).
  assert (forall n tk v, TypeFromToken tk = mdtTypeRef -> tk <> mdtTypeRef -> m_tokenMaps s m_typeRefMap !! tk = Some v ->
    ConvertToken target (imp (S n)) tk s = (Ok v, s)) as Href.
  { intros n tk v H1 H2 Hv. rewrite (proj1 (proj2 (ConvertToken_table _ _ _)) H1).
    apply (import_cached _ _ _ _ _ _ _ m_typeRefMap); [done|apply table_not_nil; by rewrite H1|done..]. }
  induction fuel as [[|n] IH] using lt_wf_ind; [done|].
  etransitivity; [apply (row_new m_typeDefMap td mdtTypeDef); [apply table_not_nil; by rewrite Ht|done..]|].
  cbn beta. rewrite (run_lift _ _ _ _ Hp).
  destruct n as [|n]; [apply run_NoFuel; by rewrite (proj1 (proj2 (ConvertToken_table _ _ _)) Hpt)|].
  rewrite (run_bind _ _ _ _ _ (Href n _ _ Hpt Hpn Hpc)). apply run_NoFuel.
  unfold import_interfaces. rewrite (run_lift _ _ _ _ Hi). cbn [collect_each]. apply run_NoFuel.
  rewrite (run_lift _ _ _ _ Hip), (proj2 (proj2 (ConvertToken_table _ _ _)) Hst).
  etransitivity; [apply (row_new m_typeSpecMap spec mdtTypeSpec); [apply table_not_nil; by rewrite Hst|done..]|].
  cbn beta. rewrite (run_lift _ _ _ _ Hsig). apply run_NoFuel. unfold ConvertTypeSignatureCached, convert_cached.
  rewrite (run_bind _ _ _ _ _ (eq_refl : gets _ s = _)), Hsg. apply run_NoFuel, run_NoFuel.
  unfold convert_new. rewrite Hbs.
  destruct n as [|n]; [done|].
  assert (ConvertToken target (imp (S n)) td s = (NoFuel, s)) as Hrec
    by (rewrite (proj1 (ConvertToken_table _ _ _) Ht); apply IH; lia).
  assert (Z.of_nat (length (instance_bytes ib tb)) < 2 ^ 32) as Hlen.
  { unfold instance_bytes. pose proof (token_length _ _ Hitf). pose proof (token_length _ _ Htd). rewrite !length_app. cbn. lia. }
  destruct (instance_stuck _ _ Hlen (S n) s _ _ _ _ _ eq_refl Hitf (Href n _ _ Hit Hin Hic) Hitk Htd Hrec) as (q & b & E).
  transitivity (let '(o, (s, _, b)) := ConvertTypeSignature (ConvertToken target (imp (S n))) (instance_bytes ib tb) (S n)
    (s, parser_start (instance_bytes ib tb), new_builder) in (_ <~ o ;; Ok b, s)); [reflexivity|by rewrite E].
Qed.

(** ** Examples

    A target that writes a log of what is defined; tokens are numbered by it. *)
Definition define (table : Z) (what : string) : M (list string) Z := fun log =>
  (Ok (table + Z.of_nat (S (length log))), log ++ [what]).

Definition demo_target (A : Type) (c : TargetCall A) : M (list string) A :=
  match c in TargetCall A return M (list string) A with
  | FindTypeDefByName _ _ | FindTypeRef _ _ | FindMethod _ _ _ | FindMemberRef _ _ _ => ret None
  | DefineTypeDef n _ _ _ | DefineNestedType n _ _ _ _ => define mdtTypeDef ("type " ++ n)
  | DefineTypeRefByName _ n => define mdtTypeRef ("reference " ++ n)
  | EnumAssemblyRefs => ret ([mdtAssemblyRef + 1], None)
  | EnumModuleRefs => ret ([], None)
  | GetAssemblyFromScope => ret (mdtAssembly + 1)
  | GetAssemblyProps _ | GetTargetModuleRefProps _ => ret "target"%string
  | DefineField _ n _ _ _ _ => define mdtFieldDef ("field " ++ n)
  | DefineMethod _ n _ _ _ _ => define mdtMethodDef ("method " ++ n)
  | GetTokenFromSig _ => define mdtSignature "signature"
  | GetTokenFromTypeSpec _ => define mdtTypeSpec "type specification"
  | DefineMemberRef _ n _ => define mdtMemberRef ("member " ++ n)
  | DefineUserString _ => define mdtString "string"
  | DefineProperty _ n _ _ _ _ _ _ => define mdtProperty ("property " ++ n)
  | DefineEvent _ n _ _ _ _ _ => define mdtEvent ("event " ++ n)
  | DefineCustomAttribute _ _ _ => define mdtCustomAttribute "attribute"
  | DefineParam _ _ n _ _ _ => define mdtParamDef ("parameter " ++ n)
  | DefineModuleRef n => define mdtModuleRef ("module " ++ n)
  | DefineGenericParam _ _ _ n _ _ => define mdtGenericParam ("generic parameter " ++ n)
  | DefineMethodSpec _ _ => define mdtMethodSpec "method specification"
  | SetClassLayout _ _ _ _ | SetFieldMarshal _ _ | DefinePinvokeMap _ _ _ _ | SetILFunctionBody _ _ | DefineMethodImpl _ _ _ => ret tt
  end.

(** A source with type definitions, their interfaces (the row of the type specification is that
    of the implementation), fields, methods and type specifications; every type reference is to
    the class [Object] of one assembly. *)
Definition demo_source (types : list Z) (props : Z -> outcome TypeDefProps) (interfaces fields methods : Z -> list Z)
    (fieldProps : Z -> outcome FieldProps) (methodProps : Z -> outcome MethodProps) (specs : Z -> outcome SourceSig) : SourceImport :=
  let none := fun _ : Z => ([], None) in
  mkSource (types, None) ([], None) props (fun td => Ok (interfaces td)) (fun impl => Ok (mdtTypeSpec + RidFromToken impl))
    (fun _ => Err E_FAIL) (fun td => (fields td, None)) (fun td => (methods td, None)) none none (fun _ => ([], None)) none
    (fun _ => Err E_FAIL) (fun _ => Ok (mdtAssemblyRef + 1, "Object"%string)) (fun _ => Ok "mscorlib"%string) fieldProps
    (fun _ => Err E_FAIL) methodProps none (fun _ => Err E_FAIL) (fun _ => Err E_FAIL) (fun _ => Err E_FAIL) (fun _ => Err E_FAIL)
    (fun _ => Err E_FAIL) (fun _ => Err E_FAIL) (fun _ => Err E_FAIL) (fun _ => Err E_FAIL) (fun _ => Err E_FAIL) specs
    (fun _ => Err E_FAIL) (fun _ => Ok []) (fun _ => Err E_FAIL) (fun _ => Err E_FAIL).

(** [class Derived : Base], the second type, and [class Base { Derived d; void m(); }], the third. *)
Definition derived_source (types : list Z) : SourceImport :=
  demo_source types
    (fun td => if td =? 0x02000002 then Ok (mkTypeDefProps "Derived" 0 0x02000003) else Ok (mkTypeDefProps "Base" 0 0x01000001))
    (fun _ => []) (fun td => if td =? 0x02000003 then [0x04000001] else []) (fun td => if td =? 0x02000003 then [0x06000001] else [])
    (fun _ => Ok (mkFieldProps 0x02000003 "d" 0 (mkSourceSig 1 [0x06; 0x12; 0x08]) 0 []))
    (fun _ => Ok (mkMethodProps 0x02000003 "m" 0 (mkSourceSig 2 [0x00; 0x00; 0x01]) 0 0)) (fun _ => Err E_FAIL).

Definition no_opcodes (op : Z) : OPCLSA := opclsaInlineNone.

Notation demo_import_all types := (ImportAll demo_target (derived_source types) [] no_opcodes 12 true false (new_injector [])).


(** With the same module, whose first type is the derived class, the import of the base class
    reaches the derived class again before it is in the cache: it is defined twice, and its
    token is the second one, while the field has the type of the first. *)
Lemma derived_type_defined_twice :
  m_target (snd (demo_import_all [0x02000002; 0x02000003])) =
    ["reference Object"; "type Base"; "type Derived"; "field d"; "method m"; "type Derived"]%string.
Proof. vm_compute. reflexivity. Qed.

(** A field that is reached before its class, as from the code of another type, is defined by
    the import of its class and then once more. *)
Lemma field_defined_twice :
  m_target (snd (import demo_target (derived_source []) [] no_opcodes 12 fnFieldDef 0x04000001 (new_injector []))) =
    ["reference Object"; "type Base"; "type Derived"; "field d"; "method m"; "field d"]%string.
Proof. vm_compute. reflexivity. Qed.

Notation demo_rows := (import demo_target (derived_source []) [] no_opcodes).
Notation demo_later := (import_more demo_target (derived_source []) [] no_opcodes [(12%nat, fnTypeDef, 0x02000003); (1%nat, fnString, 0x70000001)]).

Lemma import_once_witness :
  let s1 := snd (demo_rows 12%nat fnTypeDef 0x02000002 (new_injector [])) in
  let s2 := snd (demo_later s1) in
  demo_rows 1%nat fnTypeDef 0x02000002 s2 = (Ok 0x02000006, s2).
Proof.
  intros s1 s2.
  assert (fst (demo_rows 12%nat fnTypeDef 0x02000002 (new_injector [])) = Ok 0x02000006) as H1 by (vm_compute; reflexivity).
  assert (fst (demo_later s1) = Ok tt) as H2 by (unfold s1; vm_compute; reflexivity).
  apply (import_once demo_target (derived_source []) [] no_opcodes 12 fnTypeDef 0x02000002 m_typeDefMap 0x02000006 (new_injector []) s1
    [(12%nat, fnTypeDef, 0x02000003); (1%nat, fnString, 0x70000001)] s2 0).
  - reflexivity.
  - rewrite <- H1. apply surjective_pairing.
  - rewrite <- H2. apply surjective_pairing.
Defined.

(** [class X : I<X>] with the base class and the interface imported. *)
Definition self_source : SourceImport :=
  demo_source [0x02000002] (fun _ => Ok (mkTypeDefProps "X" 0 0x01000001)) (fun _ => [0x09000001]) (fun _ => []) (fun _ => [])
    (fun _ => Err E_FAIL) (fun _ => Err E_FAIL) (fun _ => Ok (mkSourceSig 1 (instance_bytes [0x09] [0x08]))).

Definition self_state : Injector (Tg := list string) :=
  mkInjector (fun m => if decide (m = m_typeRefMap) then {[0x01000001 := 0x01000001; 0x01000002 := 0x01000002]} else ∅) ∅ [].

Lemma self_implements_itself : implements_itself self_source self_state 0x02000002.
Proof.
  constructor; [by split|done|by eexists _, _|].
  exists 0x09000001, [], 0x1b000001, (mkSourceSig 1 (instance_bytes [0x09] [0x08])), 0x01000002, 0x01000002, [0x09], [0x08].
  assert (TokenSig 0x01000002 [0x09]) as Hi by (constructor; [split; [done|set_solver]|reflexivity]).
  assert (TokenSig 0x02000002 [0x08]) as Ht by (constructor; [split; [done|set_solver]|reflexivity]).
  split_and!; try done. by inversion Hi.
Defined.

Lemma ImportTypeDef_diverges_witness :
  import demo_target self_source [] no_opcodes 1000 fnTypeDef 0x02000002 self_state = (NoFuel, self_state).
Proof. apply ImportTypeDef_diverges. exact self_implements_itself. Defined.

(** An imported property has both accessors: one that can only be read, or only be written,
    makes the import of its class fail. *)
Lemma ImportProperty_needs_both {Tg} (target : forall A, TargetCall A -> M Tg A) source_import image g fuel k p s v s' :
  m_tokenMaps s m_propertyMap !! k = None -> GetPropertyProps source_import k = Ok p ->
  import target source_import image g fuel fnProperty k s = (Ok v, s') ->
  pp_getter p <> mdtMethodDef /\ pp_setter p <> mdtMethodDef.
Proof.
  intros Hn Hp H. destruct (import_not_nil _ _ _ _ _ fnProperty _ m_propertyMap _ _ _ eq_refl H) as [H0 Hnil].
  destruct fuel as [|fuel]; [done|].
  assert (import target source_import image g (S fuel) fnProperty k s = _) as E by (apply (row_new m_propertyMap k mdtProperty); done).
  rewrite E in H. clear E. cbn beta in H. rewrite (run_lift _ _ _ _ Hp) in H. destruct (0 <? pp_otherMethods p); [done|].
  apply bind_Ok in H as (sig & s1 & _ & H). apply bind_Ok in H as (td & s2 & _ & H).
  apply bind_Ok in H as (get & s3 & Hg & H). apply bind_Ok in H as (set & s4 & Hs & _).
  split; [apply (import_not_nil _ _ _ _ _ fnMethodDef _ m_methodDefMap _ _ _ eq_refl Hg)|apply (import_not_nil _ _ _ _ _ fnMethodDef _ m_methodDefMap _ _ _ eq_refl Hs)].
Qed.

(** A type without a base class, as every interface, cannot be imported. *)
Lemma ImportTypeDef_needs_base {Tg} (target : forall A, TargetCall A -> M Tg A) source_import image g fuel td p s :
  td <> mdTokenNil -> td <> mdtTypeDef -> m_tokenMaps s m_typeDefMap !! td = None ->
  GetTypeDefProps source_import td = Ok p -> td_extends p = mdtTypeRef \/ td_extends p = mdtTypeDef ->
  import target source_import image g (S (S fuel)) fnTypeDef td s = (Err E_FAIL, s).
Proof.
  intros H0 Hn Hnew Hp He. etransitivity; [by apply (row_new m_typeDefMap td mdtTypeDef)|]. cbn beta.
  rewrite (run_lift _ _ _ _ Hp). unfold bind at 1. by destruct He as [-> | ->].
Qed.
