(* ===== verification/ModuleInfo.v ===== *)
(** The module objects of [ModuleInfo.cpp]: what [CModuleInfo::Initialize] reads from the
    runtime and from the PE image, the resolution of RVAs in the two layouts of an
    image, the properties, and the collections of method objects of a module. *)
From S2P Require Import Prelude Instruction.

(** ** The image

    The memory from the load address on is a list of bytes; a pointer into it is its
    offset.  [m_pCorHeader] is not assigned by the constructor: [None] is a pointer that
    was never written, [Some None] the null pointer. *)
Record Layout := mkLayout {
  m_pModuleBaseLoadAddress : option (list Z);
  m_bIsFlatLayout : bool;
  m_pbSectionStart : option Z;
  m_numSections : Z;
  m_bIs64bit : bool;
  m_pCorHeader : option (option Z);
  m_tkEntrypoint : Z
}.

Definition mdTokenNil : Z := 0.

(** The constructor, and the assignment of the load address. *)
Definition new_layout (base : option (list Z)) : Layout := mkLayout base false None 0 false None mdTokenNil.

Definition set_flat (b : bool) (l : Layout) : Layout :=
  mkLayout (m_pModuleBaseLoadAddress l) b (m_pbSectionStart l) (m_numSections l) (m_bIs64bit l) (m_pCorHeader l) (m_tkEntrypoint l).
Definition set_is64 (b : bool) (start : Z) (l : Layout) : Layout :=
  mkLayout (m_pModuleBaseLoadAddress l) (m_bIsFlatLayout l) (Some start) (m_numSections l) b (m_pCorHeader l) (m_tkEntrypoint l).
Definition set_numSections (n : Z) (l : Layout) : Layout :=
  mkLayout (m_pModuleBaseLoadAddress l) (m_bIsFlatLayout l) (m_pbSectionStart l) n (m_bIs64bit l) (m_pCorHeader l) (m_tkEntrypoint l).
Definition set_corHeader (p : Z) (l : Layout) : Layout :=
  mkLayout (m_pModuleBaseLoadAddress l) (m_bIsFlatLayout l) (m_pbSectionStart l) (m_numSections l) (m_bIs64bit l) (Some (Some p)) (m_tkEntrypoint l).
Definition set_entrypoint (tk : Z) (l : Layout) : Layout :=
  mkLayout (m_pModuleBaseLoadAddress l) (m_bIsFlatLayout l) (m_pbSectionStart l) (m_numSections l) (m_bIs64bit l) (m_pCorHeader l) tk.

(** [IMAGE_SECTION_HEADER], 40 bytes: the fields that are used. *)
Record IMAGE_SECTION_HEADER := mkSection { VirtualAddress : Z; SizeOfRawData : Z; PointerToRawData : Z }.

Definition read_section (mem : list Z) (at_ : Z) : outcome IMAGE_SECTION_HEADER :=
  bs <~ of_option OutOfBoundsRead (read_at mem at_ 40) ;;
  Ok (mkSection (le_val (take 4 (drop 12 bs))) (le_val (take 4 (drop 16 bs))) (le_val (take 4 (drop 20 bs)))).

(** The loop over the sections, of which [n] are left. *)
Fixpoint find_section (mem : list Z) (at_ rva : Z) (n : nat) : outcome Z :=
  match n with
  | O => Err E_POINTER
  | S n =>
      section <~ read_section mem at_ ;;
      if (VirtualAddress section <=? rva) && (rva <? u32 (VirtualAddress section + SizeOfRawData section))
      then Ok (PointerToRawData section + (rva - VirtualAddress section))
      else find_section mem (at_ + 40) rva n
  end.

(** [CModuleInfo::ResolveRva] with a non-null out pointer. *)
Definition ResolveRva (l : Layout) (rva : Z) : outcome Z :=
  match m_pModuleBaseLoadAddress l with
  | None => Err E_NOTIMPL
  | Some mem =>
      match m_pbSectionStart l with
      | None => Err E_FAIL
      | Some start =>
          if m_bIsFlatLayout l then
            if rva <? start then Ok rva else find_section mem start rva (Z.to_nat (m_numSections l))
          else Ok rva
      end
  end.

Definition IMAGE_DOS_SIGNATURE : Z := 0x5A4D.
Definition IMAGE_NT_SIGNATURE : Z := 0x4550.
Definition IMAGE_NT_OPTIONAL_HDR64_MAGIC : Z := 0x20B.

(** The offsets in [IMAGE_NT_HEADERS32] and [IMAGE_NT_HEADERS64]: of the optional
    header, of [DataDirectory\[IMAGE_DIRECTORY_ENTRY_COMHEADER\]] in it, and its size. *)
Definition OptionalHeader_at : Z := 24.
Definition comheader_at (is64 : bool) : Z := (if is64 then 112 else 96) + 14 * 8.
Definition sizeof_IMAGE_OPTIONAL_HEADER (is64 : bool) : Z := if is64 then 240 else 224.

(** [CModuleInfo::ReadModuleHeaders] *)
Definition ReadModuleHeaders : M Layout unit :=
  l <- gets id ;;
  match m_pModuleBaseLoadAddress l with
  | None => fail E_FAIL
  | Some mem =>
      e_magic <- lift (read_le mem 0 2) ;;
      if_false_ret (e_magic =? IMAGE_DOS_SIGNATURE) E_FAIL ;;;
      e_lfanew <- lift (read_le mem 60 4) ;;
      let pNTHeader := s32 e_lfanew in
      Signature <- lift (read_le mem pNTHeader 4) ;;
      if_false_ret (Signature =? IMAGE_NT_SIGNATURE) E_FAIL ;;;
      let opt := pNTHeader + OptionalHeader_at in
      Magic <- lift (read_le mem opt 2) ;;
      let is64 := Magic =? IMAGE_NT_OPTIONAL_HDR64_MAGIC in
      modify (set_is64 is64 (opt + sizeof_IMAGE_OPTIONAL_HEADER is64)) ;;;
      NumberOfSections <- lift (read_le mem (pNTHeader + 6) 2) ;;
      modify (set_numSections NumberOfSections) ;;;
      let pDirectory := opt + comheader_at is64 in
      Size <- lift (read_le mem (pDirectory + 4) 4) ;;
      if 0 <? Size then
        rva <- lift (read_le mem pDirectory 4) ;;
        if_false_ret (negb (rva =? 0)) E_FAIL ;;;
        l <- gets id ;;
        pbCLRHeader <- lift (ResolveRva l rva) ;;
        modify (set_corHeader pbCLRHeader) ;;;
        token <- lift (read_le mem (pbCLRHeader + 20) 4) ;;
        modify (set_entrypoint token)
      else fail E_FAIL
  end.

(** ** The module *)

Record ModuleFlags := mkFlags {
  m_bIsIlOnly : bool;
  m_bIsMscorlib : bool;
  m_bIsDynamic : bool;
  m_bIsLoadedFromDisk : bool;
  m_bIsNgen : bool;
  m_bIsWinRT : bool
}.

(** The members of [CModuleInfo] that [Initialize] sets, the image and the flags in a
    record each.  Of the metadata interfaces only their presence matters here. *)
Record CModuleInfo := mkModuleInfo {
  m_moduleID : Z;
  m_bstrModulePath : wstr;
  m_bstrModuleName : wstr;
  m_mvid : Z;
  m_layout : Layout;
  m_flags : ModuleFlags;
  m_pAssemblyInfo : option ptr;
  m_pAppDomainInfo : option ptr;
  m_pFixedFileVersion : option (list Z);
  m_pMetaDataEmit2 : bool;
  m_pMetaDataAssemblyEmit : bool;
  m_pTypeFactory : bool
}.

Definition COR_PRF_MODULE_DISK : Z := 0x1.
Definition COR_PRF_MODULE_NGEN : Z := 0x2.
Definition COR_PRF_MODULE_FLAT_LAYOUT : Z := 0x20.
Definition COR_PRF_MODULE_WINDOWS_RUNTIME : Z := 0x40.

Definition ClrVersion_2 : Z := 0x0200.
Definition ClrVersion_4 : Z := 0x0400.

Definition IsFlagSet (dwAllFlags dwFlag : Z) : bool := negb (Z.land dwAllFlags dwFlag =? 0).

(** What the system tells about files and loaded libraries. *)
Record System := mkSystem {
  PathFindFileName : wstr -> wstr;
  PathFindExtension : wstr -> nat;
  GetModuleHandle : wstr -> bool;
  GetFileVersionInfoSize : wstr -> Z;
  GetFileVersionInfo : wstr -> Z -> option (list Z);
  VerQueryValue : list Z -> option (list Z)
}.

Section Initialize.
Context (sys : System) (AttachedClrVersion : Z).

(** [CModuleInfo::GetModuleTypeFlags]: the flags, and whether the layout is flat.
    [GetModuleInfo2] is the answer of the runtime for this module; with a runtime before
    version 4 the flat layout and the WinRT flag keep their initial values. *)
Definition GetModuleTypeFlags (base : option (list Z)) (path name : wstr) (GetModuleInfo2 : outcome Z) :
    outcome (ModuleFlags * bool) :=
  let dynamic := match base with None => true | Some _ => false end in
  if AttachedClrVersion <? ClrVersion_4 then
    let ngen :=
      if (length name =? 0)%nat then false
      else GetModuleHandle sys (drop (PathFindExtension sys name) name ++ wide ".ni.dll") in
    let disk := negb dynamic && negb (length path =? 0)%nat && negb (length name =? 0)%nat in
    Ok (mkFlags true false dynamic disk ngen false, false)
  else
    dwModuleFlags <~ GetModuleInfo2 ;;
    Ok (mkFlags true false dynamic (IsFlagSet dwModuleFlags COR_PRF_MODULE_DISK)
          (IsFlagSet dwModuleFlags COR_PRF_MODULE_NGEN) (IsFlagSet dwModuleFlags COR_PRF_MODULE_WINDOWS_RUNTIME),
        IsFlagSet dwModuleFlags COR_PRF_MODULE_FLAT_LAYOUT).

(** [CModuleInfo::DetermineIfIsMscorlib] *)
Definition DetermineIfIsMscorlib (name : wstr) : bool :=
  if (0 <? length name)%nat then bool_decide (name = wide "mscorlib.dll") else false.

(** [CModuleInfo::ReadFixedFileVersion] *)
Definition ReadFixedFileVersion (loadedFromDisk : bool) (path : wstr) : option (list Z) :=
  if loadedFromDisk then
    let dwAllocSize := GetFileVersionInfoSize sys path in
    if negb (dwAllocSize =? 0) then
      pBuffer ← GetFileVersionInfo sys path dwAllocSize; VerQueryValue sys pBuffer
    else None
  else None.

(** What [Initialize] reads of the COR header to decide on native code.  The pointer was
    assigned by [ReadModuleHeaders]. *)
Definition read_ilonly (l : Layout) : outcome bool :=
  p <~ of_option UninitRead (m_pCorHeader l) ;;
  match p, m_pModuleBaseLoadAddress l with
  | None, _ => Ok false
  | Some p, Some mem => Flags <~ read_le mem (p + 16) 4 ;; Ok (negb (IsFlagSet Flags 1))
  | Some _, None => Undef NullDeref
  end.

(** [CModuleInfo::Initialize].  When it fails the object is dropped by its caller. *)
Definition Initialize (moduleID : Z) (path : wstr) (pAssemblyInfo pAppDomainInfo : option ptr)
    (base : option (list Z)) (pMetadataImport pMetadataAssemblyImport pEmit pAssemblyEmit : bool)
    (GetScopeProps GetModuleInfo2 : outcome Z) : outcome CModuleInfo :=
  if negb (match pAssemblyInfo with Some _ => true | None => false end) then Err E_POINTER else
  if negb (match pAppDomainInfo with Some _ => true | None => false end) then Err E_POINTER else
  if negb pMetadataImport then Err E_POINTER else
  if negb pMetadataAssemblyImport then Err E_POINTER else
  let name := PathFindFileName sys path in
  mvid <~ GetScopeProps ;;
  r <~ GetModuleTypeFlags base path name GetModuleInfo2 ;;
  let '(flags, flat) := r in
  let layout := set_flat flat (new_layout base) in
  if m_bIsDynamic flags then
    Ok (mkModuleInfo moduleID path name mvid layout flags pAssemblyInfo pAppDomainInfo None pEmit pAssemblyEmit false)
  else
    let '(res, layout) := ReadModuleHeaders layout in
    _ <~ res ;;
    ilonly <~ read_ilonly layout ;;
    let flags := mkFlags ilonly (DetermineIfIsMscorlib name) (m_bIsDynamic flags) (m_bIsLoadedFromDisk flags)
                   (m_bIsNgen flags) (m_bIsWinRT flags) in
    Ok (mkModuleInfo moduleID path name mvid layout flags pAssemblyInfo pAppDomainInfo
          (ReadFixedFileVersion (m_bIsLoadedFromDisk flags) path) pEmit pAssemblyEmit false).

End Initialize.

(** [CModuleInfo::Dispose] *)
Definition Dispose (m : CModuleInfo) : CModuleInfo :=
  mkModuleInfo (m_moduleID m) (m_bstrModulePath m) (m_bstrModuleName m) (m_mvid m) (m_layout m) (m_flags m)
    None None (m_pFixedFileVersion m) (m_pMetaDataEmit2 m) (m_pMetaDataAssemblyEmit m) false.

(** [CModuleInfo::CreateTypeFactory]: the factory is made once; it refers to the module. *)
Definition CreateTypeFactory (m : CModuleInfo) : CModuleInfo :=
  mkModuleInfo (m_moduleID m) (m_bstrModulePath m) (m_bstrModuleName m) (m_mvid m) (m_layout m) (m_flags m)
    (m_pAssemblyInfo m) (m_pAppDomainInfo m) (m_pFixedFileVersion m) (m_pMetaDataEmit2 m) (m_pMetaDataAssemblyEmit m) true.

(** ** Properties that can fail *)

Definition GetMetaDataEmit (m : CModuleInfo) : outcome unit := if m_pMetaDataEmit2 m then Ok tt else Err E_FAIL.
Definition GetMetaDataAssemblyEmit (m : CModuleInfo) : outcome unit :=
  if m_pMetaDataAssemblyEmit m then Ok tt else Err E_FAIL.

Definition GetEntrypointToken (m : CModuleInfo) : outcome Z :=
  if m_tkEntrypoint (m_layout m) =? mdTokenNil then Err E_FAIL else Ok (m_tkEntrypoint (m_layout m)).

(** [GetCorHeader]: [cbValue] bytes from the header on. *)
Definition GetCorHeader (cbValue : Z) (m : CModuleInfo) : outcome (list Z) :=
  p <~ of_option UninitRead (m_pCorHeader (m_layout m)) ;;
  match p with
  | None => Err E_FAIL
  | Some p =>
      mem <~ of_option NullDeref (m_pModuleBaseLoadAddress (m_layout m)) ;;
      of_option OutOfBoundsRead (read_at mem p (Z.to_nat cbValue))
  end.

Definition sizeof_VS_FIXEDFILEINFO : Z := 52.

Definition GetModuleVersion (cbValue : Z) (m : CModuleInfo) : outcome (list Z) :=
  if negb (cbValue =? sizeof_VS_FIXEDFILEINFO) then Err E_INVALIDARG else
  match m_pFixedFileVersion m with None => Err E_FAIL | Some v => Ok v end.

(** ** The two layouts of an image

    The loader maps an image by copying its headers to the load address and the data of
    each section to the address of the section.  [start] and [n] are the position and the
    number of the section headers. *)
Definition copied (flat mapped : list Z) (from to : Z) (size : nat) : Prop :=
  exists bs, read_at flat from size = Some bs /\ read_at mapped to size = Some bs.

Definition mapped_from (flat mapped : list Z) (start n : Z) : Prop :=
  copied flat mapped 0 0 (Z.to_nat (start + 40 * n)) /\
  forall i s, 0 <= i < n -> read_section flat (start + 40 * i) = Ok s ->
    0 <= SizeOfRawData s /\ VirtualAddress s + SizeOfRawData s < 2 ^ 32 /\
    copied flat mapped (PointerToRawData s) (VirtualAddress s) (Z.to_nat (SizeOfRawData s)).

(** The piece of the image that contains [rva], the headers or a section, contains the
    [size] bytes from [rva] on. *)
Definition in_one_piece (flat : list Z) (start n rva : Z) (size : nat) : Prop :=
  if rva <? start then rva + Z.of_nat size <= start + 40 * n
  else forall i s, 0 <= i < n -> read_section flat (start + 40 * i) = Ok s ->
    VirtualAddress s <= rva < VirtualAddress s + SizeOfRawData s ->
    rva + Z.of_nat size <= VirtualAddress s + SizeOfRawData s.

Lemma read_at_inside buf pos n bs k j :
  read_at buf pos n = Some bs -> (k + j <= n)%nat ->
  read_at buf (pos + Z.of_nat k) j = Some (take j (drop k bs)).
Proof.
  intros H Hk. replace n with (k + (n - k))%nat in H by lia.
  apply read_at_drop in H. replace (n - k)%nat with (j + (n - k - j))%nat in H by lia.
  apply read_at_take in H. exact H.
Qed.

Lemma copied_inside flat mapped from to size k j :
  copied flat mapped from to size -> 0 <= k -> k + Z.of_nat j <= Z.of_nat size ->
  read_at flat (from + k) j = read_at mapped (to + k) j.
Proof.
  intros (bs & Hf & Hm) Hk Hj. rewrite <- (Z2Nat.id k) by done.
  rewrite (read_at_inside _ _ _ _ (Z.to_nat k) j Hf), (read_at_inside _ _ _ _ (Z.to_nat k) j Hm) by lia. done.
Qed.

Lemma read_le_copied flat mapped size pos j :
  copied flat mapped 0 0 size -> pos + Z.of_nat j <= Z.of_nat size ->
  read_le flat pos j = read_le mapped pos j.
Proof.
  intros Hc Hj. unfold read_le. destruct (Z.lt_ge_cases pos 0) as [Hneg|Hpos].
  - unfold read_at. by rewrite !decide_False by lia.
  - pose proof (copied_inside _ _ _ _ _ pos j Hc) as E. rewrite !Z.add_0_l in E. by rewrite E by lia.
Qed.

Lemma find_section_Ok mem start rva n k a :
  find_section mem (start + 40 * Z.of_nat k) rva n = Ok a ->
  exists i s, Z.of_nat k <= i < Z.of_nat (k + n) /\ read_section mem (start + 40 * i) = Ok s /\
    VirtualAddress s <= rva < u32 (VirtualAddress s + SizeOfRawData s) /\
    a = PointerToRawData s + (rva - VirtualAddress s).
Proof.
  revert k. induction n as [|n IH]; intros k; cbn [find_section]; [done|].
  intros (s & Hs & H)%obind_Ok. destruct (_ && _) eqn:Hin in H.
  - injection H as <-. apply andb_prop in Hin as [H1%Z.leb_le H2%Z.ltb_lt].
    exists (Z.of_nat k), s. split_and!; [lia..|done|lia|lia|done].
  - replace (start + 40 * Z.of_nat k + 40) with (start + 40 * Z.of_nat (S k)) in H by lia.
    apply IH in H as (i & s' & ? & ? & ? & ?). exists i, s'. split_and!; auto with lia.
Qed.

Lemma resolved_same flat mapped l start rva a size :
  m_bIsFlatLayout l = true -> m_pModuleBaseLoadAddress l = Some flat -> m_pbSectionStart l = Some start ->
  0 <= m_numSections l -> mapped_from flat mapped start (m_numSections l) ->
  0 <= rva -> in_one_piece flat start (m_numSections l) rva size ->
  ResolveRva l rva = Ok a -> 0 <= a /\ read_at flat a size = read_at mapped rva size.
Proof.
  intros Hfl Hb Hs Hn [Hh Hsec] Hr Hp. unfold ResolveRva. rewrite Hb, Hs, Hfl. unfold in_one_piece in Hp.
  destruct (rva <? start) eqn:Hlt.
  - intros [= <-]. pose proof (copied_inside _ _ _ _ _ rva size Hh) as E. rewrite !Z.add_0_l in E. split; [done|]. apply E; lia.
  - replace start with (start + 40 * Z.of_nat 0) at 1 by lia.
    intros (i & s & Hi & Hrd & Hin & ->)%find_section_Ok.
    destruct (Hsec i s) as (Hsz & Hw & Hc); [lia|done|].
    assert (u32 (VirtualAddress s + SizeOfRawData s) <= VirtualAddress s + SizeOfRawData s).
    { unfold u32. apply Z.mod_le; [|lia]. destruct Hc as (bs & _ & Hm). apply read_at_Some in Hm. lia. }
    specialize (Hp i s ltac:(lia) Hrd ltac:(lia)).
    split; [destruct Hc as (bs & Hf & _); apply read_at_Some in Hf; lia|].
    rewrite (copied_inside _ _ _ _ _ (rva - VirtualAddress s) size Hc) by lia. f_equal. lia.
Qed.

(** What a successful call has read. *)
Lemma ReadModuleHeaders_inv l mem l' :
  m_pModuleBaseLoadAddress l = Some mem -> ReadModuleHeaders l = (Ok tt, l') ->
  exists lfanew magic n size rva a tk,
    let nt := s32 lfanew in
    let is64 := magic =? IMAGE_NT_OPTIONAL_HDR64_MAGIC in
    let start := nt + 24 + sizeof_IMAGE_OPTIONAL_HEADER is64 in
    let l1 := set_numSections n (set_is64 is64 start l) in
    read_le mem 0 2 = Ok IMAGE_DOS_SIGNATURE /\ read_le mem 60 4 = Ok lfanew /\
    read_le mem nt 4 = Ok IMAGE_NT_SIGNATURE /\ read_le mem (nt + 24) 2 = Ok magic /\
    read_le mem (nt + 6) 2 = Ok n /\ read_le mem (nt + 24 + comheader_at is64 + 4) 4 = Ok size /\ 0 < size /\
    read_le mem (nt + 24 + comheader_at is64) 4 = Ok rva /\ rva <> 0 /\
    ResolveRva l1 rva = Ok a /\ read_le mem (a + 20) 4 = Ok tk /\
    l' = set_entrypoint tk (set_corHeader a l1).
Proof.
  intros Hb H. unfold ReadModuleHeaders, gets, id, OptionalHeader_at in H. cbn [bind] in H. rewrite Hb in H.
  apply bind_Ok in H as (dos & s1 & [= Hdos <-] & H).
  destruct (Z.eqb_spec dos IMAGE_DOS_SIGNATURE) as [->|]; [|discriminate H]. cbn [if_false_ret bind ret] in H.
  apply bind_Ok in H as (lfanew & s1 & [= Hlf <-] & H).
  apply bind_Ok in H as (sig & s1 & [= Hsig <-] & H).
  destruct (Z.eqb_spec sig IMAGE_NT_SIGNATURE) as [->|]; [|discriminate H]. cbn [if_false_ret bind ret] in H.
  apply bind_Ok in H as (magic & s1 & [= Hmg <-] & H). cbn [bind modify] in H.
  apply bind_Ok in H as (n & s1 & [= Hn <-] & H). cbn [bind modify] in H.
  apply bind_Ok in H as (size & s1 & [= Hsz <-] & H).
  destruct (Z.ltb_spec 0 size); [|discriminate H].
  apply bind_Ok in H as (rva & s1 & [= Hrva <-] & H).
  destruct (Z.eqb_spec rva 0) as [|Hz]; [discriminate H|]. cbn [if_false_ret negb bind ret gets id] in H.
  apply bind_Ok in H as (a & s1 & [= Ha <-] & H). cbn [bind modify] in H.
  apply bind_Ok in H as (tk & s1 & [= Htk <-] & H). injection H as <-.
  exists lfanew, magic, n, size, rva, a, tk. cbn zeta. by split_and!.
Qed.

Lemma ReadModuleHeaders_run l mem lfanew magic n size rva a tk :
  let nt := s32 lfanew in
  let is64 := magic =? IMAGE_NT_OPTIONAL_HDR64_MAGIC in
  let start := nt + 24 + sizeof_IMAGE_OPTIONAL_HEADER is64 in
  let l1 := set_numSections n (set_is64 is64 start l) in
  m_pModuleBaseLoadAddress l = Some mem ->
  read_le mem 0 2 = Ok IMAGE_DOS_SIGNATURE -> read_le mem 60 4 = Ok lfanew ->
  read_le mem nt 4 = Ok IMAGE_NT_SIGNATURE -> read_le mem (nt + 24) 2 = Ok magic ->
  read_le mem (nt + 6) 2 = Ok n -> read_le mem (nt + 24 + comheader_at is64 + 4) 4 = Ok size -> 0 < size ->
  read_le mem (nt + 24 + comheader_at is64) 4 = Ok rva -> rva <> 0 ->
  ResolveRva l1 rva = Ok a -> read_le mem (a + 20) 4 = Ok tk ->
  ReadModuleHeaders l = (Ok tt, set_entrypoint tk (set_corHeader a l1)).
Proof.
  cbn zeta. intros Hb H1 H2 H3 H4 H5 H6 Hs H7 Hr Ha Ht. unfold ReadModuleHeaders, gets, id. cbn [bind]. rewrite Hb.
  unfold OptionalHeader_at, lift, modify, if_false_ret, gets, id.
  rewrite H1. cbn [bind]. rewrite Z.eqb_refl. cbn [bind ret]. rewrite H2. cbn [bind]. rewrite H3. cbn [bind].
  rewrite Z.eqb_refl. cbn [bind ret]. rewrite H4. cbn [bind]. rewrite H5. cbn [bind]. rewrite H6. cbn [bind].
  destruct (Z.ltb_spec 0 size); [|lia]. cbn [bind]. rewrite H7. cbn [bind].
  destruct (Z.eqb_spec rva 0); [done|]. cbn [negb bind ret]. rewrite Ha. cbn [bind]. by rewrite Ht.
Qed.

Lemma read_le_Ok_range buf pos j z : read_le buf pos j = Ok z -> 0 <= pos.
Proof. intros (bs & H & _)%read_le_Ok. apply read_at_Some in H. lia. Qed.

(** C32: the headers of an image that is loaded in the flat layout are those of the same
    image as the loader maps it: the bitness, the sections and the entry point are the
    same, and the COR header is found at its RVA. *)
Theorem ReadModuleHeaders_layouts_agree flat mapped l' rva :
  ReadModuleHeaders (set_flat true (new_layout (Some flat))) = (Ok tt, l') ->
  forall start, m_pbSectionStart l' = Some start ->
  read_le flat (start - sizeof_IMAGE_OPTIONAL_HEADER (m_bIs64bit l') + comheader_at (m_bIs64bit l')) 4 = Ok rva ->
  0 <= rva -> 0 <= m_numSections l' ->
  mapped_from flat mapped start (m_numSections l') ->
  in_one_piece flat start (m_numSections l') rva 24 ->
  ReadModuleHeaders (new_layout (Some mapped)) =
    (Ok tt, set_entrypoint (m_tkEntrypoint l') (set_corHeader rva
              (set_numSections (m_numSections l') (set_is64 (m_bIs64bit l') start (new_layout (Some mapped)))))).
Proof.
  intros H start Hst Hrva Hpos Hn Hm Hp.
  apply ReadModuleHeaders_inv with (mem := flat) in H as
    (lfanew & magic & n & size & rva' & a & tk & H1 & H2 & H3 & H4 & H5 & H6 & Hs & H7 & Hr & Ha & Ht & ->); [|done].
  cbn [set_entrypoint set_corHeader set_numSections set_is64 m_numSections m_pbSectionStart m_bIs64bit m_tkEntrypoint] in *.
  injection Hst as <-. remember (magic =? IMAGE_NT_OPTIONAL_HDR64_MAGIC) as is64 eqn:E64.
  replace (s32 lfanew + 24 + sizeof_IMAGE_OPTIONAL_HEADER is64 - sizeof_IMAGE_OPTIONAL_HEADER is64) with (s32 lfanew + 24)
    in Hrva by lia. rewrite H7 in Hrva. injection Hrva as ->.
  pose proof (read_le_Ok_range _ _ _ _ H3) as Hnt.
  assert (comheader_at is64 + 8 <= sizeof_IMAGE_OPTIONAL_HEADER is64 /\ 40 <= sizeof_IMAGE_OPTIONAL_HEADER is64) as Hsz
    by (clear; unfold comheader_at, sizeof_IMAGE_OPTIONAL_HEADER; destruct is64; lia).
  assert (forall pos j z, read_le flat pos j = Ok z -> pos + Z.of_nat j <= s32 lfanew + 24 + sizeof_IMAGE_OPTIONAL_HEADER is64 + 40 * n ->
            read_le mapped pos j = Ok z) as Hread.
  { intros pos j z Hz Hle. rewrite <- Hz. symmetry. apply (read_le_copied _ _ _ _ _ (proj1 Hm)). lia. }
  rewrite (ReadModuleHeaders_run _ mapped lfanew magic n size rva rva tk); rewrite <- ?E64; try done;
    try (apply Hread; [done|lia]).
  match type of Ha with ResolveRva ?l _ = _ =>
    pose proof (resolved_same flat mapped l _ rva a 24 eq_refl eq_refl eq_refl Hn Hm Hpos Hp Ha) as [Hapos E] end.
  apply read_le_Ok in Ht as (bs & Hbs & ->). unfold read_le.
  assert (exists b24, read_at flat a 24 = Some b24) as (b24 & Hb).
  { eexists. apply read_at_Some in Hbs. apply read_at_Some. split_and!; [lia..|done]. }
  pose proof (read_at_inside flat a 24 b24 20 4 Hb ltac:(lia)) as E1. rewrite E in Hb.
  pose proof (read_at_inside mapped rva 24 b24 20 4 Hb ltac:(lia)) as E2.
  change (Z.of_nat 20) with 20 in E1, E2. rewrite E1 in Hbs. by rewrite E2, Hbs.
Qed.

(** A 64-bit image with one section, in which the COR header is; its data is at 368 of the
    file and at 512 of the mapped image. *)
Definition poke (pos : Z) (bs buf : list Z) : list Z := default buf (write_at buf pos bs).

Definition image_headers (size : nat) : list Z :=
  poke 0 (le_bytes 2 IMAGE_DOS_SIGNATURE) (poke 60 (le_bytes 4 64) (poke 64 (le_bytes 4 IMAGE_NT_SIGNATURE)
  (poke 70 (le_bytes 2 1) (poke 88 (le_bytes 2 IMAGE_NT_OPTIONAL_HDR64_MAGIC) (poke 312 (le_bytes 4 520 ++ le_bytes 4 72)
  (poke 340 (le_bytes 4 512 ++ le_bytes 4 96 ++ le_bytes 4 368) (repeat 0 size))))))).

Definition cor_header : list Z :=
  le_bytes 4 72 ++ le_bytes 4 0x50002 ++ le_bytes 8 0 ++ le_bytes 4 1 ++ le_bytes 4 0x6000001.

Definition flat_image : list Z := poke 376 cor_header (image_headers 464).
Definition mapped_image : list Z := poke 520 cor_header (image_headers 608).

Lemma ReadModuleHeaders_layouts_agree_witness :
  ReadModuleHeaders (new_layout (Some mapped_image)) =
    (Ok tt, set_entrypoint 0x6000001 (set_corHeader 520
              (set_numSections 1 (set_is64 true 328 (new_layout (Some mapped_image)))))).
Proof.
  refine (ReadModuleHeaders_layouts_agree flat_image mapped_image
            (snd (ReadModuleHeaders (set_flat true (new_layout (Some flat_image))))) 520 _ 328 _ _ _ _ _ _).
  - vm_compute. reflexivity.
  - vm_compute. reflexivity.
  - vm_compute. reflexivity.
  - lia.
  - vm_compute. discriminate.
  - split.
    + eexists. split; vm_compute; reflexivity.
    + intros i s Hi Hs. replace (m_numSections _) with 1 in Hi by (vm_compute; reflexivity).
    assert (i = 0) as -> by lia.
      vm_compute in Hs. injection Hs as <-. cbn [SizeOfRawData VirtualAddress PointerToRawData].
      split_and!; [lia|lia|]. eexists. split; vm_compute; reflexivity.
  - unfold in_one_piece. change (520 <? 328) with false. intros i s Hi Hs Hin. replace (m_numSections _) with 1 in Hi by (vm_compute; reflexivity).
    assert (i = 0) as -> by lia.
    vm_compute in Hs. injection Hs as <-. cbn [SizeOfRawData VirtualAddress PointerToRawData]. lia.
Defined.

(** ** What [Initialize] records *)

Lemma GetModuleTypeFlags_dynamic sys v base path name info fl flat :
  GetModuleTypeFlags sys v base path name info = Ok (fl, flat) ->
  m_bIsDynamic fl = match base with None => true | Some _ => false end.
Proof.
  unfold GetModuleTypeFlags. destruct (_ <? _); [by intros [= <- <-]|]. by intros (w & _ & [= <- <-])%obind_Ok.
Qed.

(** The flag that the COR header of an image gives for IL-only images is recorded the
    wrong way round. *)
Lemma Initialize_ilonly_inverted sys v id path pa pd base i ai e ae mvid flags m :
  Initialize sys v id path pa pd base i ai e ae mvid flags = Ok m -> m_bIsDynamic (m_flags m) = false ->
  exists mem p Flags, base = Some mem /\ m_pCorHeader (m_layout m) = Some (Some p) /\
    read_le mem (p + 16) 4 = Ok Flags /\ m_bIsIlOnly (m_flags m) = negb (IsFlagSet Flags 1).
Proof.
  unfold Initialize. destruct pa, pd, i, ai; try done. cbn [negb]. intros H Hd.
  apply obind_Ok in H as (mv & _ & H). apply obind_Ok in H as ([fl flat] & Hf & H).
  destruct (m_bIsDynamic fl) eqn:Hdyn; [injection H as <-; cbn in Hd; congruence|].
  assert (exists mem, base = Some mem) as (mem & ->).
  { apply GetModuleTypeFlags_dynamic in Hf. destruct base; [eauto|]. congruence. }
  destruct (ReadModuleHeaders _) as [res l] eqn:E. apply obind_Ok in H as ([] & -> & H).
  apply ReadModuleHeaders_inv with (mem := mem) in E as
    (lfanew & magic & n & size & rva & a & tk & _ & _ & _ & _ & _ & _ & _ & _ & _ & _ & _ & ->); [|done].
  apply obind_Ok in H as (b & Hb & H). injection H as <-. unfold read_ilonly in Hb. cbn in Hb.
  apply obind_Ok in Hb as (Flags & HF & [= <-]). exists mem, a, Flags. by split_and!.
Qed.

(** The module of the sample image, which is IL-only, says that it is not. *)
Definition no_system : System := mkSystem id length (fun _ => false) (fun _ => 0) (fun _ _ => None) (fun _ => None).

Lemma ilonly_image_is_not :
  exists m, Initialize no_system ClrVersion_4 7 (wide "a.dll") (Some 1%positive) (Some 2%positive) (Some mapped_image)
    true true true true (Ok 9) (Ok COR_PRF_MODULE_DISK) = Ok m /\ m_bIsIlOnly (m_flags m) = false.
Proof. eexists. split; vm_compute; reflexivity. Qed.

(** Nothing assigns the COR header of a dynamic module before [GetCorHeader] tests it. *)
Lemma GetCorHeader_dynamic_uninit sys v id path pa pd i ai e ae mvid flags m cb :
  Initialize sys v id path pa pd None i ai e ae mvid flags = Ok m -> GetCorHeader cb m = Undef UninitRead.
Proof.
  unfold Initialize. destruct pa, pd, i, ai; try done. cbn [negb]. intros H.
  apply obind_Ok in H as (mv & _ & H). apply obind_Ok in H as ([fl flat] & Hf & H).
  apply GetModuleTypeFlags_dynamic in Hf. rewrite Hf in H. by injection H as <-.
Qed.

(** The native image is looked for under the extension of the module, not its name. *)
Lemma ngen_name_is_extension :
  let sys := mkSystem id (fun _ => 8%nat) (fun n => bool_decide (n = wide ".dll.ni.dll")) (fun _ => 0) (fun _ _ => None) (fun _ => None) in
  GetModuleTypeFlags sys ClrVersion_2 (Some []) (wide "mscorlib.dll") (wide "mscorlib.dll") (Err E_FAIL) =
    Ok (mkFlags true false false true true false, false).
Proof. vm_compute. reflexivity. Qed.
