(* ===== verification/MethodMaps.v ===== *)
(** The method objects that the engine holds while a method is compiled: the collections
    of [CModuleInfo] and of [CProfilerManager], the calls that create and clean up method
    objects, and [CProfilerManager::JITInlining]. *)
From S2P Require Import Prelude Instruction Rejit.

(** ** State *)

(** The members of [CMethodInfo] that identify it. *)
Record MethodObject := mkMethodObject {
  m_functionId : Z;
  m_tkFunction : Z;
  m_pModuleInfo : Z;
  m_bIsRejit : bool;
  m_bIsStandaloneMethodInfo : bool
}.

(** The collections of one [CModuleInfo].  A [CComPtr] in the map by function id can be
    null, because [operator\[\]] inserts one. *)
Record ModuleMethods := mkMethods {
  m_methodInfos : gmap Z (option ptr);
  m_methodInfosByToken : gmap Z ptr;
  m_methodTokenToRejitCountMap : gmap Z Z;
  m_pInlineSiteMap : option TInlineeToModulesMap
}.

(** [manager] is [CProfilerManager::m_methodInfos]; the modules are those that the app
    domain collection finds, by module id. *)
Record Methods := mkState {
  manager : gmap Z ptr;
  modules : gmap Z ModuleMethods;
  objects : gmap ptr MethodObject
}.

Notation N := (M Methods).

Definition set_manager (v : gmap Z ptr) (s : Methods) : Methods := mkState v (modules s) (objects s).
Definition set_module (mid : Z) (v : ModuleMethods) (s : Methods) : Methods :=
  mkState (manager s) (<[mid := v]> (modules s)) (objects s).

Definition alloc_object (o : MethodObject) : N ptr := fun s =>
  let p := fresh (dom (objects s)) in (Ok p, mkState (manager s) (modules s) (<[p := o]> (objects s))).

Definition load_object (p : ptr) : N MethodObject := fun s => (of_option NullDeref (objects s !! p), s).

(** The module object [mid], which somebody holds. *)
Definition load_module (mid : Z) : N ModuleMethods := fun s => (of_option NullDeref (modules s !! mid), s).

Definition on_module (mid : Z) (f : ModuleMethods -> ModuleMethods) : N unit :=
  m <- load_module mid ;; modify (set_module mid (f m)).

(** ** [CModuleInfo] *)

(** [CModuleInfo::GetMethodInfoById]: [AddRef] on what is found. *)
Definition Module_GetMethodInfoById (mid functionId : Z) : N ptr :=
  m <- load_module mid ;;
  p <- if_null_ret (m_methodInfos m !! functionId) E_FAIL ;;
  deref p.

(** [CModuleInfo::GetMethodInfoByToken] *)
Definition Module_GetMethodInfoByToken (mid methodToken : Z) : N ptr :=
  m <- load_module mid ;;
  if_null_ret (m_methodInfosByToken m !! methodToken) E_FAIL.

(** [CModuleInfo::AddMethodInfo] *)
Definition AddMethodInfo (mid functionId : Z) (p : ptr) : N unit :=
  o <- load_object p ;;
  on_module mid (fun m => mkMethods (<[functionId := Some p]> (m_methodInfos m))
    (<[m_tkFunction o := p]> (m_methodInfosByToken m)) (m_methodTokenToRejitCountMap m) (m_pInlineSiteMap m)).

(** [CModuleInfo::ReleaseMethodInfo] *)
Definition ReleaseMethodInfo (mid functionId : Z) : N unit :=
  m <- load_module mid ;;
  let pMethodInfo := default None (m_methodInfos m !! functionId) in
  on_module mid (fun m => mkMethods (<[functionId := pMethodInfo]> (m_methodInfos m))
    (m_methodInfosByToken m) (m_methodTokenToRejitCountMap m) (m_pInlineSiteMap m)) ;;;
  p <- if_null_ret pMethodInfo E_FAIL ;;
  o <- load_object p ;;
  on_module mid (fun m => mkMethods (delete functionId (m_methodInfos m))
    (delete (m_tkFunction o) (m_methodInfosByToken m)) (m_methodTokenToRejitCountMap m) (m_pInlineSiteMap m)).

(** [CModuleInfo::SetRejitMethodInfo] *)
Definition SetRejitMethodInfo (mid methodToken : Z) (pMethodInfo : option ptr) : N unit :=
  on_module mid (fun m => mkMethods (m_methodInfos m)
    (match pMethodInfo with
     | Some p => <[methodToken := p]> (m_methodInfosByToken m)
     | None => delete methodToken (m_methodInfosByToken m)
     end) (m_methodTokenToRejitCountMap m) (m_pInlineSiteMap m)).

(** [CModuleInfo::IncrementMethodRejitCount] *)
Definition IncrementRejitCount (mid token : Z) : N unit :=
  on_module mid (fun m => mkMethods (m_methodInfos m) (m_methodInfosByToken m)
    (<[token := match m_methodTokenToRejitCountMap m !! token with None => 1 | Some n => u32 (n + 1) end]>
       (m_methodTokenToRejitCountMap m)) (m_pInlineSiteMap m)).

(** ** [CProfilerManager] and [CMethodInfo] *)

(** [CProfilerManager::AddMethodInfoToMap]: [insert] keeps an entry that exists. *)
Definition AddMethodInfoToMap (functionId : Z) (p : ptr) : N unit :=
  if functionId =? 0 then fail E_FAIL
  else modify (fun s => match manager s !! functionId with Some _ => s | None => set_manager (<[functionId := p]> (manager s)) s end).

Definition RemoveMethodInfoFromMap (functionId : Z) : N unit :=
  modify (fun s => set_manager (delete functionId (manager s)) s).

Definition Manager_GetMethodInfoById (functionId : Z) : N ptr :=
  s <- gets id ;; if_null_ret (manager s !! functionId) E_FAIL.

Definition set_object (p : ptr) (o : MethodObject) : N unit :=
  modify (fun s => mkState (manager s) (modules s) (<[p := o]> (objects s))).

(** [CMethodInfo::Initialize] *)
Definition Method_Initialize (p : ptr) (bAddToMethodInfoMap isRejit : bool) : N unit :=
  o <- load_object p ;;
  (if bAddToMethodInfoMap then AddMethodInfoToMap (m_functionId o) p else ret tt) ;;;
  (if isRejit then IncrementRejitCount (m_pModuleInfo o) (m_tkFunction o) else ret tt) ;;;
  set_object p (mkMethodObject (m_functionId o) (m_tkFunction o) (m_pModuleInfo o) isRejit
                  (negb bAddToMethodInfoMap && negb isRejit)).

(** [CMethodInfo::Cleanup]; the result of [ReleaseMethodInfo] is dropped. *)
Definition Cleanup (p : ptr) : N unit :=
  o <- load_object p ;;
  if m_bIsStandaloneMethodInfo o then ret tt
  else attempt (ReleaseMethodInfo (m_pModuleInfo o) (m_functionId o)) ;;; RemoveMethodInfoFromMap (m_functionId o).

Section Manager.
(** [ICorProfilerInfo::GetFunctionInfo]: the module and the token; [GetFullName] of a
    method object, which reads metadata. *)
Context (GetFunctionInfo : Z -> outcome (Z * Z)) (GetFullName : ptr -> outcome unit).

(** [CAppDomainCollection::GetModuleInfoById] followed by a test of its result. *)
Definition known_module (mid : Z) (hr : HRESULT) : N unit :=
  s <- gets id ;; if_false_ret (bool_decide (is_Some (modules s !! mid))) hr.

(** [CProfilerManager::CreateMethodInfo] *)
Definition CreateMethodInfo (functionId : Z) : N ptr :=
  info <- lift (GetFunctionInfo functionId) ;;
  let '(moduleId, functionToken) := info in
  known_module moduleId E_FAIL ;;;
  existing <- attempt (Module_GetMethodInfoById moduleId functionId) ;;
  (match existing with Some p => lift (GetFullName p) | None => ret tt end) ;;;
  p <- alloc_object (mkMethodObject functionId functionToken moduleId false false) ;;
  Method_Initialize p true false ;;;
  AddMethodInfo moduleId functionId p ;;;
  ret p.

(** [CProfilerManager::CreateNewMethodInfo] *)
Definition CreateNewMethodInfo (functionId : Z) : N ptr :=
  info <- lift (GetFunctionInfo functionId) ;;
  let '(moduleId, functionToken) := info in
  known_module moduleId E_FAIL ;;;
  p <- alloc_object (mkMethodObject functionId functionToken moduleId false false) ;;
  Method_Initialize p false false ;;;
  ret p.

(** [CProfilerManager::CreateMethodInfoForRejit] *)
Definition CreateMethodInfoForRejit (moduleId methodToken : Z) : N ptr :=
  known_module moduleId E_FAIL ;;;
  p <- alloc_object (mkMethodObject 0 methodToken moduleId false false) ;;
  Method_Initialize p false true ;;;
  SetRejitMethodInfo moduleId methodToken (Some p) ;;;
  ret p.

(** ** Inlining *)

(** [IInstrumentationMethod::AllowInlineSite] gets a pointer to a [BOOL], which it may
    leave as it is; likewise [ICorProfilerCallback::JITInlining] of the raw profiler,
    whose result is ignored. *)
Definition AllowInlineSite : Type := ptr -> ptr -> HRESULT * option bool.

(** [CProfilerManager::CallAllowInlineOnInstrumentationMethods]: the code of the last call
    made, and whether inlining is allowed. *)
Fixpoint CallAllowInline (ims : list AllowInlineSite) (inlinee site : ptr) (hr : HRESULT) (b : bool) : HRESULT * bool :=
  match ims with
  | [] => (hr, b)
  | im :: ims =>
      let '(hr, w) := im inlinee site in
      if default b w then CallAllowInline ims inlinee site hr (default b w) else (hr, default b w)
  end.

Context (ims : list AllowInlineSite) (raw : option (Z -> Z -> option bool)).

(** The part of [JITInlining] in which both method objects exist. *)
Definition inline_decision (callerId calleeId : Z) (inlinee site : ptr) : N bool :=
  o1 <- load_object inlinee ;;
  o2 <- load_object site ;;
  let '(hr, b) := CallAllowInline ims inlinee site S_OK true in
  if_fail_ret hr ;;;
  let b := if b then match raw with Some f => default b (f callerId calleeId) | None => b end else b in
  on_module (m_pModuleInfo o1) (fun m => mkMethods (m_methodInfos m) (m_methodInfosByToken m)
    (m_methodTokenToRejitCountMap m) (Some (default ∅ (m_pInlineSiteMap m)))) ;;;
  (if b then on_module (m_pModuleInfo o1) (fun m => mkMethods (m_methodInfos m) (m_methodInfosByToken m)
     (m_methodTokenToRejitCountMap m)
     (Some (AddInlineSite (m_tkFunction o1) (m_tkFunction o2) (m_pModuleInfo o2) (default ∅ (m_pInlineSiteMap m)))))
   else ret tt) ;;;
  ret b.

(** [CProfilerManager::JITInlining]: [*pfShouldInline].  With version 2 of the runtime only
    the raw profiler is asked. *)
Definition JITInlining (clr2 : bool) (callerId calleeId : Z) : N bool :=
  if clr2 then ret (default false (match raw with Some f => f callerId calleeId | None => None end)) else
  r <- attempt (CreateMethodInfo calleeId) ;;
  match r with
  | None => ret true
  | Some inlinee =>
      finally
        (if calleeId =? callerId then inline_decision callerId calleeId inlinee inlinee
         else
           r <- attempt (CreateMethodInfo callerId) ;;
           match r with
           | None => ret true
           | Some site => finally (inline_decision callerId calleeId inlinee site) (Cleanup site)
           end)
        (Cleanup inlinee)
  end.

(** The life of the method object in [GetReJITParameters] and in [JITCompilationStarted],
    of which [body] is the rest; a method that the engine does not know is not
    instrumented by [JITCompilationStarted]. *)
Definition rejit_method_object (moduleId methodToken : Z) (body : ptr -> N unit) : N unit :=
  p <- CreateMethodInfoForRejit moduleId methodToken ;;
  finally (body p) (SetRejitMethodInfo moduleId methodToken None).

Definition jit_method_object (functionId : Z) (body : ptr -> N unit) : N unit :=
  r <- attempt (CreateMethodInfo functionId) ;;
  match r with None => ret tt | Some p => finally (body p) (Cleanup p) end.

(** ** Between the callbacks

    No method object is held between the callbacks of the runtime. *)
Definition idle (s : Methods) : Prop :=
  manager s = ∅ /\
  forall mid m, modules s !! mid = Some m -> m_methodInfos m = ∅ /\ m_methodInfosByToken m = ∅.

(** What [CreateMethodInfo] adds and [Cleanup] removes. *)
Definition with_method (fid tok : Z) (p : ptr) (m : ModuleMethods) : ModuleMethods :=
  mkMethods (<[fid := Some p]> (m_methodInfos m)) (<[tok := p]> (m_methodInfosByToken m))
    (m_methodTokenToRejitCountMap m) (m_pInlineSiteMap m).

Definition without_method (fid tok : Z) (m : ModuleMethods) : ModuleMethods :=
  mkMethods (delete fid (m_methodInfos m)) (delete tok (m_methodInfosByToken m))
    (m_methodTokenToRejitCountMap m) (m_pInlineSiteMap m).

Definition created (fid tok mid : Z) (p : ptr) (m : ModuleMethods) (s : Methods) : Methods :=
  mkState (<[fid := p]> (manager s)) (<[mid := with_method fid tok p m]> (modules s))
    (<[p := mkMethodObject fid tok mid false false]> (objects s)).

Lemma on_module_run mid f s m :
  modules s !! mid = Some m -> on_module mid f s = (Ok tt, set_module mid (f m) s).
Proof. intros H. unfold on_module, load_module, bind. by rewrite H. Qed.

Lemma alloc_run o s :
  alloc_object o s = (Ok (fresh (dom (objects s))), mkState (manager s) (modules s) (<[fresh (dom (objects s)) := o]> (objects s))).
Proof. done. Qed.

Lemma load_object_run p o s : objects s !! p = Some o -> load_object p s = (Ok o, s).
Proof. intros H. unfold load_object. by rewrite H. Qed.

Lemma load_module_run mid m s : modules s !! mid = Some m -> load_module mid s = (Ok m, s).
Proof. intros H. unfold load_module. by rewrite H. Qed.

Lemma known_module_run mid hr s m : modules s !! mid = Some m -> known_module mid hr s = (Ok tt, s).
Proof. intros H. unfold known_module, gets, bind, id. by rewrite bool_decide_eq_true_2 by (by rewrite H). Qed.

Lemma lookup_absent mid fid s m :
  modules s !! mid = Some m -> m_methodInfos m !! fid = None ->
  attempt (Module_GetMethodInfoById mid fid) s = (Ok None, s).
Proof. intros Hm Hi. unfold attempt, Module_GetMethodInfoById, load_module, bind. rewrite Hm. cbn. by rewrite Hi. Qed.

Lemma Method_Initialize_run p o s :
  objects s !! p = Some o -> m_functionId o <> 0 -> manager s !! m_functionId o = None ->
  Method_Initialize p true false s =
    (Ok tt, mkState (<[m_functionId o := p]> (manager s)) (modules s)
              (<[p := mkMethodObject (m_functionId o) (m_tkFunction o) (m_pModuleInfo o) false false]> (objects s))).
Proof.
  intros Hp Hz Hg. unfold Method_Initialize, load_object, AddMethodInfoToMap, bind. rewrite Hp. cbn [of_option].
  destruct (Z.eqb_spec (m_functionId o) 0); [done|]. cbn [modify]. unfold modify. by rewrite Hg.
Qed.

Lemma CreateMethodInfo_run fid tok mid m s :
  GetFunctionInfo fid = Ok (mid, tok) -> fid <> 0 -> modules s !! mid = Some m ->
  m_methodInfos m !! fid = None -> manager s !! fid = None ->
  exists p, objects s !! p = None /\ CreateMethodInfo fid s = (Ok p, created fid tok mid p m s).
Proof.
  intros Hf Hz Hm Hi Hg. exists (fresh (dom (objects s))).
  assert (objects s !! fresh (dom (objects s)) = None) as Hp by (apply not_elem_of_dom, is_fresh).
  split; [done|]. set (p := fresh (dom (objects s))) in *.
  unfold CreateMethodInfo. rewrite Hf, (run_bind _ _ s (mid, tok) s eq_refl).
  rewrite (run_bind _ _ _ _ _ (known_module_run _ _ _ _ Hm)), (run_bind _ _ _ _ _ (lookup_absent _ _ _ _ Hm Hi)).
  rewrite (run_bind (ret tt) _ s tt s eq_refl), (run_bind _ _ _ _ _ (alloc_run _ _)). fold p.
  erewrite run_bind; cycle 1.
  { apply Method_Initialize_run; cbn [objects manager m_functionId]; [apply lookup_insert_eq|done|done]. }
  cbn [objects manager modules m_functionId m_tkFunction m_pModuleInfo].
  unfold AddMethodInfo. erewrite run_bind; cycle 1.
  { erewrite run_bind by (apply load_object_run; cbn [objects]; apply lookup_insert_eq). apply on_module_run. exact Hm. }
  unfold ret, set_module, created, with_method. cbn [manager modules objects m_tkFunction]. by rewrite insert_insert_eq.
Qed.

Lemma ReleaseMethodInfo_run p o mid fid s m :
  objects s !! p = Some o -> modules s !! mid = Some m -> m_methodInfos m !! fid = Some (Some p) ->
  ReleaseMethodInfo mid fid s = (Ok tt, set_module mid (without_method fid (m_tkFunction o) m) s).
Proof.
  intros Hp Hm Hi. unfold ReleaseMethodInfo. rewrite (run_bind _ _ _ _ _ (load_module_run _ _ _ Hm)), Hi. cbn [default].
  rewrite (run_bind _ _ _ _ _ (on_module_run _ _ _ _ Hm)), (run_bind (if_null_ret (Some p) _) _ _ p _ eq_refl).
  erewrite run_bind by (apply load_object_run; exact Hp).
  erewrite on_module_run by (cbn [modules set_module]; apply lookup_insert_eq).
  unfold set_module, without_method. cbn [manager modules objects m_methodInfos m_methodInfosByToken
    m_methodTokenToRejitCountMap m_pInlineSiteMap]. by rewrite insert_insert_eq, delete_insert_eq.
Qed.

Lemma Cleanup_run p fid tok mid m s rej :
  objects s !! p = Some (mkMethodObject fid tok mid rej false) -> modules s !! mid = Some m ->
  m_methodInfos m !! fid = Some (Some p) ->
  Cleanup p s = (Ok tt, mkState (delete fid (manager s)) (<[mid := without_method fid tok m]> (modules s)) (objects s)).
Proof.
  intros Hp Hm Hi. unfold Cleanup. rewrite (run_bind _ _ _ _ _ (load_object_run _ _ _ Hp)).
  cbn [m_bIsStandaloneMethodInfo m_pModuleInfo m_functionId]. unfold attempt. unfold bind at 1.
  by rewrite (ReleaseMethodInfo_run _ _ _ _ _ _ Hp Hm Hi).
Qed.

Lemma CreateMethodInfo_cases fid s :
  returns (GetFunctionInfo fid) -> (forall mid m, modules s !! mid = Some m -> m_methodInfos m !! fid = None) ->
  manager s !! fid = None ->
  (exists hr objs, objects s ⊆ objs /\ CreateMethodInfo fid s = (Err hr, mkState (manager s) (modules s) objs)) \/
  (exists mid tok m p, GetFunctionInfo fid = Ok (mid, tok) /\ modules s !! mid = Some m /\ objects s !! p = None /\
     CreateMethodInfo fid s = (Ok p, created fid tok mid p m s)).
Proof.
  intros Hf Hi Hg. destruct (GetFunctionInfo fid) as [[mid tok]|hr| |] eqn:E; [| |done..]; cycle 1.
  { left. exists hr, (objects s). split; [done|]. unfold CreateMethodInfo. rewrite E. by destruct s. }
  destruct (modules s !! mid) as [m|] eqn:Hm; cycle 1.
  { left. exists E_FAIL, (objects s). split; [done|]. unfold CreateMethodInfo. rewrite E.
    rewrite (run_bind _ _ s (mid, tok) s eq_refl). unfold known_module, bind, gets, id.
    rewrite bool_decide_eq_false_2 by (rewrite Hm; by intros []). by destruct s. }
  destruct (decide (fid = 0)) as [->|Hz]; cycle 1.
  { right. destruct (CreateMethodInfo_run fid tok mid m s E Hz Hm (Hi _ _ Hm) Hg) as (p & Hp & Hc). eauto 10. }
  left. eexists E_FAIL, _. split; cycle 1.
  - unfold CreateMethodInfo. rewrite E, (run_bind _ _ s (mid, tok) s eq_refl).
    rewrite (run_bind _ _ _ _ _ (known_module_run _ _ _ _ Hm)), (run_bind _ _ _ _ _ (lookup_absent _ _ _ _ Hm (Hi _ _ Hm))).
    rewrite (run_bind (ret tt) _ s tt s eq_refl), (run_bind _ _ _ _ _ (alloc_run _ _)).
    unfold Method_Initialize. unfold bind at 1. erewrite run_bind by (apply load_object_run; cbn [objects]; apply lookup_insert_eq).
    reflexivity.
  - apply insert_subseteq, not_elem_of_dom, is_fresh.
Qed.

(** What the callbacks may do to the collections. *)
Definition settles_module (m m' : ModuleMethods) : Prop :=
  m_methodInfos m' = m_methodInfos m /\ m_methodInfosByToken m' ⊆ m_methodInfosByToken m.

Definition settles (s s' : Methods) : Prop :=
  manager s' = manager s /\ objects s ⊆ objects s' /\
  map_relation (fun _ => settles_module) (fun _ _ => False) (fun _ _ => False) (modules s) (modules s').

#[export] Instance settles_preorder : PreOrder settles.
Proof.
  split.
  - intros s. split_and!; [done..|]. intros i. destruct (modules s !! i); cbn; by split.
  - intros s1 s2 s3 (A1 & A2 & A3) (B1 & B2 & B3). split_and!; [congruence|by etrans|]. intros i. specialize (A3 i). specialize (B3 i).
    destruct (modules s1 !! i), (modules s2 !! i), (modules s3 !! i); cbn in *; try done.
    destruct A3, B3. split; [congruence|by etrans].
Qed.

Lemma settles_lookup s s' mid m :
  settles s s' -> modules s !! mid = Some m -> exists m', modules s' !! mid = Some m' /\ settles_module m m'.
Proof. intros (_ & _ & H) Hm. specialize (H mid). rewrite Hm in H. destruct (modules s' !! mid); [eauto|done]. Qed.

Lemma settles_set_module s mid m m' :
  modules s !! mid = Some m -> settles_module m m' -> settles s (set_module mid m' s).
Proof.
  intros Hm Hs. split_and!; [done..|]. intros i. cbn [modules set_module].
  destruct (decide (i = mid)) as [->|]; [rewrite lookup_insert_eq, Hm; exact Hs|].
  rewrite lookup_insert_ne by done. destruct (modules s !! i); cbn; [by split|done].
Qed.

Lemma settles_idle s s' : settles s s' -> idle s -> idle s'.
Proof.
  intros (H1 & _ & H3) [I1 I2]. split; [congruence|]. intros mid m' Hm. specialize (H3 mid). rewrite Hm in H3.
  destruct (modules s !! mid) as [m|] eqn:E; [|done]. destruct (I2 _ _ E) as [E1 E2]. destruct H3 as [-> H3].
  split; [done|]. rewrite E2 in H3. apply (anti_symm (⊆)); [done|apply map_empty_subseteq].
Qed.

(** A method object that was created, used and cleaned up leaves nothing. *)
Lemma cleanup_settles fid tok mid p m s s' :
  modules s !! mid = Some m -> m_methodInfos m !! fid = None -> manager s !! fid = None -> objects s !! p = None ->
  settles (created fid tok mid p m s) s' ->
  exists s'', Cleanup p s' = (Ok tt, s'') /\ settles s s'' /\
    forall i, m_pInlineSiteMap <$> modules s'' !! i = m_pInlineSiteMap <$> modules s' !! i.
Proof.
  intros Hm Hi Hg Hp Hs. destruct (settles_lookup _ _ mid _ Hs (lookup_insert_eq _ _ _)) as (m' & Hm' & E1 & E2).
  destruct Hs as (S1 & S2 & S3). eexists. split; [|split].
  - eapply Cleanup_run; [|exact Hm'|rewrite E1; apply lookup_insert_eq].
    eapply lookup_weaken; [|exact S2]. apply lookup_insert_eq.
  - split_and!; cbn [manager objects modules].
    + rewrite S1. cbn [created manager]. by rewrite delete_insert_id.
    + etrans; [|exact S2]. by apply insert_subseteq.
    + intros i. specialize (S3 i). cbn [created modules] in S3. destruct (decide (i = mid)) as [->|].
      * rewrite lookup_insert_eq, Hm. cbn. split; cbn [without_method m_methodInfos m_methodInfosByToken].
        -- rewrite E1. cbn [with_method m_methodInfos]. by rewrite delete_insert_id.
        -- etrans; [apply delete_mono, E2|]. cbn [with_method m_methodInfosByToken]. rewrite delete_insert_eq. apply delete_subseteq.
      * rewrite lookup_insert_ne in S3 |- * by done. exact S3.
  - intros i. cbn [modules]. destruct (decide (i = mid)) as [->|]; [by rewrite lookup_insert_eq, Hm'|by rewrite lookup_insert_ne].
Qed.

(** What is decided when the instrumentation methods say [b0]: the raw profiler is asked
    only if they all allow the inlining. *)
Definition decided (b0 : bool) (callerId calleeId : Z) : bool :=
  b0 && match raw with Some f => default true (f callerId calleeId) | None => true end.

Definition inlines (s : Methods) (mid : Z) : option (option TInlineeToModulesMap) := m_pInlineSiteMap <$> modules s !! mid.

(** The inline sites of a module after a decision. *)
Definition recorded_site (b : bool) (t1 t2 m2 : Z) (old : option TInlineeToModulesMap) : TInlineeToModulesMap :=
  if b then AddInlineSite t1 t2 m2 (default ∅ old) else default ∅ old.

Lemma inline_decision_run callerId calleeId inlinee site o1 o2 m s :
  objects s !! inlinee = Some o1 -> objects s !! site = Some o2 -> modules s !! m_pModuleInfo o1 = Some m ->
  exists r s', inline_decision callerId calleeId inlinee site s = (r, s') /\ returns r /\ settles s s' /\
    forall hr b0, CallAllowInline ims inlinee site S_OK true = (hr, b0) -> FAILED hr = false ->
      let b := decided b0 callerId calleeId in
      r = Ok b /\ forall i, inlines s' i =
        if decide (i = m_pModuleInfo o1)
        then Some (Some (recorded_site b (m_tkFunction o1) (m_tkFunction o2) (m_pModuleInfo o2) (m_pInlineSiteMap m)))
        else inlines s i.
Proof.
  intros H1 H2 Hm. unfold inline_decision.
  rewrite (run_bind _ _ _ _ _ (load_object_run _ _ _ H1)), (run_bind _ _ _ _ _ (load_object_run _ _ _ H2)).
  destruct (CallAllowInline ims inlinee site S_OK true) as [hr b0]. unfold if_fail_ret. destruct (FAILED hr) eqn:Hf.
  { exists (Err hr), s. split_and!; [done..|]. intros ? ? [= <- <-]. congruence. }
  rewrite (run_bind (ret tt) _ s tt s eq_refl), (run_bind _ _ _ _ _ (on_module_run _ _ _ _ Hm)).
  assert ((if b0 then match raw with Some f => default b0 (f callerId calleeId) | None => b0 end else b0) =
            decided b0 callerId calleeId) as ->.
  { unfold decided. by destruct b0, raw. }
  remember (decided b0 callerId calleeId) as b eqn:Eb. exists (Ok b). destruct b.
  - erewrite run_bind by (apply on_module_run; cbn [set_module modules]; apply lookup_insert_eq).
    eexists. split; [reflexivity|]. split; [done|]. unfold set_module. cbn [manager modules objects m_methodInfos m_methodInfosByToken
      m_methodTokenToRejitCountMap m_pInlineSiteMap]. rewrite insert_insert_eq. split; [by apply (settles_set_module _ _ m)|].
    intros ? ? [= <- <-] _. rewrite <- Eb. split; [done|]. intros i. unfold inlines. cbn [modules]. case_decide as Hi.
    + subst i. by rewrite lookup_insert_eq.
    + by rewrite lookup_insert_ne.
  - eexists. split; [reflexivity|]. split; [done|]. split; [by apply (settles_set_module _ _ m)|].
    intros ? ? [= <- <-] _. rewrite <- Eb. split; [done|]. intros i. unfold inlines, set_module. cbn [modules]. case_decide as Hi.
    + subst i. by rewrite lookup_insert_eq.
    + by rewrite lookup_insert_ne.
Qed.

Lemma absent_created fid fid' tok mid p m s :
  (forall i k, modules s !! i = Some k -> m_methodInfos k !! fid' = None) -> modules s !! mid = Some m -> fid' <> fid ->
  forall i k, modules (created fid tok mid p m s) !! i = Some k -> m_methodInfos k !! fid' = None.
Proof.
  intros H Hm Hn i k. cbn [created modules]. destruct (decide (i = mid)) as [->|].
  - rewrite lookup_insert_eq. intros [= <-]. cbn. rewrite lookup_insert_ne by done. eauto.
  - rewrite lookup_insert_ne by done. eauto.
Qed.

(** What the module and the instrumentation methods answer for a pair of methods. *)
Definition asked (callerId calleeId : Z) (s : Methods) (m1 t1 m2 t2 : Z) (b0 : bool) : Prop :=
  GetFunctionInfo calleeId = Ok (m1, t1) /\ GetFunctionInfo callerId = Ok (m2, t2) /\
  is_Some (modules s !! m1) /\ is_Some (modules s !! m2) /\ calleeId <> 0 /\ callerId <> 0 /\
  exists hr, FAILED hr = false /\ forall p q, CallAllowInline ims p q S_OK true = (hr, b0).

(** The part of [JITInlining] after the method object of the inlinee was created. *)
Lemma inlining_created callerId calleeId s m1 t1 k p :
  (forall f, returns (GetFunctionInfo f)) -> idle s -> GetFunctionInfo calleeId = Ok (m1, t1) ->
  modules s !! m1 = Some k -> objects s !! p = None ->
  let s1 := created calleeId t1 m1 p k s in
  exists r s2,
    (if calleeId =? callerId then inline_decision callerId calleeId p p
     else r <- attempt (CreateMethodInfo callerId) ;;
          match r with None => ret true | Some site => finally (inline_decision callerId calleeId p site) (Cleanup site) end) s1
      = (r, s2) /\ returns r /\ settles s1 s2 /\
    forall m2 t2 b0, asked callerId calleeId s m1 t1 m2 t2 b0 ->
      r = Ok (decided b0 callerId calleeId) /\
      forall i, inlines s2 i = if decide (i = m1)
        then Some (Some (recorded_site (decided b0 callerId calleeId) t1 t2 m2 (m_pInlineSiteMap k))) else inlines s1 i.
Proof.
  intros Hret [Hg Hi] Hf Hk Hp s1. assert (objects s1 !! p = Some (mkMethodObject calleeId t1 m1 false false)) as Hp1 by apply lookup_insert_eq.
  assert (modules s1 !! m1 = Some (with_method calleeId t1 p k)) as Hk1 by apply lookup_insert_eq.
  destruct (Z.eqb_spec calleeId callerId) as [->|Hne].
  { destruct (inline_decision_run callerId callerId p p _ _ _ s1 Hp1 Hp1 Hk1) as (r & s2 & -> & Hr & Hs & Hd).
    exists r, s2. split_and!; [done..|]. intros m2 t2 b0 (E1 & E2 & _ & _ & _ & _ & hr & Hh & Ha). rewrite E1 in E2. injection E2 as <- <-. by apply (Hd hr). }
  assert (forall i m, modules s !! i = Some m -> m_methodInfos m !! callerId = None) as Hab
    by (intros i m Hm; destruct (Hi _ _ Hm) as [-> _]; apply lookup_empty).
  assert (forall i m, modules s1 !! i = Some m -> m_methodInfos m !! callerId = None) as Hab1
    by (apply absent_created; auto).
  assert (manager s1 !! callerId = None) as Hg1.
  { unfold s1. cbn [created manager]. rewrite Hg, lookup_insert_ne by done. apply lookup_empty. }
  destruct (CreateMethodInfo_cases callerId s1 (Hret _) Hab1 Hg1) as [(hr & objs & Ho & Hc)|(m2 & t2 & k2 & q & Hf2 & Hk2 & Hq & Hc)].
  - rewrite (run_bind _ _ _ _ _ (attempt_run _ _ _ _ Hc I)). exists (Ok true). eexists. split; [reflexivity|]. split; [done|].
    split; [split_and!; [done..|]; intros i; destruct (modules s1 !! i) eqn:E; cbn [modules]; rewrite E; [by split|done]|].
    intros m2 t2 b0 (_ & E2 & _ & [k2 Hk2] & _ & Hz & _). exfalso.
    assert (exists k2', modules s1 !! m2 = Some k2') as [k2' Hk2'].
    { unfold s1. cbn [created modules]. destruct (decide (m2 = m1)) as [->|]; [rewrite lookup_insert_eq|rewrite lookup_insert_ne by done]; eauto. }
    destruct (CreateMethodInfo_run _ _ _ _ _ E2 Hz Hk2' (Hab1 _ _ Hk2') Hg1) as (q & _ & Hc'). congruence.
  - rewrite (run_bind _ _ _ _ _ (attempt_run _ _ _ _ Hc I)). cbn iota. set (s2 := created callerId t2 m2 q k2 s1) in *.
    assert (objects s2 !! p = Some (mkMethodObject calleeId t1 m1 false false)) as Hp2.
    { unfold s2. cbn [created objects]. rewrite lookup_insert_ne; [exact Hp1|]. congruence. }
    assert (exists k', modules s2 !! m1 = Some k' /\ m_pInlineSiteMap k' = m_pInlineSiteMap k) as (k' & Hk' & Ek).
    { unfold s2. cbn [created modules]. destruct (decide (m1 = m2)) as [<-|]; [|rewrite lookup_insert_ne by done; by eexists].
      rewrite lookup_insert_eq. eexists. split; [done|]. rewrite Hk1 in Hk2. by injection Hk2 as <-. }
    destruct (inline_decision_run callerId calleeId p q _ _ _ s2 Hp2 (lookup_insert_eq _ _ _) Hk') as (r & s3 & Hd & Hr & Hs & Hdec).
    destruct (cleanup_settles _ _ _ _ _ _ _ Hk2 (Hab1 _ _ Hk2) Hg1 Hq Hs) as (s4 & Hcl & Hs4 & Hin).
    exists r, s4. split_and!; [exact (finally_run _ _ _ _ _ _ Hd Hr Hcl)|done|done|].
    intros m2' t2' b0 (_ & E2 & _ & _ & _ & _ & hr & Hh & Ha). rewrite Hf2 in E2. injection E2 as <- <-.
    destruct (Hdec hr b0 (Ha _ _) Hh) as [-> Hrec]. split; [done|]. intros i. unfold inlines in *. rewrite Hin, Hrec.
    cbn [m_pModuleInfo m_tkFunction]. case_decide; [by rewrite Ek|]. unfold s2. cbn [created modules].
    destruct (decide (i = m2)) as [->|]; [by rewrite lookup_insert_eq, Hk2|by rewrite lookup_insert_ne].
Qed.

Lemma idle_absent s fid :
  idle s -> manager s !! fid = None /\ forall mid m, modules s !! mid = Some m -> m_methodInfos m !! fid = None.
Proof. intros [-> Hi]. split; [apply lookup_empty|]. intros mid m Hm. destruct (Hi _ _ Hm) as [-> _]. apply lookup_empty. Qed.

Lemma settles_objects s objs : objects s ⊆ objs -> settles s (mkState (manager s) (modules s) objs).
Proof. intros Ho. split_and!; [done..|]. intros i. cbn. destruct (modules s !! i); cbn; by try split. Qed.

Lemma JITInlining_run callerId calleeId s :
  (forall f, returns (GetFunctionInfo f)) -> idle s ->
  exists r s', JITInlining false callerId calleeId s = (r, s') /\ returns r /\ settles s s' /\
    forall m1 t1 m2 t2 b0, asked callerId calleeId s m1 t1 m2 t2 b0 ->
      r = Ok (decided b0 callerId calleeId) /\
      forall i, inlines s' i = if decide (i = m1)
        then (fun old => Some (recorded_site (decided b0 callerId calleeId) t1 t2 m2 old)) <$> inlines s m1 else inlines s i.
Proof.
  intros Hret Hidle. destruct (idle_absent s calleeId Hidle) as [Hg Hab]. unfold JITInlining.
  destruct (CreateMethodInfo_cases calleeId s (Hret _) Hab Hg) as [(hr & objs & Ho & Hc)|(m1 & t1 & k & p & Hf & Hk & Hp & Hc)].
  - rewrite (run_bind _ _ _ _ _ (attempt_run _ _ _ _ Hc I)). exists (Ok true). eexists.
    split; [reflexivity|]. split; [done|]. split; [by apply settles_objects|].
    intros m1 t1 m2 t2 b0 (E1 & _ & [k Hk] & _ & Hz & _). exfalso.
    destruct (CreateMethodInfo_run _ _ _ _ _ E1 Hz Hk (Hab _ _ Hk) Hg) as (q & _ & Hc'). congruence.
  - rewrite (run_bind _ _ _ _ _ (attempt_run _ _ _ _ Hc I)). cbn iota.
    destruct (inlining_created callerId calleeId s m1 t1 k p Hret Hidle Hf Hk Hp) as (r & s2 & Hx & Hr & Hs & Hspec).
    destruct (cleanup_settles _ _ _ _ _ _ _ Hk (Hab _ _ Hk) Hg Hp Hs) as (s3 & Hcl & Hs3 & Hin).
    exists r, s3. split_and!; [exact (finally_run _ _ _ _ _ _ Hx Hr Hcl)|done|done|].
    intros m1' t1' m2 t2 b0 Ha. pose proof Ha as (E1 & _). rewrite Hf in E1. injection E1 as <- <-.
    destruct (Hspec _ _ _ Ha) as [-> Hrec]. split; [done|]. intros i. unfold inlines in *. rewrite Hin, Hrec.
    case_decide as Hi; [by rewrite Hk|]. cbn [created modules]. by rewrite lookup_insert_ne.
Qed.


(** The callbacks that hold method objects.  [body] is what is done with the object
    meanwhile. *)
Inductive Callback :=
| Inlining (clr2 : bool) (callerId calleeId : Z)
| Jit (functionId : Z) (body : ptr -> N unit)
| Rejit (moduleId methodToken : Z) (body : ptr -> N unit).

Definition callback (c : Callback) : N unit :=
  match c with
  | Inlining clr2 callerId calleeId => JITInlining clr2 callerId calleeId ;;; ret tt
  | Jit functionId body => jit_method_object functionId body
  | Rejit moduleId methodToken body => rejit_method_object moduleId methodToken body
  end.

Definition callbacks (cs : list Callback) (s : Methods) : Methods := foldl (fun s c => (callback c s).2) s cs.

(** An instrumentation pass may look up methods, make informational method objects and
    run callbacks of its own, but what it adds to the collections it takes out. *)
Definition body_ok (body : ptr -> N unit) : Prop := forall p s, returns (body p s).1 /\ settles s (body p s).2.

Definition callback_ok (c : Callback) : Prop :=
  match c with Inlining _ _ _ => True | Jit _ body | Rejit _ _ body => body_ok body end.

Lemma jit_settles fid body s :
  returns (GetFunctionInfo fid) -> body_ok body -> idle s ->
  returns (jit_method_object fid body s).1 /\ settles s (jit_method_object fid body s).2.
Proof.
  intros Hret Hb Hidle. destruct (idle_absent s fid Hidle) as [Hg Hab]. unfold jit_method_object.
  destruct (CreateMethodInfo_cases fid s Hret Hab Hg) as [(hr & objs & Ho & Hc)|(mid & tok & k & p & Hf & Hk & Hp & Hc)];
    rewrite (run_bind _ _ _ _ _ (attempt_run _ _ _ _ Hc I)).
  - split; [done|]. by apply settles_objects.
  - cbn iota. destruct (body p (created fid tok mid p k s)) as [r s2] eqn:E.
    destruct (Hb p (created fid tok mid p k s)) as [Hr Hs]. rewrite E in Hr, Hs.
    destruct (cleanup_settles _ _ _ _ _ _ _ Hk (Hab _ _ Hk) Hg Hp Hs) as (s3 & Hcl & Hs3 & _).
    by rewrite (finally_run _ _ _ _ _ _ E Hr Hcl).
Qed.

Lemma settles_by_token s s' mid k tok p rc :
  modules s !! mid = Some k ->
  settles (set_module mid (mkMethods (m_methodInfos k) (<[tok := p]> (m_methodInfosByToken k)) rc (m_pInlineSiteMap k)) s) s' ->
  exists s'', SetRejitMethodInfo mid tok None s' = (Ok tt, s'') /\ settles s s''.
Proof.
  intros Hk Hs. destruct (settles_lookup _ _ mid _ Hs (lookup_insert_eq _ _ _)) as (k' & Hk' & E1 & E2).
  destruct Hs as (S1 & S2 & S3). eexists. split; [apply (on_module_run _ _ _ _ Hk')|].
  split_and!; [exact S1|exact S2|]. intros i. specialize (S3 i). cbn [set_module modules] in *.
  destruct (decide (i = mid)) as [->|].
  - rewrite lookup_insert_eq, Hk. split; [exact E1|]. cbn [m_methodInfosByToken] in *.
    etrans; [apply delete_mono, E2|]. rewrite delete_insert_eq. apply delete_subseteq.
  - rewrite lookup_insert_ne in S3 |- * by done. exact S3.
Qed.

Lemma Rejit_Initialize_run p o s k :
  objects s !! p = Some o -> modules s !! m_pModuleInfo o = Some k ->
  exists rc, Method_Initialize p false true s =
    (Ok tt, mkState (manager s)
       (<[m_pModuleInfo o := mkMethods (m_methodInfos k) (m_methodInfosByToken k) rc (m_pInlineSiteMap k)]> (modules s))
       (<[p := mkMethodObject (m_functionId o) (m_tkFunction o) (m_pModuleInfo o) true false]> (objects s))).
Proof.
  intros Hp Hk. eexists. unfold Method_Initialize, load_object, IncrementRejitCount, bind. rewrite Hp.
  cbn [of_option ret]. rewrite (on_module_run _ _ _ _ Hk). reflexivity.
Qed.

Lemma CreateMethodInfoForRejit_run mid tok s k :
  modules s !! mid = Some k ->
  exists p rc objs, objects s ⊆ objs /\ CreateMethodInfoForRejit mid tok s =
    (Ok p, set_module mid (mkMethods (m_methodInfos k) (<[tok := p]> (m_methodInfosByToken k)) rc (m_pInlineSiteMap k))
             (mkState (manager s) (modules s) objs)).
Proof.
  intros Hk. set (p := fresh (dom (objects s))).
  destruct (Rejit_Initialize_run p (mkMethodObject 0 tok mid false false)
    (mkState (manager s) (modules s) (<[p := mkMethodObject 0 tok mid false false]> (objects s))) k (lookup_insert_eq _ _ _) Hk) as [rc Hi].
  exists p, rc. eexists. split; cycle 1.
  - unfold CreateMethodInfoForRejit.
    rewrite (run_bind _ _ _ _ _ (known_module_run _ _ _ _ Hk)), (run_bind _ _ _ _ _ (alloc_run _ _)).
    rewrite (run_bind _ _ _ _ _ Hi). cbn [manager modules objects m_pModuleInfo m_functionId m_tkFunction].
    unfold SetRejitMethodInfo. erewrite run_bind by (apply on_module_run; cbn [modules]; apply lookup_insert_eq).
    unfold ret, set_module. cbn [manager modules objects m_methodInfos m_methodInfosByToken m_methodTokenToRejitCountMap m_pInlineSiteMap].
    by rewrite insert_insert_eq.
  - rewrite insert_insert_eq. apply insert_subseteq, not_elem_of_dom, is_fresh.
Qed.

Lemma rejit_settles mid tok body s :
  body_ok body -> returns (rejit_method_object mid tok body s).1 /\ settles s (rejit_method_object mid tok body s).2.
Proof.
  intros Hb. unfold rejit_method_object. destruct (modules s !! mid) as [k|] eqn:Hk; cycle 1.
  { unfold CreateMethodInfoForRejit, known_module, gets, id, bind.
    rewrite bool_decide_eq_false_2 by (rewrite Hk; by intros []). by split. }
  destruct (CreateMethodInfoForRejit_run mid tok s k Hk) as (p & rc & objs & Ho & Hc). rewrite (run_bind _ _ _ _ _ Hc).
  match type of Hc with _ = (_, ?s1) => destruct (body p s1) as [r s2] eqn:E; destruct (Hb p s1) as [Hr Hs] end.
  rewrite E in Hr, Hs. destruct (settles_by_token (mkState (manager s) (modules s) objs) s2 mid k tok p rc Hk Hs) as (s3 & Hcl & Hs3).
  rewrite (finally_run _ _ _ _ _ _ E Hr Hcl). split; [done|]. etrans; [|exact Hs3]. by apply settles_objects.
Qed.

Lemma callback_settles c s :
  (forall f, returns (GetFunctionInfo f)) -> callback_ok c -> idle s -> returns (callback c s).1 /\ settles s (callback c s).2.
Proof.
  intros Hret Hok Hidle. destruct c as [[] caller callee|fid body|mid tok body]; cbn [callback].
  - by split.
  - destruct (JITInlining_run caller callee s Hret Hidle) as (r & s' & Hr & Hret' & Hs & _).
    unfold bind. rewrite Hr. by destruct r.
  - by apply jit_settles.
  - by apply rejit_settles.
Qed.

(** C31: no method object outlives the callback that made it: after any sequence of
    compilations, rejits and inlining questions, whatever they return, every collection of
    method objects of the engine and of its modules is as empty as it was at the start,
    and none of the callbacks comes to a dangling or null method object. *)
Theorem callbacks_idle cs s :
  (forall f, returns (GetFunctionInfo f)) -> Forall callback_ok cs -> idle s ->
  idle (callbacks cs s) /\
  forall cs1 c cs2, cs = cs1 ++ c :: cs2 -> returns (callback c (callbacks cs1 s)).1.
Proof.
  intros Hret Hok Hidle. revert s Hidle. induction Hok as [|c cs Hc Hcs IH]; intros s Hidle.
  { split; [done|]. by intros [|? ?] ? ? ?. }
  destruct (callback_settles c s Hret Hc Hidle) as [Hr Hs].
  destruct (IH (callback c s).2) as [I1 I2]; [by apply (settles_idle s)|]. split; [exact I1|].
  intros [|c1 cs1] c' cs2 [= E1 E2]; subst; [exact Hr|]. exact (I2 _ _ _ eq_refl).
Qed.

End Manager.

(** ** Witnesses and what the calls do outside their protocol *)

Definition one_module : Methods := mkState ∅ {[7 := mkMethods ∅ ∅ ∅ None]} ∅.

Definition sample_info (fid : Z) : outcome (Z * Z) := if fid <? 100 then Ok (7, 0x6000000 + fid) else Err E_FAIL.

Lemma sample_returns f : returns (sample_info f).
Proof. unfold sample_info. by destruct (f <? 100). Qed.

Lemma one_module_idle : idle one_module.
Proof.
  split; [done|]. intros mid m H. change ((<[7 := mkMethods ∅ ∅ ∅ None]> ∅ : gmap Z ModuleMethods) !! mid = Some m) in H.
  by apply lookup_singleton_Some in H as [_ <-].
Qed.

Definition yes : AllowInlineSite := fun _ _ => (S_OK, None).


Lemma callbacks_idle_witness :
  idle (callbacks sample_info (fun _ => Ok tt) [yes] None
    [Jit 5 (fun _ => ret tt); Inlining false 5 6; Rejit 7 0x6000005 (fun _ => fail E_FAIL); Jit 500 (fun _ => ret tt)] one_module).
Proof.
  apply (callbacks_idle sample_info (fun _ => Ok tt) [yes] None); [exact sample_returns| |exact one_module_idle].
  repeat apply Forall_cons_2; try done; intros p s; (split; [done|reflexivity]).
Defined.

(** Releasing a function that the module does not know fails, but leaves a null entry, on
    which the next lookup of that function calls a method. *)
Lemma ReleaseMethodInfo_plants_null mid fid s m :
  modules s !! mid = Some m -> m_methodInfos m !! fid = None ->
  exists s', ReleaseMethodInfo mid fid s = (Err E_FAIL, s') /\ Module_GetMethodInfoById mid fid s' = (Undef NullDeref, s').
Proof.
  intros Hm Hi. eexists. split.
  - unfold ReleaseMethodInfo. rewrite (run_bind _ _ _ _ _ (load_module_run _ _ _ Hm)), Hi.
    rewrite (run_bind _ _ _ _ _ (on_module_run _ _ _ _ Hm)). reflexivity.
  - unfold Module_GetMethodInfoById. erewrite run_bind by (apply load_module_run; cbn [set_module modules]; apply lookup_insert_eq).
    cbn [m_methodInfos]. by rewrite lookup_insert_eq.
Qed.

(** When a method object has leaked, [CreateMethodInfo] replaces it in the module but not
    in the manager, through which the raw profiler's IL maps are set. *)
Lemma CreateMethodInfo_keeps_leaked :
  let twice := CreateMethodInfo sample_info (fun _ => Ok tt) 5 ;;; CreateMethodInfo sample_info (fun _ => Ok tt) 5 in
  let s := (twice one_module).2 in
  (Module_GetMethodInfoById 7 5 s).1 = (twice one_module).1 /\ (Manager_GetMethodInfoById 5 s).1 <> (twice one_module).1.
Proof. split; vm_compute; [reflexivity|discriminate]. Qed.
