(* ===== verification/Registry.v ===== *)
(** The objects of app domains, assemblies and modules ([AppDomainCollection.cpp],
    [AppDomainInfo.cpp], [AssemblyInfo.cpp]) and the callbacks of [ProfilerManager.cpp] that
    create, register and release them. *)
From S2P Require Import Prelude Instruction Enumerator ModuleInfo.

(** ** State *)

(** [CAppDomainInfo] *)
Record CAppDomainInfo := mkAppDomain {
  m_appDomainId : Z;
  m_bIsInitialized : bool;
  m_bIsSystemDomain : bool;
  m_bIsSharedDomain : bool;
  m_bIsDefaultDomain : bool;
  m_bstrAppDomainName : wstr;
  ad_assemblyInfos : gmap Z ptr;
  ad_moduleInfos : gmap Z ptr
}.

(** [CAssemblyInfo] *)
Record CAssemblyInfo := mkAssembly {
  m_assemblyId : Z;
  m_bstrAssemblyName : wstr;
  as_pAppDomainInfo : option ptr;
  m_manifestModuleID : Z;
  m_pManifestModule : option ptr;
  m_tkAssembly : Z;
  m_pPublicKey : option (list Z);
  m_cbPublicKey : Z;
  m_publicKeyTokenInitialized : bool;
  m_bstrPublicKeyToken : wstr;
  as_moduleInfos : gmap Z ptr
}.

(** What instrumentation methods and the raw profiler are told. *)
Inductive Event :=
| OnAppDomainCreated (p : ptr) | OnAppDomainShutdown (p : ptr)
| OnAssemblyLoaded (p : ptr) | OnAssemblyUnloaded (p : ptr)
| OnModuleLoaded (p : ptr) | OnModuleUnloaded (p : ptr)
| AttachComplete.

Inductive RawEvent :=
| Raw_AppDomainCreationStarted (id : Z) | Raw_AppDomainCreationFinished (id : Z) (hrStatus : HRESULT)
| Raw_AppDomainShutdownStarted (id : Z) | Raw_AppDomainShutdownFinished (id : Z) (hrStatus : HRESULT)
| Raw_AssemblyLoadStarted (id : Z) | Raw_AssemblyLoadFinished (id : Z) (hrStatus : HRESULT)
| Raw_AssemblyUnloadStarted (id : Z) | Raw_AssemblyUnloadFinished (id : Z) (hrStatus : HRESULT)
| Raw_ModuleLoadStarted (id : Z) | Raw_ModuleLoadFinished (id : Z) (hrStatus : HRESULT)
| Raw_ModuleUnloadStarted (id : Z) | Raw_ModuleUnloadFinished (id : Z) (hrStatus : HRESULT)
| Raw_ModuleAttachedToAssembly (moduleId assemblyId : Z)
| Raw_ProfilerAttachComplete.

Inductive Notice :=
| ToMethod (im : nat) (e : Event)
| ToRaw (e : RawEvent).

#[export] Instance Event_eq_dec : EqDecision Event.
Proof. solve_decision. Defined.
#[export] Instance RawEvent_eq_dec : EqDecision RawEvent.
Proof. solve_decision. Defined.
#[export] Instance Notice_eq_dec : EqDecision Notice.
Proof. solve_decision. Defined.

(** [CAppDomainCollection::m_appDomains], the objects by pointer, and what was sent. *)
Record Registry := mkRegistry {
  m_appDomains : gmap Z ptr;
  r_domains : gmap ptr CAppDomainInfo;
  r_assemblies : gmap ptr CAssemblyInfo;
  r_modules : gmap ptr CModuleInfo;
  r_notices : list Notice
}.

Notation R := (M Registry).

Definition set_collection (v : gmap Z ptr) (s : Registry) : Registry :=
  mkRegistry v (r_domains s) (r_assemblies s) (r_modules s) (r_notices s).
Definition put_domain (p : ptr) (d : CAppDomainInfo) (s : Registry) : Registry :=
  mkRegistry (m_appDomains s) (<[p := d]> (r_domains s)) (r_assemblies s) (r_modules s) (r_notices s).
Definition put_assembly (p : ptr) (a : CAssemblyInfo) (s : Registry) : Registry :=
  mkRegistry (m_appDomains s) (r_domains s) (<[p := a]> (r_assemblies s)) (r_modules s) (r_notices s).
Definition put_module (p : ptr) (m : CModuleInfo) (s : Registry) : Registry :=
  mkRegistry (m_appDomains s) (r_domains s) (r_assemblies s) (<[p := m]> (r_modules s)) (r_notices s).
Definition notice (n : Notice) (s : Registry) : Registry :=
  mkRegistry (m_appDomains s) (r_domains s) (r_assemblies s) (r_modules s) (r_notices s ++ [n]).

Definition load_domain (p : ptr) : R CAppDomainInfo := fun s => (of_option NullDeref (r_domains s !! p), s).
Definition load_assembly (p : ptr) : R CAssemblyInfo := fun s => (of_option NullDeref (r_assemblies s !! p), s).
Definition load_moduleinfo (p : ptr) : R CModuleInfo := fun s => (of_option NullDeref (r_modules s !! p), s).

Definition alloc_domain (d : CAppDomainInfo) : R ptr := fun s =>
  let p := fresh (dom (r_domains s)) in (Ok p, put_domain p d s).
Definition alloc_assembly (a : CAssemblyInfo) : R ptr := fun s =>
  let p := fresh (dom (r_assemblies s)) in (Ok p, put_assembly p a s).
Definition alloc_module (m : CModuleInfo) : R ptr := fun s =>
  let p := fresh (dom (r_modules s)) in (Ok p, put_module p m s).

Section Objects.
Context `{UnorderedMap}.

(** The constructor of an app domain object. *)
Definition new_domain (id : Z) : CAppDomainInfo := mkAppDomain id false false false false [] ∅ ∅.

Definition set_assemblyInfos (v : gmap Z ptr) (d : CAppDomainInfo) : CAppDomainInfo :=
  mkAppDomain (m_appDomainId d) (m_bIsInitialized d) (m_bIsSystemDomain d) (m_bIsSharedDomain d) (m_bIsDefaultDomain d)
    (m_bstrAppDomainName d) v (ad_moduleInfos d).
Definition set_moduleInfos (v : gmap Z ptr) (d : CAppDomainInfo) : CAppDomainInfo :=
  mkAppDomain (m_appDomainId d) (m_bIsInitialized d) (m_bIsSystemDomain d) (m_bIsSharedDomain d) (m_bIsDefaultDomain d)
    (m_bstrAppDomainName d) (ad_assemblyInfos d) v.
Definition set_names (name : wstr) (d : CAppDomainInfo) : CAppDomainInfo :=
  mkAppDomain (m_appDomainId d) (m_bIsInitialized d) (m_bIsSystemDomain d) (m_bIsSharedDomain d) (m_bIsDefaultDomain d)
    name (ad_assemblyInfos d) (ad_moduleInfos d).

(** [towlower] in the C locale, [_wcsicmp(s, t) == 0] and [wcscmp(s, t) == 0]. *)
Definition lower (c : Z) : Z := if (65 <=? c) && (c <=? 90) then c + 32 else c.
Definition same_ignoring_case (s t : wstr) : bool := bool_decide (map lower s = map lower t).
Definition same_string (s t : wstr) : bool := bool_decide (s = t).

(** The end of [FinishInitialization]: the flags, the first time. *)
Definition classify (d : CAppDomainInfo) : CAppDomainInfo :=
  let name := m_bstrAppDomainName d in
  let shared := same_string (wide "EE Shared Assembly Repository") name in
  let system := same_ignoring_case (wide "mscorlib.dll") name || same_ignoring_case (wide "System.Private.CoreLib.dll") name in
  let default_ := same_string (wide "DefaultDomain") name in
  mkAppDomain (m_appDomainId d) true
    (if shared then m_bIsSystemDomain d else if system then true else m_bIsSystemDomain d)
    (if shared then true else m_bIsSharedDomain d)
    (if shared then m_bIsDefaultDomain d else if system then m_bIsDefaultDomain d else if default_ then true else m_bIsDefaultDomain d)
    name (ad_assemblyInfos d) (ad_moduleInfos d).

(** ** [CAppDomainInfo] *)

(** [FinishInitialization]: the two calls of [ICorProfilerInfo::GetAppDomainInfo] give the
    length of the name, and its length with the name. *)
Definition FinishInitialization (p : ptr) (NameLength : Z -> outcome Z) (Name : Z -> Z -> outcome (Z * wstr)) : R unit :=
  d <- load_domain p ;;
  len <- attempt (lift (NameLength (m_appDomainId d))) ;;
  match len with
  | None => fail E_FAIL
  | Some cchNameLength =>
      if cchNameLength =? 0 then fail E_FAIL else
      r <- attempt (lift (Name (m_appDomainId d) cchNameLength)) ;;
      match r with
      | None => ret tt
      | Some (n, nameBuffer) =>
          if negb (cchNameLength =? n) then ret tt else
          modify (put_domain p (set_names nameBuffer d)) ;;;
          if negb (m_bIsInitialized d) then modify (put_domain p (classify (set_names nameBuffer d))) else ret tt
      end
  end.

(** The getters that need the initialisation. *)
Definition if_initialized {A} (f : CAppDomainInfo -> A) (d : CAppDomainInfo) : outcome A :=
  if m_bIsInitialized d then Ok (f d) else Err E_FAIL.
Definition GetIsSystemDomain : CAppDomainInfo -> outcome bool := if_initialized m_bIsSystemDomain.
Definition GetIsSharedDomain : CAppDomainInfo -> outcome bool := if_initialized m_bIsSharedDomain.
Definition GetIsDefaultDomain : CAppDomainInfo -> outcome bool := if_initialized m_bIsDefaultDomain.
Definition GetName : CAppDomainInfo -> outcome wstr := if_initialized m_bstrAppDomainName.

Definition update_domain (p : ptr) (f : CAppDomainInfo -> CAppDomainInfo) : R unit :=
  d <- load_domain p ;; modify (put_domain p (f d)).

(** [AddAssemblyInfo], [AssemblyInfoUnloaded], [AddModuleInfo], [ModuleInfoUnloaded]. *)
Definition Domain_AddAssemblyInfo (p a : ptr) : R unit :=
  i <- load_assembly a ;;
  update_domain p (fun d => set_assemblyInfos (<[m_assemblyId i := a]> (ad_assemblyInfos d)) d).
Definition Domain_AssemblyInfoUnloaded (p a : ptr) : R unit :=
  i <- load_assembly a ;;
  update_domain p (fun d => set_assemblyInfos (delete (m_assemblyId i) (ad_assemblyInfos d)) d).
Definition Domain_AddModuleInfo (p m : ptr) : R unit :=
  i <- load_moduleinfo m ;;
  update_domain p (fun d => set_moduleInfos (<[m_moduleID i := m]> (ad_moduleInfos d)) d).
Definition Domain_ModuleInfoUnloaded (p m : ptr) : R unit :=
  i <- load_moduleinfo m ;;
  update_domain p (fun d => set_moduleInfos (delete (m_moduleID i) (ad_moduleInfos d)) d).

(** [GetAssemblyIds], [GetModuleIds] *)
Definition GetAssemblyIds (p : ptr) : R (list Z) := d <- load_domain p ;; ret (map fst (items (ad_assemblyInfos d))).
Definition GetModuleIds (p : ptr) : R (list Z) := d <- load_domain p ;; ret (map fst (items (ad_moduleInfos d))).

Definition Domain_GetAssemblyInfoById (assemblyID : Z) (p : ptr) : R ptr :=
  d <- load_domain p ;; if_null_ret (ad_assemblyInfos d !! assemblyID) E_FAIL.
Definition Domain_GetModuleInfoById (moduleId : Z) (p : ptr) : R ptr :=
  d <- load_domain p ;; if_null_ret (ad_moduleInfos d !! moduleId) E_FAIL.

(** An enumerator that is made for a vector. *)
Definition new_enum (l : list ptr) : R (@CEnumerator ptr) :=
  let '(r, e) := Enumerator.Initialize l new_enumerator in _ <- lift r ;; ret e.

Definition GetAssemblies (p : ptr) : R (@CEnumerator ptr) :=
  d <- load_domain p ;; new_enum (map snd (items (ad_assemblyInfos d))).
Definition GetModules (p : ptr) : R (@CEnumerator ptr) :=
  d <- load_domain p ;; new_enum (map snd (items (ad_moduleInfos d))).
Definition GetModuleCount (p : ptr) : R Z := d <- load_domain p ;; ret (u32 (Z.of_nat (size (ad_moduleInfos d)))).

(** The loops that collect the objects that pass a test. *)
Fixpoint collect (test : ptr -> R bool) (l : list (Z * ptr)) : R (list ptr) :=
  match l with
  | [] => ret []
  | (_, p) :: l => b <- test p ;; ps <- collect test l ;; ret (if b : bool then p :: ps else ps)
  end.

Definition has_mvid (mvid : Z) (m : ptr) : R bool := i <- load_moduleinfo m ;; ret (m_mvid i =? mvid).
Definition has_module_name (name : wstr) (m : ptr) : R bool := i <- load_moduleinfo m ;; ret (same_string name (m_bstrModuleName i)).
Definition has_assembly_name (name : wstr) (a : ptr) : R bool := i <- load_assembly a ;; ret (same_string name (m_bstrAssemblyName i)).

Definition Domain_GetModuleInfosByMvid (mvid : Z) (p : ptr) : R (@CEnumerator ptr) :=
  d <- load_domain p ;; l <- collect (has_mvid mvid) (items (ad_moduleInfos d)) ;; new_enum l.
Definition Domain_GetModuleInfosByName (name : wstr) (p : ptr) : R (@CEnumerator ptr) :=
  d <- load_domain p ;; l <- collect (has_module_name name) (items (ad_moduleInfos d)) ;; new_enum l.
Definition GetAssemblyInfosByName (name : wstr) (p : ptr) : R (@CEnumerator ptr) :=
  d <- load_domain p ;; l <- collect (has_assembly_name name) (items (ad_assemblyInfos d)) ;; new_enum l.

(** ** [CAssemblyInfo] *)

(** The constructor and [CAssemblyInfo::Initialize]. *)
Definition new_assembly (id : Z) (name : wstr) (pAppDomainInfo : ptr) (manifestModuleID : Z) : CAssemblyInfo :=
  mkAssembly id name (Some pAppDomainInfo) manifestModuleID None mdTokenNil None 0 false [] ∅.

Definition set_as_modules (v : gmap Z ptr) (a : CAssemblyInfo) : CAssemblyInfo :=
  mkAssembly (m_assemblyId a) (m_bstrAssemblyName a) (as_pAppDomainInfo a) (m_manifestModuleID a) (m_pManifestModule a)
    (m_tkAssembly a) (m_pPublicKey a) (m_cbPublicKey a) (m_publicKeyTokenInitialized a) (m_bstrPublicKeyToken a) v.
Definition set_manifest (m : ptr) (a : CAssemblyInfo) : CAssemblyInfo :=
  mkAssembly (m_assemblyId a) (m_bstrAssemblyName a) (as_pAppDomainInfo a) (m_manifestModuleID a) (Some m)
    (m_tkAssembly a) (m_pPublicKey a) (m_cbPublicKey a) (m_publicKeyTokenInitialized a) (m_bstrPublicKeyToken a) (as_moduleInfos a).
Definition set_token (tk : Z) (a : CAssemblyInfo) : CAssemblyInfo :=
  mkAssembly (m_assemblyId a) (m_bstrAssemblyName a) (as_pAppDomainInfo a) (m_manifestModuleID a) (m_pManifestModule a)
    tk (m_pPublicKey a) (m_cbPublicKey a) (m_publicKeyTokenInitialized a) (m_bstrPublicKeyToken a) (as_moduleInfos a).
Definition set_key (key : option (list Z)) (cb : Z) (a : CAssemblyInfo) : CAssemblyInfo :=
  mkAssembly (m_assemblyId a) (m_bstrAssemblyName a) (as_pAppDomainInfo a) (m_manifestModuleID a) (m_pManifestModule a)
    (m_tkAssembly a) key cb (m_publicKeyTokenInitialized a) (m_bstrPublicKeyToken a) (as_moduleInfos a).
Definition set_publicKeyToken (token : wstr) (a : CAssemblyInfo) : CAssemblyInfo :=
  mkAssembly (m_assemblyId a) (m_bstrAssemblyName a) (as_pAppDomainInfo a) (m_manifestModuleID a) (m_pManifestModule a)
    (m_tkAssembly a) (m_pPublicKey a) (m_cbPublicKey a) true token (as_moduleInfos a).

Definition update_assembly (p : ptr) (f : CAssemblyInfo -> CAssemblyInfo) : R unit :=
  a <- load_assembly p ;; modify (put_assembly p (f a)).

(** [swprintf_s(pos, 3, L"%02X", byte)] *)
Definition hex_digit (d : Z) : Z := if d <? 10 then 48 + d else 55 + d.
Definition print_02X (byte : Z) : wstr := [hex_digit (byte / 16); hex_digit (byte mod 16)].

(** The loop of [InitializePublicKeyToken], for [room] more characters. *)
Fixpoint print_token (room : nat) (bytes : list Z) : wstr :=
  match bytes, room with
  | b :: bytes, S (S room) => print_02X b ++ print_token room bytes
  | _, _ => []
  end.

(** The exports of the runtime for strong names; the first is the function
    [StrongNameTokenFromPublicKey] when it is found. *)
Record StrongName := mkStrongName {
  StrongNameTokenFromPublicKey : option (list Z -> Z -> option (list Z));
  has_StrongNameFreeBuffer : bool
}.

(** [InitializePublicKeyToken] on Windows *)
Definition InitializePublicKeyToken (sn : StrongName) (p : ptr) : R unit :=
  a <- load_assembly p ;;
  if m_publicKeyTokenInitialized a then ret tt else
  update_assembly p (fun a => set_publicKeyToken (m_bstrPublicKeyToken a) a) ;;;
  match m_pPublicKey a with
  | None => ret tt
  | Some key =>
      if m_cbPublicKey a =? 0 then ret tt else
      match StrongNameTokenFromPublicKey sn with
      | None => fail E_FAIL
      | Some f =>
          if negb (has_StrongNameFreeBuffer sn) then fail E_FAIL else
          match f key (m_cbPublicKey a) with
          | None => fail E_FAIL
          | Some token => update_assembly p (set_publicKeyToken (print_token 16 token))
          end
      end
  end.

(** What the metadata of the manifest module, the runtime and its exports answer. *)
Record AssemblyMetadata := mkAssemblyMetadata {
  GetAssemblyFromScope : Z -> outcome Z;
  GetAssemblyProps : Z -> Z -> outcome (option (list Z) * Z);
  is_core_clr : outcome bool;
  strong_name : StrongName
}.

(** [HandleManifestModuleLoad] *)
Definition HandleManifestModuleLoad (meta : AssemblyMetadata) (p : ptr) : R unit :=
  a <- load_assembly p ;;
  match m_pManifestModule a with
  | None => fail E_FAIL
  | Some m =>
      i <- load_moduleinfo m ;;
      tk <- lift (GetAssemblyFromScope meta (m_moduleID i)) ;;
      update_assembly p (set_token tk) ;;;
      props <- lift (GetAssemblyProps meta (m_moduleID i) tk) ;;
      update_assembly p (set_key (fst props) (snd props)) ;;;
      core <- attempt (lift (is_core_clr meta)) ;;
      if default false core then ret tt else InitializePublicKeyToken (strong_name meta) p
  end.

(** [CAssemblyInfo::AddModuleInfo] and [ModuleInfoUnloaded] *)
Definition Assembly_AddModuleInfo (meta : AssemblyMetadata) (p m : ptr) : R unit :=
  i <- load_moduleinfo m ;;
  update_assembly p (fun a => set_as_modules (<[m_moduleID i := m]> (as_moduleInfos a)) a) ;;;
  a <- load_assembly p ;;
  if m_moduleID i =? m_manifestModuleID a then
    update_assembly p (set_manifest m) ;;; HandleManifestModuleLoad meta p
  else ret tt.
Definition Assembly_ModuleInfoUnloaded (p m : ptr) : R unit :=
  i <- load_moduleinfo m ;;
  update_assembly p (fun a => set_as_modules (delete (m_moduleID i) (as_moduleInfos a)) a).

Definition Assembly_GetModuleById (moduleId : Z) (p : ptr) : R ptr :=
  a <- load_assembly p ;; if_null_ret (as_moduleInfos a !! moduleId) E_FAIL.
Definition Assembly_GetModules (p : ptr) : R (@CEnumerator ptr) :=
  a <- load_assembly p ;; new_enum (map snd (items (as_moduleInfos a))).

(** [GetModuleByMvid] and [GetModulesByName]: the enumerator is filled and released; the
    out parameter keeps the null it got at the start. *)
Definition Assembly_GetModuleByMvid (mvid : Z) (p : ptr) : R (option (@CEnumerator ptr)) :=
  a <- load_assembly p ;; l <- collect (has_mvid mvid) (items (as_moduleInfos a)) ;; _ <- new_enum l ;; ret None.
Definition Assembly_GetModulesByName (name : wstr) (p : ptr) : R (option (@CEnumerator ptr)) :=
  a <- load_assembly p ;; l <- collect (has_module_name name) (items (as_moduleInfos a)) ;; _ <- new_enum l ;; ret None.

Definition GetManifestModule (a : CAssemblyInfo) : outcome ptr :=
  match m_pManifestModule a with None => Err E_FAIL | Some m => Ok m end.
Definition GetPublicKeyToken (a : CAssemblyInfo) : outcome wstr :=
  if m_publicKeyTokenInitialized a then Ok (m_bstrPublicKeyToken a) else Err E_FAIL.
Definition GetMetaDataToken (a : CAssemblyInfo) : outcome Z :=
  if m_tkAssembly a =? mdTokenNil then Err E_FAIL else Ok (m_tkAssembly a).

(** ** [CAppDomainCollection] *)

Definition OnShutdown : R unit := modify (set_collection ∅).

Definition AddAppDomainInfo (appDomainId : Z) (p : ptr) : R unit :=
  modify (fun s => set_collection (<[appDomainId := p]> (m_appDomains s)) s).

Definition GetAppDomainCount : R Z := s <- gets id ;; ret (u32 (Z.of_nat (size (m_appDomains s)))).

Definition GetAppDomainById (appDomainId : Z) : R ptr := s <- gets id ;; if_null_ret (m_appDomains s !! appDomainId) E_FAIL.

Definition RemoveAppDomainInfo (appDomainId : Z) : R unit :=
  s <- gets id ;;
  _ <- if_null_ret (m_appDomains s !! appDomainId) E_FAIL ;;
  modify (set_collection (delete appDomainId (m_appDomains s))).

(** [memset(p, 0, bytes)] on an array of 8-byte elements. *)
Fixpoint memset0 (bytes : Z) (l : list Z) : list Z :=
  match l with
  | [] => []
  | x :: l => (if 8 <=? bytes then 0 else if 0 <? bytes then x - x mod 256 ^ bytes else x) :: memset0 (bytes - 8) l
  end.

(** The loop that writes the ids from index [i] on. *)
Fixpoint write_ids (ids : list Z) (i : Z) (buf : list Z) : outcome (list Z) :=
  match ids with
  | [] => Ok buf
  | id :: ids => buf <~ of_option OutOfBoundsWrite (write_at buf i [id]) ;; write_ids ids (i + 1) buf
  end.

(** [GetAppDomainIDs] with a buffer of [cAppDomains] elements: the buffer and
    [*pcActual]. *)
Definition GetAppDomainIDs (cAppDomains : Z) (pAppDomainIDs : list Z) : R (list Z * Z) :=
  s <- gets id ;;
  let buf := memset0 cAppDomains pAppDomainIDs in
  if Z.of_nat (size (m_appDomains s)) <=? cAppDomains then fail E_FAIL else
  buf <- lift (write_ids (map fst (items (m_appDomains s))) 0 buf) ;;
  ret (buf, Z.of_nat (size (m_appDomains s))).

Definition GetAppDomains : R (@CEnumerator ptr) := s <- gets id ;; new_enum (map snd (items (m_appDomains s))).

(** The loops over the app domains that stop at the first success. *)
Fixpoint first_success (f : ptr -> R ptr) (l : list (Z * ptr)) : R ptr :=
  match l with
  | [] => fail E_FAIL
  | (_, p) :: l => r <- attempt (f p) ;; match r with Some x => ret x | None => first_success f l end
  end.

Definition GetAssemblyInfoById (assemblyID : Z) : R ptr :=
  s <- gets id ;; first_success (Domain_GetAssemblyInfoById assemblyID) (items (m_appDomains s)).
Definition GetModuleInfoById (moduleID : Z) : R ptr :=
  s <- gets id ;; first_success (Domain_GetModuleInfoById moduleID) (items (m_appDomains s)).

(** The inner loop of [GetModuleInfosByMvid]: [Next(1)] until it gives nothing. *)
Fixpoint drain_nulls (fuel : nat) : M (@CEnumerator ptr) (list ptr) :=
  match fuel with
  | O => out_of_fuel
  | S fuel =>
      r <- Next 1 ;;
      match fst r with [] => ret [] | x :: _ => xs <- drain_nulls fuel ;; ret (x :: xs) end
  end.

Fixpoint mvid_loop (mvid : Z) (l : list (Z * ptr)) : R (list ptr) :=
  match l with
  | [] => ret []
  | (_, p) :: l =>
      r <- attempt (Domain_GetModuleInfosByMvid mvid p) ;;
      xs <- (match r with
             | None => ret []
             | Some e => lift (fst (drain_nulls (S (length (m_members e))) e))
             end) ;;
      ys <- mvid_loop mvid l ;;
      ret (xs ++ ys)
  end.

(** [CAppDomainCollection::GetModuleInfosByMvid] *)
Definition GetModuleInfosByMvid (mvid : Z) : R (@CEnumerator ptr) :=
  s <- gets id ;; l <- mvid_loop mvid (items (m_appDomains s)) ;; new_enum l.

End Objects.

(** ** [CProfilerManager] *)

(** What the runtime answers about the objects with an id. *)
Record Runtime := mkRuntime {
  rt_version : Z;
  AppDomainNameLength : Z -> outcome Z;
  AppDomainName : Z -> Z -> outcome (Z * wstr);
  GetAssemblyInfo : Z -> outcome (wstr * Z * Z);
  GetModuleInfo : Z -> outcome (option (list Z) * wstr * Z);
  (** [GetModuleMetaData]: [None] is a failure or [S_FALSE], else whether the pointer is set *)
  AssemblyImport : Z -> option bool;
  MetaDataImport : Z -> outcome bool;
  MetaDataEmit : Z -> bool;
  AssemblyEmit : Z -> bool;
  GetScopeProps : Z -> outcome Z;
  GetModuleInfo2 : Z -> outcome Z;
  EnumModules : outcome (list Z);
  rt_metadata : AssemblyMetadata;
  rt_system : System
}.

Section Manager.
Context `{UnorderedMap} (rt : Runtime).

(** The instrumentation methods in the order of their priority, by what they answer to an
    event, and whether there is a raw profiler. *)
Context (methods : list (Event -> HRESULT)) (has_raw : bool).

Definition net20 : bool := rt_version rt =? ClrVersion_2.

(** [SendEventToInstrumentationMethods]: everybody is told, the code is that of the last. *)
Fixpoint send_loop (im : nat) (ms : list (Event -> HRESULT)) (e : Event) (hr : HRESULT) : R HRESULT :=
  match ms with
  | [] => ret hr
  | f :: ms => modify (notice (ToMethod im e)) ;;; send_loop (S im) ms e (f e)
  end.
Definition SendEventToInstrumentationMethods (e : Event) : R HRESULT := send_loop 0 methods e S_OK.

(** [IfFailRet(SendEventToInstrumentationMethods(..))] *)
Definition send_or_fail (e : Event) : R unit := hr <- SendEventToInstrumentationMethods e ;; if_fail_ret hr.

(** [SendEventToRawProfilerCallback]: the result of the raw profiler is dropped. *)
Definition SendEventToRaw (e : RawEvent) : R unit := if has_raw then modify (notice (ToRaw e)) else ret tt.

Definition ConstructAppDomainInfo (appDomainId : Z) : R ptr :=
  p <- alloc_domain (new_domain appDomainId) ;;
  AddAppDomainInfo appDomainId p ;;;
  ret p.

(** The domain with an id, made when it is not known yet. *)
Definition find_or_construct_domain (appDomainId : Z) : R ptr :=
  r <- attempt (GetAppDomainById appDomainId) ;;
  match r with Some p => ret p | None => ConstructAppDomainInfo appDomainId end.

Definition ConstructAssemblyInfo (assemblyId : Z) : R ptr :=
  _ <- lift (GetAssemblyInfo rt assemblyId) ;;
  info <- lift (GetAssemblyInfo rt assemblyId) ;;
  let '(name, appDomainID, manifestModuleID) := info in
  pAppDomainInfo <- GetAppDomainById appDomainID ;;
  p <- alloc_assembly (new_assembly assemblyId name pAppDomainInfo manifestModuleID) ;;
  Domain_AddAssemblyInfo pAppDomainInfo p ;;;
  ret p.

Definition find_or_construct_assembly (assemblyId : Z) : R ptr :=
  r <- attempt (GetAssemblyInfoById assemblyId) ;;
  match r with Some p => ret p | None => ConstructAssemblyInfo assemblyId end.

(** [ConstructModuleInfo]; a module object whose initialisation fails is freed. *)
Definition ConstructModuleInfo (moduleId : Z) : R ptr :=
  _ <- lift (GetModuleInfo rt moduleId) ;;
  info <- lift (GetModuleInfo rt moduleId) ;;
  let '(base, path, assemblyId) := info in
  pMetadataAssemblyImport <- if_null_ret (AssemblyImport rt moduleId) E_FAIL ;;
  pMetadataImport <- lift (MetaDataImport rt moduleId) ;;
  a <- lift (GetAssemblyInfo rt assemblyId) ;;
  let '(_, appdomainId, _) := a in
  pAppDomainInfo <- find_or_construct_domain appdomainId ;;
  pAssemblyInfo <- find_or_construct_assembly assemblyId ;;
  i <- lift (ModuleInfo.Initialize (rt_system rt) (rt_version rt) moduleId path (Some pAssemblyInfo) (Some pAppDomainInfo)
         base pMetadataImport pMetadataAssemblyImport (MetaDataEmit rt moduleId) (AssemblyEmit rt moduleId)
         (GetScopeProps rt moduleId) (GetModuleInfo2 rt moduleId)) ;;
  p <- alloc_module i ;;
  Domain_AddModuleInfo pAppDomainInfo p ;;;
  Assembly_AddModuleInfo (rt_metadata rt) pAssemblyInfo p ;;;
  ret p.

(** ** The callbacks *)

Definition AppDomainCreationStarted (appDomainId : Z) : R unit :=
  (if net20 then ret tt else _ <- find_or_construct_domain appDomainId ;; ret tt) ;;;
  SendEventToRaw (Raw_AppDomainCreationStarted appDomainId).

Definition AppDomainCreationFinished (appDomainId : Z) (hrStatus : HRESULT) : R unit :=
  if net20 then SendEventToRaw (Raw_AppDomainCreationFinished appDomainId hrStatus) else
  if FAILED hrStatus then ret tt else
  p <- GetAppDomainById appDomainId ;;
  FinishInitialization p (AppDomainNameLength rt) (AppDomainName rt) ;;;
  _ <- SendEventToInstrumentationMethods (OnAppDomainCreated p) ;;
  SendEventToRaw (Raw_AppDomainCreationFinished appDomainId hrStatus).

Definition AppDomainShutdownStarted (appDomainId : Z) : R unit := SendEventToRaw (Raw_AppDomainShutdownStarted appDomainId).

Definition ModuleUnloadStartedImpl (moduleId : Z) : R unit :=
  if net20 then SendEventToRaw (Raw_ModuleUnloadStarted moduleId) else
  r <- attempt (GetModuleInfoById moduleId) ;;
  match r with None => ret tt | Some _ => SendEventToRaw (Raw_ModuleUnloadStarted moduleId) end.

Definition update_moduleinfo (p : ptr) (f : CModuleInfo -> CModuleInfo) : R unit :=
  m <- load_moduleinfo p ;; modify (put_module p (f m)).

Definition ModuleUnloadFinishedImpl (moduleId : Z) (hrStatus : HRESULT) : R unit :=
  if net20 then SendEventToRaw (Raw_ModuleUnloadFinished moduleId hrStatus) else
  r <- attempt (GetModuleInfoById moduleId) ;;
  match r with
  | None => ret tt
  | Some m =>
      send_or_fail (OnModuleUnloaded m) ;;;
      SendEventToRaw (Raw_ModuleUnloadFinished moduleId hrStatus) ;;;
      i <- load_moduleinfo m ;;
      d <- deref (m_pAppDomainInfo i) ;;
      a <- deref (m_pAssemblyInfo i) ;;
      Assembly_ModuleInfoUnloaded a m ;;;
      Domain_ModuleInfoUnloaded d m ;;;
      update_moduleinfo m Dispose
  end.

Definition AssemblyUnloadStartedImpl (assemblyId : Z) : R unit :=
  if net20 then SendEventToRaw (Raw_AssemblyUnloadStarted assemblyId) else
  r <- attempt (GetAssemblyInfoById assemblyId) ;;
  match r with None => ret tt | Some _ => SendEventToRaw (Raw_AssemblyUnloadStarted assemblyId) end.

Definition AssemblyUnloadFinishedImpl (assemblyId : Z) (hrStatus : HRESULT) : R unit :=
  if net20 then SendEventToRaw (Raw_AssemblyUnloadFinished assemblyId hrStatus) else
  r <- attempt (GetAssemblyInfoById assemblyId) ;;
  match r with
  | None => ret tt
  | Some a =>
      i <- load_assembly a ;;
      d <- deref (as_pAppDomainInfo i) ;;
      Domain_AssemblyInfoUnloaded d a ;;;
      send_or_fail (OnAssemblyUnloaded a) ;;;
      SendEventToRaw (Raw_AssemblyUnloadFinished assemblyId hrStatus)
  end.

Definition SendFabricatedModuleUnloads (p : ptr) : R unit :=
  ids <- GetModuleIds p ;;
  for_each (fun moduleId => ModuleUnloadStartedImpl moduleId ;;; ModuleUnloadFinishedImpl moduleId S_OK) ids.

Definition SendFabricatedAssemblyUnloads (p : ptr) : R unit :=
  ids <- GetAssemblyIds p ;;
  for_each (fun assemblyId => AssemblyUnloadStartedImpl assemblyId ;;; AssemblyUnloadFinishedImpl assemblyId S_OK) ids.

(** The results of the fabricated unloads are dropped. *)
Definition AppDomainShutdownFinished (appDomainId : Z) (hrStatus : HRESULT) : R unit :=
  (if net20 then ret tt else
   p <- GetAppDomainById appDomainId ;;
   _ <- attempt (SendFabricatedModuleUnloads p) ;;
   _ <- attempt (SendFabricatedAssemblyUnloads p) ;;
   send_or_fail (OnAppDomainShutdown p) ;;;
   RemoveAppDomainInfo appDomainId) ;;;
  SendEventToRaw (Raw_AppDomainShutdownFinished appDomainId hrStatus).

Definition AssemblyLoadStarted (assemblyId : Z) : R unit := SendEventToRaw (Raw_AssemblyLoadStarted assemblyId).

Definition AssemblyLoadFinished (assemblyId : Z) (hrStatus : HRESULT) : R unit :=
  (if net20 then ret tt else
   p <- find_or_construct_assembly assemblyId ;;
   send_or_fail (OnAssemblyLoaded p)) ;;;
  SendEventToRaw (Raw_AssemblyLoadFinished assemblyId hrStatus).

Definition AssemblyUnloadStarted (assemblyId : Z) : R unit := AssemblyUnloadStartedImpl assemblyId.
Definition AssemblyUnloadFinished (assemblyId : Z) (hrStatus : HRESULT) : R unit := AssemblyUnloadFinishedImpl assemblyId hrStatus.
Definition ModuleLoadStarted (moduleId : Z) : R unit := SendEventToRaw (Raw_ModuleLoadStarted moduleId).
Definition ModuleLoadFinished (moduleId : Z) (hrStatus : HRESULT) : R unit := SendEventToRaw (Raw_ModuleLoadFinished moduleId hrStatus).
Definition ModuleUnloadStarted (moduleId : Z) : R unit := ModuleUnloadStartedImpl moduleId.
Definition ModuleUnloadFinished (moduleId : Z) (hrStatus : HRESULT) : R unit := ModuleUnloadFinishedImpl moduleId hrStatus.

Definition ModuleAttachedToAssembly (moduleId assemblyId : Z) : R unit :=
  (if net20 then ret tt else
   r <- attempt (ConstructModuleInfo moduleId) ;;
   match r with None => ret tt | Some p => send_or_fail (OnModuleLoaded p) end) ;;;
  SendEventToRaw (Raw_ModuleAttachedToAssembly moduleId assemblyId).

(** [ProfilerAttachComplete]; the enumerator of the runtime gives the modules one by one. *)
Definition ProfilerAttachComplete : R unit :=
  moduleIds <- lift (EnumModules rt) ;;
  for_each (fun id => _ <- ConstructModuleInfo id ;; ret tt) moduleIds ;;;
  send_or_fail AttachComplete ;;;
  SendEventToRaw Raw_ProfilerAttachComplete.

(** The callbacks of the runtime as data. *)
Inductive Callback :=
| C_AppDomainCreationStarted (id : Z) | C_AppDomainCreationFinished (id : Z) (hr : HRESULT)
| C_AppDomainShutdownStarted (id : Z) | C_AppDomainShutdownFinished (id : Z) (hr : HRESULT)
| C_AssemblyLoadStarted (id : Z) | C_AssemblyLoadFinished (id : Z) (hr : HRESULT)
| C_AssemblyUnloadStarted (id : Z) | C_AssemblyUnloadFinished (id : Z) (hr : HRESULT)
| C_ModuleLoadStarted (id : Z) | C_ModuleLoadFinished (id : Z) (hr : HRESULT)
| C_ModuleUnloadStarted (id : Z) | C_ModuleUnloadFinished (id : Z) (hr : HRESULT)
| C_ModuleAttachedToAssembly (id assemblyId : Z)
| C_ProfilerAttachComplete.

Definition callback (c : Callback) : R unit :=
  match c with
  | C_AppDomainCreationStarted id => AppDomainCreationStarted id
  | C_AppDomainCreationFinished id hr => AppDomainCreationFinished id hr
  | C_AppDomainShutdownStarted id => AppDomainShutdownStarted id
  | C_AppDomainShutdownFinished id hr => AppDomainShutdownFinished id hr
  | C_AssemblyLoadStarted id => AssemblyLoadStarted id
  | C_AssemblyLoadFinished id hr => AssemblyLoadFinished id hr
  | C_AssemblyUnloadStarted id => AssemblyUnloadStarted id
  | C_AssemblyUnloadFinished id hr => AssemblyUnloadFinished id hr
  | C_ModuleLoadStarted id => ModuleLoadStarted id
  | C_ModuleLoadFinished id hr => ModuleLoadFinished id hr
  | C_ModuleUnloadStarted id => ModuleUnloadStarted id
  | C_ModuleUnloadFinished id hr => ModuleUnloadFinished id hr
  | C_ModuleAttachedToAssembly id aid => ModuleAttachedToAssembly id aid
  | C_ProfilerAttachComplete => ProfilerAttachComplete
  end.

Definition callbacks (cs : list Callback) (s : Registry) : Registry := foldl (fun s c => (callback c s).2) s cs.

End Manager.

Definition empty_registry : Registry := mkRegistry ∅ ∅ ∅ ∅ [].
