(* ===== verification/RegistryCore.v ===== *)
(** The theory of the registry of app domains, assemblies and modules: the invariant that
    every callback preserves, what loads and unloads do to the lookups, and that the
    shutdown of an app domain leaves no cycle of references. *)
From S2P Require Import Prelude Instruction Enumerator ModuleInfo Registry.

(** ** The part of the state that the collections are about *)

Record Core := mkCore {
  c_domains : gmap Z ptr;
  c_domain : gmap ptr (Z * gmap Z ptr * gmap Z ptr);
  c_assembly : gmap ptr (Z * option ptr * gmap Z ptr);
  c_module : gmap ptr (Z * option ptr * option ptr)
}.

Definition core_domain (d : CAppDomainInfo) := (m_appDomainId d, ad_assemblyInfos d, ad_moduleInfos d).
Definition core_assembly (a : CAssemblyInfo) := (m_assemblyId a, as_pAppDomainInfo a, as_moduleInfos a).
Definition core_module (m : CModuleInfo) := (m_moduleID m, m_pAppDomainInfo m, m_pAssemblyInfo m).

Definition core (s : Registry) : Core :=
  mkCore (m_appDomains s) (core_domain <$> r_domains s) (core_assembly <$> r_assemblies s) (core_module <$> r_modules s).

(** The app domain [p] is registered under [id], with these collections. *)
Definition domain_at (c : Core) (id : Z) (p : ptr) (asms mods : gmap Z ptr) : Prop :=
  c_domains c !! id = Some p /\ c_domain c !! p = Some (id, asms, mods).

(** ** The invariant

    [asm_domain aid] and [mod_asm mid] are the app domain of an assembly and the assembly
    of a module, as the runtime answers. *)
Section Invariant.
Context (asm_domain mod_asm : Z -> option Z).

(** An assembly object of the app domain [p]. *)
Definition assembly_ok (c : Core) (id : Z) (p : ptr) (aid : Z) (a : ptr) : Prop :=
  exists mods, c_assembly c !! a = Some (aid, Some p, mods) /\ asm_domain aid = Some id.

(** A module object of the app domain [p], in the collection of its assembly. *)
Definition module_ok (c : Core) (id : Z) (p : ptr) (mid : Z) (m : ptr) : Prop :=
  exists a aid mods, c_module c !! m = Some (mid, Some p, Some a) /\
    c_assembly c !! a = Some (aid, Some p, mods) /\ mods !! mid = Some m /\
    mod_asm mid = Some aid /\ asm_domain aid = Some id.

Record CoreInv (c : Core) : Prop := {
  (** an app domain is registered under its id *)
  inv_domain : forall id p, c_domains c !! id = Some p -> exists asms mods, c_domain c !! p = Some (id, asms, mods);
  inv_assembly : forall id p asms mods aid a, domain_at c id p asms mods -> asms !! aid = Some a -> assembly_ok c id p aid a;
  inv_module : forall id p asms mods mid m, domain_at c id p asms mods -> mods !! mid = Some m -> module_ok c id p mid m;
  (** a module of a registered assembly is registered in the app domain *)
  inv_contained : forall id p asms mods aid a amods mid m,
    domain_at c id p asms mods -> asms !! aid = Some a -> c_assembly c !! a = Some (aid, Some p, amods) ->
    amods !! mid = Some m -> mods !! mid = Some m /\ c_module c !! m = Some (mid, Some p, Some a)
}.

Lemma domain_at_fun c id p asms mods p' asms' mods' :
  domain_at c id p asms mods -> domain_at c id p' asms' mods' -> p = p' /\ asms = asms' /\ mods = mods'.
Proof. intros [H1 H2] [H3 H4]. rewrite H1 in H3. injection H3 as <-. rewrite H2 in H4. by injection H4 as <- <-. Qed.

Lemma domain_at_id c id id' p asms mods asms' mods' :
  domain_at c id p asms mods -> domain_at c id' p asms' mods' -> id = id' /\ asms = asms' /\ mods = mods'.
Proof. intros [H1 H2] [H3 H4]. rewrite H2 in H4. by injection H4 as <- <- <-. Qed.

(** *** The steps that change the collections *)

Definition add_domain (id : Z) (p : ptr) (c : Core) : Core :=
  mkCore (<[id := p]> (c_domains c)) (<[p := (id, ∅, ∅)]> (c_domain c)) (c_assembly c) (c_module c).

Definition add_assembly (id : Z) (p : ptr) (asms mods : gmap Z ptr) (aid : Z) (a : ptr) (c : Core) : Core :=
  mkCore (c_domains c) (<[p := (id, <[aid := a]> asms, mods)]> (c_domain c)) (<[a := (aid, Some p, ∅)]> (c_assembly c)) (c_module c).

Definition add_module (id : Z) (p : ptr) (asms mods : gmap Z ptr) (aid : Z) (a : ptr) (amods : gmap Z ptr) (mid : Z) (m : ptr) (c : Core) : Core :=
  mkCore (c_domains c) (<[p := (id, asms, <[mid := m]> mods)]> (c_domain c))
    (<[a := (aid, Some p, <[mid := m]> amods)]> (c_assembly c)) (<[m := (mid, Some p, Some a)]> (c_module c)).

Definition remove_module (id : Z) (p : ptr) (asms mods : gmap Z ptr) (aid : Z) (a : ptr) (amods : gmap Z ptr) (mid : Z) (m : ptr) (c : Core) : Core :=
  mkCore (c_domains c) (<[p := (id, asms, delete mid mods)]> (c_domain c))
    (<[a := (aid, Some p, delete mid amods)]> (c_assembly c)) (<[m := (mid, None, None)]> (c_module c)).

Definition remove_assembly (id : Z) (p : ptr) (asms mods : gmap Z ptr) (aid : Z) (c : Core) : Core :=
  mkCore (c_domains c) (<[p := (id, delete aid asms, mods)]> (c_domain c)) (c_assembly c) (c_module c).

Definition remove_domain (id : Z) (c : Core) : Core :=
  mkCore (delete id (c_domains c)) (c_domain c) (c_assembly c) (c_module c).

(** The registered app domains after a change of the one at [p]. *)
Lemma domain_at_set c id p asms mods asms' mods' A B id1 p1 asms1 mods1 :
  domain_at c id p asms mods ->
  domain_at (mkCore (c_domains c) (<[p := (id, asms', mods')]> (c_domain c)) A B) id1 p1 asms1 mods1 ->
  (id1 = id /\ p1 = p /\ asms1 = asms' /\ mods1 = mods') \/ (id1 <> id /\ p1 <> p /\ domain_at c id1 p1 asms1 mods1).
Proof.
  intros [H1 H2] [H3 H4]. cbn [c_domains c_domain] in *. destruct (decide (p1 = p)) as [->|Hp].
  - rewrite lookup_insert_eq in H4. injection H4 as <- <- <-. by left.
  - rewrite lookup_insert_ne in H4 by done. right. split_and!; [congruence|done|by split].
Qed.

Lemma add_domain_inv c id p :
  CoreInv c -> c_domains c !! id = None -> c_domain c !! p = None -> CoreInv (add_domain id p c).
Proof.
  intros [I1 I2 I3 I4] Hid Hp.
  assert (forall id1 p1 asms mods, domain_at (add_domain id p c) id1 p1 asms mods ->
            (id1 = id /\ p1 = p /\ asms = ∅ /\ mods = ∅) \/ domain_at c id1 p1 asms mods) as Hdom.
  { intros id1 p1 asms mods [H1 H2]. cbn [add_domain c_domains c_domain] in *.
    destruct (decide (id1 = id)) as [->|].
    - rewrite lookup_insert_eq in H1. injection H1 as <-. rewrite lookup_insert_eq in H2. injection H2 as <- <-. by left.
    - rewrite lookup_insert_ne in H1 by done. right. split; [done|].
      destruct (I1 _ _ H1) as (? & ? & E). rewrite lookup_insert_ne in H2; [done|]. congruence. }
  split.
  - intros id1 p1 H1. cbn [add_domain c_domains c_domain] in *. destruct (decide (id1 = id)) as [->|].
    + rewrite lookup_insert_eq in H1. injection H1 as <-. rewrite lookup_insert_eq. eauto.
    + rewrite lookup_insert_ne in H1 by done. destruct (I1 _ _ H1) as (? & ? & E). rewrite lookup_insert_ne by congruence. eauto.
  - intros id1 p1 asms mods aid a [(-> & -> & -> & ->)|Hd]%Hdom Ha; [by rewrite lookup_empty in Ha|exact (I2 _ _ _ _ _ _ Hd Ha)].
  - intros id1 p1 asms mods mid m [(-> & -> & -> & ->)|Hd]%Hdom Ha; [by rewrite lookup_empty in Ha|exact (I3 _ _ _ _ _ _ Hd Ha)].
  - intros id1 p1 asms mods aid a amods mid m [(-> & -> & -> & ->)|Hd]%Hdom Ha; [by rewrite lookup_empty in Ha|].
    exact (I4 _ _ _ _ _ _ _ _ _ Hd Ha).
Qed.

(** A change of one registered app domain keeps the first clause. *)
Lemma inv_domain_set c id p asms mods asms' mods' A B id1 p1 :
  CoreInv c -> domain_at c id p asms mods -> c_domains c !! id1 = Some p1 ->
  exists asms1 mods1, c_domain (mkCore (c_domains c) (<[p := (id, asms', mods')]> (c_domain c)) A B) !! p1 = Some (id1, asms1, mods1).
Proof.
  intros [I1 _ _ _] [H1 H2] H3. cbn [c_domain]. destruct (decide (p1 = p)) as [->|].
  - rewrite lookup_insert_eq. destruct (I1 _ _ H3) as (? & ? & E). rewrite H2 in E. injection E as <- <- <-. eauto.
  - rewrite lookup_insert_ne by done. eauto.
Qed.

Lemma add_assembly_inv c id p asms mods aid a :
  CoreInv c -> domain_at c id p asms mods -> asm_domain aid = Some id -> c_assembly c !! a = None ->
  CoreInv (add_assembly id p asms mods aid a c).
Proof.
  intros Hinv Hd Haid Ha. pose proof Hinv as [I1 I2 I3 I4].
  assert (forall b x, c_assembly c !! b = Some x -> c_assembly (add_assembly id p asms mods aid a c) !! b = Some x) as Hkeep.
  { intros b x Hb. cbn. rewrite lookup_insert_ne; [done|]. congruence. }
  split.
  - intros id1 p1 H1. by apply (inv_domain_set c _ _ asms mods).
  - intros id1 p1 asms1 mods1 aid1 a1 [(-> & -> & -> & ->)|(_ & _ & Hd1)]%(domain_at_set _ _ _ _ _ _ _ _ _ _ _ _ _ Hd) Ha1.
    + destruct (decide (aid1 = aid)) as [->|].
      * rewrite lookup_insert_eq in Ha1. injection Ha1 as <-. exists ∅. split; [apply lookup_insert_eq|done].
      * rewrite lookup_insert_ne in Ha1 by done. destruct (I2 _ _ _ _ _ _ Hd Ha1) as (k & E1 & E2). exists k. eauto.
    + destruct (I2 _ _ _ _ _ _ Hd1 Ha1) as (k & E1 & E2). exists k. eauto.
  - intros id1 p1 asms1 mods1 mid m Hd1 Hm.
    assert (module_ok c id1 p1 mid m) as (b & bid & k & ? & ? & ? & ? & ?).
    { apply (domain_at_set _ _ _ _ _ _ _ _ _ _ _ _ _ Hd) in Hd1 as [(-> & -> & -> & ->)|(_ & _ & Hd1)]; eauto. }
    exists b, bid, k. split_and!; eauto.
  - intros id1 p1 asms1 mods1 aid1 a1 amods mid m Hd1 Ha1 Hc1 Hm. cbn [add_assembly c_assembly] in Hc1.
    destruct (decide (a1 = a)) as [->|Hne].
    { rewrite lookup_insert_eq in Hc1. injection Hc1 as <- <- <-. by rewrite lookup_empty in Hm. }
    rewrite lookup_insert_ne in Hc1 by done.
    apply (domain_at_set _ _ _ _ _ _ _ _ _ _ _ _ _ Hd) in Hd1 as [(-> & -> & -> & ->)|(_ & _ & Hd1)].
    + destruct (decide (aid1 = aid)) as [->|]; [rewrite lookup_insert_eq in Ha1; congruence|].
      rewrite lookup_insert_ne in Ha1 by done. exact (I4 _ _ _ _ _ _ _ _ _ Hd Ha1 Hc1 Hm).
    + exact (I4 _ _ _ _ _ _ _ _ _ Hd1 Ha1 Hc1 Hm).
Qed.

Lemma contained_asm c id p asms mods aid a amods mid m :
  CoreInv c -> domain_at c id p asms mods -> asms !! aid = Some a -> c_assembly c !! a = Some (aid, Some p, amods) ->
  amods !! mid = Some m -> mod_asm mid = Some aid.
Proof.
  intros [I1 I2 I3 I4] Hd Ha Hc Hm. destruct (I4 _ _ _ _ _ _ _ _ _ Hd Ha Hc Hm) as [Hm' Hc'].
  destruct (I3 _ _ _ _ _ _ Hd Hm') as (a' & aid' & k & E1 & E2 & _ & E3 & _). congruence.
Qed.

Lemma add_module_inv c id p asms mods aid a amods mid m :
  CoreInv c -> domain_at c id p asms mods -> asms !! aid = Some a -> c_assembly c !! a = Some (aid, Some p, amods) ->
  mod_asm mid = Some aid -> asm_domain aid = Some id -> c_module c !! m = None ->
  CoreInv (add_module id p asms mods aid a amods mid m c).
Proof.
  intros Hinv Hd Ha Hc Hma Had Hm. pose proof Hinv as [I1 I2 I3 I4].
  assert (forall b x, c_module c !! b = Some x -> c_module (add_module id p asms mods aid a amods mid m c) !! b = Some x) as Hkeep.
  { intros b x Hb. cbn. rewrite lookup_insert_ne; [done|]. congruence. }
  split.
  - intros id1 p1 H1. by apply (inv_domain_set c _ _ asms mods).
  - intros id1 p1 asms1 mods1 aid1 a1 Hd1 Ha1.
    assert (assembly_ok c id1 p1 aid1 a1) as (k & E1 & E2).
    { apply (domain_at_set _ _ _ _ _ _ _ _ _ _ _ _ _ Hd) in Hd1 as [(-> & -> & -> & ->)|(_ & _ & Hd1)]; eauto. }
    unfold assembly_ok. cbn [add_module c_assembly]. destruct (decide (a1 = a)) as [->|].
    + rewrite Hc in E1. injection E1 as <- <- <-. rewrite lookup_insert_eq. eauto.
    + rewrite lookup_insert_ne by done. eauto.
  - intros id1 p1 asms1 mods1 mid1 m1 Hd1 Hm1.
    destruct (decide (m1 = m)) as [->|Hne].
    + apply (domain_at_set _ _ _ _ _ _ _ _ _ _ _ _ _ Hd) in Hd1 as [(-> & -> & -> & ->)|(_ & _ & Hd1)].
      * destruct (decide (mid1 = mid)) as [->|].
        -- exists a, aid, (<[mid := m]> amods). cbn. rewrite !lookup_insert_eq. split_and!; done.
        -- rewrite lookup_insert_ne in Hm1 by done. destruct (I3 _ _ _ _ _ _ Hd Hm1) as (? & ? & ? & E & _). congruence.
      * destruct (I3 _ _ _ _ _ _ Hd1 Hm1) as (? & ? & ? & E & _). congruence.
    + assert (module_ok c id1 p1 mid1 m1 /\ (mid1 <> mid \/ p1 <> p)) as [(b & bid & k & E1 & E2 & E3 & E4 & E5) Hdiff].
      { apply (domain_at_set _ _ _ _ _ _ _ _ _ _ _ _ _ Hd) in Hd1 as [(-> & -> & -> & ->)|(_ & Hp1 & Hd1)]; [|split; eauto].
        destruct (decide (mid1 = mid)) as [->|]; [rewrite lookup_insert_eq in Hm1; congruence|].
        rewrite lookup_insert_ne in Hm1 by done. split; eauto. }
      exists b, bid. cbn [add_module c_assembly c_module]. destruct (decide (b = a)) as [->|].
      * rewrite Hc in E2. injection E2 as <- <- <-. exists (<[mid := m]> amods). rewrite lookup_insert_eq, !lookup_insert_ne by (done || naive_solver).
        split_and!; done.
      * exists k. rewrite !lookup_insert_ne by done. split_and!; done.
  - intros id1 p1 asms1 mods1 aid1 a1 amods1 mid1 m1 Hd1 Ha1 Hc1 Hm1. cbn [add_module c_assembly] in Hc1.
    assert (domain_at c id1 p1 asms1 mods1 \/ (id1 = id /\ p1 = p /\ asms1 = asms /\ mods1 = <[mid := m]> mods)) as Hd1'.
    { apply (domain_at_set _ _ _ _ _ _ _ _ _ _ _ _ _ Hd) in Hd1 as [?|(_ & _ & ?)]; auto. }
    destruct (decide (a1 = a)) as [->|Hne].
    + rewrite lookup_insert_eq in Hc1. injection Hc1 as <- <- <-.
      destruct Hd1' as [Hd1'|(-> & _ & -> & ->)].
      { exfalso. apply (domain_at_set _ _ _ _ _ _ _ _ _ _ _ _ _ Hd) in Hd1 as [(-> & _ & _ & ->)|(_ & Hp & _)]; [|done].
        destruct (domain_at_id _ _ _ _ _ _ _ _ Hd Hd1') as (_ & _ & E).
        pose proof (f_equal (fun f => f !! mid) E) as E1. cbn in E1. rewrite lookup_insert_eq in E1.
        destruct (I3 _ _ _ _ _ _ Hd E1) as (? & ? & ? & E2 & _). congruence. }
      cbn [add_module c_module]. destruct (decide (mid1 = mid)) as [->|].
      * rewrite lookup_insert_eq in Hm1 |- *. injection Hm1 as <-. by rewrite lookup_insert_eq.
      * rewrite lookup_insert_ne in Hm1 |- * by done.
        destruct (I4 _ _ _ _ _ _ _ _ _ Hd Ha Hc Hm1) as [E1 E2]. split; [done|by apply Hkeep].
    + rewrite lookup_insert_ne in Hc1 by done. destruct Hd1' as [Hd1'|(-> & -> & -> & ->)].
      * destruct (I4 _ _ _ _ _ _ _ _ _ Hd1' Ha1 Hc1 Hm1) as [E1 E2]. split; [done|by apply Hkeep].
      * destruct (I4 _ _ _ _ _ _ _ _ _ Hd Ha1 Hc1 Hm1) as [E1 E2]. split; [|by apply Hkeep].
        rewrite lookup_insert_ne; [done|]. intros <-.
        pose proof (contained_asm _ _ _ _ _ _ _ _ _ _ Hinv Hd Ha1 Hc1 Hm1). congruence.
Qed.

Lemma remove_module_inv c id p asms mods aid a amods mid m :
  CoreInv c -> domain_at c id p asms mods -> mods !! mid = Some m ->
  c_module c !! m = Some (mid, Some p, Some a) -> c_assembly c !! a = Some (aid, Some p, amods) ->
  CoreInv (remove_module id p asms mods aid a amods mid m c).
Proof.
  intros Hinv Hd Hm Hcm Hca. pose proof Hinv as [I1 I2 I3 I4].
  assert (forall id1 p1 asms1 mods1, domain_at (remove_module id p asms mods aid a amods mid m c) id1 p1 asms1 mods1 ->
            exists mods1', domain_at c id1 p1 asms1 mods1' /\
              forall k x, mods1 !! k = Some x <-> mods1' !! k = Some x /\ (id1 <> id \/ k <> mid)) as Hdom.
  { intros id1 p1 asms1 mods1 [(-> & -> & -> & ->)|(Hid & _ & Hd1)]%(domain_at_set _ _ _ _ _ _ _ _ _ _ _ _ _ Hd).
    - exists mods. split; [done|]. intros k x. rewrite lookup_delete_Some. naive_solver.
    - exists mods1. split; [done|]. naive_solver. }
  split.
  - intros id1 p1 H1. by apply (inv_domain_set c _ _ asms mods).
  - intros id1 p1 asms1 mods1 aid1 a1 (mods1' & Hd1 & _)%Hdom Ha1. destruct (I2 _ _ _ _ _ _ Hd1 Ha1) as (k & E1 & E2).
    unfold assembly_ok. cbn [remove_module c_assembly]. destruct (decide (a1 = a)) as [->|].
    + rewrite Hca in E1. injection E1 as <- <- <-. rewrite lookup_insert_eq. eauto.
    + rewrite lookup_insert_ne by done. eauto.
  - intros id1 p1 asms1 mods1 mid1 m1 (mods1' & Hd1 & Hmods)%Hdom [Hm1 Hdiff]%Hmods.
    destruct (I3 _ _ _ _ _ _ Hd1 Hm1) as (b & bid & k & E1 & E2 & E3 & E4 & E5).
    assert (mid1 <> mid) as Hne.
    { intros ->. destruct (I3 _ _ _ _ _ _ Hd Hm) as (b' & bid' & k' & F1 & F2 & F3 & F4 & F5). naive_solver congruence. }
    assert (m1 <> m) by congruence.
    exists b, bid. cbn [remove_module c_assembly c_module]. destruct (decide (b = a)) as [->|].
    + rewrite Hca in E2. injection E2 as <- <- <-. exists (delete mid amods).
      rewrite lookup_insert_eq, lookup_insert_ne, lookup_delete_ne by done. split_and!; done.
    + exists k. rewrite !lookup_insert_ne by done. split_and!; done.
  - intros id1 p1 asms1 mods1 aid1 a1 amods1 mid1 m1 (mods1' & Hd1 & Hmods)%Hdom Ha1 Hc1 Hm1. cbn [remove_module c_assembly] in Hc1.
    assert (exists amods1', c_assembly c !! a1 = Some (aid1, Some p1, amods1') /\ amods1' !! mid1 = Some m1 /\ (a1 = a -> mid1 <> mid))
      as (amods1' & Hc1' & Hm1' & Hdiff).
    { destruct (decide (a1 = a)) as [->|].
      - rewrite lookup_insert_eq in Hc1. injection Hc1 as <- <- <-. apply lookup_delete_Some in Hm1 as [? ?]. exists amods. naive_solver.
      - rewrite lookup_insert_ne in Hc1 by done. exists amods1. naive_solver. }
    destruct (I4 _ _ _ _ _ _ _ _ _ Hd1 Ha1 Hc1' Hm1') as [E1 E2].
    assert (m1 <> m) as Hne by (intros ->; rewrite Hcm in E2; injection E2; naive_solver).
    cbn [remove_module c_module]. rewrite lookup_insert_ne by done. split; [|done]. apply Hmods. split; [done|].
    destruct (decide (mid1 = mid)) as [->|]; [|by right]. left. intros ->.
    destruct (domain_at_fun _ _ _ _ _ _ _ _ Hd Hd1) as (_ & _ & <-). congruence.
Qed.

Lemma remove_assembly_inv c id p asms mods aid :
  CoreInv c -> domain_at c id p asms mods -> CoreInv (remove_assembly id p asms mods aid c).
Proof.
  intros Hinv Hd. pose proof Hinv as [I1 I2 I3 I4].
  assert (forall id1 p1 asms1 mods1, domain_at (remove_assembly id p asms mods aid c) id1 p1 asms1 mods1 ->
            exists asms1', domain_at c id1 p1 asms1' mods1 /\ forall k x, asms1 !! k = Some x -> asms1' !! k = Some x) as Hdom.
  { intros id1 p1 asms1 mods1 [(-> & -> & -> & ->)|(_ & _ & Hd1)]%(domain_at_set _ _ _ _ _ _ _ _ _ _ _ _ _ Hd).
    - exists asms. split; [done|]. intros k x. rewrite lookup_delete_Some. naive_solver.
    - eauto. }
  split.
  - intros id1 p1 H1. by apply (inv_domain_set c _ _ asms mods).
  - intros id1 p1 asms1 mods1 aid1 a1 (asms1' & Hd1 & Hs)%Hdom Ha1%Hs. exact (I2 _ _ _ _ _ _ Hd1 Ha1).
  - intros id1 p1 asms1 mods1 mid1 m1 (asms1' & Hd1 & _)%Hdom Hm1. exact (I3 _ _ _ _ _ _ Hd1 Hm1).
  - intros id1 p1 asms1 mods1 aid1 a1 amods1 mid1 m1 (asms1' & Hd1 & Hs)%Hdom Ha1%Hs Hc1 Hm1.
    exact (I4 _ _ _ _ _ _ _ _ _ Hd1 Ha1 Hc1 Hm1).
Qed.

Lemma remove_domain_inv c id : CoreInv c -> CoreInv (remove_domain id c).
Proof.
  intros [I1 I2 I3 I4].
  assert (forall id1 p1 asms1 mods1, domain_at (remove_domain id c) id1 p1 asms1 mods1 -> domain_at c id1 p1 asms1 mods1) as Hdom.
  { intros id1 p1 asms1 mods1 [H1 H2]. cbn [remove_domain c_domains c_domain] in *.
    apply lookup_delete_Some in H1 as [_ H1]. by split. }
  split.
  - intros id1 p1 H1. cbn [remove_domain c_domains c_domain] in *. apply lookup_delete_Some in H1 as [_ H1]. exact (I1 _ _ H1).
  - intros id1 p1 asms1 mods1 aid1 a1 Hd1%Hdom. exact (I2 _ _ _ _ _ _ Hd1).
  - intros id1 p1 asms1 mods1 mid1 m1 Hd1%Hdom. exact (I3 _ _ _ _ _ _ Hd1).
  - intros id1 p1 asms1 mods1 aid1 a1 amods1 mid1 m1 Hd1%Hdom. exact (I4 _ _ _ _ _ _ _ _ _ Hd1).
Qed.

End Invariant.

(** ** Nothing is lost

    When no module is attached twice and no instrumentation method fails an unload: a
    module that still refers to its assembly is registered, the modules of an assembly
    refer back to it, and the collections of an app domain that is not registered are
    empty. *)
Record Tidy (c : Core) : Prop := {
  tidy_module : forall m mid po ao, c_module c !! m = Some (mid, po, ao) ->
    (po = None /\ ao = None) \/ exists id p asms mods, domain_at c id p asms mods /\ mods !! mid = Some m;
  tidy_assembly : forall a aid po amods mid m, c_assembly c !! a = Some (aid, po, amods) -> amods !! mid = Some m ->
    exists p, po = Some p /\ c_module c !! m = Some (mid, Some p, Some a);
  tidy_domain : forall p id asms mods, c_domain c !! p = Some (id, asms, mods) ->
    c_domains c !! id = Some p \/ (asms = ∅ /\ mods = ∅)
}.

Lemma domain_at_kept c id p asms mods asms' mods' A B id1 p1 asms1 mods1 :
  domain_at c id p asms mods -> domain_at c id1 p1 asms1 mods1 ->
  (p1 = p /\ id1 = id /\ mods1 = mods) \/
  (p1 <> p /\ domain_at (mkCore (c_domains c) (<[p := (id, asms', mods')]> (c_domain c)) A B) id1 p1 asms1 mods1).
Proof.
  intros Hd Hd1. destruct (decide (p1 = p)) as [->|Hp].
  - destruct (domain_at_id _ _ _ _ _ _ _ _ Hd Hd1) as (-> & _ & ->). by left.
  - right. split; [done|]. destruct Hd1. split; [done|]. cbn. by rewrite lookup_insert_ne.
Qed.

Lemma domain_at_here c id p asms mods asms' mods' A B :
  domain_at c id p asms mods -> domain_at (mkCore (c_domains c) (<[p := (id, asms', mods')]> (c_domain c)) A B) id p asms' mods'.
Proof. intros [H1 _]. split; [done|]. cbn. apply lookup_insert_eq. Qed.

Lemma tidy_domain_set c id p asms mods asms' mods' A B p1 id1 asms1 mods1 :
  Tidy c -> domain_at c id p asms mods ->
  c_domain (mkCore (c_domains c) (<[p := (id, asms', mods')]> (c_domain c)) A B) !! p1 = Some (id1, asms1, mods1) ->
  c_domains c !! id1 = Some p1 \/ (asms1 = ∅ /\ mods1 = ∅).
Proof.
  intros [_ _ T3] [H1 H2]. cbn [c_domain]. destruct (decide (p1 = p)) as [->|].
  - rewrite lookup_insert_eq. intros [= <- <- <-]. by left.
  - rewrite lookup_insert_ne by done. apply T3.
Qed.

Lemma add_domain_tidy c id p :
  Tidy c -> c_domains c !! id = None -> c_domain c !! p = None -> Tidy (add_domain id p c).
Proof.
  intros [T1 T2 T3] Hid Hp. split.
  - intros m mid po ao Hm. destruct (T1 _ _ _ _ Hm) as [?|(id1 & p1 & asms & mods & [H1 H2] & H3)]; [by left|].
    right. exists id1, p1, asms, mods. split; [|done]. split; cbn; rewrite lookup_insert_ne; congruence.
  - exact T2.
  - intros p1 id1 asms mods H1. cbn [add_domain c_domain c_domains] in *. destruct (decide (p1 = p)) as [->|].
    + rewrite lookup_insert_eq in H1. injection H1 as <- <- <-. left. apply lookup_insert_eq.
    + rewrite lookup_insert_ne in H1 by done. destruct (T3 _ _ _ _ H1) as [E|?]; [|by right]. left.
      rewrite lookup_insert_ne; [done|congruence].
Qed.

Lemma add_assembly_tidy c id p asms mods aid a :
  Tidy c -> domain_at c id p asms mods -> c_assembly c !! a = None -> Tidy (add_assembly id p asms mods aid a c).
Proof.
  intros HT Hd Ha. pose proof HT as [T1 T2 T3]. split.
  - intros m mid po ao Hm. destruct (T1 _ _ _ _ Hm) as [?|(id1 & p1 & asms1 & mods1 & Hd1 & H3)]; [by left|]. right.
    destruct (domain_at_kept c _ _ _ _ (<[aid := a]> asms) mods (<[a := (aid, Some p, ∅)]> (c_assembly c)) (c_module c) _ _ _ _ Hd Hd1) as [(-> & -> & ->)|[_ Hd1']].
    + eexists _, _, _, _. split; [exact (domain_at_here _ _ _ _ _ _ _ _ _ Hd)|done].
    + eexists _, _, _, _. split; [exact Hd1'|done].
  - intros a1 aid1 po amods mid m Hc Hm. cbn [add_assembly c_assembly] in Hc. destruct (decide (a1 = a)) as [->|].
    + rewrite lookup_insert_eq in Hc. injection Hc as <- <- <-. by rewrite lookup_empty in Hm.
    + rewrite lookup_insert_ne in Hc by done. exact (T2 _ _ _ _ _ _ Hc Hm).
  - intros p1 id1 asms1 mods1. by apply (tidy_domain_set c _ _ asms mods).
Qed.

Lemma add_module_tidy c id p asms mods aid a amods mid m :
  Tidy c -> domain_at c id p asms mods -> c_assembly c !! a = Some (aid, Some p, amods) ->
  mods !! mid = None -> c_module c !! m = None -> Tidy (add_module id p asms mods aid a amods mid m c).
Proof.
  intros HT Hd Ha Hmid Hm. pose proof HT as [T1 T2 T3]. split.
  - intros m1 mid1 po ao Hc. cbn [add_module c_module] in Hc. destruct (decide (m1 = m)) as [->|].
    + rewrite lookup_insert_eq in Hc. injection Hc as <- <- <-. right.
      eexists _, _, _, _. split; [exact (domain_at_here _ _ _ _ _ _ _ _ _ Hd)|]. apply lookup_insert_eq.
    + rewrite lookup_insert_ne in Hc by done.
      destruct (T1 _ _ _ _ Hc) as [?|(id1 & p1 & asms1 & mods1 & Hd1 & H3)]; [by left|]. right.
      destruct (domain_at_kept c _ _ _ _ asms (<[mid := m]> mods) (<[a := (aid, Some p, <[mid := m]> amods)]> (c_assembly c))
        (<[m := (mid, Some p, Some a)]> (c_module c)) _ _ _ _ Hd Hd1) as [(-> & -> & ->)|[_ Hd1']].
      * eexists _, _, _, _. split; [exact (domain_at_here _ _ _ _ _ _ _ _ _ Hd)|]. rewrite lookup_insert_ne; [done|congruence].
      * eexists _, _, _, _. split; [exact Hd1'|done].
  - intros a1 aid1 po amods1 mid1 m1 Hc Hm1. cbn [add_module c_assembly c_module] in *. destruct (decide (a1 = a)) as [->|].
    + rewrite lookup_insert_eq in Hc. injection Hc as <- <- <-. exists p. split; [done|]. destruct (decide (mid1 = mid)) as [->|].
      * rewrite lookup_insert_eq in Hm1. injection Hm1 as <-. apply lookup_insert_eq.
      * rewrite lookup_insert_ne in Hm1 by done. destruct (T2 _ _ _ _ _ _ Ha Hm1) as (p1 & [= <-] & E).
        rewrite lookup_insert_ne; [done|congruence].
    + rewrite lookup_insert_ne in Hc by done. destruct (T2 _ _ _ _ _ _ Hc Hm1) as (p1 & -> & E). exists p1. split; [done|].
      rewrite lookup_insert_ne; [done|congruence].
  - intros p1 id1 asms1 mods1. by apply (tidy_domain_set c _ _ asms mods).
Qed.

Lemma remove_module_tidy c id p asms mods aid a amods mid m :
  Tidy c -> domain_at c id p asms mods -> mods !! mid = Some m ->
  c_module c !! m = Some (mid, Some p, Some a) -> c_assembly c !! a = Some (aid, Some p, amods) ->
  Tidy (remove_module id p asms mods aid a amods mid m c).
Proof.
  intros HT Hd Hmm Hm Ha. pose proof HT as [T1 T2 T3]. split.
  - intros m1 mid1 po ao Hc. cbn [remove_module c_module] in Hc. destruct (decide (m1 = m)) as [->|Hne].
    + rewrite lookup_insert_eq in Hc. injection Hc as <- <- <-. by left.
    + rewrite lookup_insert_ne in Hc by done.
      destruct (T1 _ _ _ _ Hc) as [?|(id1 & p1 & asms1 & mods1 & Hd1 & H3)]; [by left|]. right.
      destruct (domain_at_kept c _ _ _ _ asms (delete mid mods) (<[a := (aid, Some p, delete mid amods)]> (c_assembly c))
        (<[m := (mid, None, None)]> (c_module c)) _ _ _ _ Hd Hd1) as [(-> & -> & ->)|[_ Hd1']].
      * eexists _, _, _, _. split; [exact (domain_at_here _ _ _ _ _ _ _ _ _ Hd)|]. rewrite lookup_delete_ne; [done|congruence].
      * eexists _, _, _, _. split; [exact Hd1'|done].
  - intros a1 aid1 po amods1 mid1 m1 Hc Hm1. cbn [remove_module c_assembly c_module] in *.
    assert (exists amods1', c_assembly c !! a1 = Some (aid1, po, amods1') /\ amods1' !! mid1 = Some m1 /\ (a1 = a -> mid1 <> mid))
      as (amods1' & Hc1 & Hm1' & Hne).
    { destruct (decide (a1 = a)) as [->|].
      - rewrite lookup_insert_eq in Hc. injection Hc as <- <- <-. apply lookup_delete_Some in Hm1 as [? ?]. exists amods. naive_solver.
      - rewrite lookup_insert_ne in Hc by done. exists amods1. naive_solver. }
    destruct (T2 _ _ _ _ _ _ Hc1 Hm1') as (p1 & -> & E). exists p1. split; [done|]. rewrite lookup_insert_ne; [done|].
    intros <-. rewrite Hm in E. injection E as <- _ <-. by apply Hne.
  - intros p1 id1 asms1 mods1. by apply (tidy_domain_set c _ _ asms mods).
Qed.

Lemma remove_assembly_tidy c id p asms mods aid :
  Tidy c -> domain_at c id p asms mods -> Tidy (remove_assembly id p asms mods aid c).
Proof.
  intros HT Hd. pose proof HT as [T1 T2 T3]. split.
  - intros m mid po ao Hm. destruct (T1 _ _ _ _ Hm) as [?|(id1 & p1 & asms1 & mods1 & Hd1 & H3)]; [by left|]. right.
    destruct (domain_at_kept c _ _ _ _ (delete aid asms) mods (c_assembly c) (c_module c) _ _ _ _ Hd Hd1) as [(-> & -> & ->)|[_ Hd1']].
    + eexists _, _, _, _. split; [exact (domain_at_here _ _ _ _ _ _ _ _ _ Hd)|done].
    + eexists _, _, _, _. split; [exact Hd1'|done].
  - exact T2.
  - intros p1 id1 asms1 mods1. by apply (tidy_domain_set c _ _ asms mods).
Qed.

Lemma remove_domain_tidy c id p :
  Tidy c -> domain_at c id p ∅ ∅ -> Tidy (remove_domain id c).
Proof.
  intros [T1 T2 T3] Hd. split.
  - intros m mid po ao Hm. destruct (T1 _ _ _ _ Hm) as [?|(id1 & p1 & asms1 & mods1 & Hd1 & H3)]; [by left|]. right.
    exists id1, p1, asms1, mods1. split; [|done]. pose proof Hd1 as [H1 H2]. split; [|done]. cbn. rewrite lookup_delete_ne; [done|].
    intros ->. destruct (domain_at_fun _ _ _ _ _ _ _ _ Hd Hd1) as (_ & _ & <-). by rewrite lookup_empty in H3.
  - exact T2.
  - intros p1 id1 asms1 mods1 H1. cbn [remove_domain c_domain c_domains] in *. destruct (T3 _ _ _ _ H1) as [E|?]; [|by right].
    destruct (decide (id1 = id)) as [->|]; [|left; by rewrite lookup_delete_ne].
    right. destruct Hd as [E1 E2]. rewrite E1 in E. injection E as <-. rewrite E2 in H1. by injection H1 as <- <-.
Qed.
