(* ===== verification/RegistrySpec.v ===== *)
(** What the callbacks do to the registry: they keep the invariant of [RegistryCore.v],
    lookups find what was loaded and not what was unloaded, and every cycle of references
    belongs to a registered app domain. *)
From S2P Require Import Prelude Instruction Enumerator ModuleInfo Registry RegistryCore.

Section Spec.
Context `{UnorderedMap} (rt : Runtime) (methods : list (Event -> HRESULT)) (has_raw : bool).

(** With [strict] the protocol is assumed, and more is concluded. *)
Context (strict : bool).

Definition asm_domain (aid : Z) : option Z :=
  match GetAssemblyInfo rt aid with Ok (_, id, _) => Some id | _ => None end.
Definition mod_asm (mid : Z) : option Z :=
  match GetModuleInfo rt mid with Ok (_, _, aid) => Some aid | _ => None end.

Definition Inv (s : Registry) : Prop := CoreInv asm_domain mod_asm (core s).

(** The manifest module of an assembly is one of its modules, or was disposed of. *)
Definition manifest_of (s : Registry) (a : ptr) : option ptr := r_assemblies s !! a ≫= m_pManifestModule.

Definition Manifests (s : Registry) : Prop :=
  forall a aid po amods m, c_assembly (core s) !! a = Some (aid, po, amods) -> manifest_of s a = Some m ->
    exists mid, c_module (core s) !! m = Some (mid, None, None) \/ c_module (core s) !! m = Some (mid, po, Some a).

Definition Good (s : Registry) : Prop := Inv s /\ (strict = true -> Tidy (core s) /\ Manifests s).

(** What the last instrumentation method answers. *)
Definition sent (e : Event) : HRESULT := match last methods with Some f => f e | None => S_OK end.

Definition accepting : Prop :=
  (forall m, FAILED (sent (OnModuleUnloaded m)) = false) /\ (forall a, FAILED (sent (OnAssemblyUnloaded a)) = false).

(** A module with this id is registered. *)
Definition registered (s : Registry) (mid : Z) : Prop :=
  exists id p asms mods, domain_at (core s) id p asms mods /\ is_Some (mods !! mid).

(** ** States that differ in what the invariant does not mention *)

Definition quiet (s s' : Registry) : Prop := core s' = core s /\ forall a, manifest_of s' a = manifest_of s a.

#[export] Instance quiet_preorder : PreOrder quiet.
Proof. split; [by split|]. intros s1 s2 s3 [A1 A2] [B1 B2]. split; [congruence|]. intros a. by rewrite B2. Qed.

Lemma quiet_good s s' : quiet s s' -> Good s -> Good s'.
Proof.
  intros [E1 E2]. unfold Good, Inv, Manifests. rewrite E1. intros [? Hs]. split; [done|]. intros E. destruct (Hs E) as [? Hm].
  split; [done|]. intros a aid po amods m. rewrite E2. apply Hm.
Qed.

Lemma quiet_registered s s' mid : quiet s s' -> registered s' mid <-> registered s mid.
Proof. intros [E1 _]. unfold registered. by rewrite E1. Qed.

Lemma send_loop_run im ms e hr s :
  exists s', send_loop im ms e hr s = (Ok (match last ms with Some f => f e | None => hr end), s') /\ quiet s s'.
Proof.
  revert im hr s. induction ms as [|f ms IH]; intros im hr s; cbn [send_loop last].
  - by exists s.
  - destruct (IH (S im) (f e) (notice (ToMethod im e) s)) as (s' & Hs' & Hq). exists s'. unfold bind, modify. rewrite Hs'.
    split; [|exact Hq]. destruct ms as [|g ms]; [done|].
    change (last (f :: g :: ms)) with (last (g :: ms)). destruct (last (g :: ms)) eqn:E; [done|]. by apply last_None in E.
Qed.

Lemma send_run e s : exists s', SendEventToInstrumentationMethods methods e s = (Ok (sent e), s') /\ quiet s s'.
Proof. apply send_loop_run. Qed.

Lemma send_or_fail_run e s :
  exists s', send_or_fail methods e s = (if FAILED (sent e) then Err (sent e) else Ok tt, s') /\ quiet s s'.
Proof.
  destruct (send_run e s) as (s' & Hs & Hq). exists s'. split; [|done]. unfold send_or_fail, bind. rewrite Hs.
  unfold if_fail_ret. by destruct (FAILED (sent e)).
Qed.

Lemma raw_run e s : exists s', SendEventToRaw has_raw e s = (Ok tt, s') /\ quiet s s'.
Proof. unfold SendEventToRaw. destruct has_raw; eexists; (split; [reflexivity|by split]). Qed.

(** ** Reading the objects of the core *)

Lemma load_domain_core s p id asms mods :
  c_domain (core s) !! p = Some (id, asms, mods) ->
  exists d, r_domains s !! p = Some d /\ m_appDomainId d = id /\ ad_assemblyInfos d = asms /\ ad_moduleInfos d = mods.
Proof. intros (d & [= <- <- <-] & Hd)%lookup_fmap_Some. eauto 10. Qed.

Lemma load_assembly_core s a aid po amods :
  c_assembly (core s) !! a = Some (aid, po, amods) ->
  exists j, r_assemblies s !! a = Some j /\ m_assemblyId j = aid /\ as_pAppDomainInfo j = po /\ as_moduleInfos j = amods.
Proof. intros (d & [= <- <- <-] & Hd)%lookup_fmap_Some. eauto 10. Qed.

Lemma load_module_core s m mid po ao :
  c_module (core s) !! m = Some (mid, po, ao) ->
  exists i, r_modules s !! m = Some i /\ m_moduleID i = mid /\ m_pAppDomainInfo i = po /\ m_pAssemblyInfo i = ao.
Proof. intros (d & [= <- <- <-] & Hd)%lookup_fmap_Some. eauto 10. Qed.

Lemma load_domain_run p d s : r_domains s !! p = Some d -> load_domain p s = (Ok d, s).
Proof. intros E. unfold load_domain. by rewrite E. Qed.
Lemma load_assembly_run p d s : r_assemblies s !! p = Some d -> load_assembly p s = (Ok d, s).
Proof. intros E. unfold load_assembly. by rewrite E. Qed.
Lemma load_moduleinfo_run p d s : r_modules s !! p = Some d -> load_moduleinfo p s = (Ok d, s).
Proof. intros E. unfold load_moduleinfo. by rewrite E. Qed.

Lemma update_domain_run p f d s : r_domains s !! p = Some d -> update_domain p f s = (Ok tt, put_domain p (f d) s).
Proof. intros E. unfold update_domain. by rewrite (run_bind _ _ _ _ _ (load_domain_run _ _ _ E)). Qed.
Lemma update_assembly_run p f d s : r_assemblies s !! p = Some d -> update_assembly p f s = (Ok tt, put_assembly p (f d) s).
Proof. intros E. unfold update_assembly. by rewrite (run_bind _ _ _ _ _ (load_assembly_run _ _ _ E)). Qed.
Lemma update_moduleinfo_run p f d s : r_modules s !! p = Some d -> update_moduleinfo p f s = (Ok tt, put_module p (f d) s).
Proof. intros E. unfold update_moduleinfo. by rewrite (run_bind _ _ _ _ _ (load_moduleinfo_run _ _ _ E)). Qed.

Lemma core_put_domain p d s :
  core (put_domain p d s) = mkCore (c_domains (core s)) (<[p := core_domain d]> (c_domain (core s))) (c_assembly (core s)) (c_module (core s)).
Proof. unfold core. cbn. by rewrite fmap_insert. Qed.
Lemma core_put_assembly p d s :
  core (put_assembly p d s) = mkCore (c_domains (core s)) (c_domain (core s)) (<[p := core_assembly d]> (c_assembly (core s))) (c_module (core s)).
Proof. unfold core. cbn. by rewrite fmap_insert. Qed.
Lemma core_put_module p d s :
  core (put_module p d s) = mkCore (c_domains (core s)) (c_domain (core s)) (c_assembly (core s)) (<[p := core_module d]> (c_module (core s))).
Proof. unfold core. cbn. by rewrite fmap_insert. Qed.

(** ** Lookups *)

Lemma first_success_cases (f : ptr -> R ptr) l s :
  (forall kp, kp ∈ l -> f kp.2 s = (Err E_FAIL, s) \/ exists x, f kp.2 s = (Ok x, s)) ->
  (first_success f l s = (Err E_FAIL, s) /\ forall kp, kp ∈ l -> f kp.2 s = (Err E_FAIL, s)) \/
  (exists kp x, kp ∈ l /\ f kp.2 s = (Ok x, s) /\ first_success f l s = (Ok x, s)).
Proof.
  induction l as [|[k p] l IH]; intros Hf; cbn [first_success].
  - left. split; [done|]. by intros kp ?%elem_of_nil.
  - destruct (Hf (k, p)) as [E|[x E]]; [apply list_elem_of_here| |]; cbn in E.
    + unfold attempt, bind. rewrite E. destruct IH as [[E1 E2]|(kp & x & ? & ? & ?)].
      * intros kp Hin. apply Hf. by apply list_elem_of_further.
      * left. split; [done|]. intros kp [->|?]%elem_of_cons; auto.
      * right. exists kp, x. split_and!; [by apply list_elem_of_further|done|done].
    + right. exists (k, p), x. unfold attempt, bind. rewrite E. split_and!; [apply list_elem_of_here|done|done].
Qed.

Lemma elem_of_items {A} (m : gmap Z A) k x : (k, x) ∈ items m <-> m !! k = Some x.
Proof. by rewrite items_perm, elem_of_map_to_list. Qed.

Lemma GetModuleInfoById_cases mid s :
  Inv s ->
  (exists id p asms mods m, domain_at (core s) id p asms mods /\ mods !! mid = Some m /\ GetModuleInfoById mid s = (Ok m, s)) \/
  (GetModuleInfoById mid s = (Err E_FAIL, s) /\ ~ registered s mid).
Proof.
  intros Hinv.
  assert (forall id p, m_appDomains s !! id = Some p -> exists asms mods, domain_at (core s) id p asms mods /\
            Domain_GetModuleInfoById mid p s = (match mods !! mid with Some m => Ok m | None => Err E_FAIL end, s)) as Hrun.
  { intros id p Hp. destruct (inv_domain _ _ _ Hinv id p Hp) as (asms & mods & Hc). exists asms, mods. split; [by split|].
    destruct (load_domain_core _ _ _ _ _ Hc) as (d & Hd & _ & _ & <-). unfold Domain_GetModuleInfoById.
    rewrite (run_bind _ _ _ _ _ (load_domain_run _ _ _ Hd)). by destruct (_ !! mid). }
  change (GetModuleInfoById mid s) with (first_success (Domain_GetModuleInfoById mid) (items (m_appDomains s)) s).
  destruct (first_success_cases (Domain_GetModuleInfoById mid) (items (m_appDomains s)) s) as [[E Hall]|([k p] & x & Hin & Hx & E)].
  - intros [k p] Hin. apply elem_of_items in Hin. destruct (Hrun _ _ Hin) as (asms & mods & _ & E). cbn [snd]. rewrite E.
    destruct (mods !! mid); eauto.
  - right. split; [exact E|]. intros (id & p & asms & mods & Hd & [m Hm]). pose proof Hd as [Hp _].
    destruct (Hrun _ _ Hp) as (asms' & mods' & Hd' & E'). destruct (domain_at_fun _ _ _ _ _ _ _ _ Hd Hd') as (_ & _ & <-).
    specialize (Hall (id, p)). cbn [snd] in Hall. rewrite E', Hm in Hall. by specialize (Hall ltac:(by apply elem_of_items)).
  - left. apply elem_of_items in Hin. destruct (Hrun _ _ Hin) as (asms & mods & Hd & E'). cbn [snd] in Hx. rewrite E' in Hx.
    destruct (mods !! mid) as [m|] eqn:Hm; [|done]. injection Hx as <-. exists k, p, asms, mods, m. by split_and!.
Qed.

Lemma GetAssemblyInfoById_cases aid s :
  Inv s ->
  (exists id p asms mods a, domain_at (core s) id p asms mods /\ asms !! aid = Some a /\ GetAssemblyInfoById aid s = (Ok a, s)) \/
  (GetAssemblyInfoById aid s = (Err E_FAIL, s) /\ forall id p asms mods, domain_at (core s) id p asms mods -> asms !! aid = None).
Proof.
  intros Hinv.
  assert (forall id p, m_appDomains s !! id = Some p -> exists asms mods, domain_at (core s) id p asms mods /\
            Domain_GetAssemblyInfoById aid p s = (match asms !! aid with Some m => Ok m | None => Err E_FAIL end, s)) as Hrun.
  { intros id p Hp. destruct (inv_domain _ _ _ Hinv id p Hp) as (asms & mods & Hc). exists asms, mods. split; [by split|].
    destruct (load_domain_core _ _ _ _ _ Hc) as (d & Hd & _ & <- & _). unfold Domain_GetAssemblyInfoById.
    rewrite (run_bind _ _ _ _ _ (load_domain_run _ _ _ Hd)). by destruct (_ !! aid). }
  change (GetAssemblyInfoById aid s) with (first_success (Domain_GetAssemblyInfoById aid) (items (m_appDomains s)) s).
  destruct (first_success_cases (Domain_GetAssemblyInfoById aid) (items (m_appDomains s)) s) as [[E Hall]|([k p] & x & Hin & Hx & E)].
  - intros [k p] Hin. apply elem_of_items in Hin. destruct (Hrun _ _ Hin) as (asms & mods & _ & E). cbn [snd]. rewrite E.
    destruct (asms !! aid); eauto.
  - right. split; [exact E|]. intros id p asms mods Hd. pose proof Hd as [Hp _].
    destruct (Hrun _ _ Hp) as (asms' & mods' & Hd' & E'). destruct (domain_at_fun _ _ _ _ _ _ _ _ Hd Hd') as (_ & <- & _).
    specialize (Hall (id, p)). cbn [snd] in Hall. rewrite E' in Hall. specialize (Hall ltac:(by apply elem_of_items)). by destruct (asms !! aid).
  - left. apply elem_of_items in Hin. destruct (Hrun _ _ Hin) as (asms & mods & Hd & E'). cbn [snd] in Hx. rewrite E' in Hx.
    destruct (asms !! aid) as [m|] eqn:Hm; [|done]. injection Hx as <-. exists k, p, asms, mods, m. by split_and!.
Qed.

(** ** Loads *)

(** A load adds app domains and assemblies, and no module but [new]. *)
Definition grows (new : option Z) (s s' : Registry) : Prop :=
  (forall id p, m_appDomains s !! id = Some p -> m_appDomains s' !! id = Some p) /\
  (forall mid, registered s' mid -> registered s mid \/ new = Some mid).

Lemma grows_refl s : grows None s s.
Proof. split; auto. Qed.

Lemma grows_trans new s1 s2 s3 : grows None s1 s2 -> grows new s2 s3 -> grows new s1 s3.
Proof. intros [A1 A2] [B1 B2]. split; [auto|]. intros mid Hm. destruct (B2 _ Hm) as [?|]; [|auto]. destruct (A2 mid) as [|]; auto. done. Qed.

Lemma GetAppDomainById_run id s :
  GetAppDomainById id s = (match m_appDomains s !! id with Some p => Ok p | None => Err E_FAIL end, s).
Proof. unfold GetAppDomainById, gets, bind. by destruct (_ !! id). Qed.

Lemma core_add_domain id p s :
  core (set_collection (<[id := p]> (m_appDomains s)) (put_domain p (new_domain id) s)) = add_domain id p (core s).
Proof. unfold core, add_domain. cbn. by rewrite fmap_insert. Qed.

Lemma find_or_construct_domain_spec id s :
  Good s -> exists p s', find_or_construct_domain id s = (Ok p, s') /\ Good s' /\ grows None s s' /\ m_appDomains s' !! id = Some p.
Proof.
  intros [Hinv Hs]. unfold find_or_construct_domain, attempt, bind. rewrite GetAppDomainById_run.
  destruct (m_appDomains s !! id) as [p|] eqn:Hp; [exists p, s; split_and!; [done|by split|apply grows_refl|done]|].
  set (p := fresh (dom (r_domains s))).
  assert (c_domain (core s) !! p = None) as Hfresh.
  { cbn. rewrite lookup_fmap. apply fmap_None, not_elem_of_dom, is_fresh. }
  exists p, (set_collection (<[id := p]> (m_appDomains s)) (put_domain p (new_domain id) s)).
  split; [reflexivity|]. split; [|split].
  - split; [unfold Inv; rewrite core_add_domain; by apply add_domain_inv|]. intros E. destruct (Hs E) as [Ht Hm].
    rewrite core_add_domain. split; [by apply add_domain_tidy|]. exact Hm.
  - split.
    + intros id1 p1 H1. cbn. rewrite lookup_insert_ne; [done|congruence].
    + intros mid (id1 & p1 & asms & mods & [H1 H2] & Hm). rewrite core_add_domain in H1, H2. cbn [add_domain c_domains c_domain] in *.
      left. destruct (decide (id1 = id)) as [->|].
      * rewrite lookup_insert_eq in H1. injection H1 as <-. rewrite lookup_insert_eq in H2. injection H2 as <- <-.
        rewrite lookup_empty in Hm. by destruct Hm.
      * rewrite lookup_insert_ne in H1 by done. exists id1, p1, asms, mods. split; [|done]. split; [done|].
        destruct (inv_domain _ _ _ Hinv _ _ H1) as (? & ? & E). rewrite lookup_insert_ne in H2; [done|congruence].
  - cbn. apply lookup_insert_eq.
Qed.

(** The assembly [a] is registered in the app domain that the runtime names. *)
Definition assembly_in (s : Registry) (aid : Z) (a : ptr) : Prop :=
  exists id p asms mods amods, domain_at (core s) id p asms mods /\ asms !! aid = Some a /\
    c_assembly (core s) !! a = Some (aid, Some p, amods) /\ asm_domain aid = Some id.

Lemma registered_in s aid id p asms mods a :
  Inv s -> domain_at (core s) id p asms mods -> asms !! aid = Some a -> assembly_in s aid a.
Proof.
  intros Hinv Hd Ha. destruct (inv_assembly _ _ _ Hinv _ _ _ _ _ _ Hd Ha) as (amods & E1 & E2).
  exists id, p, asms, mods, amods. by split_and!.
Qed.

Lemma core_add_assembly id p d aid name manifest a s :
  r_domains s !! p = Some d -> m_appDomainId d = id ->
  core (put_domain p (set_assemblyInfos (<[aid := a]> (ad_assemblyInfos d)) d) (put_assembly a (new_assembly aid name p manifest) s)) =
    add_assembly id p (ad_assemblyInfos d) (ad_moduleInfos d) aid a (core s).
Proof. intros Hd <-. rewrite core_put_domain, core_put_assembly. reflexivity. Qed.

Lemma ConstructAssemblyInfo_spec aid s :
  (forall f, returns (GetAssemblyInfo rt f)) -> Good s ->
  exists r s', ConstructAssemblyInfo rt aid s = (r, s') /\ returns r /\ Good s' /\ grows None s s' /\
    forall a, r = Ok a -> assembly_in s' aid a.
Proof.
  intros Hret [Hinv Hs]. unfold ConstructAssemblyInfo. specialize (Hret aid).
  destruct (GetAssemblyInfo rt aid) as [[[name id] manifest]|hr| |] eqn:E; [|eexists _, s; split_and!; [done|done|by split|apply grows_refl|done]|done..].
  unfold lift at 1 2. unfold bind at 1 2. unfold bind at 1. rewrite GetAppDomainById_run.
  destruct (m_appDomains s !! id) as [p|] eqn:Hp; [|eexists _, s; split_and!; [done|done|by split|apply grows_refl|done]].
  destruct (inv_domain _ _ _ Hinv _ _ Hp) as (asms & mods & Hc).
  destruct (load_domain_core _ _ _ _ _ Hc) as (d & Hd & Eid & Ea & Em).
  set (a := fresh (dom (r_assemblies s))).
  assert (c_assembly (core s) !! a = None) as Hfresh.
  { cbn. rewrite lookup_fmap. apply fmap_None, not_elem_of_dom, is_fresh. }
  assert (domain_at (core s) id p (ad_assemblyInfos d) (ad_moduleInfos d)) as Hdom by (rewrite Ea, Em; by split).
  assert (asm_domain aid = Some id) as Had by (unfold asm_domain; by rewrite E).
  unfold alloc_assembly. unfold bind at 1. fold a. unfold Domain_AddAssemblyInfo.
  erewrite run_bind; cycle 1.
  { erewrite run_bind by (apply load_assembly_run; apply lookup_insert_eq). apply update_domain_run. exact Hd. }
  eexists _, _. split; [reflexivity|]. split; [done|]. clearbody a.
  pose proof (core_add_assembly id p d aid name manifest a s Hd Eid) as Ec. cbn [m_assemblyId new_assembly].
  match goal with |- Good ?s' /\ _ => set (s1 := s') in * end.
  assert (Inv s1) as Hinv1 by (unfold Inv; rewrite Ec; by apply add_assembly_inv).
  split; [|split].
  - split; [exact Hinv1|]. intros Est. destruct (Hs Est) as [Ht Hm]. split; [rewrite Ec; by apply add_assembly_tidy|].
    intros a1 aid1 po amods m Hj Hman. rewrite Ec in Hj |- *. cbn [add_assembly c_assembly c_module] in Hj |- *.
    unfold manifest_of, s1 in Hman. cbn [put_domain put_assembly r_assemblies] in Hman. destruct (decide (a1 = a)) as [->|].
    + by rewrite lookup_insert_eq in Hman.
    + rewrite lookup_insert_ne in Hj by done. rewrite lookup_insert_ne in Hman by done. exact (Hm _ _ _ _ _ Hj Hman).
  - split; [done|]. intros mid (id1 & p1 & asms1 & mods1 & Hd1 & Hm1). left. rewrite Ec in Hd1.
    apply (domain_at_set _ _ _ _ _ _ _ _ _ _ _ _ _ Hdom) in Hd1 as [(-> & -> & -> & ->)|(_ & _ & Hd1)]; unfold registered; eauto 10.
  - intros a' [= <-]. exists id, p, (<[aid := a]> (ad_assemblyInfos d)), (ad_moduleInfos d), ∅. rewrite Ec. split_and!.
    + exact (domain_at_here _ _ _ _ _ _ _ _ _ Hdom).
    + apply lookup_insert_eq.
    + apply lookup_insert_eq.
    + exact Had.
Qed.

Lemma find_or_construct_assembly_spec aid s :
  (forall f, returns (GetAssemblyInfo rt f)) -> Good s ->
  exists r s', find_or_construct_assembly rt aid s = (r, s') /\ returns r /\ Good s' /\ grows None s s' /\
    forall a, r = Ok a -> assembly_in s' aid a.
Proof.
  intros Hret Hg. pose proof Hg as [Hinv _]. unfold find_or_construct_assembly.
  destruct (GetAssemblyInfoById_cases aid s Hinv) as [(id & p & asms & mods & a & Hd & Ha & E)|[E _]]; unfold attempt, bind; rewrite E.
  - exists (Ok a), s. split_and!; [done|done|done|apply grows_refl|]. intros a' [= <-]. by eapply registered_in.
  - by apply ConstructAssemblyInfo_spec.
Qed.

(** *** The manifest module *)

Lemma put_assembly_quiet p a f s :
  r_assemblies s !! p = Some a -> core_assembly (f a) = core_assembly a -> m_pManifestModule (f a) = m_pManifestModule a ->
  quiet s (put_assembly p (f a) s).
Proof.
  intros Ha Hc Hm. split.
  - assert (<[p := core_assembly a]> (core_assembly <$> r_assemblies s) = core_assembly <$> r_assemblies s) as E
      by (rewrite <- fmap_insert; f_equal; by apply insert_id).
    rewrite core_put_assembly, Hc. cbn [core c_assembly]. by rewrite E.
  - intros b. unfold manifest_of. cbn. destruct (decide (b = p)) as [->|]; [by rewrite lookup_insert_eq, Ha; cbn|by rewrite lookup_insert_ne].
Qed.

Definition answers {A} (m : R A) (s : Registry) : Prop := returns (m s).1 /\ quiet s (m s).2.

Lemma answers_bind {A B} (m : R A) (f : A -> R B) s :
  answers m s -> (forall a, (m s).1 = Ok a -> answers (f a) (m s).2) -> answers (bind m f) s.
Proof.
  intros [H1 H2] Hf. unfold answers, bind in *. destruct (m s) as [[a|hr|u|] s']; cbn in *; try done.
  destruct (Hf a eq_refl). split; [done|by etrans].
Qed.

Lemma answers_ret {A} (a : A) s : answers (ret a) s.
Proof. by split. Qed.
Lemma answers_fail {A} hr s : answers (@fail Registry A hr) s.
Proof. by split. Qed.
Lemma answers_lift {A} (o : outcome A) s : returns o -> answers (lift o) s.
Proof. by split. Qed.

Lemma answers_update p f a s :
  r_assemblies s !! p = Some a -> (forall a, core_assembly (f a) = core_assembly a /\ m_pManifestModule (f a) = m_pManifestModule a) ->
  answers (update_assembly p f) s.
Proof.
  intros Ha Hf. unfold answers. rewrite (update_assembly_run _ _ _ _ Ha). split; [done|]. by apply put_assembly_quiet; apply Hf || done.
Qed.

Lemma quiet_assembly s s' p a :
  quiet s s' -> r_assemblies s !! p = Some a ->
  exists a', r_assemblies s' !! p = Some a' /\ core_assembly a' = core_assembly a /\ m_pManifestModule a' = m_pManifestModule a.
Proof.
  intros [E1 E2] Ha. assert (c_assembly (core s') !! p = Some (core_assembly a)) as E by (rewrite E1; cbn; by rewrite lookup_fmap, Ha).
  cbn in E. apply lookup_fmap_Some in E as (a' & Ec & Ha'). exists a'. split_and!; [done|done|].
  specialize (E2 p). unfold manifest_of in E2. rewrite Ha, Ha' in E2. exact E2.
Qed.

(** What the runtime and its metadata answer is an answer, and the images of the modules
    that it names can be read. *)
Record RuntimeReturns : Prop := {
  ret_assembly : forall f, returns (GetAssemblyInfo rt f);
  ret_module : forall m, returns (GetModuleInfo rt m);
  ret_import : forall m, returns (MetaDataImport rt m);
  ret_enum : returns (EnumModules rt);
  ret_length : forall d, returns (AppDomainNameLength rt d);
  ret_name : forall d n, returns (AppDomainName rt d n);
  ret_scope : forall m, returns (GetAssemblyFromScope (rt_metadata rt) m);
  ret_props : forall m tk, returns (GetAssemblyProps (rt_metadata rt) m tk);
  ret_core : returns (is_core_clr (rt_metadata rt));
  ret_init : forall mid base path aid a d i ai e ae, GetModuleInfo rt mid = Ok (base, path, aid) ->
    returns (ModuleInfo.Initialize (rt_system rt) (rt_version rt) mid path a d base i ai e ae (GetScopeProps rt mid) (GetModuleInfo2 rt mid))
}.

Lemma InitializePublicKeyToken_settled sn p a s :
  r_assemblies s !! p = Some a -> answers (InitializePublicKeyToken sn p) s.
Proof.
  intros Ha. unfold InitializePublicKeyToken. apply answers_bind; [unfold answers; by rewrite (load_assembly_run _ _ _ Ha)|].
  rewrite (load_assembly_run _ _ _ Ha). intros a0 [= <-]. cbn [snd].
  destruct (m_publicKeyTokenInitialized a); [apply answers_ret|]. apply answers_bind; [by eapply answers_update|].
  intros ?. rewrite (update_assembly_run _ _ _ _ Ha). intros _. cbn [snd].
  destruct (m_pPublicKey a); [|apply answers_ret]. destruct (_ =? 0); [apply answers_ret|].
  destruct (StrongNameTokenFromPublicKey sn) as [f|]; [|apply answers_fail].
  destruct (negb _); [apply answers_fail|]. destruct (f _ _); [|apply answers_fail].
  eapply answers_update; [apply lookup_insert_eq|done].
Qed.

Lemma HandleManifestModuleLoad_settled p a m i s :
  RuntimeReturns -> r_assemblies s !! p = Some a -> m_pManifestModule a = Some m -> r_modules s !! m = Some i ->
  answers (HandleManifestModuleLoad (rt_metadata rt) p) s.
Proof.
  intros Hret Ha Hm Hi. unfold HandleManifestModuleLoad. apply answers_bind; [unfold answers; by rewrite (load_assembly_run _ _ _ Ha)|].
  rewrite (load_assembly_run _ _ _ Ha). intros a0 [= <-]. cbn [snd]. rewrite Hm.
  apply answers_bind; [unfold answers; by rewrite (load_moduleinfo_run _ _ _ Hi)|].
  rewrite (load_moduleinfo_run _ _ _ Hi). intros i0 [= <-]. cbn [snd].
  apply answers_bind; [apply answers_lift, Hret|]. intros tk _. cbn [lift snd].
  apply answers_bind; [by eapply answers_update|]. intros u. rewrite (update_assembly_run _ _ _ _ Ha). intros _. cbn [snd].
  apply answers_bind; [apply answers_lift, Hret|]. intros props _. cbn [lift snd].
  assert (r_assemblies (put_assembly p (set_token tk a) s) !! p = Some (set_token tk a)) as Ha' by apply lookup_insert_eq.
  apply answers_bind; [by eapply answers_update|]. intros u'. rewrite (update_assembly_run _ _ _ _ Ha'). intros _. cbn [snd].
  pose proof (ret_core Hret) as Hc.
  apply answers_bind; [unfold answers, attempt, lift; by destruct (is_core_clr _)|].
  unfold attempt, lift. destruct (is_core_clr _) as [b|hr| |]; intros x; intros [= <-]; cbn [snd default].
  - destruct b; [apply answers_ret|]. eapply InitializePublicKeyToken_settled, lookup_insert_eq.
  - eapply InitializePublicKeyToken_settled, lookup_insert_eq.
Qed.

(** *** Modules *)

Lemma Initialize_core sys v mid path pa pd base i ai e ae scope info x :
  ModuleInfo.Initialize sys v mid path pa pd base i ai e ae scope info = Ok x -> core_module x = (mid, pd, pa).
Proof.
  unfold ModuleInfo.Initialize. destruct pa, pd, i, ai; try done. cbn [negb]. intros Hx.
  apply obind_Ok in Hx as (mv & _ & Hx). apply obind_Ok in Hx as ([fl flat] & _ & Hx).
  destruct (m_bIsDynamic fl); [by injection Hx as <-|]. destruct (ReadModuleHeaders _) as [res l].
  apply obind_Ok in Hx as (u & _ & Hx). apply obind_Ok in Hx as (b & _ & Hx). by injection Hx as <-.
Qed.

(** The two collections that a new module object is put into. *)
Definition with_module (p a m : ptr) (d : CAppDomainInfo) (j : CAssemblyInfo) (i : CModuleInfo) (s : Registry) : Registry :=
  put_assembly a (set_as_modules (<[m_moduleID i := m]> (as_moduleInfos j)) j)
    (put_domain p (set_moduleInfos (<[m_moduleID i := m]> (ad_moduleInfos d)) d) (put_module m i s)).

Lemma core_with_module p a m d j i s id asms mods aid amods mid :
  core_domain d = (id, asms, mods) -> core_assembly j = (aid, Some p, amods) -> core_module i = (mid, Some p, Some a) ->
  core (with_module p a m d j i s) = add_module id p asms mods aid a amods mid m (core s).
Proof.
  intros [= <- <- <-] [= <- E <-] [= <- E1 E2]. unfold with_module. rewrite core_put_assembly, core_put_domain, core_put_module.
  unfold core_assembly, core_module. cbn. by rewrite E, E1, E2.
Qed.

Lemma with_module_good p a m d j i s id asms mods aid amods mid :
  Good s -> domain_at (core s) id p asms mods -> asms !! aid = Some a -> c_assembly (core s) !! a = Some (aid, Some p, amods) ->
  asm_domain aid = Some id -> mod_asm mid = Some aid -> (strict = true -> ~ registered s mid) ->
  r_domains s !! p = Some d -> r_assemblies s !! a = Some j -> core_module i = (mid, Some p, Some a) -> r_modules s !! m = None ->
  let s' := with_module p a m d j i s in
  core s' = add_module id p asms mods aid a amods mid m (core s) /\ Good s' /\
    forall mid', registered s' mid' -> registered s mid' \/ mid' = mid.
Proof.
  intros [Hinv Hs] Hdom Ha Hca Had Hma Hun Hd Hj Hi Hm.
  assert (core_domain d = (id, asms, mods)) as Ed.
  { destruct (load_domain_core _ _ _ _ _ (proj2 Hdom)) as (d' & Hd' & <- & <- & <-). rewrite Hd in Hd'. by injection Hd' as <-. }
  assert (core_assembly j = (aid, Some p, amods)) as Ej.
  { destruct (load_assembly_core _ _ _ _ _ Hca) as (j' & Hj' & E1 & E2 & E3). rewrite Hj in Hj'. injection Hj' as <-.
    unfold core_assembly. by rewrite E1, E2, E3. }
  pose proof (core_with_module p a m d j i s _ _ _ _ _ _ Ed Ej Hi) as Ec.
  assert (c_module (core s) !! m = None) as Hfresh by (cbn; by rewrite lookup_fmap, Hm).
  split; [exact Ec|]. split; [split|].
  - unfold Inv. rewrite Ec. by apply add_module_inv.
  - intros Est. destruct (Hs Est) as [Ht Hman]. split.
    + rewrite Ec. apply add_module_tidy; try done. destruct (mods !! mid) as [x|] eqn:Hx; [|done].
      destruct (Hun Est). exists id, p, asms, mods. split; [done|by eexists].
    + intros b bid po bmods x Hb Hx. rewrite Ec in Hb |- *. cbn [add_module c_assembly c_module] in Hb |- *.
      assert (manifest_of s b = Some x) as Hx'.
      { unfold manifest_of, with_module in Hx. cbn [put_assembly put_domain put_module r_assemblies] in Hx. unfold manifest_of.
        destruct (decide (b = a)) as [->|]; [rewrite lookup_insert_eq in Hx; by rewrite Hj|by rewrite lookup_insert_ne in Hx]. }
      assert (exists bmods', c_assembly (core s) !! b = Some (bid, po, bmods')) as [bmods' Hb'].
      { destruct (decide (b = a)) as [->|]; [rewrite lookup_insert_eq in Hb; injection Hb as <- <- _; eauto|].
        rewrite lookup_insert_ne in Hb by done. eauto. }
      destruct (Hman _ _ _ _ _ Hb' Hx') as (k & [E|E]); exists k; [left|right]; (rewrite lookup_insert_ne; [done|congruence]).
  - intros mid' (id1 & p1 & asms1 & mods1 & Hd1 & Hm1). rewrite Ec in Hd1.
    apply (domain_at_set _ _ _ _ _ _ _ _ _ _ _ _ _ Hdom) in Hd1 as [(-> & -> & -> & ->)|(_ & _ & Hd1)].
    + destruct (decide (mid' = mid)) as [->|]; [by right|]. rewrite lookup_insert_ne in Hm1 by done. left. by exists id, p, asms, mods.
    + left. by exists id1, p1, asms1, mods1.
Qed.

(** The end of [CAssemblyInfo::AddModuleInfo]. *)
Lemma manifest_step a m s aid po amods mid :
  RuntimeReturns -> Good s -> c_assembly (core s) !! a = Some (aid, po, amods) -> c_module (core s) !! m = Some (mid, po, Some a) ->
  let r := (update_assembly a (set_manifest m) ;;; HandleManifestModuleLoad (rt_metadata rt) a) s in
  returns r.1 /\ Good r.2 /\ core r.2 = core s.
Proof.
  intros Hret [Hinv Hs] Ha Hm r. destruct (load_assembly_core _ _ _ _ _ Ha) as (j & Hj & <- & <- & <-).
  destruct (load_module_core _ _ _ _ _ Hm) as (i & Hi & _).
  set (s1 := put_assembly a (set_manifest m j) s).
  assert (r = HandleManifestModuleLoad (rt_metadata rt) a s1) as Er.
  { unfold r. by rewrite (run_bind _ _ _ _ _ (update_assembly_run _ _ _ _ Hj)). }
  assert (core s1 = core s) as Ec.
  { unfold s1. rewrite core_put_assembly. change (core_assembly (set_manifest m j)) with (core_assembly j).
    assert (<[a := core_assembly j]> (core_assembly <$> r_assemblies s) = core_assembly <$> r_assemblies s) as E
      by (rewrite <- fmap_insert; f_equal; by apply insert_id).
    cbn [core c_assembly]. by rewrite E. }
  assert (Good s1) as Hg1.
  { split; [unfold Inv; by rewrite Ec|]. intros Est. destruct (Hs Est) as [Ht Hman]. split; [by rewrite Ec|].
    intros b bid bpo bmods x Hb Hx. rewrite Ec in Hb |- *. destruct (decide (b = a)) as [->|Hne].
    - unfold manifest_of, s1 in Hx. cbn [put_assembly r_assemblies] in Hx. rewrite lookup_insert_eq in Hx. injection Hx as <-.
      rewrite Ha in Hb. injection Hb as <- <- <-. eauto.
    - apply (Hman _ _ _ _ _ Hb). unfold manifest_of, s1 in Hx. cbn [put_assembly r_assemblies] in Hx.
      by rewrite lookup_insert_ne in Hx. }
  destruct (HandleManifestModuleLoad_settled a (set_manifest m j) m i s1 Hret (lookup_insert_eq _ _ _) eq_refl Hi) as [H1 H2].
  rewrite Er. split_and!; [exact H1|exact (quiet_good _ _ H2 Hg1)|destruct H2; congruence].
Qed.

Definition module_in (s : Registry) (mid : Z) (m : ptr) : Prop :=
  exists id p asms mods, domain_at (core s) id p asms mods /\ mods !! mid = Some m.

(** The registration of a new module object. *)
Lemma register_spec s id p asms mods aid a amods mid i :
  RuntimeReturns -> Good s -> domain_at (core s) id p asms mods -> asms !! aid = Some a ->
  c_assembly (core s) !! a = Some (aid, Some p, amods) ->
  asm_domain aid = Some id -> mod_asm mid = Some aid -> (strict = true -> ~ registered s mid) ->
  core_module i = (mid, Some p, Some a) ->
  exists r s', (m <- alloc_module i ;; Domain_AddModuleInfo p m ;;; Assembly_AddModuleInfo (rt_metadata rt) a m ;;; ret m) s = (r, s') /\
    returns r /\ Good s' /\ (forall mid', registered s' mid' -> registered s mid' \/ mid' = mid) /\
    forall m, r = Ok m -> module_in s' mid m.
Proof.
  intros Hret Hg Hdom Ha Hca Had Hma Hun Hi. set (m := fresh (dom (r_modules s))).
  assert (r_modules s !! m = None) as Hm by apply not_elem_of_dom, is_fresh.
  destruct (load_domain_core _ _ _ _ _ (proj2 Hdom)) as (d & Hd & Ed).
  destruct (load_assembly_core _ _ _ _ _ Hca) as (j & Hj & Ej).
  destruct (with_module_good p a m d j i s id asms mods aid amods mid Hg Hdom Ha Hca Had Hma Hun Hd Hj Hi Hm) as (Ec & Hg' & Hreg).
  set (s1 := put_domain p (set_moduleInfos (<[m_moduleID i := m]> (ad_moduleInfos d)) d) (put_module m i s)).
  unfold alloc_module. unfold bind at 1. fold m. unfold Domain_AddModuleInfo.
  assert ((i0 <- load_moduleinfo m;; update_domain p (fun d => set_moduleInfos (<[m_moduleID i0:=m]> (ad_moduleInfos d)) d)) (put_module m i s) = (Ok tt, s1)) as E1.
  { rewrite (run_bind _ _ _ _ _ (load_moduleinfo_run _ _ _ (lookup_insert_eq _ _ _))).
    by rewrite (update_domain_run p _ d (put_module m i s) Hd). }
  rewrite (run_bind _ _ _ _ _ E1). unfold Assembly_AddModuleInfo.
  rewrite bind_bind, (run_bind _ _ s1 _ _ (load_moduleinfo_run _ _ _ (lookup_insert_eq _ _ _))).
  rewrite bind_bind, (run_bind _ _ s1 _ _ (update_assembly_run a _ j s1 Hj)).
  fold (with_module p a m d j i s) in *. set (s2 := with_module p a m d j i s) in *.
  rewrite bind_bind, (run_bind _ _ s2 _ _ (load_assembly_run _ _ _ (lookup_insert_eq _ _ _))).
  assert (c_module (core s2) !! m = Some (mid, Some p, Some a)) as Hm2 by (rewrite Ec; apply lookup_insert_eq).
  assert (c_assembly (core s2) !! a = Some (aid, Some p, <[mid := m]> amods)) as Ha2 by (rewrite Ec; apply lookup_insert_eq).
  assert (module_in s2 mid m) as Hin.
  { exists id, p, asms, (<[mid := m]> mods). rewrite Ec. split; [exact (domain_at_here _ _ _ _ _ _ _ _ _ Hdom)|apply lookup_insert_eq]. }
  destruct (m_moduleID i =? _).
  - destruct (manifest_step a m s2 aid (Some p) _ mid Hret Hg' Ha2 Hm2) as (Hr & Hg3 & Ec3). unfold bind at 1.
    destruct ((update_assembly a (set_manifest m) ;;; HandleManifestModuleLoad (rt_metadata rt) a) s2) as [r s3]. cbn [fst snd] in *.
    exists (match r with Ok _ => Ok m | Err hr => Err hr | Undef u => Undef u | NoFuel => NoFuel end), s3.
    unfold registered, module_in. rewrite Ec3. split_and!; [by destruct r|by destruct r|done|exact Hreg|].
    intros m'. destruct r; try done. by intros [= <-].
  - exists (Ok m), s2. split_and!; [done|done|done|exact Hreg|]. by intros m' [= <-].
Qed.

Lemma ConstructModuleInfo_spec mid s :
  RuntimeReturns -> Good s -> (strict = true -> ~ registered s mid) ->
  exists r s', ConstructModuleInfo rt mid s = (r, s') /\ returns r /\ Good s' /\
    (forall mid', registered s' mid' -> registered s mid' \/ mid' = mid) /\ forall m, r = Ok m -> module_in s' mid m.
Proof.
  intros Hret Hg Hun. unfold ConstructModuleInfo. pose proof (ret_module Hret mid) as Hrm.
  assert (forall hr : HRESULT, exists r s', (@Err ptr hr, s) = (r, s') /\ returns r /\ Good s' /\
    (forall mid', registered s' mid' -> registered s mid' \/ mid' = mid) /\ forall m, r = Ok m -> module_in s' mid m) as Hfail.
  { intros hr. exists (Err hr), s. split_and!; auto; done. }
  destruct (GetModuleInfo rt mid) as [[[base path] aid]|hr| |] eqn:Em; [|exact (Hfail hr)|done..].
  rewrite !(run_bind (lift (Ok _)) _ s _ s eq_refl).
  destruct (AssemblyImport rt mid) as [ai|]; [|exact (Hfail E_FAIL)]. rewrite (run_bind (if_null_ret (Some ai) _) _ s ai s eq_refl).
  pose proof (ret_import Hret mid) as Hri. destruct (MetaDataImport rt mid) as [mi|hr| |]; [|exact (Hfail hr)|done..].
  rewrite (run_bind (lift (Ok mi)) _ s mi s eq_refl).
  pose proof (ret_assembly Hret aid) as Hra. destruct (GetAssemblyInfo rt aid) as [[[name id] manifest]|hr| |] eqn:Ea; [|exact (Hfail hr)|done..].
  rewrite (run_bind (lift (Ok _)) _ s _ s eq_refl).
  destruct (find_or_construct_domain_spec id s Hg) as (p & s1 & Hp & Hg1 & Hgr1 & Hdom1). rewrite (run_bind _ _ _ _ _ Hp).
  destruct (find_or_construct_assembly_spec aid s1 (ret_assembly Hret) Hg1) as (ra & s2 & Hra2 & Hrr & Hg2 & Hgr2 & Hin).
  pose proof (grows_trans _ _ _ _ Hgr1 Hgr2) as [Hgd Hgm].
  assert (forall mid', registered s2 mid' -> registered s mid' \/ mid' = mid) as Hreg2.
  { intros mid' Hm. destruct (Hgm _ Hm) as [?|]; [by left|done]. }
  unfold bind at 1. rewrite Hra2. destruct ra as [a|hr| |]; [|exists (Err hr), s2; split_and!; done|done..].
  destruct (Hin a eq_refl) as (id' & p' & asms & mods & amods & Hd2 & Ha2 & Hca2 & Had).
  assert (id' = id) as -> by (unfold asm_domain in Had; rewrite Ea in Had; by injection Had).
  assert (p' = p) as ->.
  { destruct Hd2 as [Hd2 _]. cbn in Hd2. rewrite (proj1 Hgr2 _ _ Hdom1) in Hd2. by injection Hd2. }
  pose proof (ret_init Hret mid base path aid (Some a) (Some p) mi ai (MetaDataEmit rt mid) (AssemblyEmit rt mid) Em) as Hi.
  destruct (ModuleInfo.Initialize _ _ _ _ _ _ _ _ _ _ _ _ _) as [i|hr| |] eqn:Ei; [|exists (Err hr), s2; split_and!; done|done..].
  rewrite (run_bind (lift (Ok i)) _ s2 i s2 eq_refl).
  destruct (register_spec s2 id p asms mods aid a amods mid i) as (r & s3 & Hr & Hrr3 & Hg3 & Hreg3 & Hin3); try done.
  - unfold mod_asm. by rewrite Em.
  - intros Est Hr. destruct (Hun Est). by destruct (Hgm _ Hr).
  - by eapply Initialize_core.
  - exists r, s3. split_and!; [exact Hr|done|done| |done]. intros mid' Hm. destruct (Hreg3 _ Hm) as [?|]; auto.
Qed.

(** ** Unloads *)

(** The state after the references of a module object were removed. *)
Definition without_module (p a m : ptr) (d : CAppDomainInfo) (j : CAssemblyInfo) (i : CModuleInfo) (s : Registry) : Registry :=
  put_module m (Dispose i) (put_domain p (set_moduleInfos (delete (m_moduleID i) (ad_moduleInfos d)) d)
    (put_assembly a (set_as_modules (delete (m_moduleID i) (as_moduleInfos j)) j) s)).

Lemma unload_run p a m d j i s :
  r_modules s !! m = Some i -> r_domains s !! p = Some d -> r_assemblies s !! a = Some j ->
  (Assembly_ModuleInfoUnloaded a m ;;; Domain_ModuleInfoUnloaded p m ;;; update_moduleinfo m Dispose) s =
    (Ok tt, without_module p a m d j i s).
Proof.
  intros Hi Hd Hj. unfold Assembly_ModuleInfoUnloaded, Domain_ModuleInfoUnloaded.
  rewrite bind_bind, (run_bind _ _ _ _ _ (load_moduleinfo_run _ _ _ Hi)), (run_bind _ _ _ _ _ (update_assembly_run a _ j s Hj)).
  set (s1 := put_assembly _ _ s). rewrite bind_bind, (run_bind _ _ s1 _ _ (load_moduleinfo_run m i s1 Hi)).
  rewrite (run_bind _ _ _ _ _ (update_domain_run p _ d s1 Hd)). set (s2 := put_domain _ _ s1).
  by rewrite (update_moduleinfo_run m Dispose i s2 Hi).
Qed.

Lemma without_module_good p a m d j i s id asms mods aid amods mid :
  Good s -> domain_at (core s) id p asms mods -> mods !! mid = Some m ->
  c_module (core s) !! m = Some (mid, Some p, Some a) -> c_assembly (core s) !! a = Some (aid, Some p, amods) ->
  r_domains s !! p = Some d -> r_assemblies s !! a = Some j -> r_modules s !! m = Some i ->
  let s' := without_module p a m d j i s in
  core s' = remove_module id p asms mods aid a amods mid m (core s) /\ Good s'.
Proof.
  intros [Hinv Hs] Hdom Hm Hcm Hca Hd Hj Hi s'.
  destruct (load_domain_core _ _ _ _ _ (proj2 Hdom)) as (d' & Hd' & D1 & D2 & D3). rewrite Hd in Hd'. injection Hd' as <-.
  destruct (load_assembly_core _ _ _ _ _ Hca) as (j' & Hj' & J1 & J2 & J3). rewrite Hj in Hj'. injection Hj' as <-.
  destruct (load_module_core _ _ _ _ _ Hcm) as (i' & Hi' & I1 & I2 & I3). rewrite Hi in Hi'. injection Hi' as <-.
  assert (core s' = remove_module id p asms mods aid a amods mid m (core s)) as Ec.
  { unfold s', without_module. rewrite core_put_module, core_put_domain, core_put_assembly. unfold core_domain, core_assembly, core_module.
    cbn. by rewrite D1, D2, D3, J1, J2, J3, I1. }
  split; [exact Ec|]. split; [unfold Inv; rewrite Ec; by apply remove_module_inv|].
  intros Est. destruct (Hs Est) as [Ht Hman]. split; [rewrite Ec; by apply remove_module_tidy|].
  intros b bid po bmods x Hb Hx. rewrite Ec in Hb |- *. cbn [remove_module c_assembly c_module] in Hb |- *.
  assert (manifest_of s b = Some x) as Hx'.
  { unfold manifest_of, s', without_module in Hx. cbn [put_assembly put_domain put_module r_assemblies] in Hx. unfold manifest_of.
    destruct (decide (b = a)) as [->|]; [rewrite lookup_insert_eq in Hx; by rewrite Hj|by rewrite lookup_insert_ne in Hx]. }
  assert (exists bmods', c_assembly (core s) !! b = Some (bid, po, bmods')) as [bmods' Hb'].
  { destruct (decide (b = a)) as [->|]; [rewrite lookup_insert_eq in Hb; injection Hb as <- <- _; eauto|].
    rewrite lookup_insert_ne in Hb by done. eauto. }
  destruct (decide (x = m)) as [->|Hne]; [exists mid; left; apply lookup_insert_eq|].
  destruct (Hman _ _ _ _ _ Hb' Hx') as (k & Hk). exists k. by rewrite lookup_insert_ne.
Qed.

(** What an unload leaves: the same app domains, no new module, and when nobody fails it,
    the object is out of every app domain. *)
Definition unloads (net20 : bool) (ok : Prop) (mid : Z) (s : Registry) (r : outcome unit) (s' : Registry) : Prop :=
  returns r /\ Good s' /\ m_appDomains s' = m_appDomains s /\ (forall mid', registered s' mid' -> registered s mid') /\
  (net20 = false -> ok -> r = Ok tt /\ forall id p asms mods,
     domain_at (core s) id p asms mods -> domain_at (core s') id p asms (delete mid mods)).

Lemma quiet_unloads mid net ok s s' r :
  Good s -> quiet s s' -> returns r ->
  (net = false -> ok -> r = Ok tt /\ forall id p asms mods, domain_at (core s) id p asms mods -> mods !! mid = None) ->
  unloads net ok mid s r s'.
Proof.
  intros Hg Hq Hr Hok. pose proof Hq as [Ec _]. split_and!; [done|by eapply quiet_good|exact (f_equal c_domains Ec)| |].
  - intros mid'. by rewrite (quiet_registered s s').
  - intros Hn Ho. destruct (Hok Hn Ho) as [-> Hall]. split; [done|]. intros id p asms mods Hd. rewrite Ec.
    by rewrite delete_id by (by eapply Hall).
Qed.

Lemma ModuleUnloadFinishedImpl_spec mid hrStatus s :
  Good s -> exists r s', ModuleUnloadFinishedImpl rt methods has_raw mid hrStatus s = (r, s') /\
    unloads (net20 rt) (forall m, FAILED (sent (OnModuleUnloaded m)) = false) mid s r s'.
Proof.
  intros Hg. pose proof Hg as [Hinv _]. unfold ModuleUnloadFinishedImpl. destruct (net20 rt).
  { destruct (raw_run (Raw_ModuleUnloadFinished mid hrStatus) s) as (s' & -> & Hq). exists (Ok tt), s'. split; [done|]. by apply quiet_unloads. }
  destruct (GetModuleInfoById_cases mid s Hinv) as [(id & p & asms & mods & m & Hd & Hm & E)|[E Hno]]; unfold attempt at 1; unfold bind at 1; rewrite E; cycle 1.
  { exists (Ok tt), s. split; [done|]. apply quiet_unloads; [done|done|done|]. intros _ _. split; [done|]. intros id p asms mods Hd.
    destruct (mods !! mid) as [m|] eqn:Hm; [|done]. destruct Hno. exists id, p, asms, mods. split; [done|by eexists]. }
  destruct (send_or_fail_run (OnModuleUnloaded m) s) as (s1 & E1 & Hq1). unfold bind at 1. rewrite E1.
  destruct (FAILED (sent (OnModuleUnloaded m))) eqn:Hf.
  { eexists (Err _), s1. split; [done|]. apply quiet_unloads; [done|done|done|]. intros _ Hok. specialize (Hok m). congruence. }
  destruct (raw_run (Raw_ModuleUnloadFinished mid hrStatus) s1) as (s2 & E2 & Hq2). rewrite (run_bind _ _ _ _ _ E2).
  assert (quiet s s2) as Hq by (by etrans). pose proof (quiet_good _ _ Hq Hg) as Hg2. pose proof Hq as [Ec _].
  destruct (inv_module _ _ _ Hinv _ _ _ _ _ _ Hd Hm) as (a & aid & amods & Hcm & Hca & Ham & Hma & Had).
  rewrite <- Ec in Hcm, Hca. assert (domain_at (core s2) id p asms mods) as Hd2 by (by rewrite Ec).
  destruct (load_module_core _ _ _ _ _ Hcm) as (i & Hi & I1 & I2 & I3). rewrite (run_bind _ _ _ _ _ (load_moduleinfo_run _ _ _ Hi)), I2, I3.
  rewrite (run_bind (deref (Some p)) _ s2 p s2 eq_refl), (run_bind (deref (Some a)) _ s2 a s2 eq_refl).
  destruct (load_domain_core _ _ _ _ _ (proj2 Hd2)) as (d & Hdd & _). destruct (load_assembly_core _ _ _ _ _ Hca) as (j & Hj & _).
  rewrite (unload_run p a m d j i s2 Hi Hdd Hj). exists (Ok tt). eexists. split; [reflexivity|].
  destruct (without_module_good p a m d j i s2 id asms mods aid amods mid Hg2 Hd2 Hm Hcm Hca Hdd Hj Hi) as [Ec' Hg'].
  split_and!; [done|done|etrans; [exact (f_equal c_domains Ec')|exact (f_equal c_domains Ec)]| |].
  - intros mid' (id1 & p1 & asms1 & mods1 & Hd1 & Hm1). rewrite Ec', Ec in Hd1.
    apply (domain_at_set _ _ _ _ _ _ _ _ _ _ _ _ _ Hd) in Hd1 as [(-> & -> & -> & ->)|(_ & _ & Hd1)].
    + exists id, p, asms, mods. split; [done|]. destruct Hm1 as [x Hx]. apply lookup_delete_Some in Hx as [_ ?]. by eexists.
    + by exists id1, p1, asms1, mods1.
  - intros _ _. split; [done|]. intros id1 p1 asms1 mods1 Hd1. rewrite Ec', Ec.
    destruct (domain_at_kept (core s) id p asms mods asms (delete mid mods) (<[a := (aid, Some p, delete mid amods)]> (c_assembly (core s)))
      (<[m := (mid, None, None)]> (c_module (core s))) id1 p1 asms1 mods1 Hd Hd1) as [(-> & -> & ->)|[Hne Hd1']].
    + destruct (domain_at_fun _ _ _ _ _ _ _ _ Hd Hd1) as (_ & <- & _). exact (domain_at_here _ _ _ _ _ _ _ _ _ Hd).
    + rewrite delete_id; [exact Hd1'|]. destruct (mods1 !! mid) as [x|] eqn:Hx; [|done]. destruct Hne.
      destruct (inv_module _ _ _ Hinv _ _ _ _ _ _ Hd1 Hx) as (a1 & aid1 & amods1 & _ & _ & _ & Hma1 & Had1).
      rewrite Hma in Hma1. injection Hma1 as <-. rewrite Had in Had1. injection Had1 as <-.
      by destruct (domain_at_fun _ _ _ _ _ _ _ _ Hd Hd1) as (<- & _).
Qed.

(** The same for assemblies. *)
Definition unloads_assembly (net20 : bool) (ok : Prop) (aid : Z) (s : Registry) (r : outcome unit) (s' : Registry) : Prop :=
  returns r /\ Good s' /\ m_appDomains s' = m_appDomains s /\ (forall mid', registered s' mid' -> registered s mid') /\
  (net20 = false -> ok -> r = Ok tt /\ forall id p asms mods,
     domain_at (core s) id p asms mods -> domain_at (core s') id p (delete aid asms) mods).

Lemma quiet_unloads_assembly aid net ok s s' r :
  Good s -> quiet s s' -> returns r ->
  (net = false -> ok -> r = Ok tt /\ forall id p asms mods, domain_at (core s) id p asms mods -> asms !! aid = None) ->
  unloads_assembly net ok aid s r s'.
Proof.
  intros Hg Hq Hr Hok. pose proof Hq as [Ec _]. split_and!; [done|by eapply quiet_good|exact (f_equal c_domains Ec)| |].
  - intros mid'. by rewrite (quiet_registered s s').
  - intros Hn Ho. destruct (Hok Hn Ho) as [-> Hall]. split; [done|]. intros id p asms mods Hd. rewrite Ec.
    by rewrite delete_id by (by eapply Hall).
Qed.

(** The state after an assembly was taken out of its app domain. *)
Lemma without_assembly_good p d aid s id asms mods :
  Good s -> domain_at (core s) id p asms mods -> r_domains s !! p = Some d ->
  let s' := put_domain p (set_assemblyInfos (delete aid (ad_assemblyInfos d)) d) s in
  core s' = remove_assembly id p asms mods aid (core s) /\ Good s'.
Proof.
  intros [Hinv Hs] Hdom Hd s'. destruct (load_domain_core _ _ _ _ _ (proj2 Hdom)) as (d' & Hd' & D1 & D2 & D3).
  rewrite Hd in Hd'. injection Hd' as <-.
  assert (core s' = remove_assembly id p asms mods aid (core s)) as Ec.
  { unfold s'. rewrite core_put_domain. unfold core_domain. cbn. by rewrite D1, D2, D3. }
  split; [exact Ec|]. split; [unfold Inv; rewrite Ec; by apply remove_assembly_inv|].
  intros Est. destruct (Hs Est) as [Ht Hman]. split; [rewrite Ec; by apply remove_assembly_tidy|exact Hman].
Qed.

Lemma AssemblyUnloadFinishedImpl_spec aid hrStatus s :
  Good s -> exists r s', AssemblyUnloadFinishedImpl rt methods has_raw aid hrStatus s = (r, s') /\
    unloads_assembly (net20 rt) (forall a, FAILED (sent (OnAssemblyUnloaded a)) = false) aid s r s'.
Proof.
  intros Hg. pose proof Hg as [Hinv _]. unfold AssemblyUnloadFinishedImpl. destruct (net20 rt).
  { destruct (raw_run (Raw_AssemblyUnloadFinished aid hrStatus) s) as (s' & -> & Hq). exists (Ok tt), s'. split; [done|]. by apply quiet_unloads_assembly. }
  destruct (GetAssemblyInfoById_cases aid s Hinv) as [(id & p & asms & mods & a & Hd & Ha & E)|[E Hno]];
    unfold attempt at 1; unfold bind at 1; rewrite E; cycle 1.
  { exists (Ok tt), s. split; [done|]. apply quiet_unloads_assembly; [done|done|done|]. intros _ _. split; [done|]. exact Hno. }
  destruct (inv_assembly _ _ _ Hinv _ _ _ _ _ _ Hd Ha) as (amods & Hca & Had).
  destruct (load_assembly_core _ _ _ _ _ Hca) as (j & Hj & J1 & J2 & _).
  rewrite (run_bind _ _ _ _ _ (load_assembly_run _ _ _ Hj)), J2, (run_bind (deref (Some p)) _ s p s eq_refl).
  destruct (load_domain_core _ _ _ _ _ (proj2 Hd)) as (d & Hdd & _).
  unfold Domain_AssemblyInfoUnloaded. rewrite bind_bind, (run_bind _ _ _ _ _ (load_assembly_run _ _ _ Hj)), J1.
  rewrite (run_bind _ _ _ _ _ (update_domain_run p _ d s Hdd)).
  destruct (without_assembly_good p d aid s id asms mods Hg Hd Hdd) as [Ec Hg']. set (s1 := put_domain _ _ s) in *.
  assert (forall s' r, quiet s1 s' -> returns r -> ((forall a, FAILED (sent (OnAssemblyUnloaded a)) = false) -> r = Ok tt) ->
    unloads_assembly false (forall a, FAILED (sent (OnAssemblyUnloaded a)) = false) aid s r s') as Hfin.
  { intros s' r Hq Hr Hok. pose proof Hq as [Eq _]. split_and!; [done|by eapply quiet_good|etrans; [exact (f_equal c_domains Eq)|exact (f_equal c_domains Ec)]| |].
    - intros mid' (id1 & p1 & asms1 & mods1 & Hd1 & Hm1). rewrite Eq, Ec in Hd1.
      apply (domain_at_set _ _ _ _ _ _ _ _ _ _ _ _ _ Hd) in Hd1 as [(-> & -> & -> & ->)|(_ & _ & Hd1)]; unfold registered; eauto 10.
    - intros _ Ho. split; [by apply Hok|]. intros id1 p1 asms1 mods1 Hd1. rewrite Eq, Ec.
      destruct (domain_at_kept (core s) id p asms mods (delete aid asms) mods (c_assembly (core s)) (c_module (core s)) id1 p1 asms1 mods1 Hd Hd1)
        as [(-> & -> & ->)|[Hne Hd1']].
      + destruct (domain_at_fun _ _ _ _ _ _ _ _ Hd Hd1) as (_ & <- & _). exact (domain_at_here _ _ _ _ _ _ _ _ _ Hd).
      + rewrite delete_id; [exact Hd1'|]. destruct (asms1 !! aid) as [x|] eqn:Hx; [|done]. destruct Hne.
        destruct (inv_assembly _ _ _ Hinv _ _ _ _ _ _ Hd1 Hx) as (amods1 & _ & Had1). rewrite Had in Had1. injection Had1 as <-.
        by destruct (domain_at_fun _ _ _ _ _ _ _ _ Hd Hd1) as (<- & _). }
  destruct (send_or_fail_run (OnAssemblyUnloaded a) s1) as (s2 & E1 & Hq1). unfold bind at 1. rewrite E1.
  destruct (FAILED (sent (OnAssemblyUnloaded a))) eqn:Hf.
  { eexists (Err _), s2. split; [done|]. apply Hfin; [done|done|]. intros Hok. specialize (Hok a). congruence. }
  destruct (raw_run (Raw_AssemblyUnloadFinished aid hrStatus) s2) as (s3 & -> & Hq2). exists (Ok tt), s3. split; [done|].
  apply Hfin; [by etrans|done|done].
Qed.

Lemma ModuleUnloadStartedImpl_run mid s :
  Inv s -> exists s', ModuleUnloadStartedImpl rt has_raw mid s = (Ok tt, s') /\ quiet s s'.
Proof.
  intros Hinv. unfold ModuleUnloadStartedImpl. destruct (net20 rt); [apply raw_run|].
  destruct (GetModuleInfoById_cases mid s Hinv) as [(id & p & asms & mods & m & Hd & Hm & E)|[E Hno]]; unfold attempt, bind; rewrite E;
    [apply raw_run|by exists s].
Qed.

Lemma AssemblyUnloadStartedImpl_run aid s :
  Inv s -> exists s', AssemblyUnloadStartedImpl rt has_raw aid s = (Ok tt, s') /\ quiet s s'.
Proof.
  intros Hinv. unfold AssemblyUnloadStartedImpl. destruct (net20 rt); [apply raw_run|].
  destruct (GetAssemblyInfoById_cases aid s Hinv) as [(id & p & asms & mods & m & Hd & Hm & E)|[E Hno]]; unfold attempt, bind; rewrite E;
    [apply raw_run|by exists s].
Qed.

(** The loop over the modules of an app domain that is shut down. *)
Lemma fabricated_modules l s :
  net20 rt = false -> Good s ->
  exists r s', for_each (fun mid => ModuleUnloadStartedImpl rt has_raw mid ;;; ModuleUnloadFinishedImpl rt methods has_raw mid S_OK) l s = (r, s') /\
    returns r /\ Good s' /\ m_appDomains s' = m_appDomains s /\ (forall mid', registered s' mid' -> registered s mid') /\
    ((forall m, FAILED (sent (OnModuleUnloaded m)) = false) -> r = Ok tt /\ forall id p asms mods,
       domain_at (core s) id p asms mods -> exists mods', domain_at (core s') id p asms mods' /\
         forall k x, mods' !! k = Some x <-> mods !! k = Some x /\ k ∉ l).
Proof.
  intros Hnet. revert s. induction l as [|mid l IH]; intros s Hg; cbn [for_each].
  { exists (Ok tt), s. split_and!; auto; [done|]. intros _. split; [done|]. intros id p asms mods Hd. exists mods. split; [done|].
    intros k x. split; [|tauto]. intros ?. split; [done|apply not_elem_of_nil]. }
  destruct (ModuleUnloadStartedImpl_run mid s (proj1 Hg)) as (s1 & E1 & Hq1).
  destruct (ModuleUnloadFinishedImpl_spec mid S_OK s1 (quiet_good _ _ Hq1 Hg)) as (r & s2 & E2 & Hr & Hg2 & Hdom2 & Hreg2 & Hok2).
  rewrite bind_bind, (run_bind _ _ _ _ _ E1). unfold bind at 1. rewrite E2.
  assert (forall mid', registered s2 mid' -> registered s mid') as Hreg by (intros k Hk; rewrite <- (quiet_registered s s1); auto).
  assert (m_appDomains s2 = m_appDomains s) as Hdom by (rewrite Hdom2; exact (f_equal c_domains (proj1 Hq1))).
  destruct r as [[]|hr| |]; [|exists (Err hr), s2|done..].
  - destruct (IH s2 Hg2) as (r & s3 & E3 & Hr3 & Hg3 & Hdom3 & Hreg3 & Hok3). exists r, s3. split_and!; [exact E3|done|done|congruence|auto|].
    intros Ho. destruct (Hok2 Hnet Ho) as [_ Hd2]. destruct (Hok3 Ho) as [-> Hd3]. split; [done|]. intros id p asms mods Hd.
    destruct (Hd3 id p asms (delete mid mods)) as (mods' & Hd' & Hm'); [apply Hd2; by rewrite (proj1 Hq1)|].
    exists mods'. split; [done|]. intros k x. rewrite Hm', lookup_delete_Some, not_elem_of_cons. naive_solver.
  - split_and!; [done|done|done|done|done|]. intros Ho. by destruct (Hok2 Hnet Ho).
Qed.

Lemma fabricated_assemblies l s :
  net20 rt = false -> Good s ->
  exists r s', for_each (fun aid => AssemblyUnloadStartedImpl rt has_raw aid ;;; AssemblyUnloadFinishedImpl rt methods has_raw aid S_OK) l s = (r, s') /\
    returns r /\ Good s' /\ m_appDomains s' = m_appDomains s /\ (forall mid', registered s' mid' -> registered s mid') /\
    ((forall a, FAILED (sent (OnAssemblyUnloaded a)) = false) -> r = Ok tt /\ forall id p asms mods,
       domain_at (core s) id p asms mods -> exists asms', domain_at (core s') id p asms' mods /\
         forall k x, asms' !! k = Some x <-> asms !! k = Some x /\ k ∉ l).
Proof.
  intros Hnet. revert s. induction l as [|aid l IH]; intros s Hg; cbn [for_each].
  { exists (Ok tt), s. split_and!; auto; [done|]. intros _. split; [done|]. intros id p asms mods Hd. exists asms. split; [done|].
    intros k x. split; [|tauto]. intros ?. split; [done|apply not_elem_of_nil]. }
  destruct (AssemblyUnloadStartedImpl_run aid s (proj1 Hg)) as (s1 & E1 & Hq1).
  destruct (AssemblyUnloadFinishedImpl_spec aid S_OK s1 (quiet_good _ _ Hq1 Hg)) as (r & s2 & E2 & Hr & Hg2 & Hdom2 & Hreg2 & Hok2).
  rewrite bind_bind, (run_bind _ _ _ _ _ E1). unfold bind at 1. rewrite E2.
  assert (forall mid', registered s2 mid' -> registered s mid') as Hreg by (intros k Hk; rewrite <- (quiet_registered s s1); auto).
  assert (m_appDomains s2 = m_appDomains s) as Hdom by (rewrite Hdom2; exact (f_equal c_domains (proj1 Hq1))).
  destruct r as [[]|hr| |]; [|exists (Err hr), s2|done..].
  - destruct (IH s2 Hg2) as (r & s3 & E3 & Hr3 & Hg3 & Hdom3 & Hreg3 & Hok3). exists r, s3. split_and!; [exact E3|done|done|congruence|auto|].
    intros Ho. destruct (Hok2 Hnet Ho) as [_ Hd2]. destruct (Hok3 Ho) as [-> Hd3]. split; [done|]. intros id p asms mods Hd.
    destruct (Hd3 id p (delete aid asms) mods) as (asms' & Hd' & Hm'); [apply Hd2; by rewrite (proj1 Hq1)|].
    exists asms'. split; [done|]. intros k x. rewrite Hm', lookup_delete_Some, not_elem_of_cons. naive_solver.
  - split_and!; [done|done|done|done|done|]. intros Ho. by destruct (Hok2 Hnet Ho).
Qed.

(** ** Every callback *)

Lemma map_fst_items {A} (m : gmap Z A) k : k ∈ map fst (items m) <-> is_Some (m !! k).
Proof.
  rewrite (list_elem_of_fmap fst (items m) k). split.
  - intros ([k' x] & -> & Hin). apply elem_of_items in Hin. by eexists.
  - intros [x Hx]. exists (k, x). split; [done|]. by apply elem_of_items.
Qed.

Lemma emptied {A} (m m' : gmap Z A) (l : list Z) :
  (forall k, k ∈ l <-> is_Some (m !! k)) -> (forall k x, m' !! k = Some x <-> m !! k = Some x /\ k ∉ l) -> m' = ∅.
Proof.
  intros Hl Hm. apply map_eq. intros k. rewrite lookup_empty. destruct (m' !! k) as [x|] eqn:E; [|done].
  apply Hm in E as [E Hk]. destruct Hk. apply Hl. by eexists.
Qed.

(** The collections of an app domain after the fabricated unloads. *)
Lemma fabricated id p s :
  net20 rt = false -> Good s -> m_appDomains s !! id = Some p ->
  exists s', (_ <- attempt (SendFabricatedModuleUnloads rt methods has_raw p) ;; _ <- attempt (SendFabricatedAssemblyUnloads rt methods has_raw p) ;; ret tt) s
      = (Ok tt, s') /\ Good s' /\ m_appDomains s' = m_appDomains s /\ (forall mid', registered s' mid' -> registered s mid') /\
    (accepting -> domain_at (core s') id p ∅ ∅).
Proof.
  intros Hnet Hg Hp. destruct (inv_domain _ _ _ (proj1 Hg) _ _ Hp) as (asms & mods & Hc).
  destruct (load_domain_core _ _ _ _ _ Hc) as (d & Hd & _ & Ea & Em).
  assert (domain_at (core s) id p asms mods) as Hdom by (by split).
  destruct (fabricated_modules (map fst (items (ad_moduleInfos d))) s Hnet Hg) as (r1 & s1 & E1 & Hr1 & Hg1 & Hdom1 & Hreg1 & Hok1).
  assert (m_appDomains s1 !! id = Some p) as Hp1 by congruence.
  destruct (inv_domain _ _ _ (proj1 Hg1) _ _ Hp1) as (asms1 & mods1 & Hc1).
  destruct (load_domain_core _ _ _ _ _ Hc1) as (d1 & Hd1 & _ & Ea1 & Em1).
  destruct (fabricated_assemblies (map fst (items (ad_assemblyInfos d1))) s1 Hnet Hg1) as (r2 & s2 & E2 & Hr2 & Hg2 & Hdom2 & Hreg2 & Hok2).
  exists s2. split; [|split_and!; [done|congruence|auto|]].
  - assert (SendFabricatedModuleUnloads rt methods has_raw p s = (r1, s1)) as F1.
    { unfold SendFabricatedModuleUnloads, GetModuleIds. by rewrite bind_bind, (run_bind _ _ _ _ _ (load_domain_run _ _ _ Hd)). }
    assert (SendFabricatedAssemblyUnloads rt methods has_raw p s1 = (r2, s2)) as F2.
    { unfold SendFabricatedAssemblyUnloads, GetAssemblyIds. by rewrite bind_bind, (run_bind _ _ _ _ _ (load_domain_run _ _ _ Hd1)). }
    by rewrite (run_bind _ _ _ _ _ (attempt_run _ _ _ _ F1 Hr1)), (run_bind _ _ _ _ _ (attempt_run _ _ _ _ F2 Hr2)).
  - intros [Ho1 Ho2]. destruct (Hok1 Ho1) as [_ H1]. destruct (H1 _ _ _ _ Hdom) as (mods1' & Hd1' & Hm1).
    assert (domain_at (core s1) id p asms1 mods1) as Hdom1' by (by split).
    destruct (domain_at_fun _ _ _ _ _ _ _ _ Hdom1' Hd1') as (_ & -> & ->).
    rewrite (emptied mods mods1' (map fst (items (ad_moduleInfos d)))) in Hd1'; [|intros k; rewrite Em; apply map_fst_items|exact Hm1].
    destruct (Hok2 Ho2) as [_ H2]. destruct (H2 _ _ _ _ Hd1') as (asms2 & Hd2 & Ha2).
    by rewrite (emptied asms asms2 (map fst (items (ad_assemblyInfos d1)))) in Hd2; [|intros k; rewrite Ea1; apply map_fst_items|exact Ha2].
Qed.

Lemma RemoveAppDomainInfo_spec id p s :
  Good s -> m_appDomains s !! id = Some p -> (strict = true -> domain_at (core s) id p ∅ ∅) ->
  exists s', RemoveAppDomainInfo id s = (Ok tt, s') /\ Good s' /\ core s' = remove_domain id (core s) /\
    (forall mid', registered s' mid' -> registered s mid').
Proof.
  intros [Hinv Hs] Hp Hem. exists (set_collection (delete id (m_appDomains s)) s). split; [|split; [|split; [done|]]].
  - unfold RemoveAppDomainInfo, gets, bind, Datatypes.id. by rewrite Hp.
  - split; [exact (remove_domain_inv asm_domain mod_asm (core s) id Hinv)|]. intros Est. destruct (Hs Est) as [Ht Hman].
    split; [exact (remove_domain_tidy (core s) id p Ht (Hem Est))|exact Hman].
  - intros mid' (id1 & p1 & asms1 & mods1 & [H1 H2] & Hm). exists id1, p1, asms1, mods1. split; [|done]. split; [|done].
    cbn in H1. by apply lookup_delete_Some in H1 as [_ H1].
Qed.

(** A step that returns, keeps the invariant and registers nothing but [new]. *)
Definition step_ok (new : Z -> Prop) (m : R unit) (s : Registry) : Prop :=
  returns (m s).1 /\ Good (m s).2 /\ forall mid, registered (m s).2 mid -> registered s mid \/ new mid.

Definition nothing (mid : Z) : Prop := False.

Lemma step_quiet new m s r s' : Good s -> m s = (r, s') -> returns r -> quiet s s' -> step_ok new m s.
Proof.
  intros Hg E Hr Hq. unfold step_ok. rewrite E. split_and!; [done|by eapply quiet_good|].
  intros mid. rewrite (quiet_registered s s' mid Hq). by left.
Qed.

Lemma step_raw new e s : Good s -> step_ok new (SendEventToRaw has_raw e) s.
Proof. intros Hg. destruct (raw_run e s) as (s' & E & Hq). by eapply step_quiet. Qed.

Lemma step_then_raw new m e s : step_ok new m s -> step_ok new (m ;;; SendEventToRaw has_raw e) s.
Proof.
  intros (Hr & Hg & Hn). unfold step_ok, bind in *. destruct (m s) as [[[]|hr| |] s'] eqn:E; cbn [fst snd] in *; try done.
  destruct (raw_run e s') as (s'' & -> & Hq). split_and!; [done|by eapply quiet_good|]. intros mid. rewrite (quiet_registered s' s'' mid Hq). apply Hn.
Qed.

Lemma AppDomainShutdownFinished_spec id hrStatus s :
  Good s -> (strict = true -> accepting) -> step_ok nothing (AppDomainShutdownFinished rt methods has_raw id hrStatus) s.
Proof.
  intros Hg Hacc. unfold AppDomainShutdownFinished. apply step_then_raw. destruct (net20 rt) eqn:Hnet; [by eapply step_quiet|].
  unfold step_ok. pose proof (GetAppDomainById_run id s) as Eg.
  destruct (m_appDomains s !! id) as [p|] eqn:Hp; [rewrite (run_bind _ _ _ _ _ Eg)|unfold bind; rewrite Eg; by split_and!; auto].
  destruct (fabricated id p s Hnet Hg Hp) as (s1 & E1 & Hg1 & Hdom1 & Hreg1 & Hok1).
  assert (forall k : R unit, (_ <- attempt (SendFabricatedModuleUnloads rt methods has_raw p) ;;
    _ <- attempt (SendFabricatedAssemblyUnloads rt methods has_raw p) ;; k) s = k s1) as Ek.
  { intros k. unfold bind, ret in E1 |- *. destruct (attempt (SendFabricatedModuleUnloads rt methods has_raw p) s) as [[?|?| |] ?]; try done.
    destruct (attempt (SendFabricatedAssemblyUnloads rt methods has_raw p) _) as [[?|?| |] ?]; try done. by injection E1 as <-. }
  rewrite Ek. destruct (send_or_fail_run (OnAppDomainShutdown p) s1) as (s2 & E2 & Hq2). unfold bind. rewrite E2.
  destruct (FAILED (sent (OnAppDomainShutdown p))).
  { split_and!; [done|by eapply quiet_good|]. intros mid. rewrite (quiet_registered s1 s2 mid Hq2). auto. }
  destruct (RemoveAppDomainInfo_spec id p s2) as (s3 & E3 & Hg3 & _ & Hreg3).
  - by eapply quiet_good.
  - etrans; [|exact Hp]. f_equal. etrans; [exact (f_equal c_domains (proj1 Hq2))|done].
  - intros Est. rewrite (proj1 Hq2). by apply Hok1, Hacc.
  - rewrite E3. split_and!; [done|done|]. intros mid Hm. left. apply Hreg1. rewrite <- (quiet_registered s1 s2 mid Hq2). auto.
Qed.

Lemma put_domain_quiet p d d' s : r_domains s !! p = Some d -> core_domain d' = core_domain d -> quiet s (put_domain p d' s).
Proof.
  intros Hd Hc. split; [|done].
  assert (<[p := core_domain d]> (core_domain <$> r_domains s) = core_domain <$> r_domains s) as E
    by (rewrite <- fmap_insert; f_equal; by apply insert_id).
  rewrite core_put_domain, Hc. cbn [core c_domain]. by rewrite E.
Qed.

Lemma FinishInitialization_settled p d s :
  RuntimeReturns -> r_domains s !! p = Some d -> answers (FinishInitialization p (AppDomainNameLength rt) (AppDomainName rt)) s.
Proof.
  intros Hret Hd. unfold FinishInitialization. apply answers_bind; [unfold answers; by rewrite (load_domain_run _ _ _ Hd)|].
  rewrite (load_domain_run _ _ _ Hd). intros d0 [= <-]. cbn [snd].
  pose proof (ret_length Hret (m_appDomainId d)) as Hl. unfold answers, bind, attempt, lift.
  destruct (AppDomainNameLength rt (m_appDomainId d)) as [n|hr| |]; try (by split); try done.
  destruct (n =? 0); [by split|]. pose proof (ret_name Hret (m_appDomainId d) n) as Hn.
  destruct (AppDomainName rt (m_appDomainId d) n) as [[n' name]|hr| |]; try (by split); try done.
  destruct (negb _); [by split|]. cbn [modify fst snd]. unfold modify.
  assert (quiet s (put_domain p (set_names name d) s)) as Hq by (by eapply put_domain_quiet).
  destruct (negb (m_bIsInitialized d)); [|by split]. split; [done|]. etrans; [exact Hq|].
  eapply put_domain_quiet; [apply lookup_insert_eq|done].
Qed.

Lemma step_send e new s : Good s -> step_ok new (send_or_fail methods e) s.
Proof.
  intros Hg. destruct (send_or_fail_run e s) as (s' & E & Hq). eapply step_quiet; [done|exact E|by destruct (FAILED _)|done].
Qed.

(** A computation whose result is passed on to a step. *)
Lemma step_bind {A} new (m : R A) (k : A -> R unit) s r s' :
  m s = (r, s') -> returns r -> Good s' -> (forall mid, registered s' mid -> registered s mid \/ new mid) ->
  (forall a, r = Ok a -> step_ok new (k a) s') -> step_ok new (bind m k) s.
Proof.
  intros E Hr Hg Hn Hk. unfold step_ok, bind. rewrite E. destruct r as [a|hr| |]; try done.
  destruct (Hk a eq_refl) as (H1 & H2 & H3). split_and!; [done|done|]. intros mid Hm. destruct (H3 mid Hm) as [Hm'|]; [|by right]. by apply Hn.
Qed.

(** The modules that a callback may register. *)
Definition may_register (c : Callback) (mid : Z) : Prop :=
  match c with
  | C_ModuleAttachedToAssembly id _ => mid = id
  | C_ProfilerAttachComplete => exists ids, EnumModules rt = Ok ids /\ mid ∈ ids
  | _ => False
  end.

(** The protocol of the runtime: a module is attached once. *)
Definition legal (c : Callback) (s : Registry) : Prop :=
  match c with
  | C_ModuleAttachedToAssembly id _ => ~ registered s id
  | C_ProfilerAttachComplete => forall ids, EnumModules rt = Ok ids -> NoDup ids /\ forall id, id ∈ ids -> ~ registered s id
  | _ => True
  end.

Lemma attach_loop ids s :
  RuntimeReturns -> Good s -> (strict = true -> NoDup ids /\ forall id, id ∈ ids -> ~ registered s id) ->
  step_ok (fun mid => mid ∈ ids) (for_each (fun id => _ <- ConstructModuleInfo rt id ;; ret tt) ids) s.
Proof.
  intros Hret. revert s. induction ids as [|id ids IH]; intros s Hg Hl; cbn [for_each].
  { split_and!; [done|done|by left]. }
  destruct (ConstructModuleInfo_spec id s Hret Hg) as (r & s' & E & Hr & Hg' & Hn & _).
  { intros Est. destruct (Hl Est) as [_ Hl']. apply Hl'. apply list_elem_of_here. }
  assert (forall mid, registered s' mid -> registered s mid \/ mid ∈ id :: ids) as Hn'.
  { intros mid Hm. destruct (Hn mid Hm) as [?| ->]; [by left|right; apply list_elem_of_here]. }
  assert ((_ <- ConstructModuleInfo rt id ;; ret tt) s = (match r with Ok _ => Ok tt | Err hr => Err hr | Undef u => Undef u | NoFuel => NoFuel end, s')) as E'
    by (unfold bind; rewrite E; by destruct r).
  eapply step_bind; [exact E'|by destruct r|done|done|]. intros m _. destruct (IH s' Hg') as (H1 & H2 & H3).
  { intros Est. destruct (Hl Est) as [Hnd Hun]. apply NoDup_cons in Hnd as [Hni Hnd]. split; [done|]. intros k Hk Hreg.
    destruct (Hn k Hreg) as [Hreg'| ->]; [|done]. by apply (Hun k); [apply list_elem_of_further|]. }
  split_and!; [exact H1|exact H2|]. intros mid Hm. destruct (H3 mid Hm); [by left|right; by apply list_elem_of_further].
Qed.

Lemma callback_ok c s :
  RuntimeReturns -> Good s -> (strict = true -> accepting /\ legal c s) ->
  step_ok (may_register c) (callback rt methods has_raw c) s.
Proof.
  intros Hret Hg Hst. destruct c as [id|id hr|id|id hr|id|id hr|id|id hr|id|id hr|id|id hr|id aid|]; cbn [callback may_register].
  - unfold AppDomainCreationStarted. apply step_then_raw. destruct (net20 rt); [by eapply step_quiet|].
    destruct (find_or_construct_domain_spec id s Hg) as (p & s' & E & Hg' & [_ Hn] & _). eapply step_bind; [exact E|done|done| |].
    + intros mid Hm. destruct (Hn mid Hm); [by left|done].
    + intros a _. by eapply step_quiet.
  - unfold AppDomainCreationFinished. destruct (net20 rt); [by apply step_raw|]. destruct (FAILED hr); [by eapply step_quiet|].
    eapply step_bind; [apply GetAppDomainById_run|by destruct (_ !! id)|done|by left|]. intros p Hp.
    destruct (m_appDomains s !! id) as [p'|] eqn:Hp'; [injection Hp as ->|done].
    destruct (inv_domain _ _ _ (proj1 Hg) _ _ Hp') as (asms & mods & Hc). destruct (load_domain_core _ _ _ _ _ Hc) as (d & Hd & _).
    destruct (FinishInitialization_settled p d s Hret Hd) as [Hr Hq].
    destruct (FinishInitialization _ _ _ s) as [r s1] eqn:E1. cbn [fst snd] in Hr, Hq.
    eapply step_bind; [exact E1|done|by eapply quiet_good| |].
    { intros mid. rewrite (quiet_registered s s1 mid Hq). by left. }
    intros u _. destruct (send_run (OnAppDomainCreated p) s1) as (s2 & E2 & Hq2).
    eapply step_bind; [exact E2|done|eapply quiet_good; [exact Hq2|by eapply quiet_good]| |].
    { intros mid. rewrite (quiet_registered s1 s2 mid Hq2). by left. }
    intros x _. apply step_raw. eapply quiet_good; [exact Hq2|by eapply quiet_good].
  - by apply step_raw.
  - destruct (AppDomainShutdownFinished_spec id hr s Hg) as (H1 & H2 & H3); [intros Est; by apply Hst|]. by split_and!.
  - by apply step_raw.
  - unfold AssemblyLoadFinished. apply step_then_raw. destruct (net20 rt); [by eapply step_quiet|].
    destruct (find_or_construct_assembly_spec id s (ret_assembly Hret) Hg) as (r & s' & E & Hr & Hg' & [_ Hn] & _).
    eapply step_bind; [exact E|done|done| |intros a _; by apply step_send]. intros mid Hm. destruct (Hn mid Hm); [by left|done].
  - unfold AssemblyUnloadStarted. destruct (AssemblyUnloadStartedImpl_run id s (proj1 Hg)) as (s' & E & Hq). by eapply step_quiet.
  - unfold AssemblyUnloadFinished. destruct (AssemblyUnloadFinishedImpl_spec id hr s Hg) as (r & s' & E & Hr & Hg' & _ & Hn & _).
    unfold step_ok. rewrite E. split_and!; auto.
  - by apply step_raw.
  - by apply step_raw.
  - unfold ModuleUnloadStarted. destruct (ModuleUnloadStartedImpl_run id s (proj1 Hg)) as (s' & E & Hq). by eapply step_quiet.
  - unfold ModuleUnloadFinished. destruct (ModuleUnloadFinishedImpl_spec id hr s Hg) as (r & s' & E & Hr & Hg' & _ & Hn & _).
    unfold step_ok. rewrite E. split_and!; auto.
  - unfold ModuleAttachedToAssembly. apply step_then_raw. destruct (net20 rt); [by eapply step_quiet|].
    destruct (ConstructModuleInfo_spec id s Hret Hg) as (r & s' & E & Hr & Hg' & Hn & _); [intros Est; by apply Hst|].
    eapply step_bind; [exact (attempt_run _ _ _ _ E Hr)|done|done|exact Hn|]. intros x [= <-].
    destruct r; [by apply step_send|by eapply step_quiet..].
  - unfold ProfilerAttachComplete. pose proof (ret_enum Hret) as He.
    eapply (step_bind _ (lift (EnumModules rt)) _ s (EnumModules rt) s eq_refl); [done|done|by left|]. intros ids Hids.
    destruct (attach_loop ids s Hret Hg) as (H1 & H2 & H3); [intros Est; apply Hst in Est as [_ Hl]; by apply Hl|].
    destruct (for_each _ ids s) as [r s1] eqn:E. cbn [fst snd] in *.
    eapply step_bind; [exact E|done|done| |intros u _; apply step_then_raw; by apply step_send].
    intros mid Hm. destruct (H3 mid Hm); [by left|right; by exists ids].
Qed.

(** ** Sequences of callbacks *)

Lemma core_empty : core empty_registry = mkCore ∅ ∅ ∅ ∅.
Proof. unfold core. cbn. by rewrite !fmap_empty. Qed.

Lemma empty_good : Good empty_registry.
Proof.
  split.
  - unfold Inv. rewrite core_empty. split; unfold domain_at; cbn; intros *; rewrite ?lookup_empty; naive_solver.
  - intros _. split; [rewrite core_empty; split; cbn; intros *; rewrite lookup_empty; naive_solver|].
    intros a aid po amods m. rewrite core_empty. cbn. by rewrite lookup_empty.
Qed.

(** The protocol along a sequence of callbacks. *)
Fixpoint legal_run (cs : list Callback) (s : Registry) : Prop :=
  match cs with
  | [] => True
  | c :: cs => legal c s /\ legal_run cs (callback rt methods has_raw c s).2
  end.

Lemma callbacks_good cs s :
  RuntimeReturns -> Good s -> (strict = true -> accepting /\ legal_run cs s) ->
  Good (callbacks rt methods has_raw cs s) /\
  forall cs1 c cs2, cs = cs1 ++ c :: cs2 -> returns (callback rt methods has_raw c (callbacks rt methods has_raw cs1 s)).1.
Proof.
  intros Hret. revert s. induction cs as [|c cs IH]; intros s Hg Hst.
  { split; [exact Hg|]. by intros [|? ?] ? ? ?. }
  destruct (callback_ok c s Hret Hg) as (Hr & Hg' & _).
  { intros Est. destruct (Hst Est) as [? [? _]]. by split. }
  destruct (IH (callback rt methods has_raw c s).2 Hg') as [I1 I2].
  { intros Est. destruct (Hst Est) as [? [_ ?]]. by split. }
  split; [exact I1|]. intros [|c1 cs1] c' cs2 [= E1 E2]; subst; [exact Hr|]. exact (I2 _ _ _ eq_refl).
Qed.

(** ** Lookups after loads and unloads *)

Lemma module_in_found s mid m : Inv s -> module_in s mid m -> GetModuleInfoById mid s = (Ok m, s).
Proof.
  intros Hinv (id & p & asms & mods & Hd & Hm).
  destruct (GetModuleInfoById_cases mid s Hinv) as [(id1 & p1 & asms1 & mods1 & m1 & Hd1 & Hm1 & E)|[_ Hno]]; cycle 1.
  { destruct Hno. exists id, p, asms, mods. split; [done|by eexists]. }
  destruct (inv_module _ _ _ Hinv _ _ _ _ _ _ Hd Hm) as (a & aid & k & _ & _ & _ & E1 & E2).
  destruct (inv_module _ _ _ Hinv _ _ _ _ _ _ Hd1 Hm1) as (a1 & aid1 & k1 & _ & _ & _ & F1 & F2).
  rewrite E1 in F1. injection F1 as <-. rewrite E2 in F2. injection F2 as <-.
  destruct (domain_at_fun _ _ _ _ _ _ _ _ Hd Hd1) as (_ & _ & <-). congruence.
Qed.

Lemma not_registered_found s mid : Inv s -> ~ registered s mid -> GetModuleInfoById mid s = (Err E_FAIL, s).
Proof.
  intros Hinv Hno. destruct (GetModuleInfoById_cases mid s Hinv) as [(id & p & asms & mods & m & Hd & Hm & E)|[E _]]; [|exact E].
  destruct Hno. exists id, p, asms, mods. split; [done|by eexists].
Qed.

End Spec.

(** ** References

    Who holds a counted reference to whom. *)
Inductive object := ODomain (p : ptr) | OAssembly (a : ptr) | OModule (m : ptr).

Inductive refers (s : Registry) : object -> object -> Prop :=
| ref_domain_assembly p d aid a : r_domains s !! p = Some d -> ad_assemblyInfos d !! aid = Some a -> refers s (ODomain p) (OAssembly a)
| ref_domain_module p d mid m : r_domains s !! p = Some d -> ad_moduleInfos d !! mid = Some m -> refers s (ODomain p) (OModule m)
| ref_assembly_domain a j p : r_assemblies s !! a = Some j -> as_pAppDomainInfo j = Some p -> refers s (OAssembly a) (ODomain p)
| ref_assembly_module a j mid m : r_assemblies s !! a = Some j -> as_moduleInfos j !! mid = Some m -> refers s (OAssembly a) (OModule m)
| ref_assembly_manifest a j m : r_assemblies s !! a = Some j -> m_pManifestModule j = Some m -> refers s (OAssembly a) (OModule m)
| ref_module_domain m i p : r_modules s !! m = Some i -> m_pAppDomainInfo i = Some p -> refers s (OModule m) (ODomain p)
| ref_module_assembly m i a : r_modules s !! m = Some i -> m_pAssemblyInfo i = Some a -> refers s (OModule m) (OAssembly a).

(** The app domain that an object is part of. *)
Definition belongs (s : Registry) (o : object) (p : ptr) : Prop :=
  match o with
  | ODomain q => q = p
  | OAssembly a => exists j, r_assemblies s !! a = Some j /\ as_pAppDomainInfo j = Some p
  | OModule m => exists i, r_modules s !! m = Some i /\ m_pAppDomainInfo i = Some p
  end.

Section Cycles.
Context `{UnorderedMap} (rt : Runtime).

(** An object that refers to something, in a tidy state. *)
Lemma live_module s m o :
  Good rt true s -> refers s (OModule m) o ->
  exists id p i a, m_appDomains s !! id = Some p /\ r_modules s !! m = Some i /\ m_pAppDomainInfo i = Some p /\ m_pAssemblyInfo i = Some a.
Proof.
  intros [Hinv Hs] Ho. destruct (Hs eq_refl) as [Ht _].
  assert (exists i, r_modules s !! m = Some i /\ ~ (m_pAppDomainInfo i = None /\ m_pAssemblyInfo i = None)) as (i & Hi & Hn).
  { inversion Ho; subst; eexists; (split; [done|]); intros [? ?]; congruence. }
  destruct (tidy_module _ Ht m (m_moduleID i) (m_pAppDomainInfo i) (m_pAssemblyInfo i)) as [?|(id & p & asms & mods & Hd & Hm)]; [|done|].
  { cbn. by rewrite lookup_fmap, Hi. }
  destruct (inv_module _ _ _ Hinv _ _ _ _ _ _ Hd Hm) as (a & aid & k & Hc & _). cbn in Hc. rewrite lookup_fmap, Hi in Hc.
  cbn in Hc. injection Hc as E1 E2. exists id, p, i, a. split_and!; [exact (proj1 Hd)|done..].
Qed.

Lemma live_domain s p o : Good rt true s -> refers s (ODomain p) o -> exists id, m_appDomains s !! id = Some p.
Proof.
  intros [_ Hs] Ho. destruct (Hs eq_refl) as [Ht _].
  assert (exists d, r_domains s !! p = Some d /\ ~ (ad_assemblyInfos d = ∅ /\ ad_moduleInfos d = ∅)) as (d & Hd & Hn).
  { inversion Ho as [? d ? ? Hd Ha|? d ? ? Hd Ha| | | | |]; subst; exists d; (split; [done|]); intros [E1 E2];
      rewrite ?E1, ?E2, lookup_empty in Ha; done. }
  destruct (tidy_domain _ Ht p (m_appDomainId d) (ad_assemblyInfos d) (ad_moduleInfos d)) as [E|?]; [|by exists (m_appDomainId d)|done].
  cbn. by rewrite lookup_fmap, Hd.
Qed.

Lemma cycle_registered s o :
  Good rt true s -> tc (refers s) o o -> exists id p, m_appDomains s !! id = Some p /\ belongs s o p.
Proof.
  intros Hg Hcyc.
  assert (exists o' o'', refers s o o' /\ refers s o' o'') as (o' & o'' & H1 & H2).
  { inversion Hcyc as [? ? Hr|? y ? Hr Htc]; subst; [by exists o, o|]. exists y. inversion Htc; subst; eauto. }
  destruct o as [p|a|m].
  - destruct (live_domain s p o' Hg H1) as [id Hid]. by exists id, p.
  - assert (forall m, refers s (OAssembly a) (OModule m) -> refers s (OModule m) o'' ->
      exists id p, m_appDomains s !! id = Some p /\ belongs s (OAssembly a) p) as Hmod.
    { intros m Hr Hm. destruct (live_module s m o'' Hg Hm) as (id & p & i & b & Hid & Hi & Hip & Hib). exists id, p. split; [done|].
      destruct Hg as [_ Hs]. destruct (Hs eq_refl) as [Ht Hman].
      inversion Hr as [| | |? j mid ? Hj Hjm|? j ? Hj Hjm| |]; subst.
      - destruct (tidy_assembly _ Ht a (m_assemblyId j) (as_pAppDomainInfo j) (as_moduleInfos j) mid m) as (q & Eq & Hc); [|done|].
        { cbn. by rewrite lookup_fmap, Hj. }
        cbn in Hc. rewrite lookup_fmap, Hi in Hc. injection Hc as _ E1 _. exists j. split; [done|congruence].
      - destruct (Hman a (m_assemblyId j) (as_pAppDomainInfo j) (as_moduleInfos j) m) as (mid & [Hc|Hc]).
        { cbn. by rewrite lookup_fmap, Hj. }
        { unfold manifest_of. by rewrite Hj. }
        + cbn in Hc. rewrite lookup_fmap, Hi in Hc. injection Hc as _ E1 _. congruence.
        + cbn in Hc. rewrite lookup_fmap, Hi in Hc. injection Hc as _ E1 _. exists j. split; [done|congruence]. }
    destruct o' as [p|b|m]; [|inversion H1|by eapply Hmod].
    destruct (live_domain s p o'' Hg H2) as [id Hid]. exists id, p. split; [done|].
    inversion H1 as [| |? j ? Hj Hjp| | | |]; subst. by exists j.
  - destruct (live_module s m o' Hg H1) as (id & p & i & b & Hid & Hi & Hip & _). exists id, p. split; [done|]. by exists i.
Qed.

End Cycles.
