(* ===== verification/RegistryRuns.v ===== *)
(** The properties of the registry of app domains, assemblies and modules, with a sample
    runtime, and what goes wrong outside the protocol. *)
From S2P Require Import Prelude Instruction Enumerator ModuleInfo Registry RegistryCore RegistrySpec.

Section Runs.
Context `{UnorderedMap} (rt : Runtime) (methods : list (Event -> HRESULT)) (has_raw : bool).

(** The state after some callbacks of the runtime. *)
Notation run cs := (callbacks rt methods has_raw cs empty_registry).

Lemma run_inv cs : RuntimeReturns rt -> Inv rt (run cs).
Proof. intros Hret. by apply (callbacks_good rt methods has_raw false cs empty_registry Hret (empty_good rt false)). Qed.

Lemma inv_good s : Inv rt s -> Good rt false s.
Proof. by split. Qed.

Lemma run_good cs :
  RuntimeReturns rt -> accepting methods -> legal_run rt methods has_raw cs empty_registry -> Good rt true (run cs).
Proof. intros Hret Ha Hl. by apply (callbacks_good rt methods has_raw true cs empty_registry Hret (empty_good rt true)). Qed.

(** A lookup that fails tells that the module is not registered. *)
Lemma lookup_fails_unregistered cs mid :
  RuntimeReturns rt -> (GetModuleInfoById mid (run cs)).1 = Err E_FAIL -> ~ registered (run cs) mid.
Proof.
  intros Hret E. destruct (GetModuleInfoById_cases rt mid _ (run_inv cs Hret)) as [(? & ? & ? & ? & ? & _ & _ & E')|[_ Hn]]; [|done].
  by rewrite E' in E.
Qed.

(** C28: whatever callbacks the runtime makes, in whatever order, and whatever the
    instrumentation methods answer: app domains, assemblies and modules are registered under
    their ids where the runtime says they belong, every registered module is in the
    collection of its assembly and every module of a registered assembly in that of the app
    domain, and no callback dereferences a null or dangling object. *)
Theorem callbacks_invariant cs :
  RuntimeReturns rt ->
  CoreInv (asm_domain rt) (mod_asm rt) (core (run cs)) /\
  forall cs1 c cs2, cs = cs1 ++ c :: cs2 -> returns (callback rt methods has_raw c (run cs1)).1.
Proof.
  intros Hret. destruct (callbacks_good rt methods has_raw false cs empty_registry Hret (empty_good rt false)) as [[Hinv _] Hret']; done.
Qed.

(** A module that was constructed is what lookups by its id find, and it is in the
    collections of its assembly and of its app domain, to which it refers. *)
Theorem ConstructModuleInfo_found cs mid m s' :
  RuntimeReturns rt -> ConstructModuleInfo rt mid (run cs) = (Ok m, s') ->
  GetModuleInfoById mid s' = (Ok m, s') /\
  exists id p a d i j, m_appDomains s' !! id = Some p /\ r_domains s' !! p = Some d /\ ad_moduleInfos d !! mid = Some m /\
    r_modules s' !! m = Some i /\ m_pAppDomainInfo i = Some p /\ m_pAssemblyInfo i = Some a /\
    r_assemblies s' !! a = Some j /\ as_moduleInfos j !! mid = Some m /\ as_pAppDomainInfo j = Some p.
Proof.
  intros Hret E. pose proof (run_inv cs Hret) as Hinv.
  destruct (ConstructModuleInfo_spec rt false mid (run cs) Hret (inv_good _ Hinv) ltac:(done)) as (r & s1 & E1 & _ & [Hinv1 _] & _ & Hin).
  rewrite E in E1. injection E1 as <- <-. specialize (Hin m eq_refl).
  split; [exact (module_in_found rt s' mid m Hinv1 Hin)|]. destruct Hin as (id & p & asms & mods & Hd & Hm).
  destruct (inv_module _ _ _ Hinv1 _ _ _ _ _ _ Hd Hm) as (a & aid & amods & Hcm & Hca & Ham & _).
  destruct (load_domain_core _ _ _ _ _ (proj2 Hd)) as (d & Hdd & _ & _ & <-).
  destruct (load_module_core _ _ _ _ _ Hcm) as (i & Hi & _ & I2 & I3).
  destruct (load_assembly_core _ _ _ _ _ Hca) as (j & Hj & _ & J2 & <-).
  exists id, p, a, d, i, j. pose proof (proj1 Hd) as Hid. cbn in Hid. by split_and!.
Qed.

(** C29: when no instrumentation method fails it, the unload of a module makes lookups of
    its id fail, leaves the lookups of all other ids as they were, and makes a second
    unload of the same module, as it comes after the unloads that the engine fabricates at
    the shutdown of an app domain, do nothing at all. *)
Theorem ModuleUnloadFinished_forgets cs mid hr :
  RuntimeReturns rt -> rt_version rt <> ClrVersion_2 -> (forall m, FAILED (sent methods (OnModuleUnloaded m)) = false) ->
  exists s', ModuleUnloadFinished rt methods has_raw mid hr (run cs) = (Ok tt, s') /\
    GetModuleInfoById mid s' = (Err E_FAIL, s') /\
    (forall mid', mid' <> mid -> (GetModuleInfoById mid' s').1 = (GetModuleInfoById mid' (run cs)).1) /\
    forall hr', ModuleUnloadFinished rt methods has_raw mid hr' s' = (Ok tt, s').
Proof.
  intros Hret Hv Hok. pose proof (run_inv cs Hret) as Hinv.
  assert (net20 rt = false) as Hnet by by apply Z.eqb_neq.
  destruct (ModuleUnloadFinishedImpl_spec rt methods has_raw false mid hr (run cs) (inv_good _ Hinv))
    as (r & s' & E & _ & [Hinv' _] & Hdom & Hreg & Hdone).
  destruct (Hdone Hnet Hok) as [-> Hdel]. exists s'.
  assert (GetModuleInfoById mid s' = (Err E_FAIL, s')) as Hno.
  { apply (not_registered_found rt); [done|]. intros (id & p & asms & mods & Hd & Hm).
    assert (m_appDomains (run cs) !! id = Some p) as Hp by (rewrite <- Hdom; exact (proj1 Hd)).
    destruct (inv_domain _ _ _ Hinv _ _ Hp) as (asms0 & mods0 & Hc).
    destruct (domain_at_fun _ _ _ _ _ _ _ _ Hd (Hdel id p asms0 mods0 (conj Hp Hc))) as (_ & _ & ->).
    rewrite lookup_delete_eq in Hm. by destruct Hm. }
  split_and!; [exact E|exact Hno| |].
  - intros mid' Hne. destruct (GetModuleInfoById_cases rt mid' (run cs) Hinv) as [(id & p & asms & mods & m & Hd & Hm & E')|[E' Hn]]; rewrite E'.
    + rewrite (module_in_found rt s' mid' m Hinv'); [done|]. exists id, p, asms, (delete mid mods).
      split; [by apply Hdel|by rewrite lookup_delete_ne].
    + rewrite (not_registered_found rt s' mid' Hinv'); [done|]. intros Hr. by apply Hn, Hreg.
  - intros hr'. unfold ModuleUnloadFinished, ModuleUnloadFinishedImpl, attempt, bind. rewrite Hnet. by rewrite Hno.
Qed.

(** C27: the engine leaks no reference cycle.  When modules are attached once and unloads
    are not failed by instrumentation methods, every object on a cycle of references belongs
    to an app domain that is still registered; and when the shutdown of an app domain is
    accepted, the app domain is gone afterwards and none of its objects is on a cycle. *)
Theorem shutdown_releases cs :
  RuntimeReturns rt -> accepting methods -> legal_run rt methods has_raw cs empty_registry ->
  (forall o, tc (refers (run cs)) o o -> exists id p, m_appDomains (run cs) !! id = Some p /\ belongs (run cs) o p) /\
  forall id p hr, rt_version rt <> ClrVersion_2 -> m_appDomains (run cs) !! id = Some p ->
    FAILED (sent methods (OnAppDomainShutdown p)) = false ->
    exists s', AppDomainShutdownFinished rt methods has_raw id hr (run cs) = (Ok tt, s') /\
      m_appDomains s' = delete id (m_appDomains (run cs)) /\ forall o, belongs s' o p -> ~ tc (refers s') o o.
Proof.
  intros Hret Ha Hl. pose proof (run_good cs Hret Ha Hl) as Hg. split; [intros o Ho; exact (cycle_registered rt _ o Hg Ho)|].
  intros id p hr Hv Hp Hf. assert (net20 rt = false) as Hnet by by apply Z.eqb_neq.
  destruct (fabricated rt methods has_raw true id p _ Hnet Hg Hp) as (s1 & E1 & Hg1 & Hdom1 & _ & Hem). specialize (Hem Ha).
  destruct (send_or_fail_run methods (OnAppDomainShutdown p) s1) as (s2 & E2 & Hq2). rewrite Hf in E2.
  assert (domain_at (core s2) id p ∅ ∅) as Hem2 by (rewrite (proj1 Hq2); exact Hem).
  destruct (RemoveAppDomainInfo_spec rt true id p s2 (quiet_good rt true _ _ Hq2 Hg1) (proj1 Hem2) (fun _ => Hem2)) as (s3 & E3 & Hg3 & Ec3 & _).
  destruct (raw_run has_raw (Raw_AppDomainShutdownFinished id hr) s3) as (s4 & E4 & Hq4). pose proof Hq4 as [Ec4 _].
  assert (m_appDomains s4 = delete id (m_appDomains (run cs))) as Hdel.
  { etrans; [exact (f_equal c_domains (eq_trans Ec4 Ec3))|]. cbn. f_equal.
    etrans; [exact (f_equal c_domains (proj1 Hq2))|exact Hdom1]. }
  exists s4. split_and!; [|exact Hdel|].
  - unfold AppDomainShutdownFinished. rewrite Hnet. erewrite run_bind; [exact E4|].
    pose proof (GetAppDomainById_run id (run cs)) as Eg. rewrite Hp in Eg. rewrite (run_bind _ _ _ _ _ Eg).
    unfold bind, ret in E1 |- *. destruct (attempt (SendFabricatedModuleUnloads _ _ _ p) _) as [[?|?| |] ?]; try done.
    destruct (attempt (SendFabricatedAssemblyUnloads _ _ _ p) _) as [[?|?| |] ?]; try done. injection E1 as ->. by rewrite E2, E3.
  - intros o Ho Hcyc. destruct (cycle_registered rt s4 o (quiet_good rt true _ _ Hq4 Hg3) Hcyc) as (id' & p' & Hp' & Hb).
    assert (p' = p) as ->.
    { destruct o; cbn in *; [congruence| |]; destruct Ho as (? & ? & ?), Hb as (? & ? & ?); congruence. }
    rewrite Hdel in Hp'. apply lookup_delete_Some in Hp' as [Hne Hp'].
    destruct (inv_domain _ _ _ (proj1 Hg) _ _ Hp) as (x & y & F1). destruct (inv_domain _ _ _ (proj1 Hg) _ _ Hp') as (x' & y' & F2). congruence.
Qed.

End Runs.

(** ** A runtime

    Assembly 10 with the manifest module 20 in app domain 1; every other module belongs to
    it, and module 30 has resources only.  All modules are dynamic. *)
#[export] Instance listed : UnorderedMap.
Proof. by refine {| items _ _ _ _ m := map_to_list m |}. Defined.

Definition sample_system : System :=
  mkSystem id (fun _ => 0%nat) (fun _ => false) (fun _ => 0) (fun _ _ => None) (fun _ => None).

Definition sample_runtime : Runtime :=
  mkRuntime ClrVersion_4 (fun _ => Ok 2) (fun _ _ => Ok (2, wide "d")) (fun _ => Ok (wide "a", 1, 20))
    (fun _ => Ok (None, wide "a.dll", 10)) (fun mid => if mid =? 30 then None else Some true) (fun _ => Ok true)
    (fun _ => true) (fun _ => true) (fun mid => Ok (1000 + mid)) (fun _ => Ok 0) (Ok [20; 30])
    (mkAssemblyMetadata (fun _ => Ok 0x20000001) (fun _ _ => Ok (None, 0)) (Ok false) (mkStrongName None false)) sample_system.

Lemma sample_runtime_returns : RuntimeReturns sample_runtime.
Proof.
  constructor; try done. intros mid base path aid a d i ai e ae [= <- <- <-].
  unfold ModuleInfo.Initialize. by destruct a, d, i, ai.
Qed.

(** A method that accepts everything. *)
Definition agreeable : Event -> HRESULT := fun _ => S_OK.

(** App domain 1 is created, and modules 20 and 21 of assembly 10 are attached. *)
Definition sample_run : list Callback :=
  [C_AppDomainCreationStarted 1; C_AppDomainCreationFinished 1 S_OK; C_ModuleAttachedToAssembly 20 10;
   C_AssemblyLoadFinished 10 S_OK; C_ModuleAttachedToAssembly 21 10; C_ModuleAttachedToAssembly 30 10].

(** The state after it. *)
Definition after (ms : list (Event -> HRESULT)) (cs : list Callback) : Registry :=
  callbacks sample_runtime ms true cs empty_registry.

Lemma callbacks_invariant_witness :
  CoreInv (asm_domain sample_runtime) (mod_asm sample_runtime) (core (after [agreeable] sample_run)).
Proof. exact (proj1 (callbacks_invariant sample_runtime [agreeable] true sample_run sample_runtime_returns)). Defined.

Lemma ConstructModuleInfo_found_witness :
  exists m s', ConstructModuleInfo sample_runtime 22 (after [agreeable] sample_run) = (Ok m, s') /\
    GetModuleInfoById 22 s' = (Ok m, s').
Proof.
  set (r := ConstructModuleInfo sample_runtime 22 (after [agreeable] sample_run)).
  assert (exists m, r.1 = Ok m) as [m Hm] by (eexists; vm_compute; reflexivity).
  exists m, r.2.
  assert (r = (Ok m, r.2)) as E by (rewrite <- Hm; destruct r; reflexivity).
  split; [exact E|].
  exact (proj1 (ConstructModuleInfo_found sample_runtime [agreeable] true sample_run 22 m r.2 sample_runtime_returns E)).
Defined.

Lemma ModuleUnloadFinished_forgets_witness :
  exists s', ModuleUnloadFinished sample_runtime [agreeable] true 21 S_OK (after [agreeable] sample_run) = (Ok tt, s') /\
    GetModuleInfoById 21 s' = (Err E_FAIL, s').
Proof.
  destruct (ModuleUnloadFinished_forgets sample_runtime [agreeable] true sample_run 21 S_OK sample_runtime_returns
    ltac:(discriminate) ltac:(reflexivity)) as (s' & E1 & E2 & _).
  exists s'. split; [exact E1|exact E2].
Defined.

Lemma sample_run_legal : legal_run sample_runtime [agreeable] true sample_run empty_registry.
Proof.
  repeat split.
  - exact (lookup_fails_unregistered sample_runtime [agreeable] true (take 2 sample_run) 20 sample_runtime_returns eq_refl).
  - exact (lookup_fails_unregistered sample_runtime [agreeable] true (take 4 sample_run) 21 sample_runtime_returns eq_refl).
  - exact (lookup_fails_unregistered sample_runtime [agreeable] true (take 5 sample_run) 30 sample_runtime_returns eq_refl).
Qed.

Lemma shutdown_releases_witness :
  exists p s', m_appDomains (after [agreeable] sample_run) !! 1 = Some p /\
    AppDomainShutdownFinished sample_runtime [agreeable] true 1 S_OK (after [agreeable] sample_run) = (Ok tt, s') /\
    m_appDomains s' = delete 1 (m_appDomains (after [agreeable] sample_run)) /\
    forall o, belongs s' o p -> ~ tc (refers s') o o.
Proof.
  assert (exists p, m_appDomains (after [agreeable] sample_run) !! 1 = Some p) as [p Hp]
    by (eexists; vm_compute; reflexivity).
  destruct (proj2 (shutdown_releases sample_runtime [agreeable] true sample_run sample_runtime_returns
    ltac:(split; reflexivity) sample_run_legal) 1 p S_OK ltac:(discriminate) Hp ltac:(reflexivity)) as (s' & E & Hs').
  exists p, s'. split; [exact Hp|]. split; [exact E|exact Hs'].
Defined.

(** ** Outside the protocol *)

(** An instrumentation method that fails [OnModuleUnloaded] keeps the module from being
    taken out of the collections and from being disposed of, also at the shutdown of its
    app domain: the app domain and its module refer to each other ever after. *)
Definition objecting : Event -> HRESULT := fun e => match e with OnModuleUnloaded _ => E_FAIL | _ => S_OK end.

Lemma failed_unload_leaks_cycle :
  let s := after [objecting] (sample_run ++ [C_AppDomainShutdownFinished 1 S_OK]) in
  m_appDomains s = ∅ /\ exists p, tc (refers s) (ODomain p) (ODomain p).
Proof.
  set (s := after [objecting] (sample_run ++ [C_AppDomainShutdownFinished 1 S_OK])). cbv zeta.
  assert (map_to_list (m_appDomains s) = []) as E by (vm_compute; reflexivity).
  split; [by apply map_to_list_empty_iff|].
  assert (exists p m, (r_domains s !! p ≫= (fun d => ad_moduleInfos d !! 20)) = Some m /\ (r_modules s !! m ≫= m_pAppDomainInfo) = Some p)
    as (p & m & Hm & Hp) by (exists 1%positive, 1%positive; split; vm_compute; reflexivity).
  exists p. apply bind_Some in Hm as (d & Hd & Hm). apply bind_Some in Hp as (i & Hi & Hp).
  apply tc_l with (OModule m); [by eapply ref_domain_module|]. apply tc_once. by eapply ref_module_domain.
Qed.

(** [GetAppDomainIDs] fails when the buffer is large enough, and writes past its end when
    it is not. *)
Lemma write_ids_overruns ids i buf :
  0 <= i <= Z.of_nat (length buf) -> Z.of_nat (length buf) < i + Z.of_nat (length ids) ->
  write_ids ids i buf = Undef OutOfBoundsWrite.
Proof.
  revert i buf. induction ids as [|id ids IH]; intros i buf Hi Hlen; cbn [length] in Hlen; [lia|]. cbn [write_ids].
  destruct (write_at buf i [id]) as [buf'|] eqn:E; [|done]. cbn [of_option obind].
  assert (i + 1 <= Z.of_nat (length buf)) by (unfold write_at in E; case_decide; [cbn in *; lia|done]).
  apply write_at_length in E. apply IH; rewrite E; lia.
Qed.

Lemma length_memset0 n l : length (memset0 n l) = length l.
Proof. revert n. induction l; intros; cbn [memset0 length]; auto. Qed.

Lemma GetAppDomainIDs_never_succeeds `{UnorderedMap} buf s :
  (GetAppDomainIDs (Z.of_nat (length buf)) buf s).1 =
    if Z.of_nat (size (m_appDomains s)) <=? Z.of_nat (length buf) then Err E_FAIL else Undef OutOfBoundsWrite.
Proof.
  unfold GetAppDomainIDs, gets, bind. destruct (_ <=? _) eqn:E; [done|]. unfold lift.
  rewrite write_ids_overruns; [done|rewrite length_memset0; lia|].
  rewrite length_memset0, length_map, items_perm, length_map_to_list. lia.
Qed.

(** The collections of an assembly that are asked for by id or name of the module are
    never given. *)
Lemma Assembly_GetModuleByMvid_gives_nothing `{UnorderedMap} mvid p s r s' :
  Assembly_GetModuleByMvid mvid p s = (Ok r, s') -> r = None.
Proof.
  intros (a & s1 & _ & H1)%bind_Ok. apply bind_Ok in H1 as (l & s2 & _ & H2). apply bind_Ok in H2 as (e & s3 & _ & H3).
  by injection H3.
Qed.

Lemma Assembly_GetModulesByName_gives_nothing `{UnorderedMap} name p s r s' :
  Assembly_GetModulesByName name p s = (Ok r, s') -> r = None.
Proof.
  intros (a & s1 & _ & H1)%bind_Ok. apply bind_Ok in H1 as (l & s2 & _ & H2). apply bind_Ok in H2 as (e & s3 & _ & H3).
  by injection H3.
Qed.

(** An attach fails on the first module that has resources only, and no method is told
    that it is complete. *)
Lemma attach_fails_on_resources :
  let r := ProfilerAttachComplete sample_runtime [agreeable] true empty_registry in
  r.1 = Err E_FAIL /\ r_notices r.2 = [].
Proof. by split; vm_compute. Qed.

(** An app domain that was found through one of its modules has no name. *)
Lemma attached_domain_has_no_name :
  let s := after [agreeable] [C_ProfilerAttachComplete] in
  (p ← m_appDomains s !! 1; GetName <$> r_domains s !! p) = Some (Err E_FAIL).
Proof. by vm_compute. Qed.

(** [FinishInitialization] succeeds without a name when the runtime fails to give one. *)
Lemma FinishInitialization_without_name p id s :
  r_domains s !! p = Some (new_domain id) ->
  FinishInitialization p (fun _ => Ok 2) (fun _ _ => Err E_FAIL) s = (Ok tt, s).
Proof. intros E. unfold FinishInitialization, load_domain, bind. by rewrite E. Qed.
