(* ===== verification/Logger.v ===== *)
(** The log ([InstrumentationEngine.Lib/Logging.cpp], [LoggerService.cpp], the sinks, and
    [ProfilerManagerForInstrumentationMethod.cpp]): which message reaches which sink, as the
    flags, the host and the log file are changed by the engine and by instrumentation
    methods, on Windows. *)
From S2P Require Import Prelude.

(** A carriage return and a line feed *)
Definition wide_newline : wstr := [13; 10].

(** ** Flags *)

Definition LoggingFlags_None : Z := 0.
Definition LoggingFlags_Errors : Z := 1.
Definition LoggingFlags_Trace : Z := 2.
Definition LoggingFlags_InstrumentationResults : Z := 4.
Definition LoggingFlags_All : Z :=
  Z.lor (Z.lor LoggingFlags_Errors LoggingFlags_Trace) LoggingFlags_InstrumentationResults.

Definition has_flag (flags flag : Z) : bool := negb (Z.land flags flag =? 0).

(** [wcsstr(s, p) != nullptr] *)
Fixpoint starts_with (p s : wstr) : bool :=
  match p, s with
  | [], _ => true
  | x :: p, y :: s => (x =? y) && starts_with p s
  | _ :: _, [] => false
  end.
Fixpoint wcsstr (s p : wstr) : bool :=
  starts_with p s || match s with [] => false | _ :: s => wcsstr s p end.

Definition ExtractLoggingFlag (names name : wstr) (flag : Z) : Z := if wcsstr names name then flag else LoggingFlags_None.

Definition ExtractLoggingFlags (names : wstr) : Z :=
  if wcsstr names (wide "All") then LoggingFlags_All else
  Z.lor (Z.lor (ExtractLoggingFlag names (wide "Errors") LoggingFlags_Errors)
               (ExtractLoggingFlag names (wide "Messages") LoggingFlags_Trace))
        (ExtractLoggingFlag names (wide "Dumps") LoggingFlags_InstrumentationResults).

(** ** Formatting

    [vswprintf] with arguments that are strings: a conversion reads the next argument, and
    other conversions than [%s] are undefined on it. *)
Definition percent : Z := 37.

Fixpoint format (fmt : wstr) (args : list wstr) : outcome wstr :=
  match fmt with
  | [] => Ok []
  | c :: fmt =>
      if c =? percent then
        match fmt with
        | [] => Undef UninitRead
        | d :: fmt =>
            if d =? percent then r <~ format fmt args ;; Ok (percent :: r)
            else if d =? 115 then
              match args with [] => Undef UninitRead | a :: args => r <~ format fmt args ;; Ok (a ++ r) end
            else Undef UninitRead
        end
      else r <~ format fmt args ;; Ok (c :: r)
  end.

Definition LogEntryMaxSize : nat := 4096.

(** [_vsnwprintf_s] into a buffer of that size with [_TRUNCATE]. *)
Definition log_entry (fmt : wstr) (args : list wstr) : outcome wstr :=
  r <~ format fmt args ;; Ok (take (LogEntryMaxSize - 1) r).

(** [EscapeFormatSpecifiers] *)
Fixpoint EscapeFormatSpecifiers (s : wstr) : wstr :=
  match s with
  | [] => []
  | c :: s => if c =? percent then c :: c :: EscapeFormatSpecifiers s else c :: EscapeFormatSpecifiers s
  end.

(** ** State *)

(** The sinks in the order of [CreateSinks]. *)
Inductive Sink := CDebugLoggerSink | CEventLoggerSink | CFileLoggerSink | CHostLoggerSink.

#[export] Instance Sink_eq_dec : EqDecision Sink.
Proof. solve_decision. Defined.

(** What reaches the outside: [OutputDebugString], the queue of the event source, a line of
    a log file behind the prefix of its level, and the calls of a host. *)
Inductive Output :=
| ToDebugPort (text : wstr)
| ToEventLog (text : wstr)
| ToFile (path : wstr) (level : Z) (line : wstr)
| ToHost (host level : Z) (text : wstr).

(** The members of [CFileLoggerSink]; of [m_pOutputFile] whether it is null. *)
Record LogFile := mkLogFile {
  m_flags : Z;
  m_pOutputFile : bool;
  m_tsPathActual : wstr;
  m_tsPathCandidate : wstr
}.

(** The sinks that have a state.  A [CInitOnce] is [None] until it is created, then the
    result that it keeps. *)
Record Sinks := mkSinks {
  m_initEventSource : option HRESULT;
  file : LogFile;
  host_sink : option Z
}.

Record LoggerFlags := mkLoggerFlags {
  m_defaultFlags : Z;
  m_effectiveFlags : Z;
  m_instrumentationMethodFlags : Z
}.

Record SinkLists := mkLists {
  m_allSinks : list Sink;
  m_errorSinks : list Sink;
  m_messageSinks : list Sink;
  m_dumpSinks : list Sink
}.

(** [CLoggerService] *)
Record CLoggerService := mkService {
  flags : LoggerFlags;
  m_loggingFlagsToInstrumentationMethodsMap : gmap Z (list Z);
  m_LoggingFlagsCallback : bool;
  m_fLogToDebugPort : bool;
  m_initialize : option HRESULT;
  m_pLoggingHost : option Z;
  lists : SinkLists;
  sinks : Sinks
}.

(** The statics of [CLogging], and what was written. *)
Record CLogging := mkLogging {
  s_loggerService : CLoggerService;
  s_initialize : option HRESULT;
  s_initCount : Z;
  s_cachedFlags : Z;
  written : list Output
}.

Notation L := (M CLogging).

Definition IsSuccessful (init : option HRESULT) : bool :=
  match init with None => false | Some hr => negb (FAILED hr) end.

Definition new_file : LogFile := mkLogFile LoggingFlags_None false [] [].
Definition new_sinks : Sinks := mkSinks None new_file None.
Definition new_service : CLoggerService :=
  mkService (mkLoggerFlags 0 0 0)
    (<[LoggingFlags_Errors := []]> (<[LoggingFlags_Trace := []]> (<[LoggingFlags_InstrumentationResults := []]> ∅)))
    false false None None (mkLists [] [] [] []) new_sinks.
Definition new_logging : CLogging := mkLogging new_service None 0 LoggingFlags_None [].

(** Assignments *)
Definition set_service (v : CLoggerService) (s : CLogging) : CLogging :=
  mkLogging v (s_initialize s) (s_initCount s) (s_cachedFlags s) (written s).
Definition set_s_initialize (v : option HRESULT) (s : CLogging) : CLogging :=
  mkLogging (s_loggerService s) v (s_initCount s) (s_cachedFlags s) (written s).
Definition set_count (v : Z) (s : CLogging) : CLogging :=
  mkLogging (s_loggerService s) (s_initialize s) v (s_cachedFlags s) (written s).
Definition set_cached (v : Z) (s : CLogging) : CLogging :=
  mkLogging (s_loggerService s) (s_initialize s) (s_initCount s) v (written s).
Definition write (o : list Output) (s : CLogging) : CLogging :=
  mkLogging (s_loggerService s) (s_initialize s) (s_initCount s) (s_cachedFlags s) (written s ++ o).

Definition set_flags (v : LoggerFlags) (x : CLoggerService) : CLoggerService :=
  mkService v (m_loggingFlagsToInstrumentationMethodsMap x) (m_LoggingFlagsCallback x) (m_fLogToDebugPort x) (m_initialize x) (m_pLoggingHost x) (lists x) (sinks x).
Definition set_levels (v : gmap Z (list Z)) (x : CLoggerService) : CLoggerService :=
  mkService (flags x) v (m_LoggingFlagsCallback x) (m_fLogToDebugPort x) (m_initialize x) (m_pLoggingHost x) (lists x) (sinks x).
Definition set_callback (v : bool) (x : CLoggerService) : CLoggerService :=
  mkService (flags x) (m_loggingFlagsToInstrumentationMethodsMap x) v (m_fLogToDebugPort x) (m_initialize x) (m_pLoggingHost x) (lists x) (sinks x).
Definition set_port (v : bool) (x : CLoggerService) : CLoggerService :=
  mkService (flags x) (m_loggingFlagsToInstrumentationMethodsMap x) (m_LoggingFlagsCallback x) v (m_initialize x) (m_pLoggingHost x) (lists x) (sinks x).
Definition set_initialize (v : option HRESULT) (x : CLoggerService) : CLoggerService :=
  mkService (flags x) (m_loggingFlagsToInstrumentationMethodsMap x) (m_LoggingFlagsCallback x) (m_fLogToDebugPort x) v (m_pLoggingHost x) (lists x) (sinks x).
Definition set_host (v : option Z) (x : CLoggerService) : CLoggerService :=
  mkService (flags x) (m_loggingFlagsToInstrumentationMethodsMap x) (m_LoggingFlagsCallback x) (m_fLogToDebugPort x) (m_initialize x) v (lists x) (sinks x).
Definition set_lists (v : SinkLists) (x : CLoggerService) : CLoggerService :=
  mkService (flags x) (m_loggingFlagsToInstrumentationMethodsMap x) (m_LoggingFlagsCallback x) (m_fLogToDebugPort x) (m_initialize x) (m_pLoggingHost x) v (sinks x).
Definition set_sinks (v : Sinks) (x : CLoggerService) : CLoggerService :=
  mkService (flags x) (m_loggingFlagsToInstrumentationMethodsMap x) (m_LoggingFlagsCallback x) (m_fLogToDebugPort x) (m_initialize x) (m_pLoggingHost x) (lists x) v.

Definition get_service : L CLoggerService := gets s_loggerService.
Definition on_service (f : CLoggerService -> CLoggerService) : L unit := modify (fun s => set_service (f (s_loggerService s)) s).

Definition set_default (v : Z) (f : LoggerFlags) : LoggerFlags := mkLoggerFlags v (m_effectiveFlags f) (m_instrumentationMethodFlags f).
Definition set_effective (v : Z) (f : LoggerFlags) : LoggerFlags := mkLoggerFlags (m_defaultFlags f) v (m_instrumentationMethodFlags f).
Definition set_method_flags (v : Z) (f : LoggerFlags) : LoggerFlags := mkLoggerFlags (m_defaultFlags f) (m_effectiveFlags f) v.
Definition on_flags (f : LoggerFlags -> LoggerFlags) : L unit := on_service (fun x => set_flags (f (flags x)) x).

Definition set_event (v : option HRESULT) (k : Sinks) : Sinks := mkSinks v (file k) (host_sink k).
Definition set_file (v : LogFile) (k : Sinks) : Sinks := mkSinks (m_initEventSource k) v (host_sink k).
Definition set_host_sink (v : option Z) (k : Sinks) : Sinks := mkSinks (m_initEventSource k) (file k) v.
Definition on_sinks (f : Sinks -> Sinks) : L unit := on_service (fun x => set_sinks (f (sinks x)) x).

(** [CInitOnce::Get] for the flag that [get] reads and [set] writes. *)
Definition init_once (get : CLogging -> option HRESULT) (set : option HRESULT -> CLogging -> CLogging) (f : L unit) : L unit := fun s =>
  match get s with
  | Some hr => if_fail_ret hr s
  | None =>
      match f s with
      | (Ok _, s') => (Ok tt, set (Some S_OK) s')
      | (Err hr, s') => (Err hr, set (Some hr) s')
      | r => r
      end
  end.

(** [IfNotInitRetUnexpected], and [IfNotInitRet] in front of a call without result. *)
Definition unless_init_unexpected (get : CLogging -> option HRESULT) : L unit :=
  b <- gets (fun s => IsSuccessful (get s)) ;; if_false_ret b E_UNEXPECTED.
Definition when_init (get : CLogging -> option HRESULT) (m : L unit) : L unit :=
  b <- gets (fun s => IsSuccessful (get s)) ;; if b : bool then m else ret tt.

Definition service_init (s : CLogging) : option HRESULT := m_initialize (s_loggerService s).
Definition set_service_init (v : option HRESULT) (s : CLogging) : CLogging := set_service (set_initialize v (s_loggerService s)) s.
Definition event_init (s : CLogging) : option HRESULT := m_initEventSource (sinks (s_loggerService s)).
Definition set_event_init (v : option HRESULT) (s : CLogging) : CLogging :=
  set_service (set_sinks (set_event v (sinks (s_loggerService s))) (s_loggerService s)) s.

(** ** What Windows answers *)
Record Environment := mkEnvironment {
  (** the value of an environment variable, if it is set *)
  GetEnvironmentVariable : wstr -> option wstr;
  (** calls that can fail, with the code of [GetLastError] *)
  RegisterEventSource : option Z;
  CreateThread : option Z;
  SetEvent : option Z;
  DeregisterEventSource : option Z;
  wsplitpath : wstr -> wstr * wstr * wstr * wstr;
  wmakepath : wstr -> wstr -> wstr -> wstr -> wstr;
  FileAttributes : wstr -> option Z;
  wfsopen : wstr -> bool;
  ProcessId : wstr;
  StringFromGUID2 : Z -> wstr;
  toupper : Z -> Z
}.

Section Logger.
Context `{UnorderedMap} (env : Environment).

Definition MAX_PATH : nat := 260.
Definition MAX_DIR : nat := 256.

(** A variable that is read into a buffer of [MAX_PATH] characters: the buffer is not
    written when the value does not fit, and the size that it needs is taken for success;
    the size 0 of an empty value is taken for a failure. *)
Definition read_variable (name : wstr) : outcome (option wstr) :=
  match GetEnvironmentVariable env name with
  | None | Some [] => Ok None
  | Some v => if (length v <? MAX_PATH)%nat then Ok (Some v) else Undef UninitRead
  end.

(** ** The sinks *)

(** [CEventLoggingBase::InitializeEventSource] and [TerminateEventSource], which deregisters
    the source if there is one. *)
Definition win32_result (error : option Z) : HRESULT := match error with Some e => HRESULT_FROM_WIN32 e | None => S_OK end.

Definition InitializeEventSource : HRESULT :=
  match RegisterEventSource env with Some e => HRESULT_FROM_WIN32 e | None => win32_result (CreateThread env) end.

Definition TerminateEventSource (m_hEventSource : bool) : HRESULT :=
  match SetEvent env with
  | Some e => HRESULT_FROM_WIN32 e
  | None => if m_hEventSource then win32_result (DeregisterEventSource env) else S_OK
  end.

(** [GetLoggingHost] and [GetLogToDebugPort] *)
Definition GetLoggingHost (s : CLogging) : option Z :=
  if IsSuccessful (service_init s) then m_pLoggingHost (s_loggerService s) else None.
Definition GetLogToDebugPort (s : CLogging) : bool :=
  if IsSuccessful (service_init s) then m_fLogToDebugPort (s_loggerService s) else false.

Definition FILE_ATTRIBUTE_DIRECTORY : Z := 16.

(** The path of the log file: for a directory, a name is made from the process id.
    [wcscat_s] makes the string empty when it does not fit. *)
Definition resolve_path (candidate : wstr) : wstr :=
  let '(drive, dir, name, ext) := wsplitpath env candidate in
  let '(is_directory, dir) :=
    if (length name =? 0)%nat then (bool_decide (ext = wide ".") || bool_decide (ext = []), dir)
    else match FileAttributes env candidate with
         | Some a => if has_flag a FILE_ATTRIBUTE_DIRECTORY
                     then (true, if (length dir + length name <? MAX_DIR)%nat then dir ++ name else [])
                     else (false, dir)
         | None => (false, dir)
         end in
  if is_directory : bool then wmakepath env drive dir (wide "ProfilerLog_" ++ ProcessId env) (wide ".txt")
  else wmakepath env drive dir name ext.

(** [CFileLoggerSink::Reset]: the sink and the flags *)
Definition File_Reset (f : LogFile) (defaultFlags : Z) : LogFile * Z :=
  let effectiveFlags := if m_flags f =? LoggingFlags_None then defaultFlags else m_flags f in
  let f :=
    if negb (effectiveFlags =? LoggingFlags_None) && negb (m_pOutputFile f) && negb (length (m_tsPathCandidate f) =? 0)%nat then
      let path := resolve_path (m_tsPathCandidate f) in
      let opened := wfsopen env path in
      mkLogFile (m_flags f) opened (if opened then path else []) (m_tsPathCandidate f)
    else f in
  (f, if m_pOutputFile f then effectiveFlags else LoggingFlags_None).

(** [Reset] of the other sinks *)
Definition Debug_Reset (defaultFlags : Z) : L Z :=
  s <- gets id ;;
  ret (if (match GetLoggingHost s with None => true | Some _ => false end) || GetLogToDebugPort s
       then defaultFlags else LoggingFlags_None).

Definition Event_Reset (defaultFlags : Z) : L Z :=
  let effectiveFlags := Z.land defaultFlags LoggingFlags_Errors in
  (if effectiveFlags =? LoggingFlags_None then ret tt
   else init_once event_init set_event_init (if_fail_ret InitializeEventSource)) ;;;
  ret effectiveFlags.

Definition Host_Reset (defaultFlags : Z) : L Z :=
  host <- gets GetLoggingHost ;;
  on_sinks (set_host_sink host) ;;;
  ret (match host with Some _ => defaultFlags | None => LoggingFlags_None end).

(** [ILoggerSink::Reset] *)
Definition Reset_sink (k : Sink) (defaultFlags : Z) : L Z :=
  match k with
  | CDebugLoggerSink => Debug_Reset defaultFlags
  | CEventLoggerSink => Event_Reset defaultFlags
  | CFileLoggerSink =>
      x <- get_service ;;
      let '(f, effectiveFlags) := File_Reset (file (sinks x)) defaultFlags in
      on_sinks (set_file f) ;;;
      ret effectiveFlags
  | CHostLoggerSink => Host_Reset defaultFlags
  end.

(** [LogMessage], [LogError] and [LogDumpMessage] of the sinks *)
Definition Debug_log (text : wstr) : L unit := modify (write [ToDebugPort text; ToDebugPort wide_newline]).

Definition Event_log (level : Z) (text : wstr) : L unit :=
  if level =? LoggingFlags_Errors then modify (write [ToEventLog text]) else ret tt.

(** [WriteLine] takes the text as a format. *)
Definition WriteLine (level : Z) (text : wstr) : L unit :=
  x <- get_service ;;
  if m_pOutputFile (file (sinks x)) then
    line <- lift (format text []) ;;
    modify (write [ToFile (m_tsPathActual (file (sinks x))) level line])
  else ret tt.

Definition Host_log (level : Z) (text : wstr) : L unit :=
  x <- get_service ;;
  host <- deref (host_sink (sinks x)) ;;
  modify (write [ToHost host level text]) ;;;
  if level =? LoggingFlags_InstrumentationResults then ret tt else modify (write [ToHost host level wide_newline]).

Definition sink_log (level : Z) (text : wstr) (k : Sink) : L unit :=
  match k with
  | CDebugLoggerSink => Debug_log text
  | CEventLoggerSink => Event_log level text
  | CFileLoggerSink => WriteLine level text
  | CHostLoggerSink => Host_log level text
  end.

(** ** [CLoggerService] *)

Definition clear_lists (l : SinkLists) : SinkLists := mkLists (m_allSinks l) [] [] [].

(** A sink is put into the lists of its flags. *)
Definition push_sink (k : Sink) (all : Z) (l : SinkLists) : SinkLists :=
  mkLists (m_allSinks l)
    (if has_flag all LoggingFlags_Errors then m_errorSinks l ++ [k] else m_errorSinks l)
    (if has_flag all LoggingFlags_Trace then m_messageSinks l ++ [k] else m_messageSinks l)
    (if has_flag all LoggingFlags_InstrumentationResults then m_dumpSinks l ++ [k] else m_dumpSinks l).

Definition on_lists (f : SinkLists -> SinkLists) : L unit := on_service (fun x => set_lists (f (lists x)) x).

Fixpoint recalculate_loop (ks : list Sink) (effectiveFlags : Z) : L Z :=
  match ks with
  | [] => ret effectiveFlags
  | k :: ks =>
      x <- get_service ;;
      sinkFlags <- Reset_sink k (m_defaultFlags (flags x)) ;;
      x <- get_service ;;
      instrumentationMethodSinkFlags <- Reset_sink k (m_instrumentationMethodFlags (flags x)) ;;
      on_lists (push_sink k (Z.lor sinkFlags instrumentationMethodSinkFlags)) ;;;
      recalculate_loop ks (Z.lor effectiveFlags sinkFlags)
  end.

Definition RecalculateLoggingFlags : L unit :=
  on_lists clear_lists ;;;
  x <- get_service ;;
  effectiveFlags <- recalculate_loop (m_allSinks (lists x)) LoggingFlags_None ;;
  on_flags (set_effective effectiveFlags) ;;;
  x <- get_service ;;
  if m_LoggingFlagsCallback x then modify (set_cached effectiveFlags) else ret tt.

(** [CreateSinks]: new sinks in their initial state *)
Definition CreateSinks : L unit :=
  on_service (fun x => set_lists (mkLists (m_allSinks (lists x) ++ [CDebugLoggerSink; CEventLoggerSink; CFileLoggerSink; CHostLoggerSink])
    (m_errorSinks (lists x)) (m_messageSinks (lists x)) (m_dumpSinks (lists x))) (set_sinks new_sinks x)).

(** [CFileLoggerSink::GetPathAndFlags] *)
Definition GetPathAndFlags : L unit :=
  level <- lift (read_variable (wide "MicrosoftInstrumentationEngine_FileLog")) ;;
  path <- lift (read_variable (wide "MicrosoftInstrumentationEngine_FileLogPath")) ;;
  x <- get_service ;;
  let f := file (sinks x) in
  on_sinks (set_file (mkLogFile (match level with Some v => ExtractLoggingFlags v | None => LoggingFlags_None end)
    (m_pOutputFile f) (m_tsPathActual f) (default [] path))).

(** [CLoggerService::InitializeCore]; the file sink is the only one whose [Initialize]
    does something that matters here. *)
Definition Service_InitializeCore : L unit :=
  level <- lift (read_variable (wide "MicrosoftInstrumentationEngine_LogLevel")) ;;
  (match level with Some v => on_flags (set_default (ExtractLoggingFlags v)) | None => ret tt end) ;;;
  CreateSinks ;;;
  GetPathAndFlags ;;;
  RecalculateLoggingFlags.

Definition Service_Initialize : L unit :=
  on_service (set_callback true) ;;;
  init_once service_init set_service_init Service_InitializeCore.

(** [AllowLogEntry] *)
Definition Service_AllowLogEntry (flag : Z) : L bool :=
  s <- gets id ;;
  let f := flags (s_loggerService s) in
  ret (IsSuccessful (service_init s) && has_flag (Z.lor (m_effectiveFlags f) (m_instrumentationMethodFlags f)) flag).

(** The list for a level *)
Definition sinks_for (level : Z) (l : SinkLists) : list Sink :=
  if level =? LoggingFlags_Errors then m_errorSinks l
  else if level =? LoggingFlags_Trace then m_messageSinks l else m_dumpSinks l.

(** [LogMessage], [LogError] and [LogDumpMessage] of the service, by their level *)
Definition Service_Log (level : Z) (fmt : wstr) (args : list wstr) : L unit :=
  when_init service_init (
    allowed <- Service_AllowLogEntry level ;;
    if allowed : bool then
      text <- lift (log_entry fmt args) ;;
      x <- get_service ;;
      for_each (sink_log level text) (sinks_for level (lists x))
    else ret tt).

Definition Service_SetLoggingHost (pLoggingHost : option Z) : L unit :=
  unless_init_unexpected service_init ;;; on_service (set_host pLoggingHost) ;;; RecalculateLoggingFlags.

Definition Service_SetLoggingFlags (loggingFlags : Z) : L unit :=
  unless_init_unexpected service_init ;;; on_flags (set_default loggingFlags) ;;; RecalculateLoggingFlags.

(** The result of [RecalculateLoggingFlags] is dropped. *)
Definition Service_SetLogToDebugPort (enable : bool) : L unit :=
  when_init service_init (on_service (set_port enable) ;;; attempt RecalculateLoggingFlags ;;; ret tt).

(** [vector::erase] of the first entry that is equal *)
Fixpoint erase_guid (c : Z) (l : list Z) : list Z :=
  match l with [] => [] | x :: l => if x =? c then l else x :: erase_guid c l end.

(** [UpdateInstrumentationMethodFlagsInternal] *)
Definition update_level (classId loggingFlags loggingLevel : Z) (m : gmap Z (list Z)) : gmap Z (list Z) :=
  let methods := default [] (m !! loggingLevel) in
  let exists_ := bool_decide (classId ∈ methods) in
  let shouldExist := has_flag loggingLevel loggingFlags in
  <[loggingLevel := if exists_ && negb shouldExist then erase_guid classId methods
                    else if negb exists_ && shouldExist then methods ++ [classId] else methods]> m.

(** [UpdateInstrumentationMethodFlags] *)
Definition update_levels (classId loggingFlags : Z) (m : gmap Z (list Z)) : gmap Z (list Z) :=
  update_level classId loggingFlags LoggingFlags_InstrumentationResults
    (update_level classId loggingFlags LoggingFlags_Trace (update_level classId loggingFlags LoggingFlags_Errors m)).

(** The loop over the map *)
Fixpoint combine_levels (l : list (Z * list Z)) (acc : Z) : Z :=
  match l with
  | [] => acc
  | (level, methods) :: l => combine_levels l (if (length methods =? 0)%nat then acc else Z.lor acc level)
  end.

Definition Service_UpdateInstrumentationMethodLoggingFlags (classId loggingFlags : Z) : L unit :=
  unless_init_unexpected service_init ;;;
  on_flags (set_method_flags LoggingFlags_None) ;;;
  on_service (fun x => set_levels (update_levels classId loggingFlags (m_loggingFlagsToInstrumentationMethodsMap x)) x) ;;;
  x <- get_service ;;
  on_flags (set_method_flags (combine_levels (items (m_loggingFlagsToInstrumentationMethodsMap x)) LoggingFlags_None)) ;;;
  RecalculateLoggingFlags.

(** What the two calls do to the file sinks among the sinks *)
Definition on_file_sinks (f : LogFile -> LogFile) : L unit :=
  x <- get_service ;;
  for_each (fun k => match k with
                     | CFileLoggerSink => on_sinks (fun ks => set_file (f (file ks)) ks)
                     | _ => ret tt
                     end) (m_allSinks (lists x)).

(** [CFileLoggerSink::SetLogFilePath] and [SetLogFileLevel] *)
Definition File_SetLogFilePath (path : wstr) (f : LogFile) : LogFile := mkLogFile (m_flags f) false [] path.
Definition File_SetLogFileLevel (fileLogFlags : Z) (f : LogFile) : LogFile := mkLogFile fileLogFlags false [] (m_tsPathCandidate f).

Definition Service_SetLogFilePath (path : wstr) : L unit := on_file_sinks (File_SetLogFilePath path) ;;; RecalculateLoggingFlags.
Definition Service_SetLogFileLevel (fileLogFlags : Z) : L unit := on_file_sinks (File_SetLogFileLevel fileLogFlags) ;;; RecalculateLoggingFlags.

(** [ILoggerSink::Shutdown] *)
Definition Event_Shutdown : L unit :=
  init <- gets event_init ;;
  let made := match init, RegisterEventSource env with Some _, None => true | _, _ => false end in
  let hr := TerminateEventSource made in
  modify (set_event_init None) ;;;
  if_fail_ret hr.

Definition CloseLogFile : L unit :=
  on_sinks (fun ks => set_file (mkLogFile (m_flags (file ks)) false (m_tsPathActual (file ks)) (m_tsPathCandidate (file ks))) ks).

Definition sink_Shutdown (k : Sink) : L unit :=
  match k with
  | CEventLoggerSink => Event_Shutdown
  | CFileLoggerSink => CloseLogFile
  | _ => ret tt
  end.

Definition Service_Shutdown : L unit :=
  x <- get_service ;;
  for_each sink_Shutdown (m_allSinks (lists x)) ;;;
  on_service (set_lists (mkLists [] [] [] [])) ;;;
  on_service (set_host None) ;;;
  modify (set_service_init None).

(** ** [CLogging] *)

Definition Initialize : L unit :=
  init_once s_initialize set_s_initialize Service_Initialize ;;;
  modify (fun s => set_count ((s_initCount s + 1) mod 2 ^ 64) s).

Definition Shutdown : L unit :=
  unless_init_unexpected s_initialize ;;;
  modify (fun s => set_count ((s_initCount s - 1) mod 2 ^ 64) s) ;;;
  s <- gets id ;;
  if s_initCount s =? 0 then Service_Shutdown else ret tt.

Definition GetLoggingFlags : L Z := unless_init_unexpected s_initialize ;;; gets s_cachedFlags.

(** [VLogMessage], [VLogError], [VLogDumpMessage] *)
Definition VLog (level : Z) (fmt : wstr) (args : list wstr) : L unit := when_init s_initialize (Service_Log level fmt args).

(** [LogMessage], [LogError], [LogDumpMessage] *)
Definition Log (level : Z) (fmt : wstr) (args : list wstr) : L unit :=
  when_init s_initialize (
    flag <- attempt GetLoggingFlags ;;
    match flag with
    | Some flag => if has_flag flag level then VLog level fmt args else ret tt
    | None => ret tt
    end).

Definition SetLogToDebugPort (enable : bool) : L unit := when_init s_initialize (Service_SetLogToDebugPort enable).
Definition SetLoggingFlags (loggingFlags : Z) : L unit := unless_init_unexpected s_initialize ;;; Service_SetLoggingFlags loggingFlags.
Definition SetLoggingHost (pLoggingHost : option Z) : L unit := unless_init_unexpected s_initialize ;;; Service_SetLoggingHost pLoggingHost.
Definition UpdateInstrumentationMethodLoggingFlags (classId loggingFlags : Z) : L unit :=
  unless_init_unexpected s_initialize ;;; Service_UpdateInstrumentationMethodLoggingFlags classId loggingFlags.
Definition SetLogFilePath (path : wstr) : L unit := unless_init_unexpected s_initialize ;;; Service_SetLogFilePath path.
Definition SetLogFileLevel (fileLogFlags : Z) : L unit := unless_init_unexpected s_initialize ;;; Service_SetLogFileLevel fileLogFlags.

(** ** The log of an instrumentation method

    [CProfilerManagerForInstrumentationMethod] *)
Record MethodLog := mkMethodLog {
  m_wszInstrumentationMethodGuid : wstr;
  im_flags : Z;
  m_bDisableMethodPrefix : bool
}.

(** The constructor *)
Definition new_method_log (classId : Z) : L MethodLog :=
  let disable := match GetEnvironmentVariable env (wide "MicrosoftInstrumentationEngine_DisableLogMethodPrefix") with Some _ => true | None => false end in
  let guid := map (toupper env) (take 36 (drop 1 (StringFromGUID2 env classId))) in
  level <- lift (read_variable (wide "MicrosoftInstrumentationEngine_LogLevel_" ++ guid)) ;;
  fl <- (match level with
         | Some v => ret (ExtractLoggingFlags v)
         | None => f <- attempt GetLoggingFlags ;; ret (default LoggingFlags_None f)
         end) ;;
  ret (mkMethodLog guid fl disable).

(** The part of [CProfilerManager::AddInstrumentationMethod] that concerns the log; the
    result of the update is dropped. *)
Definition add_method_log (classId : Z) : L MethodLog :=
  im <- new_method_log classId ;;
  attempt (UpdateInstrumentationMethodLoggingFlags classId (im_flags im)) ;;;
  ret im.

Definition FORMATTABLE_PREFIX : wstr := wide "[IM:%s]".
Definition ERANGE : Z := 34.

(** [LogMessageInternal]: [wcscat_s] fails when the text does not fit. *)
Definition LogMessageInternal (im : MethodLog) (message : wstr) (logFlag : Z) : L unit :=
  if negb (has_flag (im_flags im) logFlag) then ret tt else
  if m_bDisableMethodPrefix im || (length (m_wszInstrumentationMethodGuid im) =? 0)%nat then Log logFlag message [] else
  let tsEscapedMessage := EscapeFormatSpecifiers message in
  if (length FORMATTABLE_PREFIX + length tsEscapedMessage <? LogEntryMaxSize)%nat
  then VLog logFlag (FORMATTABLE_PREFIX ++ tsEscapedMessage) [m_wszInstrumentationMethodGuid im]
  else fail (MAKE_HRESULT_FROM_ERRNO ERANGE).

(** ** The calls as data *)
Inductive LogCall :=
| C_Initialize | C_Shutdown
| C_SetLogToDebugPort (enable : bool) | C_SetLoggingFlags (loggingFlags : Z) | C_SetLoggingHost (host : option Z)
| C_UpdateFlags (classId loggingFlags : Z)
| C_SetLogFilePath (path : wstr) | C_SetLogFileLevel (fileLogFlags : Z)
| C_Log (level : Z) (fmt : wstr) (args : list wstr) | C_VLog (level : Z) (fmt : wstr) (args : list wstr).

Definition log_call (c : LogCall) : L unit :=
  match c with
  | C_Initialize => Initialize
  | C_Shutdown => Shutdown
  | C_SetLogToDebugPort b => SetLogToDebugPort b
  | C_SetLoggingFlags f => SetLoggingFlags f
  | C_SetLoggingHost h => SetLoggingHost h
  | C_UpdateFlags c f => UpdateInstrumentationMethodLoggingFlags c f
  | C_SetLogFilePath p => SetLogFilePath p
  | C_SetLogFileLevel f => SetLogFileLevel f
  | C_Log level fmt args => Log level fmt args
  | C_VLog level fmt args => VLog level fmt args
  end.

Definition log_calls (cs : list LogCall) (s : CLogging) : CLogging := foldl (fun s c => (log_call c s).2) s cs.

End Logger.
