(* ===== verification/LoggerSpec.v ===== *)
(** The properties of the log: its state after any calls, which sinks a message reaches,
    and the flags of the instrumentation methods as a map. *)
From S2P Require Import Prelude Logger.

Section Spec.
Context `{UnorderedMap} (env : Environment).

(** Windows gives an event source, and variables fit their buffers. *)
Record EnvironmentFits : Prop := {
  event_source_ok : InitializeEventSource env = S_OK;
  variables_fit : forall n v, GetEnvironmentVariable env n = Some v -> (length v < MAX_PATH)%nat
}.

Definition all_sinks : list Sink := [CDebugLoggerSink; CEventLoggerSink; CFileLoggerSink; CHostLoggerSink].

(** ** What the sinks want

    The levels out of [d] that a sink takes, by the host, the debug port, and the level and
    path of the log file. *)
Definition can_write (candidate : wstr) : bool :=
  negb (length candidate =? 0)%nat && wfsopen env (resolve_path env candidate).

Definition wants (host : option Z) (port : bool) (level : Z) (candidate : wstr) (k : Sink) (d : Z) : Z :=
  match k with
  | CDebugLoggerSink => if match host with None => true | Some _ => port end then d else 0
  | CEventLoggerSink => Z.land d LoggingFlags_Errors
  | CFileLoggerSink => if can_write candidate then (if level =? 0 then d else level) else 0
  | CHostLoggerSink => match host with Some _ => d | None => 0 end
  end.

Definition sink_wants (s : CLogging) : Sink -> Z -> Z :=
  wants (GetLoggingHost s) (GetLogToDebugPort s) (m_flags (file (sinks (s_loggerService s))))
    (m_tsPathCandidate (file (sinks (s_loggerService s)))).

Definition service_flags (s : CLogging) : LoggerFlags := flags (s_loggerService s).

(** The levels a sink gets messages of. *)
Definition receives (s : CLogging) (k : Sink) : Z :=
  Z.lor (sink_wants s k (m_defaultFlags (service_flags s))) (sink_wants s k (m_instrumentationMethodFlags (service_flags s))).

Definition receivers (s : CLogging) (level : Z) : list Sink :=
  filter (fun k => has_flag (receives s k) level = true) all_sinks.

Definition engine_levels (s : CLogging) : Z :=
  foldl (fun e k => Z.lor e (sink_wants s k (m_defaultFlags (service_flags s)))) LoggingFlags_None all_sinks.

(** ** Resets *)

Definition file_ok (f : LogFile) : Prop :=
  m_pOutputFile f = true -> can_write (m_tsPathCandidate f) = true /\ m_tsPathActual f = resolve_path env (m_tsPathCandidate f).

Definition sinks_ok (x : Sinks) : Prop := file_ok (file x) /\ (m_initEventSource x = None \/ m_initEventSource x = Some S_OK).

(** Sinks that differ in what a reset changes. *)
Definition same_config (x y : Sinks) : Prop :=
  m_flags (file x) = m_flags (file y) /\ m_tsPathCandidate (file x) = m_tsPathCandidate (file y) /\
  (m_pOutputFile (file x) = true -> m_pOutputFile (file y) = true).

#[export] Instance same_config_preorder : PreOrder same_config.
Proof. split; [by split|]. intros x y z (? & ? & ?) (? & ? & ?). unfold same_config. split_and!; [congruence..|auto]. Qed.

Definition put_sinks (x : Sinks) (s : CLogging) : CLogging := set_service (set_sinks x (s_loggerService s)) s.

Lemma put_sinks_twice x y s : put_sinks y (put_sinks x s) = put_sinks y s.
Proof. done. Qed.

Lemma wants_put_sinks x s k d : same_config (sinks (s_loggerService s)) x -> sink_wants (put_sinks x s) k d = sink_wants s k d.
Proof. intros (E1 & E2 & _). unfold sink_wants. cbn. by rewrite <- E1, <- E2. Qed.

Lemma receives_put_sinks x s k : same_config (sinks (s_loggerService s)) x -> receives (put_sinks x s) k = receives s k.
Proof. intros E. unfold receives. by rewrite !wants_put_sinks. Qed.

Lemma File_Reset_spec f d f' e :
  file_ok f -> File_Reset env f d = (f', e) ->
  file_ok f' /\ e = wants None false (m_flags f) (m_tsPathCandidate f) CFileLoggerSink d /\
  m_flags f' = m_flags f /\ m_tsPathCandidate f' = m_tsPathCandidate f /\
  (m_pOutputFile f = true -> m_pOutputFile f' = true) /\ (e <> 0 -> m_pOutputFile f' = true).
Proof.
  intros Hok. unfold File_Reset. cbn [wants]. set (eff := if m_flags f =? LoggingFlags_None then d else m_flags f).
  change (if m_flags f =? 0 then d else m_flags f) with eff. change LoggingFlags_None with 0.
  destruct (m_pOutputFile f) eqn:Eo.
  - rewrite andb_false_r. cbn [andb]. rewrite Eo. intros [= <- <-]. destruct (Hok Eo) as [-> _]. by split_and!.
  - cbn [negb]. rewrite andb_true_r. unfold can_write. destruct (length (m_tsPathCandidate f) =? 0)%nat eqn:El; cbn [negb andb].
    + rewrite andb_false_r, Eo. intros [= <- <-]. by split_and!.
    + rewrite andb_true_r. destruct (eff =? 0) eqn:Ee; cbn [negb].
      * rewrite Eo. intros [= <- <-]. apply Z.eqb_eq in Ee. split_and!; try done. by rewrite Ee; destruct (wfsopen _ _).
      * destruct (wfsopen env _) eqn:Ew; cbn [m_pOutputFile]; intros [= <- <-]; (split_and!; [|done..]); try done.
        intros _. unfold can_write. cbn. by rewrite El, Ew.
Qed.

Lemma event_once s :
  EnvironmentFits -> sinks_ok (sinks (s_loggerService s)) ->
  init_once event_init set_event_init (if_fail_ret (InitializeEventSource env)) s =
    (Ok tt, put_sinks (set_event (Some S_OK) (sinks (s_loggerService s))) s).
Proof.
  intros [E _] [_ Ho]. unfold init_once, event_init. rewrite E. destruct s as [x ? ? ? ?], x as [? ? ? ? ? ? ? [o ? ?]]. cbn in *.
  by destruct Ho as [-> | ->].
Qed.

Lemma put_sinks_same s : put_sinks (sinks (s_loggerService s)) s = s.
Proof. by destruct s as [[] ? ? ? ?]. Qed.

(** A reset gives the levels that the sink wants and changes nothing else. *)
Lemma Reset_run k d s :
  EnvironmentFits -> sinks_ok (sinks (s_loggerService s)) ->
  exists x, Reset_sink env k d s = (Ok (sink_wants s k d), put_sinks x s) /\
    sinks_ok x /\ same_config (sinks (s_loggerService s)) x /\
    host_sink x = (if decide (k = CHostLoggerSink) then GetLoggingHost s else host_sink (sinks (s_loggerService s))) /\
    (k = CFileLoggerSink -> sink_wants s k d <> 0 -> m_pOutputFile (file x) = true).
Proof.
  intros He Hok. pose proof Hok as [Hf Ho]. destruct k; cbn [Reset_sink]; unfold Debug_Reset, Event_Reset, Host_Reset.
  - exists (sinks (s_loggerService s)). rewrite put_sinks_same. split_and!; try done.
    unfold bind, gets, ret, id, sink_wants, wants, LoggingFlags_None. by destruct (GetLoggingHost s), (GetLogToDebugPort s).
  - change (sink_wants s CEventLoggerSink d) with (Z.land d LoggingFlags_Errors).
    destruct (Z.land d LoggingFlags_Errors =? LoggingFlags_None).
    + exists (sinks (s_loggerService s)). by rewrite put_sinks_same.
    + eexists. rewrite (run_bind _ _ _ _ _ (event_once s He Hok)). split; [reflexivity|]. by split_and!; [split; [|right]|..].
  - unfold get_service, gets, bind. destruct (File_Reset env _ d) as [f e] eqn:E.
    destruct (File_Reset_spec _ _ _ _ Hf E) as (H1 & -> & H3 & H4 & H5 & H6).
    exists (set_file f (sinks (s_loggerService s))). split_and!; try done.
  - exists (set_host_sink (GetLoggingHost s) (sinks (s_loggerService s))). by split_and!.
Qed.

(** ** Recalculation *)

Definition put_lists (l : SinkLists) (s : CLogging) : CLogging := set_service (set_lists l (s_loggerService s)) s.
Definition service_lists (s : CLogging) : SinkLists := lists (s_loggerService s).
Definition service_sinks (s : CLogging) : Sinks := sinks (s_loggerService s).

Definition combine (s : CLogging) (ks : list Sink) (e : Z) : Z :=
  foldl (fun e k => Z.lor e (sink_wants s k (m_defaultFlags (service_flags s)))) e ks.
Definition push_all (s : CLogging) (ks : list Sink) (l : SinkLists) : SinkLists :=
  foldl (fun l k => push_sink k (receives s k) l) l ks.

(** The sinks after their resets. *)
Definition reset_sinks (s : CLogging) (ks : list Sink) (x : Sinks) : Prop :=
  sinks_ok x /\ same_config (service_sinks s) x /\
  host_sink x = (if decide (CHostLoggerSink ∈ ks) then GetLoggingHost s else host_sink (service_sinks s)) /\
  (CFileLoggerSink ∈ ks -> receives s CFileLoggerSink <> 0 -> m_pOutputFile (file x) = true).

(** The two resets of one sink *)
Lemma resets_run k s :
  EnvironmentFits -> sinks_ok (service_sinks s) ->
  exists x1 x2, Reset_sink env k (m_defaultFlags (service_flags s)) s = (Ok (sink_wants s k (m_defaultFlags (service_flags s))), put_sinks x1 s) /\
    Reset_sink env k (m_instrumentationMethodFlags (service_flags s)) (put_sinks x1 s) =
      (Ok (sink_wants s k (m_instrumentationMethodFlags (service_flags s))), put_sinks x2 s) /\ reset_sinks s [k] x2.
Proof.
  intros He Hok. destruct (Reset_run k (m_defaultFlags (service_flags s)) s He Hok) as (x1 & E1 & Hx1 & Hc1 & Hh1 & Hf1).
  destruct (Reset_run k (m_instrumentationMethodFlags (service_flags s)) (put_sinks x1 s) He Hx1) as (x2 & E2 & Hx2 & Hc2 & Hh2 & Hf2).
  rewrite wants_put_sinks in E2, Hf2 by done. rewrite put_sinks_twice in E2. exists x1, x2.
  change (GetLoggingHost (put_sinks x1 s)) with (GetLoggingHost s) in Hh2.
  change (sinks (s_loggerService (put_sinks x1 s))) with x1 in Hc2, Hh2.
  split_and!; [done|done|]. unfold reset_sinks. split_and!; [done|by etrans|rewrite Hh2; repeat case_decide; set_solver|].
  intros Hk%list_elem_of_singleton Hr. destruct (Z.eq_dec (sink_wants s k (m_defaultFlags (service_flags s))) 0) as [E0|E0].
  - apply Hf2; [done|]. intros E3. apply Hr. unfold receives. by rewrite Hk, E0, E3.
  - destruct Hc2 as (_ & _ & Ho). apply Ho, Hf1; done.
Qed.

Lemma recalculate_loop_run ks e s :
  EnvironmentFits -> sinks_ok (service_sinks s) ->
  exists x, recalculate_loop env ks e s = (Ok (combine s ks e), put_lists (push_all s ks (service_lists s)) (put_sinks x s)) /\ reset_sinks s ks x.
Proof.
  intros He. revert e s. induction ks as [|k ks IH]; intros e s Hok.
  { exists (service_sinks s). unfold reset_sinks. split; [|split_and!; [done..|by intros ?%elem_of_nil]]. by destruct s as [[] ? ? ? ?]. }
  cbn [recalculate_loop]. destruct (resets_run k s He Hok) as (x1 & x2 & E1 & E2 & Hx2 & Hc2 & Hh2 & Hf2).
  set (s2 := put_lists (push_sink k (receives s k) (service_lists s)) (put_sinks x2 s)).
  assert (forall k d, sink_wants s2 k d = sink_wants s k d) as Hw by (intros k' d; exact (wants_put_sinks x2 s k' d Hc2)).
  destruct (IH (Z.lor e (sink_wants s k (m_defaultFlags (service_flags s)))) s2 Hx2) as (x & E & Hx & Hc & Hh & Hf).
  assert (forall ks e, combine s2 ks e = combine s ks e) as Hcomb.
  { intros ks' e'. apply foldl_ext. intros. by rewrite Hw. }
  assert (forall ks l, push_all s2 ks l = push_all s ks l) as Hpush.
  { intros ks' l'. apply foldl_ext. intros. unfold receives. by rewrite !Hw. }
  rewrite Hcomb, Hpush in E. exists x. split.
  - rewrite (run_bind get_service _ s _ s eq_refl), (run_bind _ _ _ _ _ E1).
    rewrite (run_bind get_service _ (put_sinks x1 s) (set_sinks x1 (s_loggerService s)) (put_sinks x1 s) eq_refl).
    cbn [set_sinks flags]. rewrite (run_bind _ _ _ _ _ E2). unfold on_lists, on_service, modify, bind.
    change (set_service _ (put_sinks x2 s)) with s2. exact E.
  - change (service_sinks s2) with x2 in Hc, Hh. change (GetLoggingHost s2) with (GetLoggingHost s) in Hh.
    unfold reset_sinks. split_and!; [done|by etrans|rewrite Hh, Hh2; repeat case_decide; set_solver|].
    intros Hin Hr. apply elem_of_cons in Hin as [E0|Hin].
    + destruct Hc as (_ & _ & Ho). apply Ho, Hf2; [set_solver|done].
    + apply Hf; [done|]. unfold receives. by rewrite !Hw.
Qed.

Definition level_lists (s : CLogging) : SinkLists :=
  mkLists all_sinks (receivers s LoggingFlags_Errors) (receivers s LoggingFlags_Trace) (receivers s LoggingFlags_InstrumentationResults).

Definition received (s : CLogging) (level : Z) (ks : list Sink) : list Sink := filter (fun k => has_flag (receives s k) level = true) ks.

Lemma received_cons s level k ks :
  received s level (k :: ks) = if has_flag (receives s k) level then k :: received s level ks else received s level ks.
Proof. unfold received. destruct (has_flag (receives s k) level) eqn:E; [by rewrite filter_cons_True|rewrite filter_cons_False by congruence; done]. Qed.

Lemma push_all_spec s ks l :
  push_all s ks l = mkLists (m_allSinks l) (m_errorSinks l ++ received s LoggingFlags_Errors ks)
    (m_messageSinks l ++ received s LoggingFlags_Trace ks) (m_dumpSinks l ++ received s LoggingFlags_InstrumentationResults ks).
Proof.
  unfold push_all. revert l. induction ks as [|k ks IH]; intros l; cbn [foldl]; [rewrite !app_nil_r; by destruct l|].
  rewrite IH, !received_cons. unfold push_sink. cbn [m_allSinks m_errorSinks m_messageSinks m_dumpSinks].
  f_equal; case_match; by rewrite <- ?app_assoc.
Qed.

(** The state after a recalculation that found the sinks in the state [x]. *)
Definition recalculated (x : Sinks) (s : CLogging) : CLogging :=
  set_cached (engine_levels s)
    (set_service (set_flags (set_effective (engine_levels s) (service_flags s)) (set_lists (level_lists s) (set_sinks x (s_loggerService s)))) s).

(** The lists and the flags are those that the configuration asks for. *)
Record Settled (s : CLogging) : Prop := {
  settled_callback : m_LoggingFlagsCallback (s_loggerService s) = true;
  settled_lists : service_lists s = level_lists s;
  settled_effective : m_effectiveFlags (service_flags s) = engine_levels s;
  settled_cached : s_cachedFlags s = engine_levels s;
  settled_sinks : sinks_ok (service_sinks s);
  settled_host : host_sink (service_sinks s) = GetLoggingHost s;
  settled_file : receives s CFileLoggerSink <> 0 -> m_pOutputFile (file (service_sinks s)) = true
}.

Lemma level_lists_ext s s' : (forall k, receives s' k = receives s k) -> level_lists s' = level_lists s.
Proof. intros E. unfold level_lists, receivers. f_equal; apply list_filter_iff; intros k; by rewrite E. Qed.

(** Two states with the same configuration *)
Lemma settled_same s s' :
  service_lists s' = service_lists s -> service_sinks s' = service_sinks s -> s_cachedFlags s' = s_cachedFlags s ->
  service_flags s' = service_flags s -> m_LoggingFlagsCallback (s_loggerService s') = m_LoggingFlagsCallback (s_loggerService s) ->
  GetLoggingHost s' = GetLoggingHost s -> (forall k d, sink_wants s' k d = sink_wants s k d) -> Settled s -> Settled s'.
Proof.
  intros E1 E2 E3 E4 E5 E6 E7 [H1 H2 H3 H4 H5 H6 H7].
  assert (forall k, receives s' k = receives s k) as Er by (intros k; unfold receives; by rewrite E4, !E7).
  assert (engine_levels s' = engine_levels s) as El by (unfold engine_levels; rewrite E4; apply foldl_ext; intros; by rewrite E7).
  split; rewrite ?E1, ?E2, ?E3, ?E4, ?E5, ?E6, ?Er, ?El, ?(level_lists_ext s s' Er); done.
Qed.

Lemma recalculated_settled x s :
  m_LoggingFlagsCallback (s_loggerService s) = true -> reset_sinks s all_sinks x -> Settled (recalculated x s).
Proof.
  intros Hcb (Hx & Hc & Hh & Hf).
  assert (forall k d, sink_wants (recalculated x s) k d = sink_wants s k d) as Hw by (intros k d; exact (wants_put_sinks x s k d Hc)).
  assert (forall k, receives (recalculated x s) k = receives s k) as Hr by (intros k; unfold receives; by rewrite !Hw).
  assert (engine_levels (recalculated x s) = engine_levels s) as He by (apply foldl_ext; intros; by rewrite Hw).
  split; rewrite ?He; try done.
  - by rewrite (level_lists_ext s _ Hr).
  - rewrite Hr. apply Hf. set_solver.
Qed.

Lemma RecalculateLoggingFlags_run s :
  EnvironmentFits -> sinks_ok (service_sinks s) -> m_allSinks (service_lists s) = all_sinks ->
  m_LoggingFlagsCallback (s_loggerService s) = true ->
  exists x, RecalculateLoggingFlags env s = (Ok tt, recalculated x s) /\ Settled (recalculated x s) /\ same_config (service_sinks s) x.
Proof.
  intros He Hok Hall Hcb. set (s1 := put_lists (clear_lists (service_lists s)) s).
  destruct (recalculate_loop_run all_sinks LoggingFlags_None s1 He Hok) as (x & E & Hx). exists x.
  split; [|split; [by apply recalculated_settled|by destruct Hx as (_ & ? & _)]].
  rewrite push_all_spec in E. unfold RecalculateLoggingFlags, on_lists, on_service, modify, bind. change (set_service _ s) with s1.
  unfold get_service at 1. unfold gets. change (m_allSinks (lists (s_loggerService s1))) with (m_allSinks (service_lists s)).
  rewrite Hall, E. change (m_allSinks (service_lists s1)) with (m_allSinks (service_lists s)). rewrite Hall.
  unfold on_flags, on_service, modify, get_service, gets.
  match goal with |- context [if ?c then _ else _] => change c with (m_LoggingFlagsCallback (s_loggerService s)) end.
  by rewrite Hcb.
Qed.

(** ** Messages *)

Definition is_level (level : Z) : Prop :=
  level = LoggingFlags_Errors \/ level = LoggingFlags_Trace \/ level = LoggingFlags_InstrumentationResults.

(** What a sink writes for a text. *)
Definition outputs (s : CLogging) (level : Z) (text : wstr) (k : Sink) : list Output :=
  match k with
  | CDebugLoggerSink => [ToDebugPort text; ToDebugPort wide_newline]
  | CEventLoggerSink => if level =? LoggingFlags_Errors then [ToEventLog text] else []
  | CFileLoggerSink => [ToFile (resolve_path env (m_tsPathCandidate (file (service_sinks s)))) level text]
  | CHostLoggerSink =>
      match GetLoggingHost s with
      | None => []
      | Some host => ToHost host level text :: if level =? LoggingFlags_InstrumentationResults then [] else [ToHost host level wide_newline]
      end
  end.

Definition deliveries (s : CLogging) (level : Z) (text : wstr) : list Output :=
  concat (map (outputs s level text) (receivers s level)).

(** A text that the log file, if it receives the level, prints as it is. *)
Definition printable (s : CLogging) (level : Z) (text : wstr) : Prop :=
  CFileLoggerSink ∈ receivers s level -> percent ∉ text.

Lemma write_nil s : write [] s = s.
Proof. destruct s. unfold write. cbn. by rewrite app_nil_r. Qed.
Lemma write_write o1 o2 s : write o2 (write o1 s) = write (o1 ++ o2) s.
Proof. unfold write. cbn. by rewrite app_assoc. Qed.

Lemma write_settled o s : Settled s -> Settled (write o s).
Proof. by apply settled_same. Qed.

Lemma format_plain text args : percent ∉ text -> format text args = Ok text.
Proof.
  induction text as [|c text IH]; [done|]. intros [Hc Ht]%not_elem_of_cons. cbn [format].
  destruct (Z.eqb_spec c percent); [congruence|]. by rewrite IH.
Qed.

Lemma receivers_spec s level k : k ∈ receivers s level <-> has_flag (receives s k) level = true.
Proof. unfold receivers. rewrite list_elem_of_filter. split; [by intros [? _]|]. intros ?. split; [done|]. destruct k; set_solver. Qed.

Lemma has_flag_0 level : has_flag 0 level = false.
Proof. unfold has_flag. by rewrite Z.land_0_l. Qed.

Lemma sink_log_run level text k s :
  Settled s -> k ∈ receivers s level -> printable s level text ->
  sink_log level text k s = (Ok tt, write (outputs s level text k) s).
Proof.
  intros Hs Hk Hp. pose proof Hk as Hk'. apply receivers_spec in Hk'. destruct k; cbn [sink_log outputs]; unfold Debug_log, Event_log, WriteLine, Host_log.
  - done.
  - destruct (level =? LoggingFlags_Errors); [done|by rewrite write_nil].
  - unfold get_service, gets, bind. change (sinks (s_loggerService s)) with (service_sinks s).
    assert (m_pOutputFile (file (service_sinks s)) = true) as Ho.
    { apply (settled_file s Hs). intros E. by rewrite E, has_flag_0 in Hk'. }
    rewrite Ho, format_plain by auto. cbn. by rewrite (proj2 (proj1 (settled_sinks s Hs) Ho)).
  - unfold get_service, gets, bind. change (sinks (s_loggerService s)) with (service_sinks s).
    rewrite (settled_host s Hs). unfold receives, sink_wants, wants in Hk'. destruct (GetLoggingHost s) as [h|]; [|by rewrite has_flag_0 in Hk'].
    cbn. destruct (level =? _); [done|]. unfold modify. by rewrite write_write.
Qed.

Lemma for_each_log level text ks s :
  Settled s -> (forall k, k ∈ ks -> k ∈ receivers s level) -> printable s level text ->
  for_each (sink_log level text) ks s = (Ok tt, write (concat (map (outputs s level text) ks)) s).
Proof.
  intros Hs Hks Hp. revert s Hs Hks Hp. induction ks as [|k ks IH]; intros s Hs Hks Hp; cbn [for_each map concat]; [by rewrite write_nil|].
  rewrite (run_bind _ _ _ _ _ (sink_log_run level text k s Hs (Hks k ltac:(set_solver)) Hp)).
  assert (forall k, k ∈ ks -> k ∈ receivers s level) as Hks' by set_solver.
  etrans; [exact (IH _ (write_settled _ _ Hs) Hks' Hp)|]. by rewrite write_write.
Qed.

Definition ready (s : CLogging) : Prop := IsSuccessful (s_initialize s) = true /\ IsSuccessful (service_init s) = true.

Definition allowed_levels (s : CLogging) : Z := Z.lor (m_effectiveFlags (service_flags s)) (m_instrumentationMethodFlags (service_flags s)).

(** What a formatted message does, and one of the engine. *)
Lemma VLog_run level fmt args text s :
  ready s -> Settled s -> is_level level -> log_entry fmt args = Ok text -> printable s level text ->
  VLog level fmt args s = (Ok tt, write (if has_flag (allowed_levels s) level then deliveries s level text else []) s).
Proof.
  intros [Hi1 Hi2] Hs Hl Ht Hp. unfold VLog, when_init, gets, bind. rewrite Hi1. unfold Service_Log, when_init, gets, bind. rewrite Hi2.
  unfold Service_AllowLogEntry, gets, bind, ret, id. rewrite Hi2. cbn [andb].
  change (Z.lor (m_effectiveFlags (flags (s_loggerService s))) _) with (allowed_levels s).
  destruct (has_flag (allowed_levels s) level); [|by rewrite write_nil].
  rewrite Ht. unfold lift, get_service, gets. change (lists (s_loggerService s)) with (service_lists s). rewrite (settled_lists s Hs).
  replace (sinks_for level (level_lists s)) with (receivers s level) by (destruct Hl as [-> | [-> | ->]]; done).
  by apply for_each_log.
Qed.

Lemma Log_run level fmt args text s :
  ready s -> Settled s -> is_level level -> log_entry fmt args = Ok text -> printable s level text ->
  Log level fmt args s = (Ok tt, write (if has_flag (engine_levels s) level then deliveries s level text else []) s).
Proof.
  intros Hr Hs Hl Ht Hp. pose proof Hr as [Hi1 _]. unfold Log, when_init, gets, bind. rewrite Hi1.
  unfold GetLoggingFlags, unless_init_unexpected, gets, attempt, bind. rewrite Hi1. cbn [if_false_ret ret].
  rewrite (settled_cached s Hs). destruct (has_flag (engine_levels s) level) eqn:E; [|by rewrite write_nil].
  rewrite (VLog_run _ _ _ _ _ Hr Hs Hl Ht Hp). unfold allowed_levels. rewrite (settled_effective s Hs).
  unfold has_flag in *. rewrite Z.land_lor_distr_l. destruct (Z.lor _ _ =? 0) eqn:E0; [|done].
  apply Z.eqb_eq, Z.lor_eq_0_iff in E0 as [E0 _]. by rewrite E0 in E.
Qed.

(** ** The log after any calls *)

(** The service has not been initialised, or was shut down: it has no sinks. *)
Record Idle (s : CLogging) : Prop := {
  idle_init : service_init s = None;
  idle_static : s_initialize s = None \/ IsSuccessful (s_initialize s) = true;
  idle_lists : service_lists s = mkLists [] [] [] [];
  idle_host : m_pLoggingHost (s_loggerService s) = None
}.

Definition Good (s : CLogging) : Prop := Idle s \/ (ready s /\ Settled s).

Definition writes (s s' : CLogging) : Prop := exists o, s' = write o s.

#[export] Instance writes_preorder : PreOrder writes.
Proof.
  split; [intros s; exists []; by rewrite write_nil|]. intros s1 s2 s3 [o1 ->] [o2 ->]. exists (o1 ++ o2). apply write_write.
Qed.

Lemma writes_good s s' : writes s s' -> Good s -> Good s'.
Proof. intros [o ->] [[? ? ? ?]|[? ?]]; [by left|right; split; [done|by apply write_settled]]. Qed.

#[export] Instance write_writes o : Preserves writes (modify (write o)).
Proof. apply pres_modify. intros s. by exists o. Qed.

#[export] Instance gets_writes {A} (f : CLogging -> A) : Preserves writes (gets f).
Proof. intros s. reflexivity. Qed.

Lemma for_each_writes (f : Sink -> L unit) ks : (forall k, Preserves writes (f k)) -> Preserves writes (for_each f ks).
Proof. intros Hf. induction ks as [|k ks IH]; cbn [for_each]; [apply _|]. apply pres_bind; [apply _|done|done]. Qed.

#[export] Instance sink_log_writes level text k : Preserves writes (sink_log level text k).
Proof. destruct k; cbn [sink_log]; unfold Debug_log, Event_log, WriteLine, Host_log, get_service; pres. Qed.

#[export] Instance VLog_writes level fmt args : Preserves writes (VLog level fmt args).
Proof.
  unfold VLog, when_init, Service_Log, Service_AllowLogEntry, get_service. pres. apply for_each_writes. intros k. apply sink_log_writes.
Qed.

#[export] Instance Log_writes level fmt args : Preserves writes (Log level fmt args).
Proof. unfold Log, when_init, GetLoggingFlags, unless_init_unexpected. pres. Qed.

(** A change of the configuration, followed by a recalculation. *)
Lemma recalculate_ready s s1 :
  EnvironmentFits -> ready s1 -> sinks_ok (service_sinks s1) -> m_allSinks (service_lists s1) = all_sinks ->
  m_LoggingFlagsCallback (s_loggerService s1) = true -> written s1 = written s ->
  exists s', RecalculateLoggingFlags env s1 = (Ok tt, s') /\ ready s' /\ Settled s' /\ written s' = written s /\
    m_loggingFlagsToInstrumentationMethodsMap (s_loggerService s') = m_loggingFlagsToInstrumentationMethodsMap (s_loggerService s1) /\
    m_instrumentationMethodFlags (service_flags s') = m_instrumentationMethodFlags (service_flags s1).
Proof.
  intros He Hr Hok Hall Hcb Hw. destruct (RecalculateLoggingFlags_run s1 He Hok Hall Hcb) as (x & E & Hs & _).
  by exists (recalculated x s1).
Qed.

Lemma recalculate_idle s :
  EnvironmentFits -> Idle s ->
  exists s', RecalculateLoggingFlags env s = (Ok tt, s') /\ Idle s' /\ written s' = written s /\ s_initialize s' = s_initialize s /\
    m_loggingFlagsToInstrumentationMethodsMap (s_loggerService s') = m_loggingFlagsToInstrumentationMethodsMap (s_loggerService s) /\
    m_instrumentationMethodFlags (service_flags s') = m_instrumentationMethodFlags (service_flags s).
Proof.
  intros He [H1 H2 H3 H4]. unfold RecalculateLoggingFlags, on_lists, on_service, modify, get_service, gets, bind.
  cbn [s_loggerService set_service set_lists lists]. change (lists (s_loggerService s)) with (service_lists s). rewrite H3.
  cbn [clear_lists m_allSinks recalculate_loop ret on_flags]. unfold on_flags, on_service, modify.
  match goal with |- context [if ?c then _ else _] => destruct c end; eexists; (split; [reflexivity|]); by split_and!.
Qed.

(** What is kept of the instrumentation methods, and what a call does to it. *)
Definition method_state (s : CLogging) : gmap Z (list Z) * Z :=
  (m_loggingFlagsToInstrumentationMethodsMap (s_loggerService s), m_instrumentationMethodFlags (service_flags s)).

Definition is_ready (s : CLogging) : bool := IsSuccessful (s_initialize s) && IsSuccessful (service_init s).

Definition method_state_after (c : LogCall) (s : CLogging) : gmap Z (list Z) * Z :=
  match c with
  | C_UpdateFlags k f =>
      if is_ready s then
        let m := update_levels k f (method_state s).1 in (m, combine_levels (items m) LoggingFlags_None)
      else method_state s
  | _ => method_state s
  end.

Definition is_message (c : LogCall) : bool := match c with C_Log _ _ _ | C_VLog _ _ _ => true | _ => false end.

Definition call_ok (c : LogCall) (s s' : CLogging) : Prop :=
  Good s' /\ method_state s' = method_state_after c s /\ (is_message c = false -> written s' = written s).

Lemma unless_init_true get s : IsSuccessful (get s) = true -> unless_init_unexpected get s = (Ok tt, s).
Proof. intros E. unfold unless_init_unexpected, gets, bind. by rewrite E. Qed.
Lemma unless_init_false get s : IsSuccessful (get s) = false -> unless_init_unexpected get s = (Err E_UNEXPECTED, s).
Proof. intros E. unfold unless_init_unexpected, gets, bind. by rewrite E. Qed.

Lemma ready_is_ready s : ready s -> is_ready s = true.
Proof. intros [E1 E2]. unfold is_ready. by rewrite E1, E2. Qed.

Lemma idle_not_ready s : Idle s -> is_ready s = false /\ IsSuccessful (service_init s) = false.
Proof. intros [E1 _ _ _]. unfold is_ready. rewrite E1. by rewrite andb_false_r. Qed.

(** A call that asks both flags does nothing in an idle log. *)
Lemma guarded_idle (m : L unit) s :
  Idle s -> bind (unless_init_unexpected s_initialize) (fun _ => bind (unless_init_unexpected service_init) (fun _ => m)) s = (Err E_UNEXPECTED, s).
Proof.
  intros Hi. destruct (idle_not_ready s Hi) as [_ E2]. unfold bind. destruct (IsSuccessful (s_initialize s)) eqn:E1.
  - by rewrite (unless_init_true _ _ E1), (unless_init_false _ _ E2).
  - by rewrite (unless_init_false _ _ E1).
Qed.

Lemma guarded_ready (m : L unit) s :
  ready s -> bind (unless_init_unexpected s_initialize) (fun _ => bind (unless_init_unexpected service_init) (fun _ => m)) s = m s.
Proof. intros [E1 E2]. unfold bind. by rewrite (unless_init_true _ _ E1), (unless_init_true _ _ E2). Qed.

(** A call that changes the configuration by [f] when it is [ready]. *)
Lemma configure_ok c (f : CLogging -> CLogging) s s1 r :
  EnvironmentFits -> Good s ->
  (Idle s -> (log_call env c s).2 = s) -> (ready s -> log_call env c s = (r, s1) /\ RecalculateLoggingFlags env (f s) = (Ok tt, s1)) ->
  (ready s -> Settled s -> ready (f s) /\ sinks_ok (service_sinks (f s)) /\ m_allSinks (service_lists (f s)) = all_sinks /\
    m_LoggingFlagsCallback (s_loggerService (f s)) = true /\ written (f s) = written s /\ method_state (f s) = method_state_after c s) ->
  call_ok c s (log_call env c s).2.
Proof.
  intros He Hg Hidle Hrun Hf. destruct Hg as [Hi|[Hr Hs]].
  - rewrite (Hidle Hi). destruct (idle_not_ready s Hi) as [E _]. split_and!; [by left| |done].
    destruct c; cbn [method_state_after]; try done. by rewrite E.
  - destruct (Hrun Hr) as [E E1]. destruct (Hf Hr Hs) as (H1 & H2 & H3 & H4 & H5 & H6). rewrite E. cbn [snd].
    destruct (recalculate_ready s (f s) He H1 H2 H3 H4 H5) as (s' & E' & Hr' & Hs' & Hw & Hm1 & Hm2).
    rewrite E1 in E'. injection E' as ->. split_and!; [by right| |done]. rewrite <- H6. unfold method_state. by rewrite Hm1, Hm2.
Qed.

Lemma settled_all s : Settled s -> m_allSinks (service_lists s) = all_sinks.
Proof. intros Hs. by rewrite (settled_lists s Hs). Qed.

Lemma configure_guarded c (f : CLogging -> CLogging) s :
  EnvironmentFits -> Good s ->
  (forall s, log_call env c s = bind (unless_init_unexpected s_initialize) (fun _ => bind (unless_init_unexpected service_init) (fun _ =>
    bind (modify f) (fun _ => RecalculateLoggingFlags env))) s) ->
  (ready s -> Settled s -> ready (f s) /\ sinks_ok (service_sinks (f s)) /\ m_allSinks (service_lists (f s)) = all_sinks /\
    m_LoggingFlagsCallback (s_loggerService (f s)) = true /\ written (f s) = written s /\ method_state (f s) = method_state_after c s) ->
  call_ok c s (log_call env c s).2.
Proof.
  intros He Hg E Hf. destruct Hg as [Hi|[Hr Hs]].
  - apply (configure_ok c f s s (Err E_UNEXPECTED) He); [by left| |intros Hr|done].
    + intros _. by rewrite E, (guarded_idle _ _ Hi).
    + destruct (idle_not_ready s Hi) as [E' _]. by rewrite (ready_is_ready s Hr) in E'.
  - destruct (Hf Hr Hs) as (H1 & H2 & H3 & H4 & H5 & H6). destruct (recalculate_ready s (f s) He H1 H2 H3 H4 H5) as (s' & E' & _).
    apply (configure_ok c f s s' (Ok tt) He); [by right| | |done].
    + intros Hi. destruct (idle_not_ready s Hi) as [E2 _]. by rewrite (ready_is_ready s Hr) in E2.
    + intros _. rewrite E, (guarded_ready _ _ Hr). by split.
Qed.

Lemma SetLoggingFlags_ok v s : EnvironmentFits -> Good s -> call_ok (C_SetLoggingFlags v) s (log_call env (C_SetLoggingFlags v) s).2.
Proof.
  intros He Hg. eapply configure_guarded; [done|done|reflexivity|]. intros [? ?] Hs.
  split_and!; [done|exact (settled_sinks s Hs)|by apply (settled_all s)|by apply (settled_callback s)|done|done].
Qed.

Lemma SetLoggingHost_ok v s : EnvironmentFits -> Good s -> call_ok (C_SetLoggingHost v) s (log_call env (C_SetLoggingHost v) s).2.
Proof.
  intros He Hg. eapply configure_guarded; [done|done|reflexivity|]. intros [? ?] Hs.
  split_and!; [done|exact (settled_sinks s Hs)|by apply (settled_all s)|by apply (settled_callback s)|done|done].
Qed.

(** The state after an update, before its recalculation *)
Definition updated (k v : Z) (s : CLogging) : CLogging :=
  let m := update_levels k v (m_loggingFlagsToInstrumentationMethodsMap (s_loggerService s)) in
  set_service (set_flags (set_method_flags (combine_levels (items m) LoggingFlags_None) (service_flags s)) (set_levels m (s_loggerService s))) s.

Lemma UpdateFlags_ok k v s : EnvironmentFits -> Good s -> call_ok (C_UpdateFlags k v) s (log_call env (C_UpdateFlags k v) s).2.
Proof.
  intros He Hg. apply (configure_guarded _ (updated k v)); [done|done|reflexivity|]. intros Hr Hs.
  cbn [method_state_after]. rewrite (ready_is_ready s Hr). destruct Hr.
  split_and!; [done|exact (settled_sinks s Hs)|by apply (settled_all s)|by apply (settled_callback s)|done|done].
Qed.

Lemma SetLogToDebugPort_ok b s : EnvironmentFits -> Good s -> call_ok (C_SetLogToDebugPort b) s (log_call env (C_SetLogToDebugPort b) s).2.
Proof.
  intros He [Hi|[Hr Hs]].
  - destruct (idle_not_ready s Hi) as [_ E]. cbn [log_call]. unfold SetLogToDebugPort, when_init, gets, bind.
    assert ((Service_SetLogToDebugPort env b s) = (Ok tt, s)) as E'.
    { unfold Service_SetLogToDebugPort, when_init, gets, bind. by rewrite E. }
    destruct (IsSuccessful (s_initialize s)); rewrite ?E'; (split_and!; [by left|done|done]).
  - pose proof Hr as [E1 E2]. cbn [log_call]. unfold SetLogToDebugPort, Service_SetLogToDebugPort, when_init, gets, bind. rewrite E1, E2.
    unfold on_service, modify. set (s1 := set_service (set_port b (s_loggerService s)) s).
    destruct (recalculate_ready s s1 He) as (s' & E & Hr' & Hs' & Hw & Hm1 & Hm2);
      [done|exact (settled_sinks s Hs)|by apply (settled_all s)|by apply (settled_callback s)|done|].
    unfold attempt. rewrite E. change (call_ok (C_SetLogToDebugPort b) s s').
    split_and!; [by right| |done]. unfold method_state. by rewrite Hm1, Hm2.
Qed.

(** The file sink gets a new path or level. *)
Lemma on_file_sinks_run f s :
  m_allSinks (service_lists s) = all_sinks -> on_file_sinks f s = (Ok tt, put_sinks (set_file (f (file (service_sinks s))) (service_sinks s)) s).
Proof. intros E. unfold on_file_sinks, get_service, gets, bind. change (lists (s_loggerService s)) with (service_lists s). by rewrite E. Qed.

Lemma set_file_ok c f s :
  EnvironmentFits -> Good s -> is_message c = false -> (forall x, m_pOutputFile (f x) = false) -> method_state_after c s = method_state s ->
  log_call env c = bind (unless_init_unexpected s_initialize) (fun _ => bind (on_file_sinks f) (fun _ => RecalculateLoggingFlags env)) ->
  call_ok c s (log_call env c s).2.
Proof.
  intros He Hg Hc Hf Hm E. rewrite E. unfold call_ok. rewrite Hm. destruct Hg as [Hi|[Hr Hs]].
  - destruct (IsSuccessful (s_initialize s)) eqn:E1; unfold bind; [rewrite (unless_init_true _ _ E1)|by rewrite (unless_init_false _ _ E1); split_and!; [left|..]].
    assert (on_file_sinks f s = (Ok tt, s)) as E2.
    { unfold on_file_sinks, get_service, gets, bind. change (lists (s_loggerService s)) with (service_lists s). by rewrite (idle_lists s Hi). }
    rewrite E2. destruct (recalculate_idle s He Hi) as (s' & E3 & Hi' & Hw & _ & Hm1 & Hm2). rewrite E3. cbn [snd].
    split_and!; [by left| |done]. unfold method_state. by rewrite Hm1, Hm2.
  - pose proof Hr as [E1 E2]. unfold bind. rewrite (unless_init_true _ _ E1), (on_file_sinks_run f s (settled_all s Hs)).
    destruct (recalculate_ready s (put_sinks (set_file (f (file (service_sinks s))) (service_sinks s)) s) He) as (s' & E3 & Hr' & Hs' & Hw & Hm1 & Hm2);
      [done| |by apply (settled_all s)|by apply (settled_callback s)|done|].
    { split; [intros Ho; cbn in Ho; by rewrite Hf in Ho|apply (settled_sinks s Hs)]. }
    rewrite E3. cbn [snd]. split_and!; [by right| |done]. unfold method_state. by rewrite Hm1, Hm2.
Qed.

(** ** Initialisation and shutdown *)

Lemma read_variable_run n : EnvironmentFits -> exists v, read_variable env n = Ok v.
Proof.
  intros [_ Hv]. unfold read_variable. destruct (GetEnvironmentVariable env n) as [v|] eqn:E; [|by exists None].
  destruct v as [|c v]; [by exists None|]. apply Hv in E. destruct (Nat.ltb_spec (length (c :: v)) MAX_PATH); [by eexists|lia].
Qed.

(** The service with new sinks *)
Definition prepared (d : Z) (f : LogFile) (s : CLogging) : CLogging :=
  set_service (set_flags (set_default d (service_flags s)) (set_lists (mkLists all_sinks [] [] []) (set_sinks (mkSinks None f None) (s_loggerService s)))) s.

Lemma InitializeCore_prepares s :
  EnvironmentFits -> service_lists s = mkLists [] [] [] [] ->
  exists d f, m_pOutputFile f = false /\ Service_InitializeCore env s = RecalculateLoggingFlags env (prepared d f s).
Proof.
  intros He El. destruct (read_variable_run (wide "MicrosoftInstrumentationEngine_LogLevel") He) as [v1 E1].
  destruct (read_variable_run (wide "MicrosoftInstrumentationEngine_FileLog") He) as [v2 E2].
  destruct (read_variable_run (wide "MicrosoftInstrumentationEngine_FileLogPath") He) as [v3 E3].
  exists (match v1 with Some v => ExtractLoggingFlags v | None => m_defaultFlags (service_flags s) end),
    (mkLogFile (match v2 with Some v => ExtractLoggingFlags v | None => LoggingFlags_None end) false [] (default [] v3)).
  split; [done|]. unfold Service_InitializeCore, GetPathAndFlags. rewrite E1, E2, E3.
  destruct s as [[[] ? ? ? ? ? l ?] ? ? ? ?]. change l with (service_lists (mkLogging (mkService (mkLoggerFlags 0 0 0) ∅ false false None None l new_sinks) None 0 0 [])) in El.
  cbn in El. subst l. by destruct v1.
Qed.

(** What the log was is not changed by the count of its users. *)
Lemma set_count_good n s : Good s -> Good (set_count n s).
Proof. intros [[? ? ? ?]|[? Hs]]; [by left|right; split; [done|]]. revert Hs. by apply settled_same. Qed.

Lemma started_settled s :
  Settled s -> service_init s = None -> m_pLoggingHost (s_loggerService s) = None ->
  Settled (set_s_initialize (Some S_OK) (set_service_init (Some S_OK) s)).
Proof.
  intros Hs E1 E2. assert (GetLoggingHost s = None) as Hn by (unfold GetLoggingHost; by rewrite E1).
  assert (GetLoggingHost (set_s_initialize (Some S_OK) (set_service_init (Some S_OK) s)) = None) as Hn' by exact E2.
  revert Hs. apply settled_same; try done; [by rewrite Hn, Hn'|]. intros k d. unfold sink_wants. rewrite Hn, Hn'. by destruct k.
Qed.

Lemma Initialize_starts s :
  EnvironmentFits -> Idle s -> s_initialize s = None ->
  exists s', init_once s_initialize set_s_initialize (Service_Initialize env) s = (Ok tt, s') /\ ready s' /\ Settled s' /\
    written s' = written s /\ method_state s' = method_state s.
Proof.
  intros He [H1 H2 H3 H4] Hi. set (s1 := set_service (set_callback true (s_loggerService s)) s).
  destruct (InitializeCore_prepares s1 He H3) as (d & f & Hf & E).
  destruct (RecalculateLoggingFlags_run (prepared d f s1) He) as (x & E1 & Hs & Hc); [split; [intros Ho; cbn in Ho; congruence|by left]|done|done|].
  rewrite E1 in E.
  assert (service_init (recalculated x (prepared d f s1)) = None /\ m_pLoggingHost (s_loggerService (recalculated x (prepared d f s1))) = None /\
    written (recalculated x (prepared d f s1)) = written s /\ method_state (recalculated x (prepared d f s1)) = method_state s) as (F1 & F2 & F3 & F4) by done.
  clear E1. generalize dependent (recalculated x (prepared d f s1)). intros s2 E Hs F1 F2 F3 F4.
  exists (set_s_initialize (Some S_OK) (set_service_init (Some S_OK) s2)). split.
  { unfold init_once at 1. rewrite Hi. unfold Service_Initialize, on_service, modify, bind. fold s1. unfold init_once.
    change (service_init s1) with (service_init s). by rewrite H1, E. }
  split; [done|]. split; [by apply started_settled|done].
Qed.

Lemma init_once_again get set (m : L unit) s : IsSuccessful (get s) = true -> init_once get set m s = (Ok tt, s).
Proof. unfold init_once. destruct (get s) as [hr|]; [|done]. cbn. unfold if_fail_ret. by destruct (FAILED hr). Qed.

Lemma Initialize_ok s : EnvironmentFits -> Good s -> call_ok C_Initialize s (log_call env C_Initialize s).2.
Proof.
  intros He Hg. cbn [log_call]. unfold Initialize.
  assert (exists s', init_once s_initialize set_s_initialize (Service_Initialize env) s = (Ok tt, s') /\ Good s' /\
    written s' = written s /\ method_state s' = method_state s) as (s' & E & Hg' & Hw & Hm).
  { destruct Hg as [Hi|[Hr Hs]].
    - destruct (idle_static s Hi) as [E|E].
      + destruct (Initialize_starts s He Hi E) as (s' & E' & Hr & Hs & ? & ?). exists s'. by split_and!; [|right|..].
      + exists s. by split_and!; [apply init_once_again|left|..].
    - exists s. destruct Hr as [E ?]. by split_and!; [apply init_once_again|right|..]. }
  rewrite (run_bind _ _ _ _ _ E). split_and!; [by apply set_count_good|done|done].
Qed.

Lemma sinks_shutdown_run s :
  m_allSinks (service_lists s) = all_sinks ->
  exists r f, for_each (sink_Shutdown env) all_sinks s = (r, put_sinks (mkSinks None f (host_sink (service_sinks s))) s) /\ returns r /\
    (r <> Ok tt -> f = file (service_sinks s)).
Proof.
  intros _. cbn [for_each all_sinks sink_Shutdown]. unfold Event_Shutdown, CloseLogFile, bind, ret, gets, modify, if_fail_ret.
  set (hr := TerminateEventSource env _). destruct (FAILED hr); cbn [fail ret].
  - by exists (Err hr), (file (service_sinks s)).
  - exists (Ok tt). eexists. split; [reflexivity|]. by split.
Qed.

Lemma Service_Shutdown_good s :
  Good s -> IsSuccessful (s_initialize s) = true -> let s' := (Service_Shutdown env s).2 in
  Good s' /\ method_state s' = method_state s /\ written s' = written s /\ s_initialize s' = s_initialize s.
Proof.
  intros [Hi|[Hr Hs]] E0; unfold Service_Shutdown, get_service, gets, bind; change (lists (s_loggerService s)) with (service_lists s).
  - rewrite (idle_lists s Hi). split; [left; by split; [|right| |]|done].
  - rewrite (settled_all s Hs). destruct (sinks_shutdown_run s (settled_all s Hs)) as (r & f & E & Hret & Hf). rewrite E.
    destruct r as [[]|hr|u|]; try done.
    + split; [left; by split; [|right| |]|done].
    + split; [|done]. right. split; [done|]. rewrite (Hf ltac:(done)). destruct Hs as [? ? ? ? [? ?] ? ?]. split; try done. by split; [|left].
Qed.

Lemma Shutdown_ok s : EnvironmentFits -> Good s -> call_ok C_Shutdown s (log_call env C_Shutdown s).2.
Proof.
  intros He Hg. cbn [log_call]. unfold Shutdown. destruct (IsSuccessful (s_initialize s)) eqn:E.
  - rewrite (run_bind _ _ _ _ _ (unless_init_true _ _ E)). unfold modify, gets, bind, id.
    pose proof (set_count_good ((s_initCount s - 1) mod 2 ^ 64) s Hg) as Hg'. destruct (_ =? 0); [|by split].
    by destruct (Service_Shutdown_good _ Hg' E) as (? & ? & ? & _).
  - unfold bind. by rewrite (unless_init_false _ _ E).
Qed.

Lemma message_ok c s : is_message c = true -> Good s -> call_ok c s (log_call env c s).2.
Proof.
  intros Hc Hg. assert (Preserves writes (log_call env c)) as Hp by (destruct c; try done; cbn [log_call]; apply _).
  specialize (Hp s). split_and!; [by eapply writes_good| |by rewrite Hc]. destruct Hp as [o ->]. by destruct c.
Qed.

Lemma log_call_ok c s : EnvironmentFits -> Good s -> call_ok c s (log_call env c s).2.
Proof.
  intros He Hg. destruct c.
  - by apply Initialize_ok.
  - by apply Shutdown_ok.
  - by apply SetLogToDebugPort_ok.
  - by apply SetLoggingFlags_ok.
  - by apply SetLoggingHost_ok.
  - by apply UpdateFlags_ok.
  - by apply (set_file_ok _ (File_SetLogFilePath path)).
  - by apply (set_file_ok _ (File_SetLogFileLevel fileLogFlags)).
  - by apply message_ok.
  - by apply message_ok.
Qed.

Lemma new_logging_good : Good new_logging.
Proof. left. by split; [|left|..]. Qed.

Lemma log_calls_good cs s : EnvironmentFits -> Good s -> Good (log_calls env cs s).
Proof.
  intros He. revert s. induction cs as [|c cs IH]; intros s Hg; [done|]. apply IH. by destruct (log_call_ok c s He Hg).
Qed.

(** ** The flags of the instrumentation methods

    The specification: a map from class ids to the flags that were last given for them. *)
Fixpoint given (cs : list LogCall) (s : CLogging) (m : gmap Z Z) : gmap Z Z :=
  match cs with
  | [] => m
  | c :: cs => given cs (log_call env c s).2 (match c with C_UpdateFlags k f => if is_ready s then <[k := f]> m else m | _ => m end)
  end.

(** Some instrumentation method asked for the level. *)
Definition asked_for (m : gmap Z Z) (level : Z) : Prop := exists c f, m !! c = Some f /\ has_flag f level = true.

Record represents (st : gmap Z (list Z) * Z) (m : gmap Z Z) : Prop := {
  rep_levels : forall level l, st.1 !! level = Some l -> is_level level;
  rep_lists : forall level, is_level level -> exists l, st.1 !! level = Some l /\ NoDup l /\
    forall c, c ∈ l <-> exists f, m !! c = Some f /\ has_flag f level = true;
  rep_flags : forall level, is_level level -> has_flag st.2 level = true <-> asked_for m level
}.

Lemma elem_of_erase_first c l x : NoDup l -> x ∈ erase_guid c l <-> x ∈ l /\ x <> c.
Proof.
  induction 1 as [|y l Hy Hl IH]; cbn [erase_guid]; [set_solver|].
  destruct (Z.eqb_spec y c); [subst; set_solver|rewrite !elem_of_cons, IH; set_solver].
Qed.

Lemma NoDup_erase_first c l : NoDup l -> NoDup (erase_guid c l).
Proof.
  induction 1 as [|y l Hy Hl IH]; cbn [erase_guid]; [constructor|]. destruct (y =? c); [done|]. constructor; [|done].
  rewrite elem_of_erase_first by done. tauto.
Qed.

Lemma update_level_other k f level level' m : level <> level' -> update_level k f level m !! level' = m !! level'.
Proof. intros E. unfold update_level. by rewrite lookup_insert_ne. Qed.

Lemma update_level_same k f level m l :
  m !! level = Some l -> NoDup l ->
  exists l', update_level k f level m !! level = Some l' /\ NoDup l' /\
    forall c, c ∈ l' <-> if decide (c = k) then has_flag level f = true else c ∈ l.
Proof.
  intros Hl Hn. unfold update_level. rewrite Hl, lookup_insert_eq. change (default [] (Some l)) with l. eexists. split; [reflexivity|].
  case_bool_decide as Hk; destruct (has_flag level f); cbn [andb negb].
  - split; [done|]. intros c. case_decide; subst; naive_solver.
  - split; [by apply NoDup_erase_first|]. intros c. rewrite elem_of_erase_first by done. case_decide; naive_solver.
  - split; [apply NoDup_app; split_and!; [done|set_solver|apply NoDup_singleton]|]. intros c. rewrite elem_of_app, list_elem_of_singleton. case_decide; naive_solver.
  - split; [done|]. intros c. case_decide; subst; naive_solver.
Qed.

Lemma has_flag_comm a b : has_flag a b = has_flag b a.
Proof. unfold has_flag. by rewrite Z.land_comm. Qed.

Lemma has_flag_lor a b level : has_flag (Z.lor a b) level = has_flag a level || has_flag b level.
Proof.
  unfold has_flag. rewrite Z.land_lor_distr_l. destruct (Z.eqb_spec (Z.lor (Z.land a level) (Z.land b level)) 0) as [E|E].
  - apply Z.lor_eq_0_iff in E as [-> ->]. done.
  - destruct (Z.eqb_spec (Z.land a level) 0) as [E1|], (Z.eqb_spec (Z.land b level) 0) as [E2|]; try done. by rewrite E1, E2 in E.
Qed.

Lemma has_flag_levels a b : is_level a -> is_level b -> has_flag a b = true <-> a = b.
Proof. by intros [-> | [-> | ->]] [-> | [-> | ->]]. Qed.

Lemma combine_levels_spec l acc level :
  is_level level -> (forall k ms, (k, ms) ∈ l -> is_level k) ->
  has_flag (combine_levels l acc) level = true <-> has_flag acc level = true \/ exists c ms, (level, ms) ∈ l /\ c ∈ ms.
Proof.
  intros Hl. revert acc. induction l as [|[k ms] l IH]; intros acc Hk; cbn [combine_levels].
  - split; [by left|]. intros [?|(c & ms & Hin & _)]; [done|]. by apply elem_of_nil in Hin.
  - rewrite IH by (intros k' ms' Hin; apply (Hk k' ms'); by apply list_elem_of_further).
    assert (is_level k) as Hlk by (apply (Hk k ms), list_elem_of_here). destruct ms as [|c ms]; cbn [length Nat.eqb].
    + split; (intros [?|(c & ms' & Hin & Hc)]; [by left|right; exists c, ms']).
      * split; [by apply list_elem_of_further|done].
      * apply elem_of_cons in Hin as [[= -> ->]|Hin]; [by apply elem_of_nil in Hc|done].
    + rewrite has_flag_lor, orb_true_iff, (has_flag_levels k level Hlk Hl). split.
      * intros [[?|<-]|(c' & ms' & ? & ?)]; [by left| |right; exists c', ms'; split; [by apply list_elem_of_further|done]].
        right. exists c, (c :: ms). split; apply list_elem_of_here.
      * intros [?|(c' & ms' & Hin & Hc)]; [auto|]. apply elem_of_cons in Hin as [[= -> ->]|Hin]; [auto|]. right. by exists c', ms'.
Qed.

Lemma update_levels_represents k f st m :
  represents st m -> let lv := update_levels k f st.1 in represents (lv, combine_levels (items lv) LoggingFlags_None) (<[k := f]> m).
Proof.
  intros [H1 H2 H3] lv.
  assert (forall level l, lv !! level = Some l -> is_level level) as Hlv.
  { intros level l. unfold lv, update_levels, is_level. intros Hl.
    do 3 (match type of Hl with context [update_level _ _ ?a _] => destruct (Z.eq_dec a level); [by subst; auto|rewrite update_level_other in Hl by done] end).
    by apply (H1 level l). }
  assert (forall level, is_level level -> exists l, lv !! level = Some l /\ NoDup l /\
    forall c, c ∈ l <-> exists g, <[k := f]> m !! c = Some g /\ has_flag g level = true) as Hls.
  { intros level Hl. destruct (H2 level Hl) as (l & E & Hn & Hc).
    assert (exists l', lv !! level = Some l' /\ NoDup l' /\ forall c, c ∈ l' <-> if decide (c = k) then has_flag level f = true else c ∈ l)
      as (l' & E' & Hn' & Hc').
    { unfold lv, update_levels. destruct Hl as [-> | [-> | ->]]; rewrite ?update_level_other by done; apply update_level_same;
        rewrite ?update_level_other by done; done. }
    exists l'. split_and!; [done..|]. intros c. rewrite Hc', (has_flag_comm level f). case_decide; subst.
    - rewrite lookup_insert_eq. naive_solver.
    - rewrite lookup_insert_ne by done. apply Hc. }
  split; cbn [fst snd]; [exact Hlv|exact Hls|].
  intros level Hl. rewrite combine_levels_spec; [|done|].
  - destruct (Hls level Hl) as (l & E & _ & Hc). unfold asked_for. split.
    + intros [Hz|(c & ms & Hin & Hcm)]; [by rewrite has_flag_0 in Hz|]. rewrite items_perm, elem_of_map_to_list, E in Hin.
      injection Hin as <-. exists c. by apply Hc.
    + intros (c & g & Hg). right. exists c, l. rewrite items_perm, elem_of_map_to_list. split; [done|]. apply Hc. by exists g.
  - intros level' ms. rewrite items_perm, elem_of_map_to_list. apply Hlv.
Qed.

Lemma new_logging_represents : represents (method_state new_logging) ∅.
Proof.
  split.
  - intros level l. cbn. unfold is_level. rewrite !lookup_insert_Some, lookup_empty. naive_solver.
  - intros level Hl. exists []. split; [|split; [constructor|]].
    + by destruct Hl as [-> | [-> | ->]].
    + intros c. split; [by intros ?%elem_of_nil|]. intros (f & Hf & _). by rewrite lookup_empty in Hf.
  - intros level _. split; [by rewrite has_flag_0|]. intros (c & f & Hf & _). by rewrite lookup_empty in Hf.
Qed.

Lemma given_represents cs s m :
  EnvironmentFits -> Good s -> represents (method_state s) m -> represents (method_state (log_calls env cs s)) (given cs s m).
Proof.
  intros He. revert s m. induction cs as [|c cs IH]; intros s m Hg Hr; [done|]. cbn [log_calls foldl given].
  destruct (log_call_ok c s He Hg) as (Hg' & E & _). apply IH; [done|]. rewrite E.
  destruct c as [| | | | |k f| | | |]; cbn [method_state_after]; try exact Hr. destruct (is_ready s); [|exact Hr].
  by apply (update_levels_represents k f (method_state s)).
Qed.

Lemma ready_state cs :
  EnvironmentFits -> let s := log_calls env cs new_logging in IsSuccessful (service_init s) = true -> ready s /\ Settled s.
Proof.
  intros He s Hi. destruct (log_calls_good cs new_logging He new_logging_good) as [[E _ _ _]|?]; [|done].
  fold s in E. by rewrite E in Hi.
Qed.

(** After the last user has shut the log down, nothing is written any more. *)
Lemma dead_call c s :
  EnvironmentFits -> Idle s -> IsSuccessful (s_initialize s) = true ->
  let s' := (log_call env c s).2 in Idle s' /\ IsSuccessful (s_initialize s') = true /\ written s' = written s.
Proof.
  intros He Hi E. destruct (idle_not_ready s Hi) as [_ E2].
  assert (forall level fmt args, VLog level fmt args s = (Ok tt, s)) as Hv.
  { intros. unfold VLog, when_init, gets, bind. rewrite E. unfold Service_Log, when_init, gets, bind. by rewrite E2. }
  assert (forall n, Idle (set_count n s)) as Hc by (intros n; destruct Hi; by split).
  assert (forall f : LogFile -> LogFile, on_file_sinks f s = (Ok tt, s)) as Hf.
  { intros f. unfold on_file_sinks, get_service, gets, bind. change (lists (s_loggerService s)) with (service_lists s). by rewrite (idle_lists s Hi). }
  destruct (recalculate_idle s He Hi) as (s' & Er & Hi' & Hw & Es & _).
  destruct c; cbn [log_call].
  - unfold Initialize. rewrite (run_bind _ _ _ _ _ (init_once_again s_initialize set_s_initialize (Service_Initialize env) s E)).
    by split_and!; [apply Hc|..].
  - unfold Shutdown. rewrite (run_bind _ _ _ _ _ (unless_init_true _ _ E)). unfold modify, gets, bind, id.
    destruct (_ =? 0); [|by split_and!; [apply Hc|..]]. unfold Service_Shutdown, get_service, gets, bind.
    change (lists (s_loggerService (set_count _ s))) with (service_lists s). rewrite (idle_lists s Hi). cbn.
    split_and!; [|done|done]. split; [done|by right|done|done].
  - unfold SetLogToDebugPort, when_init, gets, bind. rewrite E. unfold Service_SetLogToDebugPort, when_init, gets, bind. by rewrite E2.
  - by rewrite (guarded_idle _ _ Hi : SetLoggingFlags env loggingFlags s = _).
  - by rewrite (guarded_idle _ _ Hi : SetLoggingHost env host s = _).
  - by rewrite (guarded_idle _ _ Hi : UpdateInstrumentationMethodLoggingFlags env classId loggingFlags s = _).
  - unfold SetLogFilePath. rewrite (run_bind _ _ _ _ _ (unless_init_true _ _ E)). unfold Service_SetLogFilePath.
    rewrite (run_bind _ _ _ _ _ (Hf _)), Er. cbn. by rewrite Es.
  - unfold SetLogFileLevel. rewrite (run_bind _ _ _ _ _ (unless_init_true _ _ E)). unfold Service_SetLogFileLevel.
    rewrite (run_bind _ _ _ _ _ (Hf _)), Er. cbn. by rewrite Es.
  - unfold Log, when_init, gets, bind. rewrite E. unfold GetLoggingFlags, attempt, bind. rewrite (unless_init_true _ _ E). cbn.
    destruct (has_flag _ level); [by rewrite Hv|done].
  - by rewrite Hv.
Qed.

Lemma dead_calls cs s :
  EnvironmentFits -> Idle s -> IsSuccessful (s_initialize s) = true -> written (log_calls env cs s) = written s.
Proof.
  intros He. revert s. induction cs as [|c cs IH]; intros s Hi E; [done|]. destruct (dead_call c s He Hi E) as (Hi' & E' & Hw).
  etrans; [exact (IH _ Hi' E')|exact Hw].
Qed.

(** ** Escaping *)

Lemma format_escaped m args : format (EscapeFormatSpecifiers m) args = Ok m.
Proof.
  induction m as [|c m IH]; [done|]. cbn [EscapeFormatSpecifiers]. destruct (Z.eqb_spec c percent) as [->|Hc]; cbn [format].
  - rewrite !Z.eqb_refl. by rewrite IH.
  - destruct (Z.eqb_spec c percent); [done|]. by rewrite IH.
Qed.

Lemma format_prefixed guid m :
  format (FORMATTABLE_PREFIX ++ EscapeFormatSpecifiers m) [guid] = Ok (wide "[IM:" ++ guid ++ wide "]" ++ m).
Proof. change FORMATTABLE_PREFIX with [91; 73; 77; 58; 37; 115; 93]. cbn [app format Z.eqb Pos.eqb percent]. by rewrite format_escaped. Qed.

(** ** The properties *)

(** C35: after any calls, the lists that the service keeps per level are those of the map
    from instrumentation methods to the flags that were last given for them, without
    repetitions, and a level is among the flags of the methods exactly when some method
    asked for it; the order in which the unordered map is walked does not matter. *)
Theorem method_flags_refine cs :
  EnvironmentFits -> represents (method_state (log_calls env cs new_logging)) (given cs new_logging ∅).
Proof. intros He. apply given_represents; [done|apply new_logging_good|apply new_logging_represents]. Qed.

(** C34: after any calls that leave the log running, a message of the engine is dropped when
    no sink wants its level by default, and otherwise is given, formatted and truncated, to
    exactly the sinks that want the level by default or for an instrumentation method, once
    to each: the debug port unless there is a host that it was not added to, the event log
    for errors, the log file with its own level if it can be opened, and the host. *)
Theorem Log_reaches cs level fmt args text :
  let s := log_calls env cs new_logging in
  EnvironmentFits -> IsSuccessful (service_init s) = true -> is_level level ->
  log_entry fmt args = Ok text -> printable s level text ->
  GetLoggingFlags s = (Ok (engine_levels s), s) /\
  Log level fmt args s = (Ok tt, write (if has_flag (engine_levels s) level then deliveries s level text else []) s).
Proof.
  intros s He Hi Hl Ht Hp. destruct (ready_state cs He Hi : ready s /\ Settled s) as [Hr Hs]. split; [|by apply Log_run].
  unfold GetLoggingFlags, bind. rewrite (unless_init_true _ _ (proj1 Hr)). unfold gets. by rewrite (settled_cached _ Hs).
Qed.


(** When the last user has shut the log down, initialising it again succeeds, and nothing
    is ever written again. *)
Lemma shutdown_is_final cs1 cs2 :
  let s := log_calls env cs1 new_logging in
  EnvironmentFits -> IsSuccessful (s_initialize s) = true -> service_init s = None ->
  (Initialize env s).1 = Ok tt /\ written (log_calls env cs2 s) = written s.
Proof.
  intros s He E1 E2. assert (Idle s) as Hi.
  { destruct (log_calls_good cs1 new_logging He new_logging_good) as [?|[[_ E] _]]; [done|]. fold s in E. by rewrite E2 in E. }
  split; [|by apply dead_calls].
  unfold Initialize. by rewrite (run_bind _ _ _ _ _ (init_once_again s_initialize set_s_initialize (Service_Initialize env) s E1)).
Qed.

End Spec.

(** ** A run

    The engine logs errors, an instrumentation method logs everything, and there is a log
    file. *)
#[local] Instance listed_levels : UnorderedMap.
Proof. by refine {| items _ _ _ _ m := map_to_list m |}. Defined.

Definition sample_environment : Environment :=
  mkEnvironment (fun n => if decide (n = wide "MicrosoftInstrumentationEngine_LogLevel") then Some (wide "Errors")
                          else if decide (n = wide "MicrosoftInstrumentationEngine_FileLogPath") then Some (wide "log.txt") else None)
    None None None None (fun p => ([], [], p, [])) (fun _ _ p _ => p) (fun _ => None) (fun _ => true) (wide "7") (fun _ => []) id.

Lemma sample_environment_fits : EnvironmentFits sample_environment.
Proof. split; [done|]. intros n v. cbn. repeat case_decide; intros [= <-]; vm_compute; lia. Qed.

Definition sample_calls : list LogCall := [C_Initialize; C_UpdateFlags 5 LoggingFlags_Trace; C_SetLoggingHost (Some 9)].
Definition sample_log : CLogging := log_calls sample_environment sample_calls new_logging.
Definition sample_method : MethodLog := mkMethodLog (wide "5") LoggingFlags_Trace false.

Lemma method_flags_refine_witness :
  represents (method_state sample_log) (given sample_environment sample_calls new_logging ∅).
Proof. exact (method_flags_refine sample_environment sample_calls sample_environment_fits). Defined.

(** What is written at a level that the engine logs, or an instrumentation method. *)
Definition engine_output (level : Z) (text : wstr) : list Output :=
  if has_flag (engine_levels sample_environment sample_log) level then deliveries sample_environment sample_log level text else [].
Definition method_output (im : MethodLog) (level : Z) (text : wstr) : list Output :=
  if has_flag (im_flags im) level then deliveries sample_environment sample_log level text else [].

Lemma Log_reaches_witness :
  engine_output LoggingFlags_Errors (wide "lost it") =
    [ToEventLog (wide "lost it"); ToFile (wide "log.txt") 1 (wide "lost it"); ToHost 9 1 (wide "lost it"); ToHost 9 1 wide_newline] /\
  Log LoggingFlags_Errors (wide "lost %s") [wide "it"] sample_log = (Ok tt, write (engine_output LoggingFlags_Errors (wide "lost it")) sample_log).
Proof.
  split; [by vm_compute|].
  apply (Log_reaches sample_environment sample_calls LoggingFlags_Errors (wide "lost %s") [wide "it"] (wide "lost it") sample_environment_fits);
    [by vm_compute|by left|by vm_compute|intros _; apply (bool_decide_unpack _); by vm_compute].
Defined.


(** ** What goes wrong *)

(** The log file takes the text for a format: the percent sign that was escaped on the way
    is read as a conversion without an argument. *)
Lemma percent_in_file_undefined :
  (LogMessageInternal sample_method (wide "100%") LoggingFlags_Trace sample_log).1 = Undef UninitRead.
Proof. by vm_compute. Qed.

(** Without the prefix the message itself is the format. *)
Lemma percent_without_prefix_undefined :
  (LogMessageInternal (mkMethodLog (wide "5") LoggingFlags_Errors true) (wide "100%") LoggingFlags_Errors sample_log).1 = Undef UninitRead.
Proof. by vm_compute. Qed.

(** Without the prefix a message of an instrumentation method is dropped when the engine
    does not log its level, although the method registered for it. *)
Lemma without_prefix_dropped :
  LogMessageInternal (mkMethodLog (wide "5") LoggingFlags_Trace true) (wide "half") LoggingFlags_Trace sample_log = (Ok tt, sample_log).
Proof. by vm_compute. Qed.

(** A first event source that cannot be made leaves a log without any sink but the debug
    port, and [CLogging] refuses every call. *)
Lemma event_source_failure_disables_log :
  let env := mkEnvironment (GetEnvironmentVariable sample_environment) (Some 5) None None None (wsplitpath sample_environment)
    (wmakepath sample_environment) (FileAttributes sample_environment) (wfsopen sample_environment) [] (StringFromGUID2 sample_environment) id in
  let s := (Initialize env new_logging).2 in
  (Initialize env new_logging).1 = Err (HRESULT_FROM_WIN32 5) /\ (SetLoggingFlags env LoggingFlags_All s).1 = Err E_UNEXPECTED.
Proof. by split; vm_compute. Qed.
