(* ===== verification/Proxy.v ===== *)
(** The profiler proxy: the versions of the engine
    ([InstrumentationEngine.ProfilerProxy.Lib/InstrumentationEngineVersion.cpp]) and the
    choice and loading of one of them ([InstrumentationEngine.ProfilerProxy/dllmain.cpp],
    [Common.Headers/StringUtils.h]).  A wide string is the list of its code units. *)
From S2P Require Import Prelude.

(** [std::wstring::compare] *)
Fixpoint compare (s t : wstr) : comparison :=
  match s, t with
  | [], [] => Eq
  | [], _ :: _ => Lt
  | _ :: _, [] => Gt
  | a :: s', b :: t' => match Z.compare a b with Eq => compare s' t' | c => c end
  end.

(** ** [InstrumentationEngineVersion] *)

Record InstrumentationEngineVersion := mkVersion {
  m_versionStr : wstr;
  m_semanticVersionStr : wstr;
  m_isPreview : bool;
  m_isDebug : bool
}.

(** The pieces of [versionRegex]: literals, [\d+] and what is left.  [\d] is taken as the
    ASCII digits, which is what it means in the C locale. *)
Definition is_digit (c : Z) : bool := (48 <=? c) && (c <=? 57).

Fixpoint strip (pre s : wstr) : option wstr :=
  match pre, s with
  | [], _ => Some s
  | a :: pre', b :: s' => if a =? b then strip pre' s' else None
  | _ :: _, [] => None
  end.

Fixpoint span_digits (s : wstr) : wstr * wstr :=
  match s with
  | c :: s' => if is_digit c then let '(d, r) := span_digits s' in (c :: d, r) else ([], s)
  | [] => ([], [])
  end.

Definition digits (s : wstr) : option (wstr * wstr) :=
  match span_digits s with ([], _) => None | (d, r) => Some (d, r) end.

(** [(1\.\d+\.\d+)] *)
Definition match_semantic (s : wstr) : option (wstr * wstr) :=
  s ← strip (wide "1.") s;
  '(minor, s) ← digits s;
  s ← strip (wide ".") s;
  '(patch, s) ← digits s;
  Some (wide "1." ++ minor ++ wide "." ++ patch, s).

(** [(-build\d+)?] *)
Definition match_preview (s : wstr) : bool * wstr :=
  match strip (wide "-build") s ≫= digits with Some (_, s) => (true, s) | None => (false, s) end.

(** [(_Debug)?] *)
Definition match_debug (s : wstr) : bool * wstr :=
  match strip (wide "_Debug") s with Some s => (true, s) | None => (false, s) end.

(** [InstrumentationEngineVersion::Create] *)
Definition Create (versionStr : wstr) : outcome InstrumentationEngineVersion :=
  match match_semantic versionStr with
  | Some (sem, s) =>
      let '(preview, s) := match_preview s in
      let '(debug, s) := match_debug s in
      match s with
      | [] => Ok (mkVersion versionStr sem preview debug)
      | _ => Err E_INVALIDARG
      end
  | None => Err E_INVALIDARG
  end.

(** [InstrumentationEngineVersion::Compare] *)
Definition Compare (left right : InstrumentationEngineVersion) : comparison :=
  match compare (m_semanticVersionStr left) (m_semanticVersionStr right) with
  | Eq =>
      if Bool.eqb (m_isPreview left) (m_isPreview right)
      then compare (m_versionStr left) (m_versionStr right)
      else compare (m_versionStr right) (m_versionStr left)
  | _ => compare (m_versionStr left) (m_versionStr right)
  end.

(** ** The search for the latest version *)

Definition FILE_ATTRIBUTE_DIRECTORY : Z := 0x10.
Definition ERROR_FILE_NOT_FOUND : Z := 2.
Definition ERROR_NO_MORE_FILES : Z := 18.
Definition MAX_PATH : Z := 260.
Definition MAX_STRING_LEN : Z := 10000.

Definition WStringLen (s : wstr) : Z := Z.min (Z.of_nat (length s)) MAX_STRING_LEN.

(** What the proxy asks of Windows: the value of an environment variable, what
    [GetEnvironmentVariable] returns and writes into a buffer of the given size (cells that it
    does not write are [None]), [PathAppend], the attributes of a file, the entries that
    [FindFirstFile] and [FindNextFile] give for a pattern with the last error, and
    [LoadLibrary]. *)
Record Windows := mkWindows {
  GetEnvironmentVariable : wstr -> Z -> Z * list (option Z);
  PathAppend : wstr -> wstr -> option wstr;
  GetFileAttributes : wstr -> option Z;
  FindFiles : wstr -> outcome (list (Z * wstr)) * Z;
  LoadLibrary : wstr -> option Z
}.

Section Proxy.

Context (os : Windows).

(** [StringUtils::SafePathAppend] *)
Definition SafePathAppend (path more : wstr) (cBounds : Z) : outcome wstr :=
  if cBounds <? WStringLen path + WStringLen more + 2 then Err E_BOUNDS
  else match PathAppend os path more with Some p => Ok p | None => Err E_FAIL end.

Definition profilerRelativeFileName : wstr := wide "Instrumentation64\MicrosoftInstrumentationEngine_x64.dll".
Definition instrumentationEngineFolder : wstr := wide "Microsoft CLR Instrumentation Engine".
Definition useDebugVar : wstr := wide "InstrumentationEngineProxy_UseDebug".
Definition usePreviewVar : wstr := wide "InstrumentationEngineProxy_UsePreview".
Definition useSpecificVersionVar : wstr := wide "InstrumentationEngineProxy_UseSpecificVersion".

(** [HasProfilerDll] *)
Definition HasProfilerDll (profilerPath versionFolder : wstr) : outcome bool :=
  p <~ SafePathAppend profilerPath versionFolder MAX_PATH ;;
  p <~ SafePathAppend p profilerRelativeFileName MAX_PATH ;;
  Ok (match GetFileAttributes os p with
      | Some attr => Z.land attr FILE_ATTRIBUTE_DIRECTORY =? 0
      | None => false
      end).

(** The string in a buffer, up to its null character. *)
Fixpoint read_wstr (buffer : list (option Z)) : outcome wstr :=
  match buffer with
  | [] => Undef OutOfBoundsRead
  | None :: _ => Undef UninitRead
  | Some c :: buffer => if c =? 0 then Ok [] else s <~ read_wstr buffer ;; Ok (c :: s)
  end.

(** A buffer of zeros into which the cells [ws] are written. *)
Definition zeroed (size : nat) (ws : list (option Z)) : list (option Z) :=
  map (fun c => match c with Some x => Some x | None => Some 0 end) ws ++ replicate (size - length ws) (Some 0).

(** The tests [GetEnvironmentVariable(var, wszBuffer, 2) > 0 && wcscmp(wszBuffer, "1") == 0] *)
Definition env_flag (var : wstr) : outcome bool :=
  let '(n, ws) := GetEnvironmentVariable os var 2 in
  if 0 <? n then s <~ read_wstr (zeroed 2 ws) ;; Ok (bool_decide (s = wide "1")) else Ok false.

(** One round of the loop of [GetLatestVersionFolder]. *)
Definition consider (useDebug usePreview : bool) (profilerPath : wstr)
    (pLatest : option InstrumentationEngineVersion) (file : Z * wstr) : option InstrumentationEngineVersion :=
  if Z.land (fst file) FILE_ATTRIBUTE_DIRECTORY =? 0 then pLatest
  else match Create (snd file) with
  | Ok v =>
      if negb (Bool.eqb (m_isDebug v) useDebug) || (negb usePreview && m_isPreview v) then pLatest
      else match HasProfilerDll profilerPath (m_versionStr v) with
      | Ok true =>
          match pLatest with
          | None => Some v
          | Some latest => match Compare latest v with Lt => Some v | _ => Some latest end
          end
      | _ => pLatest
      end
  | _ => pLatest
  end.

(** [GetLatestVersionFolder] *)
Definition GetLatestVersionFolder (profilerPath : wstr) : outcome wstr :=
  useDebug <~ env_flag useDebugVar ;;
  usePreview <~ env_flag usePreviewVar ;;
  let '(files, dError) := FindFiles os (profilerPath ++ wide "\*") in
  match files with
  | Ok files =>
      match fold_left (consider useDebug usePreview profilerPath) files None with
      | None => Err E_UNEXPECTED
      | Some v =>
          if (0 <? dError) && negb (dError =? ERROR_NO_MORE_FILES) then Err (HRESULT_FROM_WIN32 dError)
          else Ok (m_versionStr v)
      end
  | _ => Err (HRESULT_FROM_WIN32 dError)
  end.

(** [LoadProfiler] of the 64-bit proxy: the handle of the library.  [wszProfilerPath] is
    zeroed, [wszSpecificVersion] is not. *)
Definition LoadProfiler : outcome Z :=
  let '(n, ws) := GetEnvironmentVariable os (wide "ProgramFiles") MAX_PATH in
  if n =? 0 then Err E_UNEXPECTED
  else
    path <~ read_wstr (zeroed (Z.to_nat MAX_PATH) ws) ;;
    path <~ SafePathAppend path instrumentationEngineFolder MAX_PATH ;;
    let '(n, ws) := GetEnvironmentVariable os useSpecificVersionVar 1 in
    versionFolder <~
      (if 0 <? n then
         specific <~ read_wstr (ws ++ replicate (Z.to_nat MAX_PATH - length ws) None) ;;
         match HasProfilerDll path specific with
         | Ok true => Ok specific
         | Undef u => Undef u
         | _ => Err (HRESULT_FROM_WIN32 ERROR_FILE_NOT_FOUND)
         end
       else GetLatestVersionFolder path) ;;
    path <~ SafePathAppend path versionFolder MAX_PATH ;;
    path <~ SafePathAppend path profilerRelativeFileName MAX_PATH ;;
    match LoadLibrary os path with Some h => Ok h | None => Err E_FAIL end.

End Proxy.

(** The entry points: the state is [g_hProfiler].  [getClassObject h] is the function that
    [GetProcAddress] finds in the library [h], as the object it leaves at [ppObj];
    [canUnloadNow h] is the one that it finds, as the code it returns. *)
Section Entry.

Context (os : Windows) (getClassObject : Z -> option (option Z)) (canUnloadNow : Z -> option HRESULT).

(** [DllGetClassObject], with a place [ppObj] for the object or without one: failures of
    [LoadProfiler] and of the library are logged, and the code is [S_OK]; the result is what
    is left at [ppObj]. *)
Definition DllGetClassObject (ppObj : bool) : M (option Z) (option Z) := fun g_hProfiler =>
  if negb ppObj then (Err E_POINTER, g_hProfiler)
  else match (match g_hProfiler with Some h => Ok h | None => LoadProfiler os end) with
  | Ok h => (Ok (mjoin (getClassObject h)), Some h)
  | Err _ => (Ok None, None)
  | Undef u => (Undef u, g_hProfiler)
  | NoFuel => (NoFuel, g_hProfiler)
  end.

(** [DllCanUnloadNow]: the library is forgotten when it may be unloaded. *)
Definition DllCanUnloadNow : M (option Z) HRESULT := fun g_hProfiler =>
  match g_hProfiler with
  | None => (Ok S_OK, None)
  | Some h =>
      match canUnloadNow h with
      | Some S_OK => (Ok S_OK, None)
      | Some hr => (Ok hr, Some h)
      | None => (Ok S_OK, Some h)
      end
  end.

End Entry.

(** ** The grammar of versions *)

Definition digit_string (d : wstr) : Prop := d <> [] /\ Forall (fun c => is_digit c = true) d.

Definition semantic (minor patch : wstr) : wstr := wide "1." ++ minor ++ wide "." ++ patch.

(** Whether there is a preview tag. *)
Definition tagged (build : option wstr) : bool := match build with Some _ => true | None => false end.

Definition suffix (build : option wstr) (debug : bool) : wstr :=
  match build with Some n => wide "-build" ++ n | None => [] end ++ (if debug then wide "_Debug" else []).

Lemma strip_Some pre s r : strip pre s = Some r <-> s = pre ++ r.
Proof.
  revert s. induction pre as [|a pre IH]; intros [|b s]; cbn; try (split; congruence).
  destruct (Z.eqb_spec a b) as [->|Hne]; [|split; congruence]. rewrite IH. split; congruence.
Qed.

(** The string does not begin with a digit. *)
Definition no_digit (s : wstr) : Prop := forall c, head s = Some c -> is_digit c = false.

Lemma span_digits_spec s d r :
  span_digits s = (d, r) <-> s = d ++ r /\ Forall (fun c => is_digit c = true) d /\ no_digit r.
Proof.
  revert d r. induction s as [|c s IH]; intros d r; cbn.
  - split; [intros [= <- <-]; by split_and!|]. intros (E & _). by destruct d, r.
  - destruct (is_digit c) eqn:Hc.
    + destruct (span_digits s) as [d' r'] eqn:E. destruct (IH d' r') as [[-> [Hd Hr]] _]; [done|]. split.
      * intros [= <- <-]. split_and!; [done|by constructor|done].
      * intros (Es & Hd2 & Hr2). destruct d as [|x d]; cbn in Es.
        { destruct r as [|y r]; [done|]. injection Es as <- _. by rewrite (Hr2 c eq_refl) in Hc. }
        injection Es as <- Es. apply Forall_cons in Hd2 as [_ Hd2].
        assert ((d', r') = (d, r)) as [= -> ->]; [apply IH; by split_and!|done].
    + split.
      * intros [= <- <-]. split_and!; [done|done|]. by intros x [= <-].
      * intros (Es & Hd & _). destruct d as [|x d]; [cbn in Es; by subst|]. injection Es as <- _. inversion Hd. congruence.
Qed.

Lemma digits_Some s d r : digits s = Some (d, r) <-> s = d ++ r /\ digit_string d /\ no_digit r.
Proof.
  unfold digits, digit_string. destruct (span_digits s) as [d' r'] eqn:E. pose proof (span_digits_spec s d' r') as [[Es [Hd Hr]] _]; [done|].
  split.
  - destruct d'; [done|]. intros [= <- <-]. by split_and!.
  - intros (Es' & [Hne Hd'] & Hr'). assert (span_digits s = (d, r)) as E' by (apply span_digits_spec; by split_and!).
    rewrite E in E'. injection E' as -> ->. by destruct d.
Qed.

Lemma no_digit_app c s : is_digit c = false -> no_digit (c :: s).
Proof. by intros Hc x [= <-]. Qed.

Lemma match_semantic_Some s sem r :
  match_semantic s = Some (sem, r) <-> exists minor patch, digit_string minor /\ digit_string patch /\
    sem = semantic minor patch /\ s = sem ++ r /\ no_digit r.
Proof.
  unfold match_semantic. split.
  - destruct (strip (wide "1.") s) as [s1|] eqn:E1; [|done]. apply strip_Some in E1 as ->. cbn [mbind option_bind].
    destruct (digits s1) as [[minor s2]|] eqn:E2; [|done]. apply digits_Some in E2 as (-> & Hmi & _). cbn [mbind option_bind].
    destruct (strip (wide ".") s2) as [s3|] eqn:E3; [|done]. apply strip_Some in E3 as ->. cbn [mbind option_bind].
    destruct (digits s3) as [[patch s4]|] eqn:E4; [|done]. apply digits_Some in E4 as (-> & Hpa & Hr). cbn [mbind option_bind].
    intros E. assert (sem = semantic minor patch) as -> by (unfold semantic; congruence). assert (r = s4) as -> by congruence.
    exists minor, patch. split_and!; [done..| |done]. unfold semantic. by rewrite <- !app_assoc.
  - intros (minor & patch & Hmi & Hpa & -> & -> & Hr). unfold semantic. rewrite <- !app_assoc.
    rewrite (proj2 (strip_Some _ _ _) eq_refl). cbn [mbind option_bind].
    rewrite (proj2 (digits_Some _ minor (wide "." ++ patch ++ r))); [|split_and!; [done|done|by intros x [= <-]]]. cbn [mbind option_bind].
    rewrite (proj2 (strip_Some (wide ".") _ (patch ++ r)) eq_refl). cbn [mbind option_bind].
    by rewrite (proj2 (digits_Some _ patch r)).
Qed.

Lemma suffix_no_digit build debug : no_digit (suffix build debug).
Proof. destruct build, debug; by intros x [= <-]. Qed.

(** Reading the two tags. *)
Lemma match_tags s preview r1 debug r :
  match_preview s = (preview, r1) -> match_debug r1 = (debug, r) ->
  r = [] <-> r = [] /\ exists build, (forall n, build = Some n -> digit_string n) /\ preview = tagged build /\ s = suffix build debug.
Proof.
  unfold match_preview, match_debug. intros Hp Hd. split; [|by intros [? _]]. intros ->. split; [done|].
  assert (r1 = if debug then wide "_Debug" else []) as Er.
  { destruct (strip (wide "_Debug") r1) as [r'|] eqn:E; injection Hd as <- ->; [|done].
    apply strip_Some in E. by rewrite app_nil_r in E. }
  destruct (strip (wide "-build") s) as [s1|] eqn:E1; cbn in Hp.
  - apply strip_Some in E1. destruct (digits s1) as [[n s2]|] eqn:E2; injection Hp as <- <-.
    + apply digits_Some in E2 as (-> & Hn & _). exists (Some n). split; [by intros ? [= <-]|]. split; [done|].
      rewrite E1, Er. unfold suffix. by rewrite app_assoc.
    + exists None. split; [done|]. split; [done|]. subst. done.
  - injection Hp as <- <-. exists None. by subst.
Qed.

(** [Create] accepts exactly the versions, and reads off their parts. *)
Lemma Create_Ok s v :
  Create s = Ok v <-> exists minor patch build debug, digit_string minor /\ digit_string patch /\
    (forall n, build = Some n -> digit_string n) /\ s = semantic minor patch ++ suffix build debug /\
    v = mkVersion s (semantic minor patch) (tagged build) debug.
Proof.
  unfold Create. split.
  - destruct (match_semantic s) as [[sem s1]|] eqn:E; [|done]. apply match_semantic_Some in E as (minor & patch & Hmi & Hpa & -> & -> & _).
    destruct (match_preview s1) as [preview s2] eqn:Ep, (match_debug s2) as [debug s3] eqn:Ed.
    destruct s3; [|done]. intros [= <-]. destruct (proj1 (match_tags _ _ _ _ _ Ep Ed) eq_refl) as (_ & build & Hb & -> & ->).
    by exists minor, patch, build, debug.
  - intros (minor & patch & build & debug & Hmi & Hpa & Hb & -> & ->).
    rewrite (proj2 (match_semantic_Some _ (semantic minor patch) (suffix build debug)));
      [|exists minor, patch; split_and!; try done; apply suffix_no_digit].
    assert (match_preview (suffix build debug) = (tagged build, if debug then wide "_Debug" else [])) as ->.
    { unfold match_preview, suffix. destruct build as [n|].
      - rewrite <- app_assoc, (proj2 (strip_Some _ _ _) eq_refl). cbn [mbind option_bind].
        rewrite (proj2 (digits_Some _ n (if debug then wide "_Debug" else []))); [done|].
        split_and!; [done|by apply Hb|]. destruct debug; by intros x [= <-].
      - by destruct debug. }
    by destruct debug.
Qed.

(** ** The order of strings *)

Lemma compare_refl s : compare s s = Eq.
Proof. induction s as [|a s IH]; [done|]. cbn. by rewrite Z.compare_refl. Qed.

Lemma compare_Eq s : forall t, compare s t = Eq -> s = t.
Proof.
  induction s as [|a s IH]; intros [|b t]; try done. cbn. destruct (Z.compare_spec a b); try done. subst.
  intros. f_equal. auto.
Qed.

Lemma compare_antisym s : forall t, compare t s = CompOpp (compare s t).
Proof.
  induction s as [|a s IH]; intros [|b t]; try done. cbn. rewrite Z.compare_antisym.
  destruct (Z.compare a b); cbn; auto.
Qed.

Lemma compare_Lt_trans s : forall t u, compare s t = Lt -> compare t u = Lt -> compare s u = Lt.
Proof.
  induction s as [|a s IH]; intros [|b t] [|c u]; try done. cbn.
  destruct (Z.compare_spec a b), (Z.compare_spec b c); try done; subst; intros H1 H2.
  - rewrite Z.compare_refl. eauto.
  - by rewrite (proj2 (Z.compare_lt_iff _ _)).
  - by rewrite (proj2 (Z.compare_lt_iff _ _)).
  - rewrite (proj2 (Z.compare_lt_iff _ _)); [done|lia].
Qed.

Lemma compare_app p : forall s t, compare (p ++ s) (p ++ t) = compare s t.
Proof. induction p as [|a p IH]; intros; [done|]. cbn. by rewrite Z.compare_refl. Qed.

(** Two different strings differ in one position, or one is a proper prefix of the other. *)
Inductive differ (s t : wstr) : Prop :=
  | differ_at : (forall x y, compare (s ++ x) (t ++ y) = compare s t) -> compare s t <> Eq -> differ s t
  | differ_left c t' : t = s ++ c :: t' -> differ s t
  | differ_right c s' : s = t ++ c :: s' -> differ s t.

Lemma differ_cases s : forall t, s <> t -> differ s t.
Proof.
  induction s as [|a s IH]; intros [|b t] Hne; [done|by eapply differ_left|by eapply differ_right|].
  destruct (Z.compare_spec a b) as [->|H|H].
  - destruct (IH t) as [H1 H2|c t' ->|c s' ->]; [congruence| | |].
    + apply differ_at; cbn; rewrite Z.compare_refl; done.
    + by eapply differ_left.
    + by eapply differ_right.
  - apply differ_at; intros; cbn; by rewrite (proj2 (Z.compare_lt_iff _ _)).
  - apply differ_at; intros; cbn; by rewrite (proj2 (Z.compare_gt_iff _ _)).
Qed.

(** ** The order of versions *)

(** A string that begins, if at all, with a character before the digits. *)
Definition low (s : wstr) : Prop := forall c, head s = Some c -> c < 48.

Definition dots (s : list Z) : nat := length (filter (eq 46) s).

Lemma digits_dots d : Forall (fun c => is_digit c = true) d -> dots d = 0%nat.
Proof.
  induction 1 as [|c d Hc _ IH]; [done|]. unfold dots in *. rewrite filter_cons, decide_False; [done|].
  intros <-. done.
Qed.

Lemma dots_app s t : dots (s ++ t) = (dots s + dots t)%nat.
Proof. unfold dots. by rewrite filter_app, length_app. Qed.

Lemma semantic_facts minor patch :
  digit_string minor -> digit_string patch ->
  dots (semantic minor patch) = 2%nat /\ Forall (fun c => c = 46 \/ is_digit c = true) (semantic minor patch).
Proof.
  intros [_ Hmi] [_ Hpa]. unfold semantic. split.
  - by rewrite !dots_app, (digits_dots minor), (digits_dots patch).
  - assert (forall d, Forall (fun c => is_digit c = true) d -> Forall (fun c => c = 46 \/ is_digit c = true) d) as H
      by (intros d Hd; eapply Forall_impl; [exact Hd|]; auto).
    rewrite !Forall_app. split_and!; [|by apply H| |by apply H]; cbn; repeat (apply Forall_cons; split; [cbn; auto|]); by apply Forall_nil.
Qed.

(** What follows in a longer one is a digit. *)
Lemma semantic_prefix minor patch minor' patch' c t :
  digit_string minor -> digit_string patch -> digit_string minor' -> digit_string patch' ->
  semantic minor' patch' = semantic minor patch ++ c :: t -> 48 <= c.
Proof.
  intros H1 H2 H3 H4 E. destruct (semantic_facts _ _ H1 H2) as [D1 _], (semantic_facts _ _ H3 H4) as [D2 F].
  rewrite E in D2, F. rewrite dots_app, D1 in D2. apply Forall_app in F as [_ F]. apply Forall_cons in F as [[->|Hc] _].
  - assert (dots (46 :: t) = S (dots t)) as Hd by done. lia.
  - unfold is_digit in Hc. lia.
Qed.

Lemma low_Lt x c t : low x -> 48 <= c -> compare x (c :: t) = Lt.
Proof. intros Hx Hc. destruct x as [|a x]; [done|]. cbn. specialize (Hx a eq_refl). by rewrite (proj2 (Z.compare_lt_iff _ _)) by lia. Qed.

(** Tags do not matter when the semantic versions differ. *)
Lemma compare_tags mi pa mi' pa' x y x' y' :
  digit_string mi -> digit_string pa -> digit_string mi' -> digit_string pa' ->
  semantic mi pa <> semantic mi' pa' -> low x -> low y -> low x' -> low y' ->
  compare (semantic mi pa ++ x) (semantic mi' pa' ++ y) = compare (semantic mi pa ++ x') (semantic mi' pa' ++ y').
Proof.
  intros H1 H2 H3 H4 Hne Hx Hy Hx' Hy'. destruct (differ_cases _ _ Hne) as [Ha _|c t E|c t E].
  - by rewrite !Ha.
  - pose proof (semantic_prefix _ _ _ _ _ _ H1 H2 H3 H4 E). rewrite E, <- !app_assoc, !compare_app. cbn [app].
    by rewrite !low_Lt.
  - pose proof (semantic_prefix _ _ _ _ _ _ H3 H4 H1 H2 E). rewrite E, <- !app_assoc, !compare_app. cbn [app].
    by rewrite !(compare_antisym _ (c :: _)), !low_Lt.
Qed.

(** The place of a version in the order: [/] stands between the tag of a preview and the digits. *)
Definition rank (v : InstrumentationEngineVersion) : wstr :=
  if m_isPreview v then m_versionStr v else m_semanticVersionStr v ++ [47].

Lemma tag_low build : low (suffix build false).
Proof. destruct build; intros c; [|done]. by intros [= <-]. Qed.

Lemma Compare_rank s s' v v' :
  Create s = Ok v -> Create s' = Ok v' -> m_isDebug v = false -> m_isDebug v' = false ->
  Compare v v' = compare (rank v) (rank v').
Proof.
  intros (mi & pa & b & d & H1 & H2 & Hb & -> & ->)%Create_Ok (mi' & pa' & b' & d' & H3 & H4 & Hb' & -> & ->)%Create_Ok.
  cbn [m_isDebug]. intros -> ->. unfold Compare, rank. cbn [m_isPreview m_versionStr m_semanticVersionStr].
  destruct (decide (semantic mi pa = semantic mi' pa')) as [E|Hne].
  - rewrite E, compare_refl. destruct b as [n|], b' as [n'|]; cbn [tagged Bool.eqb]; by rewrite ?compare_app.
  - assert (forall b, low (if tagged b then suffix b false else [47])) as Hlow.
    { intros k. destruct k; [apply tag_low|]. intros c [= <-]. lia. }
    assert (compare (semantic mi pa) (semantic mi' pa') <> Eq) as Hc by (intros E%compare_Eq; done).
    transitivity (compare (semantic mi pa ++ suffix b false) (semantic mi' pa' ++ suffix b' false)).
    { by destruct (compare (semantic mi pa) (semantic mi' pa')). }
    rewrite (compare_tags _ _ _ _ _ _ (if tagged b then suffix b false else [47])
      (if tagged b' then suffix b' false else [47])) by (done || apply tag_low || apply Hlow).
    by destruct (tagged b), (tagged b').
Qed.

(** Versions of the same rank are the same. *)
Lemma rank_inj s s' v v' :
  Create s = Ok v -> Create s' = Ok v' -> m_isDebug v = false -> m_isDebug v' = false -> rank v = rank v' -> v = v'.
Proof.
  intros Hv Hv' Hd Hd' E. pose proof Hv as Hv1. pose proof Hv' as Hv1'.
  apply Create_Ok in Hv1 as (mi & pa & b & d & H1 & H2 & Hb & -> & ->), Hv1' as (mi' & pa' & b' & d' & H3 & H4 & Hb' & -> & ->).
  cbn in Hd, Hd'. subst d d'.
  assert (semantic mi pa ++ suffix b false = semantic mi' pa' ++ suffix b' false) as Es; [|by rewrite Es, Hv' in Hv; congruence].
  unfold rank in E. cbn [m_isPreview m_versionStr m_semanticVersionStr] in E.
  destruct (decide (semantic mi pa = semantic mi' pa')) as [Em|Hne].
  - destruct b as [n|], b' as [n'|]; cbn [tagged] in E; rewrite ?Em in *; try done; apply app_inv_head in E; discriminate E.
  - exfalso. assert (forall b, low (if tagged b then suffix b false else [47])) as Hlow.
    { intros k. destruct k; [apply tag_low|]. intros c [= <-]. lia. }
    pose proof (compare_tags mi pa mi' pa' _ _ [] [] H1 H2 H3 H4 Hne (Hlow b) (Hlow b') ltac:(done) ltac:(done)) as Hc.
    rewrite !app_nil_r in Hc. destruct (tagged b), (tagged b'); rewrite E, compare_refl in Hc;
      symmetry in Hc; by apply compare_Eq in Hc.
Qed.

(** ** The latest version *)

Section Latest.

Context (os : Windows) (usePreview : bool) (path : wstr).

(** The versions that the search for release builds considers. *)
Definition admissible (files : list (Z * wstr)) (v : InstrumentationEngineVersion) : Prop :=
  exists attr, (attr, m_versionStr v) ∈ files /\ Z.land attr FILE_ATTRIBUTE_DIRECTORY <> 0 /\
    Create (m_versionStr v) = Ok v /\ m_isDebug v = false /\ (usePreview = false -> m_isPreview v = false) /\
    HasProfilerDll os path (m_versionStr v) = Ok true.

(** The one that is at least as late as all others. *)
Definition latest (files : list (Z * wstr)) (v : InstrumentationEngineVersion) : Prop :=
  admissible files v /\ forall v', admissible files v' -> v' = v \/ Compare v' v = Lt.

Lemma admissible_snoc files f v :
  admissible (files ++ [f]) v <-> admissible files v \/ admissible [f] v.
Proof using Type.
  unfold admissible. split.
  - intros (a & [H|H]%elem_of_app & R); [left|right]; by exists a.
  - intros [(a & H & R)|(a & H & R)]; exists a; (split; [apply elem_of_app; auto|done]).
Qed.

Lemma Create_versionStr s v : Create s = Ok v -> m_versionStr v = s.
Proof using Type. by intros (mi & pa & b & d & _ & _ & _ & _ & ->)%Create_Ok. Qed.

Lemma consider_admissible acc f v :
  admissible [f] v -> consider os false usePreview path acc f =
    match acc with None => Some v | Some l => match Compare l v with Lt => Some v | _ => Some l end end.
Proof using Type.
  intros (attr & Hf & Hdir & Hc & Hd & Hp & Hh). apply list_elem_of_singleton in Hf. subst f. unfold consider. cbn [fst snd].
  rewrite (proj2 (Z.eqb_neq _ _)) by done. rewrite Hc, Hd, Hh. destruct usePreview; [done|]. by rewrite Hp.
Qed.

Lemma consider_other acc f : (forall v, ~ admissible [f] v) -> consider os false usePreview path acc f = acc.
Proof using Type.
  intros H. unfold consider. destruct f as [attr name]. cbn [fst snd]. destruct (Z.eqb_spec (Z.land attr FILE_ATTRIBUTE_DIRECTORY) 0); [done|].
  destruct (Create name) as [v| | |] eqn:Hc; try done. pose proof (Create_versionStr _ _ Hc) as <-.
  destruct (m_isDebug v) eqn:Hd; [done|]. cbn [Bool.eqb negb orb].
  destruct (negb usePreview && m_isPreview v) eqn:Hp; [done|].
  destruct (HasProfilerDll os path (m_versionStr v)) as [[]| | |] eqn:Hh; try done.
  exfalso. apply (H v). exists attr. split_and!; try done; [set_solver|]. intros E. rewrite E in Hp. done.
Qed.

Lemma admissible_rank files v : admissible files v -> exists s, Create s = Ok v /\ m_isDebug v = false.
Proof using Type. intros (? & _ & _ & Hc & Hd & _). eauto. Qed.

Lemma Compare_admissible files files' v v' :
  admissible files v -> admissible files' v' -> Compare v v' = compare (rank v) (rank v').
Proof using Type. intros (s & Hc & Hd)%admissible_rank (s' & Hc' & Hd')%admissible_rank. by eapply Compare_rank. Qed.

Lemma admissible_dec f : (exists v, admissible [f] v) \/ (forall v, ~ admissible [f] v).
Proof using Type.
  destruct f as [attr name]. destruct (Create name) as [v| | |] eqn:Hc.
  2-4: right; intros v (? & [= _ E]%list_elem_of_singleton & _ & Hc' & _); rewrite E in Hc'; congruence.
  pose proof (Create_versionStr _ _ Hc) as <-.
  destruct (decide (Z.land attr FILE_ATTRIBUTE_DIRECTORY <> 0 /\ m_isDebug v = false /\ (usePreview = false -> m_isPreview v = false))) as [(H1 & H2 & H3)|Hn].
  - destruct (HasProfilerDll os path (m_versionStr v)) as [[]| | |] eqn:Hh.
    1: left; exists v, attr; split_and!; try done; set_solver.
    all: right; intros v' (? & [= _ E]%list_elem_of_singleton & _ & _ & _ & _ & Hh'); rewrite E in Hh'; congruence.
  - right. intros v' (attr' & [= E1 E]%list_elem_of_singleton & Hd & Hc' & H2 & H3 & _). subst attr'.
    rewrite E in Hc'. assert (v' = v) as -> by congruence. by apply Hn.
Qed.

(** The loop finds it. *)
Lemma search_latest files :
  match fold_left (consider os false usePreview path) files None with
  | None => forall v, ~ admissible files v
  | Some v => latest files v
  end.
Proof using Type.
  induction files as [|f files IH] using rev_ind.
  { cbn. intros v (? & H & _). by apply elem_of_nil in H. }
  rewrite fold_left_app. cbn [fold_left].
  set (acc := fold_left (consider os false usePreview path) files None) in *.
  destruct (admissible_dec f) as [[v Hv]|Hno].
  2: { rewrite consider_other by done. destruct acc as [l|].
       - destruct IH as [H1 H2]. split; [apply admissible_snoc; by left|]. intros v' [Hv'|Hv']%admissible_snoc; [auto|by destruct (Hno v')].
       - intros v' [Hv'|Hv']%admissible_snoc; [by destruct (IH v')|by destruct (Hno v')]. }
  rewrite (consider_admissible acc f v Hv).
  assert (forall v', admissible [f] v' -> v' = v) as Hone.
  { intros v' (? & E1%list_elem_of_singleton & _ & Hc & _). destruct Hv as (? & E2%list_elem_of_singleton & _ & Hc' & _).
    rewrite <- E2 in E1. injection E1 as _ E1. rewrite E1 in Hc. congruence. }
  destruct acc as [l|].
  - destruct IH as [H1 H2]. assert (admissible (files ++ [f]) v) as Hv2 by (apply admissible_snoc; by right).
    assert (admissible (files ++ [f]) l) as Hl2 by (apply admissible_snoc; by left).
    destruct (Compare l v) eqn:Ec.
    + split; [done|]. intros v' [Hv'|Hv']%admissible_snoc; [auto|]. rewrite (Hone v' Hv'). left.
      rewrite (Compare_admissible _ _ _ _ H1 Hv) in Ec. apply compare_Eq in Ec.
      destruct (admissible_rank _ _ H1) as (s & ? & ?), (admissible_rank _ _ Hv) as (s' & ? & ?). symmetry. by eapply rank_inj.
    + split; [done|]. intros v' [Hv'|Hv']%admissible_snoc; [|left; auto]. right.
      destruct (H2 v' Hv') as [->|Hlt]; [done|].
      rewrite (Compare_admissible _ _ _ _ Hv' Hv). rewrite (Compare_admissible _ _ _ _ H1 Hv) in Ec.
      rewrite (Compare_admissible _ _ _ _ Hv' H1) in Hlt. by eapply compare_Lt_trans.
    + split; [done|]. intros v' [Hv'|Hv']%admissible_snoc; [auto|]. rewrite (Hone v' Hv'). right.
      rewrite (Compare_admissible _ _ _ _ Hv H1), compare_antisym, <- (Compare_admissible _ _ _ _ H1 Hv), Ec. done.
  - split; [apply admissible_snoc; by right|]. intros v' [Hv'|Hv']%admissible_snoc; [by destruct (IH v')|left; auto].
Qed.

End Latest.


(** ** A folder of versions *)

(** Windows with the given variables and folders, all of which have the profiler. *)
Definition demo_os (vars : list (wstr * wstr)) (folders : list wstr) : Windows := mkWindows
  (fun var n => match list_find (fun kv => fst kv = var) vars with
     | Some (_, (_, v)) => if Z.of_nat (length v) <? n then (Z.of_nat (length v), map Some v ++ [Some 0])
                           else (Z.of_nat (length v) + 1, [])
     | None => (0, [])
     end)
  (fun p more => Some (p ++ wide "\" ++ more))
  (fun _ => Some 0x20)
  (fun _ => (Ok (map (fun f => (FILE_ATTRIBUTE_DIRECTORY, f)) folders), ERROR_NO_MORE_FILES))
  (fun _ => Some 1).

Definition demo_folders : list wstr :=
  [wide "."; wide "1.0.1-build1"; wide "1.0.0"; wide "1.0.1_Debug"; wide "1.0.1"; wide "2.0.0"; wide "1.0.0-build2"].


(** The versions of two strings, compared. *)
Definition compare_versions (s t : string) : outcome comparison :=
  v <~ Create (wide s) ;; v' <~ Create (wide t) ;; Ok (Compare v v').

(** The chain of the documentation. *)
Example documented_order :
  Forall (fun p => compare_versions p.1 p.2 = Ok Lt)
    [("1.0.0-build1", "1.0.0-build2"); ("1.0.0-build2", "1.0.0"); ("1.0.0", "1.0.1-build1"); ("1.0.1-build1", "1.0.1")]%string.
Proof. repeat constructor. Qed.

(** Numbers are compared as strings. *)
Lemma Compare_not_numeric :
  compare_versions "1.0.10" "1.0.9" = Ok Lt /\ compare_versions "1.0.0-build10" "1.0.0-build9" = Ok Lt.
Proof. by split. Qed.

(** Among debug builds the order is not transitive, and the public release is older than its
    preview, so that what is found depends on the order of the listing. *)
Lemma Compare_debug_cycle :
  compare_versions "1.0.1_Debug" "1.0.1-build1_Debug" = Ok Lt /\
  compare_versions "1.0.1-build1_Debug" "1.0.10_Debug" = Ok Lt /\
  compare_versions "1.0.10_Debug" "1.0.1_Debug" = Ok Lt.
Proof. by split_and!. Qed.

Lemma GetLatestVersionFolder_debug_order :
  let vars := [(useDebugVar, wide "1"); (usePreviewVar, wide "1")] in
  let search folders := GetLatestVersionFolder (demo_os vars (map wide folders)) (wide "C:\CLRIE") in
  search ["1.0.1_Debug"; "1.0.1-build1_Debug"; "1.0.10_Debug"]%string = Ok (wide "1.0.10_Debug") /\
  search ["1.0.1-build1_Debug"; "1.0.10_Debug"; "1.0.1_Debug"]%string = Ok (wide "1.0.1_Debug").
Proof. by split; vm_compute. Qed.

(** ** A specific version

    What Windows documents of [GetEnvironmentVariable] for a buffer of [n] characters: the
    length of the value, when it fits with its null character; else the size that would be
    needed, with nothing said about the buffer; and 0 for a variable that is not set. *)
Class EnvironmentLaws (os : Windows) (env : wstr -> option wstr) : Prop := {
  env_unset var n : env var = None -> GetEnvironmentVariable os var n = (0, []);
  env_fits var n v : env var = Some v -> Z.of_nat (length v) < n ->
    GetEnvironmentVariable os var n = (Z.of_nat (length v), map Some v ++ [Some 0]);
  env_short var n v : env var = Some v -> n <= Z.of_nat (length v) ->
    GetEnvironmentVariable os var n = (Z.of_nat (length v) + 1, [])
}.

(** A specific version can never be loaded.  The buffer for
    [InstrumentationEngineProxy_UseSpecificVersion] is given as one character long: whatever
    version the variable names, its name does not fit, the call reports the size that it
    needs, and [LoadProfiler] goes on with a buffer that was never written. *)
Theorem LoadProfiler_specific_version_undefined os env programFiles path version :
  EnvironmentLaws os env -> env (wide "ProgramFiles") = Some programFiles ->
  0 < Z.of_nat (length programFiles) < MAX_PATH -> Forall (fun c => c <> 0) programFiles ->
  SafePathAppend os programFiles instrumentationEngineFolder MAX_PATH = Ok path ->
  env useSpecificVersionVar = Some version -> version <> [] ->
  LoadProfiler os = Undef UninitRead.
Proof.
  intros Hlaws Hpf Hlen Hnz Hpath Hv Hne. unfold LoadProfiler. rewrite (env_fits _ _ _ Hpf) by lia.
  rewrite (proj2 (Z.eqb_neq _ _)) by lia.
  assert (forall s rest, Forall (fun c => c <> 0) s -> read_wstr (map Some s ++ Some 0 :: rest) = Ok s) as Hread.
  { intros s rest Hs. induction Hs as [|c s Hc _ IH]; [done|]. cbn. rewrite (proj2 (Z.eqb_neq _ _)) by done. by rewrite IH. }
  assert (zeroed (Z.to_nat MAX_PATH) (map Some programFiles ++ [Some 0]) = map Some programFiles ++
    Some 0 :: replicate (Z.to_nat MAX_PATH - length (map Some programFiles ++ [Some 0])) (Some 0)) as ->.
  { unfold zeroed. rewrite map_app, map_map, <- app_assoc. done. }
  rewrite Hread by done. cbn [obind]. rewrite Hpath. cbn [obind].
  rewrite (env_short _ 1 _ Hv) by (destruct version; [done|cbn [length]; lia]).
  rewrite (proj2 (Z.ltb_lt _ _)) by lia. done.
Qed.

Definition demo_env (vars : list (wstr * wstr)) (var : wstr) : option wstr :=
  match list_find (fun kv => fst kv = var) vars with Some (_, (_, v)) => Some v | None => None end.

#[export] Instance demo_env_laws vars folders : EnvironmentLaws (demo_os vars folders) (demo_env vars).
Proof.
  unfold demo_env. split; intros var n; cbn; destruct (list_find _ vars) as [[k [x v']]|]; try done.
  - intros v [= ->] H. by rewrite (proj2 (Z.ltb_lt _ _)).
  - intros v [= ->] H. by rewrite (proj2 (Z.ltb_ge _ _)).
Qed.

Definition specific_vars : list (wstr * wstr) :=
  [(wide "ProgramFiles", wide "C:\Program Files"); (useSpecificVersionVar, wide "1.0.0-build00001_Debug")].

Lemma LoadProfiler_specific_version_undefined_witness :
  LoadProfiler (demo_os specific_vars demo_folders) = Undef UninitRead.
Proof.
  eapply (LoadProfiler_specific_version_undefined _ (demo_env specific_vars) (wide "C:\Program Files") _
    (wide "1.0.0-build00001_Debug")).
  - apply _.
  - vm_compute. reflexivity.
  - vm_compute. split; reflexivity.
  - repeat constructor; discriminate.
  - vm_compute. reflexivity.
  - vm_compute. reflexivity.
  - discriminate.
Defined.

(** ** The entry points *)

(** A request for the class object succeeds whatever happens, and loads the library at most
    once: not again when it is loaded. *)
Lemma DllGetClassObject_S_OK os getClassObject h :
  (forall u, LoadProfiler os <> Undef u) -> LoadProfiler os <> NoFuel ->
  exists obj h', DllGetClassObject os getClassObject true h = (Ok obj, h') /\
    (forall x, h = Some x -> h' = Some x) /\ (h = None -> h' = match LoadProfiler os with Ok x => Some x | _ => None end).
Proof.
  intros Hu Hf. unfold DllGetClassObject. destruct h as [x|].
  - eexists _, _. split; [reflexivity|]. by split.
  - destruct (LoadProfiler os) as [x|hr|u|]; [| |by destruct (Hu u)|done]; eexists _, _; (split; [reflexivity|]); by split.
Qed.
