(* ===== verification/Config.v ===== *)
(** Configuration ([InstrumentationEngine.Lib/ConfigurationLocator.cpp],
    [ConfigurationLoader.cpp], [RawProfilerHookSettingsReader.cpp], [Common.Lib/XmlNode.cpp]):
    where configurations are found, and what is read from one, on 64-bit Windows. *)
From S2P Require Import Prelude Logger.

(** ** XML

    A node of a parsed document: the attributes are those of an element, other nodes have
    none.  White space between elements is not kept by the parser. *)
Inductive Node := mkNode {
  nodeName : wstr;
  nodeValue : option wstr;
  attributes : option (list (wstr * wstr));
  childNodes : list Node
}.

(** [CXmlNode]: a node and the siblings behind it; the null pointer is the empty list. *)
Definition CXmlNode : Type := list Node.

Definition GetChildNode (n : Node) : CXmlNode := childNodes n.

(** [CXmlNode::GetStringValue] *)
Definition GetStringValue (n : Node) : outcome wstr :=
  match nodeValue n with Some v => Ok v | None => Err E_UNEXPECTED end.

(** [CXmlNode::GetAttribute]: the map of the attributes is null for other nodes than
    elements. *)
Definition GetAttribute (n : Node) (name : wstr) : outcome wstr :=
  match attributes n with
  | None => Undef NullDeref
  | Some l => match list_find (fun kv => kv.1 = name) l with Some (_, (_, v)) => Ok v | None => Err E_FAIL end
  end.

(** [_wtoi]: the number, and whether it is out of range. *)
Definition is_space (c : Z) : bool := (c =? 32) || ((9 <=? c) && (c <=? 13)).
Definition is_digit (c : Z) : bool := (48 <=? c) && (c <=? 57).

Fixpoint skip_spaces (s : wstr) : wstr :=
  match s with c :: s' => if is_space c then skip_spaces s' else s | [] => [] end.

Fixpoint read_digits (value : Z) (s : wstr) : Z :=
  match s with c :: s' => if is_digit c then read_digits (value * 10 + (c - 48)) s' else value | [] => value end.

Definition wtoi (s : wstr) : Z * bool :=
  let s := skip_spaces s in
  let v := match s with
           | c :: s' => if c =? 45 then - read_digits 0 s' else if c =? 43 then read_digits 0 s' else read_digits 0 s
           | [] => 0
           end in
  if v <? - 2 ^ 31 then (- 2 ^ 31, true) else if 2 ^ 31 - 1 <? v then (2 ^ 31 - 1, true) else (v, false).

(** ** What is configured *)

(** The members of [CInstrumentationMethod] that a configuration sets *)
Record CInstrumentationMethod := mkInstrumentationMethod {
  m_bstrModuleFolder : wstr;
  m_bstrName : wstr;
  m_bstrDescription : wstr;
  m_bstrModule : wstr;
  m_guidClassId : Z;
  m_dwPriority : Z
}.

(** [CConfigurationSource] *)
Record CConfigurationSource := mkSource { m_bstrPath : wstr; m_settings : list (wstr * wstr) }.

Definition AddSetting (name value : wstr) (c : CConfigurationSource) : CConfigurationSource :=
  mkSource (m_bstrPath c) (m_settings c ++ [(name, value)]).

(** ** What Windows answers

    Failures are [None]; the documents are those that MSXML parses from a file and from a
    string; [HostModuleError] is the error when the module of the engine is not found, and
    [EmptyVariableError] is what [GetLastError] says after an empty variable was read.
    Variables, attributes of files and the splitting of paths are those of [Environment]. *)
Record Host := mkHost {
  IIDFromString : wstr -> option Z;
  CLSIDFromString : wstr -> outcome Z;
  PathFindFileName : wstr -> nat;
  DocumentOfFile : wstr -> option Node;
  DocumentOfString : wstr -> option Node;
  MultiByteToWideChar : list Z -> Z + wstr;
  EnvironmentStrings : list wstr;
  upper : Z -> Z;
  ExpandEnvironmentStrings : wstr -> option wstr;
  wfullpath : wstr -> option wstr;
  HostModuleError : option Z;
  GetModuleFileName : option wstr;
  GetFullPathName : wstr -> wstr;
  FindFiles : wstr -> list (bool * wstr);
  EmptyVariableError : Z
}.

Definition ERROR_ENVVAR_NOT_FOUND : Z := 203.

Section Config.
Context `{UnorderedMap} (env : Environment) (host : Host).

(** ** [CConfigurationLoader]

    The state is the vector of methods that is filled, and [errno] of the thread. *)
Record Loading := mkLoading { methods : list CInstrumentationMethod; errno : Z }.
Notation C := (M Loading).

Record Fields := mkFields { name : wstr; description : wstr; module : wstr; classGuid : wstr; dwPriority : Z }.

Definition no_fields : Fields := mkFields [] [] [] [] (u32 (-1)).

Definition set_errno (v : Z) (s : Loading) : Loading := mkLoading (methods s) v.
Definition push_method (im : CInstrumentationMethod) (s : Loading) : Loading := mkLoading (methods s ++ [im]) (errno s).

(** [(DWORD)_wtoi(...)] with the test of [errno], which is written when the number is out
    of range and nowhere else. *)
Definition read_priority (s : wstr) : C Z :=
  let '(v, overflow) := wtoi s in
  modify (fun st => if overflow : bool then set_errno ERANGE st else st) ;;;
  st <- gets id ;;
  if_false_ret (negb (errno st =? ERANGE)) E_FAIL ;;;
  ret (u32 v).

(** One child of an instrumentation method *)
Definition process_child (f : Fields) (n : Node) : C Fields :=
  let value k := match GetChildNode n with [] => ret f | v :: _ => k v end in
  if bool_decide (nodeName n = wide "Name") then
    value (fun v => s <- lift (GetStringValue v) ;; ret (mkFields s (description f) (module f) (classGuid f) (dwPriority f)))
  else if bool_decide (nodeName n = wide "Description") then
    value (fun v => s <- attempt (lift (GetStringValue v)) ;; ret (mkFields (name f) (default [] s) (module f) (classGuid f) (dwPriority f)))
  else if bool_decide (nodeName n = wide "Module") then
    value (fun v => s <- lift (GetStringValue v) ;; ret (mkFields (name f) (description f) s (classGuid f) (dwPriority f)))
  else if bool_decide (nodeName n = wide "ClassGuid") then
    value (fun v => s <- lift (GetStringValue v) ;; ret (mkFields (name f) (description f) (module f) s (dwPriority f)))
  else if bool_decide (nodeName n = wide "Priority") then
    value (fun v => s <- lift (GetStringValue v) ;; p <- read_priority s ;; ret (mkFields (name f) (description f) (module f) (classGuid f) p))
  else fail E_FAIL.

Fixpoint process_children (f : Fields) (c : CXmlNode) : C Fields :=
  match c with
  | [] => ret f
  | n :: next => f <- process_child f n ;; process_children f next
  end.

Definition is_empty (s : wstr) : bool := (length s =? 0)%nat.

(** [CConfigurationLoaderHelper::ProcessInstrumentationMethodNode] *)
Definition ProcessInstrumentationMethodNode (folder : wstr) (n : Node) : C unit :=
  f <- process_children no_fields (GetChildNode n) ;;
  if_false_ret (negb (is_empty (name f) || is_empty (description f) || is_empty (module f) || is_empty (classGuid f))) E_FAIL ;;;
  guid <- if_null_ret (IIDFromString host (classGuid f)) E_INVALIDARG ;;
  modify (push_method (mkInstrumentationMethod folder (name f) (description f) (module f) guid (dwPriority f))).

Fixpoint load_methods (folder : wstr) (c : CXmlNode) : C unit :=
  match c with
  | [] => ret tt
  | n :: next =>
      if_false_ret (bool_decide (nodeName n = wide "InstrumentationMethod") || bool_decide (nodeName n = wide "InstrumentationMethod64")) E_FAIL ;;;
      ProcessInstrumentationMethodNode folder n ;;;
      load_methods folder next
  end.

(** [CConfigurationLoaderHelper::LoadConfiguration] *)
Definition LoadConfiguration (path : wstr) : C unit :=
  root <- if_null_ret (DocumentOfFile host path) E_FAIL ;;
  if_false_ret (bool_decide (nodeName root = wide "InstrumentationEngineConfiguration")) E_FAIL ;;;
  if_false_ret (length path <? MAX_PATH)%nat E_FAIL ;;;
  load_methods (take (PathFindFileName host path) path) (GetChildNode root).

(** ** The configuration of an attach *)

(** [CProfilerManager::ParseSettingsConfigurationNode]: the first value of a name counts. *)
Fixpoint parse_settings (c : CXmlNode) (settings : gmap wstr wstr) : outcome (gmap wstr wstr) :=
  match c with
  | [] => Ok settings
  | n :: next =>
      if negb (bool_decide (nodeName n = wide "Setting")) then Err E_FAIL else
      settingName <~ GetAttribute n (wide "Name") ;;
      if is_empty settingName then Err E_FAIL else
      settingValue <~ GetAttribute n (wide "Value") ;;
      if is_empty settingValue then Err E_FAIL else
      parse_settings next (match settings !! settingName with None => <[settingName := settingValue]> settings | Some _ => settings end)
  end.

Definition ParseSettingsConfigurationNode (n : Node) (settings : gmap wstr wstr) : outcome (gmap wstr wstr) :=
  parse_settings (GetChildNode n) settings.

(** What the thread does with the configuration: changes of the log, and new sources. *)
Record Attach := mkAttach { log_changes : list LogCall; sources : list CConfigurationSource }.
Notation A := (M Attach).

Definition change_log (c : LogCall) (s : Attach) : Attach := mkAttach (log_changes s ++ [c]) (sources s).
Definition push_source (c : CConfigurationSource) (s : Attach) : Attach := mkAttach (log_changes s) (sources s ++ [c]).

(** The settings of the engine; the results of the log are dropped. *)
Definition apply_setting (kv : wstr * wstr) : A unit :=
  if bool_decide (kv.1 = wide "LogLevel") then modify (change_log (C_SetLoggingFlags (ExtractLoggingFlags kv.2)))
  else if bool_decide (kv.1 = wide "LogFileLevel") then modify (change_log (C_SetLogFileLevel (ExtractLoggingFlags kv.2)))
  else if bool_decide (kv.1 = wide "LogFilePath") then modify (change_log (C_SetLogFilePath kv.2))
  else ret tt.

(** The element [InstrumentationEngine] *)
Definition parse_engine (n : Node) : A unit :=
  match GetChildNode n with
  | s :: _ =>
      if bool_decide (nodeName s = wide "Settings")
      then m <- lift (ParseSettingsConfigurationNode s ∅) ;; for_each apply_setting (items m)
      else ret tt
  | [] => ret tt
  end.

(** The children of [AddInstrumentationMethod] *)
Fixpoint parse_method_settings (c : CXmlNode) (pSource : CConfigurationSource) : outcome CConfigurationSource :=
  match c with
  | [] => Ok pSource
  | n :: next =>
      pSource <~ (if bool_decide (nodeName n = wide "Settings")
                  then m <~ ParseSettingsConfigurationNode n ∅ ;; Ok (foldl (fun s kv => AddSetting kv.1 kv.2 s) pSource (items m))
                  else Ok pSource) ;;
      parse_method_settings next pSource
  end.

(** The element [InstrumentationMethods] *)
Definition parse_method (n : Node) : A unit :=
  if bool_decide (nodeName n = wide "AddInstrumentationMethod") then
    configPath <- lift (GetAttribute n (wide "ConfigPath")) ;;
    if_false_ret (negb (is_empty configPath)) E_FAIL ;;;
    pSource <- lift (parse_method_settings (GetChildNode n) (mkSource configPath [])) ;;
    modify (push_source pSource)
  else ret tt.

Definition parse_section (n : Node) : A unit :=
  if bool_decide (nodeName n = wide "InstrumentationEngine") then parse_engine n
  else if bool_decide (nodeName n = wide "InstrumentationMethods") then for_each parse_method (GetChildNode n)
  else ret tt.

(** [CProfilerManager::ParseAttachConfigurationThreadProc] *)
Definition ParseAttachConfiguration (xml : wstr) : A unit :=
  root <- if_null_ret (DocumentOfString host xml) E_FAIL ;;
  if_false_ret (bool_decide (nodeName root = wide "InstrumentationEngineConfiguration")) E_FAIL ;;;
  for_each parse_section (GetChildNode root).

(** [SystemString::Convert] of UTF-8: the text up to the first null character, or the error
    of Windows with an empty result. *)
Fixpoint c_string (bytes : list Z) : list Z :=
  match bytes with [] => [] | b :: bytes => if b =? 0 then [] else b :: c_string bytes end.

Definition Convert (bytes : list Z) : HRESULT * wstr :=
  match MultiByteToWideChar host (c_string bytes) with
  | inr result => (S_OK, result)
  | inl error => (HRESULT_FROM_WIN32 error, [])
  end.

(** ** [CConfigurationLocator] *)

(** [PathUtils::Exists], [GetFileAttributes] *)
Definition FileExists (path : wstr) : bool := match FileAttributes env path with Some _ => true | None => false end.

(** [AddSource]: a path that does not exist is skipped. *)
Definition AddSource (path : wstr) (l : list CConfigurationSource) : list CConfigurationSource :=
  if FileExists path then l ++ [mkSource path []] else l.

(** [AddExpandedPath] *)
Definition AddExpandedPath (path : wstr) (l : list CConfigurationSource) : list CConfigurationSource :=
  match ExpandEnvironmentStrings host path with
  | None => l
  | Some expanded => match wfullpath host expanded with None => l | Some absolute => AddSource absolute l end
  end.

(** The tokens of [wcstok_s] with the delimiter [d]: the pieces that are not empty. *)
Fixpoint tokens (d : Z) (token : wstr) (s : wstr) : list wstr :=
  let emit := if is_empty token then [] else [token] in
  match s with
  | [] => emit
  | c :: s' => if c =? d then emit ++ tokens d [] s' else tokens d (token ++ [c]) s'
  end.

(** [AddExpandedPaths] *)
Definition AddExpandedPaths (paths : wstr) (l : list CConfigurationSource) : list CConfigurationSource :=
  foldl (fun l p => AddExpandedPath p l) l (tokens 59 [] paths).

Definition s_wszConfigurationPathEnvironmentVariablePrefix : wstr := wide "MicrosoftInstrumentationEngine_ConfigPath64_".

(** The string behind the first character [c]. *)
Fixpoint behind (c : Z) (s : wstr) : option wstr :=
  match s with [] => None | x :: s' => if x =? c then Some s' else behind c s' end.

(** One variable of [GetFromEnvironment]; without an equals sign the code adds 1 to the
    null pointer. *)
Definition add_variable (l : outcome (list CConfigurationSource)) (variable : wstr) : outcome (list CConfigurationSource) :=
  l <~ l ;;
  let prefix := s_wszConfigurationPathEnvironmentVariablePrefix in
  if (length prefix <? length variable)%nat && bool_decide (map (upper host) (take (length prefix) variable) = map (upper host) prefix)
  then match behind 61 variable with
       | Some value => Ok (AddExpandedPaths value l)
       | None => Undef OutOfBoundsRead
       end
  else Ok l.

Definition GetFromEnvironment (l : list CConfigurationSource) : outcome (list CConfigurationSource) :=
  foldl add_variable (Ok l) (EnvironmentStrings host).

(** [PathUtils::Combine]; [back] of an empty string is undefined. *)
Definition Combine (p1 p2 : wstr) : outcome wstr :=
  match last p1 with
  | None => Undef OutOfBoundsRead
  | Some c => Ok (p1 ++ (if c =? 92 then [] else [92]) ++ p2)
  end.

(** [PathUtils::GetDirFromPath]: the parts are empty when the directory does not fit. *)
Definition GetDirFromPath (path : wstr) : wstr :=
  let '(drive, dir, _, _) := wsplitpath env path in
  if (length dir <? MAX_DIR + 1)%nat then drive ++ dir else [].

(** [ModuleUtils::GetModuleDirectory] *)
Definition GetModuleDirectory : wstr :=
  match GetModuleFileName host with
  | Some p => GetDirFromPath (GetFullPathName host p)
  | None => []
  end.

(** One round of the search of [GetFromFilesystem]; [file] says whether it is a
    directory. *)
Definition add_file (folder : wstr) (l : outcome (list CConfigurationSource)) (file : bool * wstr) : outcome (list CConfigurationSource) :=
  l <~ l ;;
  if file.1 : bool then Ok l else p <~ Combine folder file.2 ;; Ok (AddSource p l).

Definition GetFromFilesystem (l : list CConfigurationSource) : outcome (list CConfigurationSource) :=
  match HostModuleError host with Some e => Err (HRESULT_FROM_WIN32 e) | None =>
  let folder := GetModuleDirectory in
  if is_empty folder then Err E_FAIL else
  pattern <~ Combine folder (wide "*.config") ;;
  foldl (add_file folder) (Ok l) (FindFiles host pattern)
  end.

(** ** [CRawProfilerHookSettingsReader] *)

(** [GetEnvironmentVariable] into a buffer of 1024 characters: [None] stands for
    [S_FALSE].  A value that does not fit leaves the buffer undefined, and the size that it
    needs is taken for success. *)
Definition GetVariable (name : wstr) : outcome (option wstr) :=
  match GetEnvironmentVariable env name with
  | None => Ok None
  | Some [] =>
      if EmptyVariableError host =? ERROR_ENVVAR_NOT_FOUND then Ok None
      else if FAILED (HRESULT_FROM_WIN32 (EmptyVariableError host)) then Err (HRESULT_FROM_WIN32 (EmptyVariableError host)) else Ok (Some [])
  | Some v => if (length v <? 1024)%nat then Ok (Some v) else Undef UninitRead
  end.

Definition cszRawProfilerHookVariableName : wstr := wide "MicrosoftInstrumentationEngine_RawProfilerHook".
Definition cszRawProfilerHookPathVariableNameNoBitness : wstr := wide "MicrosoftInstrumentationEngine_RawProfilerHookPath".
Definition cszRawProfilerHookPathVariableName : wstr := wide "MicrosoftInstrumentationEngine_RawProfilerHookPath_64".

(** [ReadSettings] with [CLSIDFromString]: [None] stands for [S_FALSE]. *)
Definition ReadSettings : outcome (option (Z * wstr)) :=
  clsid <~ GetVariable cszRawProfilerHookVariableName ;;
  match clsid with
  | None => Ok None
  | Some clsid =>
      if is_empty clsid then Err (HRESULT_FROM_WIN32 ERROR_ENVVAR_NOT_FOUND) else
      guid <~ CLSIDFromString host clsid ;;
      path <~ GetVariable cszRawProfilerHookPathVariableName ;;
      path <~ (match path with None => GetVariable cszRawProfilerHookPathVariableNameNoBitness | _ => Ok path end) ;;
      match path with
      | None => Err (HRESULT_FROM_WIN32 ERROR_ENVVAR_NOT_FOUND)
      | Some path => if is_empty path then Err (HRESULT_FROM_WIN32 ERROR_ENVVAR_NOT_FOUND) else Ok (Some (guid, path))
      end
  end.

End Config.
