(* ===== verification/Startup.v ===== *)
(** Start-up ([ProfilerManager.cpp], [InstrumentationMethod.cpp],
    [InstrumentationEngine.Lib/RawProfilerHookLoader.cpp]): the profiler manager from the
    call of the runtime to the last instrumentation method, with the calls that plug-ins
    make on the way, and the event masks, on 64-bit Windows. *)
From S2P Require Import Prelude Logger Config ModuleInfo.
From S2P Require Proxy.

(** ** Plug-ins

    What an instrumentation method calls while it is initialised: the profiler manager, the
    log, and C functions that leave [errno] behind. *)

(** A raw profiler: the pointers to its interfaces [ICorProfilerCallback1] to [7]. *)
Definition RawProfiler : Type := Z -> option Z.

Inductive PluginCall :=
| P_SetEventMask (dwEventMask : Z)
| P_SetEventMask2 (dwEventMaskLow dwEventMaskHigh : Z)
| P_DisableProfiling
| P_AddRawProfilerHook (pUnkProfilerCallback : option RawProfiler)
| P_RemoveRawProfilerHook
| P_AddInstrumentationMethod (bstrModulePath bstrName bstrDescription bstrModule bstrClassGuid : wstr) (dwPriority : Z)
| P_RemoveInstrumentationMethod (pInstrumentationMethod : option Z)
| P_LogMessage (message : wstr) (logFlag : Z)
| P_ChangeLog (c : LogCall)
| P_SetErrno (errno : Z).

(** An instance: its calls and its answer in [Initialize], and in [InitializeForAttach] if
    it has that interface. *)
Record Plugin := mkPlugin {
  on_Initialize : list PluginCall * HRESULT;
  on_InitializeForAttach : option (list (wstr * wstr) -> list PluginCall * HRESULT)
}.

(** A library: whether the signature is valid, the error of [GetProcAddress] if there is
    one, and what the class factory creates for a class, by the number of instances made
    before. *)
Record Library := mkLibrary {
  VerifyEmbeddedSignature : bool;
  GetProcAddressError : option Z;
  CreateInstance : Z -> Z -> outcome Plugin;
  CreateRawProfiler : Z -> outcome RawProfiler
}.

(** The runtime: the versions of [ICorProfilerInfo] that it has, its type, and its answer to
    a mask, given the masks that it accepted. *)
Record Clr := mkClr {
  HasProfilerInfo : Z -> bool;
  RuntimeType : option Z;
  SetMask : list (Z * option Z) -> Z -> option Z -> HRESULT
}.

Inductive WaitResult := Completed | WaitTimeout | WaitFailed.

(** What the start-up asks of Windows *)
Record Loader := mkLoader {
  CreateThreadOk : bool;
  CoInitializeOk : bool;
  WaitForSingleObject : WaitResult;
  LoadLibrary : wstr -> Z + Library;
  GetModuleHandleEx : wstr -> option Library
}.

(** ** State *)

(** [CProfilerCallbackHolder] *)
Record CProfilerCallbackHolder := mkHolder {
  m_CorProfilerCallback : option Z;
  m_CorProfilerCallback2 : option Z;
  m_CorProfilerCallback3 : option Z;
  m_CorProfilerCallback4 : option Z;
  m_CorProfilerCallback5 : option Z;
  m_CorProfilerCallback6 : option Z;
  m_CorProfilerCallback7 : option Z
}.

(** An entry of [m_instrumentationMethods] with the pointer to its instance *)
Record Added := mkAdded { method : CInstrumentationMethod; instance : Z; dwFlags : Z }.

Record Masks := mkMasks {
  m_dwEventMask : Z;
  m_dwEventMaskHigh : Z;
  m_bIsInInitialize : bool;
  m_bIsInitializingInstrumentationMethod : bool;
  m_dwInstrumentationMethodFlags : Z
}.

(** What happened outside of the engine *)
Inductive Happened :=
| LibraryLoaded (path : wstr)
| LibraryFreed (path : wstr)
| MethodInitialized (instance : Z) (settings : option (list (wstr * wstr)))
| RawInitialized (callback : Z) (wrapped : bool)
| RawInitializedForAttach (callback : Z).

(** The members of [CProfilerManager] in groups: switches; what is known of the runtime, and
    the masks that it accepted; the raw profiler; the instrumentation methods, and how many
    instances were made. *)
Record Switches := mkSwitches { m_bProfilingDisabled : bool; m_bAttach : bool; m_bValidateCodeSignature : bool }.
Record Attached := mkAttached { m_attachedClrVersion : Z; m_runtimeType : Z; m_pRealProfilerInfo : bool; accepted : list (Z * option Z) }.
Record Raw := mkRaw { m_profilerCallbackHolder : option CProfilerCallbackHolder; m_hRawProfilerModule : option wstr }.
Record Methods := mkMethods { m_instrumentationMethodGuids : list Z; m_instrumentationMethods : list Added; instances : Z }.

Record CProfilerManager := mkManager {
  switches : Switches;
  attached : Attached;
  masks : Masks;
  raw : Raw;
  loaded : Methods;
  m_configSources : list CConfigurationSource;
  thread_errno : Z;
  log : CLogging;
  happened : list Happened
}.

Notation P := (M CProfilerManager).

(** Assignments *)
Definition on_switches (f : Switches -> Switches) (s : CProfilerManager) : CProfilerManager :=
  mkManager (f (switches s)) (attached s) (masks s) (raw s) (loaded s) (m_configSources s) (thread_errno s) (log s) (happened s).
Definition on_attached (f : Attached -> Attached) (s : CProfilerManager) : CProfilerManager :=
  mkManager (switches s) (f (attached s)) (masks s) (raw s) (loaded s) (m_configSources s) (thread_errno s) (log s) (happened s).
Definition on_masks (f : Masks -> Masks) (s : CProfilerManager) : CProfilerManager :=
  mkManager (switches s) (attached s) (f (masks s)) (raw s) (loaded s) (m_configSources s) (thread_errno s) (log s) (happened s).
Definition on_raw (f : Raw -> Raw) (s : CProfilerManager) : CProfilerManager :=
  mkManager (switches s) (attached s) (masks s) (f (raw s)) (loaded s) (m_configSources s) (thread_errno s) (log s) (happened s).
Definition on_loaded (f : Methods -> Methods) (s : CProfilerManager) : CProfilerManager :=
  mkManager (switches s) (attached s) (masks s) (raw s) (f (loaded s)) (m_configSources s) (thread_errno s) (log s) (happened s).
Definition on_sources (f : list CConfigurationSource -> list CConfigurationSource) (s : CProfilerManager) : CProfilerManager :=
  mkManager (switches s) (attached s) (masks s) (raw s) (loaded s) (f (m_configSources s)) (thread_errno s) (log s) (happened s).
Definition on_errno_ (f : Z -> Z) (s : CProfilerManager) : CProfilerManager :=
  mkManager (switches s) (attached s) (masks s) (raw s) (loaded s) (m_configSources s) (f (thread_errno s)) (log s) (happened s).
Definition on_log (f : CLogging -> CLogging) (s : CProfilerManager) : CProfilerManager :=
  mkManager (switches s) (attached s) (masks s) (raw s) (loaded s) (m_configSources s) (thread_errno s) (f (log s)) (happened s).
Definition on_happened (f : list Happened -> list Happened) (s : CProfilerManager) : CProfilerManager :=
  mkManager (switches s) (attached s) (masks s) (raw s) (loaded s) (m_configSources s) (thread_errno s) (log s) (f (happened s)).

Definition set_disabled (v : bool) : CProfilerManager -> CProfilerManager := on_switches (fun x => mkSwitches v (m_bAttach x) (m_bValidateCodeSignature x)).
Definition set_attach (v : bool) : CProfilerManager -> CProfilerManager := on_switches (fun x => mkSwitches (m_bProfilingDisabled x) v (m_bValidateCodeSignature x)).
Definition set_version (v : Z) : CProfilerManager -> CProfilerManager := on_attached (fun x => mkAttached v (m_runtimeType x) (m_pRealProfilerInfo x) (accepted x)).
Definition set_type (v : Z) : CProfilerManager -> CProfilerManager := on_attached (fun x => mkAttached (m_attachedClrVersion x) v (m_pRealProfilerInfo x) (accepted x)).
Definition set_info (v : bool) : CProfilerManager -> CProfilerManager := on_attached (fun x => mkAttached (m_attachedClrVersion x) (m_runtimeType x) v (accepted x)).
Definition set_accepted (v : list (Z * option Z)) : CProfilerManager -> CProfilerManager := on_attached (fun x => mkAttached (m_attachedClrVersion x) (m_runtimeType x) (m_pRealProfilerInfo x) v).
Definition set_holder (v : option CProfilerCallbackHolder) : CProfilerManager -> CProfilerManager := on_raw (fun x => mkRaw v (m_hRawProfilerModule x)).
Definition set_raw_module (v : option wstr) : CProfilerManager -> CProfilerManager := on_raw (fun x => mkRaw (m_profilerCallbackHolder x) v).
Definition set_guids (v : list Z) : CProfilerManager -> CProfilerManager := on_loaded (fun x => mkMethods v (m_instrumentationMethods x) (instances x)).
Definition set_methods (v : list Added) : CProfilerManager -> CProfilerManager := on_loaded (fun x => mkMethods (m_instrumentationMethodGuids x) v (instances x)).
Definition set_instances (v : Z) : CProfilerManager -> CProfilerManager := on_loaded (fun x => mkMethods (m_instrumentationMethodGuids x) (m_instrumentationMethods x) v).
Definition happens (h : Happened) : CProfilerManager -> CProfilerManager := on_happened (fun x => x ++ [h]).

(** ** Event masks *)

Definition COR_PRF_MONITOR_IMMUTABLE : Z :=
  foldl Z.lor 0 [0x800; 0x400; 0x4000; 0x8000; 0x80000; 0x100000; 0x400000; 0x200000; 0x800000; 0x2000000; 0x4000000; 0x8000000;
                 0x20000000; 0x40000000; 0x80000000].
Definition COR_PRF_HIGH_MONITOR_IMMUTABLE : Z := 0x8.

(** [GetDefaultEventMask] *)
Definition GetDefaultEventMask : Z := Z.lor (Z.lor (Z.lor (Z.lor 0x10 0x8) 0x4) 0x20) 0x40000.

Definition or_mask (v : Z) (m : Masks) : Masks :=
  mkMasks (Z.lor (m_dwEventMask m) v) (m_dwEventMaskHigh m) (m_bIsInInitialize m) (m_bIsInitializingInstrumentationMethod m) (m_dwInstrumentationMethodFlags m).
Definition or_mask_high (v : Z) (m : Masks) : Masks :=
  mkMasks (m_dwEventMask m) (Z.lor (m_dwEventMaskHigh m) v) (m_bIsInInitialize m) (m_bIsInitializingInstrumentationMethod m) (m_dwInstrumentationMethodFlags m).
Definition SetInitializingInstrumentationMethodFlags (v : Z) (m : Masks) : Masks :=
  mkMasks (m_dwEventMask m) (m_dwEventMaskHigh m) (m_bIsInInitialize m) (m_bIsInitializingInstrumentationMethod m) v.
Definition SetIsInInitialize (v : bool) (m : Masks) : Masks :=
  mkMasks (m_dwEventMask m) (m_dwEventMaskHigh m) v (m_bIsInitializingInstrumentationMethod m) (m_dwInstrumentationMethodFlags m).
Definition SetIsInitializingInstrumentationMethod (v : bool) (m : Masks) : Masks :=
  mkMasks (m_dwEventMask m) (m_dwEventMaskHigh m) (m_bIsInInitialize m) v 0.

(** The holders [CInitializeHolder] and [CInitializeInstrumentationMethodHolder] *)
Definition in_initialize {A} (m : P A) : P A :=
  finally (modify (on_masks (SetIsInInitialize true)) ;;; m) (modify (on_masks (SetIsInInitialize false))).
Definition initializing_method {A} (m : P A) : P A :=
  finally (modify (on_masks (SetIsInitializingInstrumentationMethod true)) ;;; m) (modify (on_masks (SetIsInitializingInstrumentationMethod false))).

(** A call whose [HRESULT] is looked at *)
Definition try {S A} (m : M S A) : M S (HRESULT + A) := fun s =>
  match m s with
  | (Ok a, s') => (Ok (inr a), s')
  | (Err hr, s') => (Ok (inl hr), s')
  | (Undef u, s') => (Undef u, s')
  | (NoFuel, s') => (NoFuel, s')
  end.

(** Code on a part of the state *)
Definition in_log {A} (m : M CLogging A) : P A := fun s => let '(r, l) := m (log s) in (r, on_log (fun _ => l) s).

Section Startup.
Context `{UnorderedMap} (env : Environment) (host : Host) (os : Proxy.Windows) (loader : Loader) (clr : Clr).

Definition CalculateEventMask (dwAdditionalFlags : Z) (s : CProfilerManager) : Z :=
  foldl (fun result im => Z.lor result (dwFlags im)) (Z.lor (m_dwEventMask (masks s)) dwAdditionalFlags) (m_instrumentationMethods (loaded s)).

(** The call of the runtime at the end of [SetEventMask]; without a runtime it is a call on
    the null pointer. *)
Definition give_mask (dwAdditionalFlags : Z) : P unit :=
  s <- gets id ;;
  if m_pRealProfilerInfo (attached s) then
    let low := CalculateEventMask dwAdditionalFlags s in
    let high := if HasProfilerInfo clr 5 then Some (m_dwEventMaskHigh (masks s)) else None in
    let hr := SetMask clr (accepted (attached s)) low high in
    if_fail_ret hr ;;;
    modify (set_accepted (accepted (attached s) ++ [(low, high)]))
  else undefined NullDeref.

(** [CProfilerManager::SetEventMask] *)
Definition SetEventMask (dwEventMask : Z) : P unit :=
  m <- gets masks ;;
  dwAdditionalFlags <-
    (if m_bIsInitializingInstrumentationMethod m then
       modify (on_masks (SetInitializingInstrumentationMethodFlags dwEventMask)) ;;; ret dwEventMask
     else if m_bIsInInitialize m then modify (on_masks (or_mask dwEventMask)) ;;; ret 0
     else if Z.land dwEventMask COR_PRF_MONITOR_IMMUTABLE =? Z.land (m_dwEventMask m) COR_PRF_MONITOR_IMMUTABLE
     then modify (on_masks (or_mask dwEventMask)) ;;; ret 0
     else fail E_FAIL) ;;
  give_mask dwAdditionalFlags.

(** [CProfilerManager::SetEventMask2] *)
Definition SetEventMask2 (dwEventMaskLow dwEventMaskHigh : Z) : P unit :=
  m <- gets masks ;;
  (if m_bIsInInitialize m then modify (on_masks (or_mask_high dwEventMaskHigh))
   else if Z.land dwEventMaskHigh COR_PRF_HIGH_MONITOR_IMMUTABLE =? Z.land (m_dwEventMaskHigh m) COR_PRF_HIGH_MONITOR_IMMUTABLE
   then modify (on_masks (or_mask_high dwEventMaskHigh))
   else fail E_FAIL) ;;;
  SetEventMask dwEventMaskLow.

(** ** The raw profiler *)

(** A member of the holder: the newer interface, or the one that is asked for. *)
Definition older (newer asked : option Z) : option Z := match newer with Some _ => newer | None => asked end.

Definition new_holder (query : RawProfiler) : CProfilerCallbackHolder :=
  let c7 := query 7 in
  let c6 := older c7 (query 6) in
  let c5 := older c6 (query 5) in
  let c4 := older c5 (query 4) in
  let c3 := older c4 (query 3) in
  let c2 := older c3 (query 2) in
  let c1 := older c2 (query 1) in
  mkHolder c1 c2 c3 c4 c5 c6 c7.

(** [GetMemberForInterface], with the version for the interface *)
Definition GetMemberForInterface (version : Z) (h : CProfilerCallbackHolder) : option Z :=
  if version =? 1 then m_CorProfilerCallback h
  else if version =? 2 then m_CorProfilerCallback2 h
  else if version =? 3 then m_CorProfilerCallback3 h
  else if version =? 4 then m_CorProfilerCallback4 h
  else if version =? 5 then m_CorProfilerCallback5 h
  else if version =? 6 then m_CorProfilerCallback6 h
  else if version =? 7 then m_CorProfilerCallback7 h
  else None.

Definition AddRawProfilerHook (pUnkProfilerCallback : option RawProfiler) : P unit :=
  query <- if_null_ret pUnkProfilerCallback E_POINTER ;;
  s <- gets id ;;
  if_false_ret (match m_profilerCallbackHolder (raw s) with None => true | Some _ => false end) E_FAIL ;;;
  if_false_ret (m_bIsInInitialize (masks s)) E_FAIL ;;;
  modify (set_holder (Some (new_holder query))).

Definition RemoveRawProfilerHook : P unit := modify (set_holder None).

(** The interface of the raw profiler, if there is one. *)
Definition raw_callback (version : Z) : P (option Z) :=
  s <- gets id ;; ret (m_profilerCallbackHolder (raw s) ≫= GetMemberForInterface version).

(** An error of [GetLastError] as [HRESULT]: for the error 0 it would be [S_OK] without a
    result. *)
Definition win32_error {A} (e : Z) : P A := if e =? 0 then undefined NullDeref else fail (HRESULT_FROM_WIN32 e).

(** [CRawProfilerHookLoader::LoadRawProfilerHookComponentFrom]; the module that was held
    before is freed. *)
Definition LoadRawProfilerHookComponentFrom (path : wstr) (clsid : Z) : P RawProfiler :=
  lib <- match GetModuleHandleEx loader path with
         | Some lib => ret lib
         | None => match LoadLibrary loader path with inr lib => ret lib | inl e => win32_error e end
         end ;;
  s <- gets id ;;
  match m_hRawProfilerModule (raw s) with Some p => modify (happens (LibraryFreed p)) | None => ret tt end ;;;
  modify (happens (LibraryLoaded path)) ;;;
  modify (set_raw_module (Some path)) ;;;
  match GetProcAddressError lib with Some e => win32_error e | None => lift (CreateRawProfiler lib clsid) end.

Definition ERROR_NOT_FOUND : Z := 1168.
Definition E_NOT_SET : HRESULT := HRESULT_FROM_WIN32 ERROR_NOT_FOUND.

(** [CProfilerManager::SetupRawProfiler] *)
Definition SetupRawProfiler : P unit :=
  settings <- lift (ReadSettings env host) ;;
  match settings with
  | Some (guid, path) =>
      if_false_ret (FileExists env path) E_NOT_SET ;;;
      pRawProfiler <- LoadRawProfilerHookComponentFrom path guid ;;
      AddRawProfilerHook (Some pRawProfiler)
  | None => ret tt
  end.

(** ** Instrumentation methods *)

(** [CInstrumentationMethod::InitializeCore]: the pointer to the instance, and what it
    does. *)
Definition InitializeInstance (im : CInstrumentationMethod) (validateCodeSignature : bool) : P (Z * Plugin) :=
  if_false_ret (negb (is_empty (m_bstrName im) || is_empty (m_bstrDescription im) || is_empty (m_bstrModuleFolder im) || is_empty (m_bstrModule im))) E_INVALIDARG ;;;
  if_false_ret (length (m_bstrModuleFolder im) <? MAX_PATH)%nat E_BOUNDS ;;;
  path <- lift (Proxy.SafePathAppend os (m_bstrModuleFolder im) (m_bstrModule im) Proxy.MAX_PATH) ;;
  lib <- match LoadLibrary loader path with inr lib => ret lib | inl e => win32_error e end ;;
  modify (happens (LibraryLoaded path)) ;;;
  if validateCodeSignature && negb (VerifyEmbeddedSignature lib) then modify (happens (LibraryFreed path)) ;;; fail E_FAIL else
  match GetProcAddressError lib with
  | Some e => modify (happens (LibraryFreed path)) ;;; win32_error e
  | None =>
      s <- gets id ;;
      plugin <- lift (CreateInstance lib (m_guidClassId im) (instances (loaded s))) ;;
      modify (set_instances (instances (loaded s) + 1)) ;;;
      ret (instances (loaded s), plugin)
  end.

(** A plug-in runs: its calls, of which it sees the results, and its answer. *)
Definition run_plugin (perform : PluginCall -> P unit) (script : list PluginCall * HRESULT) : P unit :=
  for_each (fun c => attempt (perform c) ;;; ret tt) script.1 ;;;
  if_fail_ret script.2.

(** [CInstrumentationMethod::Initialize] *)
Definition InitializeMethod (perform : PluginCall -> P unit) (im : CInstrumentationMethod) (validate : bool) : P Z :=
  made <- InitializeInstance im validate ;;
  let '(p, plugin) := made in
  modify (happens (MethodInitialized p None)) ;;;
  run_plugin perform (on_Initialize plugin) ;;;
  ret p.

(** [CInstrumentationMethod::InitializeForAttach] *)
Definition InitializeMethodForAttach (perform : PluginCall -> P unit) (im : CInstrumentationMethod) (settings : list (wstr * wstr)) (validate : bool) : P Z :=
  made <- InitializeInstance im validate ;;
  let '(p, plugin) := made in
  script <- if_null_ret (on_InitializeForAttach plugin) E_FAIL ;;
  modify (happens (MethodInitialized p (Some settings))) ;;;
  run_plugin perform (script settings) ;;;
  ret p.

(** The position in [m_instrumentationMethods] *)
Fixpoint insert_method (a : Added) (l : list Added) : list Added :=
  match l with
  | [] => [a]
  | x :: l' => if m_dwPriority (method a) <? m_dwPriority (method x) then a :: l else x :: insert_method a l'
  end.

Definition on_methods (f : list Added -> list Added) : CProfilerManager -> CProfilerManager := fun s => set_methods (f (m_instrumentationMethods (loaded s))) s.

(** The first entry with the instance, and the others *)
Fixpoint take_method (p : Z) (l : list Added) : option (Added * list Added) :=
  match l with
  | [] => None
  | x :: l => if instance x =? p then Some (x, l) else match take_method p l with Some (a, l) => Some (a, x :: l) | None => None end
  end.

(** [CProfilerManager::RemoveInstrumentationMethod] *)
Definition RemoveInstrumentationMethod (pInstrumentationMethod : option Z) : P unit :=
  p <- if_null_ret pInstrumentationMethod E_FAIL ;;
  s <- gets id ;;
  match take_method p (m_instrumentationMethods (loaded s)) with
  | Some (a, others) =>
      modify (set_methods others) ;;;
      if dwFlags a =? 0 then ret tt else initializing_method (attempt (SetEventMask 0) ;;; ret tt)
  | None => ret tt
  end.

(** What a plug-in asks for; [add] is [CProfilerManager::AddInstrumentationMethod], and [im]
    the logging of the plug-in. *)
Definition perform (add : CInstrumentationMethod -> list (wstr * wstr) -> P Z) (im : MethodLog) (c : PluginCall) : P unit :=
  match c with
  | P_SetEventMask m => SetEventMask m
  | P_SetEventMask2 low high => SetEventMask2 low high
  | P_DisableProfiling => modify (set_disabled true)
  | P_AddRawProfilerHook p => AddRawProfilerHook p
  | P_RemoveRawProfilerHook => RemoveRawProfilerHook
  | P_AddInstrumentationMethod folder name description module classGuid priority =>
      guid <- if_null_ret (IIDFromString host classGuid) E_INVALIDARG ;;
      add (mkInstrumentationMethod folder name description module guid priority) [] ;;;
      ret tt
  | P_RemoveInstrumentationMethod p => RemoveInstrumentationMethod p
  | P_LogMessage message level => in_log (LogMessageInternal im message level)
  | P_ChangeLog c => in_log (log_call env c)
  | P_SetErrno e => modify (on_errno_ (fun _ => e))
  end.

(** [CProfilerManager::AddInstrumentationMethod]; the fuel is the depth of plug-ins that add
    plug-ins. *)
Fixpoint AddInstrumentationMethod (fuel : nat) (im : CInstrumentationMethod) (settings : list (wstr * wstr)) : P Z :=
  match fuel with
  | O => out_of_fuel
  | S fuel =>
      added <- initializing_method (
        imlog <- in_log (add_method_log env (m_guidClassId im)) ;;
        s <- gets switches ;;
        let perform := perform (AddInstrumentationMethod fuel) imlog in
        r <- try (if m_bAttach s then InitializeMethodForAttach perform im settings (m_bValidateCodeSignature s)
                  else InitializeMethod perform im (m_bValidateCodeSignature s)) ;;
        m <- gets masks ;;
        ret (r, m_dwInstrumentationMethodFlags m)) ;;
      match added with
      | (inl hr, _) => fail hr
      | (inr p, flags) => modify (on_methods (insert_method (mkAdded im p flags))) ;;; ret p
      end
  end.

(** [CProfilerManager::IsInstrumentationMethodRegistered] *)
Definition IsInstrumentationMethodRegistered (clsid : Z) : P bool :=
  gets (fun s => bool_decide (clsid ∈ m_instrumentationMethodGuids (loaded s))).

(** [loader.LoadConfiguration]: of a failure the methods that were read are left. *)
Definition load_configuration (path : wstr) : P (list CInstrumentationMethod) := fun s =>
  match LoadConfiguration host path (mkLoading [] (thread_errno s)) with
  | (Undef u, _) => (Undef u, s)
  | (NoFuel, _) => (NoFuel, s)
  | (_, l) => (Ok (methods l), on_errno_ (fun _ => errno l) s)
  end.

(** One method of [LoadInstrumentationMethods] *)
Definition load_method (fuel : nat) (settings : list (wstr * wstr)) (im : CInstrumentationMethod) : P unit :=
  registered <- IsInstrumentationMethodRegistered (m_guidClassId im) ;;
  if registered : bool then ret tt else
  r <- try (AddInstrumentationMethod fuel im settings) ;;
  match r with
  | inr _ => modify (fun s => set_guids (m_instrumentationMethodGuids (loaded s) ++ [m_guidClassId im]) s)
  | inl _ => ret tt
  end.

(** [CProfilerManager::LoadInstrumentationMethods] *)
Definition LoadInstrumentationMethods (fuel : nat) (pConfigurationSource : CConfigurationSource) : P unit :=
  if_false_ret (negb (is_empty (m_bstrPath pConfigurationSource))) E_FAIL ;;;
  l <- load_configuration (m_bstrPath pConfigurationSource) ;;
  for_each (load_method fuel (m_settings pConfigurationSource)) l.

(** ** Threads *)

(** [InvokeThreadRoutine]: a new thread with an [errno] of its own.  The code that the
    routine returns is not looked at.  When the wait ends early the thread goes on; the
    state is the one that it leaves. *)
Definition InvokeThreadRoutine (threadRoutine : P unit) : P unit :=
  if_false_ret (CreateThreadOk loader) CORPROF_E_PROFILER_CANCEL_ACTIVATION ;;;
  modify (on_errno_ (fun _ => 0)) ;;;
  attempt threadRoutine ;;;
  match WaitForSingleObject loader with Completed => ret tt | _ => fail CORPROF_E_PROFILER_CANCEL_ACTIVATION end.

Definition InstrumentationMethodThreadProc (fuel : nat) : P unit :=
  if_false_ret (CoInitializeOk loader) E_FAIL ;;;
  s <- gets id ;;
  for_each (LoadInstrumentationMethods fuel) (m_configSources s).

(** [ParseAttachConfigurationThreadProc]: what was read before a failure is kept. *)
Definition ParseAttachConfigurationThreadProc (xml : wstr) : P unit :=
  if_false_ret (CoInitializeOk loader) E_FAIL ;;;
  s <- gets id ;;
  let '(r, a) := ParseAttachConfiguration host xml (mkAttach [] (m_configSources s)) in
  for_each (fun c => attempt (in_log (log_call env c)) ;;; ret tt) (log_changes a) ;;;
  modify (on_sources (fun _ => sources a)) ;;;
  lift r.

(** [CProfilerManager::SetupProfilingEnvironment] *)
Definition SetupProfilingEnvironment (fuel : nat) (rgConfigPaths : option (list wstr)) : P unit :=
  paths <- if_null_ret rgConfigPaths E_POINTER ;;
  modify (on_sources (fun _ => map (fun p => mkSource p []) paths)) ;;;
  InvokeThreadRoutine (InstrumentationMethodThreadProc fuel).

(** ** [Initialize] *)

Definition ClrVersion_4_5 : Z := 0x0405.
Definition COR_PRF_DESKTOP_CLR : Z := 1.

Definition DetermineClrVersion : P unit :=
  s <- gets id ;;
  if m_pRealProfilerInfo (attached s) then
    modify (set_type (match RuntimeType clr with
                      | Some t => if HasProfilerInfo clr 3 then t else COR_PRF_DESKTOP_CLR
                      | None => COR_PRF_DESKTOP_CLR end)) ;;;
    if HasProfilerInfo clr 4 then modify (set_version ClrVersion_4_5)
    else if HasProfilerInfo clr 3 then modify (set_version ClrVersion_4)
    else if HasProfilerInfo clr 2 then modify (set_version ClrVersion_2)
    else fail CORPROF_E_PROFILER_CANCEL_ACTIVATION
  else fail CORPROF_E_PROFILER_CANCEL_ACTIVATION.

(** [CProfilerManager::InitializeCore] *)
Definition InitializeCore (fuel : nat) (pCorProfilerInfoUnk : bool) : P unit :=
  if_false_ret pCorProfilerInfoUnk E_POINTER ;;;
  if_false_ret (HasProfilerInfo clr 1) E_NOINTERFACE ;;;
  modify (set_info true) ;;;
  DetermineClrVersion ;;;
  m <- gets masks ;;
  SetEventMask (m_dwEventMask m) ;;;
  s <- gets id ;;
  (match m_configSources s with [] => ret tt | _ => InvokeThreadRoutine (InstrumentationMethodThreadProc fuel) end) ;;;
  SetupRawProfiler.

Definition cancel_if_disabled : P unit :=
  s <- gets id ;; if_false_ret (negb (m_bProfilingDisabled (switches s))) CORPROF_E_PROFILER_CANCEL_ACTIVATION.

(** [CProfilerManager::Initialize]; [RawInitialize] is the answer of the raw profiler. *)
Definition Initialize (fuel : nat) (RawInitialize : Z -> HRESULT) (pICorProfilerInfoUnk : bool) : P unit :=
  s <- gets id ;;
  sources <- lift (GetFromEnvironment env host (m_configSources s)) ;;
  modify (on_sources (fun _ => sources)) ;;;
  (match sources with
   | [] => found <- lift (GetFromFilesystem env host []) ;; modify (on_sources (fun _ => found))
   | _ => ret tt
   end) ;;;
  in_initialize (
    InitializeCore fuel pICorProfilerInfoUnk ;;;
    cancel_if_disabled ;;;
    pCallback <- raw_callback 1 ;;
    match pCallback with
    | Some c =>
        s <- gets id ;;
        modify (happens (RawInitialized c (negb (m_attachedClrVersion (attached s) =? ClrVersion_2)))) ;;;
        if FAILED (RawInitialize c) then RemoveRawProfilerHook else ret tt
    | None => ret tt
    end).

(** [CProfilerManager::InitializeForAttach] *)
Definition InitializeForAttach (fuel : nat) (pCorProfilerInfoUnk : bool) (clientData : option (list Z)) : P unit :=
  modify (set_attach true) ;;;
  match clientData with
  | None | Some [] => fail CORPROF_E_PROFILER_CANCEL_ACTIVATION
  | Some data =>
      let '(hr, xml) := Convert host data in
      if_fail_ret hr ;;;
      InvokeThreadRoutine (ParseAttachConfigurationThreadProc xml) ;;;
      in_initialize (
        InitializeCore fuel pCorProfilerInfoUnk ;;;
        cancel_if_disabled ;;;
        pCallback <- raw_callback 3 ;;
        match pCallback with Some c => modify (happens (RawInitializedForAttach c)) | None => ret tt end)
  end.

(** The constructor: the members, and whether signatures are validated *)
Definition new_masks : Masks := mkMasks GetDefaultEventMask 0 false false 0.

Definition new_manager (l : CLogging) : outcome CProfilerManager :=
  v <~ read_variable env (wide "MicrosoftInstrumentationEngine_DisableCodeSignatureValidation") ;;
  Ok (mkManager (mkSwitches false false (negb (bool_decide (v = Some (wide "1"))))) (mkAttached 0 0 false []) new_masks
        (mkRaw None None) (mkMethods [] [] 0) [] 0 l []).

End Startup.
