(* ===== verification/StartupFuel.v ===== *)
(** Fuel: a start-up runs out of it only when plug-ins add plug-ins without end.  All other
    code of the log, of configuration and of the start-up is shown to have no use for it. *)
From S2P Require Import Prelude Logger Config Startup.
From S2P Require Proxy.

(** A computation that never runs out of fuel; the instances follow its structure. *)
Class Fueled {S A : Type} (m : M S A) : Prop := fueled : forall s, (m s).1 <> NoFuel.

Section Fueled.
Context {S : Type}.
#[export] Instance fueled_ret {A} (a : A) : Fueled (@ret S A a). Proof. done. Qed.
#[export] Instance fueled_fail {A} hr : Fueled (@fail S A hr). Proof. done. Qed.
#[export] Instance fueled_undefined {A} u : Fueled (@undefined S A u). Proof. done. Qed.
#[export] Instance fueled_gets {A} (f : S -> A) : Fueled (gets f). Proof. done. Qed.
#[export] Instance fueled_modify (f : S -> S) : Fueled (modify f). Proof. done. Qed.
#[export] Instance fueled_deref {A} (o : option A) : Fueled (@deref S A o). Proof. by destruct o. Qed.
#[export] Instance fueled_bind {A B} (m : M S A) (f : A -> M S B) : Fueled m -> (forall a, Fueled (f a)) -> Fueled (bind m f).
Proof. intros Hm Hf s. specialize (Hm s). unfold bind. destruct (m s) as [[] ?]; cbn in *; try done. apply Hf. Qed.
#[export] Instance fueled_attempt {A} (m : M S A) : Fueled m -> Fueled (attempt m).
Proof. intros Hm s. specialize (Hm s). unfold attempt. by destruct (m s) as [[] ?]. Qed.
#[export] Instance fueled_try {A} (m : M S A) : Fueled m -> Fueled (try m).
Proof. intros Hm s. specialize (Hm s). unfold try. by destruct (m s) as [[] ?]. Qed.
#[export] Instance fueled_finally {A} (m : M S A) c : Fueled m -> Fueled c -> Fueled (finally m c).
Proof. intros Hm Hc s. specialize (Hm s). unfold finally. destruct (m s) as [[] s1]; cbn in *; try done; specialize (Hc s1); by destruct (c s1) as [[] ?]. Qed.
#[export] Instance fueled_if_false_ret b hr : Fueled (@if_false_ret S b hr). Proof. by destruct b. Qed.
#[export] Instance fueled_if_null_ret {A} (o : option A) hr : Fueled (@if_null_ret S A o hr). Proof. by destruct o. Qed.
#[export] Instance fueled_if_fail_ret hr : Fueled (@if_fail_ret S hr). Proof. unfold if_fail_ret. by destruct (FAILED hr). Qed.
Lemma fueled_for_each {A} (f : A -> M S unit) l : (forall x, Fueled (f x)) -> Fueled (for_each f l).
Proof. intros Hf. induction l as [|x l IH]; cbn [for_each]; [apply _|]. by apply fueled_bind. Qed.
(** Only the results that occur count. *)
Lemma fueled_bind_run {A B} (m : M S A) (f : A -> M S B) :
  Fueled m -> (forall a s s', m s = (Ok a, s') -> Fueled (f a)) -> Fueled (bind m f).
Proof.
  intros Hm Hf s. specialize (Hm s). specialize (Hf). unfold bind. destruct (m s) as [[a|hr|u|] s'] eqn:E; cbn in *; try done.
  exact (Hf a s s' E s').
Qed.
Lemma fueled_lift {A} (o : outcome A) : o <> NoFuel -> Fueled (@lift S A o).
Proof. intros Ho s. exact Ho. Qed.
End Fueled.

Lemma obind_fueled {A B} (m : outcome A) (f : A -> outcome B) : m <> NoFuel -> (forall a, f a <> NoFuel) -> obind m f <> NoFuel.
Proof. intros Hm Hf. destruct m; cbn; auto. Qed.

(** ** The log *)

Section Logs.
Context `{UnorderedMap} (env : Environment).

Lemma format_fueled fmt args : format fmt args <> NoFuel.
Proof.
  revert args. enough (forall n fmt args, (length fmt <= n)%nat -> format fmt args <> NoFuel) by eauto.
  induction n as [|n IH]; intros [|c f] args Hl; cbn in Hl; try done; try lia. cbn [format].
  repeat first [done | apply obind_fueled; [|done] | apply IH; cbn in *; lia | case_match]; subst.
Qed.

Lemma log_entry_fueled fmt args : log_entry fmt args <> NoFuel.
Proof. unfold log_entry. apply obind_fueled; [apply format_fueled|done]. Qed.

Lemma read_variable_fueled name : read_variable env name <> NoFuel.
Proof. unfold read_variable. repeat case_match; done. Qed.

Lemma init_once_fueled g st m : Fueled m -> Fueled (init_once g st m).
Proof. intros Hm s. unfold init_once. destruct (g s); [apply fueled_if_fail_ret|]. specialize (Hm s). by destruct (m s) as [[] ?]. Qed.

Lemma recalculate_loop_fueled ks e : (forall k d, Fueled (Reset_sink env k d)) -> Fueled (recalculate_loop env ks e).
Proof.
  intros Hk. revert e. induction ks as [|k ks IH]; intros e; cbn [recalculate_loop]; [apply _|].
  unfold get_service, on_lists, on_service. repeat (apply fueled_bind; [try apply _; try apply Hk|intros ?]); auto.
Qed.

Ltac log_fuel := repeat first
  [ solve [typeclasses eauto] | apply init_once_fueled | apply fueled_for_each; intros ? | apply fueled_bind; [|intros ?] | apply fueled_attempt
  | apply fueled_lift; first [apply log_entry_fueled|apply read_variable_fueled|apply format_fueled] | apply recalculate_loop_fueled; intros ? ? | case_match
  | progress unfold when_init, unless_init_unexpected, get_service, on_service, on_flags, on_sinks, on_lists, on_file_sinks
  | progress unfold Service_Initialize, Service_Shutdown, Service_SetLoggingFlags, Service_SetLoggingHost, Service_SetLogToDebugPort, Service_SetLogFileLevel, Service_SetLogFilePath, Service_UpdateInstrumentationMethodLoggingFlags, Service_Log, Service_AllowLogEntry, Service_InitializeCore
  | progress unfold Logger.Initialize, Shutdown, SetLogToDebugPort, SetLoggingFlags, SetLoggingHost, UpdateInstrumentationMethodLoggingFlags, SetLogFilePath, SetLogFileLevel, Log, VLog, GetLoggingFlags
  | progress unfold RecalculateLoggingFlags, CreateSinks, GetPathAndFlags, Reset_sink, Debug_Reset, Event_Reset, Host_Reset, sink_log, Debug_log, Event_log, WriteLine, Host_log, sink_Shutdown, Event_Shutdown, CloseLogFile, LogMessageInternal, new_method_log, add_method_log].

#[export] Instance log_call_fueled c : Fueled (log_call env c).
Proof. destruct c; cbn [log_call]; log_fuel. Qed.

#[export] Instance LogMessageInternal_fueled im m l : Fueled (LogMessageInternal im m l).
Proof. log_fuel. Qed.

#[export] Instance add_method_log_fueled c : Fueled (add_method_log env c).
Proof. log_fuel. Qed.

End Logs.

#[export] Instance in_log_fueled {A} (m : M CLogging A) : Fueled m -> Fueled (in_log m).
Proof. intros Hm s. unfold in_log. specialize (Hm (log s)). by destruct (m (log s)). Qed.

(** ** Configuration *)

Section Configuration.
Context `{UnorderedMap} (env : Environment) (host : Host).

Lemma GetStringValue_fueled n : GetStringValue n <> NoFuel.
Proof. unfold GetStringValue. by case_match. Qed.

Lemma GetAttribute_fueled n name : GetAttribute n name <> NoFuel.
Proof. unfold GetAttribute. repeat case_match; done. Qed.

#[export] Instance read_priority_fueled s : Fueled (read_priority s).
Proof. unfold read_priority. destruct (wtoi s). apply _. Qed.

Lemma process_child_fueled f n : Fueled (process_child f n).
Proof. unfold process_child. repeat first [solve [typeclasses eauto] | apply fueled_bind; [|intros ?] | apply fueled_attempt | apply fueled_lift, GetStringValue_fueled | case_match]. Qed.

#[export] Instance process_children_fueled c : forall f, Fueled (process_children f c).
Proof. induction c as [|n c IH]; intros f; cbn [process_children]; [apply _|]. apply fueled_bind; [apply process_child_fueled|done]. Qed.

#[export] Instance LoadConfiguration_fueled path : Fueled (LoadConfiguration host path).
Proof.
  unfold LoadConfiguration. repeat (apply fueled_bind; [apply _|intros ?]). generalize (GetChildNode a). intros c.
  induction c as [|n c IH]; cbn [load_methods]; [apply _|]. unfold ProcessInstrumentationMethodNode. apply _.
Qed.

Lemma parse_settings_fueled c m : parse_settings c m <> NoFuel.
Proof.
  revert m. induction c as [|n c IH]; intros m; cbn [parse_settings]; [done|]. case_match; [done|].
  apply obind_fueled; [apply GetAttribute_fueled|intros k]. case_match; [done|].
  apply obind_fueled; [apply GetAttribute_fueled|intros v]. case_match; [done|]. apply IH.
Qed.

Lemma parse_method_settings_fueled c p : parse_method_settings c p <> NoFuel.
Proof.
  revert p. induction c as [|n c IH]; intros p; cbn [parse_method_settings]; [done|]. apply obind_fueled; [|intros q; apply IH].
  case_match; [|done]. apply obind_fueled; [apply parse_settings_fueled|done].
Qed.

#[export] Instance ParseAttachConfiguration_fueled xml : Fueled (ParseAttachConfiguration host xml).
Proof.
  unfold ParseAttachConfiguration. repeat (apply fueled_bind; [apply _|intros ?]). apply fueled_for_each. intros n.
  unfold parse_section, parse_engine, apply_setting, parse_method.
  repeat first [solve [typeclasses eauto] | apply fueled_for_each; intros ? | apply fueled_bind; [|intros ?]
    | apply fueled_lift; first [apply parse_settings_fueled|apply GetAttribute_fueled|apply parse_method_settings_fueled] | case_match].
Qed.

Lemma foldl_fueled {A B} (f : outcome A -> B -> outcome A) l o :
  (forall o x, o <> NoFuel -> f o x <> NoFuel) -> o <> NoFuel -> foldl f o l <> NoFuel.
Proof. intros Hf. revert o. induction l as [|x l IH]; intros o Ho; cbn [foldl]; auto. Qed.

Lemma GetFromEnvironment_fueled l : GetFromEnvironment env host l <> NoFuel.
Proof.
  apply foldl_fueled; [|done]. intros o x Ho. unfold add_variable. apply obind_fueled; [done|]. intros k. repeat case_match; done.
Qed.

Lemma Combine_fueled p q : Combine p q <> NoFuel.
Proof. unfold Combine. by case_match. Qed.

Lemma GetFromFilesystem_fueled l : GetFromFilesystem env host l <> NoFuel.
Proof.
  unfold GetFromFilesystem. case_match; [done|]. case_match; [done|]. apply obind_fueled; [apply Combine_fueled|]. intros p.
  apply foldl_fueled; [|done]. intros o x Ho. unfold add_file. apply obind_fueled; [done|]. intros k. case_match; [done|].
  apply obind_fueled; [apply Combine_fueled|done].
Qed.

Lemma GetVariable_fueled name : GetVariable env host name <> NoFuel.
Proof. unfold GetVariable. repeat case_match; done. Qed.

Lemma ReadSettings_fueled : (forall s, CLSIDFromString host s <> NoFuel) -> ReadSettings env host <> NoFuel.
Proof.
  intros Hc. unfold ReadSettings. apply obind_fueled; [apply GetVariable_fueled|]. intros [clsid|]; [|done]. case_match; [done|].
  apply obind_fueled; [done|]. intros guid. apply obind_fueled; [apply GetVariable_fueled|]. intros path.
  apply obind_fueled; [destruct path; [done|apply GetVariable_fueled]|]. intros [q|]; [|done]. by case_match.
Qed.

End Configuration.

(** ** The start-up *)

Section Startup.
Context `{UnorderedMap} (env : Environment) (host : Host) (os : Proxy.Windows) (loader : Loader) (clr : Clr).

(** What an instance can do when it is initialised *)
Definition plays (plugin : Plugin) (script : list PluginCall * HRESULT) : Prop :=
  script = on_Initialize plugin \/ exists f settings, on_InitializeForAttach plugin = Some f /\ script = f settings.

(** The plug-ins that a plug-in adds have a smaller rank; plug-ins and Windows themselves
    return. *)
Record Nesting (rank : CInstrumentationMethod -> nat) : Prop := {
  nesting_rank : forall im path lib n plugin script folder name description module classGuid priority guid,
    LoadLibrary loader path = inr lib -> CreateInstance lib (m_guidClassId im) n = Ok plugin -> plays plugin script ->
    P_AddInstrumentationMethod folder name description module classGuid priority ∈ script.1 -> IIDFromString host classGuid = Some guid ->
    (rank (mkInstrumentationMethod folder name description module guid priority) < rank im)%nat;
  nesting_instance : forall path lib c n, LoadLibrary loader path = inr lib -> CreateInstance lib c n <> NoFuel;
  nesting_raw : forall path lib c, LoadLibrary loader path = inr lib \/ GetModuleHandleEx loader path = Some lib -> CreateRawProfiler lib c <> NoFuel;
  nesting_clsid : forall s, CLSIDFromString host s <> NoFuel
}.

Ltac fuel := repeat first
  [ solve [typeclasses eauto] | apply fueled_bind; [|intros ?] | apply fueled_attempt | apply fueled_try | apply fueled_finally | case_match ].

#[export] Instance win32_error_fueled {A} e : Fueled (@win32_error A e).
Proof. unfold win32_error. fuel. Qed.

#[export] Instance SetEventMask_fueled v : Fueled (SetEventMask clr v).
Proof. unfold SetEventMask, give_mask. fuel. Qed.

#[export] Instance SetEventMask2_fueled v w : Fueled (SetEventMask2 clr v w).
Proof. unfold SetEventMask2. fuel. Qed.

#[export] Instance AddRawProfilerHook_fueled p : Fueled (AddRawProfilerHook p).
Proof. unfold AddRawProfilerHook. fuel. Qed.

#[export] Instance initializing_method_fueled {A} (m : P A) : Fueled m -> Fueled (initializing_method m).
Proof. intros Hm. unfold initializing_method. fuel. Qed.

#[export] Instance RemoveInstrumentationMethod_fueled p : Fueled (RemoveInstrumentationMethod clr p).
Proof. unfold RemoveInstrumentationMethod. fuel. Qed.

Context (rank : CInstrumentationMethod -> nat) (Hn : Nesting rank).

Lemma win32_error_fails {A} e s (a : A) s' : win32_error e s <> (Ok a, s').
Proof. unfold win32_error. by destruct (e =? 0). Qed.

(** The pointer that is returned belongs to an instance of the class. *)
Lemma InitializeInstance_made im v s p plugin s' :
  InitializeInstance os loader im v s = (Ok (p, plugin), s') ->
  exists path lib n, LoadLibrary loader path = inr lib /\ CreateInstance lib (m_guidClassId im) n = Ok plugin.
Proof.
  unfold InitializeInstance. intros (? & s1 & _ & E)%bind_Ok. apply bind_Ok in E as (? & s2 & _ & E).
  apply bind_Ok in E as (path & s3 & _ & E). apply bind_Ok in E as (lib & s4 & El & E). exists path, lib.
  destruct (LoadLibrary loader path) as [e|l]; [by apply win32_error_fails in El|]. injection El as -> ->.
  apply bind_Ok in E as (? & s5 & _ & E). destruct (v && _).
  { by apply bind_Ok in E as (? & s6 & _ & E). }
  destruct (GetProcAddressError lib) as [e|].
  { apply bind_Ok in E as (? & s6 & _ & E). by apply win32_error_fails in E. }
  apply bind_Ok in E as (st & s6 & _ & E). apply bind_Ok in E as (pl & s7 & Ec & E). apply bind_Ok in E as (? & s8 & _ & E).
  injection E as _ <- _. exists (instances (loaded st)). split; [done|]. by injection Ec.
Qed.

Lemma InitializeInstance_fueled im v : Fueled (InitializeInstance os loader im v).
Proof.
  unfold InitializeInstance. do 2 (apply fueled_bind; [apply _|intros ?]).
  apply fueled_bind; [apply fueled_lift; unfold Proxy.SafePathAppend; repeat case_match; done|intros path].
  apply fueled_bind_run; [case_match; apply _|]. intros lib s s' E.
  assert (LoadLibrary loader path = inr lib) as El.
  { destruct (LoadLibrary loader path) as [e|l]; [by apply win32_error_fails in E|]. by injection E as -> _. }
  apply fueled_bind; [apply _|intros ?]. destruct (v && _); [apply _|]. destruct (GetProcAddressError lib); [apply _|].
  apply fueled_bind; [apply _|intros st]. apply fueled_bind; [apply fueled_lift; by eapply (nesting_instance _ Hn)|apply _].
Qed.

Section Perform.
Context (add : CInstrumentationMethod -> list (wstr * wstr) -> P Z) (im : CInstrumentationMethod).
Hypothesis Hadd : forall im' settings, (rank im' < rank im)%nat -> Fueled (add im' settings).

Lemma run_plugin_fueled path lib n imlog plugin script :
  LoadLibrary loader path = inr lib -> CreateInstance lib (m_guidClassId im) n = Ok plugin -> plays plugin script ->
  Fueled (run_plugin (perform env host clr add imlog) script).
Proof.
  intros El Ec Hp. unfold run_plugin. apply fueled_bind; [|intros ?; apply _].
  assert (forall c, c ∈ script.1 -> Fueled (perform env host clr add imlog c)) as Hc.
  { intros c Hc. destruct c; cbn [perform]; try apply _. apply fueled_bind_run; [apply _|]. intros guid s s' E.
    apply fueled_bind; [|apply _]. apply Hadd. eapply (nesting_rank _ Hn); try done. by destruct (IIDFromString host bstrClassGuid); [injection E as -> _|]. }
  induction script.1 as [|c l IH]; cbn [for_each]; [apply _|]. apply fueled_bind; [|intros ?; apply IH; set_solver].
  apply fueled_bind; [apply fueled_attempt, Hc; set_solver|apply _].
Qed.

Lemma InitializeMethod_fueled imlog v : Fueled (InitializeMethod os loader (perform env host clr add imlog) im v).
Proof.
  unfold InitializeMethod. apply fueled_bind_run; [apply InitializeInstance_fueled|]. intros [p plugin] s s' E.
  apply InitializeInstance_made in E as (path & lib & n & El & Ec). apply fueled_bind; [apply _|intros ?].
  apply fueled_bind; [|apply _]. eapply run_plugin_fueled; [done..|]. by left.
Qed.

Lemma InitializeMethodForAttach_fueled imlog settings v : Fueled (InitializeMethodForAttach os loader (perform env host clr add imlog) im settings v).
Proof.
  unfold InitializeMethodForAttach. apply fueled_bind_run; [apply InitializeInstance_fueled|]. intros [p plugin] s s' E.
  apply InitializeInstance_made in E as (path & lib & n & El & Ec). apply fueled_bind_run; [apply _|]. intros script s1 s2 Es.
  apply fueled_bind; [apply _|intros ?]. apply fueled_bind; [|apply _]. eapply run_plugin_fueled; [done..|]. right.
  exists script, settings. split; [|done]. by destruct (on_InitializeForAttach plugin); [injection Es as -> _|].
Qed.

End Perform.

(** The rank of a method is enough fuel to add it. *)
Lemma AddInstrumentationMethod_fueled fuel im settings :
  (rank im < fuel)%nat -> Fueled (AddInstrumentationMethod env host os loader clr fuel im settings).
Proof.
  revert im settings. induction fuel as [|fuel IH]; intros im settings Hf; [lia|]. cbn [AddInstrumentationMethod].
  assert (forall im' settings', (rank im' < rank im)%nat -> Fueled (AddInstrumentationMethod env host os loader clr fuel im' settings')) as Ha
    by (intros; apply IH; lia).
  apply fueled_bind; [|intros [[] ?]; apply _]. apply initializing_method_fueled. apply fueled_bind; [apply _|intros imlog].
  apply fueled_bind; [apply _|intros sw]. cbv zeta. apply fueled_bind; [|apply _]. apply fueled_try.
  destruct (m_bAttach sw); [by apply InitializeMethodForAttach_fueled|by apply InitializeMethod_fueled].
Qed.

Context (fuel : nat) (Hfuel : forall im, (rank im < fuel)%nat).

Lemma LoadInstrumentationMethods_fueled c : Fueled (LoadInstrumentationMethods env host os loader clr fuel c).
Proof.
  unfold LoadInstrumentationMethods. apply fueled_bind; [apply _|intros ?]. apply fueled_bind.
  - intros s. unfold load_configuration. pose proof (LoadConfiguration_fueled host (m_bstrPath c) (mkLoading [] (thread_errno s))) as Hl.
    by destruct (LoadConfiguration _ _ _) as [[] ?].
  - intros l. apply fueled_for_each. intros im. unfold load_method, IsInstrumentationMethodRegistered. apply fueled_bind; [apply _|intros b].
    destruct b; [apply _|]. apply fueled_bind; [by apply fueled_try, AddInstrumentationMethod_fueled|intros []; apply _].
Qed.

#[export] Instance InvokeThreadRoutine_fueled m : Fueled m -> Fueled (InvokeThreadRoutine loader m).
Proof. intros Hm. unfold InvokeThreadRoutine. fuel. Qed.

Lemma InstrumentationMethodThreadProc_fueled : Fueled (InstrumentationMethodThreadProc env host os loader clr fuel).
Proof.
  unfold InstrumentationMethodThreadProc. do 2 (apply fueled_bind; [apply _|intros ?]). apply fueled_for_each. apply LoadInstrumentationMethods_fueled.
Qed.

Lemma SetupRawProfiler_fueled : Fueled (SetupRawProfiler env host loader).
Proof.
  unfold SetupRawProfiler. apply fueled_bind; [apply fueled_lift, ReadSettings_fueled, (nesting_clsid _ Hn)|]. intros [[guid path]|]; [|apply _].
  apply fueled_bind; [apply _|intros ?]. apply fueled_bind; [|apply _]. unfold LoadRawProfilerHookComponentFrom.
  apply fueled_bind_run; [repeat case_match; apply _|]. intros lib s s' E. do 4 (apply fueled_bind; [repeat case_match; apply _|intros ?]).
  destruct (GetProcAddressError lib); [apply _|]. apply fueled_lift. eapply (nesting_raw _ Hn path).
  destruct (GetModuleHandleEx loader path) as [l|]; [right; by injection E as -> _|left].
  destruct (LoadLibrary loader path) as [e|l]; [by apply win32_error_fails in E|]. by injection E as -> _.
Qed.

Lemma InitializeCore_fueled info : Fueled (InitializeCore env host os loader clr fuel info).
Proof.
  unfold InitializeCore, DetermineClrVersion. do 7 (apply fueled_bind; [solve [fuel]|intros ?]). apply fueled_bind; [|intros ?; apply SetupRawProfiler_fueled].
  destruct (m_configSources _); [apply _|apply InvokeThreadRoutine_fueled, InstrumentationMethodThreadProc_fueled].
Qed.

Lemma Initialize_fueled RawInitialize info : Fueled (Startup.Initialize env host os loader clr fuel RawInitialize info).
Proof.
  unfold Startup.Initialize. apply fueled_bind; [apply _|intros s]. apply fueled_bind; [apply fueled_lift, GetFromEnvironment_fueled|intros l].
  apply fueled_bind; [apply _|intros ?]. apply fueled_bind; [|intros ?].
  { destruct l; [|apply _]. apply fueled_bind; [apply fueled_lift, GetFromFilesystem_fueled|apply _]. }
  unfold in_initialize, cancel_if_disabled, raw_callback, RemoveRawProfilerHook. apply fueled_finally; [|apply _].
  repeat (apply fueled_bind; [try solve [fuel]; apply InitializeCore_fueled|intros ?]). fuel.
Qed.

Lemma InitializeForAttach_fueled info data : Fueled (InitializeForAttach env host os loader clr fuel info data).
Proof.
  unfold InitializeForAttach. apply fueled_bind; [apply _|intros ?]. destruct data as [[|b data]|]; [apply _| |apply _].
  destruct (Convert _ _) as [hr xml]. apply fueled_bind; [apply _|intros ?]. apply fueled_bind.
  { apply InvokeThreadRoutine_fueled. unfold ParseAttachConfigurationThreadProc. do 2 (apply fueled_bind; [apply _|intros ?]).
    pose proof (ParseAttachConfiguration_fueled host xml (mkAttach [] (m_configSources a2))) as Hp.
    destruct (ParseAttachConfiguration _ _ _) as [r found]. apply fueled_bind; [apply fueled_for_each; intros ?; apply _|intros ?].
    apply fueled_bind; [apply _|intros ?]. by apply fueled_lift. }
  intros ?. unfold in_initialize, cancel_if_disabled, raw_callback. apply fueled_finally; [|apply _].
  repeat (apply fueled_bind; [try solve [fuel]; apply InitializeCore_fueled|intros ?]). fuel.
Qed.

End Startup.
