(* ===== verification/ConfigSpec.v ===== *)
(** The properties of configuration: a configuration that is written in any order of its
    elements is read as what it says, and what a failure leaves. *)
From S2P Require Import Prelude Logger Config.

(** ** Decimal numbers *)

Fixpoint decimal_digits (n : nat) (z : Z) : wstr :=
  match n with
  | O => []
  | S n => if z <? 10 then [48 + z] else decimal_digits n (z / 10) ++ [48 + z mod 10]
  end.

(** The number in decimal, of at most ten digits *)
Definition decimal (z : Z) : wstr := decimal_digits 10 z.

Lemma read_digits_snoc v l d :
  Forall (fun c => is_digit c = true) l -> 0 <= d < 10 -> read_digits v (l ++ [48 + d]) = read_digits v l * 10 + d.
Proof.
  intros Hl Hd. revert v. induction Hl as [|c l Hc Hl IH]; intros v; cbn [app read_digits].
  - replace (is_digit (48 + d)) with true by (unfold is_digit; lia). lia.
  - by rewrite Hc, IH.
Qed.

Lemma decimal_digits_read n z :
  0 <= z < 10 ^ Z.of_nat n -> Forall (fun c => is_digit c = true) (decimal_digits n z) /\ read_digits 0 (decimal_digits n z) = z.
Proof.
  revert z. induction n as [|n IH]; intros z Hz; cbn [decimal_digits]; [cbn in Hz; split; [done|cbn; lia]|].
  destruct (Z.ltb_spec z 10) as [Hlt|Hge].
  - assert (is_digit (48 + z) = true) as E by (unfold is_digit; lia). split; [by constructor|]. cbn [read_digits]. rewrite E. lia.
  - rewrite Nat2Z.inj_succ, Z.pow_succ_r in Hz by lia. destruct (IH (z / 10)) as [H1 H2]; [zlia|].
    pose proof (Z.mod_pos_bound z 10 ltac:(lia)). split.
    + apply Forall_app. split; [done|]. constructor; [unfold is_digit; lia|done].
    + rewrite read_digits_snoc, H2 by done. zlia.
Qed.

Lemma decimal_nonempty z : decimal z <> [].
Proof. unfold decimal. cbn [decimal_digits]. case_match; [done|]. by intros [? ?]%app_eq_nil. Qed.

Lemma wtoi_digits s : s <> [] -> Forall (fun c => is_digit c = true) s ->
  read_digits 0 s < 2 ^ 31 -> 0 <= read_digits 0 s -> wtoi s = (read_digits 0 s, false).
Proof.
  intros Hs Hd Hr H0. destruct s as [|c s]; [done|]. apply Forall_cons in Hd as [Hc _]. unfold wtoi.
  assert (48 <= c <= 57) as Hc' by (unfold is_digit in Hc; lia).
  replace (skip_spaces (c :: s)) with (c :: s); [|cbn; replace (is_space c) with false; [done|symmetry; unfold is_space; lia]].
  replace (c =? 45) with false by lia. replace (c =? 43) with false by lia.
  replace (read_digits 0 (c :: s) <? - 2 ^ 31) with false by lia.
  by replace (2 ^ 31 - 1 <? read_digits 0 (c :: s)) with false by lia.
Qed.

Lemma wtoi_decimal z : 0 <= z < 2 ^ 31 -> wtoi (decimal z) = (z, false).
Proof.
  intros Hz. destruct (decimal_digits_read 10 z) as [H1 H2]; [lia|]. unfold decimal.
  rewrite wtoi_digits; rewrite ?H2; [done|apply decimal_nonempty|done|lia|lia].
Qed.

(** ** Written configurations *)

Inductive Kind := KName | KDescription | KModule | KClassGuid | KPriority.

#[export] Instance Kind_eq_dec : EqDecision Kind.
Proof. solve_decision. Defined.

Definition kind_name (k : Kind) : wstr :=
  match k with
  | KName => wide "Name"
  | KDescription => wide "Description"
  | KModule => wide "Module"
  | KClassGuid => wide "ClassGuid"
  | KPriority => wide "Priority"
  end.

(** An element with a text *)
Definition element (kv : Kind * wstr) : Node :=
  mkNode (kind_name kv.1) None (Some []) [mkNode (wide "#text") (Some kv.2) None []].

Definition set_field (f : Fields) (kv : Kind * wstr) : Fields :=
  let '(k, v) := kv in
  match k with
  | KName => mkFields v (description f) (module f) (classGuid f) (dwPriority f)
  | KDescription => mkFields (name f) v (module f) (classGuid f) (dwPriority f)
  | KModule => mkFields (name f) (description f) v (classGuid f) (dwPriority f)
  | KClassGuid => mkFields (name f) (description f) (module f) v (dwPriority f)
  | KPriority => mkFields (name f) (description f) (module f) (classGuid f) (u32 (wtoi v).1)
  end.

(** The elements of a method: a priority of [0xFFFFFFFF] is the default and is left out. *)
Definition method_elements (im : CInstrumentationMethod) (guid : wstr) : list (Kind * wstr) :=
  [(KName, m_bstrName im); (KDescription, m_bstrDescription im); (KModule, m_bstrModule im); (KClassGuid, guid)] ++
  (if decide (m_dwPriority im = 2 ^ 32 - 1) then [] else [(KPriority, decimal (m_dwPriority im))]).

(** The fields do not depend on the order of elements of different kinds. *)
Lemma set_field_comm f a b : a.1 <> b.1 -> set_field (set_field f a) b = set_field (set_field f b) a.
Proof. by destruct a as [[] ?], b as [[] ?]. Qed.

Lemma set_fields_perm l l' f : l ≡ₚ l' -> NoDup l.*1 -> foldl set_field f l = foldl set_field f l'.
Proof.
  intros Hp. revert f. induction Hp as [|a l l' Hp IH|a b l|l1 l2 l3 H1 IH1 H2 IH2]; intros f Hnd; cbn [foldl].
  - done.
  - apply IH. by inversion Hnd.
  - rewrite set_field_comm; [done|]. cbn in Hnd. apply NoDup_cons in Hnd as [Hn _]. intros E. apply Hn. rewrite E. by left.
  - rewrite IH1 by done. apply IH2. by rewrite <- H1.
Qed.

Lemma set_fields_method im guid : 
  0 <= m_dwPriority im < 2 ^ 31 \/ m_dwPriority im = 2 ^ 32 - 1 ->
  foldl set_field no_fields (method_elements im guid) = mkFields (m_bstrName im) (m_bstrDescription im) (m_bstrModule im) guid (m_dwPriority im).
Proof.
  intros Hp. unfold method_elements. rewrite foldl_app. cbn [foldl set_field no_fields]. case_decide as E; cbn [foldl set_field].
  - by rewrite E.
  - destruct Hp as [Hp|]; [|done]. rewrite wtoi_decimal by done. cbn [fst name description module classGuid]. rewrite u32_small by (unfold is_u32; lia). done.
Qed.

Lemma method_elements_keys im guid : NoDup (method_elements im guid).*1.
Proof. unfold method_elements. case_decide; cbn; repeat (apply NoDup_cons; split; [by rewrite ?elem_of_cons, elem_of_nil; naive_solver|]); apply NoDup_nil_2. Qed.

Section Spec.
Context `{UnorderedMap} (env : Environment) (host : Host).

(** The child is in range, if it is a priority. *)
Definition readable (kv : Kind * wstr) : Prop := kv.1 = KPriority -> (wtoi kv.2).2 = false.

Lemma read_priority_run s v st : wtoi s = (v, false) -> errno st <> ERANGE -> read_priority s st = (Ok (u32 v), st).
Proof.
  intros E He. unfold read_priority. rewrite E. unfold bind, modify, gets, ret, id, if_false_ret.
  by destruct (Z.eqb_spec (errno st) ERANGE).
Qed.

Lemma process_child_element f kv st : readable kv -> errno st <> ERANGE -> process_child f (element kv) st = (Ok (set_field f kv), st).
Proof.
  intros Hr He. destruct kv as [[] v]; try done. unfold process_child.
  change (GetChildNode (element (KPriority, v))) with [mkNode (wide "#text") (Some v) None []].
  cbn [nodeName element fst kind_name]. rewrite !bool_decide_eq_false_2 by done. rewrite bool_decide_eq_true_2 by done.
  specialize (Hr eq_refl). cbn [snd] in Hr. destruct (wtoi v) as [p o] eqn:E. cbn [snd] in Hr. subst o.
  change (lift (GetStringValue (mkNode (wide "#text") (Some v) None []))) with (@lift Loading _ (Ok v)).
  rewrite (run_bind (lift (Ok v)) _ st v st eq_refl), (run_bind _ _ _ _ _ (read_priority_run v p st E He)). cbn [set_field]. by rewrite E.
Qed.

Lemma process_children_elements kvs f st :
  Forall readable kvs -> errno st <> ERANGE -> process_children f (map element kvs) st = (Ok (foldl set_field f kvs), st).
Proof.
  intros Hr He. revert f. induction Hr as [|kv kvs Hkv Hr IH]; intros f; cbn [map process_children foldl]; [done|].
  rewrite (run_bind _ _ _ _ _ (process_child_element f kv st Hkv He)). apply IH.
Qed.

(** A node says what the method is: its elements are there, in any order. *)
Record written_as (folder : wstr) (im : CInstrumentationMethod) (n : Node) : Prop := {
  written_tag : nodeName n = wide "InstrumentationMethod" \/ nodeName n = wide "InstrumentationMethod64";
  written_folder : m_bstrModuleFolder im = folder;
  written_children : exists guid, guid <> [] /\ IIDFromString host guid = Some (m_guidClassId im) /\ childNodes n ≡ₚ map element (method_elements im guid);
  written_priority : 0 <= m_dwPriority im < 2 ^ 31 \/ m_dwPriority im = 2 ^ 32 - 1;
  written_complete : m_bstrName im <> [] /\ m_bstrDescription im <> [] /\ m_bstrModule im <> []
}.

Lemma not_empty s : s <> [] -> is_empty s = false.
Proof. by destruct s. Qed.

Lemma ProcessInstrumentationMethodNode_reads folder im n st :
  written_as folder im n -> errno st <> ERANGE ->
  ProcessInstrumentationMethodNode host folder n st = (Ok tt, push_method im st).
Proof.
  intros [_ Hf (guid & Hg & Hid & Hch) Hp (H1 & H2 & H3)] He.
  apply Permutation_map_inv in Hch as (kvs & Ek & Hk). unfold ProcessInstrumentationMethodNode, GetChildNode. rewrite Ek.
  assert (Forall readable kvs) as Hr.
  { rewrite <- Hk. unfold method_elements. apply Forall_app. split; [by repeat constructor|]. case_decide; [done|].
    constructor; [|done]. intros _. destruct Hp as [Hp|]; [|done]. cbn [snd]. by rewrite wtoi_decimal. }
  rewrite (run_bind _ _ _ _ _ (process_children_elements kvs no_fields st Hr He)).
  rewrite <- (set_fields_perm _ _ _ Hk (method_elements_keys im guid)), set_fields_method by done.
  cbn [name description module classGuid dwPriority]. rewrite !not_empty by done. cbn [orb negb if_false_ret]. unfold bind at 1, ret.
  rewrite Hid. cbn. rewrite <- Hf. by destruct im.
Qed.

Lemma load_methods_reads folder ims nodes st :
  Forall2 (written_as folder) ims nodes -> errno st <> ERANGE ->
  load_methods host folder nodes st = (Ok tt, mkLoading (methods st ++ ims) (errno st)).
Proof.
  intros Hw. revert st. induction Hw as [|im n ims nodes Hn Hw IH]; intros st He; cbn [load_methods].
  { rewrite app_nil_r. by destruct st. }
  assert (bool_decide (nodeName n = wide "InstrumentationMethod") || bool_decide (nodeName n = wide "InstrumentationMethod64") = true) as ->.
  { apply orb_true_iff. rewrite !bool_decide_eq_true. apply Hn. }
  cbn [if_false_ret]. rewrite (run_bind (ret tt) _ st tt st eq_refl).
  rewrite (run_bind _ _ _ _ _ (ProcessInstrumentationMethodNode_reads folder im n st Hn He)), IH by done.
  cbn [push_method methods errno]. by rewrite <- app_assoc.
Qed.

(** C20: A configuration file is read as the methods that it describes, in their order,
    whatever the order of the elements in each of them, behind the methods that were read
    before, and without touching [errno]. *)
Theorem LoadConfiguration_reads path nodes attrs ims st :
  DocumentOfFile host path = Some (mkNode (wide "InstrumentationEngineConfiguration") None attrs nodes) ->
  (length path < MAX_PATH)%nat ->
  Forall2 (written_as (take (PathFindFileName host path) path)) ims nodes -> errno st <> ERANGE ->
  LoadConfiguration host path st = (Ok tt, mkLoading (methods st ++ ims) (errno st)).
Proof.
  intros Hd Hl Hw He. unfold LoadConfiguration. rewrite Hd. cbn [if_null_ret]. rewrite (run_bind (ret _) _ st _ st eq_refl).
  cbn [nodeName]. rewrite bool_decide_eq_true_2 by done. cbn [if_false_ret]. rewrite (run_bind (ret tt) _ st tt st eq_refl).
  destruct (Nat.ltb_spec (length path) MAX_PATH); [|lia]. rewrite (run_bind (ret tt) _ st tt st eq_refl).
  by apply load_methods_reads.
Qed.

(** ** The configuration of an attach *)

Definition setting (kv : wstr * wstr) : Node :=
  mkNode (wide "Setting") None (Some [(wide "Name", kv.1); (wide "Value", kv.2)]) [].

Definition complete (kv : wstr * wstr) : Prop := kv.1 <> [] /\ kv.2 <> [].

Lemma parse_settings_reads kvs m :
  Forall complete kvs -> parse_settings (map setting kvs) m = Ok (m ∪ list_to_map kvs).
Proof.
  intros Hc. revert m. induction Hc as [|[k v] kvs [Hk Hv] Hc IH]; intros m; cbn [map parse_settings list_to_map foldr].
  - by rewrite (right_id_L ∅ (∪)).
  - cbn [setting nodeName fst snd] in *. rewrite bool_decide_eq_true_2 by done. cbn [negb].
    change (GetAttribute (setting (k, v)) (wide "Name")) with (Ok k). change (GetAttribute (setting (k, v)) (wide "Value")) with (Ok v).
    cbn [obind]. rewrite !not_empty by done. rewrite IH. f_equal. cbn [uncurry].
    destruct (m !! k) as [w|] eqn:E.
    + apply map_eq. intros j. rewrite !lookup_union. destruct (decide (j = k)) as [->|Hj]; [by rewrite E, lookup_insert, !union_Some_l|by rewrite lookup_insert_ne].
    + by rewrite <- insert_union_l, insert_union_r.
Qed.

(** The settings of a method or of the engine: of two values of a name the first counts. *)
Lemma ParseSettingsConfigurationNode_reads name attrs kvs :
  Forall complete kvs -> ParseSettingsConfigurationNode (mkNode name None attrs (map setting kvs)) ∅ = Ok (list_to_map kvs).
Proof. intros Hc. unfold ParseSettingsConfigurationNode, GetChildNode. cbn [childNodes]. by rewrite parse_settings_reads, (left_id_L ∅ (∪)). Qed.

(** The sections of a configuration: settings of the engine, methods with their settings,
    and anything else. *)
Inductive AttachSection :=
| EngineSettings (kvs : list (wstr * wstr))
| MethodsToLoad (l : list (wstr * list (wstr * wstr)))
| Unknown (n : Node).

Definition settings_node (kvs : list (wstr * wstr)) : Node := mkNode (wide "Settings") None (Some []) (map setting kvs).
Definition method_node (m : wstr * list (wstr * wstr)) : Node :=
  mkNode (wide "AddInstrumentationMethod") None (Some [(wide "ConfigPath", m.1)]) [settings_node m.2].

Definition section_node (x : AttachSection) : Node :=
  match x with
  | EngineSettings kvs => mkNode (wide "InstrumentationEngine") None (Some []) [settings_node kvs]
  | MethodsToLoad l => mkNode (wide "InstrumentationMethods") None (Some []) (map method_node l)
  | Unknown n => n
  end.

Definition section_ok (x : AttachSection) : Prop :=
  match x with
  | EngineSettings kvs => Forall complete kvs
  | MethodsToLoad l => Forall (fun m => m.1 <> [] /\ Forall complete m.2) l
  | Unknown n => nodeName n <> wide "InstrumentationEngine" /\ nodeName n <> wide "InstrumentationMethods"
  end.

(** What the engine does with a setting of its own *)
Definition setting_change (kv : wstr * wstr) : list LogCall :=
  if bool_decide (kv.1 = wide "LogLevel") then [C_SetLoggingFlags (ExtractLoggingFlags kv.2)]
  else if bool_decide (kv.1 = wide "LogFileLevel") then [C_SetLogFileLevel (ExtractLoggingFlags kv.2)]
  else if bool_decide (kv.1 = wide "LogFilePath") then [C_SetLogFilePath kv.2] else [].

Definition settings_of (kvs : list (wstr * wstr)) : list (wstr * wstr) := items (list_to_map kvs : gmap wstr wstr).

Definition section_changes (x : AttachSection) : list LogCall :=
  match x with EngineSettings kvs => concat (map setting_change (settings_of kvs)) | _ => [] end.
Definition section_sources (x : AttachSection) : list CConfigurationSource :=
  match x with MethodsToLoad l => map (fun m => mkSource m.1 (settings_of m.2)) l | _ => [] end.

Definition attach_more (c : list LogCall) (l : list CConfigurationSource) (a : Attach) : Attach :=
  mkAttach (log_changes a ++ c) (sources a ++ l).

Lemma attach_more_nil a : attach_more [] [] a = a.
Proof. destruct a. unfold attach_more. by rewrite !app_nil_r. Qed.

Lemma attach_more_more c c' l l' a : attach_more c' l' (attach_more c l a) = attach_more (c ++ c') (l ++ l') a.
Proof. unfold attach_more. cbn. by rewrite !app_assoc. Qed.

(** A loop whose rounds add to what was found *)
Lemma for_each_more {B} (f : B -> M Attach unit) (c : B -> list LogCall) (l : B -> list CConfigurationSource) xs a :
  (forall x a, x ∈ xs -> f x a = (Ok tt, attach_more (c x) (l x) a)) ->
  for_each f xs a = (Ok tt, attach_more (concat (map c xs)) (concat (map l xs)) a).
Proof.
  revert a. induction xs as [|x xs IH]; intros a Hf; cbn [for_each map concat]; [by rewrite attach_more_nil|].
  rewrite (run_bind _ _ _ _ _ (Hf x a ltac:(set_solver))), IH by set_solver. by rewrite attach_more_more.
Qed.

Lemma for_each_map {S B C} (f : C -> M S unit) (g : B -> C) xs s : for_each f (map g xs) s = for_each (fun x => f (g x)) xs s.
Proof. revert s. induction xs as [|x xs IH]; intros s; cbn [map for_each]; [done|]. unfold bind. destruct (f (g x) s) as [[] s']; auto. Qed.

Lemma concat_singletons {B C} (f : B -> C) xs : concat (map (fun x => [f x]) xs) = map f xs.
Proof. induction xs as [|x xs IH]; cbn; [done|]. by rewrite IH. Qed.

Lemma apply_setting_run kv a : apply_setting kv a = (Ok tt, attach_more (setting_change kv) [] a).
Proof.
  unfold apply_setting, setting_change. destruct a. unfold attach_more.
  repeat case_bool_decide; unfold modify, ret, change_log; cbn; by rewrite ?app_nil_r.
Qed.

Lemma foldl_settings c kvs : foldl (fun s kv => AddSetting kv.1 kv.2 s) c kvs = mkSource (m_bstrPath c) (m_settings c ++ kvs).
Proof.
  revert c. induction kvs as [|[k v] kvs IH]; intros c; cbn [foldl]; [rewrite app_nil_r; by destruct c|].
  rewrite IH. unfold AddSetting. cbn. by rewrite <- app_assoc.
Qed.

Lemma parse_method_reads m a :
  m.1 <> [] -> Forall complete m.2 -> parse_method (method_node m) a = (Ok tt, attach_more [] [mkSource m.1 (settings_of m.2)] a).
Proof.
  intros Hp Hc. unfold parse_method. cbn [method_node nodeName]. rewrite bool_decide_eq_true_2 by done.
  change (GetAttribute (method_node m) (wide "ConfigPath")) with (Ok m.1). rewrite (run_bind (lift (Ok m.1)) _ a m.1 a eq_refl).
  rewrite not_empty by done. cbn [negb if_false_ret]. rewrite (run_bind (ret tt) _ a tt a eq_refl).
  unfold GetChildNode. cbn [method_node childNodes parse_method_settings]. cbn [settings_node nodeName]. rewrite bool_decide_eq_true_2 by done.
  unfold settings_node at 1. rewrite ParseSettingsConfigurationNode_reads by done. cbn [obind]. rewrite foldl_settings.
  cbn. unfold attach_more, push_source. destruct a. cbn. by rewrite app_nil_r.
Qed.

Lemma parse_section_reads x a : section_ok x -> parse_section (section_node x) a = (Ok tt, attach_more (section_changes x) (section_sources x) a).
Proof.
  destruct x as [kvs|l|n]; cbn [section_ok]; intros Hx; unfold parse_section; cbn [section_node nodeName section_changes section_sources].
  - rewrite bool_decide_eq_true_2 by done. unfold parse_engine, GetChildNode. cbn [childNodes]. cbn [settings_node nodeName].
    rewrite bool_decide_eq_true_2 by done. unfold settings_node. rewrite ParseSettingsConfigurationNode_reads by done.
    rewrite (run_bind (lift _) _ a _ a eq_refl).
    rewrite (for_each_more _ setting_change (fun _ => [])) by (intros; apply apply_setting_run).
    f_equal. f_equal. by induction (items _).
  - rewrite bool_decide_eq_false_2 by done. rewrite bool_decide_eq_true_2 by done. unfold GetChildNode. cbn [childNodes].
    rewrite for_each_map, (for_each_more _ (fun _ => []) (fun m => [mkSource m.1 (settings_of m.2)])).
    + f_equal. f_equal; [by clear Hx; induction l|by rewrite concat_singletons].
    + intros m b Hm. rewrite Forall_forall in Hx. by apply parse_method_reads; apply Hx.
  - destruct Hx. rewrite !bool_decide_eq_false_2 by done. unfold ret. by rewrite attach_more_nil.
Qed.

(** C21: The configuration of an attach is read as what it says: the changes of the log of
    every section with settings of the engine, and the sources of all methods in order, each
    with its settings, where the first value of a name counts and unknown sections are
    skipped. *)
Theorem ParseAttachConfiguration_reads xml attrs xs a :
  DocumentOfString host xml = Some (mkNode (wide "InstrumentationEngineConfiguration") None attrs (map section_node xs)) ->
  Forall section_ok xs ->
  ParseAttachConfiguration host xml a = (Ok tt, attach_more (concat (map section_changes xs)) (concat (map section_sources xs)) a).
Proof.
  intros Hd Hx. unfold ParseAttachConfiguration. rewrite Hd. cbn [if_null_ret]. rewrite (run_bind (ret _) _ a _ a eq_refl).
  cbn [nodeName]. rewrite bool_decide_eq_true_2 by done. cbn [if_false_ret]. rewrite (run_bind (ret tt) _ a tt a eq_refl).
  unfold GetChildNode. cbn [childNodes]. rewrite for_each_map. apply (for_each_more _ section_changes section_sources).
  intros x b Hin. rewrite Forall_forall in Hx. by apply parse_section_reads, Hx.
Qed.

End Spec.

(** ** A configuration

    A file with two methods, the second with its elements in another order. *)
#[local] Instance listed_settings : UnorderedMap.
Proof. by refine {| items _ _ _ _ m := map_to_list m |}. Defined.

(** A host with the given documents *)
Definition host_with (document : option Node) : Host :=
  mkHost (fun s => Some (Z.of_nat (length s))) (fun s => Ok (Z.of_nat (length s))) (fun _ => 3%nat) (fun _ => document) (fun _ => document)
    (fun bytes => inr bytes) [] id Some Some None None id (fun _ => []) 0.

Definition sample_methods : list CInstrumentationMethod :=
  [mkInstrumentationMethod (wide "c:\") (wide "Squid") (wide "swim") (wide "squid.dll") 4 50;
   mkInstrumentationMethod (wide "c:\") (wide "Crab") (wide "walk") (wide "crab.dll") 5 (2 ^ 32 - 1)].

Definition sample_configuration : list Node :=
  [mkNode (wide "InstrumentationMethod") None (Some [])
     (map element [(KName, wide "Squid"); (KDescription, wide "swim"); (KModule, wide "squid.dll"); (KClassGuid, wide "{01}"); (KPriority, wide "50")]);
   mkNode (wide "InstrumentationMethod64") None (Some [])
     (map element [(KModule, wide "crab.dll"); (KName, wide "Crab"); (KClassGuid, wide "{002}"); (KDescription, wide "walk")])].

Definition document (nodes : list Node) : Node := mkNode (wide "InstrumentationEngineConfiguration") None (Some []) nodes.

Lemma shuffled {A} (a b c d : A) : [a; b; c; d] ≡ₚ [b; d; a; c].
Proof. rewrite <- (Permutation_swap a b [c; d]). constructor. symmetry. apply (Permutation_cons_append [a; c] d). Qed.

Lemma sample_configuration_written :
  Forall2 (written_as (host_with (Some (document sample_configuration))) (wide "c:\")) sample_methods sample_configuration.
Proof.
  constructor; [|constructor; [|constructor]]; split; try done.
  - by left.
  - exists (wide "{01}"). split_and!; [done|done|]. by apply Permutation_refl'.
  - left. cbn. lia.
  - by right.
  - exists (wide "{002}"). split_and!; [done|done|]. exact (Permutation_map element (shuffled _ _ _ _)).
  - by right.
Qed.

Lemma LoadConfiguration_reads_witness :
  LoadConfiguration (host_with (Some (document sample_configuration))) (wide "c:\a.config") (mkLoading [] 0) = (Ok tt, mkLoading sample_methods 0).
Proof.
  apply (LoadConfiguration_reads (host_with (Some (document sample_configuration))) (wide "c:\a.config") sample_configuration (Some []) sample_methods (mkLoading [] 0)
    eq_refl); [vm_compute; lia|exact sample_configuration_written|done].
Defined.

(** The first of two values, and a section that the engine does not know *)
Definition sample_sections : list AttachSection :=
  [EngineSettings [(wide "LogLevel", wide "Errors"); (wide "LogLevel", wide "All")]; Unknown (mkNode (wide "#comment") (Some []) None []);
   MethodsToLoad [(wide "a.config", [(wide "Mode", wide "fast")])]].

Lemma ParseAttachConfiguration_reads_witness :
  ParseAttachConfiguration (host_with (Some (document (map section_node sample_sections)))) [] (mkAttach [] []) =
    (Ok tt, mkAttach [C_SetLoggingFlags LoggingFlags_Errors] [mkSource (wide "a.config") [(wide "Mode", wide "fast")]]).
Proof.
  refine (eq_trans (ParseAttachConfiguration_reads (host_with (Some (document (map section_node sample_sections)))) [] (Some []) sample_sections (mkAttach [] []) eq_refl _) _).
  - by repeat constructor.
  - by vm_compute.
Defined.

(** ** What goes wrong *)

(** [errno] is tested but never reset: a priority that is out of range makes every later
    priority of the thread fail. *)
Lemma priority_out_of_range_sticks :
  let squid p := mkNode (wide "InstrumentationMethod") None (Some [])
     (map element [(KName, wide "Squid"); (KDescription, wide "swim"); (KModule, wide "squid.dll"); (KClassGuid, wide "{01}"); (KPriority, p)]) in
  let after := (LoadConfiguration (host_with (Some (document [squid (wide "99999999999")]))) (wide "c:\a.config") (mkLoading [] 0)).2 in
  (LoadConfiguration (host_with (Some (document [squid (wide "50")]))) (wide "c:\b.config") (mkLoading [] 0)).1 = Ok tt /\
  (LoadConfiguration (host_with (Some (document [squid (wide "50")]))) (wide "c:\b.config") after).1 = Err E_FAIL.
Proof. by split; vm_compute. Qed.

(** A priority that is negative or no number is accepted. *)
Lemma priority_not_checked st :
  errno st <> ERANGE ->
  read_priority (wide "-1") st = (Ok (2 ^ 32 - 1), st) /\ read_priority (wide "low") st = (Ok 0, st).
Proof. intros He. split; [by apply (read_priority_run _ (-1))|by apply (read_priority_run _ 0)]. Qed.

(** A comment in a configuration is an error, and the methods in front of an error are
    loaded. *)
Lemma failed_configuration_keeps_methods :
  LoadConfiguration (host_with (Some (document (sample_configuration ++ [mkNode (wide "#comment") (Some []) None []]))))
    (wide "c:\a.config") (mkLoading [] 0) = (Err E_FAIL, mkLoading sample_methods 0).
Proof. by vm_compute. Qed.

(** The path of a raw profiler with 1024 characters is taken for one that was read. *)
Lemma long_variable_undefined env name v :
  GetEnvironmentVariable env name = Some v -> (1024 <= length v)%nat -> GetVariable env (host_with None) name = Undef UninitRead.
Proof. intros E Hl. unfold GetVariable. rewrite E. destruct v as [|c v]; [cbn in Hl; lia|]. destruct (Nat.ltb_spec (length (c :: v)) 1024); [lia|done]. Qed.
