(* ===== verification/StartupSpec.v ===== *)
(** The properties of the start-up: what holds of the instrumentation methods and of the
    event masks whatever plug-ins do, and what is frozen when the start-up is over. *)
From stdpp Require Import sorting.
From S2P Require Import Prelude Logger Config Startup StartupFuel ConfigSpec.
From S2P Require Proxy.

(** ** Masks *)

(** The bits of [a] are in [b]. *)
Definition includes (b a : Z) : Prop := Z.lor b a = b.

Lemma includes_refl a : includes a a.
Proof. apply Z.lor_diag. Qed.

Lemma includes_trans a b c : includes c b -> includes b a -> includes c a.
Proof. unfold includes. intros E1 E2. by rewrite <- E1, <- Z.lor_assoc, E2. Qed.

Lemma includes_lor a b : includes (Z.lor a b) a.
Proof. unfold includes. by rewrite (Z.lor_comm a b), <- Z.lor_assoc, Z.lor_diag. Qed.

Lemma includes_lor_l a b c : includes a c -> includes (Z.lor a b) c.
Proof. intros Hi. eapply includes_trans; [apply includes_lor|done]. Qed.

Lemma frozen_lor a b i : Z.land b i = Z.land a i -> Z.land (Z.lor a b) i = Z.land a i.
Proof. intros E. by rewrite Z.land_lor_distr_l, E, Z.lor_diag. Qed.

(** ** The invariant *)

Notation methods_of s := (m_instrumentationMethods (loaded s)).
Notation guids_of s := (m_instrumentationMethodGuids (loaded s)).
Notation instances_of s := (instances (loaded s)).
Notation accepted_of s := (accepted (attached s)).

Definition earlier (a b : Added) : Prop := m_dwPriority (method a) <= m_dwPriority (method b).

(** The methods are in the order of their priorities and are different instances, a class
    is registered once, and every mask that the runtime accepted has the events that the
    engine needs. *)
Record Inv (s : CProfilerManager) : Prop := {
  inv_sorted : StronglySorted earlier (methods_of s);
  inv_instances : NoDup (map instance (methods_of s));
  inv_fresh : Forall (fun a => instance a < instances_of s) (methods_of s);
  inv_guids : NoDup (guids_of s);
  inv_default : includes (m_dwEventMask (masks s)) GetDefaultEventMask;
  inv_accepted : Forall (fun m => includes m.1 GetDefaultEventMask) (accepted_of s)
}.

Definition immutable_bits (s : CProfilerManager) : Z * Z :=
  (Z.land (m_dwEventMask (masks s)) COR_PRF_MONITOR_IMMUTABLE, Z.land (m_dwEventMaskHigh (masks s)) COR_PRF_HIGH_MONITOR_IMMUTABLE).

(** What adding and removing a method, and changing masks, do to the state *)
Record evolves (s s' : CProfilerManager) : Prop := {
  ev_inv : Inv s -> Inv s';
  ev_instances : instances_of s <= instances_of s';
  ev_methods : forall a, a ∈ methods_of s' -> a ∈ methods_of s \/ instances_of s <= instance a;
  ev_phase : m_bIsInInitialize (masks s') = m_bIsInInitialize (masks s);
  ev_mask : includes (m_dwEventMask (masks s')) (m_dwEventMask (masks s)) /\ includes (m_dwEventMaskHigh (masks s')) (m_dwEventMaskHigh (masks s));
  ev_frozen : m_bIsInInitialize (masks s) = false -> immutable_bits s' = immutable_bits s;
  ev_guids : guids_of s' = guids_of s
}.

#[export] Instance evolves_preorder : PreOrder evolves.
Proof.
  split; [intros s; split; auto using includes_refl; reflexivity|].
  intros s1 s2 s3 [I1 C1 M1 P1 [E1 F1] Z1 G1] [I2 C2 M2 P2 [E2 F2] Z2 G2]. split; [auto|lia| |congruence| | |congruence].
  - intros a [Ha|Ha]%M2; [by apply M1|right; lia].
  - split; by eapply includes_trans.
  - intros E. by rewrite Z2, Z1 by congruence.
Qed.

(** A change of other members *)
Lemma evolves_same s s' :
  masks s' = masks s -> accepted_of s' = accepted_of s -> loaded s' = loaded s -> evolves s s'.
Proof.
  intros E1 E2 E3. split; rewrite ?E1, ?E3; auto using includes_refl; try reflexivity.
  - intros []. split; by rewrite ?E1, ?E2, ?E3.
  - unfold immutable_bits. by rewrite E1.
Qed.

(** A change of the flags of the phase of a method *)
Lemma evolves_masks s f :
  m_dwEventMask (f (masks s)) = m_dwEventMask (masks s) -> m_dwEventMaskHigh (f (masks s)) = m_dwEventMaskHigh (masks s) ->
  m_bIsInInitialize (f (masks s)) = m_bIsInInitialize (masks s) -> evolves s (on_masks f s).
Proof.
  intros E1 E2 E3. split; cbn; rewrite ?E1, ?E2, ?E3; auto using includes_refl; try reflexivity.
  - intros []. split; cbn; by rewrite ?E1.
  - unfold immutable_bits. cbn. by rewrite E1, E2.
Qed.

Section Pres.
Context {S : Type} (R : S -> S -> Prop) `{!PreOrder R}.

#[export] Instance pres_finally {A} (m : M S A) c : Preserves R m -> Preserves R c -> Preserves R (finally m c).
Proof.
  intros Hm Hc s. specialize (Hm s). unfold finally. destruct (m s) as [[a|hr|u|] s1]; try done; cbn in *;
    specialize (Hc s1); destruct (c s1) as [[] ?]; cbn in *; by etrans.
Qed.

#[export] Instance pres_try {A} (m : M S A) : Preserves R m -> Preserves R (try m).
Proof. intros Hm s. specialize (Hm s). unfold try. by destruct (m s) as [[] ?]. Qed.

Lemma pres_for_each {A} (f : A -> M S unit) l : (forall x, Preserves R (f x)) -> Preserves R (for_each f l).
Proof. intros Hf. induction l as [|x l IH]; cbn [for_each]; [apply _|]. by apply pres_bind; [apply _|..]. Qed.

#[export] Instance pres_gets {A} (f : S -> A) : Preserves R (gets f).
Proof. intros s. cbn. reflexivity. Qed.

End Pres.

Section Spec.
Context `{UnorderedMap} (env : Environment) (host : Host) (os : Proxy.Windows) (loader : Loader) (clr : Clr).

Instance in_log_evolves {A} (m : M CLogging A) : Preserves evolves (in_log m).
Proof. intros s. unfold in_log. destruct (m (log s)). cbn. by apply evolves_same. Qed.

Lemma modify_same f : (forall s, masks (f s) = masks s /\ accepted_of (f s) = accepted_of s /\ loaded (f s) = loaded s) -> Preserves evolves (modify f).
Proof. intros Hf. apply pres_modify. intros s. destruct (Hf s) as (? & ? & ?). by apply evolves_same. Qed.

Lemma initializing_method_evolves {A} (m : P A) : Preserves evolves m -> Preserves evolves (initializing_method m).
Proof. intros Hm. unfold initializing_method. apply pres_finally; [apply _|apply pres_bind; [apply _| |done]|]; apply pres_modify; intros s; by apply evolves_masks. Qed.

Lemma CalculateEventMask_includes v s : includes (CalculateEventMask v s) (m_dwEventMask (masks s)).
Proof.
  unfold CalculateEventMask. generalize (includes_lor (m_dwEventMask (masks s)) v).
  generalize (Z.lor (m_dwEventMask (masks s)) v). induction (methods_of s) as [|a l IH]; intros z Hz; cbn [foldl]; [done|].
  by apply IH, includes_lor_l.
Qed.

#[export] Instance give_mask_evolves v : Preserves evolves (give_mask clr v).
Proof.
  unfold give_mask. intros s. cbn [bind gets id]. unfold bind, gets, id. case_match; [|cbn; reflexivity].
  unfold if_fail_ret. destruct (FAILED _); [reflexivity|]. cbn [ret modify snd]. split; auto using includes_refl; cbn; try reflexivity.
  intros []. split; auto. cbn. apply Forall_app. split; [done|]. constructor; [|done]. cbn.
  eapply includes_trans; [apply CalculateEventMask_includes|done].
Qed.

(** A bitwise or to a mask in a phase that allows it *)
Lemma or_mask_evolves s v :
  m_bIsInInitialize (masks s) = true \/ Z.land v COR_PRF_MONITOR_IMMUTABLE = Z.land (m_dwEventMask (masks s)) COR_PRF_MONITOR_IMMUTABLE ->
  evolves s (on_masks (or_mask v) s).
Proof.
  intros Hv. split; cbn; auto using includes_refl, includes_lor; try reflexivity.
  - intros []. split; auto. cbn. by apply includes_lor_l.
  - intros E. destruct Hv as [?|Hv]; [congruence|]. unfold immutable_bits. cbn. by rewrite frozen_lor.
Qed.

Lemma or_mask_high_evolves s v :
  m_bIsInInitialize (masks s) = true \/ Z.land v COR_PRF_HIGH_MONITOR_IMMUTABLE = Z.land (m_dwEventMaskHigh (masks s)) COR_PRF_HIGH_MONITOR_IMMUTABLE ->
  evolves s (on_masks (or_mask_high v) s).
Proof.
  intros Hv. split; cbn; auto using includes_refl, includes_lor; try reflexivity.
  - intros []. split; auto.
  - intros E. destruct Hv as [?|Hv]; [congruence|]. unfold immutable_bits. cbn. by rewrite frozen_lor.
Qed.

#[export] Instance SetEventMask_evolves v : Preserves evolves (SetEventMask clr v).
Proof.
  intros s. unfold SetEventMask, bind at 1, gets.
  destruct (m_bIsInitializingInstrumentationMethod (masks s)) eqn:E1; [|destruct (m_bIsInInitialize (masks s)) eqn:E2; [|destruct (Z.eqb_spec (Z.land v COR_PRF_MONITOR_IMMUTABLE) (Z.land (m_dwEventMask (masks s)) COR_PRF_MONITOR_IMMUTABLE)) as [E3|]; [|cbn; reflexivity]]].
  - etrans; [|apply (give_mask_evolves v)]. by apply evolves_masks.
  - etrans; [|apply (give_mask_evolves 0)]. apply or_mask_evolves. by left.
  - etrans; [|apply (give_mask_evolves 0)]. apply or_mask_evolves. by right.
Qed.

#[export] Instance SetEventMask2_evolves v w : Preserves evolves (SetEventMask2 clr v w).
Proof.
  intros s. unfold SetEventMask2, bind at 1, gets.
  destruct (m_bIsInInitialize (masks s)) eqn:E2; [|destruct (Z.eqb_spec (Z.land w COR_PRF_HIGH_MONITOR_IMMUTABLE) (Z.land (m_dwEventMaskHigh (masks s)) COR_PRF_HIGH_MONITOR_IMMUTABLE)) as [E3|]; [|cbn; reflexivity]].
  - etrans; [|apply (SetEventMask_evolves v)]. apply or_mask_high_evolves. by left.
  - etrans; [|apply (SetEventMask_evolves v)]. apply or_mask_high_evolves. by right.
Qed.

#[export] Instance AddRawProfilerHook_evolves p : Preserves evolves (AddRawProfilerHook p).
Proof. unfold AddRawProfilerHook. pres. by apply modify_same. Qed.

#[export] Instance RemoveRawProfilerHook_evolves : Preserves evolves RemoveRawProfilerHook.
Proof. by apply modify_same. Qed.

Lemma happens_evolves h : Preserves evolves (modify (happens h)).
Proof. by apply modify_same. Qed.

Lemma win32_error_evolves {A} e : Preserves evolves (@win32_error A e).
Proof. unfold win32_error. pres. Qed.

(** ** Methods *)

Lemma take_method_split p l a l' : take_method p l = Some (a, l') -> instance a = p /\ l ≡ₚ a :: l' /\ l' `sublist_of` l.
Proof.
  revert l'. induction l as [|x l IH]; intros l'; cbn [take_method]; [done|]. destruct (Z.eqb_spec (instance x) p).
  - intros [= -> ->]. split_and!; [done|done|by apply sublist_cons].
  - destruct (take_method p l) as [[b k]|]; [|done]. intros [= -> <-]. destruct (IH k eq_refl) as (? & Hp & Hs).
    split_and!; [done| |by apply sublist_skip]. rewrite Hp. apply Permutation_swap.
Qed.

Lemma StronglySorted_sublist {A} (R : A -> A -> Prop) l l' : l' `sublist_of` l -> StronglySorted R l -> StronglySorted R l'.
Proof.
  induction 1 as [|x l1 l2 Hs IH|x l1 l2 Hs IH]; intros Hl; [done| |]; apply StronglySorted_inv in Hl as [Hl Hx]; [|auto].
  constructor; [auto|]. rewrite Forall_forall in Hx |- *. intros y Hy. apply Hx. by eapply elem_of_sublist.
Qed.

Lemma map_sublist {A B} (f : A -> B) l l' : l' `sublist_of` l -> map f l' `sublist_of` map f l.
Proof. induction 1; cbn; by constructor. Qed.

(** Methods are taken away. *)
Lemma remove_evolves s l : l `sublist_of` methods_of s -> evolves s (set_methods l s).
Proof.
  intros Hs. split; cbn; auto using includes_refl; try reflexivity.
  - intros []. split; auto; cbn.
    + by apply (StronglySorted_sublist _ (methods_of s)).
    + apply (sublist_NoDup _ (map instance (methods_of s))); [done|]. by apply map_sublist.
    + rewrite Forall_forall in *. intros a Ha. apply inv_fresh0. by eapply elem_of_sublist.
  - intros a Ha. left. by eapply elem_of_sublist.
Qed.

#[export] Instance RemoveInstrumentationMethod_evolves p : Preserves evolves (RemoveInstrumentationMethod clr p).
Proof.
  unfold RemoveInstrumentationMethod. apply pres_bind; [apply _..|]. intros q s. cbn [bind gets id]. unfold bind at 1, gets, id.
  destruct (take_method q (methods_of s)) as [[a others]|] eqn:E; [|cbn; reflexivity].
  apply take_method_split in E as (_ & _ & Hs). etrans; [by apply (remove_evolves s others)|].
  unfold bind, modify. generalize (set_methods others s). change (Preserves evolves (if dwFlags a =? 0 then ret () else initializing_method (attempt (SetEventMask clr 0) ;;; ret tt))).
  destruct (dwFlags a =? 0); [apply _|]. apply initializing_method_evolves. apply _.
Qed.

(** What stays true *)
Definition stable (Pre : CProfilerManager -> Prop) : Prop := forall s s', evolves s s' -> Pre s -> Pre s'.

(** The calls start in a state of [n] instances, in which the invariant holds if [G]. *)
Section Since.
Context (G : Prop) (n : Z).

Definition since (s : CProfilerManager) : Prop := n <= instances_of s /\ (G -> Inv s).

(** A pointer that was given to an instance since and is not in use *)
Definition created (p : Z) (s : CProfilerManager) : Prop :=
  n <= p < instances_of s /\ (G -> Forall (fun a => instance a <> p) (methods_of s)).

Lemma since_stable : stable since.
Proof. intros s s' He [Hn Hi]. split; [pose proof (ev_instances _ _ He); lia|]. intros HG. by apply (ev_inv _ _ He), Hi. Qed.

Lemma created_stable p : stable (created p).
Proof.
  intros s s' He [Hp Hf]. split; [pose proof (ev_instances _ _ He); lia|]. intros HG. specialize (Hf HG). rewrite Forall_forall in *.
  intros a [Ha|Ha]%(ev_methods _ _ He); [by apply Hf|lia].
Qed.

(** A computation that evolves, with what holds of its result *)
Definition triple {A} (Pre : CProfilerManager -> Prop) (m : P A) (Q : A -> CProfilerManager -> Prop) : Prop :=
  forall s, Pre s -> evolves s (m s).2 /\ forall a, (m s).1 = Ok a -> Q a (m s).2.

Lemma triple_bind {A B} Pre (m : P A) (f : A -> P B) Q R : triple Pre m Q -> (forall a, triple (Q a) (f a) R) -> triple Pre (bind m f) R.
Proof.
  intros Hm Hf s Hp. destruct (Hm s Hp) as [He Hq]. unfold bind. destruct (m s) as [[a|hr|u|] s1]; cbn in *; try done.
  destruct (Hf a s1 (Hq a eq_refl)) as [He2 Hr]. split; [by etrans|done].
Qed.

Lemma triple_keep {A} Pre (m : P A) : stable Pre -> Preserves evolves m -> triple Pre m (fun _ => Pre).
Proof. intros Hs Hm s Hp. specialize (Hm s). split; [done|]. intros a _. by eapply Hs. Qed.

Lemma triple_ret {A} (a : A) (Q : A -> CProfilerManager -> Prop) : triple (Q a) (ret a) Q.
Proof. intros s Hq. split; [cbn; reflexivity|]. by intros b [= <-]. Qed.

Lemma triple_try {A} Pre (m : P A) Q : triple Pre m Q -> triple Pre (try m) (fun r s => match r with inr a => Q a s | inl _ => True end).
Proof.
  intros Hm s Hp. destruct (Hm s Hp) as [He Hq]. unfold try. destruct (m s) as [[a|hr|u|] s1]; cbn in *; (split; [done|]); try done.
  - intros ? [= <-]. by apply Hq.
  - by intros ? [= <-].
Qed.

Lemma triple_finally {A} Pre (m : P A) c Q :
  triple Pre m Q -> (forall a, stable (Q a)) -> Preserves evolves c -> triple Pre (finally m c) Q.
Proof.
  intros Hm Hq Hc s Hp. destruct (Hm s Hp) as [He Ha]. unfold finally. destruct (m s) as [[a|hr|u|] s1]; cbn in *; try done;
    specialize (Hc s1); destruct (c s1) as [[] s2]; cbn in *; (split; [by etrans|]); try done.
  intros ? [= <-]. eapply Hq; [done|]. by apply Ha.
Qed.

Lemma triple_fail {A} Pre hr (Q : A -> CProfilerManager -> Prop) : triple Pre (fail hr) Q.
Proof. intros s _. split; [cbn; reflexivity|done]. Qed.

Lemma new_instance s : since s ->
  evolves s (set_instances (instances_of s + 1) s) /\ created (instances_of s) (set_instances (instances_of s + 1) s).
Proof.
  intros [Hn Hi]. split.
  - split; cbn; auto using includes_refl; try reflexivity; [|lia]. intros []. split; auto; cbn.
    eapply Forall_impl; [done|]. cbn. lia.
  - split; cbn; [lia|]. intros HG. eapply Forall_impl; [apply (inv_fresh _ (Hi HG))|]. cbn. lia.
Qed.

Ltac kept := apply triple_keep; [solve [apply since_stable|apply created_stable]|].

Lemma InitializeInstance_created im validate :
  triple since (InitializeInstance os loader im validate) (fun r => created r.1).
Proof.
  unfold InitializeInstance.
  eapply triple_bind; [kept; apply _|intros ?]. eapply triple_bind; [kept; apply _|intros ?]. eapply triple_bind; [kept; apply _|intros path].
  eapply triple_bind; [kept; case_match; [apply win32_error_evolves|apply _]|intros lib].
  eapply triple_bind; [kept; apply happens_evolves|intros ?].
  destruct (validate && negb (VerifyEmbeddedSignature lib)).
  { eapply triple_bind; [kept; apply happens_evolves|intros ?; apply triple_fail]. }
  destruct (GetProcAddressError lib) as [e|].
  { eapply triple_bind; [kept; apply happens_evolves|intros ?]. unfold win32_error. destruct (e =? 0); [|apply triple_fail].
    intros s _. split; [cbn; reflexivity|done]. }
  intros s Hn. unfold bind at 1, gets, id. unfold bind, lift. destruct (CreateInstance lib _ _) as [plugin|hr|u|]; cbn; try (split; [reflexivity|done]).
  destruct (new_instance s Hn) as [He Hc]. split; [done|]. by intros ? [= <-].
Qed.

Section Perform.
Context (add : CInstrumentationMethod -> list (wstr * wstr) -> P Z) (Hadd : forall im settings, Preserves evolves (add im settings)).

Lemma perform_evolves im c : Preserves evolves (perform env host clr add im c).
Proof.
  destruct c; cbn [perform]; [apply _|apply _|by apply modify_same|apply _|apply _| |apply _|apply _|apply _|by apply modify_same].
  apply pres_bind; [apply _..|]. intros guid. apply pres_bind; [apply _|apply Hadd|apply _].
Qed.

Lemma run_plugin_evolves im script : Preserves evolves (run_plugin (perform env host clr add im) script).
Proof.
  unfold run_plugin. apply pres_bind; [apply _| |intros; unfold if_fail_ret; pres].
  apply pres_for_each; [apply _|]. intros c. apply pres_bind; [apply _|apply pres_attempt, perform_evolves|apply _].
Qed.

Lemma InitializeMethod_created imlog im validate :
  triple since (InitializeMethod os loader (perform env host clr add imlog) im validate) created.
Proof.
  unfold InitializeMethod. eapply triple_bind; [apply InitializeInstance_created|]. intros [p plugin]. cbn [fst].
  eapply triple_bind; [kept; apply happens_evolves|intros ?].
  eapply triple_bind; [kept; apply run_plugin_evolves|intros ?]. exact (triple_ret p created).
Qed.

Lemma InitializeMethodForAttach_created imlog im settings validate :
  triple since (InitializeMethodForAttach os loader (perform env host clr add imlog) im settings validate) created.
Proof.
  unfold InitializeMethodForAttach. eapply triple_bind; [apply InitializeInstance_created|]. intros [p plugin]. cbn [fst].
  eapply triple_bind; [kept; apply _|intros script].
  eapply triple_bind; [kept; apply happens_evolves|intros ?].
  eapply triple_bind; [kept; apply run_plugin_evolves|intros ?]. exact (triple_ret p created).
Qed.

(** The part of [AddInstrumentationMethod] in which the method is initialised *)
Lemma add_body_created im settings :
  triple since (initializing_method (
    imlog <- in_log (add_method_log env (m_guidClassId im)) ;;
    s <- gets switches ;;
    let perform := perform env host clr add imlog in
    r <- try (if m_bAttach s then InitializeMethodForAttach os loader perform im settings (m_bValidateCodeSignature s)
              else InitializeMethod os loader perform im (m_bValidateCodeSignature s)) ;;
    m <- gets masks ;;
    ret (r, m_dwInstrumentationMethodFlags m)))
  (fun r s => match r.1 with inr p => created p s | inl _ => True end).
Proof.
  unfold initializing_method. apply triple_finally; [|by intros [[] ?]; [|apply created_stable]|apply pres_modify; intros s; by apply evolves_masks].
  eapply triple_bind; [kept; apply pres_modify; intros s; by apply evolves_masks|intros ?].
  eapply triple_bind; [kept; apply _|intros imlog]. eapply triple_bind; [kept; apply _|intros sw]. cbv zeta.
  eapply triple_bind.
  - apply triple_try. destruct (m_bAttach sw); [apply InitializeMethodForAttach_created|apply InitializeMethod_created].
  - intros r. eapply triple_bind; [apply triple_keep; [by destruct r; [|apply created_stable]|apply _]|intros m].
    exact (triple_ret (r, m_dwInstrumentationMethodFlags m) (fun r s => match r.1 with inr p => created p s | inl _ => True end)).
Qed.

End Perform.

End Since.

(** ** Adding methods *)

Lemma insert_method_perm a l : insert_method a l ≡ₚ a :: l.
Proof.
  induction l as [|x l IH]; cbn [insert_method]; [done|]. destruct (_ <? _); [done|]. rewrite IH. apply Permutation_swap.
Qed.

Lemma insert_method_sorted a l : StronglySorted earlier l -> StronglySorted earlier (insert_method a l).
Proof.
  unfold earlier. induction 1 as [|x l Hl IH Hx]; cbn [insert_method]; [by repeat constructor|].
  destruct (Z.ltb_spec (m_dwPriority (method a)) (m_dwPriority (method x))) as [Hlt|Hge].
  - constructor; [by constructor|]. constructor; [lia|]. eapply Forall_impl; [done|]. cbn. lia.
  - constructor; [done|]. rewrite insert_method_perm. by constructor.
Qed.

Lemma insert_evolves s0 s im p flags :
  evolves s0 s -> created (Inv s0) (instances_of s0) p s -> evolves s0 (on_methods (insert_method (mkAdded im p flags)) s).
Proof.
  intros [I C Me Ph Ma Fr Gu] [Hp Hf]. split; auto.
  - intros Hi. specialize (Hf Hi). destruct (I Hi) as [H1 H2 H3 H4 H5 H6]. split; auto; cbn.
    + by apply insert_method_sorted.
    + rewrite insert_method_perm. cbn. apply NoDup_cons. split; [|done]. rewrite list_elem_of_fmap. intros (b & E & Hb).
      rewrite Forall_forall in Hf. by apply (Hf b Hb).
    + rewrite insert_method_perm. constructor; [cbn; lia|done].
  - intros a. cbn. rewrite insert_method_perm. intros [->|Ha]%elem_of_cons; [right; cbn; lia|by apply Me].
Qed.

Lemma AddInstrumentationMethod_evolves fuel im settings : Preserves evolves (AddInstrumentationMethod env host os loader clr fuel im settings).
Proof.
  revert im settings. induction fuel as [|fuel IH]; intros im settings; cbn [AddInstrumentationMethod]; [apply _|].
  intros s. destruct (add_body_created (Inv s) (instances_of s) _ IH im settings s ltac:(by split)) as [He Hq].
  unfold bind at 1. destruct (initializing_method _ s) as [[[r flags]|hr|u|] s1]; cbn [fst snd] in He, Hq; try done.
  specialize (Hq _ eq_refl). destruct r as [hr|p]; cbn [fst] in Hq; [done|]. cbn [bind modify ret snd]. by apply insert_evolves.
Qed.

(** ** Loading *)

(** What the loading of configurations does: classes are registered. *)
Record advances (s s' : CProfilerManager) : Prop := {
  ad_inv : Inv s -> Inv s';
  ad_phase : m_bIsInInitialize (masks s') = m_bIsInInitialize (masks s);
  ad_mask : includes (m_dwEventMask (masks s')) (m_dwEventMask (masks s)) /\ includes (m_dwEventMaskHigh (masks s')) (m_dwEventMaskHigh (masks s));
  ad_frozen : m_bIsInInitialize (masks s) = false -> immutable_bits s' = immutable_bits s;
  ad_guids : guids_of s `prefix_of` guids_of s'
}.

#[export] Instance advances_preorder : PreOrder advances.
Proof.
  split; [intros s; split; auto using includes_refl; reflexivity|].
  intros s1 s2 s3 [I1 P1 [E1 F1] Z1 G1] [I2 P2 [E2 F2] Z2 G2]. split; [auto|congruence| | |by etrans].
  - split; by eapply includes_trans.
  - intros E. by rewrite Z2, Z1 by congruence.
Qed.

Lemma evolves_advances s s' : evolves s s' -> advances s s'.
Proof. intros [I C Me Ph Ma Fr Gu]. split; auto. by rewrite Gu. Qed.

Lemma evolving {A} (m : P A) : Preserves evolves m -> Preserves advances m.
Proof. intros Hm s. apply evolves_advances, Hm. Qed.

Lemma load_configuration_evolves path : Preserves evolves (load_configuration host path).
Proof. intros s. unfold load_configuration. destruct (LoadConfiguration _ _ _) as [[] l]; cbn; try reflexivity; by apply evolves_same. Qed.

Lemma load_method_advances fuel settings im : Preserves advances (load_method env host os loader clr fuel settings im).
Proof.
  intros s. unfold load_method, IsInstrumentationMethodRegistered, bind at 1, gets. case_bool_decide as Hg; [cbn; reflexivity|].
  pose proof (AddInstrumentationMethod_evolves fuel im settings s) as He. unfold bind, try.
  destruct (AddInstrumentationMethod _ _ _ _ _ fuel im settings s) as [[p|hr|u|] s1]; cbn [snd] in *; try by apply evolves_advances.
  etrans; [by apply evolves_advances|]. split; cbn; auto using includes_refl; try reflexivity; [|by apply prefix_app_r].
  intros []. split; auto; cbn. apply NoDup_app. rewrite <- (ev_guids _ _ He) in Hg. split_and!; [done| |apply NoDup_singleton].
  intros x Hx ->%list_elem_of_singleton. done.
Qed.

Lemma LoadInstrumentationMethods_advances fuel c : Preserves advances (LoadInstrumentationMethods env host os loader clr fuel c).
Proof.
  unfold LoadInstrumentationMethods. apply pres_bind; [apply _..|]. intros ?. apply pres_bind; [apply _|apply evolving, load_configuration_evolves|].
  intros l. apply pres_for_each; [apply _|]. intros im. apply load_method_advances.
Qed.

Lemma InvokeThreadRoutine_evolves (m : P unit) : Preserves evolves m -> Preserves evolves (InvokeThreadRoutine loader m).
Proof.
  intros Hm. unfold InvokeThreadRoutine. apply pres_bind; [apply _..|]. intros ?.
  apply pres_bind; [apply _|by apply modify_same|]. intros ?. apply pres_bind; [apply _..|]. intros ?. destruct (WaitForSingleObject loader); apply _.
Qed.

Lemma InvokeThreadRoutine_advances (m : P unit) : Preserves advances m -> Preserves advances (InvokeThreadRoutine loader m).
Proof.
  intros Hm. unfold InvokeThreadRoutine. apply pres_bind; [apply _..|]. intros ?.
  apply pres_bind; [apply _|apply evolving; by apply modify_same|]. intros ?. apply pres_bind; [apply _..|]. intros ?. destruct (WaitForSingleObject loader); apply _.
Qed.

Lemma InstrumentationMethodThreadProc_advances fuel : Preserves advances (InstrumentationMethodThreadProc env host os loader clr fuel).
Proof.
  unfold InstrumentationMethodThreadProc. apply pres_bind; [apply _..|]. intros ?. apply pres_bind; [apply _..|]. intros s.
  apply pres_for_each; [apply _|]. apply LoadInstrumentationMethods_advances.
Qed.

Lemma ParseAttachConfigurationThreadProc_evolves xml : Preserves evolves (ParseAttachConfigurationThreadProc env host loader xml).
Proof.
  unfold ParseAttachConfigurationThreadProc. apply pres_bind; [apply _..|]. intros ?. apply pres_bind; [apply _..|]. intros s.
  destruct (ParseAttachConfiguration _ _ _) as [r found]. apply pres_bind; [apply _| |intros ?; apply pres_bind; [apply _|by apply modify_same|apply _]].
  apply pres_for_each; [apply _|]. intros c. apply _.
Qed.

Lemma SetupProfilingEnvironment_advances fuel paths : Preserves advances (SetupProfilingEnvironment env host os loader clr fuel paths).
Proof.
  unfold SetupProfilingEnvironment. apply pres_bind; [apply _..|]. intros ps. apply pres_bind; [apply _|apply evolving; by apply modify_same|].
  intros ?. apply InvokeThreadRoutine_advances, InstrumentationMethodThreadProc_advances.
Qed.

Lemma DetermineClrVersion_evolves : Preserves evolves (DetermineClrVersion clr).
Proof.
  unfold DetermineClrVersion. apply pres_bind; [apply _..|]. intros s. destruct (m_pRealProfilerInfo _); [|apply _].
  apply pres_bind; [apply _|by apply modify_same|]. intros ?. repeat case_match; first [by apply modify_same|apply _].
Qed.

Lemma SetupRawProfiler_evolves : Preserves evolves (SetupRawProfiler env host loader).
Proof.
  unfold SetupRawProfiler, LoadRawProfilerHookComponentFrom. apply pres_bind; [apply _..|]. intros [[guid path]|]; [|apply _].
  apply pres_bind; [apply _..|]. intros ?. apply pres_bind; [apply _| |intros ?; apply _].
  apply pres_bind; [apply _|repeat case_match; first [apply win32_error_evolves|apply _]|]. intros lib.
  apply pres_bind; [apply _..|]. intros s. apply pres_bind; [apply _|case_match; first [apply happens_evolves|apply _]|]. intros ?.
  apply pres_bind; [apply _|apply happens_evolves|]. intros ?. apply pres_bind; [apply _|by apply modify_same|]. intros ?.
  case_match; first [apply win32_error_evolves|apply _].
Qed.

Lemma InitializeCore_advances fuel info : Preserves advances (InitializeCore env host os loader clr fuel info).
Proof.
  unfold InitializeCore. do 2 (apply pres_bind; [apply _..|]; intros ?).
  apply pres_bind; [apply _|apply evolving; by apply modify_same|]. intros ?.
  apply pres_bind; [apply _|apply evolving, DetermineClrVersion_evolves|]. intros ?.
  apply pres_bind; [apply _..|]. intros m. apply pres_bind; [apply _|apply evolving, SetEventMask_evolves|]. intros ?.
  apply pres_bind; [apply _..|]. intros s. apply pres_bind; [apply _| |intros ?; apply evolving, SetupRawProfiler_evolves].
  destruct (m_configSources s); [apply _|apply InvokeThreadRoutine_advances, InstrumentationMethodThreadProc_advances].
Qed.

(** ** Phases *)

Notation initializing s := (m_bIsInitializingInstrumentationMethod (masks s)).

(** Outside of the initialisation of a method, and left there by code that returns *)
Class Quiet {A} (m : P A) : Prop := quiet : forall s, initializing s = false -> returns (m s).1 -> initializing (m s).2 = false.

#[export] Instance quiet_keep {A} (m : P A) : (forall s, masks (m s).2 = masks s) -> Quiet m | 100.
Proof. intros Hm s Hs _. by rewrite Hm. Qed.

#[export] Instance quiet_bind {A B} (m : P A) (f : A -> P B) : Quiet m -> (forall a, Quiet (f a)) -> Quiet (bind m f).
Proof.
  intros Hm Hf s Hs. specialize (Hm s Hs). unfold bind. destruct (m s) as [[a|hr|u|] s1]; cbn in *; try done.
  apply Hf. by apply Hm.
Qed.

#[export] Instance quiet_attempt {A} (m : P A) : Quiet m -> Quiet (attempt m).
Proof. intros Hm s Hs. specialize (Hm s Hs). unfold attempt. by destruct (m s) as [[] ?]; cbn in *; auto. Qed.

#[export] Instance quiet_try {A} (m : P A) : Quiet m -> Quiet (try m).
Proof. intros Hm s Hs. specialize (Hm s Hs). unfold try. by destruct (m s) as [[] ?]; cbn in *; auto. Qed.

Lemma quiet_for_each {A} (f : A -> P unit) l : (forall x, Quiet (f x)) -> Quiet (for_each f l).
Proof. intros Hf. induction l as [|x l IH]; cbn [for_each]; [by apply quiet_keep|]. by apply quiet_bind. Qed.

Lemma quiet_modify f : (forall s, initializing (f s) = initializing s) -> Quiet (modify f).
Proof. intros Hf s Hs _. cbn. by rewrite Hf. Qed.

Lemma in_log_masks {A} (m : M CLogging A) s : masks (in_log m s).2 = masks s.
Proof. unfold in_log. by destruct (m (log s)). Qed.

Lemma initializing_method_quiet {A} (m : P A) : Quiet (initializing_method m).
Proof.
  intros s _. unfold initializing_method, finally. destruct (bind _ _ s) as [[] s1]; cbn; try done.
Qed.

Lemma masks_kept {A} (m : P A) : Preserves (fun s s' => masks s' = masks s) m -> Quiet m.
Proof. intros Hm. apply quiet_keep. apply Hm. Qed.

#[export] Instance same_masks_preorder : PreOrder (fun s s' : CProfilerManager => masks s' = masks s).
Proof. split; [by intros s|intros s1 s2 s3 E1 E2; congruence]. Qed.

Lemma InvokeThreadRoutine_masks (m : P unit) :
  Preserves (fun s s' => masks s' = masks s) m -> Preserves (fun s s' => masks s' = masks s) (InvokeThreadRoutine loader m).
Proof.
  intros Hm. unfold InvokeThreadRoutine. apply pres_bind; [apply _..|]. intros ?. apply pres_bind; [apply _|by apply pres_modify|]. intros ?.
  apply pres_bind; [apply _..|]. intros ?. destruct (WaitForSingleObject loader); apply _.
Qed.

Lemma ParseAttachConfigurationThreadProc_masks xml :
  Preserves (fun s s' => masks s' = masks s) (ParseAttachConfigurationThreadProc env host loader xml).
Proof.
  unfold ParseAttachConfigurationThreadProc. apply pres_bind; [apply _..|]. intros ?. apply pres_bind; [apply _..|]. intros s.
  destruct (ParseAttachConfiguration _ _ _) as [r found]. apply pres_bind; [apply _| |intros ?; apply pres_bind; [apply _|by apply pres_modify|apply _]].
  apply pres_for_each; [apply _|]. intros c. apply pres_bind; [apply _|apply pres_attempt|apply _]. intros st. apply in_log_masks.
Qed.

Lemma AddInstrumentationMethod_quiet fuel im settings : Quiet (AddInstrumentationMethod env host os loader clr fuel im settings).
Proof.
  destruct fuel as [|fuel]; cbn [AddInstrumentationMethod]; [by apply quiet_keep|]. apply quiet_bind; [apply initializing_method_quiet|].
  intros [[hr|p] flags]; [by apply quiet_keep|]. apply quiet_bind; [by apply quiet_modify|intros ?; by apply quiet_keep].
Qed.

Lemma LoadInstrumentationMethods_quiet fuel c : Quiet (LoadInstrumentationMethods env host os loader clr fuel c).
Proof.
  unfold LoadInstrumentationMethods. apply quiet_bind; [apply masks_kept, _|intros ?]. apply quiet_bind.
  - apply quiet_keep. intros s. unfold load_configuration. by destruct (LoadConfiguration _ _ _) as [[] ?].
  - intros l. apply quiet_for_each. intros im. unfold load_method, IsInstrumentationMethodRegistered. apply quiet_bind; [apply masks_kept, _|intros b].
    destruct b; [apply masks_kept, _|]. apply quiet_bind; [apply quiet_try, AddInstrumentationMethod_quiet|].
    intros [hr|q]; [apply masks_kept, _|by apply quiet_modify].
Qed.

Lemma InvokeThreadRoutine_quiet m : Quiet m -> Quiet (InvokeThreadRoutine loader m).
Proof.
  intros Hm. unfold InvokeThreadRoutine. apply quiet_bind; [apply masks_kept, _|intros ?]. apply quiet_bind; [by apply quiet_modify|intros ?].
  apply quiet_bind; [by apply quiet_attempt|intros ?]. destruct (WaitForSingleObject loader); apply masks_kept, _.
Qed.

Lemma SetEventMask_quiet v : Quiet (SetEventMask clr v).
Proof.
  unfold SetEventMask. apply quiet_bind; [apply masks_kept, _|intros m]. apply quiet_bind.
  - repeat case_match; first [apply quiet_bind; [by apply quiet_modify|intros ?; apply masks_kept, _]|apply masks_kept, _].
  - intros w. apply masks_kept. unfold give_mask. apply pres_bind; [apply _..|]. intros s. case_match; [|apply _].
    apply pres_bind; [apply _|unfold if_fail_ret; case_match; apply _|intros ?; by apply pres_modify].
Qed.

Lemma InitializeCore_quiet fuel info : Quiet (InitializeCore env host os loader clr fuel info).
Proof.
  unfold InitializeCore. do 2 (apply quiet_bind; [apply masks_kept, _|intros ?]). apply quiet_bind; [by apply quiet_modify|intros ?].
  apply quiet_bind.
  { unfold DetermineClrVersion. apply quiet_bind; [apply masks_kept, _|intros s]. case_match; [|apply masks_kept, _].
    apply quiet_bind; [by apply quiet_modify|intros ?]. repeat case_match; first [by apply quiet_modify|apply masks_kept, _]. }
  intros ?. apply quiet_bind; [apply masks_kept, _|intros m]. apply quiet_bind; [apply SetEventMask_quiet|intros ?].
  apply quiet_bind; [apply masks_kept, _|intros s]. apply quiet_bind.
  { destruct (m_configSources s); [apply masks_kept, _|]. apply InvokeThreadRoutine_quiet. unfold InstrumentationMethodThreadProc.
    apply quiet_bind; [apply masks_kept, _|intros ?]. apply quiet_bind; [apply masks_kept, _|intros st]. apply quiet_for_each, LoadInstrumentationMethods_quiet. }
  intros ?. apply masks_kept. unfold SetupRawProfiler, LoadRawProfilerHookComponentFrom, AddRawProfilerHook, win32_error.
  repeat first [apply _ | by apply pres_modify | apply pres_bind; [apply _| |intros ?] | case_match].
Qed.

Definition idle (s : CProfilerManager) : Prop := m_bIsInInitialize (masks s) = false /\ initializing s = false.

Lemma phase_inv b s : Inv s -> Inv (on_masks (SetIsInInitialize b) s).
Proof. intros []. by split. Qed.

(** The body of an initialisation, between its two flags *)
Lemma in_initialize_run {A} (m : P A) s :
  Preserves advances m -> Quiet m -> Inv s -> initializing s = false ->
  Inv (in_initialize m s).2 /\ (returns (in_initialize m s).1 -> idle (in_initialize m s).2).
Proof.
  intros Ha Hq Hi Hs. unfold in_initialize, finally, bind, modify. specialize (Ha (on_masks (SetIsInInitialize true) s)).
  specialize (Hq (on_masks (SetIsInInitialize true) s) Hs). pose proof (ad_inv _ _ Ha (phase_inv true s Hi)) as Hi'.
  destruct (m _) as [[a|hr|u|] s1]; cbn [fst snd] in *; try done; (split; [by apply phase_inv|]); intros _; (split; [done|]); by apply Hq.
Qed.

(** ** Start-ups *)

Lemma new_manager_inv l s : new_manager env l = Ok s -> Inv s /\ idle s.
Proof.
  unfold new_manager. destruct (read_variable _ _) as [v| | |]; cbn; try done. intros [= <-]. split; [|done].
  split; cbn; constructor.
Qed.

(** A start with the runtime, or by an attach with data *)
Inductive Start := AtLaunch (RawInitialize : Z -> HRESULT) | AtAttach (clientData : option (list Z)).

Definition startup (fuel : nat) (start : Start) (info : bool) : P unit :=
  match start with
  | AtLaunch RawInitialize => Startup.Initialize env host os loader clr fuel RawInitialize info
  | AtAttach data => InitializeForAttach env host os loader clr fuel info data
  end.

Lemma startup_body fuel (k : P unit) info :
  Preserves advances k -> Quiet k ->
  Preserves advances (InitializeCore env host os loader clr fuel info ;;; cancel_if_disabled ;;; k) /\
  Quiet (InitializeCore env host os loader clr fuel info ;;; cancel_if_disabled ;;; k).
Proof.
  intros Hk Hq. unfold cancel_if_disabled. split.
  - apply pres_bind; [apply _|apply InitializeCore_advances|intros ?]. apply pres_bind; [apply _|apply _|done].
  - apply quiet_bind; [apply InitializeCore_quiet|intros ?]. apply quiet_bind; [apply masks_kept, _|done].
Qed.

Lemma before_initialize {A} (m : P A) (k : A -> P unit) s :
  Preserves evolves m -> Preserves (fun s s' => masks s' = masks s) m -> Inv s -> idle s ->
  (forall a s1, Inv s1 -> idle s1 -> Inv (k a s1).2 /\ (returns (k a s1).1 -> idle (k a s1).2)) ->
  Inv (bind m k s).2 /\ (returns (bind m k s).1 -> idle (bind m k s).2).
Proof.
  intros He Hm Hi Hs Hk. specialize (He s). specialize (Hm s). unfold bind. destruct (m s) as [[a|hr|u|] s1]; cbn in *;
    (assert (idle s1) as Hs1 by (unfold idle; by rewrite Hm)); pose proof (ev_inv _ _ He Hi); auto.
Qed.

Lemma startup_runs fuel start info s :
  Inv s -> idle s -> Inv (startup fuel start info s).2 /\ (returns (startup fuel start info s).1 -> idle (startup fuel start info s).2).
Proof.
  intros Hi Hs. destruct start as [RawInitialize|data]; cbn [startup].
  - unfold Startup.Initialize. apply before_initialize; [apply _|apply _|done|done|]. clear dependent s. intros s0 s Hi Hs.
    apply before_initialize; [apply _|apply _|done|done|]. clear dependent s. intros l s Hi Hs.
    apply before_initialize; [by apply modify_same|by apply pres_modify|done|done|]. clear dependent s. intros ? s Hi Hs.
    apply before_initialize; [| |done|done|].
    { destruct l; [|apply _]. apply pres_bind; [apply _..|intros ?; by apply modify_same]. }
    { destruct l; [|apply _]. apply pres_bind; [apply _..|intros ?; by apply pres_modify]. }
    clear dependent s. intros ? s Hi [_ Hs]. unfold raw_callback.
    apply in_initialize_run; [| |done|done]; apply startup_body.
    all: try (apply evolving).
    all: repeat first [apply _ | by apply masks_kept, _ | by apply modify_same | by apply quiet_modify | apply quiet_bind; [|intros ?] | apply pres_bind; [apply _| |intros ?] | case_match].
  - unfold InitializeForAttach. apply before_initialize; [by apply modify_same|by apply pres_modify|done|done|]. clear dependent s. intros ? s Hi Hs.
    destruct data as [[|b data]|]; [split; [done|by intros _]| |split; [done|by intros _]].
    destruct (Convert _ _) as [hr xml].
    apply before_initialize; [unfold if_fail_ret; case_match; apply _|unfold if_fail_ret; case_match; apply _|done|done|]. clear dependent s. intros ? s Hi Hs.
    apply before_initialize; [| |done|done|].
    { apply InvokeThreadRoutine_evolves, ParseAttachConfigurationThreadProc_evolves. }
    { apply InvokeThreadRoutine_masks, ParseAttachConfigurationThreadProc_masks. }
    clear dependent s. intros ? s Hi [_ Hs]. unfold raw_callback.
    apply in_initialize_run; [| |done|done]; apply startup_body.
    all: try (apply evolving).
    all: repeat first [apply _ | by apply masks_kept, _ | by apply modify_same | by apply quiet_modify | apply quiet_bind; [|intros ?] | apply pres_bind; [apply _| |intros ?] | case_match].
Qed.


(** The calls of plug-ins after the start-up, each with the logging of its plug-in *)
Definition calls (fuel : nat) (cs : list (MethodLog * PluginCall)) (s : CProfilerManager) : CProfilerManager :=
  foldl (fun s c => (perform env host clr (AddInstrumentationMethod env host os loader clr fuel) c.1 c.2 s).2) s cs.

Lemma calls_evolve fuel cs s : evolves s (calls fuel cs s).
Proof.
  revert s. induction cs as [|c cs IH]; intros s; cbn [calls foldl]; [reflexivity|]. etrans; [|apply IH].
  apply perform_evolves. apply AddInstrumentationMethod_evolves.
Qed.

(** C19: After the start-up no sequence of calls of plug-ins changes a bit of the event masks
    of the engine that the runtime declares immutable, nor clears any other, and no
    call registers a class; the invariant stays. *)
Theorem event_mask_frozen fuel cs s :
  m_bIsInInitialize (masks s) = false -> Inv s ->
  let s' := calls fuel cs s in
  immutable_bits s' = immutable_bits s /\
  includes (m_dwEventMask (masks s')) (m_dwEventMask (masks s)) /\ includes (m_dwEventMaskHigh (masks s')) (m_dwEventMaskHigh (masks s)) /\
  Inv s' /\ guids_of s' = guids_of s.
Proof.
  intros Hp Hi s'. destruct (calls_evolve fuel cs s) as [I C Me Ph [Ma Mh] Fr Gu]. split_and!; auto.
Qed.

(** ** The interfaces of the raw profiler *)

(** The raw profiler is called through every version of the interface up to the newest
    that it has, by the pointer of the newest, and through no other. *)
Theorem raw_profiler_interfaces (query : RawProfiler) top p :
  1 <= top <= 7 -> query top = Some p -> (forall v, top < v <= 7 -> query v = None) ->
  forall v, GetMemberForInterface v (new_holder query) = if (1 <=? v) && (v <=? top) then Some p else None.
Proof.
  intros Ht Hq Hn v. unfold GetMemberForInterface.
  assert (top = 1 \/ top = 2 \/ top = 3 \/ top = 4 \/ top = 5 \/ top = 6 \/ top = 7) as Hc by lia.
  destruct Hc as [->|[->|[->|[->|[->|[->| ->]]]]]]; unfold new_holder; repeat (rewrite Hn by lia); rewrite Hq; cbn;
    repeat match goal with |- context [v =? ?k] => destruct (Z.eqb_spec v k) as [->|]; [done|] end;
    destruct (Z.leb_spec 1 v), (Z.leb_spec v 7); cbn; try lia; repeat case_match; try done; lia.
Qed.

End Spec.

(** ** A start-up

    The configuration names the classes 4 and 5.  Class 5 asks for events and then adds the
    class 3; every class is one library. *)
#[local] Instance listed_methods : UnorderedMap.
Proof. by refine {| items _ _ _ _ m := map_to_list m |}. Defined.

Definition demo_env : Environment :=
  mkEnvironment (fun _ => None) None None None None (fun p => ([], [], p, [])) (fun _ _ p _ => p) (fun _ => Some 0) (fun _ => true) (wide "7") (fun _ => []) id.

Definition demo_host (document : option Node) : Host :=
  mkHost (fun s => Some (Z.of_nat (length s))) (fun s => Ok (Z.of_nat (length s))) (fun _ => 3%nat) (fun _ => document) (fun _ => document)
    (fun bytes => inr bytes) [wide "MicrosoftInstrumentationEngine_ConfigPath64_A=c:\a.config"] id Some Some None None id (fun _ => []) 0.

Definition demo_os : Proxy.Windows := Proxy.mkWindows (fun _ _ => (0, [])) (fun a b => Some (a ++ b)) (fun _ => None) (fun _ => (Ok [], 0)) (fun _ => None).

Definition demo_clr : Clr := mkClr (fun v => v <=? 5) (Some 2) (fun _ _ _ => S_OK).

Definition demo_loader (plugin : Z -> Plugin) : Loader :=
  mkLoader true true Completed (fun _ => inr (mkLibrary true None (fun c _ => Ok (plugin c)) (fun _ => Err E_FAIL))) (fun _ => None).

Definition add_three : PluginCall := P_AddInstrumentationMethod (wide "c:\") (wide "Prawn") (wide "dart") (wide "prawn.dll") (wide "{3}") 7.

Definition demo_plugin (c : Z) : Plugin := mkPlugin (if c =? 5 then [P_SetEventMask 0x200; add_three] else [P_SetEventMask 0x100], S_OK) None.

(** Class 3 is added by class 5. *)
Definition demo_rank (im : CInstrumentationMethod) : nat := if m_guidClassId im =? 5 then 1 else 0.

Lemma demo_nesting : Nesting (demo_host (Some (document sample_configuration))) (demo_loader demo_plugin) demo_rank.
Proof.
  split; try by cbn.
  - intros im path lib n plugin script folder name description module classGuid priority guid [= <-]. cbn. intros [= <-] [->|(f & settings & ? & _)]; [|done].
    unfold demo_plugin, demo_rank. cbn [on_Initialize]. destruct (Z.eqb_spec (m_guidClassId im) 5); cbn [fst].
    + unfold add_three. intros [?|[= -> -> -> -> -> ->]%list_elem_of_singleton]%elem_of_cons; [done|]. intros [= <-]. vm_compute. lia.
    + by intros ?%list_elem_of_singleton.
  - by intros path lib c n [= <-].
  - by intros path lib c [[= <-]|?].
Qed.

Definition demo_start (plugin : Z -> Plugin) (document : option Node) (l : CLogging) : outcome (outcome unit * CProfilerManager) :=
  s <~ new_manager demo_env l ;;
  Ok (startup demo_env (demo_host document) demo_os (demo_loader plugin) demo_clr 2 (AtLaunch (fun _ => S_OK)) true s).


(** The order of the priorities 7, 50 and none: class 3 was added last. *)
Lemma demo_order :
  match demo_start demo_plugin (Some (document sample_configuration)) new_logging with
  | Ok (Ok _, s) => map (fun a => m_guidClassId (method a)) (methods_of s) = [3; 4; 5] /\ guids_of s = [4; 5]
  | _ => False
  end.
Proof. by vm_compute. Qed.

Definition demo_manager : CProfilerManager :=
  mkManager (mkSwitches false false true) (mkAttached ClrVersion_4_5 2 true []) new_masks (mkRaw None None) (mkMethods [] [] 0) [] 0 new_logging [].

(** A method with an immutable flag is added after the start-up. *)
Lemma event_mask_frozen_witness :
  let s' := calls demo_env (demo_host None) demo_os (demo_loader (fun _ => mkPlugin ([P_SetEventMask 0x800], S_OK) None)) demo_clr 1
              [(mkMethodLog [] 0 false, P_SetEventMask 0x40); (mkMethodLog [] 0 false, add_three)] demo_manager in
  length (methods_of s') = 1%nat /\ immutable_bits s' = immutable_bits demo_manager /\
  includes (m_dwEventMask (masks s')) (m_dwEventMask (masks demo_manager)) /\
  includes (m_dwEventMaskHigh (masks s')) (m_dwEventMaskHigh (masks demo_manager)) /\ Inv s' /\ guids_of s' = guids_of demo_manager.
Proof.
  split; [by vm_compute|].
  apply (event_mask_frozen demo_env (demo_host None) demo_os (demo_loader (fun _ => mkPlugin ([P_SetEventMask 0x800], S_OK) None)) demo_clr 1
    [(mkMethodLog [] 0 false, P_SetEventMask 0x40); (mkMethodLog [] 0 false, add_three)] demo_manager); [done|].
  split; cbn; constructor.
Defined.

(** A raw profiler that answers for the newest interface only *)
Lemma raw_profiler_interfaces_witness :
  forall v, GetMemberForInterface v (new_holder (fun w => if w =? 5 then Some 77 else None)) = if (1 <=? v) && (v <=? 5) then Some 77 else None.
Proof.
  apply (raw_profiler_interfaces (fun w => if w =? 5 then Some 77 else None) 5 77); [lia|done|].
  intros v Hv. destruct (Z.eqb_spec v 5); [lia|done].
Defined.

(** ** What goes wrong *)

(** A method that adds another one loses the events that it asked for before, and what it
    asks for afterwards is added to the mask of the engine, where it stays. *)
Lemma nested_add_loses_flags :
  let plugin c := mkPlugin (if c =? 5 then [P_SetEventMask 0x200; add_three; P_SetEventMask 0x1000] else [], S_OK) None in
  match demo_start plugin (Some (document sample_configuration)) new_logging with
  | Ok (Ok _, s) => map (fun a => (m_guidClassId (method a), dwFlags a)) (methods_of s) = [(3, 0); (4, 0); (5, 0)] /\
                    m_dwEventMask (masks s) = Z.lor GetDefaultEventMask 0x1000
  | _ => False
  end.
Proof. by vm_compute. Qed.

(** A method that is removed stays registered, and one that a plug-in adds is never. *)
Lemma registered_is_not_present :
  match demo_start demo_plugin (Some (document sample_configuration)) new_logging with
  | Ok (Ok _, s) =>
      let s' := calls demo_env (demo_host None) demo_os (demo_loader demo_plugin) demo_clr 1 [(mkMethodLog [] 0 false, P_RemoveInstrumentationMethod (Some 0))] s in
      map (fun a => m_guidClassId (method a)) (methods_of s') = [3; 5] /\
      (IsInstrumentationMethodRegistered 4 s').1 = Ok true /\ (IsInstrumentationMethodRegistered 3 s').1 = Ok false
  | _ => False
  end.
Proof. by vm_compute. Qed.

(** A method that fails after it asked for events is not added, and the runtime keeps the
    mask. *)
Lemma failed_method_keeps_events :
  match demo_start (fun _ => mkPlugin ([P_SetEventMask 0x200], E_FAIL) None) (Some (document sample_configuration)) new_logging with
  | Ok (Ok _, s) => methods_of s = [] /\ last (accepted_of s) = Some (Z.lor GetDefaultEventMask 0x200, Some 0)
  | _ => False
  end.
Proof. by vm_compute. Qed.

(** A configuration that cannot be read at all does not fail the start-up: the result of the
    thread is not looked at. *)
Lemma broken_configuration_starts :
  match demo_start demo_plugin None new_logging with Ok (Ok _, s) => methods_of s = [] | _ => False end.
Proof. by vm_compute. Qed.

Lemma thread_result_ignored loader (m : P unit) s hr s' :
  CreateThreadOk loader = true -> WaitForSingleObject loader = Completed -> m (on_errno_ (fun _ => 0) s) = (Err hr, s') ->
  InvokeThreadRoutine loader m s = (Ok tt, s').
Proof. intros E1 E2 Em. unfold InvokeThreadRoutine, bind, modify, attempt. rewrite E1, E2. cbn. by rewrite Em. Qed.
